(* ===== verification/_CoqProject ===== *)
-Q . S2P
Prelude.v
KMonad.v
Riscv.v
Mem.v
Hart.v
Asm.v
Start.v
Spinlock.v
Kalloc.v
Vm.v
PageTable.v
Ring.v
Uart.v
UserMem.v
Pipe.v
Console.v
Printf.v
UserVm.v
UserSpace.v
UserAlloc.v
UserFork.v
KernelMap.v
Sleeplock.v
Bytes.v
Bio.v
Virtio.v
VirtioInv.v
Log.v
LogTx.v
LogReserve.v
LogCrash.v
BlockLayer.v
Fs.v
FsDir.v
FsPath.v
FsBlk.v
FsFile.v
FsData.v
FsInode.v
FsWrite.v
FsName.v
FsSpec.v
File.v
Devsw.v
Syscall.v
Sysfile.v
Proc.v
Exec.v
Kernel.v
Sched.v
Trap.v
SchedInv.v
Boot.v
Main.v
MainBoot.v
Booted.v
Initcode.v
User.v
Grep.v
Utils.v
Umalloc.v
Sh.v
ShSpec.v
ShRun.v
Mkfs.v
MkfsInv.v
MkfsAppend.v
MkfsFiles.v
MkfsImage.v
