(* ===== verification/Prelude.v ===== *)
(** * A verification development for xv6

    The program is xv6, a small Unix for RISC-V: a kernel ([src/kernel]), its user
    programs ([src/user]) and the tool that makes a disk image ([src/mkfs]).  This
    library translates its code into Rocq functions and proves what they do.

    ** How code is translated

    C integers are [Z] with the conversions written out ([u8] .. [s32], below); bytes are
    [Z]; a pointer into an array is an index, a pointer into memory an address.  Kernel
    code is a function of the monad [M S] of KMonad: it runs on behalf of one thread
    whose context holds the spin locks it has acquired and the channels it has woken
    up, and it returns ([Ok]), panics ([Panic], also where C would be undefined) or
    sleeps ([Block]).  A routine that sleeps in the middle is cut there: what follows
    the sleep is a definition of its own, which a scheduler runs later.  Loops over a
    range are folds; other loops have fuel, and the theorems show that the fuel given by
    the calling definition is enough (the result is [Ok], never the panic for fuel).
    User code is a function of the monad [U W] of User over the system calls [Sys W].

    What components promise each other is a class: [BlockLayer] and [BlockLaws] (fs.c on
    bio.c and log.c), [UserMem] and [UserMemLaws] (fs.c, pipe.c and console.c on vm.c),
    [DevSw] (file.c on console.c), [Sys] and [SysLaws] (programs on the kernel).  Clients
    are verified against the laws; [log_laws] and [vm_laws] show that the kernel's code
    obeys them.  Addresses the linker chooses are the classes [KernelImage],
    [KernelText], [StartImage] and [TrapImage].

    ** The files

    - Prelude, KMonad, Bytes, Ring: integers, the monad and its program logic, fields of
      byte buffers, ring buffers.
    - Riscv (riscv.h, memlayout.h, param.h), Mem (string.c on byte memory), Hart
      (registers and instructions), Asm (entry.S, kernelvec.S, swtch.S, trampoline.S),
      Start (start.c).
    - Spinlock (spinlock.c at the level of instructions of several harts), Sleeplock.
    - Kalloc (kalloc.c), Vm (vm.c), PageTable (page tables as trees), UserVm and
      UserSpace (the memory of a process; copyin and copyout), UserAlloc (uvmalloc,
      uvmdealloc, uvmunmap), UserFork (uvmcopy and the theorems on user memory), KernelMap
      (kvmmake and proc_mapstacks: the kernel's own address space).
    - Uart, Console, Printf, Pipe, UserMem, Devsw: the character devices and pipes.
    - Bio (bio.c), Virtio and VirtioInv (virtio_disk.c against the device), Log (log.c),
      LogTx (what a transaction sees), LogReserve (the reservation of begin_op),
      LogCrash (crashes and recovery), BlockLayer (the interface to fs.c).
    - Fs and FsDir (fs.c), File (file.c), Syscall (syscall.c), Sysfile (sysfile.c), Exec
      (exec.c).  What fs.c does, against the laws of the block layer: FsPath (namex),
      FsBlk (the bitmap), FsFile, FsData, FsInode and FsWrite (the blocks and bytes of a
      file), FsName (directories as maps), FsSpec (the theorems).
    - Proc (proc.c), Kernel (syscall.c and sysproc.c), Sched and SchedInv (processes on
      several processors), Trap (trap.c and plic.c), Boot (a concrete machine).
    - Main (main.c, with kvminit and kvminithart), MainBoot (virtio_disk_init and userinit
      at boot) and Booted (main as a whole); Initcode (user/initcode.S and the bytes of it
      in proc.c).
    - User (ulib.c, printf.c and the system call stubs), Grep (grep.c), Utils (the other
      utilities), Umalloc (umalloc.c), Sh (sh.c), ShSpec (its parser against a grammar),
      ShRun (from a line to its end).
    - Mkfs (mkfs.c), MkfsInv, MkfsAppend, MkfsFiles and MkfsImage (the disk it makes).

    ** What is shown

    - The log: a crash at any disk write of a commit leaves all or none of it, recovery
      may itself crash, [end_op] makes a transaction durable, and its reservation is
      enough up to the size of the log area (LogCrash, LogTx, LogReserve).
    - The buffer cache is least-recently-used and keeps one copy of a block (Bio); the
      disk driver lays out its requests as the device expects them, moves the data it was
      asked to in any interleaving with the device, panics only when the device reports
      an error, and loses no wakeup (VirtioInv).
    - The page allocator refines a stack of pages (Kalloc); page tables stay well-formed
      trees, [copyout] and [copyin] agree, [uvmcopy] copies bytes and permissions, and
      [uvmalloc] and [uvmcopy] do all or nothing and lose no page (UserFork).
    - Spin locks exclude each other at the level of instructions (Spinlock), sleep locks
      too and they lose no wakeup (Sleeplock); a process is RUNNING on one processor at
      most, pids are unique as long as they do not overflow, and no process sleeps in wait
      past a zombie child, in any interleaving of the critical sections (SchedInv, whose
      header says what is one step).
    - A trap, an interrupt and a context switch preserve the registers they should
      (Asm, Trap); sleep lasts as long as it says (Trap).
    - Pipes, the uart (which loses a character written when it is not ready) and the
      console keep the characters in order (Pipe, Uart, Console); printf prints what its
      format says (Printf).
    - A file is its bytes: [writei] overwrites a slice of them, [readi] reads it back, and
      the blocks logged stay within what begin_op reserves; a directory is a finite map,
      and [dirlink] an insertion (FsSpec).  [namex] walks the components of the path and
      ends (FsPath).
    - main on hart 0 reaches the scheduler, whatever RAM holds: paging is on in a table
      that maps the kernel's regions and nothing else, and the first process is ready to
      run initcode (Booted), which calls exec on /init (Initcode).
    - mkfs makes a disk that is a file system in the sense of FsFile's invariants, with the
      files it was given, but for the size of a root directory whose entries fill its last
      block (MkfsImage).
    - grep's matcher decides the language of the pattern, and grep prints the matching
      lines up to the first that its buffer cannot hold or that contains a zero (Grep).
      The user allocator keeps blocks apart (Umalloc).  The shell's parser decides a
      grammar of command lines, and every command line ends, as long as malloc serves the
      shell (ShRun).

    ** Bounds

    [Boot] runs the definitions on a machine with sixteen free pages, and witnesses use
    small concrete states.  Sixty-four processes, thirty buffers and the other sizes of
    param.h are those of the source.  Booting is shown for 150 pages of RAM above the
    kernel: 72 page tables, 64 stacks, 3 pages of the disk and 10 of the first process are
    enough.  The fuel of a loop is computed from its data (the length of a path, a line or
    a file, the number of blocks), and each theorem shows that it suffices.

    ** Not modelled

    usertests.c and grind.c, which are tests of the kernel; ramdisk.c, which is not built;
    linker scripts, prototypes and the build.  The memory model is sequentially
    consistent; TLB and instruction caches are not modelled, so [sfence.vma] and [fence.i]
    do nothing.  mycpu and myproc, which only read tp and the table of processors, are
    arguments of the routines that call them; procdump is given by the text it prints.
    The host's files, which mkfs reads, and the answers of the disk's registers are
    parameters. *)

From Stdlib Require Export Ascii String.
From stdpp Require Export base numbers list gmap strings.
From Stdlib Require Export ZArith Lia.

#[export] Set Default Goal Selector "!".

Declare Scope c_scope.
Delimit Scope c_scope with C.
Open Scope Z_scope.

(** ** Machine integers

    A w-bit C integer is a [Z]; every conversion that C performs implicitly is
    written out as one of these functions. *)

Definition u8 (x : Z) : Z := x mod 2 ^ 8.
Definition u16 (x : Z) : Z := x mod 2 ^ 16.
Definition u32 (x : Z) : Z := x mod 2 ^ 32.
Definition u64 (x : Z) : Z := x mod 2 ^ 64.

(** Reinterpretation of a bit pattern as a two's complement number. *)
Definition s16 (x : Z) : Z := (x + 2 ^ 15) mod 2 ^ 16 - 2 ^ 15.
Definition s32 (x : Z) : Z := (x + 2 ^ 31) mod 2 ^ 32 - 2 ^ 31.

Notation "'uint_range' x" := (0 <= x < 2 ^ 32) (at level 10, x at level 9).
Notation "'uint64_range' x" := (0 <= x < 2 ^ 64) (at level 10, x at level 9).

Create HintDb xv6 discriminated.
Create Rewrite HintDb xv6.

Lemma u8_small x : 0 <= x < 2 ^ 8 -> u8 x = x.
Proof. apply Z.mod_small. Qed.
Lemma u16_small x : 0 <= x < 2 ^ 16 -> u16 x = x.
Proof. apply Z.mod_small. Qed.
Lemma u32_small x : 0 <= x < 2 ^ 32 -> u32 x = x.
Proof. apply Z.mod_small. Qed.
Lemma u64_small x : 0 <= x < 2 ^ 64 -> u64 x = x.
Proof. apply Z.mod_small. Qed.

Lemma u8_range x : 0 <= u8 x < 2 ^ 8.
Proof. apply Z.mod_pos_bound; lia. Qed.
Lemma u16_range x : 0 <= u16 x < 2 ^ 16.
Proof. apply Z.mod_pos_bound; lia. Qed.
Lemma u32_range x : 0 <= u32 x < 2 ^ 32.
Proof. apply Z.mod_pos_bound; lia. Qed.
Lemma u64_range x : 0 <= u64 x < 2 ^ 64.
Proof. apply Z.mod_pos_bound; lia. Qed.

Lemma s32_small x : - 2 ^ 31 <= x < 2 ^ 31 -> s32 x = x.
Proof. intros. unfold s32. rewrite Z.mod_small; lia. Qed.
Lemma s16_small x : - 2 ^ 15 <= x < 2 ^ 15 -> s16 x = x.
Proof. intros. unfold s16. rewrite Z.mod_small; lia. Qed.
Lemma s32_range x : - 2 ^ 31 <= s32 x < 2 ^ 31.
Proof. unfold s32. pose proof (Z.mod_pos_bound (x + 2 ^ 31) (2 ^ 32)); lia. Qed.
Lemma s16_range x : - 2 ^ 15 <= s16 x < 2 ^ 15.
Proof. unfold s16. pose proof (Z.mod_pos_bound (x + 2 ^ 15) (2 ^ 16)); lia. Qed.

#[export] Hint Resolve u8_range u16_range u32_range u64_range s32_range s16_range : xv6.

(** ** Arrays

    A C array of fixed length is a list; an element is read with a default, and
    written only in range (the callers prove their indices in range). *)

Definition nthZ {A} (d : A) (l : list A) (i : Z) : A := nth (Z.to_nat i) l d.
Definition setZ {A} (l : list A) (i : Z) (x : A) : list A := <[Z.to_nat i := x]> l.

(** A pointer into a static array is an index of it, a null pointer [NULL]. *)
Definition NULL := -1.

#[global] Arguments nthZ : simpl never.
#[global] Arguments setZ : simpl never.

Section arrays.
Context {A : Type}.
Implicit Types (l : list A) (i j : Z) (x d : A).

Lemma length_setZ l i x : length (setZ l i x) = length l.
Proof. apply length_insert. Qed.

Lemma nthZ_setZ_eq d l i x :
  0 <= i < Z.of_nat (length l) -> nthZ d (setZ l i x) i = x.
Proof.
  intros. unfold nthZ, setZ. apply nth_lookup_Some.
  apply list_lookup_insert_eq. lia.
Qed.

Lemma nthZ_setZ_ne d l i j x :
  0 <= i -> 0 <= j -> i <> j -> nthZ d (setZ l i x) j = nthZ d l j.
Proof.
  intros. unfold nthZ, setZ. rewrite !nth_lookup.
  rewrite list_lookup_insert_ne by lia. done.
Qed.

Lemma nthZ_lookup d l i x : 0 <= i -> l !! Z.to_nat i = Some x -> nthZ d l i = x.
Proof. intros ? H. unfold nthZ. by apply nth_lookup_Some. Qed.

Lemma lookup_nthZ d l i :
  0 <= i < Z.of_nat (length l) -> l !! Z.to_nat i = Some (nthZ d l i).
Proof.
  intros. destruct (l !! Z.to_nat i) as [y|] eqn:E.
  - f_equal. symmetry. apply nthZ_lookup; [lia|done].
  - apply lookup_ge_None in E. lia.
Qed.

Lemma nthZ_elem d l i : 0 <= i < Z.of_nat (length l) -> nthZ d l i ∈ l.
Proof. intros. eapply list_elem_of_lookup_2, lookup_nthZ. done. Qed.

Lemma nthZ_setZ d l i j x :
  0 <= i < Z.of_nat (length l) -> 0 <= j ->
  nthZ d (setZ l i x) j = if decide (i = j) then x else nthZ d l j.
Proof.
  intros. case_decide as E; subst.
  - by rewrite nthZ_setZ_eq.
  - apply nthZ_setZ_ne; lia.
Qed.

Lemma setZ_id d l i x : 0 <= i < Z.of_nat (length l) -> nthZ d l i = x -> setZ l i x = l.
Proof.
  intros Hi E. unfold setZ. apply list_insert_id. rewrite <- E. by apply lookup_nthZ.
Qed.

Lemma take_setZ_ge l i x n : Z.of_nat n <= i -> take n (setZ l i x) = take n l.
Proof. intros Hi. unfold setZ. apply take_insert_ge. lia. Qed.

Lemma nthZ_take d l i n : 0 <= i < Z.of_nat n -> nthZ d (take n l) i = nthZ d l i.
Proof. intros Hi. unfold nthZ. rewrite !nth_lookup, lookup_take_lt by lia. done. Qed.
End arrays.

#[export] Hint Rewrite @length_setZ : xv6.

(** The indices [0 .. n-1] of a C loop [for(i = 0; i < n; i++)]. *)
Definition upto (n : Z) : list Z := Z.of_nat <$> seq 0 (Z.to_nat n).

Lemma elem_of_upto n i : i ∈ upto n <-> 0 <= i < n.
Proof.
  unfold upto. rewrite list_elem_of_fmap. setoid_rewrite elem_of_seq. split.
  - intros (k & -> & ?). lia.
  - intros. exists (Z.to_nat i). lia.
Qed.

Lemma upto_S n : 0 <= n -> upto (n + 1) = upto n ++ [n].
Proof.
  intros. unfold upto. rewrite Z.add_1_r, Z2Nat.inj_succ, seq_S, fmap_app by done.
  cbn. by rewrite Z2Nat.id.
Qed.

Lemma length_upto n : length (upto n) = Z.to_nat n.
Proof. unfold upto. by rewrite length_fmap, length_seq. Qed.

Lemma lookup_upto n j : Z.of_nat j < n -> upto n !! j = Some (Z.of_nat j).
Proof.
  intros Hj. unfold upto. rewrite list_lookup_fmap, lookup_seq_lt by lia. done.
Qed.

Lemma NoDup_upto n : NoDup (upto n).
Proof. unfold upto. apply NoDup_fmap_2; [intros ??; lia|apply NoDup_seq]. Qed.

Lemma upto_0 : upto 0 = [].
Proof. done. Qed.

(** ** Characters

    A [char] is unsigned on this machine; a C string is the list of its characters
    before the terminating zero. *)

Definition chr (a : ascii) : Z := Z.of_N (N_of_ascii a).
Fixpoint str (s : string) : list Z :=
  match s with
  | EmptyString => []
  | String a s' => chr a :: str s'
  end.

(** The C string at the start of a buffer. *)
Fixpoint cstr (l : list Z) : list Z :=
  match l with
  | [] => []
  | c :: l' => if c =? 0 then [] else c :: cstr l'
  end.

Lemma chr_range a : 0 <= chr a < 256.
Proof. unfold chr. pose proof (N_ascii_bounded a). lia. Qed.

Lemma str_range s : Forall (fun c => 0 <= c < 256) (str s).
Proof. induction s; constructor; [apply chr_range|done]. Qed.

(** ** Tactics *)

(** Case analysis on the boolean tests that the C conditions become. *)
Ltac bool_spec :=
  repeat match goal with
  | H : (_ && _)%bool = true |- _ => apply andb_true_iff in H; destruct H
  | H : (_ || _)%bool = false |- _ => apply orb_false_iff in H; destruct H
  | H : negb _ = true |- _ => apply negb_true_iff in H
  | H : negb _ = false |- _ => apply negb_false_iff in H
  | H : (_ =? _) = true |- _ => apply Z.eqb_eq in H
  | H : (_ =? _) = false |- _ => apply Z.eqb_neq in H
  | H : (_ <? _) = true |- _ => apply Z.ltb_lt in H
  | H : (_ <? _) = false |- _ => apply Z.ltb_ge in H
  | H : (_ <=? _) = true |- _ => apply Z.leb_le in H
  | H : (_ <=? _) = false |- _ => apply Z.leb_gt in H
  end.

(** A decidable closed statement. *)
Ltac by_eval := apply (bool_decide_unpack _); vm_compute; exact I.

(** ** Transition systems *)

Lemma rtc_preserves {A} {R : A -> A -> Prop} (P : A -> Prop) x y :
  (forall x y, R x y -> P x -> P y) -> rtc R x y -> P x -> P y.
Proof. intros Hstep Hr. induction Hr; eauto. Qed.
