(* ===== verification/KMonad.v ===== *)
(** * The kernel monad

    Kernel code runs on behalf of one thread, against the state [S] of the
    component it belongs to.  The thread context records the spin locks the
    thread holds and the [wakeup] calls it has made; [panic] stops the machine,
    and a call of [sleep] hands the processor back, so a computation that cannot
    go on without another thread ends in [Block]. *)

From S2P Require Import Prelude.

Inductive lock :=
| LK_kmem | LK_pid | LK_wait | LK_proc (i : Z)
| LK_bcache | LK_log | LK_itable | LK_ftable | LK_ticks
| LK_pipe (a : Z) | LK_cons | LK_uart | LK_vdisk | LK_pr
| LK_sleep_buf (i : Z) | LK_sleep_inode (i : Z).

#[export] Instance lock_eq_dec : EqDecision lock.
Proof. solve_decision. Defined.

Inductive chan :=
| CH_proc (i : Z) | CH_log | CH_ticks
| CH_pipe_nread (a : Z) | CH_pipe_nwrite (a : Z)
| CH_cons_r | CH_uart_tx_r | CH_disk_free | CH_buf (i : Z)
| CH_sleep_buf (i : Z) | CH_sleep_inode (i : Z).

#[export] Instance chan_eq_dec : EqDecision chan.
Proof. solve_decision. Defined.

(** The context of the running kernel thread: the spin locks it holds, the
    channels it has woken (latest first), and the pid of the process it runs for. *)
Record ctx := Ctx { held : list lock; wakes : list chan; mypid : Z }.
Definition no_locks : ctx := Ctx [] [] 0.

Inductive res (S A : Type) :=
| Ok (a : A) (c : ctx) (s : S)
| Panic (msg : string)
| Block (ch : chan) (c : ctx) (s : S).
Arguments Ok {S A} a c s.
Arguments Panic {S A} msg.
Arguments Block {S A} ch c s.

Definition M (S A : Type) : Type := ctx -> S -> res S A.

Definition ret {S A} (a : A) : M S A := fun c s => Ok a c s.
Definition bind {S A B} (m : M S A) (k : A -> M S B) : M S B := fun c s =>
  match m c s with
  | Ok a c' s' => k a c' s'
  | Panic msg => Panic msg
  | Block ch c' s' => Block ch c' s'
  end.
Definition panic {S A} (msg : string) : M S A := fun _ _ => Panic msg.
Definition gets {S A} (f : S -> A) : M S A := fun c s => Ok (f s) c s.
Definition modify {S} (f : S -> S) : M S unit := fun c s => Ok tt c (f s).
Definition whoami {S} : M S Z := fun c s => Ok (mypid c) c s.

Declare Scope kmonad_scope.
Delimit Scope kmonad_scope with km.
Notation "x <- m ;; k" := (bind m (fun x => k))
  (at level 100, m at next level, right associativity) : kmonad_scope.
Notation "m ;; k" := (bind m (fun _ => k))
  (at level 100, right associativity) : kmonad_scope.
Notation "'when' b 'do' m" := (if b then m else ret tt)
  (at level 100, b at level 99, m at level 100) : kmonad_scope.
Open Scope kmonad_scope.

(** ** Spin locks, as the code between [acquire] and [release] sees them

    [acquire] of a lock the thread already holds panics, as does [release] of
    one it does not hold (kernel/spinlock.c lines 25 and 49).  The
    file Spinlock models the lock words, the processors and the interleaving,
    and proves that this is what they implement. *)

Definition acquire {S} (l : lock) : M S unit := fun c s =>
  if decide (l ∈ held c) then Panic "acquire"
  else Ok tt (Ctx (l :: held c) (wakes c) (mypid c)) s.

Definition remove_lock (l : lock) (ls : list lock) : list lock :=
  filter (fun l' => l' <> l) ls.

#[global] Arguments remove_lock : simpl never.

Definition release {S} (l : lock) : M S unit := fun c s =>
  if decide (l ∈ held c)
  then Ok tt (Ctx (remove_lock l (held c)) (wakes c) (mypid c)) s
  else Panic "release".

Definition holding {S} (l : lock) : M S bool := fun c s =>
  Ok (bool_decide (l ∈ held c)) c s.

(** [wakeup(chan)], seen from a component that does not own the process table:
    the call is recorded.  Its effect on the table is [Proc.wakeup]. *)
Definition wakeup {S} (ch : chan) : M S unit := fun c s =>
  Ok tt (Ctx (held c) (ch :: wakes c) (mypid c)) s.

(** [sleep(chan, lk)]: the thread must hold [lk], which is released; the thread
    then waits on [chan]. *)
Definition sleep {S A} (ch : chan) (l : lock) : M S A := fun c s =>
  match release l c s with
  | Ok _ c' s' => Block ch c' s'
  | Panic msg => Panic msg
  | Block ch' c' s' => Block ch' c' s'
  end.

(** Run a computation of a component inside a larger state. *)
Definition zoom {S T A} (get : S -> T) (put : T -> S -> S) (m : M T A) : M S A :=
  fun c s =>
    match m c (get s) with
    | Ok a c' t => Ok a c' (put t s)
    | Panic msg => Panic msg
    | Block ch c' t => Block ch c' (put t s)
    end.

(** [for(x in l) body(x)] *)
Fixpoint mfor {S A} (l : list A) (body : A -> M S unit) : M S unit :=
  match l with
  | [] => ret tt
  | x :: l' => body x ;; mfor l' body
  end.

(** ** Lemmas *)

Section laws.
Context {S A B C : Type}.

Lemma bind_Ok (m : M S A) (k : A -> M S B) c s a c' s' :
  m c s = Ok a c' s' -> bind m k c s = k a c' s'.
Proof. intros H. unfold bind. by rewrite H. Qed.

Lemma bind_Ok_inv (m : M S A) (k : A -> M S B) c s b c' s' :
  bind m k c s = Ok b c' s' ->
  exists a c1 s1, m c s = Ok a c1 s1 /\ k a c1 s1 = Ok b c' s'.
Proof. unfold bind. destruct (m c s); naive_solver. Qed.

Lemma bind_assoc (m : M S A) (k : A -> M S B) (h : B -> M S C) c s :
  bind (bind m k) h c s = bind m (fun a => bind (k a) h) c s.
Proof. unfold bind. by destruct (m c s). Qed.
End laws.

Lemma mfor_app {S A} (l1 l2 : list A) (body : A -> M S unit) c s :
  mfor (l1 ++ l2) body c s = bind (mfor l1 body) (fun _ => mfor l2 body) c s.
Proof.
  revert c s. induction l1 as [|x l1 IH]; intros c s; [done|].
  cbn [mfor app]. unfold bind. destruct (body x c s); [apply IH|done|done].
Qed.

Lemma remove_lock_head l ls : l ∉ ls -> remove_lock l (l :: ls) = ls.
Proof.
  intros H. unfold remove_lock. rewrite filter_cons_False by naive_solver.
  induction ls as [|x ls IH]; [done|].
  apply not_elem_of_cons in H as [? ?].
  rewrite filter_cons_True by done. by rewrite IH.
Qed.

(** A critical section leaves the set of held locks as it was. *)
Lemma acquire_release_Ok {S} (l : lock) c (s s' : S) ws :
  l ∉ held c ->
  acquire l c s = Ok tt (Ctx (l :: held c) (wakes c) (mypid c)) s /\
  release l (Ctx (l :: held c) ws (mypid c)) s' =
    Ok tt (Ctx (held c) ws (mypid c)) s'.
Proof.
  intros H. unfold acquire, release. rewrite decide_False by done.
  cbn [held wakes mypid]. rewrite decide_True by (by left).
  by rewrite remove_lock_head.
Qed.

(** Contexts that differ at most in the wakeups issued. *)
Definition ceq (c c' : ctx) : Prop := held c = held c' /\ mypid c = mypid c'.

#[export] Instance ceq_equiv : Equivalence ceq.
Proof.
  split.
  - done.
  - intros c c' [? ?]. by split.
  - intros c1 c2 c3 [? ?] [? ?]. split; by etransitivity.
Qed.

Ltac ceqs := unfold ceq in *; intuition congruence.

Lemma ceq_trans c1 c2 c3 : ceq c1 c2 -> ceq c2 c3 -> ceq c1 c3.
Proof. apply transitivity. Qed.

(** Critical sections, one statement at a time. *)
Section critical.
Context {S A : Type} (l : lock).

Lemma bind_acquire (k : unit -> M S A) c s :
  l ∉ held c ->
  bind (acquire l) k c s = k tt (Ctx (l :: held c) (wakes c) (mypid c)) s.
Proof. intros H. unfold bind, acquire. by rewrite decide_False. Qed.

Lemma bind_release (k : unit -> M S A) ls ws p s :
  l ∉ ls ->
  bind (release l) k (Ctx (l :: ls) ws p) s = k tt (Ctx ls ws p) s.
Proof.
  intros H. unfold bind, release. cbn [held]. rewrite decide_True by (by left).
  by rewrite remove_lock_head.
Qed.

Lemma release_run ls ws p (s : S) :
  l ∉ ls -> release l (Ctx (l :: ls) ws p) s = Ok tt (Ctx ls ws p) s.
Proof.
  intros H. unfold release. cbn [held]. rewrite decide_True by (by left).
  by rewrite remove_lock_head.
Qed.
End critical.

Lemma ctx_eta c : Ctx (held c) (wakes c) (mypid c) = c.
Proof. by destruct c. Qed.

(** ** Total correctness

    [runs m c s Q]: the computation neither panics nor blocks, leaves the held
    locks as they were, and ends in a result and state that satisfy [Q]. *)
Definition runs {S A} (m : M S A) (c : ctx) (s : S) (Q : A -> S -> Prop) : Prop :=
  exists a c' s', m c s = Ok a c' s' /\ ceq c c' /\ Q a s'.

Section runs.
Context {S A B : Type}.

Lemma runs_ret (a : A) c (s : S) (Q : A -> S -> Prop) : Q a s -> runs (ret a) c s Q.
Proof. intros HQ. by exists a, c, s. Qed.

Lemma runs_bind (m : M S A) (k : A -> M S B) c s Q :
  runs m c s (fun a s1 => forall c1, ceq c c1 -> runs (k a) c1 s1 Q) ->
  runs (bind m k) c s Q.
Proof.
  intros (a & c1 & s1 & Hm & Hc & Hk).
  destruct (Hk c1 Hc) as (b & c2 & s2 & Hk2 & Hc2 & HQ).
  exists b, c2, s2. split_and!; [by rewrite (bind_Ok _ _ _ _ _ _ _ Hm)| |done].
  by etransitivity.
Qed.

Lemma runs_mono (m : M S A) c s (Q Q' : A -> S -> Prop) :
  runs m c s Q -> (forall a s', Q a s' -> Q' a s') -> runs m c s Q'.
Proof. intros (a & c' & s' & ? & ? & ?) HQ. exists a, c', s'. eauto. Qed.

Lemma runs_gets (f : S -> A) c s Q : Q (f s) s -> runs (gets f) c s Q.
Proof. intros HQ. by exists (f s), c, s. Qed.

(** A step that changes nothing. *)
Lemma runs_same (m : M S A) (k : A -> M S B) c s x Q :
  m c s = Ok x c s -> runs (k x) c s Q -> runs (bind m k) c s Q.
Proof. intros E (b & c' & s' & Hk & ?). exists b, c', s'. by rewrite (bind_Ok _ _ _ _ _ _ _ E). Qed.

Lemma runs_Ok (m : M S A) c s a c' s' (Q : A -> S -> Prop) :
  m c s = Ok a c' s' -> ceq c c' -> Q a s' -> runs m c s Q.
Proof. intros. by exists a, c', s'. Qed.
End runs.

Lemma runs_modify {S} (f : S -> S) c s (Q : unit -> S -> Prop) :
  Q tt (f s) -> runs (modify f) c s Q.
Proof. intros HQ. by exists tt, c, (f s). Qed.

(** [for(i = 0; i < n; i++) body(i)] with a loop invariant. *)
Lemma runs_mfor_from {S} (I : Z -> S -> Prop) (body : Z -> M S unit) (m k : nat) c s Q :
  I (Z.of_nat k) s ->
  (forall i c' s', Z.of_nat k <= i < Z.of_nat (k + m) -> ceq c c' -> I i s' ->
     runs (body i) c' s' (fun _ s'' => I (i + 1) s'')) ->
  (forall s', I (Z.of_nat (k + m)) s' -> Q tt s') ->
  runs (mfor (Z.of_nat <$> seq k m) body) c s Q.
Proof.
  revert k c s. induction m as [|m IH]; intros k c s HI Hb HQ; cbn.
  - apply runs_ret, HQ. by rewrite Nat.add_0_r.
  - apply runs_bind. eapply runs_mono; [apply Hb; [lia|done|done]|].
    cbn. intros _ s1 HI1 c1 Hc1. apply IH.
    + by rewrite Nat2Z.inj_succ, <- Z.add_1_r.
    + intros i c' s' Hi Hc' HI'. apply Hb; [lia|by etransitivity|done].
    + intros s' HI'. apply HQ. by rewrite Nat.add_succ_r.
Qed.

Lemma runs_mfor {S} (I : Z -> S -> Prop) (body : Z -> M S unit) (n : Z) c s Q :
  0 <= n -> I 0 s ->
  (forall i c' s', 0 <= i < n -> ceq c c' -> I i s' ->
     runs (body i) c' s' (fun _ s'' => I (i + 1) s'')) ->
  (forall s', I n s' -> Q tt s') ->
  runs (mfor (upto n) body) c s Q.
Proof.
  intros Hn HI Hb HQ. apply (runs_mfor_from I); [done| |].
  - intros i c' s' Hi. apply Hb. lia.
  - intros s' HI'. apply HQ. by rewrite Nat.add_0_l, Z2Nat.id in HI'.
Qed.

(** A computation on a part of the state. *)
Lemma runs_zoom {S T A} (get : S -> T) (put : T -> S -> S) (m : M T A) c s Q :
  runs m c (get s) (fun a t => Q a (put t s)) -> runs (zoom get put m) c s Q.
Proof.
  intros (a & c' & t & Hm & Hc & HQ). exists a, c', (put t s).
  split_and!; [|done|done]. unfold zoom. by rewrite Hm.
Qed.

(** ** Weakest preconditions

    Inside a critical section the held locks differ from those at its ends, so
    the postcondition of [wp] sees the final context too. *)
Definition wp {S A} (m : M S A) (c : ctx) (s : S) (Q : A -> ctx -> S -> Prop) : Prop :=
  exists a c' s', m c s = Ok a c' s' /\ Q a c' s'.

Definition locked (l : lock) (c : ctx) : ctx := Ctx (l :: held c) (wakes c) (mypid c).

Section wp.
Context {S A B : Type}.

Lemma wp_ret (a : A) c (s : S) (Q : A -> ctx -> S -> Prop) : Q a c s -> wp (ret a) c s Q.
Proof. intros HQ. by exists a, c, s. Qed.

Lemma wp_bind (m : M S A) (k : A -> M S B) c s Q :
  wp m c s (fun a c1 s1 => wp (k a) c1 s1 Q) -> wp (bind m k) c s Q.
Proof.
  intros (a & c1 & s1 & Hm & b & c2 & s2 & Hk & HQ). exists b, c2, s2.
  split; [|done]. unfold bind. by rewrite Hm.
Qed.

Lemma wp_mono (m : M S A) c s (Q Q' : A -> ctx -> S -> Prop) :
  wp m c s Q -> (forall a c' s', Q a c' s' -> Q' a c' s') -> wp m c s Q'.
Proof. intros (a & c' & s' & ? & ?) HQ. exists a, c', s'. eauto. Qed.

Lemma wp_gets (f : S -> A) c s Q : Q (f s) c s -> wp (gets f) c s Q.
Proof. intros HQ. by exists (f s), c, s. Qed.

Lemma wp_modify (f : S -> S) c s (Q : unit -> ctx -> S -> Prop) :
  Q tt c (f s) -> wp (modify f) c s Q.
Proof. intros HQ. by exists tt, c, (f s). Qed.

Lemma wp_acquire l c s (Q : unit -> ctx -> S -> Prop) :
  l ∉ held c -> Q tt (locked l c) s -> wp (acquire l) c s Q.
Proof.
  intros Hl HQ. exists tt, (locked l c), s. split; [|done].
  unfold acquire. by rewrite decide_False.
Qed.

(** Locks are released by the thread that took them, wakeups happen in between. *)
Lemma wp_release l c c0 s (Q : unit -> ctx -> S -> Prop) :
  held c = l :: held c0 -> l ∉ held c0 ->
  Q tt (Ctx (held c0) (wakes c) (mypid c)) s -> wp (release l) c s Q.
Proof.
  intros Hh Hl HQ. exists tt, (Ctx (held c0) (wakes c) (mypid c)), s. split; [|done].
  unfold release. rewrite Hh, decide_True by (by left). by rewrite remove_lock_head.
Qed.

Lemma wp_wakeup ch c s (Q : unit -> ctx -> S -> Prop) :
  Q tt (Ctx (held c) (ch :: wakes c) (mypid c)) s -> wp (wakeup ch) c s Q.
Proof. intros HQ. eexists _, _, _. split; [reflexivity|done]. Qed.

(** From and to [runs]. *)
Lemma wp_runs (m : M S A) c s Q (R : A -> ctx -> S -> Prop) :
  runs m c s Q -> (forall a c' s', ceq c c' -> Q a s' -> R a c' s') -> wp m c s R.
Proof. intros (a & c' & s' & ? & ? & ?) HR. exists a, c', s'. eauto. Qed.

Lemma runs_wp (m : M S A) c s (Q : A -> S -> Prop) :
  wp m c s (fun a c' s' => ceq c c' /\ Q a s') -> runs m c s Q.
Proof. done. Qed.
End wp.

Lemma wp_zoom {S T A} (get : S -> T) (put : T -> S -> S) (m : M T A) c s Q :
  wp m c (get s) (fun a c' t => Q a c' (put t s)) -> wp (zoom get put m) c s Q.
Proof. intros (a & c' & t & E & HQ). exists a, c', (put t s). split; [|done]. unfold zoom. by rewrite E. Qed.

(** A loop that keeps the context, with the elements done so far. *)
Lemma wp_mfor {S B} (I : list B -> S -> Prop) (body : B -> M S unit) l c s (Q : unit -> ctx -> S -> Prop) :
  I [] s ->
  (forall done x s', x ∈ l -> I done s' -> wp (body x) c s' (fun _ c' s'' => c' = c /\ I (done ++ [x]) s'')) ->
  (forall s', I l s' -> Q tt c s') -> wp (mfor l body) c s Q.
Proof.
  intros HI Hb HQ.
  assert (Hall : forall l1 l2 s, l = l1 ++ l2 -> I l1 s -> wp (mfor l2 body) c s Q).
  { clear s HI. intros l1 l2. revert l1. induction l2 as [|x l2 IH]; intros l1 s El HI; cbn [mfor].
    - apply wp_ret, HQ. by rewrite El, app_nil_r.
    - apply wp_bind. eapply wp_mono; [apply Hb; [|exact HI]|].
      + rewrite El. apply elem_of_app. right. by left.
      + cbn. intros [] c1 s1 [-> HI1]. apply (IH (l1 ++ [x])); [|done]. by rewrite El, <- app_assoc. }
  by apply (Hall []).
Qed.

Lemma wp_upto {S} (I : Z -> S -> Prop) (body : Z -> M S unit) n c s (Q : unit -> ctx -> S -> Prop) :
  0 <= n -> I 0 s ->
  (forall i s', 0 <= i < n -> I i s' -> wp (body i) c s' (fun _ c' s'' => c' = c /\ I (i + 1) s'')) ->
  (forall s', I n s' -> Q tt c s') -> wp (mfor (upto n) body) c s Q.
Proof.
  intros Hn. revert Q. pattern n. apply natlike_ind; [| |done]; clear n Hn.
  - intros Q HI _ HQ. apply wp_ret. by apply HQ.
  - intros n Hn IH Q HI Hb HQ. rewrite <- Z.add_1_r in *. rewrite upto_S by done. unfold wp. rewrite mfor_app. apply wp_bind.
    apply IH; [done|intros i s' Hi; apply Hb; lia|]. intros s1 H1. cbn [mfor]. apply wp_bind. eapply wp_mono; [apply (Hb n s1); [lia|done]|].
    intros [] c' s2 [-> H2]. apply wp_ret. by apply HQ.
Qed.

(** ** Partial correctness

    [post m s Q]: if the computation returns, its result and state satisfy [Q],
    whatever locks are held. *)
Definition post {S A} (m : M S A) (s : S) (Q : A -> S -> Prop) : Prop :=
  forall c a c' s', m c s = Ok a c' s' -> Q a s'.

Section post.
Context {S A B : Type}.

Lemma post_ret (a : A) (s : S) (Q : A -> S -> Prop) : Q a s -> post (ret a) s Q.
Proof. intros HQ c a' c' s' [= <- <- <-]. done. Qed.

Lemma post_bind (m : M S A) (k : A -> M S B) s Q :
  post m s (fun a s1 => post (k a) s1 Q) -> post (bind m k) s Q.
Proof. intros Hm c b c' s' (a & c1 & s1 & H1 & H2)%bind_Ok_inv. exact (Hm _ _ _ _ H1 _ _ _ _ H2). Qed.

Lemma post_mono (m : M S A) s (Q Q' : A -> S -> Prop) :
  post m s Q -> (forall a s', Q a s' -> Q' a s') -> post m s Q'.
Proof. intros Hm HQ c a c' s' H. eapply HQ, Hm, H. Qed.

Lemma post_gets (f : S -> A) s (Q : A -> S -> Prop) : Q (f s) s -> post (gets f) s Q.
Proof. intros HQ c a c' s' [= <- <- <-]. done. Qed.

Lemma post_modify (f : S -> S) s (Q : unit -> S -> Prop) : Q tt (f s) -> post (modify f) s Q.
Proof. intros HQ c a c' s' [= <- <- <-]. done. Qed.

Lemma post_panic msg s (Q : A -> S -> Prop) : post (panic msg) s Q.
Proof. intros c a c' s' [=]. Qed.

Lemma post_acquire l s (Q : unit -> S -> Prop) : Q tt s -> post (acquire l) s Q.
Proof. intros HQ c a c' s' H. unfold acquire in H. case_decide; by simplify_eq. Qed.

Lemma post_release l s (Q : unit -> S -> Prop) : Q tt s -> post (release l) s Q.
Proof. intros HQ c a c' s' H. unfold release in H. case_decide; by simplify_eq. Qed.

Lemma post_holding l s (Q : bool -> S -> Prop) : (forall b, Q b s) -> post (holding l) s Q.
Proof. intros HQ c a c' s' [= <- <- <-]. done. Qed.

Lemma post_trivial (m : M S A) s : post m s (fun _ _ => True).
Proof. by intros ????. Qed.

End post.

Lemma post_mfor {S B} (I : list B -> S -> Prop) (body : B -> M S unit) l s Q :
  I l s -> (forall x l' s', I (x :: l') s' -> post (body x) s' (fun _ s'' => I l' s'')) ->
  (forall s', I [] s' -> Q tt s') -> post (mfor l body) s Q.
Proof.
  intros HI Hb HQ. revert s HI. induction l as [|x l IH]; intros s HI; cbn.
  - apply post_ret. by apply HQ.
  - apply post_bind. eapply post_mono; [by apply Hb|]. intros [] s1 HI1. by apply IH.
Qed.

(** A computation that relates its initial and final states, also when it blocks. *)
Definition related {S A} (R : relation S) (m : M S A) : Prop := forall c s,
  match m c s with
  | Ok _ _ s' => R s s'
  | Panic _ => True
  | Block _ _ s' => R s s'
  end.

Section related.
Context {S A B : Type} (R : relation S) `{!PreOrder R}.

Lemma related_post (m : M S A) s : related R m -> post m s (fun _ s' => R s s').
Proof. intros Hm c a c' s' H. specialize (Hm c s). by rewrite H in Hm. Qed.

Lemma related_ret (a : A) : related R (ret a).
Proof. intros c s. cbn. reflexivity. Qed.

Lemma related_bind (m : M S A) (k : A -> M S B) :
  related R m -> (forall a, related R (k a)) -> related R (bind m k).
Proof.
  intros Hm Hk c s. unfold bind. specialize (Hm c s). destruct (m c s) as [a c' s'| |]; try done.
  specialize (Hk a c' s'). destruct (k a c' s'); try done; by etransitivity.
Qed.

Lemma related_gets (f : S -> A) : related R (gets f).
Proof. intros c s. cbn. reflexivity. Qed.

Lemma related_modify (f : S -> S) : (forall s, R s (f s)) -> related R (modify f).
Proof. intros Hf c s. apply Hf. Qed.

Lemma related_panic msg : related R (panic (A:=A) msg).
Proof. done. Qed.

Lemma related_acquire l : related R (acquire l).
Proof. intros c s. unfold acquire. by case_decide. Qed.

Lemma related_release l : related R (release l).
Proof. intros c s. unfold release. case_decide; [cbn; reflexivity|done]. Qed.

Lemma related_zoom {T} (get : S -> T) (put : T -> S -> S) (m : M T A) :
  (forall t s, R s (put t s)) -> related R (zoom get put m).
Proof. intros Hp c s. unfold zoom. destruct (m c (get s)); try done; apply Hp. Qed.
End related.

Lemma related_mfor {S B} (R : relation S) `{!PreOrder R} (l : list B) (body : B -> M S unit) :
  (forall x, related R (body x)) -> related R (mfor l body).
Proof.
  intros Hb. induction l as [|x l IH]; cbn.
  - by apply related_ret.
  - apply related_bind; [done|apply Hb|intros _; exact IH].
Qed.
