(* ===== verification/Riscv.v ===== *)
(** * Sizes, the memory layout and the Sv39 macros

    kernel/param.h, kernel/memlayout.h and the paging part of kernel/riscv.h. *)

From S2P Require Import Prelude.

(** ** kernel/param.h *)

Definition NPROC := 64.
Definition NCPU := 8.
Definition NOFILE := 16.
Definition NFILE := 100.
Definition NINODE := 50.
Definition NDEV := 10.
Definition ROOTDEV := 1.
Definition MAXARG := 32.
Definition MAXOPBLOCKS := 10.
Definition LOGSIZE := MAXOPBLOCKS * 3.
Definition NBUF := MAXOPBLOCKS * 3.
Definition FSSIZE := 2000.
Definition MAXPATH := 128.

(** ** kernel/riscv.h, paging *)

Definition PGSIZE := 4096.
Definition PGSHIFT := 12.
Definition PGROUNDUP (sz : Z) : Z := Z.land (u64 (sz + PGSIZE - 1)) (Z.lnot (PGSIZE - 1)).
Definition PGROUNDDOWN (a : Z) : Z := Z.land a (Z.lnot (PGSIZE - 1)).

Definition PTE_V := Z.shiftl 1 0.
Definition PTE_R := Z.shiftl 1 1.
Definition PTE_W := Z.shiftl 1 2.
Definition PTE_X := Z.shiftl 1 3.
Definition PTE_U := Z.shiftl 1 4.

Definition PA2PTE (pa : Z) : Z := u64 (Z.shiftl (Z.shiftr pa 12) 10).
Definition PTE2PA (pte : Z) : Z := u64 (Z.shiftl (Z.shiftr pte 10) 12).
Definition PTE_FLAGS (pte : Z) : Z := Z.land pte 1023.

Definition PXMASK := 511.
Definition PXSHIFT (level : Z) : Z := PGSHIFT + 9 * level.
Definition PX (level va : Z) : Z := Z.land (Z.shiftr va (PXSHIFT level)) PXMASK.

Definition MAXVA := Z.shiftl 1 (9 + 9 + 9 + 12 - 1).

Definition SATP_SV39 := Z.shiftl 8 60.
Definition MAKE_SATP (pagetable : Z) : Z := Z.lor SATP_SV39 (Z.shiftr pagetable 12).

(** ** kernel/memlayout.h *)

Definition UART0 := 268435456. (* 0x10000000 *)
Definition UART0_IRQ := 10.
Definition VIRTIO0 := 268439552. (* 0x10001000 *)
Definition VIRTIO0_IRQ := 1.
Definition CLINT := 33554432. (* 0x2000000 *)
Definition CLINT_MTIMECMP (hartid : Z) : Z := CLINT + 16384 + 8 * hartid.
Definition CLINT_MTIME := CLINT + 49144. (* 0xBFF8 *)
Definition PLIC := 201326592. (* 0x0c000000 *)
Definition PLIC_SENABLE (hart : Z) : Z := PLIC + 8320 + hart * 256. (* 0x2080 *)
Definition PLIC_SPRIORITY (hart : Z) : Z := PLIC + 2101248 + hart * 8192. (* 0x201000 *)
Definition PLIC_SCLAIM (hart : Z) : Z := PLIC + 2101252 + hart * 8192. (* 0x201004 *)
Definition KERNBASE := 2147483648. (* 0x80000000 *)
Definition PHYSTOP := KERNBASE + 128 * 1024 * 1024.
Definition TRAMPOLINE := MAXVA - PGSIZE.
Definition KSTACK (p : Z) : Z := TRAMPOLINE - (p + 1) * 2 * PGSIZE.
Definition TRAPFRAME := TRAMPOLINE - PGSIZE.

(** [lia] with the sizes and layout constants unfolded. *)
Ltac plia :=
  unfold PGSIZE, PHYSTOP, KERNBASE, NPROC, NCPU, NOFILE, NFILE, NINODE, NDEV, MAXARG,
    LOGSIZE, NBUF, MAXOPBLOCKS, FSSIZE, MAXPATH, PXMASK, PGSHIFT in *; lia.

(** ** Lemmas *)

Lemma land_lnot_4095 a : Z.land a (Z.lnot (PGSIZE - 1)) = a - a mod 4096.
Proof.
  unfold PGSIZE. rewrite <- Z.ldiff_land.
  change (4096 - 1) with (Z.ones 12).
  rewrite Z.ldiff_ones_r by lia. rewrite Z.shiftl_mul_pow2, Z.shiftr_div_pow2 by lia.
  change (2 ^ 12) with 4096. pose proof (Z.div_mod a 4096). lia.
Qed.

Lemma PGROUNDDOWN_eq a : PGROUNDDOWN a = a - a mod 4096.
Proof. apply land_lnot_4095. Qed.

Lemma PGROUNDUP_eq sz :
  0 <= sz <= 2 ^ 64 - 4096 -> PGROUNDUP sz = (sz + 4095) - (sz + 4095) mod 4096.
Proof.
  intros. unfold PGROUNDUP. rewrite land_lnot_4095.
  unfold PGSIZE. rewrite u64_small by lia. f_equal; [lia|f_equal; lia].
Qed.

Lemma PGROUNDUP_aligned sz : PGROUNDUP sz mod PGSIZE = 0.
Proof.
  unfold PGROUNDUP. rewrite land_lnot_4095. unfold PGSIZE.
  set (x := u64 _). pose proof (Z.div_mod x 4096).
  replace (x - x mod 4096) with (x / 4096 * 4096) by lia. apply Z.mod_mul. lia.
Qed.

Lemma PGROUNDDOWN_aligned a : PGROUNDDOWN a mod PGSIZE = 0.
Proof.
  rewrite PGROUNDDOWN_eq. unfold PGSIZE. pose proof (Z.div_mod a 4096).
  replace (a - a mod 4096) with (a / 4096 * 4096) by lia. apply Z.mod_mul. lia.
Qed.

Lemma PGROUNDDOWN_id a : a mod PGSIZE = 0 -> PGROUNDDOWN a = a.
Proof. rewrite PGROUNDDOWN_eq. unfold PGSIZE. lia. Qed.

Lemma PGROUNDUP_bounds sz :
  0 <= sz <= 2 ^ 64 - 4096 -> sz <= PGROUNDUP sz < sz + PGSIZE.
Proof.
  intros. rewrite PGROUNDUP_eq by done. unfold PGSIZE.
  pose proof (Z.mod_pos_bound (sz + 4095) 4096). lia.
Qed.

Lemma PX_eq level va : 0 <= level -> PX level va = (va / 2 ^ (12 + 9 * level)) mod 512.
Proof.
  intros. unfold PX, PXMASK, PXSHIFT, PGSHIFT.
  change 511 with (Z.ones 9). rewrite Z.land_ones, Z.shiftr_div_pow2 by lia. done.
Qed.

Lemma PX_range level va : 0 <= level -> 0 <= PX level va < 512.
Proof. intros. rewrite PX_eq by done. apply Z.mod_pos_bound. lia. Qed.

#[export] Hint Resolve PGROUNDUP_aligned PGROUNDDOWN_aligned PX_range : xv6.

(** Three page-table indices and the page offset determine an address. *)
Lemma PX_split va :
  0 <= va < MAXVA ->
  va = PX 2 va * 2 ^ 30 + PX 1 va * 2 ^ 21 + PX 0 va * 2 ^ 12 + va mod 4096.
Proof.
  change MAXVA with (2 ^ 38). intros. rewrite !PX_eq by lia.
  change (2 ^ (12 + 9 * 2)) with (4096 * 512 * 512).
  change (2 ^ (12 + 9 * 1)) with (4096 * 512). change (2 ^ (12 + 9 * 0)) with 4096.
  rewrite <- !Z.div_div by lia.
  pose proof (Z.div_mod va 4096). pose proof (Z.div_mod (va / 4096) 512).
  pose proof (Z.div_mod (va / 4096 / 512) 512).
  assert (va / 4096 / 512 / 512 mod 512 = va / 4096 / 512 / 512) as ->.
  { rewrite !Z.div_div by lia. apply Z.mod_small.
    split; [apply Z.div_pos; lia|apply Z.div_lt_upper_bound; lia]. }
  lia.
Qed.

Lemma PX_inj va1 va2 :
  0 <= va1 < MAXVA -> 0 <= va2 < MAXVA ->
  va1 mod PGSIZE = va2 mod PGSIZE ->
  (forall l, 0 <= l <= 2 -> PX l va1 = PX l va2) -> va1 = va2.
Proof.
  intros H1 H2 Hoff HPX. unfold PGSIZE in Hoff.
  rewrite (PX_split va1), (PX_split va2) by done.
  rewrite !HPX, Hoff by lia. done.
Qed.

(** A PTE keeps the page it points to and its permission bits apart. *)
Lemma PA2PTE_eq pa : 0 <= pa < 2 ^ 56 -> PA2PTE pa = pa / 4096 * 1024.
Proof.
  intros. unfold PA2PTE. rewrite Z.shiftl_mul_pow2, Z.shiftr_div_pow2 by lia.
  apply u64_small. change (2 ^ 12) with 4096. change (2 ^ 10) with 1024.
  assert (0 <= pa / 4096 < 2 ^ 44).
  { split; [apply Z.div_pos; lia|apply Z.div_lt_upper_bound; lia]. }
  lia.
Qed.

Lemma PA2PTE_lor pa f :
  0 <= pa < 2 ^ 56 -> 0 <= f < 1024 -> Z.lor (PA2PTE pa) f = pa / 4096 * 1024 + f.
Proof.
  intros. rewrite PA2PTE_eq by done.
  replace (pa / 4096 * 1024) with (Z.shiftl (pa / 4096) 10)
    by (rewrite Z.shiftl_mul_pow2 by lia; lia).
  rewrite <- Z.add_lor_land.
  replace (Z.land (Z.shiftl (pa / 4096) 10) f) with 0.
  { rewrite Z.shiftl_mul_pow2 by lia. lia. }
  symmetry. apply Z.bits_inj'. intros n Hn. rewrite Z.land_spec, Z.bits_0.
  destruct (decide (n < 10)).
  - by rewrite Z.shiftl_spec_low by lia.
  - rewrite <- (Z.mod_small f (2 ^ 10)) by lia.
    rewrite Z.mod_pow2_bits_high by lia. apply andb_false_r.
Qed.
