(* ===== verification/Mem.v ===== *)
(** * Byte memory and kernel/string.c

    Physical memory is a finite map from addresses to bytes (an address never
    written reads as 0).  [loadn]/[storen] are the little-endian accesses that C
    loads and stores of an n-byte integer compile to.  The [mem*] functions of
    kernel/string.c work on this memory, so overlapping source and destination
    are modelled; the string functions read their argument through an accessor
    ([p i] is [p[i]]) and write a buffer. *)

From S2P Require Import Prelude.

Notation mem := (gmap Z Z).

Definition rd (m : mem) (a : Z) : Z := u8 (default 0 (m !! a)).
Definition wr (m : mem) (a v : Z) : mem := <[a := v]> m.

Fixpoint loadn (n : nat) (m : mem) (a : Z) : Z :=
  match n with
  | O => 0
  | S n' => rd m a + 256 * loadn n' m (a + 1)
  end.

Fixpoint storen (n : nat) (m : mem) (a v : Z) : mem :=
  match n with
  | O => m
  | S n' => storen n' (wr m a v) (a + 1) (v / 256)
  end.

Definition load64 : mem -> Z -> Z := loadn 8.
Definition store64 : mem -> Z -> Z -> mem := storen 8.

(** ** kernel/string.c *)

Fixpoint memset_loop (n : nat) (m : mem) (cdst c : Z) : mem :=
  match n with
  | O => m
  | S n' => memset_loop n' (wr m cdst c) (cdst + 1) c
  end.
Definition memset (m : mem) (dst c n : Z) : mem := memset_loop (Z.to_nat n) m dst c.

Fixpoint memcmp_loop (n : nat) (s1 s2 : Z -> Z) (i : Z) : Z :=
  match n with
  | O => 0
  | S n' => if s1 i =? s2 i then memcmp_loop n' s1 s2 (i + 1) else s1 i - s2 i
  end.
Definition memcmp (v1 v2 : Z -> Z) (n : Z) : Z := memcmp_loop (Z.to_nat n) v1 v2 0.

(** [while(n-- > 0) *d++ = *s++;] *)
Fixpoint copy_fwd (n : nat) (m : mem) (d s : Z) : mem :=
  match n with
  | O => m
  | S n' => copy_fwd n' (wr m d (rd m s)) (d + 1) (s + 1)
  end.

(** [while(n-- > 0) *--d = *--s;] *)
Fixpoint copy_bwd (n : nat) (m : mem) (d s : Z) : mem :=
  match n with
  | O => m
  | S n' => copy_bwd n' (wr m (d - 1) (rd m (s - 1))) (d - 1) (s - 1)
  end.

Definition memmove (m : mem) (dst src n : Z) : mem :=
  if n =? 0 then m
  else if (src <? dst) && (dst <? src + n)
  then copy_bwd (Z.to_nat n) m (dst + n) (src + n)
  else copy_fwd (Z.to_nat n) m dst src.

Definition memcpy (m : mem) (dst src n : Z) : mem := memmove m dst src n.

Fixpoint strncmp_loop (n : nat) (p q : Z -> Z) (i : Z) : Z :=
  match n with
  | O => 0
  | S n' =>
      if negb (p i =? 0) && (p i =? q i) then strncmp_loop n' p q (i + 1)
      else u8 (p i) - u8 (q i)
  end.
Definition strncmp (p q : Z -> Z) (n : Z) : Z := strncmp_loop (Z.to_nat n) p q 0.

(** The second loop of [strncpy]: pad with zeroes. *)
Fixpoint strncpy_pad (n : nat) (s : list Z) (i : Z) : list Z :=
  match n with
  | O => s
  | S n' => strncpy_pad n' (setZ s i 0) (i + 1)
  end.
Fixpoint strncpy_loop (n : nat) (s : list Z) (t : Z -> Z) (i : Z) : list Z :=
  match n with
  | O => s
  | S n' =>
      let s' := setZ s i (t i) in
      if t i =? 0 then strncpy_pad n' s' (i + 1) else strncpy_loop n' s' t (i + 1)
  end.
Definition strncpy (s : list Z) (t : Z -> Z) (n : Z) : list Z :=
  strncpy_loop (Z.to_nat n) s t 0.

(** [while(--n > 0 && ( *s++ = *t++ ) != 0); *s = 0;] with [n > 0] on entry; the
    pointer [s] is left after the byte last written. *)
Fixpoint safestrcpy_loop (n : nat) (s : list Z) (t : Z -> Z) (i : Z) : list Z :=
  match n with
  | O => setZ s i 0
  | S n' =>
      let s' := setZ s i (t i) in
      if t i =? 0 then setZ s' (i + 1) 0 else safestrcpy_loop n' s' t (i + 1)
  end.
Definition safestrcpy (s : list Z) (t : Z -> Z) (n : Z) : list Z :=
  if n <=? 0 then s else safestrcpy_loop (Z.to_nat (n - 1)) s t 0.

(** [strlen] scans at most [fuel] bytes: [None] when none of them is NUL. *)
Fixpoint strlen_loop (fuel : nat) (s : Z -> Z) (n : Z) : option Z :=
  match fuel with
  | O => None
  | S f => if s n =? 0 then Some n else strlen_loop f s (n + 1)
  end.
Definition strlen (fuel : nat) (s : Z -> Z) : option Z := strlen_loop fuel s 0.

#[global] Arguments rd : simpl never.
#[global] Arguments wr : simpl never.
#[global] Arguments load64 : simpl never.
#[global] Arguments store64 : simpl never.
#[global] Arguments memset : simpl never.
#[global] Arguments memmove : simpl never.
#[global] Arguments strncmp : simpl never.
#[global] Arguments strncpy : simpl never.
#[global] Arguments safestrcpy : simpl never.

(** ** Memory lemmas *)

Lemma rd_range m a : 0 <= rd m a < 256.
Proof. apply u8_range. Qed.

Lemma rd_wr m a b v : rd (wr m a v) b = if decide (a = b) then u8 v else rd m b.
Proof. unfold rd, wr. rewrite lookup_insert. by case_decide. Qed.

Lemma rd_wr_eq m a v : rd (wr m a v) a = u8 v.
Proof. rewrite rd_wr. by rewrite decide_True. Qed.

Lemma rd_wr_ne m a b v : a <> b -> rd (wr m a v) b = rd m b.
Proof. intros. rewrite rd_wr. by rewrite decide_False. Qed.

#[export] Hint Resolve rd_range : xv6.

Lemma u8_rd m a : u8 (rd m a) = rd m a.
Proof. apply u8_small, rd_range. Qed.

Lemma loadn_range n m a : 0 <= loadn n m a < 256 ^ Z.of_nat n.
Proof.
  revert a. induction n as [|n IH]; intros a; [done|].
  cbn [loadn]. rewrite Nat2Z.inj_succ, Z.pow_succ_r by lia.
  pose proof (IH (a + 1)). pose proof (rd_range m a). lia.
Qed.

Lemma loadn_ext n m m' a :
  (forall b, a <= b < a + Z.of_nat n -> rd m b = rd m' b) -> loadn n m a = loadn n m' a.
Proof.
  revert a. induction n as [|n IH]; intros a H; [done|].
  cbn [loadn]. rewrite (H a), (IH (a + 1)); [done| |lia].
  intros b ?. apply H. lia.
Qed.

Lemma rd_storen_out n m a v b :
  b < a \/ a + Z.of_nat n <= b -> rd (storen n m a v) b = rd m b.
Proof.
  revert m a v. induction n as [|n IH]; intros m a v H; [done|].
  cbn [storen]. rewrite IH by lia. apply rd_wr_ne. lia.
Qed.

Lemma loadn_storen_same n m a v : loadn n (storen n m a v) a = v mod 256 ^ Z.of_nat n.
Proof.
  revert m a v. induction n as [|n IH]; intros m a v.
  - cbn. by rewrite Z.mod_1_r.
  - cbn [loadn storen]. rewrite IH, rd_storen_out, rd_wr_eq by lia.
    unfold u8. change (2 ^ 8) with 256. rewrite Nat2Z.inj_succ, Z.pow_succ_r by lia.
    rewrite Z.rem_mul_r by lia. lia.
Qed.

Lemma loadn_storen_out n k m a b v :
  b + Z.of_nat n <= a \/ a + Z.of_nat k <= b ->
  loadn n (storen k m a v) b = loadn n m b.
Proof. intros. apply loadn_ext. intros. apply rd_storen_out. lia. Qed.

Lemma load64_store64_same m a v : load64 (store64 m a v) a = u64 v.
Proof. unfold load64, store64. by rewrite loadn_storen_same. Qed.

Lemma load64_store64_out m a b v :
  b + 8 <= a \/ a + 8 <= b -> load64 (store64 m a v) b = load64 m b.
Proof. intros. apply loadn_storen_out. lia. Qed.

Lemma rd_store64_out m a v b : b < a \/ a + 8 <= b -> rd (store64 m a v) b = rd m b.
Proof. intros. apply rd_storen_out. lia. Qed.

Lemma load64_range m a : 0 <= load64 m a < 2 ^ 64.
Proof. apply (loadn_range 8). Qed.

Lemma load64_ext m m' a :
  (forall b, a <= b < a + 8 -> rd m b = rd m' b) -> load64 m a = load64 m' a.
Proof. intros. apply loadn_ext. intros; apply H; lia. Qed.

#[export] Hint Resolve load64_range : xv6.

(** ** [memset] and [memmove] *)

Lemma rd_memset_loop n m d c a :
  rd (memset_loop n m d c) a = if decide (d <= a < d + Z.of_nat n) then u8 c else rd m a.
Proof.
  revert m d. induction n as [|n IH]; intros m d.
  - cbn [memset_loop]. rewrite decide_False by lia. done.
  - cbn [memset_loop]. rewrite IH, rd_wr. repeat case_decide; done || lia.
Qed.

Lemma rd_memset m d c n a :
  0 <= n ->
  rd (memset m d c n) a = if decide (d <= a < d + n) then u8 c else rd m a.
Proof. intros. unfold memset. rewrite rd_memset_loop, Z2Nat.id by done. done. Qed.

Lemma rd_memset_in m d c n a : d <= a < d + n -> rd (memset m d c n) a = u8 c.
Proof. intros. rewrite rd_memset by lia. by rewrite decide_True. Qed.

Lemma rd_memset_out m d c n a :
  a < d \/ d + n <= a -> rd (memset m d c n) a = rd m a.
Proof.
  intros. destruct (decide (0 <= n)).
  - rewrite rd_memset by done. by rewrite decide_False by lia.
  - unfold memset. by replace (Z.to_nat n) with 0%nat by lia.
Qed.

Lemma load64_memset_out m d c n a :
  a + 8 <= d \/ d + n <= a -> load64 (memset m d c n) a = load64 m a.
Proof. intros. apply load64_ext. intros. apply rd_memset_out. lia. Qed.

Lemma load64_memset_0 m d n a :
  d <= a -> a + 8 <= d + n -> load64 (memset m d 0 n) a = 0.
Proof.
  intros. unfold load64. cbn [loadn]. rewrite !rd_memset_in by lia. done.
Qed.

(** Forward copying is right unless it overwrites source bytes it has yet to
    read; backward copying is right unless the destination lies below. *)
Lemma rd_copy_fwd n m d s a :
  d <= s \/ s + Z.of_nat n <= d ->
  rd (copy_fwd n m d s) a =
    if decide (d <= a < d + Z.of_nat n) then rd m (s + (a - d)) else rd m a.
Proof.
  revert m d s. induction n as [|n IH]; intros m d s H.
  - cbn [copy_fwd]. by rewrite decide_False by lia.
  - cbn [copy_fwd]. rewrite IH by lia. rewrite !rd_wr, u8_rd.
    repeat case_decide; subst; try lia; try done; f_equal; lia.
Qed.

Lemma rd_copy_bwd n m d s a :
  s <= d \/ d + Z.of_nat n <= s ->
  rd (copy_bwd n m d s) a =
    if decide (d - Z.of_nat n <= a < d) then rd m (s + (a - d)) else rd m a.
Proof.
  revert m d s. induction n as [|n IH]; intros m d s H.
  - cbn [copy_bwd]. by rewrite decide_False by lia.
  - cbn [copy_bwd]. rewrite IH by lia. rewrite !rd_wr, u8_rd.
    repeat case_decide; subst; try lia; try done; f_equal; lia.
Qed.

Lemma rd_memmove m d s n a :
  0 <= n ->
  rd (memmove m d s n) a = if decide (d <= a < d + n) then rd m (s + (a - d)) else rd m a.
Proof.
  intros. unfold memmove. destruct (n =? 0) eqn:E0; bool_spec.
  { by rewrite decide_False by lia. }
  destruct (_ && _)%bool eqn:E.
  - bool_spec. rewrite rd_copy_bwd by lia.
    repeat case_decide; try lia; try done; f_equal; lia.
  - apply andb_false_iff in E. rewrite rd_copy_fwd by (destruct E; bool_spec; lia).
    rewrite Z2Nat.id by lia. done.
Qed.

Lemma rd_memmove_out m d s n a :
  0 <= n -> a < d \/ d + n <= a -> rd (memmove m d s n) a = rd m a.
Proof. intros. rewrite rd_memmove by done. by rewrite decide_False by lia. Qed.

#[global] Opaque rd wr load64 store64 memset memmove.
