(* ===== verification/Hart.v ===== *)
(** * One processor: registers, control registers and instructions

    The part of kernel/riscv.h that reads and writes control and status registers, and
    a semantics for the instructions that the assembly files use.  A hart runs against
    the physical memory of Mem; [xlate satp va] is the physical address that a virtual
    address denotes under page table register [satp]. *)

From S2P Require Import Prelude KMonad Riscv Mem.

Inductive reg :=
| RA | SP | GP | TP | T0 | T1 | T2 | S0 | S1 | A0 | A1 | A2 | A3 | A4 | A5 | A6 | A7
| S2 | S3 | S4 | S5 | S6 | S7 | S8 | S9 | S10 | S11 | T3 | T4 | T5 | T6.
#[export] Instance reg_eq_dec : EqDecision reg.
Proof. solve_decision. Defined.

Inductive csr :=
| MHARTID | MSTATUS | MEPC | SSTATUS | SIP | SIE | MIE | SEPC | MEDELEG | MIDELEG | STVEC | MTVEC
| PMPCFG0 | PMPADDR0 | SATP | MSCRATCH | SSCRATCH | SCAUSE | STVAL | MCOUNTEREN | TIME.
#[export] Instance csr_eq_dec : EqDecision csr.
Proof. solve_decision. Defined.

Record hart := Hart { h_reg : reg -> Z; h_csr : csr -> Z }.

Definition set_reg (r : reg) (v : Z) (h : hart) : hart :=
  Hart (fun r' => if decide (r' = r) then v else h_reg h r') (h_csr h).
Definition set_csr (x : csr) (v : Z) (h : hart) : hart :=
  Hart (h_reg h) (fun x' => if decide (x' = x) then v else h_csr h x').

(** ** The accessors of riscv.h *)

Definition csrr (x : csr) : M hart Z := gets (fun h => h_csr h x).
Definition csrw (x : csr) (v : Z) : M hart unit := modify (set_csr x (u64 v)).
Definition mv_from (r : reg) : M hart Z := gets (fun h => h_reg h r).

Definition r_mhartid : M hart Z := csrr MHARTID.

Definition MSTATUS_MPP_MASK := Z.shiftl 3 11.
Definition MSTATUS_MPP_S := Z.shiftl 1 11.
Definition MSTATUS_MIE := Z.shiftl 1 3.
Definition r_mstatus : M hart Z := csrr MSTATUS.
Definition w_mstatus (x : Z) : M hart unit := csrw MSTATUS x.
Definition w_mepc (x : Z) : M hart unit := csrw MEPC x.

Definition SSTATUS_SPP := Z.shiftl 1 8.
Definition SSTATUS_SPIE := Z.shiftl 1 5.
Definition SSTATUS_SIE := Z.shiftl 1 1.
Definition r_sstatus : M hart Z := csrr SSTATUS.
Definition w_sstatus (x : Z) : M hart unit := csrw SSTATUS x.

Definition r_sip : M hart Z := csrr SIP.
Definition w_sip (x : Z) : M hart unit := csrw SIP x.

Definition SIE_SEIE := Z.shiftl 1 9.
Definition SIE_STIE := Z.shiftl 1 5.
Definition SIE_SSIE := Z.shiftl 1 1.
Definition r_sie : M hart Z := csrr SIE.
Definition w_sie (x : Z) : M hart unit := csrw SIE x.

Definition MIE_MTIE := Z.shiftl 1 7.
Definition r_mie : M hart Z := csrr MIE.
Definition w_mie (x : Z) : M hart unit := csrw MIE x.

Definition w_sepc (x : Z) : M hart unit := csrw SEPC x.
Definition r_sepc : M hart Z := csrr SEPC.
Definition r_medeleg : M hart Z := csrr MEDELEG.
Definition w_medeleg (x : Z) : M hart unit := csrw MEDELEG x.
Definition r_mideleg : M hart Z := csrr MIDELEG.
Definition w_mideleg (x : Z) : M hart unit := csrw MIDELEG x.
Definition w_stvec (x : Z) : M hart unit := csrw STVEC x.
Definition r_stvec : M hart Z := csrr STVEC.
Definition w_mtvec (x : Z) : M hart unit := csrw MTVEC x.
Definition w_pmpcfg0 (x : Z) : M hart unit := csrw PMPCFG0 x.
Definition w_pmpaddr0 (x : Z) : M hart unit := csrw PMPADDR0 x.
Definition w_satp (x : Z) : M hart unit := csrw SATP x.
Definition r_satp : M hart Z := csrr SATP.
Definition w_mscratch (x : Z) : M hart unit := csrw MSCRATCH x.
Definition r_scause : M hart Z := csrr SCAUSE.
Definition r_stval : M hart Z := csrr STVAL.
Definition w_mcounteren (x : Z) : M hart unit := csrw MCOUNTEREN x.
Definition r_mcounteren : M hart Z := csrr MCOUNTEREN.
Definition r_time : M hart Z := csrr TIME.

Definition intr_on : M hart unit := x <- r_sstatus ;; w_sstatus (Z.lor x SSTATUS_SIE).
Definition intr_off : M hart unit := x <- r_sstatus ;; w_sstatus (Z.land x (Z.lnot SSTATUS_SIE)).
Definition intr_get : M hart bool :=
  x <- r_sstatus ;;
  ret (negb (Z.land x SSTATUS_SIE =? 0)).

Definition r_sp : M hart Z := mv_from SP.
Definition r_tp : M hart Z := mv_from TP.
Definition w_tp (x : Z) : M hart unit := modify (set_reg TP (u64 x)).
Definition r_ra : M hart Z := mv_from RA.
(** [sfence_vma]: the translations of [xlate] are always current. *)
Definition sfence_vma : M hart unit := ret tt.

(** ** Instructions *)

Inductive instr :=
| SD (r : reg) (off : Z) (base : reg)
| LD (r : reg) (off : Z) (base : reg)
| LI (r : reg) (v : Z)
| ADDI (rd rs : reg) (i : Z)
| ADD (rd rs1 rs2 : reg)
| MUL (rd rs1 rs2 : reg)
| CSRR (r : reg) (x : csr)
| CSRW (x : csr) (r : reg)
| CSRRW (rd : reg) (x : csr) (rs : reg)
| SFENCE.

(** A hart and the memory. *)
Record amach := Am { am_hart : hart; am_mem : mem }.

Definition areg (s : amach) (r : reg) : Z := h_reg (am_hart s) r.
Definition acsr (s : amach) (x : csr) : Z := h_csr (am_hart s) x.
Definition put_reg (r : reg) (v : Z) (s : amach) : amach := Am (set_reg r v (am_hart s)) (am_mem s).
Definition put_csr (x : csr) (v : Z) (s : amach) : amach := Am (set_csr x v (am_hart s)) (am_mem s).

Section exec.
Variable xlate : Z -> Z -> Z.

Definition ea (s : amach) (base : reg) (off : Z) : Z := xlate (acsr s SATP) (u64 (areg s base + off)).

Definition exec1 (i : instr) (s : amach) : amach :=
  match i with
  | SD r off base => Am (am_hart s) (store64 (am_mem s) (ea s base off) (areg s r))
  | LD r off base => put_reg r (load64 (am_mem s) (ea s base off)) s
  | LI r v => put_reg r (u64 v) s
  | ADDI rd rs i => put_reg rd (u64 (areg s rs + i)) s
  | ADD rd rs1 rs2 => put_reg rd (u64 (areg s rs1 + areg s rs2)) s
  | MUL rd rs1 rs2 => put_reg rd (u64 (areg s rs1 * areg s rs2)) s
  | CSRR r x => put_reg r (acsr s x) s
  | CSRW x r => put_csr x (areg s r) s
  | CSRRW rd x rs => put_reg rd (acsr s x) (put_csr x (areg s rs) s)
  | SFENCE => s
  end.

Definition exec (l : list instr) (s : amach) : amach := fold_left (fun s i => exec1 i s) l s.

Lemma exec_app l1 l2 s : exec (l1 ++ l2) s = exec l2 (exec l1 s).
Proof. apply fold_left_app. Qed.

Lemma exec_cons i l s : exec (i :: l) s = exec l (exec1 i s).
Proof. done. Qed.
End exec.

Lemma areg_put r v s r' : areg (put_reg r v s) r' = if decide (r' = r) then v else areg s r'.
Proof. done. Qed.
Lemma acsr_put x v s x' : acsr (put_csr x v s) x' = if decide (x' = x) then v else acsr s x'.
Proof. done. Qed.
