(* ===== verification/Asm.v ===== *)
(** * The assembly files

    kernel/trampoline.S, kernel/kernelvec.S, kernel/swtch.S and kernel/entry.S, instruction
    by instruction.  A routine is cut where it jumps: [uservec] runs up to [jr t0],
    [userret] up to [sret], [kernelvec] is cut in two by [call kerneltrap].  The offsets
    are those of [struct trapframe] and [struct context] in proc.h. *)

From S2P Require Import Prelude KMonad Riscv Mem Hart.

(** ** kernel/trampoline.S *)

(** The general registers other than [a0], and where the trapframe keeps them. *)
Definition uservec_save : list instr :=
  [SD RA 40 A0; SD SP 48 A0; SD GP 56 A0; SD TP 64 A0; SD T0 72 A0; SD T1 80 A0; SD T2 88 A0;
   SD S0 96 A0; SD S1 104 A0; SD A1 120 A0; SD A2 128 A0; SD A3 136 A0; SD A4 144 A0; SD A5 152 A0;
   SD A6 160 A0; SD A7 168 A0; SD S2 176 A0; SD S3 184 A0; SD S4 192 A0; SD S5 200 A0; SD S6 208 A0;
   SD S7 216 A0; SD S8 224 A0; SD S9 232 A0; SD S10 240 A0; SD S11 248 A0; SD T3 256 A0; SD T4 264 A0;
   SD T5 272 A0; SD T6 280 A0].

Definition uservec : list instr :=
  (* save user a0 in sscratch so a0 can be used to get at TRAPFRAME. *)
  [CSRW SSCRATCH A0; LI A0 TRAPFRAME] ++
  (* save the user registers in TRAPFRAME *)
  uservec_save ++
  (* save the user a0 in p->trapframe->a0 *)
  [CSRR T0 SSCRATCH; SD T0 112 A0;
   LD SP 8 A0;   (* kernel stack pointer, from p->trapframe->kernel_sp *)
   LD TP 32 A0;  (* the current hartid, from p->trapframe->kernel_hartid *)
   LD T0 16 A0;  (* usertrap(), from p->trapframe->kernel_trap *)
   LD T1 0 A0;   (* kernel page table, from p->trapframe->kernel_satp *)
   SFENCE; CSRW SATP T1; SFENCE].

Definition userret : list instr :=
  (* switch to the user page table. *)
  [SFENCE; CSRW SATP A0; SFENCE; LI A0 TRAPFRAME;
   (* restore all but a0 from TRAPFRAME *)
   LD RA 40 A0; LD SP 48 A0; LD GP 56 A0; LD TP 64 A0; LD T0 72 A0; LD T1 80 A0; LD T2 88 A0;
   LD S0 96 A0; LD S1 104 A0; LD A1 120 A0; LD A2 128 A0; LD A3 136 A0; LD A4 144 A0; LD A5 152 A0;
   LD A6 160 A0; LD A7 168 A0; LD S2 176 A0; LD S3 184 A0; LD S4 192 A0; LD S5 200 A0; LD S6 208 A0;
   LD S7 216 A0; LD S8 224 A0; LD S9 232 A0; LD S10 240 A0; LD S11 248 A0; LD T3 256 A0; LD T4 264 A0;
   LD T5 272 A0; LD T6 280 A0;
   (* restore user a0 *)
   LD A0 112 A0].

(** ** kernel/kernelvec.S *)

(** push all registers *)
Definition kernelvec_save : list instr :=
  [ADDI SP SP (-256);
   SD RA 0 SP; SD SP 8 SP; SD GP 16 SP; SD TP 24 SP; SD T0 32 SP; SD T1 40 SP; SD T2 48 SP;
   SD S0 56 SP; SD S1 64 SP; SD A0 72 SP; SD A1 80 SP; SD A2 88 SP; SD A3 96 SP; SD A4 104 SP;
   SD A5 112 SP; SD A6 120 SP; SD A7 128 SP; SD S2 136 SP; SD S3 144 SP; SD S4 152 SP; SD S5 160 SP;
   SD S6 168 SP; SD S7 176 SP; SD S8 184 SP; SD S9 192 SP; SD S10 200 SP; SD S11 208 SP;
   SD T3 216 SP; SD T4 224 SP; SD T5 232 SP; SD T6 240 SP].

(** restore registers; not tp (contains hartid), in case we moved CPUs *)
Definition kernelvec_restore : list instr :=
  [LD RA 0 SP; LD SP 8 SP; LD GP 16 SP; LD T0 32 SP; LD T1 40 SP; LD T2 48 SP;
   LD S0 56 SP; LD S1 64 SP; LD A0 72 SP; LD A1 80 SP; LD A2 88 SP; LD A3 96 SP; LD A4 104 SP;
   LD A5 112 SP; LD A6 120 SP; LD A7 128 SP; LD S2 136 SP; LD S3 144 SP; LD S4 152 SP; LD S5 160 SP;
   LD S6 168 SP; LD S7 176 SP; LD S8 184 SP; LD S9 192 SP; LD S10 200 SP; LD S11 208 SP;
   LD T3 216 SP; LD T4 224 SP; LD T5 232 SP; LD T6 240 SP;
   ADDI SP SP 256].

(** machine-mode timer interrupt *)
Definition timervec : list instr :=
  [CSRRW A0 MSCRATCH A0; SD A1 0 A0; SD A2 8 A0; SD A3 16 A0;
   (* schedule the next timer interrupt by adding interval to mtimecmp. *)
   LD A1 24 A0; LD A2 32 A0; LD A3 0 A1; ADD A3 A3 A2; SD A3 0 A1;
   (* arrange for a supervisor software interrupt after this handler returns. *)
   LI A1 2; CSRW SIP A1;
   LD A3 16 A0; LD A2 8 A0; LD A1 0 A0; CSRRW A0 MSCRATCH A0].

(** ** kernel/swtch.S *)

Definition swtch : list instr :=
  [SD RA 0 A0; SD SP 8 A0; SD S0 16 A0; SD S1 24 A0; SD S2 32 A0; SD S3 40 A0; SD S4 48 A0;
   SD S5 56 A0; SD S6 64 A0; SD S7 72 A0; SD S8 80 A0; SD S9 88 A0; SD S10 96 A0; SD S11 104 A0;
   LD RA 0 A1; LD SP 8 A1; LD S0 16 A1; LD S1 24 A1; LD S2 32 A1; LD S3 40 A1; LD S4 48 A1;
   LD S5 56 A1; LD S6 64 A1; LD S7 72 A1; LD S8 80 A1; LD S9 88 A1; LD S10 96 A1; LD S11 104 A1].

(** ** kernel/entry.S *)

(** [stack0] is the address of the array in start.c. *)
Definition entry (stack0 : Z) : list instr :=
  [LI SP stack0; LI A0 (1024 * 4); CSRR A1 MHARTID; ADDI A1 A1 1; MUL A0 A0 A1; ADD SP SP A0].

(** ** Blocks of stores and of loads *)

Definition saves (base : reg) (l : list (reg * Z)) : list instr := (fun x => SD x.1 x.2 base) <$> l.
Definition loads (base : reg) (l : list (reg * Z)) : list instr := (fun x => LD x.1 x.2 base) <$> l.

(** Offsets of distinct aligned double words. *)
Definition aligned (l : list (reg * Z)) : Prop := Forall (fun x => (8 | x.2)) l /\ NoDup l.*2.

Lemma aligned_apart o1 o2 : (8 | o1) -> (8 | o2) -> o1 <> o2 -> o1 + 8 <= o2 \/ o2 + 8 <= o1.
Proof. intros [a ->] [b ->] Hne. lia. Qed.

Section blocks.
Variable xlate : Z -> Z -> Z.

(** Under page table [satp], the [n] bytes from virtual address [va] are those from
    physical address [pa] on. *)
Definition maps (satp va pa n : Z) : Prop :=
  0 <= va /\ va + n < 2 ^ 64 /\ forall o, 0 <= o < n -> xlate satp (va + o) = pa + o.

Lemma maps_ea s base pa n o :
  maps (acsr s SATP) (areg s base) pa n -> 0 <= o < n -> ea xlate s base o = pa + o.
Proof. intros (Ha & Hb & Hm) Ho. unfold ea. rewrite u64_small by lia. by apply Hm. Qed.

Lemma exec_saves base l s pa n :
  aligned l -> Forall (fun x => 0 <= x.2 < n) l -> maps (acsr s SATP) (areg s base) pa n ->
  let s' := exec xlate (saves base l) s in
  am_hart s' = am_hart s /\
  (forall r o, (r, o) ∈ l -> load64 (am_mem s') (pa + o) = u64 (areg s r)) /\
  (forall a, (forall o, o ∈ l.*2 -> a + 8 <= pa + o \/ pa + o + 8 <= a) -> load64 (am_mem s') a = load64 (am_mem s) a).
Proof.
  revert s. induction l as [|[r o] l IH]; intros s [Hal Hnd] Hr Hm.
  { cbn. split_and!; [done|by intros ?? ?%not_elem_of_nil|done]. }
  apply Forall_cons in Hal as [Ho Hal], Hr as [Hro Hr]. cbn in Hnd. apply NoDup_cons in Hnd as [Hno Hnd].
  cbn [saves fmap list_fmap]. rewrite exec_cons. cbn [exec1 fst snd].
  rewrite (maps_ea s base pa n o Hm Hro).
  set (s1 := Am _ _). destruct (IH s1 (conj Hal Hnd) Hr Hm) as (Eh & Hin & Hout). split_and!.
  - exact Eh.
  - intros r' o' [[= -> ->]|Hel]%elem_of_cons; [|by apply Hin].
    rewrite Hout; [apply load64_store64_same|]. intros o2 Ho2.
    destruct (aligned_apart o o2) as [|]; [done| |by intros ->|lia|lia].
    apply list_elem_of_fmap in Ho2 as ([r2 o3] & -> & Hel). by eapply (proj1 (Forall_forall _ _) Hal) in Hel.
  - intros a Ha. rewrite Hout by (intros o2 Ho2; apply Ha; by right).
    apply load64_store64_out. destruct (Ha o); [by left|lia|lia].
Qed.

Lemma exec_loads base l s pa n :
  NoDup l.*1 -> base ∉ l.*1 -> Forall (fun x => 0 <= x.2 < n) l -> maps (acsr s SATP) (areg s base) pa n ->
  let s' := exec xlate (loads base l) s in
  am_mem s' = am_mem s /\ h_csr (am_hart s') = h_csr (am_hart s) /\
  (forall r o, (r, o) ∈ l -> areg s' r = load64 (am_mem s) (pa + o)) /\
  (forall r, r ∉ l.*1 -> areg s' r = areg s r).
Proof.
  revert s. induction l as [|[r o] l IH]; intros s Hnd Hb Hr Hm.
  { cbn. split_and!; try done. by intros ?? ?%not_elem_of_nil. }
  cbn in Hnd, Hb. apply NoDup_cons in Hnd as [Hno Hnd]. apply not_elem_of_cons in Hb as [Hbr Hb].
  apply Forall_cons in Hr as [Hro Hr]. cbn [loads fmap list_fmap]. rewrite exec_cons. cbn [exec1 fst snd].
  rewrite (maps_ea s base pa n o Hm Hro). set (s1 := put_reg r _ s).
  assert (Hb1 : areg s1 base = areg s base) by (unfold s1; rewrite areg_put; by rewrite decide_False).
  destruct (IH s1 Hnd Hb Hr) as (Em & Ec & Hin & Hout); [by rewrite Hb1|]. split_and!; [done|done| |].
  - intros r' o' [[= -> ->]|Hel]%elem_of_cons; [|by apply Hin].
    rewrite Hout by done. unfold s1. rewrite areg_put. by rewrite decide_True.
  - intros r' Hn. cbn in Hn. apply not_elem_of_cons in Hn as [Hne Hn]. rewrite Hout by done.
    unfold s1. rewrite areg_put. by rewrite decide_False.
Qed.
End blocks.

(** ** Traps from user space *)

Definition user_regs : list (reg * Z) :=
  [(RA, 40); (SP, 48); (GP, 56); (TP, 64); (T0, 72); (T1, 80); (T2, 88); (S0, 96); (S1, 104); (A1, 120);
   (A2, 128); (A3, 136); (A4, 144); (A5, 152); (A6, 160); (A7, 168); (S2, 176); (S3, 184); (S4, 192);
   (S5, 200); (S6, 208); (S7, 216); (S8, 224); (S9, 232); (S10, 240); (S11, 248); (T3, 256); (T4, 264);
   (T5, 272); (T6, 280)].

(** [sizeof(struct trapframe)] *)
Definition tf_size := 288.

(** The offset of a register in [struct trapframe]. *)
Definition tf_off (r : reg) : Z :=
  match r with
  | A0 => 112
  | _ => default 0 (snd ∘ snd <$> list_find (fun x => x.1 = r) user_regs)
  end.

Definition word64 (s : amach) : Prop := forall r, 0 <= areg s r < 2 ^ 64.

Lemma user_regs_aligned : aligned user_regs.
Proof.
  split; [|by_eval].
  apply (Forall_impl (fun x => x.2 mod 8 = 0)); [by_eval|].
  intros x. apply Z.mod_divide. lia.
Qed.

Lemma user_regs_range : Forall (fun x => 0 <= x.2 < tf_size) user_regs.
Proof. by_eval. Qed.

Lemma user_regs_all r : r <> A0 -> (r, tf_off r) ∈ user_regs.
Proof. intros Hr. apply (bool_decide_unpack _). destruct r; try done; vm_compute; exact I. Qed.

Lemma tf_off_apart tf r : r <> A0 -> tf + tf_off r + 8 <= tf + 112 \/ tf + 112 + 8 <= tf + tf_off r.
Proof. intros Hr. assert (tf_off r + 8 <= 112 \/ 120 <= tf_off r) by (destruct r; (done || by_eval)). lia. Qed.

Section traps.
Variable xlate : Z -> Z -> Z.
Variable tf : Z.

Lemma exec_switch s :
  let s' := exec xlate [SFENCE; CSRW SATP T1; SFENCE] s in
  am_mem s' = am_mem s /\ (forall r, areg s' r = areg s r) /\ acsr s' SATP = areg s T1.
Proof. done. Qed.

Lemma exec_scratch s :
  let s' := exec xlate [CSRW SSCRATCH A0; LI A0 TRAPFRAME] s in
  (forall r, areg s' r = if decide (r = A0) then TRAPFRAME else areg s r) /\
  acsr s' SSCRATCH = areg s A0 /\ acsr s' SATP = acsr s SATP /\ am_mem s' = am_mem s.
Proof. done. Qed.

Lemma exec_save_a0 s :
  areg s A0 = TRAPFRAME -> maps xlate (acsr s SATP) TRAPFRAME tf tf_size ->
  let s' := exec xlate [CSRR T0 SSCRATCH; SD T0 112 A0] s in
  am_mem s' = store64 (am_mem s) (tf + 112) (acsr s SSCRATCH) /\ areg s' A0 = TRAPFRAME /\ acsr s' SATP = acsr s SATP.
Proof.
  intros Ha Hm. split_and!; [|exact Ha|done]. cbn [exec fold_left exec1 am_mem put_reg].
  rewrite areg_put, decide_True by done. f_equal.
  apply (maps_ea xlate (put_reg T0 (acsr s SSCRATCH) s) A0 tf tf_size 112); [|unfold tf_size; lia].
  change (maps xlate (acsr s SATP) (areg s A0) tf tf_size). by rewrite Ha.
Qed.

(** [uservec] saves all registers in the trapframe and goes to the kernel. *)
Lemma uservec_spec s :
  maps xlate (acsr s SATP) TRAPFRAME tf tf_size -> word64 s ->
  let s' := exec xlate uservec s in
  (forall r, load64 (am_mem s') (tf + tf_off r) = areg s r) /\
  areg s' SP = load64 (am_mem s) (tf + 8) /\ areg s' TP = load64 (am_mem s) (tf + 32) /\
  areg s' T0 = load64 (am_mem s) (tf + 16) /\ acsr s' SATP = load64 (am_mem s) (tf + 0) /\
  (forall a, a + 8 <= tf + 40 \/ tf + tf_size <= a -> load64 (am_mem s') a = load64 (am_mem s) a).
Proof.
  intros Hm Hw.
  change uservec with ([CSRW SSCRATCH A0; LI A0 TRAPFRAME] ++ saves A0 user_regs ++
    [CSRR T0 SSCRATCH; SD T0 112 A0] ++ loads A0 [(SP, 8); (TP, 32); (T0, 16); (T1, 0)] ++ [SFENCE; CSRW SATP T1; SFENCE]).
  rewrite !exec_app. destruct (exec_scratch s) as (E1r & E1s & E1p & E1m). set (s1 := exec xlate _ s) in *. clearbody s1.
  assert (Hb : areg s1 A0 = TRAPFRAME) by (rewrite E1r; by rewrite decide_True).
  destruct (exec_saves xlate A0 user_regs s1 tf tf_size user_regs_aligned user_regs_range) as (Eh & Hin & Hout);
    [by rewrite Hb, E1p|].
  set (s2 := exec xlate (saves A0 user_regs) s1) in *. clearbody s2.
  assert (H2a : areg s2 A0 = TRAPFRAME) by (unfold areg in *; by rewrite Eh).
  assert (H2p : acsr s2 SATP = acsr s SATP) by (unfold acsr in *; by rewrite Eh).
  assert (H2s : acsr s2 SSCRATCH = areg s A0) by (unfold acsr in *; by rewrite Eh).
  destruct (exec_save_a0 s2 H2a) as (E3m & H3a & H3p); [by rewrite H2p|]. rewrite H2s in E3m. rewrite H2p in H3p.
  set (s3 := exec xlate [CSRR T0 SSCRATCH; SD T0 112 A0] s2) in *. clearbody s3.
  destruct (exec_loads xlate A0 [(SP, 8); (TP, 32); (T0, 16); (T1, 0)] s3 tf tf_size) as (Em & _ & Hld & _);
    [by_eval|by_eval|by_eval|by rewrite H3a, H3p|].
  set (s4 := exec xlate (loads A0 _) s3) in *. clearbody s4.
  assert (Hkeep : forall a, a + 8 <= tf + 40 \/ tf + tf_size <= a -> load64 (am_mem s3) a = load64 (am_mem s) a).
  { intros a Ha. rewrite E3m, load64_store64_out, Hout, E1m; [done| |unfold tf_size in *; lia].
    intros o Ho. assert (40 <= o <= 280) by (revert o Ho; apply (proj1 (Forall_forall _ _)); by_eval).
    unfold tf_size in *. lia. }
  assert (Hl : forall o, 0 <= o <= 32 -> load64 (am_mem s3) (tf + o) = load64 (am_mem s) (tf + o)) by (intros; apply Hkeep; lia).
  destruct (exec_switch s4) as (E5m & E5r & E5p). set (s5 := exec xlate _ s4) in *. clearbody s5.
  cbv zeta. rewrite !E5r, E5m, E5p, Em. rewrite (Hld SP 8), (Hld TP 32), (Hld T0 16), (Hld T1 0) by by_eval.
  split_and!; [|apply Hl; lia|apply Hl; lia|apply Hl; lia|apply Hl; lia|exact Hkeep].
  intros r. rewrite E3m. destruct (decide (r = A0)) as [->|Hne].
  { change (tf_off A0) with 112. rewrite load64_store64_same. apply u64_small, Hw. }
  rewrite load64_store64_out, (Hin r); [|by apply user_regs_all|by apply tf_off_apart].
  rewrite E1r, decide_False by done. apply u64_small, Hw.
Qed.

Lemma exec_satp s :
  let s' := exec xlate [SFENCE; CSRW SATP A0; SFENCE; LI A0 TRAPFRAME] s in
  am_mem s' = am_mem s /\ areg s' A0 = TRAPFRAME /\ acsr s' SATP = areg s A0.
Proof. done. Qed.

Lemma exec_load_a0 s :
  areg s A0 = TRAPFRAME -> maps xlate (acsr s SATP) TRAPFRAME tf tf_size ->
  let s' := exec xlate [LD A0 112 A0] s in
  am_mem s' = am_mem s /\ acsr s' SATP = acsr s SATP /\
  forall r, areg s' r = if decide (r = A0) then load64 (am_mem s) (tf + 112) else areg s r.
Proof.
  intros Ha Hm. cbn [exec fold_left exec1]. rewrite (maps_ea xlate s A0 tf tf_size 112); [done| |done].
  by rewrite Ha.
Qed.

(** [userret] loads them again. *)
Lemma userret_spec s :
  maps xlate (areg s A0) TRAPFRAME tf tf_size ->
  let s' := exec xlate userret s in
  (forall r, areg s' r = load64 (am_mem s) (tf + tf_off r)) /\ am_mem s' = am_mem s /\ acsr s' SATP = areg s A0.
Proof.
  intros Hm. change userret with ([SFENCE; CSRW SATP A0; SFENCE; LI A0 TRAPFRAME] ++ loads A0 user_regs ++ [LD A0 112 A0]).
  rewrite !exec_app. destruct (exec_satp s) as (E1m & E1a & E1p). set (s1 := exec xlate _ s) in *. clearbody s1.
  destruct (exec_loads xlate A0 user_regs s1 tf tf_size) as (Em & Ec & Hld & Hother);
    [by_eval|by_eval|apply user_regs_range|by rewrite E1a, E1p|].
  set (s2 := exec xlate (loads A0 user_regs) s1) in *. clearbody s2.
  assert (H2a : areg s2 A0 = TRAPFRAME) by (rewrite Hother; [done|by_eval]).
  assert (H2p : acsr s2 SATP = areg s A0) by (unfold acsr in *; by rewrite Ec).
  destruct (exec_load_a0 s2 H2a) as (E3m & E3p & E3r); [by rewrite H2p|]. set (s3 := exec xlate _ s2) in *. clearbody s3.
  cbv zeta. rewrite E3m, E3p, H2p, Em, E1m. split_and!; [|done|done].
  intros r. rewrite E3r, Em, E1m. destruct (decide (r = A0)) as [->|Hne]; [done|].
  rewrite (Hld r (tf_off r)) by by apply user_regs_all. by rewrite E1m.
Qed.
End traps.

(** ** Traps from the kernel *)

Definition kernel_regs : list (reg * Z) :=
  [(RA, 0); (SP, 8); (GP, 16); (TP, 24); (T0, 32); (T1, 40); (T2, 48); (S0, 56); (S1, 64); (A0, 72); (A1, 80);
   (A2, 88); (A3, 96); (A4, 104); (A5, 112); (A6, 120); (A7, 128); (S2, 136); (S3, 144); (S4, 152); (S5, 160);
   (S6, 168); (S7, 176); (S8, 184); (S9, 192); (S10, 200); (S11, 208); (T3, 216); (T4, 224); (T5, 232); (T6, 240)].
(** Those that are restored after the stack pointer. *)
Definition kernel_regs' : list (reg * Z) :=
  [(GP, 16); (T0, 32); (T1, 40); (T2, 48); (S0, 56); (S1, 64); (A0, 72); (A1, 80);
   (A2, 88); (A3, 96); (A4, 104); (A5, 112); (A6, 120); (A7, 128); (S2, 136); (S3, 144); (S4, 152); (S5, 160);
   (S6, 168); (S7, 176); (S8, 184); (S9, 192); (S10, 200); (S11, 208); (T3, 216); (T4, 224); (T5, 232); (T6, 240)].

Definition kframe := 256.

Lemma aligned_eval l : Forall (fun x => x.2 mod 8 = 0) l -> NoDup l.*2 -> aligned l.
Proof. intros Hf Hn. split; [|done]. eapply Forall_impl; [exact Hf|]. intros x. apply Z.mod_divide. lia. Qed.

(** The offset of a register in the frame. *)
Definition k_off (r : reg) : Z := default 0 (snd ∘ snd <$> list_find (fun x => x.1 = r) kernel_regs).

Lemma k_off_in r : (r, k_off r) ∈ kernel_regs.
Proof. destruct r; by_eval. Qed.
Lemma k_off_in' r : r <> RA -> r <> SP -> r <> TP -> (r, k_off r) ∈ kernel_regs'.
Proof. intros H1 H2 H3. destruct r; first [done|by_eval]. Qed.

Section kernel_traps.
Variable xlate : Z -> Z -> Z.

Lemma exec_push s :
  let s' := exec xlate [ADDI SP SP (-256)] s in
  am_mem s' = am_mem s /\ h_csr (am_hart s') = h_csr (am_hart s) /\
  forall r, areg s' r = if decide (r = SP) then u64 (areg s SP - 256) else areg s r.
Proof. done. Qed.

(** [kernelvec] saves every register in its frame (the decremented stack pointer for sp). *)
Lemma kernelvec_save_spec s pa :
  maps xlate (acsr s SATP) (u64 (areg s SP - 256)) pa kframe -> word64 s ->
  let s' := exec xlate kernelvec_save s in
  areg s' SP = u64 (areg s SP - 256) /\ (forall r, r <> SP -> areg s' r = areg s r) /\ acsr s' SATP = acsr s SATP /\
  forall r, load64 (am_mem s') (pa + k_off r) = areg s' r.
Proof.
  intros Hm Hw. change kernelvec_save with ([ADDI SP SP (-256)] ++ saves SP kernel_regs).
  rewrite exec_app. destruct (exec_push s) as (E1m & E1c & E1r). set (s1 := exec xlate _ s) in *. clearbody s1.
  assert (Hsp : areg s1 SP = u64 (areg s SP - 256)) by (rewrite E1r; by rewrite decide_True).
  assert (Hst : acsr s1 SATP = acsr s SATP) by (unfold acsr; by rewrite E1c).
  destruct (exec_saves xlate SP kernel_regs s1 pa kframe) as (Eh & Hin & _);
    [apply aligned_eval; by_eval|by_eval|by rewrite Hsp, Hst|].
  set (s2 := exec xlate _ s1) in *. clearbody s2. cbv zeta.
  assert (Hr : forall r, areg s2 r = areg s1 r) by (intros r; unfold areg; by rewrite Eh).
  split_and!.
  - by rewrite Hr.
  - intros r Hne. rewrite Hr, E1r. by rewrite decide_False.
  - unfold acsr in *. by rewrite Eh.
  - intros r. rewrite (Hin r _ (k_off_in r)), Hr. apply u64_small. rewrite E1r. case_decide; [apply u64_range|apply Hw].
Qed.

Lemma exec_ra_sp s pa :
  maps xlate (acsr s SATP) (areg s SP) pa kframe ->
  let s' := exec xlate [LD RA 0 SP; LD SP 8 SP] s in
  am_mem s' = am_mem s /\ acsr s' SATP = acsr s SATP /\ areg s' RA = load64 (am_mem s) (pa + 0) /\
  areg s' SP = load64 (am_mem s) (pa + 8) /\ areg s' TP = areg s TP.
Proof.
  intros Hm. cbn [exec fold_left exec1]. rewrite (maps_ea xlate s SP pa kframe 0) by (done || (unfold kframe; lia)).
  rewrite (maps_ea xlate (put_reg RA _ s) SP pa kframe 8) by (done || (unfold kframe; lia)). done.
Qed.

Lemma exec_pop s :
  let s' := exec xlate [ADDI SP SP 256] s in
  forall r, areg s' r = if decide (r = SP) then u64 (areg s SP + 256) else areg s r.
Proof. done. Qed.

(** Coming back from [kerneltrap] with the frame intact. *)
Lemma kernelvec_restore_spec s pa sp0 :
  areg s SP = u64 (sp0 - 256) -> 0 <= sp0 < 2 ^ 64 -> load64 (am_mem s) (pa + 8) = areg s SP ->
  maps xlate (acsr s SATP) (areg s SP) pa kframe ->
  let s' := exec xlate kernelvec_restore s in
  areg s' SP = sp0 /\ areg s' TP = areg s TP /\
  forall r, r <> SP -> r <> TP -> areg s' r = load64 (am_mem s) (pa + k_off r).
Proof.
  intros Hsp Hr0 H8 Hm. change kernelvec_restore with ([LD RA 0 SP; LD SP 8 SP] ++ loads SP kernel_regs' ++ [ADDI SP SP 256]).
  rewrite !exec_app. destruct (exec_ra_sp s pa Hm) as (E1m & E1p & E1ra & E1sp & E1tp).
  set (s1 := exec xlate _ s) in *. clearbody s1.
  destruct (exec_loads xlate SP kernel_regs' s1 pa kframe) as (Em & _ & Hld & Hother);
    [by_eval|by_eval|by_eval|by rewrite E1p, E1sp, H8|].
  set (s2 := exec xlate (loads SP _) s1) in *. clearbody s2.
  pose proof (exec_pop s2) as E3r. set (s3 := exec xlate _ s2) in *. clearbody s3. cbv zeta. split_and!.
  - rewrite E3r, decide_True, Hother, E1sp, H8, Hsp by (done || by_eval). unfold u64. rewrite Zplus_mod_idemp_l.
    replace (sp0 - 256 + 256) with sp0 by lia. by apply Z.mod_small.
  - rewrite E3r, decide_False, Hother by (done || by_eval). done.
  - intros r Hns Hnt. rewrite E3r, decide_False by done. destruct (decide (r = RA)) as [->|Hna].
    + rewrite Hother by by_eval. by rewrite E1ra.
    + rewrite (Hld r (k_off r)) by by apply k_off_in'. by rewrite E1m.
Qed.
End kernel_traps.

(** ** Context switches *)

Definition ctx_regs : list (reg * Z) :=
  [(RA, 0); (SP, 8); (S0, 16); (S1, 24); (S2, 32); (S3, 40); (S4, 48); (S5, 56); (S6, 64); (S7, 72); (S8, 80);
   (S9, 88); (S10, 96); (S11, 104)].
(** [sizeof(struct context)] *)
Definition ctx_size := 112.

Section switch.
Variable xlate : Z -> Z -> Z.

(** [swtch] saves the callee-saved registers in one context and loads them from another. *)
Lemma swtch_spec s pold pnew :
  maps xlate (acsr s SATP) (areg s A0) pold ctx_size -> maps xlate (acsr s SATP) (areg s A1) pnew ctx_size ->
  word64 s -> pold + ctx_size <= pnew \/ pnew + ctx_size <= pold ->
  let s' := exec xlate swtch s in
  (forall r o, (r, o) ∈ ctx_regs -> load64 (am_mem s') (pold + o) = areg s r) /\
  (forall r o, (r, o) ∈ ctx_regs -> areg s' r = load64 (am_mem s) (pnew + o)) /\
  (forall a, a + 8 <= pold \/ pold + ctx_size <= a -> load64 (am_mem s') a = load64 (am_mem s) a).
Proof.
  intros Ho Hn Hw Hd. change swtch with (saves A0 ctx_regs ++ loads A1 ctx_regs). rewrite exec_app.
  assert (Hr : Forall (fun x => 0 <= x.2 < ctx_size /\ x.2 + 8 <= ctx_size) ctx_regs) by by_eval.
  destruct (exec_saves xlate A0 ctx_regs s pold ctx_size) as (Eh & Hin & Hout); [apply aligned_eval; by_eval|by_eval|done|].
  set (s1 := exec xlate _ s) in *. clearbody s1.
  assert (E1 : areg s1 A1 = areg s A1 /\ acsr s1 SATP = acsr s SATP) by (unfold areg, acsr; by rewrite Eh).
  destruct E1 as [E1a E1p].
  destruct (exec_loads xlate A1 ctx_regs s1 pnew ctx_size) as (Em & _ & Hld & _); [by_eval|by_eval|by_eval|by rewrite E1a, E1p|].
  set (s2 := exec xlate _ s1) in *. clearbody s2. cbv zeta.
  assert (Hkeep : forall a, a + 8 <= pold \/ pold + ctx_size <= a -> load64 (am_mem s1) a = load64 (am_mem s) a).
  { intros a Ha. apply Hout. intros o ([r o'] & -> & Hel)%list_elem_of_fmap.
    pose proof (proj1 (Forall_forall _ _) Hr _ Hel) as Hro. cbn in *. lia. }
  rewrite Em. split_and!; [|intros r o Hel|exact Hkeep].
  - intros r o Hel. rewrite (Hin r o Hel). apply u64_small, Hw.
  - rewrite (Hld r o Hel). apply Hkeep. pose proof (proj1 (Forall_forall _ _) Hr _ Hel) as Hro. cbn in *. lia.
Qed.
End switch.

(** ** The timer and the boot stack *)

Definition bare (satp va : Z) : Z := va.

Lemma maps_bare satp a n : 0 <= a -> a + n < 2 ^ 64 -> maps bare satp a a n.
Proof. intros Ha Hn. by split_and!. Qed.

Lemma exec_swap s :
  let s' := exec bare [CSRRW A0 MSCRATCH A0] s in
  am_mem s' = am_mem s /\ (forall r, areg s' r = if decide (r = A0) then acsr s MSCRATCH else areg s r) /\
  forall x, acsr s' x = if decide (x = MSCRATCH) then areg s A0 else acsr s x.
Proof. done. Qed.

Lemma exec_timecmp s :
  0 <= areg s A1 < 2 ^ 64 ->
  let s' := exec bare [LD A3 0 A1; ADD A3 A3 A2; SD A3 0 A1; LI A1 2; CSRW SIP A1] s in
  am_mem s' = store64 (am_mem s) (areg s A1) (u64 (load64 (am_mem s) (areg s A1) + areg s A2)) /\
  (forall r, r <> A1 -> r <> A3 -> areg s' r = areg s r) /\ acsr s' SIP = 2 /\
  forall x, x <> SIP -> acsr s' x = acsr s x.
Proof.
  intros Ha. cbn [exec fold_left exec1].
  assert (E : forall s0, areg s0 A1 = areg s A1 -> ea bare s0 A1 0 = areg s A1)
    by (intros s0 E0; unfold ea, bare; by rewrite E0, Z.add_0_r, u64_small).
  rewrite !E by done. split_and!; [done| |done|].
  - intros r H1 H3. unfold areg, put_reg, put_csr, set_reg, set_csr. cbn [am_hart h_reg]. by rewrite !decide_False.
  - intros x Hx. rewrite acsr_put. by rewrite decide_False.
Qed.

(** [timervec], in machine mode, where addresses are physical: it moves the next timer
    interrupt [scratch[4]] cycles on, raises a software interrupt, and leaves every
    register as it was. *)
Lemma timervec_spec s :
  let a := acsr s MSCRATCH in
  let cmp := load64 (am_mem s) (a + 24) in
  word64 s -> 0 <= a -> a + 40 < 2 ^ 64 -> cmp + 8 <= a \/ a + 40 <= cmp ->
  let s' := exec bare timervec s in
  (forall r, areg s' r = areg s r) /\ acsr s' MSCRATCH = a /\ acsr s' SIP = 2 /\
  load64 (am_mem s') cmp = u64 (load64 (am_mem s) cmp + load64 (am_mem s) (a + 32)).
Proof.
  intros a cmp Hw Ha Hlim Hd. assert (Hc : 0 <= cmp < 2 ^ 64) by apply load64_range.
  change timervec with ([CSRRW A0 MSCRATCH A0] ++ saves A0 [(A1, 0); (A2, 8); (A3, 16)] ++ loads A0 [(A1, 24); (A2, 32)] ++
    [LD A3 0 A1; ADD A3 A3 A2; SD A3 0 A1; LI A1 2; CSRW SIP A1] ++ loads A0 [(A3, 16); (A2, 8); (A1, 0)] ++
    [CSRRW A0 MSCRATCH A0]). rewrite !exec_app.
  destruct (exec_swap s) as (E1m & E1r & E1c). set (s1 := exec bare _ s) in *. clearbody s1.
  assert (Hb1 : areg s1 A0 = a) by (rewrite E1r; by rewrite decide_True).
  destruct (exec_saves bare A0 [(A1, 0); (A2, 8); (A3, 16)] s1 a 40) as (Eh & Hin & Hout);
    [apply aligned_eval; by_eval|by_eval|rewrite Hb1; by apply maps_bare|].
  set (s2 := exec bare _ s1) in *. clearbody s2.
  assert (Hb2 : areg s2 A0 = a) by (unfold areg in *; by rewrite Eh).
  destruct (exec_loads bare A0 [(A1, 24); (A2, 32)] s2 a 40) as (E3m & E3c & Hld & Ho3);
    [by_eval|by_eval|by_eval|rewrite Hb2; by apply maps_bare|].
  set (s3 := exec bare (loads _ _) s2) in *. clearbody s3.
  assert (Hk : forall o, 24 <= o -> load64 (am_mem s2) (a + o) = load64 (am_mem s) (a + o)).
  { intros o Ho. rewrite <- E1m. apply Hout. intros o' Ho'.
    assert (o' <= 16) by (revert o' Ho'; apply (proj1 (Forall_forall _ _)); by_eval). lia. }
  assert (Ecmp : areg s3 A1 = cmp) by (rewrite (Hld A1 24) by by_eval; apply Hk; lia).
  assert (Eint : areg s3 A2 = load64 (am_mem s) (a + 32)) by (rewrite (Hld A2 32) by by_eval; apply Hk; lia).
  assert (Ecm : load64 (am_mem s2) cmp = load64 (am_mem s) cmp).
  { rewrite <- E1m. apply Hout. intros o' Ho'.
    assert (0 <= o' <= 16) by (revert o' Ho'; apply (proj1 (Forall_forall _ _)); by_eval). lia. }
  destruct (exec_timecmp s3) as (E4m & E4r & E4s & E4c); [by rewrite Ecmp|]. rewrite Ecmp, Eint, E3m, Ecm in E4m.
  set (s4 := exec bare _ s3) in *. clearbody s4.
  assert (Hb4 : areg s4 A0 = a) by (rewrite E4r, Ho3 by (done || by_eval); done).
  destruct (exec_loads bare A0 [(A3, 16); (A2, 8); (A1, 0)] s4 a 40) as (E5m & E5c & Hld5 & Ho5);
    [by_eval|by_eval|by_eval|rewrite Hb4; by apply maps_bare|].
  set (s5 := exec bare (loads _ _) s4) in *. clearbody s5.
  destruct (exec_swap s5) as (E6m & E6r & E6c). set (s6 := exec bare _ s5) in *. clearbody s6. cbv zeta.
  assert (Em5 : acsr s5 MSCRATCH = areg s A0).
  { unfold acsr in *. rewrite E5c, E4c, E3c, Eh, E1c by done. by rewrite decide_True. }
  assert (Hsaved : forall r o, (r, o) ∈ [(A1, 0); (A2, 8); (A3, 16)] -> (r, o) ∈ [(A3, 16); (A2, 8); (A1, 0)] ->
    0 <= o <= 16 -> r <> A0 -> areg s5 r = areg s r).
  { intros r o Ho Ho' Hr Hne. rewrite (Hld5 r o Ho'), E4m, load64_store64_out, (Hin r o Ho), E1r, decide_False by (done || lia).
    apply u64_small, Hw. }
  split_and!.
  - intros r. rewrite E6r. destruct (decide (r = A0)) as [->|Hne]; [exact Em5|].
    destruct (decide (r ∈ [A1; A2; A3])) as [Hr|Hr].
    + apply list_elem_of_In in Hr. destruct Hr as [<-|[<-|[<-|[]]]]; [apply (Hsaved _ 0)|apply (Hsaved _ 8)|apply (Hsaved _ 16)]; by_eval.
    + rewrite !not_elem_of_cons in Hr. destruct Hr as (N1 & N2 & N3 & _).
      rewrite Ho5, E4r, Ho3; [|cbn; rewrite !not_elem_of_cons; auto using not_elem_of_nil|done|done|cbn; rewrite !not_elem_of_cons; auto using not_elem_of_nil]. unfold areg in *. rewrite Eh, E1r. by rewrite decide_False.
  - rewrite E6c, decide_True by done. by rewrite Ho5 by by_eval.
  - rewrite E6c, decide_False by done. unfold acsr in *. by rewrite E5c.
  - rewrite E6m, E5m, E4m, load64_store64_same. unfold u64. by rewrite Z.mod_mod.
Qed.

(** [entry] gives each hart the top of its own part of [stack0]. *)
Lemma entry_spec stack0 s :
  0 <= stack0 -> stack0 + 4096 * NCPU < 2 ^ 64 -> 0 <= acsr s MHARTID < NCPU ->
  areg (exec bare (entry stack0) s) SP = stack0 + 4096 * (acsr s MHARTID + 1).
Proof.
  intros H0 Hl Hh. unfold NCPU in *.
  change (u64 (u64 stack0 + u64 (u64 (1024 * 4) * u64 (acsr s MHARTID + 1))) = stack0 + 4096 * (acsr s MHARTID + 1)).
  rewrite (u64_small stack0), (u64_small (1024 * 4)), (u64_small (acsr s MHARTID + 1)) by lia.
  rewrite (u64_small (1024 * 4 * _)) by lia. rewrite u64_small; lia.
Qed.

(** ** Properties *)

(** C23: A trap from user space loses nothing: [uservec] saves all 31 registers and enters
    the kernel with the stack, hart number, page table and entry point that
    [usertrapret] left in the trapframe; when the kernel has later left the saved
    registers alone, [userret] gives every register its value at the trap. *)
Theorem trampoline_roundtrip xlate tf s s2 :
  maps xlate (acsr s SATP) TRAPFRAME tf tf_size -> word64 s ->
  let s1 := exec xlate uservec s in
  areg s2 A0 = acsr s SATP ->
  (forall r, load64 (am_mem s2) (tf + tf_off r) = load64 (am_mem s1) (tf + tf_off r)) ->
  areg s1 SP = load64 (am_mem s) (tf + 8) /\ areg s1 T0 = load64 (am_mem s) (tf + 16) /\
  areg s1 TP = load64 (am_mem s) (tf + 32) /\ acsr s1 SATP = load64 (am_mem s) (tf + 0) /\
  let s3 := exec xlate userret s2 in
  acsr s3 SATP = acsr s SATP /\ forall r, areg s3 r = areg s r.
Proof.
  intros Hm Hw s1 Ha Hsame. destruct (uservec_spec xlate tf s Hm Hw) as (Hsv & Hsp & Htp & Ht0 & Hst & _).
  destruct (userret_spec xlate tf s2) as (Hld & _ & Hp); [by rewrite Ha|].
  fold s1 in Hsv, Hsp, Htp, Ht0, Hst. split_and!; [done..|]. split; [by rewrite Hp|].
  intros r. by rewrite Hld, Hsame.
Qed.

(** An interrupt in the kernel is invisible to the interrupted code: if [kerneltrap]
    returns with the stack pointer and the frame that [kernelvec] pushed intact, every
    register is restored, but tp, which keeps the number of the hart now running. *)
Theorem kernelvec_restores xlate pa s s2 :
  maps xlate (acsr s SATP) (u64 (areg s SP - 256)) pa kframe -> word64 s ->
  let s1 := exec xlate kernelvec_save s in
  areg s2 SP = areg s1 SP -> acsr s2 SATP = acsr s SATP ->
  (forall r, load64 (am_mem s2) (pa + k_off r) = load64 (am_mem s1) (pa + k_off r)) ->
  let s3 := exec xlate kernelvec_restore s2 in
  areg s3 TP = areg s2 TP /\ forall r, r <> TP -> areg s3 r = areg s r.
Proof.
  intros Hm Hw s1 Hsp Hst Hsame. destruct (kernelvec_save_spec xlate s pa Hm Hw) as (E1 & E2 & _ & E4).
  fold s1 in E1, E2, E4.
  destruct (kernelvec_restore_spec xlate s2 pa (areg s SP)) as (R1 & R2 & R3);
    [congruence|apply Hw| |by rewrite Hst, Hsp, E1|].
  { change 8 with (k_off SP). rewrite Hsame, E4. congruence. }
  split; [exact R2|]. intros r Hne. destruct (decide (r = SP)) as [->|Hns]; [exact R1|].
  rewrite R3 by done. rewrite Hsame, E4. by apply E2.
Qed.

(** [swtch] resumes a thread where it stopped: when a thread has switched away, saving
    its context, and that context is unchanged when someone later switches back to it,
    the return address, the stack pointer and s0-s11 are those it had. *)
Theorem swtch_resumes xlate s s2 pold pnew p2 :
  maps xlate (acsr s SATP) (areg s A0) pold ctx_size -> maps xlate (acsr s SATP) (areg s A1) pnew ctx_size ->
  word64 s -> pold + ctx_size <= pnew \/ pnew + ctx_size <= pold ->
  maps xlate (acsr s2 SATP) (areg s2 A0) p2 ctx_size -> maps xlate (acsr s2 SATP) (areg s2 A1) pold ctx_size ->
  word64 s2 -> p2 + ctx_size <= pold \/ pold + ctx_size <= p2 ->
  (forall r o, (r, o) ∈ ctx_regs -> load64 (am_mem s2) (pold + o) = load64 (am_mem (exec xlate swtch s)) (pold + o)) ->
  forall r, r ∈ ctx_regs.*1 -> areg (exec xlate swtch s2) r = areg s r.
Proof.
  intros Ho Hn Hw Hd Ho2 Hn2 Hw2 Hd2 Hsame r ([r' o] & -> & Hel)%list_elem_of_fmap. cbn [fst].
  destruct (swtch_spec xlate s pold pnew Ho Hn Hw Hd) as (Hsv & _).
  destruct (swtch_spec xlate s2 p2 pold Ho2 Hn2 Hw2 Hd2) as (_ & Hld & _).
  by rewrite (Hld r' o Hel), (Hsame r' o Hel), (Hsv r' o Hel).
Qed.

(** ** Witnesses *)

(** Every address is mapped to itself; register [i] holds [1000 + i]. *)
Definition ex_am (a0 a1 satp : Z) : amach :=
  Am (Hart (fun r => match r with A0 => a0 | A1 => a1 | SP => 8192 | TP => 2 | _ => 1000 end)
        (fun x => match x with SATP => satp | _ => 0 end)) ∅.

Lemma ex_am_word a0 a1 satp : 0 <= a0 < 2 ^ 64 -> 0 <= a1 < 2 ^ 64 -> word64 (ex_am a0 a1 satp).
Proof. intros H0 H1 r. destruct r; cbn; lia. Qed.

Lemma maps_trapframe satp : maps bare satp TRAPFRAME TRAPFRAME tf_size.
Proof. apply maps_bare; by_eval. Qed.

Lemma trampoline_roundtrip_witness :
  let s := ex_am 7 8 5 in
  let s2 := Am (Hart (fun r => if decide (r = A0) then 5 else 0) (fun _ => 0)) (am_mem (exec bare uservec s)) in
  areg s2 A0 = 5 /\ forall r, areg (exec bare userret s2) r = areg s r.
Proof.
  intros s s2. split; [reflexivity|]. apply (trampoline_roundtrip bare TRAPFRAME s s2 (maps_trapframe _));
    [apply ex_am_word; lia|reflexivity|intros r; reflexivity].
Defined.

(** After the handler, on another hart. *)
Definition ex_back (f : reg -> Z) (m : mem) : amach := Am (Hart f (fun _ => 5)) m.
Definition ex_k : reg -> Z := fun r => if decide (r = SP) then 7936 else 3.
Definition ex_km : mem := am_mem (exec bare kernelvec_save (ex_am 7 8 5)).

Lemma ex_k_maps : maps bare (acsr (ex_am 7 8 5) SATP) (u64 (areg (ex_am 7 8 5) SP - 256)) 7936 kframe.
Proof.
  assert (u64 (areg (ex_am 7 8 5) SP - 256) = 7936) as -> by (vm_compute; reflexivity).
  apply maps_bare; by_eval.
Qed.

Lemma ex_k_sp : areg (ex_back ex_k ex_km) SP = areg (exec bare kernelvec_save (ex_am 7 8 5)) SP.
Proof. vm_compute. reflexivity. Qed.

Lemma kernelvec_restores_witness :
  let s3 := exec bare kernelvec_restore (ex_back ex_k ex_km) in
  areg s3 TP = areg (ex_back ex_k ex_km) TP /\ forall r, r <> TP -> areg s3 r = areg (ex_am 7 8 5) r.
Proof.
  exact (kernelvec_restores bare 7936 (ex_am 7 8 5) (ex_back ex_k ex_km) ex_k_maps
    (ex_am_word 7 8 5 ltac:(lia) ltac:(lia)) ex_k_sp eq_refl (fun r => eq_refl (load64 ex_km (7936 + k_off r)))).
Defined.

Definition ex_sw : amach := ex_am 4096 4608 5.
Definition ex_swm : mem := am_mem (exec bare swtch ex_sw).
Definition ex_sw2 : amach := ex_back (fun r => match r with A0 => 4608 | A1 => 4096 | _ => 1 end) ex_swm.

Lemma ex_sw_maps s a : 0 <= a < 8192 -> maps bare (acsr s SATP) a a ctx_size.
Proof. intros Ha. apply maps_bare; unfold ctx_size; lia. Qed.

Lemma ex_sw2_word : word64 ex_sw2.
Proof. intros r. destruct r; cbn; lia. Qed.

Lemma swtch_resumes_witness :
  am_mem ex_sw2 = ex_swm /\ forall r, r ∈ ctx_regs.*1 -> areg (exec bare swtch ex_sw2) r = areg ex_sw r.
Proof.
  split; [reflexivity|].
  exact (swtch_resumes bare ex_sw ex_sw2 4096 4608 4608
    (ex_sw_maps ex_sw 4096 ltac:(lia)) (ex_sw_maps ex_sw 4608 ltac:(lia)) (ex_am_word 4096 4608 5 ltac:(lia) ltac:(lia))
    ltac:(left; by_eval) (ex_sw_maps ex_sw2 4608 ltac:(lia)) (ex_sw_maps ex_sw2 4096 ltac:(lia)) ex_sw2_word
    ltac:(right; by_eval) (fun r o _ => eq_refl (load64 ex_swm (4096 + o)))).
Defined.
