(* ===== verification/Start.v ===== *)
(** * Machine-mode start: kernel/start.c

    Each hart runs [start] in machine mode: it prepares the machine-mode registers for
    the return to [main] in supervisor mode, and the timer. *)

From S2P Require Import Prelude KMonad Riscv Mem Hart Asm.

(** Addresses of the kernel image that start.c takes. *)
Class StartImage := {
  main_addr : Z;
  timervec_addr : Z;
  timer_scratch : Z (* uint64 timer_scratch[NCPU][5] *)
}.

Definition hop {A} (m : M hart A) : M amach A := zoom am_hart (fun h s => Am h (am_mem s)) m.

(** [*(uint64* )a = v] and [*(uint64* )a] *)
Definition st64 (a v : Z) : M amach unit := modify (fun s => Am (am_hart s) (store64 (am_mem s) a v)).
Definition ld64 (a : Z) : M amach Z := gets (fun s => load64 (am_mem s) a).

Section start.
Context `{StartImage}.

(** arrange to receive timer interrupts. *)
Definition timerinit : M amach unit :=
  (* each CPU has a separate source of timer interrupts. *)
  id <- hop r_mhartid ;;
  let id := s32 id in
  (* ask the CLINT for a timer interrupt. *)
  let interval := 1000000 in
  t <- ld64 CLINT_MTIME ;;
  st64 (CLINT_MTIMECMP id) (u64 (t + interval)) ;;
  (* prepare information in scratch[] for timervec. *)
  let scratch := timer_scratch + 40 * id in
  st64 (scratch + 24) (CLINT_MTIMECMP id) ;;
  st64 (scratch + 32) interval ;;
  hop (w_mscratch scratch) ;;
  (* set the machine-mode trap handler. *)
  hop (w_mtvec timervec_addr) ;;
  (* enable machine-mode interrupts. *)
  x <- hop r_mstatus ;;
  hop (w_mstatus (Z.lor x MSTATUS_MIE)) ;;
  (* enable machine-mode timer interrupts. *)
  x <- hop r_mie ;;
  hop (w_mie (Z.lor x MIE_MTIE)).

(** entry.S jumps here in machine mode on stack0; the end is [mret]. *)
Definition start : M amach unit :=
  (* set M Previous Privilege mode to Supervisor, for mret. *)
  x <- hop r_mstatus ;;
  let x := Z.land x (Z.lnot MSTATUS_MPP_MASK) in
  let x := Z.lor x MSTATUS_MPP_S in
  hop (w_mstatus x) ;;
  (* set M Exception Program Counter to main, for mret. *)
  hop (w_mepc main_addr) ;;
  (* disable paging for now. *)
  hop (w_satp 0) ;;
  (* delegate all interrupts and exceptions to supervisor mode. *)
  hop (w_medeleg 0xffff) ;;
  hop (w_mideleg 0xffff) ;;
  x <- hop r_sie ;;
  hop (w_sie (Z.lor (Z.lor (Z.lor x SIE_SEIE) SIE_STIE) SIE_SSIE)) ;;
  (* give supervisor mode access to all of physical memory. *)
  hop (w_pmpaddr0 0x3fffffffffffff) ;;
  hop (w_pmpcfg0 0xf) ;;
  (* ask for clock interrupts. *)
  timerinit ;;
  (* keep each CPU's hartid in its tp register, for cpuid(). *)
  id <- hop r_mhartid ;;
  hop (w_tp (s32 id)).

(** After [start] a hart's timer interrupts work: [timervec] finds its scratch area, and
    each interrupt comes 1000000 cycles after the last. *)
Lemma start_timer s c :
  let id := acsr s MHARTID in
  0 <= id < NCPU -> KERNBASE <= timer_scratch -> timer_scratch + 40 * NCPU < 2 ^ 64 -> word64 s ->
  exists s', start c s = Ok tt c s' /\
    areg s' TP = id /\ acsr s' MEPC = u64 main_addr /\ acsr s' SATP = 0 /\
    Z.testbit (acsr s' MSTATUS) 11 = true /\ Z.testbit (acsr s' MSTATUS) 12 = false /\
    let s2 := exec bare timervec s' in
    (forall r, areg s2 r = areg s' r) /\
    load64 (am_mem s2) (CLINT_MTIMECMP id) = u64 (load64 (am_mem s') (CLINT_MTIMECMP id) + 1000000).
Proof.
  intros id Hid Hk Hlim Hw. pose proof (s32_small id ltac:(unfold NCPU in *; lia)) as Eid.
  eexists. split.
  { lazy [start timerinit hop zoom bind gets modify csrr csrw st64 ld64 r_mhartid r_mstatus w_mstatus w_mepc w_satp
      w_medeleg w_mideleg r_sie w_sie w_pmpaddr0 w_pmpcfg0 w_mscratch w_mtvec r_mie w_mie w_tp am_hart am_mem].
    reflexivity. }
  match goal with |- areg ?x TP = _ /\ _ => set (s' := x) end.
  set (scr := timer_scratch + 40 * id).
  assert (Escr : acsr s' MSCRATCH = scr).
  { change (acsr s' MSCRATCH) with (u64 (timer_scratch + 40 * s32 id)). rewrite Eid. apply u64_small. unfold scr, NCPU, KERNBASE in *. lia. }
  set (cmp := CLINT_MTIMECMP id). set (m1 := store64 (am_mem s) cmp (u64 (load64 (am_mem s) CLINT_MTIME + 1000000))).
  assert (Em : am_mem s' = store64 (store64 m1 (scr + 24) cmp) (scr + 32) 1000000).
  { change (am_mem s') with (store64 (store64 (store64 (am_mem s) (CLINT_MTIMECMP (s32 id)) (u64 (load64 (am_mem s) CLINT_MTIME + 1000000)))
      (timer_scratch + 40 * s32 id + 24) (CLINT_MTIMECMP (s32 id))) (timer_scratch + 40 * s32 id + 32) 1000000).
    by rewrite Eid. }
  assert (Hw' : word64 s').
  { intros r. change (areg s' r) with (if decide (r = TP) then u64 (s32 id) else areg s r).
    case_decide; [apply u64_range|apply Hw]. }
  assert (Hcmp : 0 <= cmp < scr - 8) by (unfold cmp, scr, CLINT_MTIMECMP, CLINT, NCPU, KERNBASE in *; lia).
  assert (Hscr : 0 <= scr /\ scr + 40 < 2 ^ 64) by (unfold scr, NCPU, KERNBASE in *; lia).
  assert (E24 : load64 (am_mem s') (scr + 24) = cmp).
  { rewrite Em, load64_store64_out, load64_store64_same by lia. apply u64_small. lia. }
  assert (E32 : load64 (am_mem s') (scr + 32) = 1000000) by (rewrite Em, load64_store64_same; done).
  pose proof (timervec_spec s') as Ht. cbv zeta in Ht. rewrite Escr, E24, E32 in Ht.
  destruct Ht as (Hr & _ & _ & Hcm); [done|lia|lia|lia|].
  assert (Etp : areg s' TP = id) by (change (areg s' TP) with (u64 (s32 id)); rewrite Eid; apply u64_small; unfold NCPU in *; lia).
  assert (Ems : acsr s' MSTATUS = u64 (Z.lor (u64 (Z.lor (Z.land (acsr s MSTATUS) (Z.lnot MSTATUS_MPP_MASK)) MSTATUS_MPP_S)) MSTATUS_MIE))
    by reflexivity.
  split_and!; try done; rewrite Ems; unfold u64; rewrite Z.mod_pow2_bits_low, Z.lor_spec, Z.mod_pow2_bits_low, Z.lor_spec, Z.land_spec, Z.lnot_spec by lia.
  - by rewrite orb_true_r.
  - by rewrite !andb_false_r.
Qed.
End start.
