(* ===== verification/Spinlock.v ===== *)
(** * Spin locks and interrupt masking (kernel/spinlock.c)

    KMonad describes a critical section by the list of locks the thread holds.
    This file models what is underneath: the lock words, the processors with their
    interrupt-enable bit and the [noff] and [intena] fields of [struct cpu], and
    the instructions of [acquire] and [release], interleaved between processors.
    It shows that the lock words implement the lists: one holder per lock,
    [acquire] panics exactly on a lock the processor holds and [release] on one it
    does not, [pop_off] never panics, and interrupts are off while a lock is held. *)

From stdpp Require Import functions.
From S2P Require Import Prelude KMonad.

(** [uint locked; struct cpu *cpu;] *)
Record spinlock := Spinlock { lk_locked : bool; lk_cpu : option nat }.

Definition initlock : spinlock := Spinlock false None.

(** The interrupt-enable bit of a processor and [int noff, intena] of its
    [struct cpu]. *)
Record cpu := Cpu { intr : bool; noff : Z; intena : bool }.

Definition push_off (c : cpu) : cpu :=
  let old := intr c in
  Cpu false (noff c + 1) (if noff c =? 0 then old else intena c).

Definition pop_off (c : cpu) : string + cpu :=
  if intr c then inl "pop_off - interruptible"%string
  else if noff c <? 1 then inl "pop_off"%string
  else
    let n := noff c - 1 in
    inr (Cpu ((n =? 0) && intena c) n (intena c)).

(** [holding(lk)] on processor [i]. *)
Definition holding (lk : spinlock) (i : nat) : bool :=
  lk_locked lk && bool_decide (lk_cpu lk = Some i).

(** ** The instructions of [acquire] and [release]

    [Spin l]: [push_off] and the check are done, at the atomic swap;
    [SetCpu l]: the swap returned 0, at [lk->cpu = mycpu()];
    [Unlock l]: [lk->cpu = 0] is done, at the atomic store of 0 to [lk->locked];
    [PopOff]: the lock word is cleared, at [pop_off()]. *)
Inductive pc := Ready | Spin (l : lock) | SetCpu (l : lock) | Unlock (l : lock) | PopOff
  | Panicked (msg : string).

(** A processor, where it is, and the locks it took and has not begun to release. *)
Record hart := Hart { h_cpu : cpu; h_pc : pc; h_held : list lock }.

Record smp := Smp { locks : lock -> spinlock; harts : nat -> hart }.

Definition upd (i : nat) (h : hart) (s : smp) : smp := Smp (locks s) (<[i := h]> (harts s)).
Definition set_lock (l : lock) (k : spinlock) (s : smp) : smp := Smp (<[l := k]> (locks s)) (harts s).

(** One instruction of processor [i]. *)
Inductive step (i : nat) (s : smp) : smp -> Prop :=
| step_intr b hs c :
    (* the thread turns interrupts on or off outside any critical section *)
    harts s i = Hart c Ready hs -> noff c = 0 ->
    step i s (upd i (Hart (Cpu b (noff c) (intena c)) Ready hs) s)
| step_acquire l c hs :
    harts s i = Hart c Ready hs ->
    step i s (upd i (Hart (push_off c)
      (if holding (locks s l) i then Panicked "acquire" else Spin l) hs) s)
| step_spin l c hs :
    (* while(__sync_lock_test_and_set(&lk->locked, 1) != 0) ; *)
    harts s i = Hart c (Spin l) hs ->
    step i s (upd i (Hart c (if lk_locked (locks s l) then Spin l else SetCpu l) hs)
      (set_lock l (Spinlock true (lk_cpu (locks s l))) s))
| step_setcpu l c hs :
    harts s i = Hart c (SetCpu l) hs ->
    step i s (upd i (Hart c Ready (l :: hs))
      (set_lock l (Spinlock (lk_locked (locks s l)) (Some i)) s))
| step_release l c hs :
    harts s i = Hart c Ready hs -> holding (locks s l) i = true ->
    step i s (upd i (Hart c (Unlock l) (remove_lock l hs))
      (set_lock l (Spinlock (lk_locked (locks s l)) None) s))
| step_release_panic l c hs :
    harts s i = Hart c Ready hs -> holding (locks s l) i = false ->
    step i s (upd i (Hart c (Panicked "release") hs) s)
| step_unlock l c hs :
    harts s i = Hart c (Unlock l) hs ->
    step i s (upd i (Hart c PopOff hs)
      (set_lock l (Spinlock false (lk_cpu (locks s l))) s))
| step_popoff c hs :
    harts s i = Hart c PopOff hs ->
    step i s (upd i (match pop_off c with
                     | inl msg => Hart c (Panicked msg) hs
                     | inr c' => Hart c' Ready hs
                     end) s).

Definition start : smp :=
  Smp (fun _ => initlock) (fun _ => Hart (Cpu false 0 false) Ready []).

Inductive reachable : smp -> Prop :=
| reach_start : reachable start
| reach_step i s s' : reachable s -> step i s s' -> reachable s'.

(** ** The invariant *)

(** Processor [i] has won the swap for [l] and not yet undone it. *)
Definition owns (h : hart) (l : lock) : Prop :=
  l ∈ h_held h \/ h_pc h = SetCpu l \/ h_pc h = Unlock l.

(** The [push_off] of the [acquire] or [release] under way. *)
Definition in_call (p : pc) : Z :=
  match p with Spin _ | SetCpu _ | Unlock _ | PopOff => 1 | _ => 0 end.

Record hart_ok (h : hart) : Prop := {
  ok_nodup : NoDup (h_held h);
  ok_noff : match h_pc h with
            | Panicked _ => True
            | p => noff (h_cpu h) = Z.of_nat (length (h_held h)) + in_call p
            end;
  ok_noff_nonneg : 0 <= noff (h_cpu h);
  ok_intr : 0 < noff (h_cpu h) -> intr (h_cpu h) = false;
  ok_pc : forall l, h_pc h = SetCpu l \/ h_pc h = Unlock l -> l ∉ h_held h
}.

Record inv (s : smp) : Prop := {
  inv_harts : forall i, hart_ok (harts s i);
  inv_unique : forall i j l, owns (harts s i) l -> owns (harts s j) l -> i = j;
  inv_locked : forall l, lk_locked (locks s l) = true <-> exists i, owns (harts s i) l;
  inv_cpu : forall i l, lk_cpu (locks s l) = Some i <-> l ∈ h_held (harts s i)
}.

Lemma harts_upd i h s j : harts (upd i h s) j = if decide (i = j) then h else harts s j.
Proof.
  unfold upd. cbn [harts].
  case_decide as E; [subst; by rewrite fn_lookup_insert|by rewrite fn_lookup_insert_ne].
Qed.

Lemma locks_set l k s l' : locks (set_lock l k s) l' = if decide (l = l') then k else locks s l'.
Proof.
  unfold set_lock. cbn [locks].
  case_decide as E; [subst; by rewrite fn_lookup_insert|by rewrite fn_lookup_insert_ne].
Qed.

(** A step of processor [i] that changes the state of lock [l] only. *)
Lemma inv_upd_lock s i h l k :
  inv s -> hart_ok h ->
  (forall l', l' <> l -> (owns h l' <-> owns (harts s i) l') /\
     (l' ∈ h_held h <-> l' ∈ h_held (harts s i))) ->
  (owns h l -> forall j, owns (harts s j) l -> i = j) ->
  (lk_locked k = true <-> owns h l \/ exists j, j <> i /\ owns (harts s j) l) ->
  (forall j, lk_cpu k = Some j <-> l ∈ h_held (if decide (i = j) then h else harts s j)) ->
  inv (upd i h (set_lock l k s)).
Proof.
  intros [Hok Hun Hlk Hcpu] Hh Hother Huniq Hkl Hkc. split.
  - intros j. rewrite harts_upd. case_decide; [done|apply Hok].
  - intros j1 j2 l'. rewrite !harts_upd. cbn [harts set_lock].
    destruct (decide (l' = l)) as [->|Hne].
    + destruct (decide (i = j1)) as [<-|], (decide (i = j2)) as [<-|]; intros H1 H2; auto.
      * symmetry. by apply Huniq.
      * by eapply Hun.
    + destruct (Hother l' Hne) as [Ho _].
      destruct (decide (i = j1)) as [<-|], (decide (i = j2)) as [<-|];
        rewrite ?Ho; by apply Hun.
  - intros l'. cbn [locks upd]. rewrite locks_set. case_decide as E.
    + subst l'. rewrite Hkl. setoid_rewrite harts_upd. cbn [harts set_lock]. split.
      * intros [Ho|(j & Hj & Ho)]; [exists i|exists j].
        -- by rewrite decide_True.
        -- by rewrite decide_False by done.
      * intros [j Ho]. case_decide; [by left|right; eauto].
    + rewrite Hlk. setoid_rewrite harts_upd. cbn [harts set_lock].
      destruct (Hother l' ltac:(done)) as [Ho _]. split.
      * intros [j Hj]. exists j. case_decide; [subst j; by apply Ho|done].
      * intros [j Hj]. exists j. case_decide; [subst j; by apply Ho|done].
  - intros j l'. cbn [locks upd]. rewrite locks_set, harts_upd. cbn [harts set_lock].
    case_decide as E; [subst l'; apply Hkc|]. rewrite Hcpu.
    case_decide; [|done]. subst j. symmetry. by apply Hother.
Qed.

(** A step that changes no lock. *)
Lemma inv_upd s i h :
  inv s -> hart_ok h ->
  (forall l, (owns h l <-> owns (harts s i) l) /\ (l ∈ h_held h <-> l ∈ h_held (harts s i))) ->
  inv (upd i h s).
Proof.
  intros [Hok Hun Hlk Hcpu] Hh Hsame. split.
  - intros j. rewrite harts_upd. case_decide; [done|apply Hok].
  - intros j1 j2 l. rewrite !harts_upd. destruct (Hsame l) as [Ho _].
    destruct (decide (i = j1)) as [<-|], (decide (i = j2)) as [<-|]; rewrite ?Ho; by apply Hun.
  - intros l. cbn [locks upd]. rewrite Hlk. setoid_rewrite harts_upd.
    destruct (Hsame l) as [Ho _].
    split; intros [j Hj]; exists j; case_decide; try done; subst j; by apply Ho.
  - intros j l. cbn [locks upd]. rewrite harts_upd, Hcpu.
    case_decide; [|done]. subst j. symmetry. by apply Hsame.
Qed.

Lemma holding_spec s i l : inv s -> holding (locks s l) i = true <-> l ∈ h_held (harts s i).
Proof.
  intros Hinv. unfold holding. rewrite andb_true_iff, bool_decide_eq_true, (inv_cpu _ Hinv).
  split; [by intros [_ ?]|]. intros Hin. split; [|done].
  apply (inv_locked _ Hinv). exists i. by left.
Qed.

Lemma remove_lock_spec l ls l' : l' ∈ remove_lock l ls <-> l' ∈ ls /\ l' <> l.
Proof. unfold remove_lock. rewrite list_elem_of_filter. naive_solver. Qed.

Lemma length_remove_lock l ls : NoDup ls -> l ∈ ls -> S (length (remove_lock l ls)) = length ls.
Proof.
  intros Hnd Hin. apply list_elem_of_split in Hin as (l1 & l2 & ->).
  apply NoDup_app in Hnd as (_ & Hd & Hnd). apply NoDup_cons in Hnd as [Hn2 _].
  assert (l ∉ l1) as Hn1 by (intros Hi; apply (Hd l Hi); by left).
  assert (forall k, l ∉ k -> remove_lock l k = k) as Hid.
  { intros k Hk. unfold remove_lock. induction k as [|x k IH]; [done|].
    apply not_elem_of_cons in Hk as [? ?]. rewrite filter_cons_True by done. by rewrite IH. }
  unfold remove_lock in *. rewrite filter_app, filter_cons_False by naive_solver.
  rewrite !Hid by done. rewrite !length_app. cbn. lia.
Qed.

Lemma push_off_ok c : 0 <= noff c -> 0 < noff (push_off c) /\ intr (push_off c) = false.
Proof. cbn. lia. Qed.

(** A processor inside [acquire] or [release] can always leave through [pop_off]. *)
Lemma pop_off_ok c : 0 < noff c -> intr c = false ->
  pop_off c = inr (Cpu ((noff c - 1 =? 0) && intena c) (noff c - 1) (intena c)).
Proof.
  intros Hn Hi. unfold pop_off. rewrite Hi. destruct (Z.ltb_spec (noff c) 1); [lia|done].
Qed.

Section step_inv.
Context (i : nat) (s : smp) (Hinv : inv s).

Lemma hart_at c p hs : harts s i = Hart c p hs -> hart_ok (Hart c p hs).
Proof. intros <-. apply Hinv. Qed.

Lemma inv_step_acquire l c hs :
  harts s i = Hart c Ready hs ->
  inv (upd i (Hart (push_off c)
    (if holding (locks s l) i then Panicked "acquire" else Spin l) hs) s).
Proof.
  intros E. destruct (hart_at _ _ _ E) as [Hnd Hno Hnn Hin _]. cbn in *.
  apply inv_upd; [done| |].
  - split; cbn; [done| |lia|done|].
    + destruct (holding _ _); cbn; lia.
    + intros l' Hl'. destruct (holding _ _); naive_solver.
  - intros l'. rewrite E. unfold owns. cbn. destruct (holding _ _); naive_solver.
Qed.

Lemma inv_step_spin l c hs :
  harts s i = Hart c (Spin l) hs ->
  inv (upd i (Hart c (if lk_locked (locks s l) then Spin l else SetCpu l) hs)
    (set_lock l (Spinlock true (lk_cpu (locks s l))) s)).
Proof.
  intros E. destruct (hart_at _ _ _ E) as [Hnd Hno Hnn Hin _]. cbn in *.
  pose proof (inv_locked _ Hinv l) as Hlk.
  assert (owns (harts s i) l <-> l ∈ hs) as Hown by (rewrite E; unfold owns; cbn; naive_solver).
  apply inv_upd_lock; [done| | | | |].
  - split; cbn; [done|by destruct (lk_locked _)|done|done|].
    intros l' Hl' Hin'. destruct (lk_locked (locks s l)); [naive_solver|].
    assert (l' = l) as -> by naive_solver.
    assert (false = true) by (apply Hlk; exists i; by apply Hown). done.
  - intros l' Hne. rewrite E. unfold owns. cbn. destruct (lk_locked _); naive_solver.
  - intros Ho j Hj. destruct (lk_locked (locks s l)) eqn:El.
    + apply (inv_unique _ Hinv i j l); [|done]. rewrite Hown. unfold owns in Ho. cbn in Ho. naive_solver.
    + assert (false = true) by (apply Hlk; eauto). done.
  - cbn. split; [intros _|done]. unfold owns. cbn.
    destruct (lk_locked (locks s l)) eqn:El; [|naive_solver].
    destruct (proj1 Hlk eq_refl) as [j Hj]. destruct (decide (j = i)) as [->|]; [|eauto].
    left. left. by apply Hown.
  - intros j. cbn. rewrite (inv_cpu _ Hinv). case_decide; [subst j; by rewrite E|done].
Qed.

Lemma inv_step_setcpu l c hs :
  harts s i = Hart c (SetCpu l) hs ->
  inv (upd i (Hart c Ready (l :: hs))
    (set_lock l (Spinlock (lk_locked (locks s l)) (Some i)) s)).
Proof.
  intros E. destruct (hart_at _ _ _ E) as [Hnd Hno Hnn Hin Hpc]. cbn in *.
  assert (owns (harts s i) l) as Hown by (rewrite E; right; by left).
  apply inv_upd_lock; [done| | | | |].
  - split; cbn; [|lia|done|done|naive_solver]. constructor; [apply Hpc; by left|done].
  - intros l' Hne. rewrite E. unfold owns. cbn. rewrite elem_of_cons. naive_solver.
  - intros _ j Hj. by apply (inv_unique _ Hinv i j l).
  - cbn. rewrite (inv_locked _ Hinv). split; [intros _; left; left; by left|]. eauto.
  - intros j. cbn. case_decide as Ej; [subst j; split; [intros _; by left|done]|].
    split; [naive_solver|]. intros Hj. exfalso. apply Ej, (inv_unique _ Hinv i j l); [done|by left].
Qed.

Lemma inv_step_release l c hs :
  harts s i = Hart c Ready hs -> holding (locks s l) i = true ->
  inv (upd i (Hart c (Unlock l) (remove_lock l hs))
    (set_lock l (Spinlock (lk_locked (locks s l)) None) s)).
Proof.
  intros E Hh. destruct (hart_at _ _ _ E) as [Hnd Hno Hnn Hin Hpc]. cbn in *.
  apply (holding_spec s i l Hinv) in Hh. rewrite E in Hh. cbn in Hh.
  assert (owns (harts s i) l) as Hown by (rewrite E; by left).
  apply inv_upd_lock; [done| | | | |].
  - pose proof (length_remove_lock l hs Hnd Hh). split; cbn.
    + by apply NoDup_filter.
    + lia.
    + done.
    + done.
    + intros l' [?|[= <-]]; [done|]. rewrite remove_lock_spec. naive_solver.
  - intros l' Hne. rewrite E. unfold owns. cbn. rewrite remove_lock_spec. naive_solver.
  - intros _ j Hj. by apply (inv_unique _ Hinv i j l).
  - cbn. rewrite (inv_locked _ Hinv). split; [intros _; left; right; by right|]. eauto.
  - intros j. cbn. split; [done|]. intros Hj. exfalso. case_decide as Ej.
    + cbn in Hj. apply remove_lock_spec in Hj. naive_solver.
    + apply Ej, (inv_unique _ Hinv i j l); [done|by left].
Qed.

Lemma inv_step_unlock l c hs :
  harts s i = Hart c (Unlock l) hs ->
  inv (upd i (Hart c PopOff hs) (set_lock l (Spinlock false (lk_cpu (locks s l))) s)).
Proof.
  intros E. destruct (hart_at _ _ _ E) as [Hnd Hno Hnn Hin Hpc]. cbn in *.
  assert (owns (harts s i) l) as Hown by (rewrite E; right; by right).
  assert (l ∉ hs) as Hn by (apply Hpc; by right).
  apply inv_upd_lock; [done| | | | |].
  - split; cbn; [done|done|done|done|naive_solver].
  - intros l' Hne. rewrite E. unfold owns. cbn. naive_solver.
  - intros _ j Hj. by apply (inv_unique _ Hinv i j l).
  - cbn. split; [done|]. unfold owns at 1. cbn. intros [?|(j & Hj & Ho)]; [naive_solver|].
    exfalso. by apply Hj, (inv_unique _ Hinv j i l).
  - intros j. cbn. rewrite (inv_cpu _ Hinv). case_decide; [subst j; by rewrite E|done].
Qed.

Lemma inv_step_popoff c hs :
  harts s i = Hart c PopOff hs ->
  pop_off c = inr (Cpu ((noff c - 1 =? 0) && intena c) (noff c - 1) (intena c)) /\
  inv (upd i (Hart (Cpu ((noff c - 1 =? 0) && intena c) (noff c - 1) (intena c)) Ready hs) s).
Proof.
  intros E. destruct (hart_at _ _ _ E) as [Hnd Hno Hnn Hin Hpc]. cbn in *. split.
  { apply pop_off_ok; [lia|apply Hin; lia]. }
  apply inv_upd; [done| |].
  - split; cbn; [done|lia|lia| |naive_solver]. intros Hp.
    destruct (Z.eqb_spec (noff c - 1) 0); [lia|done].
  - intros l'. rewrite E. unfold owns. cbn. naive_solver.
Qed.
End step_inv.

Lemma smp_inv_step i s s' : step i s s' -> inv s -> inv s'.
Proof.
  intros Hst Hinv.
  destruct Hst as [b hs c E Hn|l c hs E|l c hs E|l c hs E|l c hs E Hh|l c hs E Hh|l c hs E|c hs E].
  - destruct (hart_at i s Hinv _ _ _ E) as [Hnd Hno Hnn Hin Hpc]. cbn in *.
    apply inv_upd; [done|split; cbn; [done|done|done|lia|done]|].
    intros l. rewrite E. done.
  - by apply inv_step_acquire.
  - by apply inv_step_spin.
  - by apply inv_step_setcpu.
  - by apply inv_step_release.
  - destruct (hart_at i s Hinv _ _ _ E) as [Hnd Hno Hnn Hin Hpc]. cbn in *.
    apply inv_upd; [done|split; cbn; [done|done|done|done|naive_solver]|].
    intros l'. rewrite E. unfold owns. cbn. naive_solver.
  - by apply inv_step_unlock.
  - by destruct (inv_step_popoff i s Hinv c hs E) as [-> ?].
Qed.

Lemma smp_inv_reachable s : reachable s -> inv s.
Proof.
  induction 1 as [|i s s' _ IH Hst]; [|by eapply smp_inv_step].
  split; cbn.
  - intros i. split; cbn; [constructor|done|done|lia|naive_solver].
  - intros i j l. unfold owns. cbn. intros [?%elem_of_nil|?]; naive_solver.
  - intros l. unfold owns. cbn. split; [done|]. intros [i [?%elem_of_nil|?]]; naive_solver.
  - intros i l. split; [done|]. intros ?%elem_of_nil. done.
Qed.

(** ** Properties *)

(** C20: The lock words implement the lists of held locks: in every state any number
    of processors can reach, a lock is held by at most one processor, [holding]
    answers true exactly on the processor that holds the lock (so [acquire] panics
    exactly on a lock already held there and [release] on one not held), interrupts
    are off on a processor that holds a lock, and [pop_off] does not panic. *)
Theorem spinlock_implements_held s :
  reachable s ->
  (forall i j l, l ∈ h_held (harts s i) -> l ∈ h_held (harts s j) -> i = j) /\
  (forall i l, holding (locks s l) i = bool_decide (l ∈ h_held (harts s i))) /\
  (forall i, h_pc (harts s i) = Ready -> h_held (harts s i) <> [] ->
     intr (h_cpu (harts s i)) = false) /\
  (forall i, h_pc (harts s i) = PopOff -> exists c, pop_off (h_cpu (harts s i)) = inr c).
Proof.
  intros Hinv%smp_inv_reachable. split_and!.
  - intros i j l Hi Hj. apply (inv_unique _ Hinv i j l); by left.
  - intros i l. pose proof (holding_spec s i l Hinv) as Hs.
    case_bool_decide as Hd; destruct (holding _ _); naive_solver.
  - intros i Hr Hne. destruct (inv_harts _ Hinv i) as [_ Hno _ Hin _]. rewrite Hr in Hno.
    apply Hin. destruct (h_held (harts s i)); [done|]. cbn in Hno. lia.
  - intros i Hp. destruct (inv_harts _ Hinv i) as [_ Hno _ Hin _]. rewrite Hp in Hno.
    cbn in Hno. rewrite pop_off_ok; [eauto|lia|apply Hin; lia].
Qed.

(** Nested [push_off] ([true]) and [pop_off] ([false]) calls of one processor. *)
Inductive balanced : list bool -> Prop :=
| bal_nil : balanced []
| bal_app l1 l2 : balanced l1 -> balanced l2 -> balanced (l1 ++ l2)
| bal_pair l : balanced l -> balanced (true :: l ++ [false]).

Fixpoint run_offs (l : list bool) (c : cpu) : string + cpu :=
  match l with
  | [] => inr c
  | b :: l' =>
      match (if b then inr (push_off c) else pop_off c) with
      | inl msg => inl msg
      | inr c' => run_offs l' c'
      end
  end.

Lemma run_offs_app l1 l2 c c' :
  run_offs l1 c = inr c' -> run_offs (l1 ++ l2) c = run_offs l2 c'.
Proof.
  revert c. induction l1 as [|b l1 IH]; intros c; cbn; [by intros [= ->]|].
  destruct (if b then _ else _); [done|]. apply IH.
Qed.

(** [push_off] and [pop_off] nest: after any balanced sequence of calls, none of
    which panics, interrupts and the nesting depth are what they were before. *)
Theorem push_pop_restores l c :
  balanced l -> 0 <= noff c -> (0 < noff c -> intr c = false) ->
  exists c', run_offs l c = inr c' /\ intr c' = intr c /\ noff c' = noff c /\
    (0 < noff c -> intena c' = intena c).
Proof.
  intros Hb. revert c. induction Hb as [|l1 l2 _ IH1 _ IH2|l _ IH]; intros c Hn Hi.
  - by exists c.
  - destruct (IH1 c Hn Hi) as (c1 & R1 & I1 & N1 & A1).
    destruct (IH2 c1) as (c2 & R2 & I2 & N2 & A2); [lia|rewrite I1, N1; done|].
    exists c2. rewrite (run_offs_app _ _ _ _ R1). split_and!; [done|congruence|lia|].
    intros Hp. rewrite A2 by lia. auto.
  - cbn. destruct (IH (push_off c)) as (c1 & R1 & I1 & N1 & A1); [cbn; lia|done|].
    cbn in I1, N1, A1. rewrite (run_offs_app _ _ _ _ R1). cbn.
    rewrite pop_off_ok by (lia || done). rewrite A1, N1 by lia.
    eexists. split_and!; [done| |cbn; lia|].
    + cbn. replace (noff c + 1 - 1) with (noff c) by lia.
      destruct (Z.eqb_spec (noff c) 0); cbn; [done|]. symmetry. apply Hi. lia.
    + cbn. intros Hp. destruct (Z.eqb_spec (noff c) 0); [lia|done].
Qed.

(** ** Witnesses *)

(** Processor 0 takes the lock of the page allocator. *)
Definition ex_cpu : cpu := push_off (Cpu false 0 false).
Definition ex_lock1 : smp := upd 0 (Hart ex_cpu (Spin LK_kmem) []) start.
Definition ex_lock2 : smp :=
  upd 0 (Hart ex_cpu (SetCpu LK_kmem) []) (set_lock LK_kmem (Spinlock true None) ex_lock1).
Definition ex_lock : smp :=
  upd 0 (Hart ex_cpu Ready [LK_kmem]) (set_lock LK_kmem (Spinlock true (Some 0%nat)) ex_lock2).

Lemma ex_lock_reachable : reachable ex_lock.
Proof.
  assert (reachable ex_lock1) as H1.
  { apply (reach_step 0 start); [apply reach_start|].
    exact (step_acquire 0 start LK_kmem (Cpu false 0 false) [] eq_refl). }
  assert (reachable ex_lock2) as H2.
  { apply (reach_step 0 ex_lock1); [exact H1|].
    exact (step_spin 0 ex_lock1 LK_kmem ex_cpu [] eq_refl). }
  apply (reach_step 0 ex_lock2); [exact H2|].
  exact (step_setcpu 0 ex_lock2 LK_kmem ex_cpu [] eq_refl).
Qed.

Lemma spinlock_implements_held_witness :
  reachable ex_lock /\ holding (locks ex_lock LK_kmem) 0 = true /\
  intr (h_cpu (harts ex_lock 0)) = false.
Proof.
  pose proof (spinlock_implements_held ex_lock ex_lock_reachable) as (_ & Hh & Hi & _).
  split_and!; [apply ex_lock_reachable| |].
  - rewrite Hh. reflexivity.
  - apply Hi; [reflexivity|discriminate].
Defined.

Lemma push_pop_restores_witness :
  exists c', run_offs [true; true; false; false] (Cpu true 0 false) = inr c' /\
    intr c' = true /\ noff c' = 0 /\ (0 < 0 -> intena c' = false).
Proof.
  apply (push_pop_restores [true; true; false; false] (Cpu true 0 false)).
  - apply (bal_pair [true; false]), (bal_pair []), bal_nil.
  - cbn. lia.
  - cbn. lia.
Defined.
