(* ===== verification/Kalloc.v ===== *)
(** * The physical page allocator (kernel/kalloc.c)

    The free list is threaded through the free pages themselves: the first eight
    bytes of a free page hold the address of the next one.  The model keeps that
    representation, in the byte memory of Mem; [kinv] relates it to the abstract
    free list, and [kmem_refines] shows that the allocator implements the
    abstract one over any sequence of calls. *)

From S2P Require Import Prelude KMonad Riscv Mem.

(** The symbols the linker script (kernel/kernel.ld) and the assembler define:
    the end of the kernel image and of its text, and the trampoline page. *)
Class KernelImage := {
  kend : Z;
  etext : Z;
  trampoline : Z;
  kend_range : KERNBASE < kend <= PHYSTOP;
  etext_range : KERNBASE < etext <= kend;
  etext_aligned : etext mod PGSIZE = 0;
  trampoline_range : KERNBASE <= trampoline < etext;
  trampoline_aligned : trampoline mod PGSIZE = 0;
}.

(** Physical memory and [kmem.freelist]. *)
Record mach := Mach { ram : mem; freelist : Z }.

Definition set_ram (f : mem -> mem) (s : mach) : mach := Mach (f (ram s)) (freelist s).
Definition set_freelist (p : Z) (s : mach) : mach := Mach (ram s) p.

Section kalloc.
Context `{KernelImage}.

Definition kfree (pa : Z) : M mach unit :=
  if negb (pa mod PGSIZE =? 0) || (pa <? kend) || (PHYSTOP <=? pa)
  then panic "kfree"
  else
    (* Fill with junk to catch dangling refs. *)
    modify (set_ram (fun m => memset m pa 1 PGSIZE)) ;;
    acquire LK_kmem ;;
    next <- gets freelist ;;
    modify (set_ram (fun m => store64 m pa next)) ;;
    modify (set_freelist pa) ;;
    release LK_kmem.

Definition kalloc : M mach Z :=
  acquire LK_kmem ;;
  r <- gets freelist ;;
  (when negb (r =? 0) do
     next <- gets (fun s => load64 (ram s) r) ;;
     modify (set_freelist next)) ;;
  release LK_kmem ;;
  (when negb (r =? 0) do
     modify (set_ram (fun m => memset m r 5 PGSIZE))) ;;
  ret r.

(** [for(; p + PGSIZE <= pa_end; p += PGSIZE) kfree(p);] *)
Fixpoint freerange_loop (fuel : nat) (p pa_end : Z) : M mach unit :=
  if p + PGSIZE <=? pa_end then
    match fuel with
    | O => panic "freerange: out of fuel"
    | S f => kfree p ;; freerange_loop f (p + PGSIZE) pa_end
    end
  else ret tt.

Definition freerange (pa_start pa_end : Z) : M mach unit :=
  freerange_loop (Z.to_nat (pa_end / PGSIZE)) (PGROUNDUP pa_start) pa_end.

Definition kinit : M mach unit := freerange kend PHYSTOP.

(** ** The abstract free list *)

Definition page_ok (p : Z) : Prop := p mod PGSIZE = 0 /\ kend <= p < PHYSTOP.

Fixpoint chain (m : mem) (p : Z) (l : list Z) : Prop :=
  match l with
  | [] => p = 0
  | x :: l' => p = x /\ chain m (load64 m x) l'
  end.

Definition kinv (s : mach) (l : list Z) : Prop :=
  chain (ram s) (freelist s) l /\ NoDup l /\ Forall page_ok l.

Lemma page_ok_pos p : page_ok p -> 0 < p < 2 ^ 56.
Proof. pose proof kend_range. unfold page_ok, PHYSTOP, KERNBASE in *. lia. Qed.

(** Distinct pages do not overlap. *)
Lemma page_ok_disjoint p q :
  p mod PGSIZE = 0 -> q mod PGSIZE = 0 -> p <> q -> p + PGSIZE <= q \/ q + PGSIZE <= p.
Proof.
  unfold PGSIZE. intros Hp Hq Hne.
  pose proof (Z.div_mod p 4096). pose proof (Z.div_mod q 4096).
  assert (p / 4096 <> q / 4096) by (intros E; apply Hne; lia). lia.
Qed.

Lemma page_ok_decide p :
  page_ok p -> negb (p mod PGSIZE =? 0) || (p <? kend) || (PHYSTOP <=? p) = false.
Proof.
  intros [-> ?]. simpl.
  destruct (p <? kend) eqn:?; destruct (PHYSTOP <=? p) eqn:?; bool_spec; simpl; done || lia.
Qed.

(** The chain depends only on the first words of its pages. *)
Lemma chain_ext m m' p l :
  (forall q, q ∈ l -> load64 m q = load64 m' q) -> chain m p l -> chain m' p l.
Proof.
  revert p. induction l as [|x l IH]; intros p Hext Hc; [done|].
  destruct Hc as [-> Hc]. split; [done|].
  rewrite <- Hext by (by left). apply IH; [|done].
  intros q ?. apply Hext. by right.
Qed.

(** What an operation on page [pa] leaves alone: every byte outside it. *)
Definition only_page (pa : Z) (s s' : mach) : Prop :=
  forall a, a < pa \/ pa + PGSIZE <= a -> rd (ram s') a = rd (ram s) a.

Lemma only_page_load64 pa s s' q :
  only_page pa s s' -> pa mod PGSIZE = 0 -> q mod PGSIZE = 0 -> q <> pa ->
  load64 (ram s) q = load64 (ram s') q.
Proof.
  intros Ho ? ? Hne. apply load64_ext. intros b ?. symmetry. apply Ho.
  destruct (page_ok_disjoint pa q); plia || congruence.
Qed.

Lemma kinv_only_page pa s s' l :
  kinv s l -> only_page pa s s' -> freelist s' = freelist s ->
  pa mod PGSIZE = 0 -> pa ∉ l -> kinv s' l.
Proof.
  intros (Hc & Hnd & Hok) Ho Hf Hal Hni. split_and!; [|done|done].
  rewrite Hf. eapply chain_ext; [|done]. intros q Hq.
  apply (only_page_load64 pa); [done|done| |congruence].
  rewrite Forall_forall in Hok. apply Hok in Hq as [? _]. done.
Qed.

Lemma kfree_run pa c s :
  page_ok pa -> LK_kmem ∉ held c ->
  kfree pa c s =
    Ok tt c (Mach (store64 (memset (ram s) pa 1 PGSIZE) pa (freelist s)) pa).
Proof.
  intros Hok Hl. unfold kfree. rewrite page_ok_decide by done.
  unfold bind, modify, gets, acquire, release, set_ram, set_freelist.
  rewrite decide_False by done. cbn.
  rewrite decide_True by (by left). rewrite remove_lock_head by done.
  by destruct c.
Qed.

Lemma kfree_spec pa c s l :
  kinv s l -> page_ok pa -> pa ∉ l -> LK_kmem ∉ held c ->
  exists s', kfree pa c s = Ok tt c s' /\ kinv s' (pa :: l) /\ only_page pa s s'.
Proof.
  intros Hinv Hok Hni Hl. eexists. split; [by apply kfree_run|].
  assert (only_page pa s (Mach (store64 (memset (ram s) pa 1 PGSIZE) pa (freelist s))
            (freelist s))) as Ho.
  { intros a ?. cbn. rewrite rd_store64_out, rd_memset_out; [done| |];
      plia. }
  destruct Hok as [Hal ?].
  pose proof (kinv_only_page pa _ _ l Hinv Ho eq_refl Hal Hni) as (Hc & ? & ?).
  split; [|exact Ho]. split_and!; [|by constructor|].
  - cbn. split; [done|]. rewrite load64_store64_same.
    rewrite u64_small; [done|]. destruct Hinv as (Hc0 & _ & Hall).
    destruct l as [|x l]; cbn in Hc0; [by rewrite Hc0|].
    destruct Hc0 as [-> _]. apply Forall_cons in Hall as [Hx _].
    apply page_ok_pos in Hx. lia.
  - constructor; [by split|]. by destruct Hinv as (_ & _ & ?).
Qed.

Lemma kfree_panic pa c s : ~ page_ok pa -> kfree pa c s = Panic "kfree".
Proof.
  intros Hn. unfold kfree.
  destruct (negb _ || _ || _) eqn:E; [done|].
  exfalso. apply Hn. bool_spec. by repeat split.
Qed.

Lemma kalloc_spec c s l :
  kinv s l -> LK_kmem ∉ held c ->
  match l with
  | [] => kalloc c s = Ok 0 c s
  | p :: l' =>
      exists s', kalloc c s = Ok p c s' /\ kinv s' l' /\ only_page p s s' /\
        forall a, p <= a < p + PGSIZE -> rd (ram s') a = 5
  end.
Proof.
  intros (Hc & Hnd & Hok) Hl.
  unfold kalloc, bind, modify, gets, acquire, release, ret, set_ram, set_freelist.
  rewrite decide_False by done. destruct l as [|p l]; cbn in Hc.
  - rewrite Hc. cbn. rewrite decide_True by (by left).
    rewrite remove_lock_head by done. cbn. rewrite <- Hc. by destruct s, c.
  - destruct Hc as [Hp Hc]. rewrite Hp. apply Forall_cons in Hok as [Hpok Hok].
    apply NoDup_cons in Hnd as [Hni Hnd].
    pose proof (page_ok_pos p Hpok).
    replace (p =? 0) with false by (symmetry; apply Z.eqb_neq; lia).
    cbn. rewrite decide_True by (by left). rewrite remove_lock_head by done. cbn.
    eexists. split_and!; [by destruct c| | |].
    + destruct Hpok as [Hal _].
      apply (kinv_only_page p (Mach (ram s) (load64 (ram s) p))); [|
        |done|done|done].
      * by split_and!.
      * intros a ?. cbn. apply rd_memset_out. done.
    + intros a ?. cbn. apply rd_memset_out. done.
    + intros a ?. cbn. by rewrite rd_memset_in by done.
Qed.

(** ** Initialisation *)

Lemma freerange_loop_spec fuel p e c s l :
  kinv s l -> LK_kmem ∉ held c ->
  p mod PGSIZE = 0 -> e mod PGSIZE = 0 -> kend <= p -> e <= PHYSTOP ->
  (e - p) / PGSIZE <= Z.of_nat fuel ->
  (forall q, q ∈ l -> q < p) ->
  exists s' l', freerange_loop fuel p e c s = Ok tt c s' /\ kinv s' l' /\
    forall q, q ∈ l' <-> q ∈ l \/ (q mod PGSIZE = 0 /\ p <= q < e).
Proof.
  revert p s l. induction fuel as [|f IH]; intros p s l Hinv Hl Hp He Hk Hph Hf Hlt.
  all: cbn [freerange_loop]; destruct (p + PGSIZE <=? e) eqn:E; bool_spec.
  - unfold PGSIZE in *. assert (1 <= (e - p) / 4096) by (apply Z.div_le_lower_bound; lia). lia.
  - exists s, l. split_and!; [done|done|]. intros q. split; [by left|].
    intros [?|[Hq ?]]; [done|].
    destruct (page_ok_disjoint q e); plia || done.
  - assert (page_ok p) as Hok by (split; [done|plia]).
    destruct (kfree_spec p c s l) as (s1 & Hrun & Hinv1 & _); [done|done| |done|].
    { intros Hin. apply Hlt in Hin. lia. }
    destruct (IH (p + PGSIZE) s1 (p :: l)) as (s2 & l2 & Hrun2 & Hinv2 & Hl2);
      [done|done| |done| |done| | |].
    + unfold PGSIZE in *. rewrite <- Zplus_mod_idemp_r. by rewrite Z.add_0_r.
    + plia.
    + unfold PGSIZE in *. replace (e - p) with (e - (p + 4096) + 1 * 4096) in Hf by lia.
      rewrite Z.div_add in Hf by lia. lia.
    + intros q [->|Hq]%elem_of_cons; [plia|].
      apply Hlt in Hq. plia.
    + exists s2, l2. split_and!; [by rewrite (bind_Ok _ _ _ _ _ _ _ Hrun)|done|].
      intros q. rewrite Hl2, elem_of_cons. split.
      * intros [[->|?]|[? ?]]; [right; plia|by left|right].
        unfold PGSIZE in *. split; [done|lia].
      * intros [?|[Hq ?]]; [by left; right|].
        destruct (decide (q = p)); [by left; left|right].
        split; [done|]. destruct (page_ok_disjoint p q); plia.
  - exists s, l. split_and!; [done|done|]. intros q. split; [by left|].
    intros [?|[Hq ?]]; [done|].
    destruct (page_ok_disjoint q e); plia || done.
Qed.

(** [kinit] terminates without panicking and leaves a well formed free list
    that holds each page-aligned address from the end of the kernel to [PHYSTOP]
    exactly once. *)
Theorem kinit_frees_all_pages c m :
  LK_kmem ∉ held c ->
  exists s l, kinit c (Mach m 0) = Ok tt c s /\ kinv s l /\
    forall p, p ∈ l <-> page_ok p.
Proof.
  intros Hl. pose proof kend_range as Hk. unfold kinit, freerange.
  assert (kend <= PGROUNDUP kend) as Hup.
  { apply PGROUNDUP_bounds. plia. }
  destruct (freerange_loop_spec (Z.to_nat (PHYSTOP / PGSIZE)) (PGROUNDUP kend) PHYSTOP c
    (Mach m 0) []) as (s & l & Hrun & Hinv & Hel).
  - split_and!; [done|constructor|constructor].
  - done.
  - apply PGROUNDUP_aligned.
  - done.
  - done.
  - done.
  - rewrite Z2Nat.id by done.
    apply Z.div_le_mono; unfold PGSIZE; plia.
  - intros q Hq. by apply elem_of_nil in Hq.
  - exists s, l. split_and!; [done|done|]. intros p. rewrite Hel. unfold page_ok.
    split.
    + intros [?%elem_of_nil|[? ?]]; [done|]. split; [done|lia].
    + intros [Ha ?]. right. split; [done|].
      pose proof (PGROUNDUP_aligned kend).
      assert (PGROUNDUP kend < kend + PGSIZE)
        by (apply PGROUNDUP_bounds; plia).
      destruct (decide (p = PGROUNDUP kend)); [lia|].
      destruct (page_ok_disjoint p (PGROUNDUP kend)); lia || done.
Qed.

(** ** Refinement over sequences of calls *)

Inductive kop := KAlloc | KFree (pa : Z).

(** The abstract allocator: a stack of free pages. *)
Definition spec_step (o : kop) (l : list Z) : Z * list Z :=
  match o, l with
  | KAlloc, [] => (0, [])
  | KAlloc, p :: l' => (p, l')
  | KFree pa, _ => (0, pa :: l)
  end.

Fixpoint spec_run (os : list kop) (l : list Z) : list Z * list Z :=
  match os with
  | [] => ([], l)
  | o :: os' =>
      let '(r, l1) := spec_step o l in
      let '(rs, l2) := spec_run os' l1 in (r :: rs, l2)
  end.

(** The client's obligation: only a page that is not free is freed. *)
Fixpoint legal (os : list kop) (l : list Z) : Prop :=
  match os with
  | [] => True
  | o :: os' =>
      match o with KAlloc => True | KFree pa => page_ok pa /\ pa ∉ l end /\
      legal os' (snd (spec_step o l))
  end.

Definition impl_step (o : kop) : M mach Z :=
  match o with
  | KAlloc => kalloc
  | KFree pa => kfree pa ;; ret 0
  end.

Fixpoint impl_run (os : list kop) : M mach (list Z) :=
  match os with
  | [] => ret []
  | o :: os' => r <- impl_step o ;; rs <- impl_run os' ;; ret (r :: rs)
  end.

Lemma impl_step_refines o c s l :
  kinv s l -> LK_kmem ∉ held c ->
  match o with KAlloc => True | KFree pa => page_ok pa /\ pa ∉ l end ->
  exists s', impl_step o c s = Ok (fst (spec_step o l)) c s' /\
    kinv s' (snd (spec_step o l)).
Proof.
  intros Hinv Hl Hleg. destruct o as [|pa]; cbn [impl_step].
  - pose proof (kalloc_spec c s l Hinv Hl) as Hk. destruct l as [|p l]; cbn.
    + by exists s.
    + destruct Hk as (s' & ? & ? & _). by exists s'.
  - destruct Hleg as [Hok Hni].
    destruct (kfree_spec pa c s l) as (s' & Hrun & ? & _); [done..|].
    exists s'. by rewrite (bind_Ok _ _ _ _ _ _ _ Hrun).
Qed.

(** C13: The allocator, with its list threaded through the free pages, implements a
    stack of free pages: over any sequence of [kalloc] and [kfree] calls that frees
    only pages that are not free, no call panics, the results are those of the
    abstract stack, and the list in memory again represents it. *)
Theorem kmem_refines os c s l :
  kinv s l -> LK_kmem ∉ held c -> legal os l ->
  exists s', impl_run os c s = Ok (fst (spec_run os l)) c s' /\
    kinv s' (snd (spec_run os l)).
Proof.
  revert s l. induction os as [|o os IH]; intros s l Hinv Hl Hleg; [by exists s|].
  destruct Hleg as [Ho Hleg]. cbn [impl_run spec_run].
  destruct (impl_step_refines o c s l Hinv Hl Ho) as (s1 & Hrun1 & Hinv1).
  destruct (spec_step o l) as [r l1] eqn:E. cbn [fst snd] in *.
  destruct (IH s1 l1 Hinv1 Hl Hleg) as (s2 & Hrun2 & Hinv2).
  destruct (spec_run os l1) as [rs l2]. exists s2. split; [|done].
  rewrite (bind_Ok _ _ _ _ _ _ _ Hrun1), (bind_Ok _ _ _ _ _ _ _ Hrun2). done.
Qed.
End kalloc.

(** ** Witnesses *)

#[local] Program Instance ex_image : KernelImage := {|
  kend := KERNBASE + 34 * PGSIZE;
  etext := KERNBASE + 8 * PGSIZE;
  trampoline := KERNBASE + 7 * PGSIZE
|}.
Solve Obligations with (vm_compute; intuition discriminate).

Lemma kinit_frees_all_pages_witness :
  exists s l, kinit (Ctx [] [] 0) (Mach ∅ 0) = Ok tt (Ctx [] [] 0) s /\ kinv s l /\
    forall p, p ∈ l <-> page_ok p.
Proof. apply (kinit_frees_all_pages (Ctx [] [] 0) ∅). apply not_elem_of_nil. Defined.

(** Two pages freed on an empty list, then three allocations. *)
Definition ex_ops : list kop :=
  [KFree (KERNBASE + 40 * PGSIZE); KFree (KERNBASE + 50 * PGSIZE); KAlloc; KAlloc; KAlloc].

Lemma kmem_refines_witness :
  legal ex_ops [] /\
  exists s', impl_run ex_ops (Ctx [] [] 0) (Mach ∅ 0) =
    Ok [0; 0; KERNBASE + 50 * PGSIZE; KERNBASE + 40 * PGSIZE; 0] (Ctx [] [] 0) s' /\
    kinv s' [].
Proof.
  assert (legal ex_ops []) as Hleg.
  { cbn. split_and!; try done; try (vm_compute; intuition discriminate); set_solver. }
  split; [exact Hleg|].
  apply (kmem_refines ex_ops (Ctx [] [] 0) (Mach ∅ 0) []);
    [split_and!; [done|constructor|constructor]|apply not_elem_of_nil|exact Hleg].
Defined.
