(* ===== verification/Vm.v ===== *)
(** * Virtual memory (kernel/vm.c)

    Page tables live in physical memory: a page-table page is 512 little-endian
    64-bit entries, and [walk] follows them, allocating missing pages with
    [kalloc].  The operations below are those of vm.c on the machine state of
    Kalloc.  Kernel buffers that [copyout] and [copyin] move bytes from and to are
    byte lists, since they are variables of the kernel and not user memory. *)

From S2P Require Import Prelude KMonad Riscv Mem Kalloc.

(** Bytes of a memory area, and storing bytes into one. *)
Fixpoint rd_bytes (m : mem) (a : Z) (n : nat) : list Z :=
  match n with
  | O => []
  | S n' => rd m a :: rd_bytes m (a + 1) n'
  end.

Fixpoint wr_bytes (m : mem) (a : Z) (l : list Z) : mem :=
  match l with
  | [] => m
  | x :: l' => wr_bytes (wr m a x) (a + 1) l'
  end.

Section vm.
Context `{KernelImage}.

Definition pte_at (a : Z) : M mach Z := gets (fun s => load64 (ram s) a).
Definition set_pte (a v : Z) : M mach unit := modify (set_ram (fun m => store64 m a v)).

(** One iteration of the loop of [walk]; [None] is its [return 0]. *)
Definition walk_level (level pagetable va : Z) (alloc : bool) : M mach (option Z) :=
  let a := pagetable + 8 * PX level va in
  pte <- pte_at a ;;
  if negb (Z.land pte PTE_V =? 0) then ret (Some (PTE2PA pte))
  else if negb alloc then ret None
  else
    p <- kalloc ;;
    if p =? 0 then ret None
    else
      modify (set_ram (fun m => memset m p 0 PGSIZE)) ;;
      set_pte a (Z.lor (PA2PTE p) PTE_V) ;;
      ret (Some p).

(** The address of the entry for [va], or 0. *)
Definition walk (pagetable va : Z) (alloc : bool) : M mach Z :=
  if MAXVA <=? va then panic "walk"
  else
    r <- walk_level 2 pagetable va alloc ;;
    match r with
    | None => ret 0
    | Some pt1 =>
        r <- walk_level 1 pt1 va alloc ;;
        match r with
        | None => ret 0
        | Some pt0 => ret (pt0 + 8 * PX 0 va)
        end
    end.

Definition walkaddr (pagetable va : Z) : M mach Z :=
  if MAXVA <=? va then ret 0
  else
    pte <- walk pagetable va false ;;
    if pte =? 0 then ret 0
    else
      e <- pte_at pte ;;
      if Z.land e PTE_V =? 0 then ret 0
      else if Z.land e PTE_U =? 0 then ret 0
      else ret (PTE2PA e).

(** The [for(;;)] loop of [mappages]; it ends at [last], or by a panic of [walk] when
    [a] reaches [MAXVA]. *)
Fixpoint mappages_loop (fuel : nat) (pagetable a last pa perm : Z) : M mach Z :=
  match fuel with
  | O => panic "mappages: out of fuel"
  | S f =>
      pte <- walk pagetable a true ;;
      if pte =? 0 then ret (-1)
      else
        e <- pte_at pte ;;
        if negb (Z.land e PTE_V =? 0) then panic "mappages: remap"
        else
          set_pte pte (Z.lor (Z.lor (PA2PTE pa) perm) PTE_V) ;;
          if a =? last then ret 0
          else mappages_loop f pagetable (a + PGSIZE) last (u64 (pa + PGSIZE)) perm
  end.

Definition mappages_fuel (a last : Z) : nat :=
  Z.to_nat ((if a <=? last then last - a else MAXVA - a) / PGSIZE + 1).

Definition mappages (pagetable va size pa perm : Z) : M mach Z :=
  if size =? 0 then panic "mappages: size"
  else
    let a := PGROUNDDOWN va in
    let last := PGROUNDDOWN (u64 (va + size - 1)) in
    mappages_loop (mappages_fuel a last) pagetable a last pa perm.

Definition kvmmap (kpgtbl va pa sz perm : Z) : M mach unit :=
  r <- mappages kpgtbl va sz pa perm ;;
  if negb (r =? 0) then panic "kvmmap" else ret tt.

Definition unmap_page (pagetable : Z) (do_free : bool) (a : Z) : M mach unit :=
  pte <- walk pagetable a false ;;
  if pte =? 0 then panic "uvmunmap: walk"
  else
    e <- pte_at pte ;;
    if Z.land e PTE_V =? 0 then panic "uvmunmap: not mapped"
    else if PTE_FLAGS e =? PTE_V then panic "uvmunmap: not a leaf"
    else
      (when do_free do kfree (PTE2PA e)) ;;
      set_pte pte 0.

(** The addresses [for(a = start; a < end; a += PGSIZE)]. *)
Definition pages (start stop : Z) : list Z :=
  (fun i => start + i * PGSIZE) <$> upto ((stop - start + PGSIZE - 1) / PGSIZE).

Definition uvmunmap (pagetable va npages : Z) (do_free : bool) : M mach unit :=
  if negb (va mod PGSIZE =? 0) then panic "uvmunmap: not aligned"
  else mfor (pages va (u64 (va + npages * PGSIZE))) (unmap_page pagetable do_free).

Definition uvmcreate : M mach Z :=
  pagetable <- kalloc ;;
  if pagetable =? 0 then ret 0
  else
    modify (set_ram (fun m => memset m pagetable 0 PGSIZE)) ;;
    ret pagetable.

Definition uvmfirst (pagetable : Z) (src : list Z) : M mach unit :=
  if PGSIZE <=? Z.of_nat (length src) then panic "uvmfirst: more than a page"
  else
    p <- kalloc ;;
    modify (set_ram (fun m => memset m p 0 PGSIZE)) ;;
    mappages pagetable 0 PGSIZE p (Z.lor (Z.lor (Z.lor PTE_W PTE_R) PTE_X) PTE_U) ;;
    modify (set_ram (fun m => wr_bytes m p src)).

Definition uvmdealloc (pagetable oldsz newsz : Z) : M mach Z :=
  if oldsz <=? newsz then ret oldsz
  else
    (when PGROUNDUP newsz <? PGROUNDUP oldsz do
       let npages := (PGROUNDUP oldsz - PGROUNDUP newsz) / PGSIZE in
       uvmunmap pagetable (PGROUNDUP newsz) (s32 npages) true) ;;
    ret newsz.

(** [for(a = oldsz; a < newsz; a += PGSIZE)]; [oldsz] is already rounded up. *)
Fixpoint uvmalloc_loop (fuel : nat) (pagetable oldsz a newsz xperm : Z) : M mach Z :=
  if newsz <=? a then ret newsz
  else
    match fuel with
    | O => panic "uvmalloc: out of fuel"
    | S f =>
        p <- kalloc ;;
        if p =? 0 then
          uvmdealloc pagetable a oldsz ;;
          ret 0
        else
          modify (set_ram (fun m => memset m p 0 PGSIZE)) ;;
          r <- mappages pagetable a PGSIZE p (Z.lor (Z.lor PTE_R PTE_U) xperm) ;;
          if negb (r =? 0) then
            kfree p ;;
            uvmdealloc pagetable a oldsz ;;
            ret 0
          else uvmalloc_loop f pagetable oldsz (a + PGSIZE) newsz xperm
    end.

Definition uvmalloc (pagetable oldsz newsz xperm : Z) : M mach Z :=
  if newsz <? oldsz then ret oldsz
  else
    let oldsz := PGROUNDUP oldsz in
    uvmalloc_loop (Z.to_nat ((newsz - oldsz + PGSIZE - 1) / PGSIZE))
      pagetable oldsz oldsz newsz xperm.

(** [depth] bounds the recursion: a page table has three levels. *)
Fixpoint freewalk (depth : nat) (pagetable : Z) : M mach unit :=
  match depth with
  | O => panic "freewalk: too deep"
  | S d =>
      mfor (upto 512) (fun i =>
        pte <- pte_at (pagetable + 8 * i) ;;
        if negb (Z.land pte PTE_V =? 0) && (Z.land pte (Z.lor (Z.lor PTE_R PTE_W) PTE_X) =? 0)
        then
          (* this PTE points to a lower-level page table. *)
          freewalk d (PTE2PA pte) ;;
          set_pte (pagetable + 8 * i) 0
        else if negb (Z.land pte PTE_V =? 0) then panic "freewalk: leaf"
        else ret tt) ;;
      kfree pagetable
  end.

Definition uvmfree (pagetable sz : Z) : M mach unit :=
  (when 0 <? sz do uvmunmap pagetable 0 (PGROUNDUP sz / PGSIZE) true) ;;
  freewalk 3 pagetable.

(** [for(i = 0; i < sz; i += PGSIZE)]; both error exits run the code at [err:]. *)
Fixpoint uvmcopy_loop (fuel : nat) (old new i sz : Z) : M mach Z :=
  if sz <=? i then ret 0
  else
    match fuel with
    | O => panic "uvmcopy: out of fuel"
    | S f =>
        pte <- walk old i false ;;
        if pte =? 0 then panic "uvmcopy: pte should exist"
        else
          e <- pte_at pte ;;
          if Z.land e PTE_V =? 0 then panic "uvmcopy: page not present"
          else
            p <- kalloc ;;
            if p =? 0 then
              uvmunmap new 0 (i / PGSIZE) true ;;
              ret (-1)
            else
              modify (set_ram (fun m => memmove m p (PTE2PA e) PGSIZE)) ;;
              r <- mappages new i PGSIZE p (PTE_FLAGS e) ;;
              if negb (r =? 0) then
                kfree p ;;
                uvmunmap new 0 (i / PGSIZE) true ;;
                ret (-1)
              else uvmcopy_loop f old new (i + PGSIZE) sz
    end.

Definition uvmcopy (old new sz : Z) : M mach Z :=
  uvmcopy_loop (Z.to_nat ((sz + PGSIZE - 1) / PGSIZE)) old new 0 sz.

Definition uvmclear (pagetable va : Z) : M mach unit :=
  pte <- walk pagetable va false ;;
  if pte =? 0 then panic "uvmclear"
  else
    e <- pte_at pte ;;
    set_pte pte (Z.land e (Z.lnot PTE_U)).

(** Each iteration of the copy loops handles one page. *)
Definition copy_fuel (len : Z) : nat := Z.to_nat (len / PGSIZE + 2).

Fixpoint copyout_loop (fuel : nat) (pagetable dstva : Z) (src : list Z) : M mach Z :=
  match src with
  | [] => ret 0
  | _ =>
      match fuel with
      | O => panic "copyout: out of fuel"
      | S f =>
          let va0 := PGROUNDDOWN dstva in
          pa0 <- walkaddr pagetable va0 ;;
          if pa0 =? 0 then ret (-1)
          else
            let n := Z.min (PGSIZE - (dstva - va0)) (Z.of_nat (length src)) in
            modify (set_ram (fun m =>
              wr_bytes m (pa0 + (dstva - va0)) (take (Z.to_nat n) src))) ;;
            copyout_loop f pagetable (va0 + PGSIZE) (drop (Z.to_nat n) src)
      end
  end.

Definition copyout (pagetable dstva : Z) (src : list Z) : M mach Z :=
  copyout_loop (copy_fuel (Z.of_nat (length src))) pagetable dstva src.

(** The result is the return value and the bytes that reached [dst]; on an error
    these are the bytes of the pages before the one that is not mapped. *)
Fixpoint copyin_loop (fuel : nat) (pagetable srcva len : Z) : M mach (Z * list Z) :=
  if len <=? 0 then ret (0, [])
  else
    match fuel with
    | O => panic "copyin: out of fuel"
    | S f =>
        let va0 := PGROUNDDOWN srcva in
        pa0 <- walkaddr pagetable va0 ;;
        if pa0 =? 0 then ret (-1, [])
        else
          let n := Z.min (PGSIZE - (srcva - va0)) len in
          d <- gets (fun s => rd_bytes (ram s) (pa0 + (srcva - va0)) (Z.to_nat n)) ;;
          r <- copyin_loop f pagetable (va0 + PGSIZE) (len - n) ;;
          ret (fst r, d ++ snd r)
    end.

Definition copyin (pagetable srcva len : Z) : M mach (Z * list Z) :=
  copyin_loop (copy_fuel len) pagetable srcva len.

(** The inner loop of [copyinstr]: bytes up to and including a NUL, among [n]. *)
Fixpoint str_bytes (m : mem) (p : Z) (n : nat) : list Z * bool :=
  match n with
  | O => ([], false)
  | S n' =>
      if rd m p =? 0 then ([0], true)
      else
        let '(l, got_null) := str_bytes m (p + 1) n' in (rd m p :: l, got_null)
  end.

Fixpoint copyinstr_loop (fuel : nat) (pagetable srcva max : Z) : M mach (Z * list Z) :=
  if max <=? 0 then ret (-1, [])
  else
    match fuel with
    | O => panic "copyinstr: out of fuel"
    | S f =>
        let va0 := PGROUNDDOWN srcva in
        pa0 <- walkaddr pagetable va0 ;;
        if pa0 =? 0 then ret (-1, [])
        else
          let n := Z.min (PGSIZE - (srcva - va0)) max in
          r <- gets (fun s => str_bytes (ram s) (pa0 + (srcva - va0)) (Z.to_nat n)) ;;
          let '(d, got_null) := r in
          if (got_null : bool) then ret (0, d)
          else
            r <- copyinstr_loop f pagetable (va0 + PGSIZE) (max - n) ;;
            ret (fst r, d ++ snd r)
    end.

Definition copyinstr (pagetable srcva max : Z) : M mach (Z * list Z) :=
  copyinstr_loop (copy_fuel max) pagetable srcva max.

(** ** The kernel's page table *)

(** kernel/proc.c: a page for each process's kernel stack, mapped high in memory
    and followed by an unmapped guard page. *)
Definition proc_mapstacks (kpgtbl : Z) : M mach unit :=
  mfor (upto NPROC) (fun p =>
    pa <- kalloc ;;
    if pa =? 0 then panic "kalloc"
    else kvmmap kpgtbl (KSTACK p) pa PGSIZE (Z.lor PTE_R PTE_W)).

Definition kvmmake : M mach Z :=
  kpgtbl <- kalloc ;;
  modify (set_ram (fun m => memset m kpgtbl 0 PGSIZE)) ;;
  let RW := Z.lor PTE_R PTE_W in
  let RX := Z.lor PTE_R PTE_X in
  kvmmap kpgtbl UART0 UART0 PGSIZE RW ;; (* uart registers *)
  kvmmap kpgtbl VIRTIO0 VIRTIO0 PGSIZE RW ;; (* virtio mmio disk interface *)
  kvmmap kpgtbl PLIC PLIC 4194304 RW ;; (* PLIC *)
  kvmmap kpgtbl KERNBASE KERNBASE (etext - KERNBASE) RX ;; (* kernel text *)
  kvmmap kpgtbl etext etext (PHYSTOP - etext) RW ;; (* kernel data and physical RAM *)
  kvmmap kpgtbl TRAMPOLINE trampoline PGSIZE RX ;;
  proc_mapstacks kpgtbl ;;
  ret kpgtbl.
End vm.
