(* ===== verification/PageTable.v ===== *)
(** * Page tables as trees

    The representation invariant of the page tables that kernel/vm.c builds, and what
    [walk], [mappages] and [uvmunmap] do to it.  The nodes of a table are given by a
    function from paths to pages: the empty path is the root, and the path [[i; j]] the
    level-0 page below entry [i] of the root and entry [j] of the page that one points
    to.  A virtual address selects a path and an entry of a level-0 page; [pte_of] is
    that entry, or 0 when the path does not exist yet.  The operations are described by
    what they do to [pte_of] and to the list of free pages. *)

From S2P Require Import Prelude KMonad Riscv Mem Kalloc Vm.

(** ** Page table entries *)

(** The entry [mappages] writes. *)
Definition mkpte (pa perm : Z) : Z := Z.lor (Z.lor (PA2PTE pa) perm) PTE_V.
(** The entry [walk] writes: a pointer to the next level. *)
Definition pde (pa : Z) : Z := Z.lor (PA2PTE pa) PTE_V.

Lemma land_low x m n : 0 <= n -> 0 <= m < 2 ^ n -> Z.land x m = Z.land (x mod 2 ^ n) m.
Proof.
  intros Hn Hm. rewrite <- (Z.land_ones x n) by done. rewrite <- Z.land_assoc. f_equal.
  rewrite Z.land_comm, Z.land_ones by done. by rewrite Z.mod_small.
Qed.

Lemma pte_fields pa f :
  0 <= pa < 2 ^ 56 -> 0 <= f < 1024 ->
  let e := Z.lor (PA2PTE pa) f in
  0 <= e < 2 ^ 64 /\ PTE2PA e = pa - pa mod 4096 /\ PTE_FLAGS e = f /\ forall m, 0 <= m < 1024 -> Z.land e m = Z.land f m.
Proof.
  intros Hpa Hf e. unfold e. rewrite PA2PTE_lor by done.
  assert (Hd : 0 <= pa / 4096 < 2 ^ 44) by (split; [apply Z.div_pos; lia|apply Z.div_lt_upper_bound; lia]).
  assert (Hm : (pa / 4096 * 1024 + f) mod 2 ^ 10 = f).
  { rewrite Z.add_comm. change (2 ^ 10) with 1024. rewrite Z.mod_add by lia. by apply Z.mod_small. }
  split; [lia|]. split_and!.
  - unfold PTE2PA. rewrite Z.shiftl_mul_pow2, Z.shiftr_div_pow2 by lia. change (2 ^ 10) with 1024. change (2 ^ 12) with 4096.
    rewrite Z.div_add_l, (Z.div_small f) by lia. rewrite u64_small by lia. pose proof (Z.div_mod pa 4096). lia.
  - unfold PTE_FLAGS. change 1023 with (Z.ones 10). by rewrite Z.land_ones by lia.
  - intros m Hmm. rewrite (land_low _ m 10), Hm by (change (2 ^ 10) with 1024; lia). done.
Qed.

Lemma lor_lt_1024 a b : 0 <= a < 1024 -> 0 <= b < 1024 -> 0 <= Z.lor a b < 1024.
Proof.
  intros Ha Hb. assert (0 <= Z.lor a b) by (apply Z.lor_nonneg; lia). split; [done|].
  change 1024 with (2 ^ 10) in *. rewrite <- (Z.mod_small a (2 ^ 10)), <- (Z.mod_small b (2 ^ 10)) by done.
  rewrite <- !Z.land_ones by lia. rewrite <- Z.land_lor_distr_l, Z.land_ones by lia. apply Z.mod_pos_bound. lia.
Qed.

Lemma mkpte_fields pa perm :
  0 <= pa < 2 ^ 56 -> 0 <= perm < 1024 ->
  0 <= mkpte pa perm < 2 ^ 64 /\ PTE2PA (mkpte pa perm) = pa - pa mod 4096 /\ PTE_FLAGS (mkpte pa perm) = Z.lor perm PTE_V /\
  forall m, 0 <= m < 1024 -> Z.land (mkpte pa perm) m = Z.land (Z.lor perm PTE_V) m.
Proof. intros Hpa Hp. unfold mkpte. rewrite <- Z.lor_assoc. apply pte_fields; [done|]. by apply lor_lt_1024. Qed.

Definition valid_pte (e : Z) : bool := negb (Z.land e PTE_V =? 0).

Lemma mkpte_valid pa perm : 0 <= pa < 2 ^ 56 -> 0 <= perm < 1024 -> valid_pte (mkpte pa perm) = true.
Proof.
  intros Hpa Hp. unfold valid_pte. destruct (mkpte_fields pa perm Hpa Hp) as (_ & _ & _ & ->); [|by_eval].
  rewrite Z.land_lor_distr_l. apply negb_true_iff, Z.eqb_neq. intros E.
  apply Z.lor_eq_0_iff in E as [_ E]. done.
Qed.

Lemma pde_fields pa : 0 <= pa < 2 ^ 56 -> pa mod 4096 = 0 -> 0 <= pde pa < 2 ^ 64 /\ PTE2PA (pde pa) = pa /\ valid_pte (pde pa) = true.
Proof.
  intros Hpa Ha. destruct (pte_fields pa PTE_V Hpa ltac:(by_eval)) as (Hr & E & _ & Hl). unfold pde.
  split; [done|]. split; [by rewrite E, Ha, Z.sub_0_r|]. unfold valid_pte. by rewrite Hl by by_eval.
Qed.

(** ** Pages *)

(** The page an address is on. *)
Definition pg (a : Z) : Z := a - a mod 4096.

Lemma pg_bounds a : pg a <= a < pg a + PGSIZE.
Proof. unfold pg, PGSIZE. pose proof (Z.mod_pos_bound a 4096). lia. Qed.

Lemma pg_aligned a : pg a mod PGSIZE = 0.
Proof. unfold pg. rewrite <- PGROUNDDOWN_eq. apply PGROUNDDOWN_aligned. Qed.

Lemma pg_in p a : p mod PGSIZE = 0 -> p <= a < p + PGSIZE -> pg a = p.
Proof.
  unfold pg, PGSIZE. intros Hp Ha. rewrite (Z.mod_eq p 4096) in Hp by lia.
  assert (a / 4096 = p / 4096) as E by (symmetry; apply (Z.div_unique a 4096 (p / 4096) (a - p)); lia).
  rewrite (Z.mod_eq a 4096) by lia. lia.
Qed.

Lemma pg_out p a : p mod PGSIZE = 0 -> pg a <> p -> a < p \/ p + PGSIZE <= a.
Proof.
  intros Hp Hne. destruct (decide (p <= a < p + PGSIZE)) as [Hin|]; [|lia]. by apply pg_in in Hin.
Qed.

(** An entry of a table page lies on that page. *)
Lemma entry_pg p i b : p mod PGSIZE = 0 -> 0 <= i < 512 -> p + 8 * i <= b < p + 8 * i + 8 -> pg b = p.
Proof. intros Hp Hi Hb. apply pg_in; [done|]. unfold PGSIZE. lia. Qed.

Lemma entry_disjoint p q i j :
  p mod PGSIZE = 0 -> q mod PGSIZE = 0 -> 0 <= i < 512 -> 0 <= j < 512 -> (p, i) <> (q, j) ->
  p + 8 * i + 8 <= q + 8 * j \/ q + 8 * j + 8 <= p + 8 * i.
Proof.
  intros Hp Hq Hi Hj Hne. destruct (decide (p = q)) as [->|Hpq].
  - assert (i <> j) by congruence. lia.
  - destruct (page_ok_disjoint p q Hp Hq Hpq); unfold PGSIZE in *; lia.
Qed.

(** ** The tree *)

Section tree.
Context `{KernelImage}.

Record pt_inv (m : mem) (root : Z) (node : list Z -> option Z) : Prop := {
  pi_root : node [] = Some root;
  pi_ok x p : node x = Some p -> page_ok p;
  pi_inj x y p : node x = Some p -> node y = Some p -> x = y;
  pi_depth x p : node x = Some p -> (length x <= 2)%nat;
  pi_child x i q : node (x ++ [i]) = Some q -> is_Some (node x) /\ 0 <= i < 512;
  pi_entry x p i : node x = Some p -> (length x < 2)%nat -> 0 <= i < 512 ->
    load64 m (p + 8 * i) = match node (x ++ [i]) with Some q => pde q | None => 0 end
}.

Definition is_node (node : list Z -> option Z) (p : Z) : Prop := exists x, node x = Some p.

(** The level-0 entry of a virtual address. *)
Definition pte_of (m : mem) (node : list Z -> option Z) (va : Z) : Z :=
  match node [PX 2 va; PX 1 va] with
  | Some p => load64 m (p + 8 * PX 0 va)
  | None => 0
  end.

(** A page table and the free list, which share no page. *)
Definition owns (s : mach) (root : Z) (node : list Z -> option Z) (l : list Z) : Prop :=
  kinv s l /\ pt_inv (ram s) root node /\ forall p, p ∈ l -> ~ is_node node p.

(** The table may have taken free pages for new nodes: no page outside the nodes and the
    free list changes, and no page is lost. *)
Record evolves (s : mach) (node : list Z -> option Z) (l : list Z) (s' : mach) (node' : list Z -> option Z) (l' : list Z) : Prop := {
  ev_ext x p : node x = Some p -> node' x = Some p;
  ev_new p : is_node node' p -> is_node node p \/ (p ∈ l /\ p ∉ l');
  ev_free p : p ∈ l' -> p ∈ l;
  ev_used p : p ∈ l -> p ∈ l' \/ is_node node' p;
  ev_frame a : pg a ∉ l -> ~ is_node node (pg a) -> rd (ram s') a = rd (ram s) a
}.

(** So far no translation has changed. *)
Definition grows s node l s' node' l' : Prop :=
  evolves s node l s' node' l' /\ forall va, pte_of (ram s') node' va = pte_of (ram s) node va.

Lemma evolves_refl s node l : evolves s node l s node l.
Proof. split; auto. Qed.

Lemma evolves_trans s0 n0 l0 s1 n1 l1 s2 n2 l2 :
  evolves s0 n0 l0 s1 n1 l1 -> evolves s1 n1 l1 s2 n2 l2 -> evolves s0 n0 l0 s2 n2 l2.
Proof.
  intros H1 H2. split.
  - intros x p Hx. by apply H2, H1.
  - intros p Hp. apply (ev_new _ _ _ _ _ _ H2) in Hp as [Hp|[Hp Hn]].
    + apply (ev_new _ _ _ _ _ _ H1) in Hp as [Hp|[Hp Hn]]; [by left|]. right. split; [done|]. intros Hin.
      by apply (ev_free _ _ _ _ _ _ H2) in Hin.
    + right. split; [|done]. by apply (ev_free _ _ _ _ _ _ H1).
  - intros p Hp. by apply H1, H2.
  - intros p Hp. apply (ev_used _ _ _ _ _ _ H1) in Hp as [Hp|(x & Hx)]; [by apply (ev_used _ _ _ _ _ _ H2)|].
    right. exists x. by apply H2.
  - intros a Ha Hn. rewrite (ev_frame _ _ _ _ _ _ H2); [by apply H1| |].
    + intros Hin. by apply (ev_free _ _ _ _ _ _ H1) in Hin.
    + intros Hin. apply (ev_new _ _ _ _ _ _ H1) in Hin as [?|[? _]]; done.
Qed.

Lemma grows_refl s node l : grows s node l s node l.
Proof. split; [apply evolves_refl|done]. Qed.

Lemma grows_trans s0 n0 l0 s1 n1 l1 s2 n2 l2 :
  grows s0 n0 l0 s1 n1 l1 -> grows s1 n1 l1 s2 n2 l2 -> grows s0 n0 l0 s2 n2 l2.
Proof. intros [H1 E1] [H2 E2]. split; [by eapply evolves_trans|]. intros va. by rewrite E2. Qed.

Lemma page_ok_aligned p : page_ok p -> p mod PGSIZE = 0.
Proof. by intros []. Qed.

Lemma entry_ext m m' p i :
  p mod PGSIZE = 0 -> 0 <= i < 512 -> (forall a, pg a = p -> rd m' a = rd m a) -> load64 m' (p + 8 * i) = load64 m (p + 8 * i).
Proof. intros Hp Hi He. apply load64_ext. intros b Hb. apply He. by eapply entry_pg. Qed.

(** Memory outside the nodes does not matter. *)
Lemma pt_inv_frame m m' root node :
  pt_inv m root node -> (forall a, is_node node (pg a) -> rd m' a = rd m a) ->
  pt_inv m' root node /\ forall va, pte_of m' node va = pte_of m node va.
Proof.
  intros Hi Hf.
  assert (He : forall x p i, node x = Some p -> 0 <= i < 512 -> load64 m' (p + 8 * i) = load64 m (p + 8 * i)).
  { intros x p i Hx Hr. apply entry_ext; [|done|].
    - by eapply page_ok_aligned, pi_ok.
    - intros a Ha. apply Hf. exists x. by rewrite Ha. }
  split.
  - destruct Hi. split; try done. intros x p i Hx Hd Hr. rewrite (He x) by done. by apply pi_entry0.
  - intros va. unfold pte_of. destruct (node _) eqn:Hx; [|done]. eapply He; [done|]. by apply PX_range.
Qed.

(** A new node at an empty entry of a table. *)
Definition graft (node : list Z -> option Z) (x : list Z) (q : Z) (y : list Z) : option Z :=
  if decide (y = x) then Some q else node y.

Lemma graft_inv m m' root node x p i q :
  pt_inv m root node -> node x = Some p -> (length x < 2)%nat -> 0 <= i < 512 -> node (x ++ [i]) = None ->
  page_ok q -> ~ is_node node q ->
  load64 m' (p + 8 * i) = pde q -> (forall j, 0 <= j < 512 -> load64 m' (q + 8 * j) = 0) ->
  (forall y r j, node y = Some r -> 0 <= j < 512 -> (r, j) <> (p, i) -> load64 m' (r + 8 * j) = load64 m (r + 8 * j)) ->
  pt_inv m' root (graft node (x ++ [i]) q) /\ forall va, pte_of m' (graft node (x ++ [i]) q) va = pte_of m node va.
Proof.
  intros Hi Hx Hd Hr Hnone Hq Hnq Ea Ez Ho. unfold graft.
  assert (Hno : forall j, node ((x ++ [i]) ++ [j]) = None).
  { intros j. destruct (node ((x ++ [i]) ++ [j])) as [r|] eqn:E; [|done]. apply (pi_child _ _ _ Hi) in E as [[? E] _]. congruence. }
  split; [split|].
  - rewrite decide_False by (by destruct x). apply Hi.
  - intros y r. case_decide; [by intros [= <-]|]. apply Hi.
  - intros y z r. do 2 case_decide; subst; [done| | |apply Hi].
    + intros [= <-] Hz. exfalso. apply Hnq. by exists z.
    + intros Hy [= <-]. exfalso. apply Hnq. by exists y.
  - intros y r. case_decide as E; [|apply Hi]. intros _. rewrite E, length_app. cbn. lia.
  - intros y j r. case_decide as E.
    + apply app_inj_2 in E as [-> E]; [|done]. injection E as ->. intros _. split; [|done].
      rewrite decide_False; [by rewrite Hx|]. intros E. apply (f_equal length) in E. rewrite length_app in E. cbn in E. lia.
    + intros Hy. apply (pi_child _ _ _ Hi) in Hy as [Hy Hj]. split; [|done]. case_decide; [done|exact Hy].
  - intros y r j. case_decide as E.
    + intros [= <-] Hl Hj. subst y. rewrite Ez by done. rewrite decide_False, Hno; [done|].
      intros E. apply (f_equal length) in E. rewrite length_app in E. cbn in E. lia.
    + intros Hy Hl Hj. case_decide as E'.
      * apply app_inj_2 in E' as [-> E']; [|done]. injection E' as ->. congruence.
      * rewrite (Ho y) by (try done; intros [= -> ->]; apply E'; f_equal; by eapply (pi_inj _ _ _ Hi)). by apply (pi_entry _ _ _ Hi).
  - intros va. unfold pte_of. case_decide as E.
    + rewrite Ez by (by apply PX_range). rewrite E, Hnone. done.
    + destruct (node [_; _]) as [r|] eqn:Hy; [|done]. eapply Ho; [done|by apply PX_range|].
      intros [= -> _]. pose proof (pi_inj _ _ _ Hi _ _ _ Hy Hx) as <-. cbn in Hd. lia.
Qed.

(** ** walk *)

(** Zero a free page and hang it below entry [a] of a node. *)
Lemma graft_owns s0 s1 root node l l' x p i q :
  owns s0 root node (q :: l') -> l = q :: l' ->
  kinv s1 l' -> only_page q s0 s1 ->
  node x = Some p -> (length x < 2)%nat -> 0 <= i < 512 -> node (x ++ [i]) = None ->
  let s2 := set_ram (fun m => store64 (memset m q 0 PGSIZE) (p + 8 * i) (pde q)) s1 in
  let node' := graft node (x ++ [i]) q in
  owns s2 root node' l' /\ grows s0 node l s2 node' l'.
Proof.
  intros (Hk & Hi & Hdis) -> Hk1 Hop Hx Hd Hr Hnone s2 node'.
  destruct Hk as (_ & [Hql _]%NoDup_cons & [Hq _]%Forall_cons).
  pose proof (Hdis q ltac:(by left)) as Hnq. pose proof (pi_ok _ _ _ Hi _ _ Hx) as Hp.
  pose proof (page_ok_aligned _ Hq) as Aq. pose proof (page_ok_aligned _ Hp) as Ap.
  assert (Hne : q <> p) by (intros ->; apply Hnq; by exists x).
  assert (Hout : forall a, pg a <> q -> a < p + 8 * i \/ p + 8 * i + 8 <= a -> rd (ram s2) a = rd (ram s0) a).
  { intros a Ha Hb. subst s2. cbn. rewrite rd_store64_out by done. apply pg_out in Ha; [|done].
    rewrite rd_memset_out by done. by apply Hop. }
  assert (Hzero : forall j, 0 <= j < 512 -> load64 (ram s2) (q + 8 * j) = 0).
  { intros j Hj. subst s2. cbn. rewrite load64_store64_out.
    - apply load64_memset_0; unfold PGSIZE; lia.
    - destruct (entry_disjoint p q i j Ap Aq Hr Hj); [congruence|lia|lia]. }
  assert (Hat : load64 (ram s2) (p + 8 * i) = pde q).
  { subst s2. cbn. rewrite load64_store64_same. apply u64_small.
    apply pde_fields; [pose proof (page_ok_pos _ Hq); lia|exact Aq]. }
  destruct (graft_inv (ram s0) (ram s2) root node x p i q Hi Hx Hd Hr Hnone Hq Hnq Hat Hzero) as [Hi' Hpte].
  { intros y r j Hy Hj Hrj. apply load64_ext. intros b Hb. pose proof (page_ok_aligned _ (pi_ok _ _ _ Hi _ _ Hy)) as Ar.
    apply Hout.
    - rewrite (entry_pg r j b) by done. intros ->. apply Hnq. by exists y.
    - destruct (entry_disjoint r p j i Ar Ap Hj Hr Hrj); lia. }
  assert (Hnode : forall r, is_node node' r <-> is_node node r \/ r = q).
  { intros r. unfold is_node, node', graft. split.
    - intros (y & Hy). case_decide; [right; congruence|left; by exists y].
    - intros [(y & Hy)| ->]; [|exists (x ++ [i]); by rewrite decide_True]. exists y. rewrite decide_False; [done|]. congruence. }
  assert (Hext : forall y r, node y = Some r -> node' y = Some r).
  { intros y r Hy. unfold node', graft. rewrite decide_False; [done|]. congruence. }
  assert (Hk2 : kinv s2 l').
  { apply (kinv_only_page p (set_ram (fun m => memset m q 0 PGSIZE) s1)); [| |reflexivity|exact Ap|].
    - apply (kinv_only_page q s1); [exact Hk1| |reflexivity|exact Aq|exact Hql]. intros a Ha. cbn. by rewrite rd_memset_out.
    - intros a Ha. subst s2. cbn. rewrite rd_store64_out; [done|]. unfold PGSIZE in *. lia.
    - intros Hin. apply (Hdis p); [by right|by exists x]. }
  clearbody s2. fold node' in Hi', Hpte. clearbody node'.
  split; [split_and!|split; [split|]].
  - exact Hk2.
  - exact Hi'.
  - intros r Hin Hr'. apply Hnode in Hr' as [Hr'| ->]; [|by apply Hql]. apply (Hdis r); [by right|exact Hr'].
  - exact Hext.
  - intros r [?| ->]%Hnode; [by left|]. right. split; [by left|exact Hql].
  - intros r Hin. by right.
  - intros r [->|Hin]%elem_of_cons; [right; apply Hnode; by right|by left].
  - intros a Ha Hn. apply Hout; [intros E; apply Ha; rewrite E; by left|].
    destruct (decide (p + 8 * i <= a < p + 8 * i + 8)) as [Hb|]; [|lia]. apply entry_pg in Hb; [|exact Ap|exact Hr].
    exfalso. apply Hn. exists x. by rewrite Hb.
  - exact Hpte.
Qed.

(** The tables that [walk] visits on its way to the entry of [va]. *)
Definition on_path (va : Z) (y : list Z) : Prop := y = [PX 2 va] \/ y = [PX 2 va; PX 1 va].

(** Every new table is one of [P]. *)
Definition new_nodes (node node' : list Z -> option Z) (P : list Z -> Prop) : Prop :=
  forall y, is_Some (node' y) -> is_Some (node y) \/ P y.

Lemma new_nodes_refl node P : new_nodes node node P.
Proof. intros y Hy. by left. Qed.

Lemma new_nodes_trans n0 n1 n2 (P Q R : list Z -> Prop) : new_nodes n0 n1 P -> new_nodes n1 n2 Q -> (forall y, P y -> R y) -> (forall y, Q y -> R y) -> new_nodes n0 n2 R.
Proof. intros H1 H2 HP HQ y Hy. destruct (H2 y Hy) as [Hy'|Hy']; [|right; auto]. destruct (H1 y Hy'); auto. Qed.

(** One level of [walk], at node [x]. *)
Lemma walk_level_spec root node l c s x p level va alloc :
  owns s root node l -> LK_kmem ∉ held c -> node x = Some p -> level = 2 - Z.of_nat (length x) -> 0 < level ->
  wp (walk_level level p va alloc) c s (fun r c' s' => c' = c /\ exists node' l',
    owns s' root node' l' /\ grows s node l s' node' l' /\ r = node' (x ++ [PX level va]) /\
    (alloc = false \/ r = None -> s' = s /\ node' = node /\ l' = l) /\ (alloc = true -> r = None -> l = []) /\
    new_nodes node node' (eq (x ++ [PX level va]))).
Proof.
  intros Ho Hl Hx -> Hlev. pose proof Ho as (Hk & Hi & Hdis). set (i := PX _ va).
  assert (Hr : 0 <= i < 512) by (apply PX_range; lia).
  assert (He := pi_entry _ _ _ Hi x p i Hx ltac:(lia) Hr).
  unfold walk_level. fold i. apply wp_bind, wp_gets. rewrite He.
  destruct (node (x ++ [i])) as [q|] eqn:Hq.
  - destruct (pde_fields q) as (_ & Eq & Hv);
      [pose proof (page_ok_pos _ (pi_ok _ _ _ Hi _ _ Hq)); lia|apply (page_ok_aligned _ (pi_ok _ _ _ Hi _ _ Hq))|].
    unfold valid_pte in Hv. rewrite Hv. apply wp_ret. split; [done|]. exists node, l.
    rewrite Eq, Hq. split_and!; [done|apply grows_refl|done|done|done|apply new_nodes_refl].
  - change (negb (Z.land 0 PTE_V =? 0)) with false. destruct alloc; cbn [negb].
    2: { apply wp_ret. split; [done|]. exists node, l. rewrite Hq. split_and!; [done|apply grows_refl|done|done|done|apply new_nodes_refl]. }
    apply wp_bind. pose proof (kalloc_spec c s l Hk Hl) as Ha. destruct l as [|q l'].
    { exists 0, c, s. split; [done|]. apply wp_ret. split; [done|]. exists node, []. rewrite Hq.
      split_and!; [done|apply grows_refl|done|done|done|apply new_nodes_refl]. }
    destruct Ha as (s1 & Hrun & Hk1 & Hop & _). exists q, c, s1. split; [exact Hrun|].
    assert (Hqp : page_ok q) by (destruct Hk as (_ & _ & [? _]%Forall_cons); done).
    rewrite (proj2 (Z.eqb_neq q 0)) by (pose proof (page_ok_pos _ Hqp); lia).
    apply wp_bind, wp_modify, wp_bind, wp_modify, wp_ret. split; [done|].
    destruct (graft_owns s s1 root node _ l' x p i q Ho eq_refl Hk1 Hop Hx ltac:(lia) Hr Hq) as [Ho' Hg].
    eexists _, l'. split; [exact Ho'|]. split; [exact Hg|]. unfold graft. rewrite decide_True by done.
    split_and!; [done|intros [?|?]; done|done|]. intros y Hy. unfold graft in Hy. case_decide; [by right|by left].
Qed.

(** The address that [walk] returns for [va]. *)
Definition leaf_addr (node : list Z -> option Z) (va : Z) : Z :=
  match node [PX 2 va; PX 1 va] with Some p => p + 8 * PX 0 va | None => 0 end.

Lemma walk_spec root node l c s va alloc :
  owns s root node l -> LK_kmem ∉ held c -> va < MAXVA ->
  wp (walk root va alloc) c s (fun r c' s' => c' = c /\ exists node' l',
    owns s' root node' l' /\ grows s node l s' node' l' /\ r = leaf_addr node' va /\
    (alloc = false -> s' = s /\ node' = node /\ l' = l) /\ (alloc = true -> r = 0 -> l' = []) /\
    new_nodes node node' (on_path va)).
Proof.
  intros Ho Hl Hva. unfold walk. rewrite (proj2 (Z.leb_gt _ _)) by done.
  assert (Hzero : forall nd q, pt_inv (ram s) root nd \/ True -> q + 8 * PX 0 va = 0 -> ~ page_ok q).
  { intros _ q _ E Hq. pose proof (page_ok_pos _ Hq). pose proof (PX_range 0 va). lia. }
  apply wp_bind. eapply wp_mono; [apply (walk_level_spec root node l c s [] root 2 va alloc Ho Hl); [apply Ho|done|done]|].
  cbn. intros r c' s1 (-> & n1 & l1 & Ho1 & Hg1 & -> & Hsame1 & Hnone1 & Hnew1).
  assert (Hn1 : new_nodes node n1 (on_path va)) by (intros y Hy; destruct (Hnew1 y Hy) as [?| <-]; [by left|by right; left]).
  destruct (n1 [PX 2 va]) as [p1|] eqn:E1.
  2: { apply wp_ret. split; [done|]. exists n1, l1. unfold leaf_addr.
       assert (n1 [PX 2 va; PX 1 va] = None) as ->.
       { destruct (n1 [PX 2 va; PX 1 va]) eqn:E2; [|done]. destruct Ho1 as (_ & Hi1 & _).
         apply (pi_child _ _ _ Hi1 [PX 2 va]) in E2 as [[? ?] _]. congruence. }
       split_and!; [done|done|done|by auto| |done]. intros Ht _. rewrite (Hnone1 Ht eq_refl) in Hsame1.
       destruct (Hsame1 ltac:(by right)) as (_ & _ & ->). done. }
  apply wp_bind. eapply wp_mono; [apply (walk_level_spec root n1 l1 c s1 [PX 2 va] p1 1 va alloc Ho1 Hl E1); done|].
  cbn. intros r c' s2 (-> & n2 & l2 & Ho2 & Hg2 & -> & Hsame2 & Hnone2 & Hnew2).
  assert (Hn2 : new_nodes node n2 (on_path va)) by (apply (new_nodes_trans _ _ _ _ _ _ Hn1 Hnew2); [done|intros y <-; by right]).
  assert (Hfalse : alloc = false -> s2 = s /\ n2 = node /\ l2 = l).
  { intros Hf. destruct (Hsame2 ltac:(by left)) as (-> & -> & ->). by apply Hsame1; left. }
  unfold leaf_addr. destruct (n2 [PX 2 va; PX 1 va]) as [p0|] eqn:E2; apply wp_ret; split; try done; exists n2, l2; rewrite E2.
  - split_and!; [done|by eapply grows_trans|done|done| |done]. intros _ E. exfalso.
    destruct Ho2 as (_ & Hi2 & _). by apply (Hzero n2 p0), (pi_ok _ _ _ Hi2 _ _ E2); [right|].
  - split_and!; [done|by eapply grows_trans|done|done| |done]. intros Ht _.
    rewrite (Hnone2 Ht eq_refl) in Hsame2. destruct (Hsame2 ltac:(by right)) as (_ & _ & ->). done.
Qed.

(** ** Writing an entry *)

Lemma PX_pg level va : 0 <= level -> PX level (pg va) = PX level va.
Proof.
  intros Hl. rewrite !PX_eq by done. f_equal. rewrite Z.pow_add_r, <- !Z.div_div by lia. change (2 ^ 12) with 4096.
  f_equal. unfold pg. pose proof (Z.div_mod va 4096). replace (va - va mod 4096) with (va / 4096 * 4096) by lia.
  apply Z.div_mul. lia.
Qed.

Lemma pte_of_pg m node va : pte_of m node (pg va) = pte_of m node va.
Proof. unfold pte_of. by rewrite !PX_pg by lia. Qed.

Lemma pg_PX va va' :
  0 <= va < MAXVA -> 0 <= va' < MAXVA ->
  PX 2 va = PX 2 va' -> PX 1 va = PX 1 va' -> PX 0 va = PX 0 va' -> pg va = pg va'.
Proof.
  intros H1 H2 E2 E1 E0. unfold pg. pose proof (PX_split va H1). pose proof (PX_split va' H2). lia.
Qed.

Lemma set_leaf s root node l va v p :
  owns s root node l -> node [PX 2 va; PX 1 va] = Some p -> 0 <= va < MAXVA -> 0 <= v < 2 ^ 64 ->
  let s' := set_ram (fun m => store64 m (p + 8 * PX 0 va) v) s in
  owns s' root node l /\ evolves s node l s' node l /\
  forall va', 0 <= va' < MAXVA -> pte_of (ram s') node va' = if decide (pg va' = pg va) then v else pte_of (ram s) node va'.
Proof.
  intros (Hk & Hi & Hdis) Hx Hva Hv s'. set (i := PX 0 va) in *.
  assert (Hr : 0 <= i < 512) by (by apply PX_range).
  pose proof (page_ok_aligned _ (pi_ok _ _ _ Hi _ _ Hx)) as Ap.
  assert (Hout : forall a, a < p + 8 * i \/ p + 8 * i + 8 <= a -> rd (ram s') a = rd (ram s) a).
  { intros a Ha. subst s'. cbn. by apply rd_store64_out. }
  assert (Hentry : forall y r j, node y = Some r -> 0 <= j < 512 -> (r, j) <> (p, i) ->
    load64 (ram s') (r + 8 * j) = load64 (ram s) (r + 8 * j)).
  { intros y r j Hy Hj Hrj. pose proof (page_ok_aligned _ (pi_ok _ _ _ Hi _ _ Hy)) as Ar.
    apply load64_ext. intros b Hb. apply Hout. destruct (entry_disjoint r p j i Ar Ap Hj Hr Hrj); lia. }
  assert (Hsame : load64 (ram s') (p + 8 * i) = v).
  { subst s'. cbn. rewrite load64_store64_same. by apply u64_small. }
  assert (Hk' : kinv s' l).
  { apply (kinv_only_page p s); [exact Hk| |reflexivity|exact Ap|].
    - intros a Ha. apply Hout. unfold PGSIZE in *. lia.
    - intros Hin. apply (Hdis p Hin). by eexists. }
  clearbody s'. split_and!; [split_and!; [done| |done]|split; auto|].
  - destruct Hi. split; try done. intros y r j Hy Hd Hj. rewrite (Hentry y) by (try done; intros [= -> _];
      pose proof (pi_inj0 _ _ _ Hy Hx) as ->; cbn in Hd; lia). by apply pi_entry0.
  - intros a Ha Hn. apply Hout. destruct (decide (p + 8 * i <= a < p + 8 * i + 8)) as [Hb|]; [|lia].
    apply entry_pg in Hb; [|done|done]. exfalso. apply Hn. eexists. by rewrite Hb.
  - intros va' Hva'. case_decide as E.
    + unfold pte_of. rewrite <- (PX_pg 2 va'), <- (PX_pg 1 va'), <- (PX_pg 0 va'), E, !PX_pg, Hx by lia. exact Hsame.
    + unfold pte_of. destruct (node [PX 2 va'; PX 1 va']) as [r|] eqn:Hy; [|done].
      eapply Hentry; [done|by apply PX_range|]. intros [= -> E0]. apply E.
      injection (pi_inj _ _ _ Hi _ _ _ Hy Hx) as E2 E1. by apply pg_PX.
Qed.

(** ** mappages *)

(** A table on the way to one of the [n] pages from [a] on. *)
Definition on_paths (a n : Z) (y : list Z) : Prop := exists va, a <= va < a + n * PGSIZE /\ on_path va y.

(** Pages [a], [a + PGSIZE], ... have been mapped to [pa], [pa + PGSIZE], ..., [n] of them. *)
Definition mapped (s : mach) (node : list Z -> option Z) (s' : mach) (node' : list Z -> option Z) (a n pa perm : Z) : Prop :=
  forall va, 0 <= va < MAXVA -> pte_of (ram s') node' va =
    if decide (a <= va < a + n * PGSIZE) then mkpte (pa + (pg va - a)) perm else pte_of (ram s) node va.

Lemma pg_range a va n : a mod PGSIZE = 0 -> a <= va < a + n * PGSIZE <-> a <= pg va < a + n * PGSIZE.
Proof.
  unfold PGSIZE, pg. intros Ha. pose proof (Z.div_mod va 4096 ltac:(lia)). pose proof (Z.div_mod a 4096 ltac:(lia)).
  pose proof (Z.mod_pos_bound va 4096). split; lia.
Qed.

Lemma mappages_loop_spec root perm c : forall n fuel s node l a pa,
  owns s root node l -> LK_kmem ∉ held c -> (n <= fuel)%nat -> (0 < n)%nat ->
  a mod PGSIZE = 0 -> 0 <= a -> a + Z.of_nat n * PGSIZE <= MAXVA ->
  0 <= pa -> pa + Z.of_nat n * PGSIZE <= 2 ^ 56 -> 0 <= perm < 1024 ->
  (forall va, a <= va < a + Z.of_nat n * PGSIZE -> valid_pte (pte_of (ram s) node va) = false) ->
  wp (mappages_loop fuel root a (a + (Z.of_nat n - 1) * PGSIZE) pa perm) c s (fun r c' s' => c' = c /\ exists node' l' k,
    owns s' root node' l' /\ evolves s node l s' node' l' /\ mapped s node s' node' a k pa perm /\
    (r = 0 /\ k = Z.of_nat n \/ r = -1 /\ 0 <= k < Z.of_nat n /\ l' = []) /\ new_nodes node node' (on_paths a (Z.of_nat n))).
Proof.
  induction n as [|n IH]; intros fuel s node l a pa Ho Hl Hf Hn Ha Ha0 Hmax Hpa0 Hpa Hperm Hfree; [lia|].
  destruct fuel as [|fuel]; [lia|]. cbn [mappages_loop].
  assert (Hva : 0 <= a < MAXVA) by plia.
  apply wp_bind. eapply wp_mono; [apply (walk_spec root node l c s a true Ho Hl); lia|].
  cbn. intros r c' s1 (-> & n1 & l1 & Ho1 & [Hg1 Hp1] & -> & _ & Hfail & Hnew).
  assert (Hnew1 : new_nodes node n1 (on_paths a (Z.of_nat (S n)))) by (intros y Hy; destruct (Hnew y Hy); [by left|right; exists a; split; [plia|done]]).
  destruct (leaf_addr n1 a =? 0) eqn:E0; bool_spec.
  { apply wp_ret. split; [done|]. exists n1, l1, 0. split_and!; [done|done| |right; split_and!; [done|lia|lia|by apply Hfail]|done].
    intros va Hv. rewrite decide_False by lia. apply Hp1. }
  unfold leaf_addr in *. destruct (n1 [PX 2 a; PX 1 a]) as [p|] eqn:Ep; [|done].
  apply wp_bind, wp_gets. fold (valid_pte (load64 (ram s1) (p + 8 * PX 0 a))).
  assert (He : load64 (ram s1) (p + 8 * PX 0 a) = pte_of (ram s) node a).
  { rewrite <- Hp1. unfold pte_of. by rewrite Ep. }
  rewrite He, Hfree by plia. fold (mkpte pa perm). apply wp_bind, wp_modify.
  destruct (set_leaf s1 root n1 l1 a (mkpte pa perm) p Ho1 Ep Hva) as (Ho2 & Hg2 & Hp2).
  { apply mkpte_fields; plia. }
  match goal with |- wp _ _ ?x _ => set (s2 := x) in * end. clearbody s2.
  assert (Hone : mapped s node s2 n1 a 1 pa perm).
  { intros va Hv. rewrite Hp2, Hp1 by done. rewrite (pg_in a a) by plia.
    destruct (decide (pg va = a)) as [E1|E1], (decide (a <= va < a + 1 * PGSIZE)) as [E2|E2]; try done.
    - f_equal. lia.
    - pose proof (pg_bounds va). plia.
    - by apply pg_in in E2; [|done]. }
  assert (Hev : evolves s node l s2 n1 l1) by (by eapply evolves_trans).
  destruct n as [|n].
  { rewrite Z.mul_0_l, Z.add_0_r, Z.eqb_refl. apply wp_ret. split; [done|]. exists n1, l1, 1. split_and!; [done|done|done|by left|done]. }
  rewrite (proj2 (Z.eqb_neq a _)) by plia. rewrite (u64_small (pa + PGSIZE)) by plia.
  replace (a + (Z.of_nat (S (S n)) - 1) * PGSIZE) with (a + PGSIZE + (Z.of_nat (S n) - 1) * PGSIZE) by plia.
  eapply wp_mono; [apply (IH fuel s2 n1 l1); try done; try plia|].
  - unfold PGSIZE in *. rewrite <- Zplus_mod_idemp_r. by rewrite Z.add_0_r.
  - intros va Hv. rewrite Hone, decide_False by plia. apply Hfree. plia.
  - cbn beta. intros r c' s' (-> & n' & l' & k & Ho' & Hev' & Hmap & Hr & Hnew'). split; [done|]. exists n', l', (k + 1).
    split_and!; [done|by eapply evolves_trans| |destruct Hr as [[-> ->]|(-> & Hk & ->)]; [left|right]; split_and!; done || lia|].
    2: { apply (new_nodes_trans _ _ _ _ _ _ Hnew1 Hnew'); [done|]. intros y (va & Hva' & Hy). exists va. split; [plia|done]. }
    intros va Hv. rewrite Hmap, Hone by done. assert (0 <= k) by (destruct Hr as [[_ ->]|(_ & ? & _)]; lia).
    destruct (decide (a + PGSIZE <= va < _)), (decide (a <= va < a + 1 * PGSIZE)), (decide (a <= va < a + (k + 1) * PGSIZE));
      try done; try plia. f_equal. lia.
Qed.

(** [mappages] on a range of pages that are not mapped: it maps all of them, or runs out
    of memory for the table after some. *)
Lemma mappages_spec root perm c s node l va size pa :
  owns s root node l -> LK_kmem ∉ held c ->
  0 <= va -> 0 < size -> va + size <= MAXVA ->
  let a := PGROUNDDOWN va in
  let n := (PGROUNDDOWN (va + size - 1) - a) / PGSIZE + 1 in
  0 <= pa -> pa + n * PGSIZE <= 2 ^ 56 -> 0 <= perm < 1024 ->
  (forall va', a <= va' < a + n * PGSIZE -> valid_pte (pte_of (ram s) node va') = false) ->
  wp (mappages root va size pa perm) c s (fun r c' s' => c' = c /\ exists node' l' k,
    owns s' root node' l' /\ evolves s node l s' node' l' /\ mapped s node s' node' a k pa perm /\
    (r = 0 /\ k = n \/ r = -1 /\ 0 <= k < n /\ l' = []) /\ new_nodes node node' (on_paths a n)).
Proof.
  intros Ho Hl Hva Hsz Hmax a n Hpa Hlim Hperm Hfree. unfold mappages.
  rewrite (proj2 (Z.eqb_neq size 0)) by lia. change MAXVA with (2 ^ 38) in Hmax.
  rewrite (u64_small (va + size - 1)) by lia. fold a.
  assert (Ha : a mod PGSIZE = 0) by apply PGROUNDDOWN_aligned.
  pose proof (PGROUNDDOWN_aligned (va + size - 1)) as Hb. set (b := PGROUNDDOWN (va + size - 1)) in *.
  assert (Hab : va - 4096 < a <= va /\ b <= va + size - 1 < b + 4096).
  { unfold a, b. rewrite !PGROUNDDOWN_eq. pose proof (Z.mod_pos_bound va 4096). pose proof (Z.mod_pos_bound (va + size - 1) 4096). lia. }
  unfold PGSIZE in Ha, Hb. pose proof (Z.div_mod a 4096 ltac:(lia)) as Da. pose proof (Z.div_mod b 4096 ltac:(lia)) as Db.
  assert (Hdiff : (b - a) / PGSIZE = b / 4096 - a / 4096).
  { unfold PGSIZE. replace (b - a) with ((b / 4096 - a / 4096) * 4096) by lia. apply Z.div_mul. lia. }
  assert (Hn : n = b / 4096 - a / 4096 + 1) by (unfold n; lia).
  assert (0 < n) by lia.
  clearbody n. destruct (Z_of_nat_complete n) as [k ->]; [lia|].
  replace b with (a + (Z.of_nat k - 1) * PGSIZE) at 2 by (unfold PGSIZE; lia).
  apply (mappages_loop_spec root perm c k _ s node l a pa Ho Hl); try done.
  all: try (unfold PGSIZE; change MAXVA with (2 ^ 38); lia).
  unfold mappages_fuel. rewrite (proj2 (Z.leb_le a b)) by lia. lia.
Qed.
End tree.
