(* ===== verification/Ring.v ===== *)
(** * Ring buffers

    The elements of a buffer of [N] entries between two free-running counters, of
    which only the value modulo [N] matters. *)

From S2P Require Import Prelude.

(** The [n] elements from counter [a] on. *)
Definition seg (N : Z) (buf : list Z) (a n : Z) : list Z :=
  (fun k => nthZ 0 buf ((a + k) mod N)) <$> upto n.

Section ring.
Context (N : Z) (HN : 0 < N).
Implicit Types (buf : list Z) (a n m : Z).

Lemma length_seg buf a n : length (seg N buf a n) = Z.to_nat n.
Proof. unfold seg. by rewrite length_fmap, length_upto. Qed.

Lemma seg_0 buf a : seg N buf a 0 = [].
Proof. done. Qed.

(** Counters that agree modulo [N]. *)
Lemma seg_congr buf a b n : a mod N = b mod N -> seg N buf a n = seg N buf b n.
Proof.
  intros E. unfold seg. apply list_fmap_ext. intros _ k _.
  by rewrite Z.add_mod, E, <- Z.add_mod by lia.
Qed.

Lemma seg_app buf a n m : 0 <= n -> 0 <= m -> seg N buf a (n + m) = seg N buf a n ++ seg N buf (a + n) m.
Proof.
  intros Hn Hm. pattern m. apply natlike_ind; [| |exact Hm]; clear m Hm.
  - by rewrite Z.add_0_r, app_nil_r.
  - intros m Hm IH. rewrite <- Z.add_1_r, Z.add_assoc. unfold seg in *.
    rewrite (upto_S (n + m)), (upto_S m), !fmap_app, IH, <- app_assoc by lia. cbn. by rewrite Z.add_assoc.
Qed.

Lemma seg_cons buf a n : 0 < n -> seg N buf a n = nthZ 0 buf (a mod N) :: seg N buf (a + 1) (n - 1).
Proof.
  intros Hn. replace n with (1 + (n - 1)) at 1 by lia. rewrite seg_app by lia.
  unfold seg at 1. change (upto 1) with [0]. cbn [fmap list_fmap app]. by rewrite Z.add_0_r.
Qed.

Lemma seg_snoc buf a n : 0 <= n -> seg N buf a (n + 1) = seg N buf a n ++ [nthZ 0 buf ((a + n) mod N)].
Proof.
  intros Hn. rewrite seg_app by lia. f_equal. unfold seg. change (upto 1) with [0].
  cbn [fmap list_fmap]. by rewrite Z.add_0_r.
Qed.

(** Writing outside a segment. *)
Lemma seg_set_ne buf a n b x :
  (forall k, 0 <= k < n -> (a + k) mod N <> b mod N) ->
  seg N (setZ buf (b mod N) x) a n = seg N buf a n.
Proof.
  intros Hb. unfold seg. apply list_fmap_ext. intros i k Hk.
  assert (0 <= k < n) by (apply elem_of_upto; by eapply list_elem_of_lookup_2).
  apply nthZ_setZ_ne; [apply Z.mod_pos_bound; lia|apply Z.mod_pos_bound; lia|].
  intros E. by apply (Hb k).
Qed.

(** Writing behind the end extends the segment, if there is room. *)
Lemma seg_push buf a n x :
  length buf = Z.to_nat N -> 0 <= n < N ->
  seg N (setZ buf ((a + n) mod N) x) a (n + 1) = seg N buf a n ++ [x].
Proof.
  intros Hl Hn. rewrite seg_snoc by lia. f_equal.
  - apply seg_set_ne. intros k Hk E.
    assert (Hd : (a + n - (a + k)) mod N = 0) by (rewrite Zminus_mod, E, Z.sub_diag; by apply Z.mod_0_l; lia).
    replace (a + n - (a + k)) with (n - k) in Hd by lia. rewrite Z.mod_small in Hd; lia.
  - rewrite nthZ_setZ_eq; [done|]. rewrite Hl. pose proof (Z.mod_pos_bound (a + n) N HN). lia.
Qed.
End ring.
