(* ===== verification/Uart.v ===== *)
(** * The UART driver (kernel/uart.c)

    The transmit buffer is a ring of 32 characters between two 64-bit counters.  The
    device is modelled by its registers as the driver uses them: the characters
    waiting to be read from RHR, how many THR takes before LSR shows it full, the
    characters it has taken from THR, and the writes to the control registers.  A
    character written to THR when LSR shows it full is lost. *)

From S2P Require Import Prelude KMonad Ring.

Definition UART_TX_BUF_SIZE := 32.

(** Control registers and their bits. *)
Definition IER := 1.
Definition FCR := 2.
Definition LCR := 3.
Definition IER_RX_ENABLE := 1.
Definition IER_TX_ENABLE := 2.
Definition FCR_FIFO_ENABLE := 1.
Definition FCR_FIFO_CLEAR := 6.
Definition LCR_EIGHT_BITS := 3.
Definition LCR_BAUD_LATCH := 128.

Record uart := Uart {
  uart_tx_buf : list Z;
  uart_tx_w : Z;
  uart_tx_r : Z;
  ut_panicked : bool; (* panicked, of printf.c *)
  hw_rx : list Z;
  hw_room : nat;
  hw_out : list Z;
  hw_ctl : list (Z * Z)
}.

Definition tx_idle (u : uart) : bool := negb (Nat.eqb (hw_room u) 0).

(** [WriteReg(THR, c)]: without room the character does not reach the device. *)
Definition write_thr (c : Z) (u : uart) : uart :=
  if tx_idle u then
    Uart (uart_tx_buf u) (uart_tx_w u) (uart_tx_r u) (ut_panicked u) (hw_rx u)
      (pred (hw_room u)) (hw_out u ++ [u8 c]) (hw_ctl u)
  else u.
(** [WriteReg(reg, v)] of a control register *)
Definition write_ctl (reg v : Z) (u : uart) : uart :=
  Uart (uart_tx_buf u) (uart_tx_w u) (uart_tx_r u) (ut_panicked u) (hw_rx u)
    (hw_room u) (hw_out u) (hw_ctl u ++ [(reg, v)]).

Definition uartinit : M uart unit :=
  (* disable interrupts. *)
  modify (write_ctl IER 0) ;;
  (* special mode to set baud rate. *)
  modify (write_ctl LCR LCR_BAUD_LATCH) ;;
  modify (write_ctl 0 3) ;;
  modify (write_ctl 1 0) ;;
  (* leave set-baud mode, and set word length to 8 bits, no parity. *)
  modify (write_ctl LCR LCR_EIGHT_BITS) ;;
  (* reset and enable FIFOs. *)
  modify (write_ctl FCR (Z.lor FCR_FIFO_ENABLE FCR_FIFO_CLEAR)) ;;
  (* enable transmit and receive interrupts. *)
  modify (write_ctl IER (Z.lor IER_TX_ENABLE IER_RX_ENABLE)).

Definition tx_push (c : Z) (u : uart) : uart :=
  Uart (setZ (uart_tx_buf u) (uart_tx_w u mod UART_TX_BUF_SIZE) (u8 c)) (u64 (uart_tx_w u + 1))
    (uart_tx_r u) (ut_panicked u) (hw_rx u) (hw_room u) (hw_out u) (hw_ctl u).
Definition tx_pop (u : uart) : uart :=
  Uart (uart_tx_buf u) (uart_tx_w u) (u64 (uart_tx_r u + 1)) (ut_panicked u) (hw_rx u)
    (hw_room u) (hw_out u) (hw_ctl u).

(** if the UART is idle, and a character is waiting in the transmit buffer, send it.
    The buffer holds at most [UART_TX_BUF_SIZE] characters. *)
Fixpoint uartstart_loop (fuel : nat) : M uart unit :=
  u <- gets id ;;
  if uart_tx_w u =? uart_tx_r u then ret tt (* transmit buffer is empty. *)
  else if negb (tx_idle u) then ret tt (* it will interrupt when it's ready for a new byte. *)
  else
    match fuel with
    | O => panic "uartstart: out of fuel"
    | S f =>
        let c := nthZ 0 (uart_tx_buf u) (uart_tx_r u mod UART_TX_BUF_SIZE) in
        modify tx_pop ;;
        (* maybe uartputc() is waiting for space in the buffer. *)
        wakeup CH_uart_tx_r ;;
        modify (write_thr c) ;;
        uartstart_loop f
    end.
Definition uartstart : M uart unit := uartstart_loop (Z.to_nat UART_TX_BUF_SIZE).

(** add a character to the output buffer and tell the UART to start sending; [false]
    when the buffer is full and the caller has gone to sleep on [uart_tx_r]. *)
Definition uartputc (c : Z) : M uart bool :=
  acquire LK_uart ;;
  u <- gets id ;;
  if ut_panicked u then panic "uartputc: for(;;)"
  else if uart_tx_w u =? u64 (uart_tx_r u + UART_TX_BUF_SIZE) then
    release LK_uart ;; (* sleep(&uart_tx_r, &uart_tx_lock), then test again *)
    ret false
  else
    modify (tx_push c) ;;
    uartstart ;;
    release LK_uart ;;
    ret true.

(** The device has drained its holding register; [uartputc_sync] spins for this. *)
Definition drain (u : uart) : uart :=
  if tx_idle u then u
  else Uart (uart_tx_buf u) (uart_tx_w u) (uart_tx_r u) (ut_panicked u) (hw_rx u) 1 (hw_out u) (hw_ctl u).

Definition uartputc_sync (c : Z) : M uart unit :=
  p <- gets ut_panicked ;;
  if (p : bool) then panic "uartputc_sync: for(;;)"
  else
    (* wait for Transmit Holding Empty to be set in LSR. *)
    modify drain ;;
    modify (write_thr c).

(** read one input character from the UART; -1 if none is waiting. *)
Definition uartgetc : M uart Z :=
  rx <- gets hw_rx ;;
  match rx with
  | c :: rx' =>
      modify (fun u => Uart (uart_tx_buf u) (uart_tx_w u) (uart_tx_r u) (ut_panicked u) rx'
        (hw_room u) (hw_out u) (hw_ctl u)) ;;
      ret (u8 c)
  | [] => ret (-1)
  end.

(** ** The transmit buffer is a queue *)

Definition tx_count (u : uart) : Z := u64 (uart_tx_w u - uart_tx_r u).
(** The characters not yet given to the device. *)
Definition pending (u : uart) : list Z := seg UART_TX_BUF_SIZE (uart_tx_buf u) (uart_tx_r u) (tx_count u).

Record uinv (u : uart) : Prop := {
  ui_len : length (uart_tx_buf u) = Z.to_nat UART_TX_BUF_SIZE;
  ui_bytes : Forall (fun b => 0 <= b < 256) (uart_tx_buf u);
  ui_w : 0 <= uart_tx_w u < 2 ^ 64;
  ui_r : 0 <= uart_tx_r u < 2 ^ 64;
  ui_count : tx_count u <= UART_TX_BUF_SIZE
}.

(** Arithmetic of the counters: the size of the buffer divides 2^64. *)
Ltac uart_lia :=
  unfold tx_count in *; cbn [uart_tx_w uart_tx_r uart_tx_buf tx_push tx_pop write_thr] in *;
  unfold u64, UART_TX_BUF_SIZE in *;
  change (2 ^ 64) with 18446744073709551616 in *;
  Z.div_mod_to_equations; lia.

Lemma tx_count_range u : 0 <= tx_count u.
Proof. unfold tx_count. apply u64_range. Qed.

Lemma tx_full u : uinv u -> (uart_tx_w u =? u64 (uart_tx_r u + UART_TX_BUF_SIZE)) = true <-> tx_count u = UART_TX_BUF_SIZE.
Proof. intros [_ _ ? ? ?]. rewrite Z.eqb_eq. uart_lia. Qed.

Lemma tx_empty u : uinv u -> (uart_tx_w u =? uart_tx_r u) = true <-> tx_count u = 0.
Proof. intros [_ _ ? ? ?]. rewrite Z.eqb_eq. uart_lia. Qed.

Lemma tx_push_spec u c :
  uinv u -> tx_count u <> UART_TX_BUF_SIZE ->
  uinv (tx_push c u) /\ pending (tx_push c u) = pending u ++ [u8 c].
Proof.
  intros [Hl Hb Hw Hr Hc] Hn. pose proof (tx_count_range u).
  assert (Ec : tx_count (tx_push c u) = tx_count u + 1) by uart_lia.
  split.
  - split; cbn; [by rewrite length_setZ| |apply u64_range|done|lia].
    apply Forall_insert; [done|apply u8_range].
  - unfold pending. rewrite Ec. cbn [uart_tx_buf uart_tx_r tx_push].
    replace (uart_tx_w u mod UART_TX_BUF_SIZE) with ((uart_tx_r u + tx_count u) mod UART_TX_BUF_SIZE) by uart_lia.
    apply seg_push; [done|done|lia].
Qed.

Lemma tx_pop_spec u :
  uinv u -> tx_count u <> 0 ->
  uinv (tx_pop u) /\ pending u = nthZ 0 (uart_tx_buf u) (uart_tx_r u mod UART_TX_BUF_SIZE) :: pending (tx_pop u).
Proof.
  intros [Hl Hb Hw Hr Hc] Hn. pose proof (tx_count_range u).
  assert (Ec : tx_count (tx_pop u) = tx_count u - 1) by uart_lia.
  split.
  - split; cbn; [done|done|done|apply u64_range|lia].
  - unfold pending. rewrite Ec. cbn [uart_tx_buf uart_tx_r tx_pop].
    rewrite (seg_congr UART_TX_BUF_SIZE ltac:(done) _ (u64 _) (uart_tx_r u + 1)) by uart_lia. apply seg_cons; lia.
Qed.

Lemma write_thr_idle c u : tx_idle u = true ->
  write_thr c u = Uart (uart_tx_buf u) (uart_tx_w u) (uart_tx_r u) (ut_panicked u) (hw_rx u) (pred (hw_room u)) (hw_out u ++ [u8 c]) (hw_ctl u).
Proof. intros E. unfold write_thr. by rewrite E. Qed.

Lemma tx_idle_drain u : tx_idle (drain u) = true.
Proof. unfold drain. by destruct (tx_idle u) eqn:E. Qed.

(** What the transmit path of the driver leaves alone. *)
Definition same_dev (u u' : uart) : Prop :=
  ut_panicked u' = ut_panicked u /\ hw_rx u' = hw_rx u /\ hw_ctl u' = hw_ctl u.

(** [uartstart] gives the device a prefix of the pending characters, and stops only
    when none is left or the device is full. *)
Definition started (u u' : uart) (woke : Prop) : Prop :=
  uinv u' /\ same_dev u u' /\ exists l, pending u = l ++ pending u' /\ hw_out u' = hw_out u ++ l /\
    (length l + hw_room u' = hw_room u)%nat /\ (pending u' = [] \/ hw_room u' = 0%nat) /\ (l <> [] -> woke).

Lemma uartstart_loop_spec fuel c u :
  uinv u -> tx_count u <= Z.of_nat fuel ->
  wp (uartstart_loop fuel) c u (fun _ c' u' =>
    ceq c c' /\ wakes c `suffix_of` wakes c' /\ started u u' (CH_uart_tx_r ∈ wakes c')).
Proof.
  revert c u. induction fuel as [|f IH]; intros c u Hu Hf; cbn [uartstart_loop];
    apply wp_bind, wp_gets; unfold id; pose proof (tx_empty u Hu) as He; pose proof (tx_count_range u);
    (destruct (uart_tx_w u =? uart_tx_r u) eqn:E;
      [apply wp_ret; split_and!; [reflexivity|done|]; split_and!; [done|done|];
       exists []; cbn; rewrite app_nil_r; split_and!; try done; left; unfold pending;
       by rewrite (proj1 He eq_refl)|]).
  { exfalso. assert (tx_count u = 0) as [=]%He by lia. }
  destruct (tx_idle u) eqn:Ei; cbn [negb].
  2: { apply wp_ret. split_and!; [reflexivity|done|]. split_and!; [done|done|].
       exists []. cbn. rewrite app_nil_r. split_and!; try done. right.
       unfold tx_idle in Ei. by apply negb_false_iff, Nat.eqb_eq in Ei. }
  assert (Hne : tx_count u <> 0) by (intros [=]%He).
  destruct (tx_pop_spec u Hu Hne) as [Hu1 Hp1].
  apply wp_bind, wp_modify, wp_bind, wp_wakeup, wp_bind, wp_modify.
  rewrite write_thr_idle by exact Ei. set (c1 := Ctx _ _ _). set (x := nthZ 0 _ _) in *. set (u1 := Uart _ _ _ _ _ _ _ _).
  assert (Hx : u8 x = x).
  { apply u8_small. apply (proj1 (Forall_forall _ _) (ui_bytes _ Hu)). apply nthZ_elem.
    rewrite (ui_len _ Hu). pose proof (Z.mod_pos_bound (uart_tx_r u) UART_TX_BUF_SIZE). unfold UART_TX_BUF_SIZE in *. lia. }
  eapply wp_mono; [apply (IH c1 u1)|].
  - destruct Hu1. by split.
  - clear He. subst u1. destruct Hu as [_ _ ? ? ?]. uart_lia.
  - cbn. intros _ c' u' (Hc & Hsuf & Hu' & (Hd1 & Hd2 & Hd3) & l & Hl & Ho & Hroom & Hstop & Hw).
    assert (Hin : CH_uart_tx_r ∈ wakes c') by (destruct Hsuf as [l' ->]; set_solver).
    split_and!; [by etransitivity; [|exact Hc]|etransitivity; [|exact Hsuf]; by apply suffix_cons_r|].
    split_and!; [done|done|]. exists (x :: l). split_and!; try done.
    + rewrite Hp1. cbn. by rewrite <- Hl.
    + rewrite Ho. cbn. by rewrite Hx, <- app_assoc.
    + cbn in *. unfold tx_idle in Ei. destruct (hw_room u); [done|cbn in Hroom; lia].
Qed.

Lemma uartstart_spec c u :
  uinv u ->
  wp uartstart c u (fun _ c' u' =>
    ceq c c' /\ wakes c `suffix_of` wakes c' /\ started u u' (CH_uart_tx_r ∈ wakes c')).
Proof. intros Hu. apply uartstart_loop_spec; [done|]. apply Hu. Qed.

Lemma uartputc_spec ch c u :
  uinv u -> ut_panicked u = false -> LK_uart ∉ held c ->
  wp (uartputc ch) c u (fun b c' u' => held c' = held c /\ mypid c' = mypid c /\
    if b then exists u1, pending u1 = pending u ++ [u8 ch] /\ hw_out u1 = hw_out u /\ same_dev u u1 /\
                hw_room u1 = hw_room u /\ started u1 u' (CH_uart_tx_r ∈ wakes c')
    else u' = u /\ tx_count u = UART_TX_BUF_SIZE).
Proof.
  intros Hu Hp Hl. unfold uartputc. apply wp_bind, wp_acquire; [done|]. apply wp_bind, wp_gets.
  unfold id. rewrite Hp. pose proof (tx_full u Hu) as Hfull. destruct (_ =? _) eqn:E.
  - apply wp_bind, (wp_release _ _ c); [done|done|]. apply wp_ret. split_and!; [done|done|done|by apply Hfull].
  - assert (Hn : tx_count u <> UART_TX_BUF_SIZE) by (intros [=]%Hfull).
    destruct (tx_push_spec u ch Hu Hn) as [Hu1 Hp1].
    apply wp_bind, wp_modify, wp_bind. eapply wp_mono; [by apply uartstart_spec|].
    cbn. intros _ c1 u1 ([Hh Hm] & _ & Hst). apply wp_bind, (wp_release _ _ c); [done|done|].
    apply wp_ret. cbn. split_and!; [done|done|]. exists (tx_push ch u). by split_and!.
Qed.

(** ** The order of output

    Events: a character offered by [uartputc], the transmit interrupt, a character
    sent by [uartputc_sync], and the device making room. *)
Inductive uevent := EPut (c : Z) | EStart | ESync (c : Z) | ERoom (n : nat).

Definition uctx : ctx := Ctx [] [] 0.

(** The driver's state after the events, with the characters [uartputc] accepted and
    those [uartputc_sync] sent. *)
Fixpoint run_uart (es : list uevent) (u : uart) : option (uart * list Z * list Z) :=
  match es with
  | [] => Some (u, [], [])
  | e :: es' =>
      match e with
      | EPut c =>
          match uartputc c uctx u with
          | Ok b _ u' =>
              '(u2, acc, syn) ← run_uart es' u'; Some (u2, (if b then u8 c :: acc else acc), syn)
          | _ => None
          end
      | EStart =>
          match uartstart uctx u with
          | Ok _ _ u' => run_uart es' u'
          | _ => None
          end
      | ESync c =>
          match uartputc_sync c uctx u with
          | Ok _ _ u' => '(u2, acc, syn) ← run_uart es' u'; Some (u2, acc, u8 c :: syn)
          | _ => None
          end
      | ERoom n =>
          run_uart es' (Uart (uart_tx_buf u) (uart_tx_w u) (uart_tx_r u) (ut_panicked u) (hw_rx u)
            n (hw_out u) (hw_ctl u))
      end
  end.

(** [l] is an interleaving of [l1] and [l2]. *)
Inductive merge : list Z -> list Z -> list Z -> Prop :=
| merge_nil : merge [] [] []
| merge_l x l1 l2 l : merge l1 l2 l -> merge (x :: l1) l2 (x :: l)
| merge_r x l1 l2 l : merge l1 l2 l -> merge l1 (x :: l2) (x :: l).

Lemma merge_app_l k l1 l2 l : merge l1 l2 l -> merge (k ++ l1) l2 (k ++ l).
Proof. intros Hm. induction k; cbn; [done|by apply merge_l]. Qed.

Lemma uart_run_spec es u :
  uinv u -> ut_panicked u = false ->
  exists u' acc syn sent out, run_uart es u = Some (u', acc, syn) /\
    pending u ++ acc = sent ++ pending u' /\ hw_out u' = hw_out u ++ out /\ merge sent syn out /\
    (length (pending u') <= 32)%nat.
Proof.
  revert u. induction es as [|e es IH]; intros u Hu Hp; cbn [run_uart].
  { exists u, [], [], [], []. rewrite !app_nil_r. split_and!; try done; [constructor|].
    unfold pending. rewrite length_seg. pose proof (ui_count u Hu). unfold UART_TX_BUF_SIZE in *. lia. }
  destruct e as [ch| |ch|n].
  - destruct (uartputc_spec ch uctx u Hu Hp) as (b & c' & u1 & E & _ & _ & Hb); [apply not_elem_of_nil|].
    rewrite E. destruct b.
    + destruct Hb as (u0 & Hp0 & Ho0 & (Hpa & _) & _ & Hu1 & (Hpb & _) & l & Hl & Ho & _).
      destruct (IH u1 Hu1) as (u' & acc & syn & sent & out & Er & Hacc & Hout & Hm & Hlen); [congruence|].
      rewrite Er. cbn. eexists u', _, _, (l ++ sent), (l ++ out). split_and!; [done| | |by apply merge_app_l|done].
      * rewrite <- app_assoc, <- Hacc, app_assoc, <- Hl, Hp0, <- app_assoc. done.
      * by rewrite Hout, Ho, Ho0, app_assoc.
    + destruct Hb as [-> _]. destruct (IH u Hu Hp) as (u' & acc & syn & sent & out & Er & H').
      rewrite Er. cbn. by exists u', acc, syn, sent, out.
  - destruct (uartstart_spec uctx u Hu) as (b & c' & u1 & E & _ & _ & Hu1 & (Hpb & _) & l & Hl & Ho & _).
    rewrite E. destruct (IH u1 Hu1) as (u' & acc & syn & sent & out & Er & Hacc & Hout & Hm & Hlen); [congruence|].
    exists u', acc, syn, (l ++ sent), (l ++ out). split_and!; [done| | |by apply merge_app_l|done].
    + by rewrite Hl, <- !app_assoc, Hacc.
    + by rewrite Hout, Ho, app_assoc.
  - unfold uartputc_sync, bind, gets, modify. rewrite Hp. cbn -[run_uart].
    set (u1 := write_thr ch (drain u)).
    assert (Hu1 : uinv u1 /\ pending u1 = pending u /\ ut_panicked u1 = ut_panicked u /\ hw_out u1 = hw_out u ++ [u8 ch]).
    { unfold u1. rewrite write_thr_idle by apply tx_idle_drain. destruct Hu. unfold drain. destruct (tx_idle u); by split. }
    destruct Hu1 as (Hu1 & Ep & Epan & Eo).
    destruct (IH u1 Hu1) as (u' & acc & syn & sent & out & Er & Hacc & Hout & Hm & Hlen); [congruence|].
    rewrite Er. cbn. eexists u', acc, _, sent, (u8 ch :: out). split_and!; [done|by rewrite <- Ep| |by constructor|done].
    by rewrite Hout, Eo, <- app_assoc.
  - set (u1 := Uart _ _ _ _ _ _ _ _). destruct (IH u1) as (u' & acc & syn & sent & out & H'); [by destruct Hu|done|].
    by exists u', acc, syn, sent, out.
Qed.


Definition uart0 : uart := Uart (replicate 32 0) 18446744073709551600 18446744073709551600 false [] 1 [] [].

