(* ===== verification/UserMem.v ===== *)
(** * What the kernel needs of the running process's memory

    fs.c, pipe.c and file.c move bytes between kernel buffers and the memory of the
    running process, allocate pages, and ask whether the process has been killed.
    [UserMem] is that interface, [UserMemLaws] what its users rely on; kernel/vm.c
    implements it (file UserVm). *)

From S2P Require Import Prelude KMonad.

Class UserMem (U : Type) := {
  (** [copyout(myproc()->pagetable, dstva, src, len)] *)
  um_copyout : Z -> list Z -> M U Z;
  (** [copyin(myproc()->pagetable, dst, srcva, len)]: return value and bytes copied *)
  um_copyin : Z -> Z -> M U (Z * list Z);
  (** [copyinstr(myproc()->pagetable, dst, srcva, max)], likewise *)
  um_copyinstr : Z -> Z -> M U (Z * list Z);
  (** [killed(myproc())] *)
  um_killed : M U bool;
  um_kalloc : M U Z;
  um_kfree : Z -> M U unit
}.

(** [um_byte u a]: the byte user memory holds at virtual address [a], if mapped. *)
Class UserMemLaws (U : Type) `{UserMem U} := {
  um_inv : U -> Prop;
  um_byte : U -> Z -> option Z;
  um_is_killed : U -> bool;
  (** the running thread holds no lock the operations take *)
  um_free : ctx -> Prop;
  um_free_ceq c c' : held c = held c' -> um_free c -> um_free c';
  um_byte_range u a b : um_byte u a = Some b -> 0 <= b < 256;
  um_killed_ok c u : um_free c -> um_killed c u = Ok (um_is_killed u) c u;
  um_copyin_ok c u a : um_inv u -> 0 <= a ->
    um_copyin a 1 c u =
      Ok (match um_byte u a with Some b => (0, [b]) | None => (-1, []) end) c u;
  (** a copy from memory that is mapped succeeds *)
  um_copyin_all c u a n : um_inv u -> 0 <= a -> 0 <= n ->
    (forall i, 0 <= i < n -> is_Some (um_byte u (a + i))) ->
    exists d, um_copyin a n c u = Ok (0, d) c u /\ length d = Z.to_nat n /\
      forall i, 0 <= i < n -> um_byte u (a + i) = Some (nthZ 0 d i);
  (** a byte copied to a mapped address appears there and nowhere else *)
  um_copyout_ok c u a b : um_inv u -> 0 <= a -> 0 <= b < 256 ->
    match um_byte u a with
    | Some _ => exists u', um_copyout a [b] c u = Ok 0 c u' /\ um_inv u' /\
        um_is_killed u' = um_is_killed u /\
        forall a', um_byte u' a' = if decide (a' = a) then Some b else um_byte u a'
    | None => um_copyout a [b] c u = Ok (-1) c u
    end
}.
