(* ===== verification/Pipe.v ===== *)
(** * Pipes (kernel/pipe.c)

    A pipe is a ring of [PIPESIZE] bytes with two free-running 32-bit counters.
    [pipeclose], [pipewrite] and [piperead] run from taking the pipe's lock to
    giving it up; where the code sleeps, the outcome says on which channel and at
    which byte count the call goes on once it is woken ([Asleep]).  [queue] is the
    abstract contents of the ring; the theorems show that writes append to it and
    reads take from its front, whatever the counters' wrap-around. *)

From S2P Require Import Prelude KMonad UserMem.

Definition PIPESIZE := 512.

Record pipe := Pipe {
  p_data : list Z;
  p_nread : Z;
  p_nwrite : Z;
  p_readopen : bool;
  p_writeopen : bool
}.

Inductive outcome := Done (r : Z) | Asleep (ch : chan) (i : Z).

(** [pi->data[pi->nwrite++ % PIPESIZE] = ch;] *)
Definition push (ch : Z) (p : pipe) : pipe :=
  Pipe (setZ (p_data p) (p_nwrite p mod PIPESIZE) ch) (p_nread p) (u32 (p_nwrite p + 1))
    (p_readopen p) (p_writeopen p).

(** [pi->data[pi->nread % PIPESIZE]], and [pi->nread++]. *)
Definition front (p : pipe) : Z := nthZ 0 (p_data p) (p_nread p mod PIPESIZE).
Definition pop (p : pipe) : pipe :=
  Pipe (p_data p) (u32 (p_nread p + 1)) (p_nwrite p) (p_readopen p) (p_writeopen p).

Definition close_write (p : pipe) : pipe :=
  Pipe (p_data p) (p_nread p) (p_nwrite p) (p_readopen p) false.
Definition close_read (p : pipe) : pipe :=
  Pipe (p_data p) (p_nread p) (p_nwrite p) false (p_writeopen p).

Definition full (p : pipe) : bool := p_nwrite p =? u32 (p_nread p + PIPESIZE).
Definition empty (p : pipe) : bool := p_nread p =? p_nwrite p.

(** The pipes, by the address of their page, and the process's memory. *)
Record pst (U : Type) := Pst { ps_pipes : gmap Z pipe; ps_usr : U }.
Arguments Pst {U}.
Arguments ps_pipes {U}.
Arguments ps_usr {U}.

Definition pipe0 : pipe := Pipe (replicate (Z.to_nat PIPESIZE) 0) 0 0 false false.

Section ops.
Context {U : Type} `{UserMem U}.

Definition set_pusr (u : U) (s : pst U) : pst U := Pst (ps_pipes s) u.
Definition pusr {A} (m : M U A) : M (pst U) A := zoom ps_usr set_pusr m.
Definition pget {A} (pi : Z) (f : pipe -> A) : M (pst U) A :=
  gets (fun s => f (default pipe0 (ps_pipes s !! pi))).
Definition pset (pi : Z) (f : pipe -> pipe) : M (pst U) unit :=
  modify (fun s => Pst (<[pi := f (default pipe0 (ps_pipes s !! pi))]> (ps_pipes s)) (ps_usr s)).

(** The part of [pipealloc] that makes the pipe: [kalloc] and the initial values;
    0 when there is no page. *)
Definition pipe_create : M (pst U) Z :=
  pi <- pusr um_kalloc ;;
  if pi =? 0 then ret 0
  else
    pset pi (fun p => Pipe (p_data p) 0 0 true true) ;;
    ret pi.

Definition pipeclose (pi : Z) (writable : bool) : M (pst U) unit :=
  acquire (LK_pipe pi) ;;
  (if writable then
     pset pi close_write ;;
     wakeup (CH_pipe_nread pi)
   else
     pset pi close_read ;;
     wakeup (CH_pipe_nwrite pi)) ;;
  p <- pget pi id ;;
  if negb (p_readopen p) && negb (p_writeopen p) then
    release (LK_pipe pi) ;;
    pusr (um_kfree pi)
  else release (LK_pipe pi).

(** [while(i < n)], from byte [i] on, with the lock held.  [n - i] iterations at
    most: each one ends the call or copies a byte. *)
Fixpoint pipewrite_loop (fuel : nat) (pi addr n i : Z) : M (pst U) outcome :=
  if n <=? i then
    wakeup (CH_pipe_nread pi) ;;
    release (LK_pipe pi) ;;
    ret (Done i)
  else
    match fuel with
    | O => panic "pipewrite: out of fuel"
    | S f =>
        readopen <- pget pi p_readopen ;;
        stop <- (if negb readopen then ret true else pusr um_killed) ;;
        if (stop : bool) then
          release (LK_pipe pi) ;;
          ret (Done (-1))
        else
          isfull <- pget pi full ;;
          if (isfull : bool) then
            wakeup (CH_pipe_nread pi) ;;
            release (LK_pipe pi) ;; (* sleep(&pi->nwrite, &pi->lock) *)
            ret (Asleep (CH_pipe_nwrite pi) i)
          else
            r <- pusr (um_copyin (addr + i) 1) ;;
            if fst r =? -1 then
              wakeup (CH_pipe_nread pi) ;;
              release (LK_pipe pi) ;;
              ret (Done i)
            else
              pset pi (push (nthZ 0 (snd r) 0)) ;;
              pipewrite_loop f pi addr n (i + 1)
    end.

(** [pipewrite] from byte [i]: 0 at the call, later after each sleep. *)
Definition pipewrite_from (pi addr n i : Z) : M (pst U) outcome :=
  acquire (LK_pipe pi) ;;
  pipewrite_loop (Z.to_nat (n - i)) pi addr n i.

Definition pipewrite (pi addr n : Z) : M (pst U) outcome := pipewrite_from pi addr n 0.

(** [for(i = 0; i < n; i++)]; the result is [i]. *)
Fixpoint piperead_loop (fuel : nat) (pi addr n i : Z) : M (pst U) Z :=
  if n <=? i then ret i
  else
    match fuel with
    | O => panic "piperead: out of fuel"
    | S f =>
        isempty <- pget pi empty ;;
        if (isempty : bool) then ret i
        else
          ch <- pget pi front ;;
          pset pi pop ;;
          r <- pusr (um_copyout (addr + i) [ch]) ;;
          if r =? -1 then ret i
          else piperead_loop f pi addr n (i + 1)
    end.

Definition piperead (pi addr n : Z) : M (pst U) outcome :=
  acquire (LK_pipe pi) ;;
  p <- pget pi id ;;
  if empty p && p_writeopen p then
    killed <- pusr um_killed ;;
    if (killed : bool) then
      release (LK_pipe pi) ;;
      ret (Done (-1))
    else
      release (LK_pipe pi) ;; (* sleep(&pi->nread, &pi->lock), then test again *)
      ret (Asleep (CH_pipe_nread pi) 0)
  else
    i <- piperead_loop (Z.to_nat n) pi addr n 0 ;;
    wakeup (CH_pipe_nwrite pi) ;;
    release (LK_pipe pi) ;;
    ret (Done i).
End ops.

(** ** The contents of the ring *)

Definition count (p : pipe) : Z := u32 (p_nwrite p - p_nread p).

(** The byte at position [k] counted from the front. *)
Definition qat (p : pipe) (k : Z) : Z := nthZ 0 (p_data p) ((p_nread p + k) mod PIPESIZE).

Definition queue (p : pipe) : list Z := qat p <$> upto (count p).

Record pinv (p : pipe) : Prop := {
  pi_len : length (p_data p) = Z.to_nat PIPESIZE;
  pi_bytes : Forall (fun b => 0 <= b < 256) (p_data p);
  pi_nread : 0 <= p_nread p < 2 ^ 32;
  pi_nwrite : 0 <= p_nwrite p < 2 ^ 32;
  pi_count : count p <= PIPESIZE
}.

(** Arithmetic of the counters: [PIPESIZE] divides 2^32. *)
Ltac ring_lia :=
  unfold count, full, empty in *; cbn [p_nread p_nwrite p_data push pop] in *;
  unfold u32, PIPESIZE in *;
  change (2 ^ 32) with 4294967296 in *;
  Z.div_mod_to_equations; lia.

Lemma full_count p : pinv p -> full p = true <-> count p = PIPESIZE.
Proof. intros [? _ ? ? ?]. unfold full. rewrite Z.eqb_eq. ring_lia. Qed.

Lemma empty_count p : pinv p -> empty p = true <-> count p = 0.
Proof. intros [? _ ? ? ?]. unfold empty. rewrite Z.eqb_eq. ring_lia. Qed.

Lemma count_range p : 0 <= count p.
Proof. unfold count, u32. apply Z.mod_pos_bound. lia. Qed.

Lemma push_inv p ch :
  pinv p -> 0 <= ch < 256 -> full p = false -> pinv (push ch p) /\ queue (push ch p) = queue p ++ [ch].
Proof.
  intros Hp Hch Hf. pose proof (full_count p Hp) as Hfc. pose proof (count_range p).
  assert (count p < PIPESIZE) as Hlt.
  { pose proof (pi_count _ Hp). destruct (decide (count p = PIPESIZE)) as [E|]; [|lia].
    apply Hfc in E. congruence. }
  destruct Hp as [Hl Hby Hr Hw Hc].
  assert (count (push ch p) = count p + 1) as Ec by ring_lia.
  split; [split; cbn; [by rewrite length_setZ|by apply Forall_insert|done|apply u32_range|lia]|].
  unfold queue. rewrite Ec, upto_S, fmap_app by lia. f_equal.
  - apply list_fmap_ext. intros j k Hk.
    assert (0 <= k < count p) by (apply elem_of_upto; by eapply list_elem_of_lookup_2).
    unfold qat. cbn. apply nthZ_setZ_ne; [|apply Z.mod_pos_bound; done|].
    + apply Z.mod_pos_bound. done.
    + ring_lia.
  - cbn. f_equal. unfold qat. cbn.
    replace ((p_nread p + count p) mod PIPESIZE) with (p_nwrite p mod PIPESIZE) by ring_lia.
    apply nthZ_setZ_eq. rewrite Hl. pose proof (Z.mod_pos_bound (p_nwrite p) PIPESIZE).
    unfold PIPESIZE in *. lia.
Qed.

Lemma pop_inv p :
  pinv p -> empty p = false -> pinv (pop p) /\ queue p = front p :: queue (pop p).
Proof.
  intros Hp He. pose proof (empty_count p Hp) as Hec. pose proof (count_range p).
  assert (0 < count p) as Hlt.
  { destruct (decide (count p = 0)) as [E|]; [|lia]. apply Hec in E. congruence. }
  destruct Hp as [Hl Hby Hr Hw Hc].
  assert (count (pop p) = count p - 1) as Ec by ring_lia.
  split; [split; cbn; [done|done|apply u32_range|done|lia]|].
  unfold queue. rewrite Ec. apply list_eq. intros [|j].
  - rewrite list_lookup_fmap, lookup_upto by lia. cbn. unfold qat, front. by rewrite Z.add_0_r.
  - cbn [lookup list_lookup]. rewrite list_lookup_fmap, (list_lookup_fmap (qat (pop p))).
    destruct (decide (Z.of_nat (S j) < count p)) as [Hj|Hj].
    + rewrite !lookup_upto by lia. cbn [fmap option_fmap option_map]. apply (f_equal Some). unfold qat. cbn [p_data p_nread pop].
      replace ((p_nread p + Z.of_nat (S j)) mod PIPESIZE)
        with ((u32 (p_nread p + 1) + Z.of_nat j) mod PIPESIZE); [done|]. clear. ring_lia.
    + rewrite !(proj2 (lookup_ge_None _ _)) by (rewrite length_upto; lia). done.
Qed.

Lemma front_byte p : pinv p -> 0 <= front p < 256.
Proof.
  intros Hp. apply (proj1 (Forall_forall _ _) (pi_bytes _ Hp)). apply nthZ_elem.
  rewrite (pi_len _ Hp). pose proof (Z.mod_pos_bound (p_nread p) PIPESIZE).
  unfold PIPESIZE in *. lia.
Qed.

(** ** Specifications *)

Section specs.
Context {U : Type} `{UserMemLaws U}.
Context (pi : Z).

(** User memory holds the bytes [l] at [a]. *)
Definition holds_at (u : U) (a : Z) (l : list Z) : Prop :=
  forall j b, l !! j = Some b -> um_byte u (a + Z.of_nat j) = Some b.

Lemma holds_at_nil u a : holds_at u a [].
Proof. intros j b Hj. by rewrite lookup_nil in Hj. Qed.

Lemma holds_at_cons u a b l :
  um_byte u a = Some b -> holds_at u (a + 1) l -> holds_at u a (b :: l).
Proof.
  intros Hb Hl [|j] x; cbn.
  - intros [= <-]. by rewrite Z.add_0_r.
  - intros Hx. rewrite <- (Hl j x Hx). f_equal. lia.
Qed.

(** What a [pipewrite] that goes on from byte [i] has done when it returns or sleeps. *)
Definition wrote (u : U) (addr n i : Z) (p p' : pipe) (wk : list chan) (out : outcome) : Prop :=
  exists l, pinv p' /\ queue p' = queue p ++ l /\ holds_at u (addr + i) l /\
    p_readopen p' = p_readopen p /\ p_writeopen p' = p_writeopen p /\
    match out with
    | Done r =>
        (r = -1 /\ l = [] /\ (p_readopen p = false \/ um_is_killed u = true)) \/
        (r = i + Z.of_nat (length l) /\ CH_pipe_nread pi ∈ wk /\
         (n <= r \/ um_byte u (addr + r) = None))
    | Asleep ch j =>
        ch = CH_pipe_nwrite pi /\ j = i + Z.of_nat (length l) /\ j < n /\
        full p' = true /\ CH_pipe_nread pi ∈ wk
    end.

Lemma wrote_cons u addr n i p p' wk out b :
  pinv p -> full p = false -> p_readopen p = true -> um_is_killed u = false ->
  um_byte u (addr + i) = Some b ->
  wrote u addr n (i + 1) (push b p) p' wk out -> wrote u addr n i p p' wk out.
Proof.
  intros Hp Hf Hro Hk Hb (l & Hp' & Hq & Hl & Hr & Hw & Hout).
  destruct (push_inv p b Hp (um_byte_range _ _ _ Hb) Hf) as [_ Hpq]. rewrite Hpq, <- app_assoc in Hq. cbn in Hr, Hw.
  exists (b :: l). split_and!; try done.
  - apply holds_at_cons; [done|]. by rewrite <- Z.add_assoc.
  - destruct out as [r|ch j]; cbn [length] in *.
    + destruct Hout as [(-> & -> & [Hx|Hx])|(-> & ? & ?)]; [cbn in Hx; congruence|congruence|].
      right. replace (i + Z.of_nat (S (length l))) with (i + 1 + Z.of_nat (length l)) by lia. done.
    + destruct Hout as (-> & -> & ? & ? & ?). split_and!; [done|lia|done|done|done].
Qed.

Lemma wrote_nothing u addr n i p wk out :
  pinv p ->
  match out with
  | Done r => (r = -1 /\ (p_readopen p = false \/ um_is_killed u = true)) \/
      (r = i /\ CH_pipe_nread pi ∈ wk /\ (n <= r \/ um_byte u (addr + r) = None))
  | Asleep ch j => ch = CH_pipe_nwrite pi /\ j = i /\ j < n /\ full p = true /\
      CH_pipe_nread pi ∈ wk
  end -> wrote u addr n i p p wk out.
Proof.
  intros Hp Hout. exists []. rewrite app_nil_r. cbn [length].
  split_and!; [done|done|apply holds_at_nil|done|done|].
  destruct out as [r|ch j].
  - destruct Hout as [[-> ?]|(-> & ? & ?)]; [by left|right]. by rewrite Z.add_0_r.
  - destruct Hout as (-> & -> & ? & ? & ?). split_and!; [done|lia|done|done|done].
Qed.

(** Leaving the call without having changed the pipe. *)
Lemma pipewrite_leave addr n i c c1 s p hs out :
  held c1 = LK_pipe pi :: hs -> mypid c1 = mypid c -> LK_pipe pi ∉ hs ->
  ps_pipes s !! pi = Some p ->
  wrote (ps_usr s) addr n i p p (wakes c1) out ->
  wp (release (LK_pipe pi) ;; ret out) c1 s (fun out c' s' => exists p',
    held c' = hs /\ mypid c' = mypid c /\ ps_usr s' = ps_usr s /\
    ps_pipes s' = <[pi := p']> (ps_pipes s) /\
    wrote (ps_usr s) addr n i p p' (wakes c') out).
Proof.
  intros Hh Hm Hl Hp Hw. apply wp_bind, wp_release with (Ctx hs [] 0); [done|done|].
  apply wp_ret. exists p. rewrite insert_id by done. done.
Qed.

Lemma pipewrite_loop_spec fuel addr n i c s p hs :
  n - i <= Z.of_nat fuel -> 0 <= addr + i ->
  held c = LK_pipe pi :: hs -> LK_pipe pi ∉ hs -> um_free c -> um_inv (ps_usr s) ->
  ps_pipes s !! pi = Some p -> pinv p ->
  wp (pipewrite_loop fuel pi addr n i) c s (fun out c' s' => exists p',
    held c' = hs /\ mypid c' = mypid c /\ ps_usr s' = ps_usr s /\
    ps_pipes s' = <[pi := p']> (ps_pipes s) /\
    wrote (ps_usr s) addr n i p p' (wakes c') out).
Proof.
  revert i s p. induction fuel as [|f IH]; intros i s p Hfuel Hai Hh Hl Hfr Hinv Hp Hpi.
  all: cbn [pipewrite_loop]; destruct (Z.leb_spec n i) as [Hn|Hn]; [|try lia].
  1,2: apply wp_bind, wp_wakeup; apply pipewrite_leave; try done;
    apply wrote_nothing; [done|]; right; split_and!; [done|by left|by left].
  apply wp_bind, wp_gets. rewrite Hp. cbn [default from_option id].
  apply wp_bind. destruct (p_readopen p) eqn:Hro; cbn [negb].
  2:{ apply wp_ret, pipewrite_leave; try done. apply wrote_nothing; [done|]. auto. }
  exists (um_is_killed (ps_usr s)), c, s. split.
  { unfold pusr, zoom. rewrite um_killed_ok by done. by destruct s. }
  destruct (um_is_killed (ps_usr s)) eqn:Hk.
  { apply pipewrite_leave; try done. apply wrote_nothing; [done|]. auto. }
  apply wp_bind, wp_gets. rewrite Hp. cbn [default from_option id].
  destruct (full p) eqn:Hf.
  { apply wp_bind, wp_wakeup, pipewrite_leave; try done.
    apply wrote_nothing; [done|]. split_and!; [done|done|done|done|by left]. }
  apply wp_bind. eexists _, c, s. split.
  { unfold pusr, zoom. rewrite um_copyin_ok by done. by destruct s. }
  destruct (um_byte (ps_usr s) (addr + i)) as [b|] eqn:Hb; cbn [fst snd].
  2:{ apply wp_bind, wp_wakeup, pipewrite_leave; try done.
      apply wrote_nothing; [done|]. right. split_and!; [done|by left|by right]. }
  apply wp_bind, wp_modify. rewrite Hp. cbn [default from_option id].
  change (nthZ 0 [b] 0) with b.
  destruct (push_inv p b Hpi (um_byte_range _ _ _ Hb) Hf) as [Hpush _].
  eapply wp_mono; [apply (IH (i + 1) _ (push b p)); try done; [lia|lia|cbn; by rewrite lookup_insert_eq]|].
  cbn. intros out c' s' (p' & ? & ? & ? & Hps & Hw). exists p'.
  rewrite insert_insert_eq in Hps. split_and!; try done. by apply wrote_cons with b.
Qed.
(** What [piperead_loop] has done from byte [i] on: [l] left the queue; all of it is
    in user memory, except for a last byte that could not be copied out. *)
Definition took (u u' : U) (addr n i : Z) (p p' : pipe) (r : Z) : Prop :=
  exists l, pinv p' /\ queue p = l ++ queue p' /\ i <= r /\
    p_readopen p' = p_readopen p /\ p_writeopen p' = p_writeopen p /\
    um_inv u' /\ um_is_killed u' = um_is_killed u /\
    (forall a, um_byte u' a =
      if decide (addr + i <= a < addr + r) then l !! Z.to_nat (a - addr - i) else um_byte u a) /\
    ((r = i + Z.of_nat (length l) /\ (n <= r \/ queue p' = [])) \/
     (r + 1 = i + Z.of_nat (length l) /\ um_byte u (addr + r) = None)).

Lemma queue_empty p : pinv p -> empty p = true -> queue p = [].
Proof. intros Hp He. apply empty_count in He; [|done]. unfold queue. by rewrite He. Qed.

Lemma took_nothing u addr n i p :
  pinv p -> um_inv u -> n <= i \/ queue p = [] -> took u u addr n i p p i.
Proof.
  intros Hp Hu Hn. exists []. cbn [length app]. split_and!; try done.
  - intros a. rewrite decide_False by lia. done.
  - left. split; [lia|done].
Qed.

Lemma took_fault u addr n i p :
  pinv p -> um_inv u -> empty p = false -> um_byte u (addr + i) = None ->
  took u u addr n i p (pop p) i.
Proof.
  intros Hp Hu He Hb. destruct (pop_inv p Hp He) as [Hpop Hq].
  exists [front p]. cbn [length app]. split_and!; try done.
  - intros a. rewrite decide_False by lia. done.
  - right. split; [lia|done].
Qed.

Lemma took_cons u u1 u' addr n i p p' r :
  pinv p -> empty p = false ->
  (forall a, um_byte u1 a = if decide (a = addr + i) then Some (front p) else um_byte u a) ->
  um_is_killed u1 = um_is_killed u -> is_Some (um_byte u (addr + i)) ->
  took u1 u' addr n (i + 1) (pop p) p' r -> took u u' addr n i p p' r.
Proof.
  intros Hp He Hu1 Hk Hm (l & Hp' & Hq & Hr & Ho & Hw & Hi' & Hk' & Hb & Hend).
  destruct (pop_inv p Hp He) as [_ Hpq]. exists (front p :: l). cbn [length].
  split_and!; try done.
  - by rewrite Hpq, Hq.
  - lia.
  - congruence.
  - intros a. rewrite Hb, Hu1.
    destruct (decide (a = addr + i)) as [->|Hne].
    + rewrite decide_False, decide_True by lia.
      replace (addr + i - addr - i) with 0 by lia. done.
    + repeat case_decide; try lia; try done.
      replace (Z.to_nat (a - addr - i)) with (S (Z.to_nat (a - addr - (i + 1)))) by lia. done.
  - destruct Hend as [[-> ?]|[E Hn]]; [left; split; [lia|done]|right; split; [lia|]].
    rewrite Hu1 in Hn. case_decide; [done|]. done.
Qed.

Lemma piperead_loop_spec fuel addr n i c s p :
  n - i <= Z.of_nat fuel -> 0 <= addr + i -> um_inv (ps_usr s) ->
  ps_pipes s !! pi = Some p -> pinv p ->
  wp (piperead_loop fuel pi addr n i) c s (fun r c' s' => exists p',
    c' = c /\ ps_pipes s' = <[pi := p']> (ps_pipes s) /\
    took (ps_usr s) (ps_usr s') addr n i p p' r).
Proof.
  revert i s p. induction fuel as [|f IH]; intros i s p Hfuel Hai Hinv Hp Hpi.
  all: cbn [piperead_loop]; destruct (Z.leb_spec n i) as [Hn|Hn]; [|try lia].
  1,2: apply wp_ret; exists p; rewrite insert_id by done; split_and!; [done..|];
    apply took_nothing; auto.
  apply wp_bind, wp_gets. rewrite Hp. cbn [default from_option id].
  destruct (empty p) eqn:He.
  { apply wp_ret. exists p. rewrite insert_id by done. split_and!; [done..|].
    apply took_nothing; auto using queue_empty. }
  apply wp_bind, wp_gets. rewrite Hp. cbn [default from_option id].
  apply wp_bind, wp_modify. rewrite Hp. cbn [default from_option id].
  destruct (pop_inv p Hpi He) as [Hpop _].
  pose proof (um_copyout_ok c (ps_usr s) (addr + i) (front p) Hinv Hai (front_byte _ Hpi)) as Hco.
  apply wp_bind. destruct (um_byte (ps_usr s) (addr + i)) as [b|] eqn:Hb.
  - destruct Hco as (u' & Hrun & Hinv' & Hk & Hbytes).
    eexists 0, c, (Pst (<[pi := pop p]> (ps_pipes s)) u'). split.
    { unfold pusr, zoom. cbn [ps_usr]. by rewrite Hrun. }
    cbn [Z.eqb].
    eapply wp_mono; [apply (IH (i + 1) _ (pop p)); try done; [lia|lia|cbn; by rewrite lookup_insert_eq]|].
    cbn. intros r c' s' (p' & -> & Hps & Ht). exists p'. rewrite insert_insert_eq in Hps.
    split_and!; [done|done|]. by apply (took_cons _ u'); [| | | |rewrite Hb|].
  - eexists (-1), c, (Pst (<[pi := pop p]> (ps_pipes s)) (ps_usr s)). split.
    { unfold pusr, zoom. cbn [ps_usr]. by rewrite Hco. }
    cbn. apply wp_ret. exists (pop p). split_and!; [done..|]. by apply took_fault.
Qed.
End specs.

(** ** Properties *)

(** C21: [pipewrite] appends: from the byte it goes on with until it returns or sleeps,
    the bytes of user memory it has accepted, and only these, are appended in order
    to the queue; it returns their total number, stops short of [n] only at an
    unmapped address, fails only if the reader is gone or the process killed, sleeps
    only on a full pipe, and wakes the readers unless it fails. *)
Theorem pipewrite_appends {U} `{UserMemLaws U} pi addr n i c (s : pst U) p :
  LK_pipe pi ∉ held c -> um_free (locked (LK_pipe pi) c) -> um_inv (ps_usr s) ->
  ps_pipes s !! pi = Some p -> pinv p -> 0 <= addr -> 0 <= i ->
  wp (pipewrite_from pi addr n i) c s (fun out c' s' => exists p',
    held c' = held c /\ mypid c' = mypid c /\ ps_usr s' = ps_usr s /\
    ps_pipes s' = <[pi := p']> (ps_pipes s) /\
    wrote pi (ps_usr s) addr n i p p' (wakes c') out).
Proof.
  intros Hl Hf Hu Hp Hpi Ha Hi. apply wp_bind, wp_acquire; [done|].
  eapply wp_mono; [by eapply (pipewrite_loop_spec pi _ addr n i _ _ p (held c)); [lia|lia|..]|].
  done.
Qed.

(** C22: [piperead] takes from the front: if the pipe is empty and still open for
    writing it sleeps or, killed, fails, and changes nothing; otherwise it returns
    after moving a prefix of the queue to user memory in order, of length [n] unless
    the queue is exhausted or an address is not mapped (in that case one more byte
    has left the queue and is lost), changes no other user byte, and wakes writers. *)
Theorem piperead_takes_prefix {U} `{UserMemLaws U} pi addr n c (s : pst U) p :
  LK_pipe pi ∉ held c -> um_free (locked (LK_pipe pi) c) -> um_inv (ps_usr s) ->
  ps_pipes s !! pi = Some p -> pinv p -> 0 <= addr ->
  wp (piperead pi addr n) c s (fun out c' s' =>
    held c' = held c /\ mypid c' = mypid c /\
    if empty p && p_writeopen p
    then s' = s /\
      out = if um_is_killed (ps_usr s) then Done (-1) else Asleep (CH_pipe_nread pi) 0
    else exists p' r, out = Done r /\ CH_pipe_nwrite pi ∈ wakes c' /\
      ps_pipes s' = <[pi := p']> (ps_pipes s) /\
      took (ps_usr s) (ps_usr s') addr n 0 p p' r).
Proof.
  intros Hl Hf Hu Hp Hpi Ha. apply wp_bind, wp_acquire; [done|].
  apply wp_bind, wp_gets. rewrite Hp. cbn [default from_option id].
  destruct (empty p && p_writeopen p).
  - apply wp_bind. exists (um_is_killed (ps_usr s)), (locked (LK_pipe pi) c), s. split.
    { unfold pusr, zoom. rewrite um_killed_ok by done. by destruct s. }
    destruct (um_is_killed (ps_usr s));
      (apply wp_bind, wp_release with c; [done|done|]; by apply wp_ret).
  - apply wp_bind. eapply wp_mono;
      [by eapply (piperead_loop_spec pi _ addr n 0 _ _ p); [lia|lia|..]|].
    cbn. intros r c' s' (p' & -> & Hps & Ht).
    apply wp_bind, wp_wakeup, wp_bind, wp_release with c; [done|done|].
    apply wp_ret. split_and!; [done|done|]. exists p', r. split_and!; try done. by left.
Qed.

(** ** Witnesses *)

(** A process whose memory is a finite map from addresses to bytes. *)
#[local] Instance map_mem : UserMem (gmap Z Z) := {|
  um_copyout a l := fun c u =>
    match l with
    | [b] => match u !! a with Some _ => Ok 0 c (<[a := b]> u) | None => Ok (-1) c u end
    | _ => Ok (-1) c u
    end;
  um_copyin a n := fun c u =>
    Ok (match mapM (fun i => u8 <$> u !! (a + i)) (upto n) with Some l => (0, l) | None => (-1, []) end) c u;
  um_copyinstr a n := ret (-1, []);
  um_killed := ret false;
  um_kalloc := ret 0;
  um_kfree _ := ret tt
|}.

Definition map_byte (u : gmap Z Z) (a : Z) : option Z := u8 <$> u !! a.

#[local] Instance map_laws : UserMemLaws (gmap Z Z).
Proof.
  refine (@Build_UserMemLaws (gmap Z Z) map_mem (fun _ => True)
    map_byte (fun _ => false) (fun _ => True) _ _ _ _ _ _).
  - done.
  - intros u a b. unfold map_byte. destruct (u !! a); cbn; [|done]. intros [= <-]. apply u8_range.
  - done.
  - intros c u a _ _. unfold map_byte. cbn [um_copyin map_mem]. change (upto 1) with [0].
    cbn [mapM]. rewrite Z.add_0_r. by destruct (u !! a).
  - intros c u a n _ _ Hn Hall. cbn. destruct (mapM _ _) as [d|] eqn:E.
    + exists d. apply mapM_Some in E. pose proof (Forall2_length _ _ _ E) as Hl. rewrite length_upto in Hl.
      split_and!; [done|done|]. intros i Hi. destruct (lookup_lt_is_Some_2 d (Z.to_nat i)) as [b Hb]; [lia|].
      assert (Hu : upto n !! Z.to_nat i = Some i) by (rewrite lookup_upto by lia; f_equal; lia).
      unfold nthZ. rewrite nth_lookup, Hb. exact (Forall2_lookup_lr _ _ _ _ _ _ E Hu Hb).
    + exfalso. assert (Hs : is_Some (mapM (fun i => u8 <$> u !! (a + i)) (upto n))); [|rewrite E in Hs; by destruct Hs].
      apply mapM_is_Some_2, Forall_forall. intros i Hi%elem_of_upto. by apply Hall.
  - intros c u a b _ _ Hb. unfold map_byte. cbn. destruct (u !! a) eqn:E; cbn; [|done].
    eexists. split_and!; [done..|]. intros a'. rewrite lookup_insert.
    repeat case_decide; try congruence. cbn. by rewrite u8_small.
Defined.

Definition ex_pipe : pipe := Pipe (replicate (Z.to_nat PIPESIZE) 0) 4294967295 4294967295 true true.
Definition ex_pst : pst (gmap Z Z) := Pst {[7 := ex_pipe]} {[100 := 104; 101 := 105]}.

Lemma ex_pipe_inv : pinv ex_pipe.
Proof.
  split; [reflexivity|apply Forall_replicate; lia|cbn; lia|cbn; lia|vm_compute; discriminate].
Qed.

Lemma pipewrite_appends_witness :
  pinv ex_pipe /\
  wp (pipewrite 7 100 2) (Ctx [] [] 1) ex_pst (fun out c' s' => exists p',
    held c' = [] /\ mypid c' = 1 /\ ps_usr s' = ps_usr ex_pst /\
    ps_pipes s' = <[7 := p']> (ps_pipes ex_pst) /\
    wrote 7 (ps_usr ex_pst) 100 2 0 ex_pipe p' (wakes c') out).
Proof.
  split; [apply ex_pipe_inv|].
  apply (pipewrite_appends 7 100 2 0 (Ctx [] [] 1) ex_pst ex_pipe);
    [apply not_elem_of_nil|exact I|exact I|reflexivity|apply ex_pipe_inv|lia|lia].
Defined.

Lemma piperead_takes_prefix_witness :
  let p := push 33 ex_pipe in
  let s := Pst {[7 := p]} (ps_usr ex_pst) in
  pinv p /\
  wp (piperead 7 100 2) (Ctx [] [] 1) s (fun out c' s' =>
    held c' = [] /\ mypid c' = 1 /\
    exists p' r, out = Done r /\ CH_pipe_nwrite 7 ∈ wakes c' /\
      ps_pipes s' = <[7 := p']> (ps_pipes s) /\
      took (ps_usr s) (ps_usr s') 100 2 0 p p' r).
Proof.
  intros p s.
  assert (pinv p) as Hp by (apply push_inv; [apply ex_pipe_inv|lia|vm_compute; reflexivity]).
  split; [exact Hp|].
  apply (piperead_takes_prefix 7 100 2 (Ctx [] [] 1) s p);
    [apply not_elem_of_nil|exact I|exact I|reflexivity|exact Hp|lia].
Defined.
