(* ===== verification/Console.v ===== *)
(** * The console (kernel/console.c)

    Input is edited a line at a time: [cons.buf] is a ring with a read, a write and
    an edit index; what lies between read and write is available to [consoleread],
    what lies between write and edit is the line being typed. *)

From S2P Require Import Prelude KMonad Ring Uart UserMem Pipe.

Definition INPUT_BUF_SIZE := 128.
Definition BACKSPACE := 256.
(** [C(x)], control-x *)
Definition CTRL_D := 4.
Definition CTRL_H := 8.
Definition CTRL_P := 16.
Definition CTRL_U := 21.
Definition DEL := 127.
Definition NL := 10.
Definition CR := 13.

Record cons := Cons { cons_buf : list Z; cons_r : Z; cons_w : Z; cons_e : Z }.
Record tty := Tty { tt_cons : cons; tt_uart : uart }.

Definition set_cons (f : cons -> cons) (t : tty) : tty := Tty (f (tt_cons t)) (tt_uart t).
Definition uartop {A} (m : M uart A) : M tty A := zoom tt_uart (fun u t => Tty (tt_cons t) u) m.

(** send one character to the uart. *)
Definition consputc (c : Z) : M tty unit :=
  if c =? BACKSPACE then
    (* if the user typed backspace, overwrite with a space. *)
    uartop (uartputc_sync 8) ;;
    uartop (uartputc_sync 32) ;;
    uartop (uartputc_sync 8)
  else uartop (uartputc_sync c).

Definition in_buf (k : cons) (i : Z) : Z := nthZ 0 (cons_buf k) (i mod INPUT_BUF_SIZE).

Definition set_e (e : Z) (k : cons) : cons := Cons (cons_buf k) (cons_r k) (cons_w k) e.
Definition set_w (w : Z) (k : cons) : cons := Cons (cons_buf k) (cons_r k) w (cons_e k).
Definition set_r (r : Z) (k : cons) : cons := Cons (cons_buf k) r (cons_w k) (cons_e k).
(** [cons.buf[cons.e++ % INPUT_BUF_SIZE] = c;] *)
Definition put_e (c : Z) (k : cons) : cons :=
  Cons (setZ (cons_buf k) (cons_e k mod INPUT_BUF_SIZE) c) (cons_r k) (cons_w k) (u32 (cons_e k + 1)).

(** The loop of control-U.  It erases at most the line, [INPUT_BUF_SIZE] characters. *)
Fixpoint kill_line (fuel : nat) : M tty unit :=
  k <- gets tt_cons ;;
  if negb (cons_e k =? cons_w k) && negb (in_buf k (u32 (cons_e k - 1)) =? NL) then
    match fuel with
    | O => panic "consoleintr: out of fuel"
    | S f =>
        modify (set_cons (fun k => set_e (u32 (cons_e k - 1)) k)) ;;
        consputc BACKSPACE ;;
        kill_line f
    end
  else ret tt.

(** the console input interrupt handler; [dump] is what [procdump] prints. *)
Definition consoleintr (dump : list Z) (c : Z) : M tty unit :=
  acquire LK_cons ;;
  (if c =? CTRL_P then mfor dump consputc (* Print process list. *)
   else if c =? CTRL_U then kill_line (Z.to_nat INPUT_BUF_SIZE) (* Kill line. *)
   else if (c =? CTRL_H) || (c =? DEL) then
     k <- gets tt_cons ;;
     (when negb (cons_e k =? cons_w k) do (
        modify (set_cons (fun k => set_e (u32 (cons_e k - 1)) k)) ;;
        consputc BACKSPACE))
   else
     k <- gets tt_cons ;;
     (when negb (c =? 0) && (u32 (cons_e k - cons_r k) <? INPUT_BUF_SIZE) do (
        let c := if c =? CR then NL else c in
        (* echo back to the user. *)
        consputc c ;;
        (* store for consumption by consoleread(). *)
        modify (set_cons (put_e (u8 c))) ;;
        k <- gets tt_cons ;;
        (when (c =? NL) || (c =? CTRL_D) || (u32 (cons_e k - cons_r k) =? INPUT_BUF_SIZE) do (
           (* wake up consoleread() if a whole line (or end-of-file) has arrived. *)
           modify (set_cons (fun k => set_w (cons_e k) k)) ;;
           wakeup CH_cons_r))))) ;;
  release LK_cons.

(** handle a uart interrupt: the characters waiting, then the transmit buffer. *)
Fixpoint uartintr_loop (fuel : nat) (dump : list Z) : M tty unit :=
  c <- uartop uartgetc ;;
  if c =? -1 then ret tt
  else
    match fuel with
    | O => panic "uartintr: out of fuel"
    | S f =>
        consoleintr dump c ;;
        uartintr_loop f dump
    end.
Definition uartintr (dump : list Z) : M tty unit :=
  rx <- gets (fun t => hw_rx (tt_uart t)) ;;
  uartintr_loop (length rx) dump ;;
  acquire LK_uart ;;
  uartop uartstart ;;
  release LK_uart.

Definition consoleinit : M tty unit := uartop uartinit.

(** ** Reading and writing, with the memory of the process *)

Record cst (U : Type) := Cst { ct_tty : tty; ct_usr : U }.
Arguments Cst {U}.
Arguments ct_tty {U}.
Arguments ct_usr {U}.

Section io.
Context {U : Type} `{UserMem U}.

Definition ttyop {A} (m : M tty A) : M (cst U) A := zoom ct_tty (fun t s => Cst t (ct_usr s)) m.
Definition cusr {A} (m : M U A) : M (cst U) A := zoom ct_usr (fun u s => Cst (ct_tty s) u) m.

(** user write()s to the console go here: from character [i] on. *)
Fixpoint consolewrite_loop (fuel : nat) (src n i : Z) : M (cst U) outcome :=
  if n <=? i then ret (Done i)
  else
    match fuel with
    | O => panic "consolewrite: out of fuel"
    | S f =>
        r <- cusr (um_copyin (u64 (src + i)) 1) ;;
        if fst r =? -1 then ret (Done i)
        else
          b <- ttyop (uartop (uartputc (nthZ 0 (snd r) 0))) ;;
          if (b : bool) then consolewrite_loop f src n (i + 1)
          else ret (Asleep CH_uart_tx_r i)
    end.
Definition consolewrite_from (src n i : Z) : M (cst U) outcome :=
  consolewrite_loop (Z.to_nat (n - i)) src n i.
Definition consolewrite (src n : Z) : M (cst U) outcome := consolewrite_from src n 0.

(** user read()s from the console go here, with [n] of [target] characters still to
    go.  The lock is held. *)
Fixpoint consoleread_loop (fuel : nat) (dst n target : Z) : M (cst U) outcome :=
  if n <=? 0 then
    release LK_cons ;;
    ret (Done (target - n))
  else
    match fuel with
    | O => panic "consoleread: out of fuel"
    | S f =>
        k <- gets (fun s => tt_cons (ct_tty s)) ;;
        if cons_r k =? cons_w k then
          killed <- cusr um_killed ;;
          release LK_cons ;; (* and, unless killed, sleep(&cons.r, &cons.lock) *)
          ret (if (killed : bool) then Done (-1) else Asleep CH_cons_r (target - n))
        else
          let c := in_buf k (cons_r k) in
          ttyop (modify (set_cons (fun k => set_r (u32 (cons_r k + 1)) k))) ;;
          if c =? CTRL_D then (* end-of-file *)
            (* Save ^D for next time, to make sure caller gets a 0-byte result. *)
            (when n <? target do
               ttyop (modify (set_cons (fun k => set_r (u32 (cons_r k - 1)) k)))) ;;
            release LK_cons ;;
            ret (Done (target - n))
          else
            (* copy the input byte to the user-space buffer. *)
            r <- cusr (um_copyout dst [c]) ;;
            if r =? -1 then
              release LK_cons ;;
              ret (Done (target - n))
            else if c =? NL then
              (* a whole line has arrived, return to the user-level read(). *)
              release LK_cons ;;
              ret (Done (target - (n - 1)))
            else consoleread_loop f (u64 (dst + 1)) (n - 1) target
    end.
(** [consoleread], going on after [done] characters. *)
Definition consoleread_from (dst n done : Z) : M (cst U) outcome :=
  acquire LK_cons ;;
  consoleread_loop (Z.to_nat (n - done)) (u64 (dst + done)) (n - done) n.
Definition consoleread (dst n : Z) : M (cst U) outcome := consoleread_from dst n 0.
End io.

(** ** Line editing *)

Definition n_avail (k : cons) : Z := u32 (cons_w k - cons_r k).
Definition n_line (k : cons) : Z := u32 (cons_e k - cons_w k).
(** What [consoleread] can take, and the line being typed. *)
Definition avail (k : cons) : list Z := seg INPUT_BUF_SIZE (cons_buf k) (cons_r k) (n_avail k).
Definition line (k : cons) : list Z := seg INPUT_BUF_SIZE (cons_buf k) (cons_w k) (n_line k).

Record cinv (k : cons) : Prop := {
  ci_len : length (cons_buf k) = Z.to_nat INPUT_BUF_SIZE;
  ci_r : 0 <= cons_r k < 2 ^ 32;
  ci_w : 0 <= cons_w k < 2 ^ 32;
  ci_e : 0 <= cons_e k < 2 ^ 32;
  ci_room : n_avail k + n_line k <= INPUT_BUF_SIZE;
  ci_line : NL ∉ line k
}.

(** The abstract editor: the effect of a character on the available input and the
    current line, and what is echoed. *)
Definition erase (n : nat) : list Z := mjoin (replicate n [8; 32; 8]).
Definition edit (dump : list Z) (c : Z) (st : list Z * list Z) : list Z * list Z * list Z :=
  let '(av, ln) := st in
  if c =? CTRL_P then (av, ln, dump)
  else if c =? CTRL_U then (av, [], erase (length ln))
  else if (c =? CTRL_H) || (c =? DEL) then (av, removelast ln, erase (if ln is [] then 0 else 1))
  else if (c =? 0) || (INPUT_BUF_SIZE <=? Z.of_nat (length av + length ln)) then (av, ln, [])
  else
    let c := if c =? CR then NL else c in
    let ln := ln ++ [c] in
    if (c =? NL) || (c =? CTRL_D) || (Z.of_nat (length av + length ln) =? INPUT_BUF_SIZE)
    then (av ++ ln, [], [c]) else (av, ln, [c]).

(** Arithmetic of the indices: [INPUT_BUF_SIZE] divides 2^32. *)
Ltac cons_lia :=
  unfold n_avail, n_line in *;
  cbn [cons_r cons_w cons_e cons_buf set_e set_w set_r put_e] in *;
  unfold u32, INPUT_BUF_SIZE in *; change (2 ^ 32) with 4294967296 in *;
  Z.div_mod_to_equations; lia.

Lemma n_avail_range k : 0 <= n_avail k.
Proof. apply u32_range. Qed.
Lemma n_line_range k : 0 <= n_line k.
Proof. apply u32_range. Qed.
Lemma length_avail k : Z.of_nat (length (avail k)) = n_avail k.
Proof. unfold avail. rewrite length_seg. pose proof (n_avail_range k). lia. Qed.
Lemma length_line k : Z.of_nat (length (line k)) = n_line k.
Proof. unfold line. rewrite length_seg. pose proof (n_line_range k). lia. Qed.

Lemma line_empty k : cinv k -> (cons_e k =? cons_w k) = true <-> line k = [].
Proof.
  intros [_ _ ? ? _ _]. rewrite <- length_zero_iff_nil, Z.eqb_eq.
  pose proof (length_line k) as El. rewrite <- Nat2Z.inj_iff, El. cons_lia.
Qed.

(** The last character of the line. *)
Lemma line_last k : cinv k -> line k <> [] -> line k = removelast (line k) ++ [in_buf k (u32 (cons_e k - 1))].
Proof.
  intros Hk Hne. rewrite (app_removelast_last 0 Hne) at 1. f_equal. f_equal.
  pose proof (length_line k) as Hl. destruct Hk as [_ _ ? ? _ _].
  assert (0 < n_line k) by (destruct (line k); cbn in Hl; [done|lia]).
  unfold line. replace (n_line k) with (n_line k - 1 + 1) by lia.
  rewrite seg_snoc, last_last by (done || lia). unfold in_buf. f_equal. cons_lia.
Qed.

(** Backspace. *)
Lemma back_spec k :
  cinv k -> line k <> [] ->
  let k' := set_e (u32 (cons_e k - 1)) k in
  cinv k' /\ avail k' = avail k /\ line k' = removelast (line k).
Proof.
  intros Hk Hne k'. pose proof (length_line k) as Hl.
  assert (0 < n_line k) by (destruct (line k); cbn in Hl; [done|lia]).
  assert (El : line k' = removelast (line k)).
  { assert (n_line k' = n_line k - 1) as E by (destruct Hk as [_ _ ? ? _ _]; subst k'; cons_lia).
    pose proof (line_last k Hk Hne) as Ell. unfold line in Ell at 1.
    replace (n_line k) with (n_line k' + 1) in Ell by lia.
    rewrite seg_snoc in Ell by (done || (pose proof (n_line_range k'); lia)).
    by apply app_inj_tail in Ell as [Ell _]. }
  split_and!; [|done|done]. assert (Hr := ci_room _ Hk). destruct Hk as [? ? ? ? _ Hn].
  split; [done|done|done|apply u32_range| |].
  - subst k'. cons_lia.
  - rewrite El. intros Hin. apply Hn. rewrite (app_removelast_last 0 Hne). set_solver.
Qed.

(** A character is stored. *)
Lemma put_spec c k :
  cinv k -> n_avail k + n_line k < INPUT_BUF_SIZE ->
  let k' := put_e c k in
  avail k' = avail k /\ line k' = line k ++ [c] /\ n_avail k' = n_avail k /\ n_line k' = n_line k + 1 /\
  (c <> NL -> cinv k').
Proof.
  intros [Hl Hr Hw He Hroom Hn] Hlt k'. pose proof (n_avail_range k). pose proof (n_line_range k).
  assert (Ea : n_avail k' = n_avail k) by done.
  assert (En : n_line k' = n_line k + 1) by (subst k'; cons_lia).
  assert (Eline : line k' = line k ++ [c]).
  { unfold line. rewrite En. subst k'. cbn [put_e cons_buf cons_w].
    replace (cons_e k mod INPUT_BUF_SIZE) with ((cons_w k + n_line k) mod INPUT_BUF_SIZE) by cons_lia.
    apply seg_push; [done|done|lia]. }
  split_and!; [|done|done|done|].
  - unfold avail. rewrite Ea. subst k'. cbn [put_e cons_buf cons_r]. apply seg_set_ne; [done|].
    intros j Hj. cons_lia.
  - intros Hc. split; [by subst k'; cbn; rewrite length_setZ|done|done|apply u32_range|lia|].
    rewrite Eline. set_solver.
Qed.

(** The line becomes available. *)
Lemma commit_line_spec k :
  length (cons_buf k) = Z.to_nat INPUT_BUF_SIZE -> 0 <= cons_r k < 2 ^ 32 -> 0 <= cons_e k < 2 ^ 32 ->
  n_avail k + n_line k <= INPUT_BUF_SIZE ->
  let k' := set_w (cons_e k) k in cinv k' /\ avail k' = avail k ++ line k /\ line k' = [].
Proof.
  intros Hl Hr He Hroom k'. pose proof (n_avail_range k). pose proof (n_line_range k).
  assert (Ea : n_avail k' = n_avail k + n_line k) by (subst k'; cons_lia).
  assert (En : n_line k' = 0) by (subst k'; cons_lia).
  assert (Eline : line k' = []) by (unfold line; by rewrite En).
  split_and!; [|unfold avail, line; rewrite Ea|done].
  - split; [done|done|done|done|lia|]. rewrite Eline. set_solver.
  - subst k'. cbn [set_w cons_buf cons_r]. rewrite seg_app by lia. f_equal.
    apply seg_congr; [done|]. cons_lia.
Qed.

(** The uart after [l] has been echoed. *)
Definition echoed (l : list Z) (u u' : uart) : Prop :=
  hw_out u' = hw_out u ++ l /\ pending u' = pending u /\ ut_panicked u' = ut_panicked u /\
  hw_rx u' = hw_rx u /\ (uinv u -> uinv u').

Lemma echoed_nil u : echoed [] u u.
Proof. unfold echoed. by rewrite app_nil_r. Qed.

Lemma echoed_app l1 l2 u1 u2 u3 : echoed l1 u1 u2 -> echoed l2 u2 u3 -> echoed (l1 ++ l2) u1 u3.
Proof.
  intros (E1 & E2 & E3 & E4 & H1) (F1 & F2 & F3 & F4 & H2).
  unfold echoed. rewrite F1, F2, F3, F4, E1, E2, E3, E4, app_assoc. split_and!; auto.
Qed.

(** An operation that only echoes. *)
Definition echoes {A} (m : M tty A) (l : list Z) : Prop := forall c t,
  ut_panicked (tt_uart t) = false ->
  wp m c t (fun _ c' t' => c' = c /\ tt_cons t' = tt_cons t /\ echoed l (tt_uart t) (tt_uart t')).

Lemma echoes_sync ch : echoes (uartop (uartputc_sync ch)) [u8 ch].
Proof.
  intros c t Hp. unfold uartop, zoom, uartputc_sync, bind, gets, modify.
  eexists _, _, _. rewrite Hp. split; [reflexivity|]. split_and!; [done|done|]. cbn.
  rewrite write_thr_idle by apply tx_idle_drain. unfold drain. destruct (tx_idle _); split_and!; try done; intros []; by split.
Qed.

Lemma echoes_bind {A B} (m : M tty A) (k : M tty B) l1 l2 :
  echoes m l1 -> echoes k l2 -> echoes (m ;; k) (l1 ++ l2).
Proof.
  intros Hm Hk c t Hp. apply wp_bind. eapply wp_mono; [by apply Hm|].
  cbn. intros _ c1 t1 (-> & Ec & E1). eapply wp_mono; [apply Hk; destruct E1 as (_ & _ & -> & _); done|].
  cbn. intros _ c2 t2 (-> & Ec2 & E2). split_and!; [done|congruence|by eapply echoed_app].
Qed.

Lemma echoes_backspace : echoes (consputc BACKSPACE) [8; 32; 8].
Proof. apply (echoes_bind _ _ [8]), (echoes_bind _ _ [32]); apply (echoes_sync). Qed.

Lemma echoes_char ch : 0 <= ch < 256 -> echoes (consputc ch) [ch].
Proof.
  intros Hc. unfold consputc. destruct (Z.eqb_spec ch BACKSPACE) as [->|_]; [unfold BACKSPACE in Hc; lia|].
  pose proof (echoes_sync ch) as He. by rewrite u8_small in He.
Qed.

Lemma echoes_dump l : Forall (fun b => 0 <= b < 256) l -> echoes (mfor l consputc) l.
Proof.
  induction 1 as [|x l Hx _ IH]; cbn [mfor].
  - intros c t _. apply wp_ret. split_and!; [done|done|apply echoed_nil].
  - apply (echoes_bind _ _ [x]); [by apply echoes_char|done].
Qed.

Lemma erase_S n : erase (S n) = [8; 32; 8] ++ erase n.
Proof. done. Qed.

Lemma kill_line_spec fuel c t :
  cinv (tt_cons t) -> ut_panicked (tt_uart t) = false -> (length (line (tt_cons t)) <= fuel)%nat ->
  wp (kill_line fuel) c t (fun _ c' t' => c' = c /\ cinv (tt_cons t') /\
    avail (tt_cons t') = avail (tt_cons t) /\ line (tt_cons t') = [] /\
    echoed (erase (length (line (tt_cons t)))) (tt_uart t) (tt_uart t')).
Proof.
  revert t. induction fuel as [|f IH]; intros t Hk Hp Hf; cbn [kill_line]; apply wp_bind, wp_gets;
    pose proof (line_empty _ Hk) as He; destruct (cons_e (tt_cons t) =? cons_w (tt_cons t)) eqn:E; cbn [negb andb].
  1,3: apply wp_ret; rewrite (proj1 He eq_refl); split_and!; try done; apply echoed_nil.
  all: assert (Hne : line (tt_cons t) <> []) by (intros [=]%He).
  { destruct (line (tt_cons t)); cbn in Hf; [done|lia]. }
  assert (Hlast := line_last _ Hk Hne).
  assert (Hnl : (in_buf (tt_cons t) (u32 (cons_e (tt_cons t) - 1)) =? NL) = false).
  { apply Z.eqb_neq. intros Enl. apply (ci_line _ Hk). rewrite Hlast, Enl. set_solver. }
  rewrite Hnl. cbn [negb]. apply wp_bind, wp_modify, wp_bind.
  destruct (back_spec _ Hk Hne) as (Hk1 & Ea1 & El1).
  eapply wp_mono; [by apply echoes_backspace|]. cbn. intros _ c1 t1 (-> & Ec1 & Ee1). cbn in Ec1, Ee1.
  assert (Hlen : length (line (tt_cons t)) = S (length (removelast (line (tt_cons t))))).
  { rewrite Hlast at 1. rewrite length_app. cbn. lia. }
  eapply wp_mono; [apply IH|].
  - by rewrite Ec1.
  - destruct Ee1 as (_ & _ & -> & _). done.
  - rewrite Ec1, El1. lia.
  - cbn. intros _ c2 t2 (-> & Hk2 & Ea2 & El2 & Ee2). rewrite Ec1 in *. rewrite El1 in Ee2.
    rewrite Hlen, erase_S. split_and!; [done|done|congruence|done|by eapply echoed_app].
Qed.

(** The console after an input character. *)
Definition edited (dump : list Z) (c : Z) (t t' : tty) (wk : list chan) : Prop :=
  cinv (tt_cons t') /\
  exists out, edit dump c (avail (tt_cons t), line (tt_cons t)) = (avail (tt_cons t'), line (tt_cons t'), out) /\
    echoed out (tt_uart t) (tt_uart t') /\
    (avail (tt_cons t') <> avail (tt_cons t) -> CH_cons_r ∈ wk).

(** An ordinary character, when there is room. *)
Lemma console_store_spec c cx t :
  cinv (tt_cons t) -> ut_panicked (tt_uart t) = false -> 0 <= c < 256 ->
  n_avail (tt_cons t) + n_line (tt_cons t) < INPUT_BUF_SIZE ->
  wp (consputc c ;;
      modify (set_cons (put_e (u8 c))) ;;
      k <- gets tt_cons ;;
      when (c =? NL) || (c =? CTRL_D) || (u32 (cons_e k - cons_r k) =? INPUT_BUF_SIZE) do (
        modify (set_cons (fun k => set_w (cons_e k) k)) ;;
        wakeup CH_cons_r)) cx t (fun _ c' t' =>
    held c' = held cx /\ mypid c' = mypid cx /\ cinv (tt_cons t') /\ echoed [c] (tt_uart t) (tt_uart t') /\
    (avail (tt_cons t'), line (tt_cons t')) =
      (if (c =? NL) || (c =? CTRL_D) || (n_avail (tt_cons t) + n_line (tt_cons t) + 1 =? INPUT_BUF_SIZE)
       then (avail (tt_cons t) ++ line (tt_cons t) ++ [c], []) else (avail (tt_cons t), line (tt_cons t) ++ [c])) /\
    (avail (tt_cons t') <> avail (tt_cons t) -> CH_cons_r ∈ wakes c')).
Proof.
  intros Hk Hp Hc Hroom. apply wp_bind. eapply wp_mono; [by apply echoes_char|].
  cbn. intros _ c1 t1 (-> & Ec & Ee). apply wp_bind, wp_modify, wp_bind, wp_gets.
  cbn [set_cons tt_cons tt_uart]. rewrite Ec, u8_small by done.
  destruct (put_spec c _ Hk Hroom) as (Ea & El & Na & Nl & Hk1).
  set (k1 := put_e c (tt_cons t)) in *.
  assert (En : u32 (cons_e k1 - cons_r k1) = n_avail (tt_cons t) + n_line (tt_cons t) + 1).
  { pose proof (n_avail_range k1). pose proof (n_line_range k1).
    assert (0 <= cons_r k1 < 2 ^ 32) by apply Hk. assert (0 <= cons_w k1 < 2 ^ 32) by apply Hk.
    assert (0 <= cons_e k1 < 2 ^ 32) by apply u32_range. clearbody k1. cons_lia. }
  rewrite En. destruct ((c =? NL) || _ || _) eqn:Eb.
  - destruct (commit_line_spec k1) as (Hk2 & Ea2 & El2);
      [subst k1; cbn; rewrite length_setZ; apply Hk|apply Hk|apply u32_range|lia|].
    apply wp_bind, wp_modify, wp_wakeup. cbn [set_cons tt_cons tt_uart held mypid wakes]. rewrite Ec.
    fold k1. split_and!; try done; first [by rewrite Ea2, El2, Ea, El|intros _; by left].
  - apply wp_ret. cbn [set_cons tt_cons tt_uart]. rewrite Ec. fold k1. split_and!; try done.
    + apply Hk1. intros ->. done.
    + by rewrite Ea, El.
Qed.

Lemma consoleintr_spec dump c cx t :
  cinv (tt_cons t) -> ut_panicked (tt_uart t) = false -> 0 <= c < 256 ->
  Forall (fun b => 0 <= b < 256) dump -> LK_cons ∉ held cx ->
  wp (consoleintr dump c) cx t (fun _ c' t' =>
    held c' = held cx /\ mypid c' = mypid cx /\ edited dump c t t' (wakes c')).
Proof.
  intros Hk Hp Hc Hd Hl. unfold consoleintr. apply wp_bind, wp_acquire; [done|].
  assert (Hrel : forall (m : M tty unit),
    wp m (locked LK_cons cx) t (fun _ c' t' => held c' = LK_cons :: held cx /\ mypid c' = mypid cx /\ edited dump c t t' (wakes c')) ->
    wp (m ;; release LK_cons) (locked LK_cons cx) t (fun _ c' t' =>
      held c' = held cx /\ mypid c' = mypid cx /\ edited dump c t t' (wakes c'))).
  { intros m Hm. apply wp_bind. eapply wp_mono; [exact Hm|]. cbn. intros _ c1 t1 (Hh & Hm1 & He).
    eapply (wp_release _ _ cx); done. }
  apply Hrel. clear Hrel. unfold edited, edit.
  destruct (c =? CTRL_P) eqn:E1; [|destruct (c =? CTRL_U) eqn:E2; [|destruct ((c =? CTRL_H) || (c =? DEL)) eqn:E3]].
  - eapply wp_mono; [by apply echoes_dump|]. cbn. intros _ c' t' (-> & Ec & Ee). rewrite Ec.
    split_and!; try done. by exists dump.
  - eapply wp_mono; [apply kill_line_spec; [done|done|]|].
    + pose proof (length_line (tt_cons t)). pose proof (ci_room _ Hk). pose proof (n_avail_range (tt_cons t)). lia.
    + cbn. intros _ c' t' (-> & Hk' & Ea & El & Ee). split_and!; try done. eexists. rewrite Ea, El.
      split_and!; done.
  - apply wp_bind, wp_gets. pose proof (line_empty _ Hk) as He.
    destruct (cons_e (tt_cons t) =? cons_w (tt_cons t)) eqn:E; cbn [negb].
    + apply wp_ret. rewrite (proj1 He eq_refl). split_and!; try done. eexists. split_and!; [done|apply echoed_nil|done].
    + assert (Hne : line (tt_cons t) <> []) by (intros [=]%He).
      destruct (back_spec _ Hk Hne) as (Hk1 & Ea1 & El1).
      apply wp_bind, wp_modify. eapply wp_mono; [by apply echoes_backspace|].
      cbn. intros _ c' t' (-> & Ec & Ee). cbn in Ec, Ee. rewrite Ec, Ea1, El1. split_and!; try done.
      destruct (line (tt_cons t)); [done|]. eexists. split_and!; [done|exact Ee|done].
  - apply wp_bind, wp_gets.
    assert (En : u32 (cons_e (tt_cons t) - cons_r (tt_cons t)) = n_avail (tt_cons t) + n_line (tt_cons t)).
    { pose proof (ci_room _ Hk). destruct Hk as [_ ? ? ? _ _]. cons_lia. }
    pose proof (length_line (tt_cons t)) as Ll. pose proof (length_avail (tt_cons t)) as La.
    rewrite En, Nat2Z.inj_add, La, Ll, length_app, Nat2Z.inj_add, La. cbn [length].
    destruct (c =? 0) eqn:E0; cbn [negb andb orb].
    { apply wp_ret. split_and!; try done. eexists. split_and!; [done|apply echoed_nil|done]. }
    destruct (Z.leb_spec INPUT_BUF_SIZE (n_avail (tt_cons t) + n_line (tt_cons t))) as [Hfull|Hroom].
    { rewrite (proj2 (Z.ltb_ge _ _)) by lia. apply wp_ret. split_and!; try done.
      eexists. split_and!; [done|apply echoed_nil|done]. }
    rewrite (proj2 (Z.ltb_lt _ _)) by lia. set (c' := if c =? CR then NL else c).
    assert (Hc' : 0 <= c' < 256) by (subst c'; destruct (c =? CR); [done|done]).
    eapply wp_mono; [by apply (console_store_spec c')|].
    cbn. intros _ c2 t2 (Hh & Hm & Hk2 & Ee & Est & Hw). split_and!; try done. exists [c']. split_and!; [|done|done].
    rewrite Nat2Z.inj_add, Ll, Z.add_assoc. rewrite Est. by destruct ((c' =? NL) || _ || _).
Qed.

(** ** Reading a line *)

(** What a read of [n] characters takes from the available input: the characters, the
    input left, and whether the read is complete. *)
Fixpoint read_line (av : list Z) (n target : Z) : list Z * list Z * bool :=
  if n <=? 0 then ([], av, true)
  else
    match av with
    | [] => ([], [], false)
    | c :: av' =>
        if c =? CTRL_D then ([], (if n <? target then av else av'), true)
        else if c =? NL then ([c], av', true)
        else let '(l, rest, fin) := read_line av' (n - 1) target in (c :: l, rest, fin)
    end.

Lemma avail_empty k : cinv k -> (cons_r k =? cons_w k) = true <-> avail k = [].
Proof.
  intros [_ ? ? _ _ _]. rewrite <- length_zero_iff_nil, Z.eqb_eq.
  pose proof (length_avail k) as El. rewrite <- Nat2Z.inj_iff, El. cons_lia.
Qed.

Lemma take_char_spec k :
  cinv k -> avail k <> [] ->
  let k' := set_r (u32 (cons_r k + 1)) k in
  cinv k' /\ avail k = in_buf k (cons_r k) :: avail k' /\ line k' = line k /\
  set_r (u32 (cons_r k' - 1)) k' = k.
Proof.
  intros Hk Hne k'. pose proof (length_avail k) as Hl.
  assert (0 < n_avail k) by (destruct (avail k); cbn in Hl; [done|lia]).
  destruct Hk as [? Hr ? ? Hroom Hn].
  assert (En : n_avail k' = n_avail k - 1) by (subst k'; cons_lia).
  split_and!.
  - split; [done|apply u32_range|done|done| |done]. change (n_line k') with (n_line k). lia.
  - unfold avail. rewrite En, seg_cons by (done || lia). f_equal. apply seg_congr; [done|].
    subst k'. cons_lia.
  - done.
  - destruct k as [b r w e]. subst k'. unfold set_r. cbn in *. f_equal. clear -Hr. cons_lia.
Qed.

Section reading.
Context {U : Type} `{UserMemLaws U}.
Implicit Types (s : cst U) (u : U).

(** User memory after [l] has been stored at [dst]. *)
Definition stored (u u' : U) (dst : Z) (l : list Z) : Prop :=
  um_inv u' /\ um_is_killed u' = um_is_killed u /\
  forall a, um_byte u' a = if decide (dst <= a < dst + Z.of_nat (length l)) then l !! Z.to_nat (a - dst) else um_byte u a.

Lemma stored_nil u dst : um_inv u -> stored u u dst [].
Proof. intros Hu. split_and!; try done. intros a. rewrite decide_False by (cbn; lia). done. Qed.

Lemma stored_cons u u1 u2 dst x l :
  um_is_killed u1 = um_is_killed u ->
  (forall a, um_byte u1 a = if decide (a = dst) then Some x else um_byte u a) ->
  stored u1 u2 (dst + 1) l -> stored u u2 dst (x :: l).
Proof.
  intros Hk1 H1 (Hi & Hk2 & H2). split_and!; [done|congruence|]. intros a. rewrite H2, H1. cbn [length].
  destruct (decide (a = dst)) as [->|Hne].
  - rewrite decide_False, decide_True by lia. by rewrite Z.sub_diag.
  - repeat case_decide; try lia; [|done].
    replace (Z.to_nat (a - dst)) with (S (Z.to_nat (a - (dst + 1)))) by lia. done.
Qed.

Lemma read_line_0 av n target : n <= 0 -> read_line av n target = ([], av, true).
Proof. intros Hn. destruct av; cbn; by rewrite (proj2 (Z.leb_le n 0) Hn). Qed.
Lemma read_line_nil n target : 0 < n -> read_line [] n target = ([], [], false).
Proof. intros Hn. cbn. by rewrite (proj2 (Z.leb_gt n 0) Hn). Qed.
Lemma read_line_cons x av n target : 0 < n ->
  read_line (x :: av) n target =
    if x =? CTRL_D then ([], (if n <? target then x :: av else av), true)
    else if x =? NL then ([x], av, true)
    else let '(l, rest, fin) := read_line av (n - 1) target in (x :: l, rest, fin).
Proof. intros Hn. cbn. by rewrite (proj2 (Z.leb_gt n 0) Hn). Qed.

Lemma wp_ttyop f c s (Q : unit -> ctx -> cst U -> Prop) :
  Q tt c (Cst (f (ct_tty s)) (ct_usr s)) -> wp (ttyop (modify f)) c s Q.
Proof. intros HQ. by eexists tt, c, _. Qed.

Lemma wp_unlock {A} (out : A) c hs s (Q : A -> ctx -> cst U -> Prop) :
  held c = LK_cons :: hs -> LK_cons ∉ hs -> Q out (Ctx hs (wakes c) (mypid c)) s ->
  wp (release LK_cons ;; ret out) c s Q.
Proof.
  intros Hh Hl HQ. apply wp_bind, wp_release with (Ctx hs [] 0); [done|done|]. by apply wp_ret.
Qed.

(** What [consoleread] has done when it returns or sleeps, with [l] read before. *)
Definition did_read (t t' : tty) (u u' : U) (dst n target : Z) (out : outcome) : Prop :=
  let '(l, rest, fin) := read_line (avail (tt_cons t)) n target in
  cinv (tt_cons t') /\ tt_uart t' = tt_uart t /\
  avail (tt_cons t') = rest /\ line (tt_cons t') = line (tt_cons t) /\ stored u u' dst l /\
  let done := target - n + Z.of_nat (length l) in
  out = if fin then Done done else if um_is_killed u then Done (-1) else Asleep CH_cons_r done.

Lemma consoleread_loop_spec fuel dst n target c hs s :
  n <= Z.of_nat fuel -> cinv (tt_cons (ct_tty s)) -> um_inv (ct_usr s) -> um_free c ->
  held c = LK_cons :: hs -> LK_cons ∉ hs ->
  0 <= dst -> dst + Z.max 0 n < 2 ^ 64 -> Forall (fun b => 0 <= b < 256) (avail (tt_cons (ct_tty s))) ->
  (forall a, dst <= a < dst + n -> is_Some (um_byte (ct_usr s) a)) ->
  wp (consoleread_loop fuel dst n target) c s (fun out c' s' =>
    held c' = hs /\ mypid c' = mypid c /\
    did_read (ct_tty s) (ct_tty s') (ct_usr s) (ct_usr s') dst n target out).
Proof.
  revert dst n s. induction fuel as [|f IH]; intros dst n s Hf Hk Hu Hfr Hh Hnh Hd Hd2 Hby Hmap;
    cbn [consoleread_loop]; unfold did_read.
  all: destruct (Z.leb_spec n 0) as [Hn|Hn]; [|try lia].
  1,2: apply (wp_unlock _ _ hs); [done..|]; split_and!; [done..|];
    rewrite read_line_0 by done; split_and!; [done..|by apply stored_nil|cbn; f_equal; lia].
  apply wp_bind, wp_gets. set (t := ct_tty s) in *. set (k := tt_cons t) in *.
  destruct (cons_r k =? cons_w k) eqn:He.
  { apply avail_empty in He as Hav; [|done].
    apply wp_bind. eexists _, c, s. split.
    { unfold cusr, zoom. rewrite um_killed_ok by done. by destruct s. }
    apply (wp_unlock _ _ hs); [done..|]. split_and!; [done..|].
    rewrite Hav, read_line_nil by done. split_and!; [done..|by apply stored_nil|].
    cbn [length]. rewrite Z.add_0_r. by destruct (um_is_killed _). }
  assert (Hne : avail k <> []) by (intros E%avail_empty; [congruence|done]).
  destruct (take_char_spec k Hk Hne) as (Hk' & Ea & El & Er).
  apply wp_bind, wp_ttyop. fold t. set (k' := set_r (u32 (cons_r k + 1)) k) in *.
  set (x := in_buf k (cons_r k)) in *. rewrite Ea, read_line_cons by done.
  destruct (x =? CTRL_D) eqn:Hx.
  { apply wp_bind. destruct (n <? target) eqn:Hnt; [apply wp_ttyop|apply wp_ret].
    all: apply (wp_unlock _ _ hs); [done..|]; do 2 (split; [done|]); cbn; fold t; cbn; fold k k'.
    - change (set_r (u32 (u32 (cons_r k + 1) - 1)) k') with (set_r (u32 (cons_r k' - 1)) k').
      rewrite Er. split_and!; try done; [by apply stored_nil|f_equal; lia].
    - split_and!; try done; [by apply stored_nil|f_equal; lia]. }
  rewrite Ea in Hby. apply Forall_cons in Hby as [Hxb Hby].
  pose proof (um_copyout_ok c (ct_usr s) dst x Hu Hd Hxb) as Hco.
  destruct (Hmap dst) as [b Hb]; [lia|]. rewrite Hb in Hco.
  destruct Hco as (u' & Hrun & Hinv' & Hkd & Hbytes).
  apply wp_bind. eexists 0, c, (Cst _ u'). split; [unfold cusr, zoom; cbn; by rewrite Hrun|].
  cbn [Z.eqb]. destruct (x =? NL) eqn:Hxn.
  { apply (wp_unlock _ _ hs); [done..|]. do 2 (split; [done|]). cbn. fold t. split_and!; try done.
    - apply (stored_cons _ u'); [done|done|by apply stored_nil].
    - f_equal. lia. }
  rewrite (u64_small (dst + 1)) by lia.
  eapply wp_mono; [apply (IH (dst + 1) (n - 1) (Cst _ u')); try done; cbn; try lia|].
  - intros a Ha. rewrite Hbytes. case_decide; [done|]. apply Hmap. lia.
  - cbn. intros out c' s' (? & ? & Hr). do 2 (split; [done|]). revert Hr.
    unfold did_read. cbn. fold k k'. destruct (read_line _ _ _) as [[l rest] fin].
    intros (? & ? & ? & ? & Hst & ->). split_and!; try done; [by eapply stored_cons|].
    rewrite Hkd. cbn [length].
    by replace (target - n + Z.of_nat (S (length l))) with (target - (n - 1) + Z.of_nat (length l)) by lia.
Qed.
End reading.

(** ** Properties *)

(** C30: [consoleintr] edits lines: on every character the available input, the line
    being typed and the echo change as the abstract editor [edit] says (erase, kill
    line, store, complete the line at newline, ^D or a full buffer), indices wrapping
    included; the console's invariant is kept, no lock is left held, and readers are
    woken whenever input becomes available. *)
Theorem console_edits_line dump c cx t :
  cinv (tt_cons t) -> ut_panicked (tt_uart t) = false -> 0 <= c < 256 ->
  Forall (fun b => 0 <= b < 256) dump -> LK_cons ∉ held cx ->
  wp (consoleintr dump c) cx t (fun _ c' t' =>
    held c' = held cx /\ mypid c' = mypid cx /\ edited dump c t t' (wakes c')).
Proof. apply consoleintr_spec. Qed.

(** C31: [consoleread] returns a line: with its destination mapped, it takes from the
    available input up to [n] characters, through the first newline or up to a ^D (a ^D
    met after other characters is left for the next read), stores exactly these at
    [dst], in order, and changes no other user byte; when the input runs out first it
    sleeps, or fails if the process has been killed. *)
Theorem consoleread_returns_line {U} `{UserMemLaws U} dst n c (s : cst U) :
  LK_cons ∉ held c -> um_free (locked LK_cons c) -> um_inv (ct_usr s) ->
  cinv (tt_cons (ct_tty s)) -> Forall (fun b => 0 <= b < 256) (avail (tt_cons (ct_tty s))) ->
  0 <= dst -> 0 <= n -> dst + n < 2 ^ 64 ->
  (forall a, dst <= a < dst + n -> is_Some (um_byte (ct_usr s) a)) ->
  wp (consoleread dst n) c s (fun out c' s' =>
    held c' = held c /\ mypid c' = mypid c /\
    did_read (ct_tty s) (ct_tty s') (ct_usr s) (ct_usr s') dst n n out).
Proof.
  intros Hl Hf Hu Hk Hby Hd Hn Hlim Hmap. apply wp_bind, wp_acquire; [done|].
  rewrite Z.sub_0_r, Z.add_0_r, u64_small by lia.
  eapply wp_mono; [apply (consoleread_loop_spec _ dst n n _ (held c)); try done; lia|]. done.
Qed.

(** ** Witnesses *)

(** The typed line "hi", held across the wrap-around of the 32-bit indices, and the
    completed line after it. *)
Definition ex_buf : list Z := <[0%nat := 10]> (<[127%nat := 105]> (<[126%nat := 104]> (replicate 128 0))).
Definition ex_typing : tty := Tty (Cons ex_buf 4294967294 4294967294 0) uart0.
Definition ex_typed : tty := Tty (Cons ex_buf 4294967294 1 1) uart0.

Lemma ex_typing_inv : cinv (tt_cons ex_typing).
Proof.
  split; [done|cbn; lia..|vm_compute; discriminate|].
  apply (bool_decide_unpack _). vm_compute. exact I.
Qed.
Lemma ex_typed_inv : cinv (tt_cons ex_typed).
Proof.
  split; [done|cbn; lia..|vm_compute; discriminate|].
  apply (bool_decide_unpack _). vm_compute. exact I.
Qed.

Lemma console_edits_line_witness :
  line (tt_cons ex_typing) = [104; 105] /\ avail (tt_cons ex_typed) = [104; 105; 10] /\
  wp (consoleintr [] 10) (Ctx [] [] 1) ex_typing (fun _ c' t' =>
    held c' = [] /\ mypid c' = 1 /\ edited [] 10 ex_typing t' (wakes c')).
Proof.
  split; [reflexivity|]. split; [reflexivity|].
  apply (console_edits_line [] 10 (Ctx [] [] 1) ex_typing);
    [apply ex_typing_inv|reflexivity|lia|constructor|apply not_elem_of_nil].
Defined.

#[local] Existing Instance map_mem.
#[local] Existing Instance map_laws.

Definition ex_cst : cst (gmap Z Z) := Cst ex_typed {[100 := 0; 101 := 0; 102 := 0; 103 := 0]}.

Lemma ex_cst_mapped a : 100 <= a < 100 + 4 -> is_Some (um_byte (ct_usr ex_cst) a).
Proof.
  intros Ha. assert (a = 100 \/ a = 101 \/ a = 102 \/ a = 103) as [->|[->|[->| ->]]] by lia;
    by eexists.
Qed.

Lemma consoleread_returns_line_witness :
  wp (consoleread 100 4) (Ctx [] [] 1) ex_cst (fun out c' s' =>
    held c' = [] /\ mypid c' = 1 /\
    did_read ex_typed (ct_tty s') (ct_usr ex_cst) (ct_usr s') 100 4 4 out).
Proof.
  apply (consoleread_returns_line 100 4 (Ctx [] [] 1) ex_cst);
    [apply not_elem_of_nil|exact I|exact I|apply ex_typed_inv| |lia..|apply ex_cst_mapped].
  vm_compute. repeat constructor; discriminate.
Defined.
