(* ===== verification/Printf.v ===== *)
(** * Formatted output: kernel/printf.c

    [printf] writes characters with [consputc].  The arguments are a list of values,
    an integer or a string; [va_arg] takes the first. *)

From S2P Require Import Prelude KMonad Uart Console.

(** ** Numerals

    The loop that both printf.c files fill [buf] with, least significant digit first.
    A [uint] has at most 32 digits, whatever the base. *)
Fixpoint digit_loop (fuel : nat) (digits : list Z) (base x : Z) : list Z :=
  nthZ 0 digits (x mod base) ::
  (if x / base =? 0 then []
   else match fuel with
        | O => []
        | S f => digit_loop f digits base (x / base)
        end).

(** [buf] at the end of [printint], and the characters in the order they are written. *)
Definition printint_buf (digits : list Z) (xx base : Z) (sign : bool) : list Z :=
  let neg := sign && (xx <? 0) in
  let x := u32 (if neg then - xx else xx) in
  digit_loop 31 digits base x ++ (if neg then [chr "-"] else []).

(** The hexadecimal digits of a [uint64], from the top down. *)
Fixpoint ptr_loop (k : nat) (digits : list Z) (x : Z) : list Z :=
  match k with
  | O => []
  | S k' => nthZ 0 digits (Z.shiftr x 60) :: ptr_loop k' digits (u64 (Z.shiftl x 4))
  end.

(** ** The kernel's printf *)

Inductive arg := AInt (x : Z) | AStr (s : option (list Z)).

Definition digits : list Z := str "0123456789abcdef".

(** [pr.locking] and the console. *)
Record prst := Pr { pr_locking : bool; pr_tty : tty }.

Definition cputc (c : Z) : M prst unit := zoom pr_tty (fun t s => Pr (pr_locking s) t) (consputc c).
Definition cputs (l : list Z) : M prst unit := mfor l cputc.

Definition printint (xx base : Z) (sign : bool) : M prst unit :=
  cputs (reverse (printint_buf digits xx base sign)).

Definition printptr (x : Z) : M prst unit :=
  cputc (chr "0") ;;
  cputc (chr "x") ;;
  cputs (ptr_loop 16 digits x).

(** Reading an argument that is not there is undefined in C. *)
Definition no_arg {A} : M prst A := panic "va_arg".

Fixpoint printf_loop (fmt : list Z) (ap : list arg) : M prst unit :=
  match fmt with
  | [] => ret tt
  | c :: fmt' =>
      if negb (c =? chr "%") then cputc c ;; printf_loop fmt' ap
      else
        match fmt' with
        | [] => ret tt
        | c :: fmt'' =>
            if c =? chr "d" then
              match ap with
              | AInt x :: ap' => printint (s32 x) 10 true ;; printf_loop fmt'' ap'
              | _ => no_arg
              end
            else if c =? chr "x" then
              match ap with
              | AInt x :: ap' => printint (s32 x) 16 true ;; printf_loop fmt'' ap'
              | _ => no_arg
              end
            else if c =? chr "p" then
              match ap with
              | AInt x :: ap' => printptr (u64 x) ;; printf_loop fmt'' ap'
              | _ => no_arg
              end
            else if c =? chr "s" then
              match ap with
              | AStr s :: ap' => cputs (default (str "(null)") s) ;; printf_loop fmt'' ap'
              | _ => no_arg
              end
            else if c =? chr "%" then cputc (chr "%") ;; printf_loop fmt'' ap
            else (* Print unknown % sequence to draw attention. *)
              cputc (chr "%") ;; cputc c ;; printf_loop fmt'' ap
        end
  end.

Definition printf (fmt : option (list Z)) (ap : list arg) : M prst unit :=
  locking <- gets pr_locking ;;
  (when (locking : bool) do acquire LK_pr) ;;
  match fmt with
  | None => panic "null fmt"
  | Some fmt => printf_loop fmt ap
  end ;;
  when (locking : bool) do release LK_pr.

Definition set_panicked (t : tty) : tty :=
  let u := tt_uart t in
  Tty (tt_cons t) (Uart (uart_tx_buf u) (uart_tx_w u) (uart_tx_r u) true (hw_rx u) (hw_room u) (hw_out u) (hw_ctl u)).

(** What [panic] prints before it stops: [panicked] then freezes the uart. *)
Definition panic_print (s : list Z) : M prst unit :=
  modify (fun x => Pr false (pr_tty x)) ;;
  printf (Some (str "panic: ")) [] ;;
  printf (Some s) [] ;;
  printf (Some [10]) [] ;;
  modify (fun x => Pr (pr_locking x) (set_panicked (pr_tty x))).

Definition printfinit : M prst unit := modify (fun x => Pr true (pr_tty x)).

(** ** Reading numerals back *)

Definition digit_of (digits : list Z) (c : Z) : option Z := (Z.of_nat ∘ fst) <$> list_find (eq c) digits.

Fixpoint horner (digits : list Z) (base : Z) (l : list Z) (acc : Z) : option Z :=
  match l with
  | [] => Some acc
  | c :: l' => d ← digit_of digits c; horner digits base l' (acc * base + d)
  end.

(** The number that a numeral with an optional minus sign denotes. *)
Definition numeral (digits : list Z) (base : Z) (l : list Z) : option Z :=
  match l with
  | c :: l' => if c =? chr "-" then Z.opp <$> horner digits base l' 0 else horner digits base l 0
  | [] => None
  end.

Section numerals.
Variables (digits : list Z) (base : Z).
Hypothesis digits_distinct : NoDup digits.
Hypothesis digits_enough : 2 <= base <= Z.of_nat (length digits).

Lemma digit_of_nth d : 0 <= d < base -> digit_of digits (nthZ 0 digits d) = Some d.
Proof.
  intros Hd. unfold digit_of. assert (Hl := lookup_nthZ 0 digits d ltac:(lia)).
  assert (list_find (eq (nthZ 0 digits d)) digits = Some (Z.to_nat d, nthZ 0 digits d)) as ->.
  { apply list_find_Some. split_and!; [done|done|]. intros j y Hj Hlt <-.
    pose proof (NoDup_lookup _ _ _ _ digits_distinct Hj Hl). lia. }
  cbn. f_equal. lia.
Qed.

Lemma horner_app l1 l2 acc :
  horner digits base (l1 ++ l2) acc = horner digits base l1 acc ≫= horner digits base l2.
Proof.
  revert acc. induction l1 as [|c l1 IH]; intros acc; cbn; [done|].
  destruct (digit_of digits c); cbn; [apply IH|done].
Qed.

Lemma digit_loop_value fuel x :
  0 <= x < base ^ Z.of_nat (S fuel) ->
  horner digits base (reverse (digit_loop fuel digits base x)) 0 = Some x.
Proof.
  revert x. induction fuel as [|f IH]; intros x Hx; cbn [digit_loop].
  all: pose proof (Z.mod_pos_bound x base ltac:(lia)) as Hm; pose proof (Z.div_mod x base ltac:(lia)) as Hdm.
  - rewrite Z.pow_1_r in Hx. rewrite (Z.div_small x base), Z.mod_small by lia. cbn.
    rewrite digit_of_nth by lia. done.
  - destruct (Z.eqb_spec (x / base) 0) as [E|E].
    { cbn. rewrite digit_of_nth by done. cbn. f_equal. lia. }
    rewrite reverse_cons, horner_app, IH.
    + cbn. rewrite digit_of_nth by done. cbn. f_equal. lia.
    + split; [apply Z.div_pos; lia|]. apply Z.div_lt_upper_bound; [lia|].
      rewrite (Nat2Z.inj_succ (S f)), Z.pow_succ_r in Hx by lia. lia.
Qed.

Lemma digit_loop_length fuel x k :
  0 <= x < base ^ Z.of_nat (S k) -> (length (digit_loop fuel digits base x) <= S k)%nat.
Proof.
  revert x k. induction fuel as [|f IH]; intros x k Hx; cbn [digit_loop length].
  - destruct (x / base =? 0); cbn; lia.
  - destruct (Z.eqb_spec (x / base) 0) as [E|E]; [cbn; lia|].
    destruct k as [|k]; [rewrite Z.pow_1_r in Hx; by rewrite Z.div_small in E|].
    apply le_n_S, IH. split; [apply Z.div_pos; lia|]. apply Z.div_lt_upper_bound; [lia|].
    rewrite (Nat2Z.inj_succ (S k)), Z.pow_succ_r in Hx by lia. lia.
Qed.
End numerals.

Section round_trips.
Variables (digits : list Z) (base : Z).
Hypothesis digits_distinct : NoDup digits.
Hypothesis digits_enough : 2 <= base <= Z.of_nat (length digits).
Hypothesis digits_no_minus : chr "-" ∉ digits.

Lemma digit_loop_digits fuel x : Forall (fun c => c ∈ digits) (digit_loop fuel digits base x).
Proof.
  revert x. induction fuel as [|f IH]; intros x; cbn [digit_loop].
  all: assert (nthZ 0 digits (x mod base) ∈ digits) by
    (apply nthZ_elem; pose proof (Z.mod_pos_bound x base); lia).
  all: destruct (x / base =? 0); repeat constructor; auto.
Qed.

Lemma digit_loop_nonempty fuel x : digit_loop fuel digits base x <> [].
Proof. by destruct fuel. Qed.

(** [printint] writes the numeral of its argument. *)
Lemma printint_buf_value xx sign :
  - 2 ^ 31 <= xx < 2 ^ 31 ->
  numeral digits base (reverse (printint_buf digits xx base sign)) =
    Some (if sign then xx else u32 xx).
Proof.
  intros Hx. unfold printint_buf.
  assert (Hlim : 2 ^ 32 <= base ^ Z.of_nat 32) by (apply Z.pow_le_mono_l; lia).
  set (v := u32 _).
  assert (Hv : 0 <= v < base ^ Z.of_nat 32) by (pose proof (u32_range (if sign && (xx <? 0) then - xx else xx)); lia).
  pose proof (digit_loop_value digits base digits_distinct digits_enough 31 v Hv) as Hval.
  destruct (sign && (xx <? 0)) eqn:Es.
  - bool_spec. rewrite reverse_snoc. unfold numeral. rewrite Z.eqb_refl, Hval.
    destruct sign; [|done]. cbn. f_equal. subst v. rewrite u32_small; lia.
  - rewrite app_nil_r. destruct (reverse _) as [|c l] eqn:Er.
    + apply (f_equal reverse) in Er. rewrite reverse_involutive in Er. by apply digit_loop_nonempty in Er.
    + unfold numeral. assert (Hc : c ∈ digits).
      { pose proof (digit_loop_digits 31 v) as HF. rewrite <- Forall_reverse, Er in HF. by inversion HF. }
      destruct (Z.eqb_spec c (chr "-")) as [->|_]; [done|]. rewrite Hval. f_equal. subst v.
      destruct sign; [|done]. cbn in Es. bool_spec. apply u32_small. lia.
Qed.

(** It needs no more than the sixteen characters of [buf]. *)
Lemma printint_buf_length xx sign :
  10 <= base -> (length (printint_buf digits xx base sign) <= 11)%nat.
Proof.
  intros Hb. unfold printint_buf. rewrite length_app.
  set (v := u32 _). assert (0 <= v < base ^ Z.of_nat 10).
  { pose proof (u32_range (if sign && (xx <? 0) then - xx else xx)). subst v.
    pose proof (Z.pow_le_mono_l 10 base 10 ltac:(lia)). lia. }
  pose proof (digit_loop_length digits base digits_enough 31 v 9 ltac:(done)).
  destruct (sign && (xx <? 0)); cbn [length]; lia.
Qed.

Lemma ptr_loop_value k x acc :
  16 <= Z.of_nat (length digits) -> base = 16 -> (k <= 16)%nat -> 0 <= x < 2 ^ 64 ->
  horner digits base (ptr_loop k digits x) acc =
    Some (acc * 16 ^ Z.of_nat k + x / 2 ^ (64 - 4 * Z.of_nat k)).
Proof.
  intros Hl Hb. revert x acc. induction k as [|k IH]; intros x acc Hk Hx; cbn [ptr_loop horner].
  { rewrite Z.div_small by (cbn; lia). f_equal. lia. }
  assert (Ed : Z.shiftr x 60 = x / 2 ^ 60) by (by rewrite Z.shiftr_div_pow2).
  assert (Hd : 0 <= x / 2 ^ 60 < 16) by (split; [apply Z.div_pos; lia|apply Z.div_lt_upper_bound; lia]).
  rewrite Ed, (digit_of_nth digits base) by (done || lia). cbn [mbind option_bind].
  rewrite IH by (lia || apply u64_range). f_equal. rewrite Hb.
  assert (Er : u64 (Z.shiftl x 4) = 16 * (x mod 2 ^ 60)).
  { rewrite Z.shiftl_mul_pow2 by lia. unfold u64. change (2 ^ 64) with (2 ^ 60 * 2 ^ 4).
    rewrite Z.mul_mod_distr_r by lia. lia. }
  rewrite Er. replace (64 - 4 * Z.of_nat k) with (4 + (60 - 4 * Z.of_nat k)) by lia.
  rewrite Z.pow_add_r by lia. change (2 ^ 4) with 16. rewrite Z.div_mul_cancel_l by (try apply Z.pow_nonzero; lia).
  replace (64 - 4 * Z.of_nat (S k)) with (60 - 4 * Z.of_nat k) by lia.
  rewrite (Z.div_mod x (2 ^ 60)) at 3 by lia.
  replace (2 ^ 60) with (2 ^ (4 * Z.of_nat k) * 2 ^ (60 - 4 * Z.of_nat k)) at 3
    by (rewrite <- Z.pow_add_r by lia; f_equal; lia).
  rewrite (Z.mul_comm (_ * _) (x / _)), Z.mul_assoc, Z.div_add_l by (apply Z.pow_nonzero; lia).
  rewrite Nat2Z.inj_succ, Z.pow_succ_r by lia. rewrite (Z.pow_mul_r 2 4) by lia. change (2 ^ 4) with 16. lia.
Qed.
End round_trips.

(** ** What printf writes *)

(** The text of a format and its arguments; [None] when an argument is missing. *)
Fixpoint formatted (fmt : list Z) (ap : list arg) : option (list Z) :=
  match fmt with
  | [] => Some []
  | c :: fmt' =>
      if c =? chr "%" then
        match fmt' with
        | [] => Some []
        | c :: fmt'' =>
            if c =? chr "d" then
              if ap is AInt x :: ap' then app (reverse (printint_buf digits (s32 x) 10 true)) <$> formatted fmt'' ap' else None
            else if c =? chr "x" then
              if ap is AInt x :: ap' then app (reverse (printint_buf digits (s32 x) 16 true)) <$> formatted fmt'' ap' else None
            else if c =? chr "p" then
              if ap is AInt x :: ap' then app (str "0x" ++ ptr_loop 16 digits (u64 x)) <$> formatted fmt'' ap' else None
            else if c =? chr "s" then
              if ap is AStr s :: ap' then app (default (str "(null)") s) <$> formatted fmt'' ap' else None
            else if c =? chr "%" then app [c] <$> formatted fmt'' ap
            else app [chr "%"; c] <$> formatted fmt'' ap
        end
      else app [c] <$> formatted fmt' ap
  end.

Definition chars (l : list Z) : Prop := Forall (fun c => 0 <= c < 256) l.
Definition arg_ok (a : arg) : Prop := match a with AStr (Some s) => chars s | _ => True end.

(** An operation that writes [l] and does nothing else. *)
Definition prints {A} (m : M prst A) (l : list Z) : Prop := forall c s,
  ut_panicked (tt_uart (pr_tty s)) = false ->
  wp m c s (fun _ c' s' => c' = c /\ pr_locking s' = pr_locking s /\
    tt_cons (pr_tty s') = tt_cons (pr_tty s) /\ echoed l (tt_uart (pr_tty s)) (tt_uart (pr_tty s'))).

Lemma prints_ret : prints (ret tt) [].
Proof. intros c s Hp. apply wp_ret. split_and!; try done. apply echoed_nil. Qed.

Lemma prints_bind {A B} (m : M prst A) (k : M prst B) l1 l2 :
  prints m l1 -> prints k l2 -> prints (m ;; k) (l1 ++ l2).
Proof.
  intros Hm Hk c s Hp. apply wp_bind. eapply wp_mono; [by apply Hm|].
  cbn. intros _ c1 s1 (-> & El & Ec & E1).
  eapply wp_mono; [apply Hk; destruct E1 as (_ & _ & -> & _); done|].
  cbn. intros _ c2 s2 (-> & El2 & Ec2 & E2). split_and!; [done|congruence|congruence|by eapply echoed_app].
Qed.

Lemma prints_cputc ch : 0 <= ch < 256 -> prints (cputc ch) [ch].
Proof.
  intros Hc c s Hp. destruct (echoes_char ch Hc c (pr_tty s) Hp) as ([] & c' & t' & Hrun & -> & Ec & Ee).
  exists tt, c, (Pr (pr_locking s) t'). split; [|done]. unfold cputc, zoom. by rewrite Hrun.
Qed.

Lemma prints_cputs l : chars l -> prints (cputs l) l.
Proof.
  induction 1 as [|ch l Hc Hl IH]; [apply prints_ret|].
  apply (prints_bind _ _ [ch]); [by apply prints_cputc|apply IH].
Qed.

Lemma digits_chars x l : x ∈ l -> chars l -> 0 <= x < 256.
Proof. intros Hx Hl. by eapply (proj1 (Forall_forall _ _)) in Hl. Qed.

Lemma chars_digits : chars digits.
Proof. apply str_range. Qed.

Lemma nthZ_chars tbl i : chars tbl -> 0 <= nthZ 0 tbl i < 256.
Proof.
  intros Ht. unfold nthZ. destruct (nth_in_or_default (Z.to_nat i) tbl 0) as [Hin| ->]; [|lia].
  apply list_elem_of_In in Hin. by eapply digits_chars.
Qed.

Lemma chars_printint_buf tbl xx base sign : chars tbl -> chars (reverse (printint_buf tbl xx base sign)).
Proof.
  intros Ht. unfold chars. rewrite Forall_reverse. unfold printint_buf. apply Forall_app_2.
  - generalize (u32 (if sign && (xx <? 0) then - xx else xx)). generalize 31%nat.
    intros f. induction f as [|f IH]; intros x; cbn [digit_loop].
    all: destruct (x / base =? 0); constructor; try (by apply nthZ_chars); constructor || apply IH.
  - destruct (sign && (xx <? 0)); [|constructor]. constructor; [apply chr_range|constructor].
Qed.

Lemma chars_ptr_loop tbl k x : chars tbl -> chars (ptr_loop k tbl x).
Proof.
  intros Ht. revert x. induction k as [|k IH]; intros x; cbn; [constructor|].
  constructor; [by apply nthZ_chars|apply IH].
Qed.

Lemma printf_loop_prints fmt ap out :
  chars fmt -> Forall arg_ok ap -> formatted fmt ap = Some out -> prints (printf_loop fmt ap) out.
Proof.
  remember (length fmt) as n eqn:Hn. assert (Hle : (length fmt <= n)%nat) by lia. clear Hn.
  revert fmt ap out Hle. induction n as [|n IH]; intros [|c fmt] ap out Hle Hf Ha; cbn [length] in Hle; try lia.
  all: cbn [formatted printf_loop]; try (intros [= <-]; apply prints_ret).
  apply Forall_cons in Hf as [Hc Hf]. destruct (c =? chr "%") eqn:Ec; cbn [negb].
  2: { intros (o & Ho & ->)%fmap_Some. apply (prints_bind _ _ [c]); [by apply prints_cputc|]. apply IH; auto; lia. }
  destruct fmt as [|d fmt]; [intros [= <-]; apply prints_ret|]. cbn [length] in Hle.
  apply Forall_cons in Hf as [Hd Hf].
  repeat match goal with |- context [d =? ?x] => destruct (d =? x) eqn:? end.
  all: try (destruct ap as [|[x|s] ap]; try discriminate; apply Forall_cons in Ha as [Hs Ha]).
  all: intros (o & Ho & ->)%fmap_Some.
  all: try (bool_spec; subst d).
  - apply prints_bind; [apply prints_cputs, chars_printint_buf, chars_digits|apply IH; auto; lia].
  - apply prints_bind; [apply prints_cputs, chars_printint_buf, chars_digits|apply IH; auto; lia].
  - apply prints_bind; [|apply IH; auto; lia].
    repeat (apply (prints_bind _ _ [_]); [apply prints_cputc, chr_range|]). apply prints_cputs, chars_ptr_loop, chars_digits.
  - apply prints_bind; [apply prints_cputs|apply IH; auto; lia].
    destruct s; [exact Hs|]. apply str_range.
  - apply (prints_bind _ _ [_]); [by apply prints_cputc|apply IH; auto; lia].
  - apply (prints_bind _ _ [_] (d :: o)); [by apply prints_cputc|].
    apply (prints_bind _ _ [_]); [by apply prints_cputc|apply IH; auto; lia].
Qed.

(** ** Properties *)

(** The digits of user/printf.c. *)
Definition DIGITS : list Z := str "0123456789ABCDEF".

(** [printint] and [printptr] write the number they are given: for the two bases
    printf uses, with the digits of either printf.c, the characters written denote the
    argument (as a signed or an unsigned number), the local buffer of sixteen
    characters is not overrun, also for the most negative [int], and the sixteen
    digits of a pointer denote it. *)
Theorem printint_roundtrip tbl base xx sign x :
  tbl ∈ [digits; DIGITS] -> base ∈ [10; 16] -> - 2 ^ 31 <= xx < 2 ^ 31 -> 0 <= x < 2 ^ 64 ->
  numeral tbl base (reverse (printint_buf tbl xx base sign)) = Some (if sign then xx else u32 xx) /\
  (length (printint_buf tbl xx base sign) <= 16)%nat /\
  horner tbl 16 (ptr_loop 16 tbl x) 0 = Some x.
Proof.
  intros Ht Hb Hx Hp.
  assert (Hnd : NoDup tbl /\ length tbl = 16%nat /\ chr "-" ∉ tbl).
  { apply list_elem_of_In in Ht. destruct Ht as [<-|[<-|[]]];
      (split_and!; [|done|]); apply (bool_decide_unpack _); vm_compute; exact I. }
  destruct Hnd as (Hnd & Hlen & Hm).
  assert (Hb' : 10 <= base <= 16) by (apply list_elem_of_In in Hb; cbn in Hb; lia).
  split_and!.
  - apply printint_buf_value; try done; lia.
  - pose proof (printint_buf_length tbl base ltac:(lia) xx sign ltac:(lia)). lia.
  - rewrite (ptr_loop_value tbl 16) by (done || lia). f_equal. cbn. apply Z.div_1_r.
Qed.

(** [printf] writes the text of its format and arguments, all of it in one
    piece: from any state in which output is not frozen and [pr.lock] is free it
    returns, with the lock free again, having appended exactly this text to the
    characters the uart has sent. *)
Theorem printf_writes_formatted fmt ap out c s :
  chars fmt -> Forall arg_ok ap -> formatted fmt ap = Some out ->
  ut_panicked (tt_uart (pr_tty s)) = false -> LK_pr ∉ held c ->
  wp (printf (Some fmt) ap) c s (fun _ c' s' =>
    held c' = held c /\ mypid c' = mypid c /\ pr_locking s' = pr_locking s /\
    tt_cons (pr_tty s') = tt_cons (pr_tty s) /\ echoed out (tt_uart (pr_tty s)) (tt_uart (pr_tty s'))).
Proof.
  intros Hf Ha Ho Hp Hl. pose proof (printf_loop_prints _ _ _ Hf Ha Ho) as Hpr.
  apply wp_bind, wp_gets. destruct (pr_locking s) eqn:El.
  - apply wp_bind, wp_acquire; [done|]. apply wp_bind. eapply wp_mono; [by apply Hpr|].
    cbn. intros _ c' s' (-> & El' & Ec & Ee). eapply (wp_release _ _ c); [done|done|].
    split_and!; try done. congruence.
  - apply wp_bind, wp_ret, wp_bind. eapply wp_mono; [by apply Hpr|].
    cbn. intros _ c' s' (-> & El' & Ec & Ee). apply wp_ret. split_and!; try done. congruence.
Qed.

(** ** Witnesses *)

Lemma printint_roundtrip_witness :
  reverse (printint_buf digits (- 2 ^ 31) 10 true) = str "-2147483648" /\
  numeral digits 10 (reverse (printint_buf digits (- 2 ^ 31) 10 true)) = Some (- 2 ^ 31) /\
  (length (printint_buf digits (- 2 ^ 31) 10 true) <= 16)%nat /\
  horner digits 16 (ptr_loop 16 digits 2147487744) 0 = Some 2147487744.
Proof.
  split; [reflexivity|].
  apply (printint_roundtrip digits 10 (- 2 ^ 31) true 2147487744); [by left|by left|lia|lia].
Defined.

Definition ex_prst : prst := Pr true (Tty (Cons (replicate 128 0) 0 0 0) uart0).

Lemma printf_writes_formatted_witness :
  wp (printf (Some (str "hart %d %s%%")) [AInt 3; AStr (Some (str "up"))]) (Ctx [] [] 0) ex_prst
    (fun _ c' s' => held c' = [] /\ mypid c' = 0 /\ pr_locking s' = true /\
      tt_cons (pr_tty s') = tt_cons (pr_tty ex_prst) /\
      echoed (str "hart 3 up%") (tt_uart (pr_tty ex_prst)) (tt_uart (pr_tty s'))).
Proof.
  apply (printf_writes_formatted (str "hart %d %s%%") [AInt 3; AStr (Some (str "up"))] (str "hart 3 up%")
    (Ctx [] [] 0) ex_prst); [apply str_range| |reflexivity|reflexivity|apply not_elem_of_nil].
  apply Forall_cons. split; [exact I|]. apply Forall_cons. split; [apply str_range|constructor].
Defined.
