(* ===== verification/UserVm.v ===== *)
(** * User memory implemented by kernel/vm.c

    The machine and its console, together with the two fields of the running process
    that the copying routines need, [myproc()->pagetable] and [myproc()->killed]. *)

From S2P Require Import Prelude KMonad Riscv Mem Kalloc Vm UserMem Uart Console.

Record umach := Umach { u_mach : mach; u_pagetable : Z; u_killed : bool; u_tty : tty }.

Definition set_mach (m : mach) (u : umach) : umach := Umach m (u_pagetable u) (u_killed u) (u_tty u).
Definition set_tty (t : tty) (u : umach) : umach := Umach (u_mach u) (u_pagetable u) (u_killed u) t.

(** An operation of vm.c or kalloc.c. *)
Definition machop {A} (m : M mach A) : M umach A := zoom u_mach set_mach m.

Section instance.
Context `{KernelImage}.

#[export] Instance vm_usermem : UserMem umach := {|
  um_copyout dstva src := fun c u => machop (copyout (u_pagetable u) dstva src) c u;
  um_copyin srcva len := fun c u => machop (copyin (u_pagetable u) srcva len) c u;
  um_copyinstr srcva max := fun c u => machop (copyinstr (u_pagetable u) srcva max) c u;
  um_killed := gets u_killed;
  um_kalloc := machop kalloc;
  um_kfree pa := machop (kfree pa)
|}.
End instance.
