(* ===== verification/UserSpace.v ===== *)
(** * The memory of a process

    A user page table maps the pages of a process below TRAPFRAME, and above them the
    trapframe and the trampoline, which the program cannot reach.  [uspace] says so of a
    table represented as in PageTable: every page mapped below TRAPFRAME is a page of
    physical memory that nothing else uses.  [ubyte] is the memory the program sees, and
    the theorems describe [copyout], [copyin], [uvmalloc], [uvmdealloc] and [uvmcopy] by
    what they do to it. *)

From S2P Require Import Prelude KMonad Riscv Mem Kalloc Vm PageTable UserMem UserVm.

Section uspace.
Context `{KernelImage}.

(** ** Looking up *)

Lemma walk_lookup root node c s va :
  pt_inv (ram s) root node -> va < MAXVA -> walk root va false c s = Ok (leaf_addr node va) c s.
Proof.
  intros Hi Hva. unfold walk. rewrite (proj2 (Z.leb_gt _ _)) by done.
  assert (Hlev : forall x p level, node x = Some p -> level = 2 - Z.of_nat (length x) -> 0 < level ->
    walk_level level p va false c s = Ok (node (x ++ [PX level va])) c s).
  { intros x p level Hx -> Hl. unfold walk_level, pte_at, bind, gets.
    rewrite (pi_entry _ _ _ Hi x p) by (done || lia || apply PX_range; lia).
    destruct (node (x ++ _)) as [q|] eqn:Hq; [|done].
    pose proof (pi_ok _ _ _ Hi _ _ Hq) as Hqk. pose proof (page_ok_pos _ Hqk).
    destruct (pde_fields q) as (_ & E & Hv); [lia|apply (page_ok_aligned _ Hqk)|].
    unfold valid_pte in Hv. by rewrite Hv, E. }
  unfold bind. rewrite (Hlev [] root 2) by (done || apply Hi). cbn [app]. unfold leaf_addr.
  destruct (node [PX 2 va]) as [p1|] eqn:E1.
  - rewrite (Hlev [PX 2 va] p1 1) by done. cbn [app]. by destruct (node [PX 2 va; PX 1 va]).
  - destruct (node [PX 2 va; PX 1 va]) eqn:E2; [|done].
    apply (pi_child _ _ _ Hi [PX 2 va]) in E2 as [[? ?] _]. congruence.
Qed.

Lemma leaf_addr_0 m root node va : pt_inv m root node -> leaf_addr node va = 0 <-> node [PX 2 va; PX 1 va] = None.
Proof.
  intros Hi. unfold leaf_addr. destruct (node _) as [p|] eqn:E; [|done]. split; [|done].
  pose proof (page_ok_pos _ (pi_ok _ _ _ Hi _ _ E)). pose proof (PX_range 0 va). lia.
Qed.

(** A page that the program may access. *)
Definition user_pte (e : Z) : bool := valid_pte e && negb (Z.land e PTE_U =? 0).

Lemma walkaddr_spec root node c s va :
  pt_inv (ram s) root node ->
  walkaddr root va c s = Ok (if decide (va < MAXVA) then
    if user_pte (pte_of (ram s) node va) then PTE2PA (pte_of (ram s) node va) else 0 else 0) c s.
Proof.
  intros Hi. unfold walkaddr. destruct (decide (va < MAXVA)) as [Hva|Hva].
  2: { by rewrite (proj2 (Z.leb_le _ _)) by lia. }
  rewrite (proj2 (Z.leb_gt _ _)) by done. unfold bind. rewrite (walk_lookup root node) by done.
  unfold user_pte, pte_of, valid_pte. destruct (leaf_addr node va =? 0) eqn:E0; bool_spec.
  - apply (leaf_addr_0 _ _ _ _ Hi) in E0. rewrite E0. done.
  - unfold leaf_addr in *. destruct (node _) as [p|]; [|done]. unfold pte_at, gets.
    destruct (Z.land _ PTE_V =? 0); [done|]. by destruct (Z.land _ PTE_U =? 0).
Qed.

(** ** The invariant *)

(** The physical address behind a virtual one, and the byte there. *)
Definition upa (m : mem) (node : list Z -> option Z) (va : Z) : option Z :=
  if decide (0 <= va < MAXVA) then
    if user_pte (pte_of m node va) then Some (PTE2PA (pte_of m node va) + va mod PGSIZE) else None
  else None.
Definition ubyte (m : mem) (node : list Z -> option Z) (va : Z) : option Z := rd m <$> upa m node va.

Record uspace (s : mach) (root : Z) (node : list Z -> option Z) (l : list Z) : Prop := {
  us_owns : owns s root node l;
  (** a page mapped below TRAPFRAME is a leaf, and belongs to this process alone *)
  us_leaf va : 0 <= va < TRAPFRAME -> valid_pte (pte_of (ram s) node va) = true ->
    PTE_FLAGS (pte_of (ram s) node va) <> PTE_V /\ page_ok (PTE2PA (pte_of (ram s) node va)) /\
    PTE2PA (pte_of (ram s) node va) ∉ l /\ ~ is_node node (PTE2PA (pte_of (ram s) node va));
  us_inj va va' : 0 <= va < TRAPFRAME -> 0 <= va' < TRAPFRAME ->
    valid_pte (pte_of (ram s) node va) = true -> valid_pte (pte_of (ram s) node va') = true ->
    PTE2PA (pte_of (ram s) node va) = PTE2PA (pte_of (ram s) node va') -> pg va = pg va';
  us_high va : TRAPFRAME <= va < MAXVA -> user_pte (pte_of (ram s) node va) = false
}.

Lemma upa_inv s root node l va a :
  uspace s root node l -> upa (ram s) node va = Some a ->
  0 <= va < TRAPFRAME /\ user_pte (pte_of (ram s) node va) = true /\
  pg a = PTE2PA (pte_of (ram s) node va) /\ a mod PGSIZE = va mod PGSIZE /\ page_ok (pg a) /\ pg a ∉ l /\ ~ is_node node (pg a).
Proof.
  intros Hu. unfold upa. destruct (decide (0 <= va < MAXVA)) as [Hr|]; [|done].
  destruct (user_pte _) eqn:Eu; [|done]. intros [= <-].
  assert (Hlow : 0 <= va < TRAPFRAME).
  { destruct (decide (va < TRAPFRAME)); [lia|]. rewrite (us_high _ _ _ _ Hu) in Eu by lia. done. }
  pose proof Eu as Ev. unfold user_pte in Ev. apply andb_true_iff in Ev as [Ev _].
  destruct (us_leaf _ _ _ _ Hu va Hlow Ev) as (_ & Hok & Hnl & Hnn). set (p := PTE2PA _) in *.
  pose proof (page_ok_aligned _ Hok) as Ap.
  assert (E : pg (p + va mod PGSIZE) = p) by (apply pg_in; [done|]; pose proof (Z.mod_pos_bound va PGSIZE); unfold PGSIZE in *; lia).
  rewrite E. split_and!; try done; try lia.
  rewrite <- Zplus_mod_idemp_l, Ap. rewrite Z.add_0_l. by rewrite Z.mod_mod.
Qed.

(** Different virtual addresses are different memory. *)
Lemma upa_inj s root node l va va' a :
  uspace s root node l -> upa (ram s) node va = Some a -> upa (ram s) node va' = Some a -> va = va'.
Proof.
  intros Hu H1 H2. destruct (upa_inv _ _ _ _ _ _ Hu H1) as (Hr1 & U1 & P1 & M1 & _).
  destruct (upa_inv _ _ _ _ _ _ Hu H2) as (Hr2 & U2 & P2 & M2 & _).
  unfold user_pte in U1, U2. apply andb_true_iff in U1 as [V1 _], U2 as [V2 _].
  assert (E : pg va = pg va') by (apply (us_inj _ _ _ _ Hu); [done..|congruence]).
  unfold pg, PGSIZE in *. lia.
Qed.

(** Writing to the pages of the program changes neither the table nor the free list. *)
Lemma uspace_write s root node l m' :
  uspace s root node l ->
  (forall a, (exists va, upa (ram s) node va = Some a) \/ rd m' a = rd (ram s) a) ->
  uspace (Mach m' (freelist s)) root node l /\ forall va, pte_of m' node va = pte_of (ram s) node va.
Proof.
  intros Hu Hm. destruct (us_owns _ _ _ _ Hu) as (Hk & Hi & Hd).
  assert (Hsame : forall a, is_node node (pg a) \/ pg a ∈ l -> rd m' a = rd (ram s) a).
  { intros a Hor. destruct (Hm a) as [(va & Hva)|]; [|done]. destruct (upa_inv _ _ _ _ _ _ Hu Hva) as (_ & _ & _ & _ & _ & ? & ?). tauto. }
  destruct (pt_inv_frame (ram s) m' root node Hi) as [Hi' Hp]; [intros a Ha; by apply Hsame; left|].
  split; [|exact Hp]. split.
  - split_and!; [|exact Hi'|exact Hd]. destruct Hk as (Hc & Hnd & Hok). split_and!; [|done|done]. cbn.
    eapply chain_ext; [|exact Hc]. intros q Hq. apply load64_ext. intros b Hb. symmetry. apply Hsame. right.
    rewrite Forall_forall in Hok. pose proof (page_ok_aligned _ (Hok _ Hq)). rewrite (pg_in q); [done|done|]. unfold PGSIZE. lia.
  - intros va. cbn. rewrite Hp. apply Hu.
  - intros va va'. cbn. rewrite !Hp. apply Hu.
  - intros va. cbn. rewrite Hp. apply Hu.
Qed.

(** ** copyout *)

Lemma rd_wr_bytes l : forall m a b,
  rd (wr_bytes m a l) b = if decide (a <= b < a + Z.of_nat (length l)) then u8 (nthZ 0 l (b - a)) else rd m b.
Proof.
  induction l as [|x l IH]; intros m a b; cbn [wr_bytes length]; [by rewrite decide_False by lia|].
  rewrite IH, rd_wr. destruct (decide (a = b)) as [->|Hne].
  - rewrite decide_False, decide_True, Z.sub_diag by lia. done.
  - destruct (decide (a + 1 <= b < _)), (decide (a <= b < _)); try lia; try done. f_equal. unfold nthZ.
    replace (Z.to_nat (b - a)) with (S (Z.to_nat (b - (a + 1)))) by lia. done.
Qed.

Definition bytes (l : list Z) : Prop := Forall (fun b => 0 <= b < 256) l.

(** The program's memory after [l] has been stored at [va]. *)
Definition stored (m m' : mem) (node : list Z -> option Z) (va : Z) (l : list Z) : Prop :=
  forall a, ubyte m' node a = if decide (va <= a < va + Z.of_nat (length l)) then Some (nthZ 0 l (a - va)) else ubyte m node a.

(** Only memory of the program at [va] .. [va + n] has changed. *)
Definition only_user (m m' : mem) (node : list Z -> option Z) (va n : Z) : Prop :=
  forall a, (exists x, va <= x < va + n /\ upa m node x = Some a) \/ rd m' a = rd m a.

Lemma nthZ_byte l i : bytes l -> 0 <= nthZ 0 l i < 256.
Proof.
  intros Hl. unfold nthZ. destruct (nth_in_or_default (Z.to_nat i) l 0) as [Hin| ->]; [|lia].
  apply list_elem_of_In in Hin. by eapply (proj1 (Forall_forall _ _)) in Hl.
Qed.

Lemma upa_same_page m node va va' a :
  upa m node va = Some a -> pg va = pg va' -> 0 <= va' < MAXVA -> upa m node va' = Some (a + (va' - va)).
Proof.
  unfold upa. destruct (decide (0 <= va < MAXVA)); [|done]. intros Ha Hp Hr. rewrite decide_True by done.
  rewrite <- (pte_of_pg m node va'), <- Hp, pte_of_pg. destruct (user_pte _); [|done]. injection Ha as <-. f_equal.
  unfold pg, PGSIZE in *. lia.
Qed.

Lemma page_in_range va : 0 <= va < MAXVA -> 0 <= pg va /\ pg va + PGSIZE <= MAXVA.
Proof.
  intros Hv. change MAXVA with (67108864 * 4096) in *. unfold pg, PGSIZE. pose proof (Z.div_mod va 4096 ltac:(lia)).
  pose proof (Z.mod_pos_bound va 4096). lia.
Qed.

(** A copy that stays on one page. *)
Lemma page_write s root node l va a src :
  uspace s root node l -> upa (ram s) node va = Some a -> bytes src ->
  va mod PGSIZE + Z.of_nat (length src) <= PGSIZE ->
  let s' := Mach (wr_bytes (ram s) a src) (freelist s) in
  uspace s' root node l /\ (forall x, pte_of (ram s') node x = pte_of (ram s) node x) /\
  stored (ram s) (ram s') node va src /\ only_user (ram s) (ram s') node va (Z.of_nat (length src)) /\
  (forall x, va <= x < va + Z.of_nat (length src) -> is_Some (ubyte (ram s) node x)).
Proof.
  intros Hu Ha Hb Hlen s'. destruct (upa_inv _ _ _ _ _ _ Hu Ha) as (Hr & _).
  assert (Hva : 0 <= va < MAXVA) by (unfold TRAPFRAME, TRAMPOLINE in Hr; plia).
  pose proof (page_in_range va Hva) as [Hlo Hhi].
  assert (Hat : forall x, va <= x < va + Z.of_nat (length src) -> upa (ram s) node x = Some (a + (x - va))).
  { intros x Hx. pose proof (Z.mod_pos_bound va PGSIZE ltac:(done)). apply upa_same_page; [done| |].
    - symmetry. apply pg_in; [apply pg_aligned|]. unfold pg, PGSIZE in *. lia.
    - unfold pg, PGSIZE in *. lia. }
  assert (Honly : only_user (ram s) (ram s') node va (Z.of_nat (length src))).
  { intros b. cbn. rewrite rd_wr_bytes. destruct (decide (a <= b < a + _)) as [Hin|]; [left|by right].
    exists (va + (b - a)). split; [lia|]. rewrite Hat by lia. f_equal. lia. }
  destruct (uspace_write s root node l (ram s') Hu) as [Hu' Hp].
  { intros b. destruct (Honly b) as [(x & _ & Hx)|]; [left; by exists x|by right]. }
  split_and!; [exact Hu'|exact Hp| |exact Honly|intros x Hx; unfold ubyte; rewrite Hat by done; by eexists].
  intros x. unfold ubyte. assert (upa (ram s') node x = upa (ram s) node x) as -> by (unfold upa; by rewrite Hp).
  destruct (decide (va <= x < _)) as [Hx|Hx].
  - rewrite Hat by done. cbn. rewrite rd_wr_bytes, decide_True by lia. f_equal.
    replace (a + (x - va) - a) with (x - va) by lia. by apply u8_small, nthZ_byte.
  - destruct (upa (ram s) node x) as [b|] eqn:Hxb; [|done]. cbn. f_equal. rewrite rd_wr_bytes, decide_False; [done|].
    intros Hin. apply Hx. rewrite (upa_inj s root node l x (va + (b - a)) b) by (try done; rewrite Hat by lia; f_equal; lia). lia.
Qed.

Lemma stored_app m1 m2 m3 node va l1 l2 :
  stored m1 m2 node va l1 -> stored m2 m3 node (va + Z.of_nat (length l1)) l2 -> stored m1 m3 node va (l1 ++ l2).
Proof.
  intros H1 H2 a. rewrite H2, H1, length_app, Nat2Z.inj_add.
  destruct (decide (va + Z.of_nat (length l1) <= a < _)), (decide (va <= a < va + Z.of_nat (length l1))), (decide (va <= a < va + _)); try lia; try done.
  - f_equal. unfold nthZ. rewrite app_nth2 by lia. f_equal. lia.
  - f_equal. unfold nthZ. rewrite app_nth1 by lia. done.
Qed.

Lemma only_user_app m1 m2 m3 node va n1 n2 :
  0 <= n1 -> 0 <= n2 -> (forall x, upa m2 node x = upa m1 node x) ->
  only_user m1 m2 node va n1 -> only_user m2 m3 node (va + n1) n2 -> only_user m1 m3 node va (n1 + n2).
Proof.
  intros Hn1 Hn2 He H1 H2 a. destruct (H2 a) as [(x & Hx & Hxa)| ->].
  - left. exists x. rewrite <- He. split; [lia|done].
  - destruct (H1 a) as [(x & Hx & Hxa)|]; [|by right]. left. exists x. split; [lia|done].
Qed.

Lemma upa_pte m m' node : (forall x, pte_of m' node x = pte_of m node x) -> forall x, upa m' node x = upa m node x.
Proof. intros Hp x. unfold upa. by rewrite Hp. Qed.

(** How a copy of [len] bytes at [va] ends: everything, or a part that ends at an
    address that is not mapped. *)
Definition copied (m : mem) (node : list Z -> option Z) (va : Z) (len k : nat) (r : Z) : Prop :=
  (forall a, va <= a < va + Z.of_nat k -> is_Some (ubyte m node a)) /\
  (r = 0 /\ k = len \/ r = -1 /\ (k < len)%nat /\ ubyte m node (va + Z.of_nat k) = None).

(** The page on which a copy goes on. *)
Lemma copy_page s root node l va :
  uspace s root node l -> 0 <= va ->
  (if decide (pg va < MAXVA) then if user_pte (pte_of (ram s) node (pg va)) then PTE2PA (pte_of (ram s) node (pg va)) else 0 else 0) =
    match upa (ram s) node va with Some a => a - va mod PGSIZE | None => 0 end /\
  (forall a, upa (ram s) node va = Some a -> a - va mod PGSIZE <> 0).
Proof.
  intros Hu Hva. split.
  - unfold upa. rewrite pte_of_pg. pose proof (pg_bounds va).
    destruct (decide (0 <= va < MAXVA)) as [Hr|Hr].
    + rewrite decide_True by lia. destruct (user_pte _); [lia|done].
    + rewrite decide_False; [done|]. change MAXVA with (67108864 * 4096) in *. unfold pg, PGSIZE in *.
      pose proof (Z.div_mod va 4096 ltac:(lia)). pose proof (Z.mod_pos_bound va 4096). lia.
  - intros a Ha. destruct (upa_inv _ _ _ _ _ _ Hu Ha) as (_ & _ & _ & Hm & Hok & _).
    apply page_ok_pos in Hok. unfold pg, PGSIZE in *. lia.
Qed.

Lemma copyout_loop_spec root node l c : forall fuel s va src,
  uspace s root node l -> 0 <= va -> bytes src ->
  Z.of_nat (length src) + va mod PGSIZE <= Z.of_nat fuel * PGSIZE ->
  wp (copyout_loop fuel root va src) c s (fun r c' s' => c' = c /\ uspace s' root node l /\
    (forall x, pte_of (ram s') node x = pte_of (ram s) node x) /\
    exists k, stored (ram s) (ram s') node va (take k src) /\ only_user (ram s) (ram s') node va (Z.of_nat k) /\
      copied (ram s) node va (length src) k r).
Proof.
  induction fuel as [|fuel IH]; intros s va src Hu Hva Hb Hf; destruct src as [|x0 src0] eqn:Esrc.
  1,3: cbn; apply wp_ret; split_and!; [done|done|done|]; exists 0%nat; split_and!;
    [intros a; by rewrite decide_False by (cbn; lia)|intros a; by right|split; [intros a ?; lia|by left]].
  { cbn [length] in Hf. pose proof (Z.mod_pos_bound va PGSIZE). unfold PGSIZE in *. lia. }
  rewrite <- Esrc in *. assert (Hne : (0 < length src)%nat) by (rewrite Esrc; cbn; lia).
  assert (copyout_loop (S fuel) root va src = (pa0 <- walkaddr root (PGROUNDDOWN va) ;;
    if pa0 =? 0 then ret (-1) else
      let n := Z.min (PGSIZE - (va - PGROUNDDOWN va)) (Z.of_nat (length src)) in
      modify (set_ram (fun m => wr_bytes m (pa0 + (va - PGROUNDDOWN va)) (take (Z.to_nat n) src))) ;;
      copyout_loop fuel root (PGROUNDDOWN va + PGSIZE) (drop (Z.to_nat n) src))) as -> by (by rewrite Esrc).
  clear Esrc x0 src0. rewrite PGROUNDDOWN_eq. fold (pg va). destruct (us_owns _ _ _ _ Hu) as (_ & Hi & _).
  apply wp_bind. eexists _, c, s. split; [by apply walkaddr_spec|].
  destruct (copy_page s root node l va Hu Hva) as [Ep Hnz]. rewrite Ep.
  destruct (upa (ram s) node va) as [a|] eqn:Ha.
  2: { apply wp_ret. split_and!; [done|done|done|]. exists 0%nat. split_and!;
         [intros x; rewrite take_0; by rewrite decide_False by (cbn; lia)|intros x; by right|split; [intros x ?; lia|right]].
       split_and!; [done|done|]. rewrite Z.add_0_r. unfold ubyte. by rewrite Ha. }
  rewrite (proj2 (Z.eqb_neq _ 0)) by (by apply Hnz). cbv zeta.
  set (n := Z.to_nat (Z.min (PGSIZE - (va - pg va)) (Z.of_nat (length src)))).
  assert (Eoff : va - pg va = va mod PGSIZE) by (unfold pg, PGSIZE; lia). rewrite Eoff in *.
  replace (a - va mod PGSIZE + va mod PGSIZE) with a by lia.
  pose proof (Z.mod_pos_bound va PGSIZE ltac:(done)) as Hmod.
  assert (Hn : (n <= length src)%nat /\ va mod PGSIZE + Z.of_nat n <= PGSIZE) by (unfold n; lia).
  destruct Hn as [Hn1 Hn2]. assert (Hlen : length (take n src) = n) by (rewrite length_take; lia).
  destruct (page_write s root node l va a (take n src) Hu Ha) as (Hu1 & Hp1 & Hs1 & Ho1 & Hm1); [by apply Forall_take|by rewrite Hlen|].
  rewrite Hlen in *. apply wp_bind, wp_modify. change (set_ram _ s) with (Mach (wr_bytes (ram s) a (take n src)) (freelist s)).
  set (s1 := Mach _ _) in *. clearbody s1.
  destruct (decide (n = length src)) as [Hall|Hmore].
  { assert (drop n src = []) as -> by (apply drop_ge; lia).
    destruct fuel; cbn; apply wp_ret; (split_and!; [done|done|done|]; exists n; split_and!; [done|done|split; [done|by left]]). }
  assert (Enext : pg va + PGSIZE = va + Z.of_nat n) by (unfold n in *; lia). rewrite Enext.
  assert (Hmod0 : (va + Z.of_nat n) mod PGSIZE = 0).
  { rewrite <- Enext. rewrite <- Zplus_mod_idemp_l, pg_aligned. done. }
  eapply wp_mono; [apply (IH s1 (va + Z.of_nat n) (drop n src) Hu1)|].
  - lia.
  - by apply Forall_drop.
  - rewrite Hmod0, length_drop. unfold n, PGSIZE in *. lia.
  - cbn beta. intros r c' s' (-> & Hu' & Hp' & k & Hs' & Ho' & Hm' & Hr).
    split_and!; [done|done|intros x; by rewrite Hp'|]. exists (n + k)%nat.
    assert (Hsame : forall x, upa (ram s1) node x = upa (ram s) node x) by (by apply upa_pte).
    assert (Hmapped : forall x, is_Some (ubyte (ram s1) node x) <-> is_Some (ubyte (ram s) node x)).
    { intros x. unfold ubyte. rewrite !fmap_is_Some. by rewrite Hsame. }
    rewrite length_drop in Hr. split_and!.
    + rewrite <- (take_drop n src) at 1. rewrite take_app_ge, Hlen by lia.
      replace (n + k - n)%nat with k by lia. apply (stored_app _ (ram s1)); [done|by rewrite Hlen].
    + rewrite Nat2Z.inj_add. apply (only_user_app _ (ram s1)); done || lia.
    + split.
      * intros x Hx. destruct (decide (x < va + Z.of_nat n)); [apply Hm1; lia|]. apply Hmapped, Hm'. lia.
      * destruct Hr as [[-> ->]|(-> & Hk & Hn)]; [left; lia|right]. split_and!; [done|lia|].
        rewrite Nat2Z.inj_add, Z.add_assoc. apply eq_None_not_Some. rewrite <- Hmapped. by apply eq_None_not_Some.
Qed.

Lemma copyout_spec root node l c s va src :
  uspace s root node l -> 0 <= va -> bytes src ->
  wp (copyout root va src) c s (fun r c' s' => c' = c /\ uspace s' root node l /\
    (forall x, pte_of (ram s') node x = pte_of (ram s) node x) /\
    exists k, stored (ram s) (ram s') node va (take k src) /\ only_user (ram s) (ram s') node va (Z.of_nat k) /\
      copied (ram s) node va (length src) k r).
Proof.
  intros Hu Hva Hb. apply copyout_loop_spec; [done|done|done|]. unfold copy_fuel.
  pose proof (Z.mod_pos_bound va PGSIZE ltac:(done)). pose proof (Z.div_mod (Z.of_nat (length src)) PGSIZE ltac:(done)).
  pose proof (Z.mod_pos_bound (Z.of_nat (length src)) PGSIZE ltac:(done)).
  assert (0 <= Z.of_nat (length src) / PGSIZE) by (apply Z.div_pos; unfold PGSIZE; lia). unfold PGSIZE in *. lia.
Qed.

(** ** copyin *)

Lemma rd_bytes_length m n : forall a, length (rd_bytes m a n) = n.
Proof. induction n as [|n IH]; intros a; cbn; [done|]. by rewrite IH. Qed.

Lemma nthZ_rd_bytes m n : forall a i, 0 <= i < Z.of_nat n -> nthZ 0 (rd_bytes m a n) i = rd m (a + i).
Proof.
  induction n as [|n IH]; intros a i Hi; [lia|]. cbn [rd_bytes]. destruct (decide (i = 0)) as [->|Hne]; [rewrite Z.add_0_r; reflexivity|].
  unfold nthZ. replace (Z.to_nat i) with (S (Z.to_nat (i - 1))) by lia. cbn [nth].
  change (nthZ 0 (rd_bytes m (a + 1) n) (i - 1) = rd m (a + i)). rewrite IH by lia. f_equal. lia.
Qed.

(** [d] is what the program has at [va]. *)
Definition loaded (m : mem) (node : list Z -> option Z) (va : Z) (d : list Z) : Prop :=
  forall i, 0 <= i < Z.of_nat (length d) -> ubyte m node (va + i) = Some (nthZ 0 d i).

Lemma page_read s root node l va a n :
  uspace s root node l -> upa (ram s) node va = Some a -> va mod PGSIZE + Z.of_nat n <= PGSIZE ->
  loaded (ram s) node va (rd_bytes (ram s) a n).
Proof.
  intros Hu Ha Hlen i. rewrite rd_bytes_length. intros Hi. destruct (upa_inv _ _ _ _ _ _ Hu Ha) as (Hr & _).
  assert (Hva : 0 <= va < MAXVA) by (unfold TRAPFRAME, TRAMPOLINE in Hr; plia).
  pose proof (page_in_range va Hva) as [Hlo Hhi]. pose proof (Z.mod_pos_bound va PGSIZE ltac:(done)).
  unfold ubyte. rewrite (upa_same_page _ _ va (va + i) a Ha).
  - cbn. rewrite nthZ_rd_bytes by done. do 2 f_equal. lia.
  - symmetry. apply pg_in; [apply pg_aligned|]. unfold pg, PGSIZE in *. lia.
  - unfold pg, PGSIZE in *. lia.
Qed.

Lemma loaded_app m node va d1 d2 :
  loaded m node va d1 -> loaded m node (va + Z.of_nat (length d1)) d2 -> loaded m node va (d1 ++ d2).
Proof.
  intros H1 H2 i. rewrite length_app. intros Hi. destruct (decide (i < Z.of_nat (length d1))).
  - rewrite H1 by lia. f_equal. unfold nthZ. by rewrite app_nth1 by lia.
  - replace (va + i) with (va + Z.of_nat (length d1) + (i - Z.of_nat (length d1))) by lia. rewrite H2 by lia.
    f_equal. unfold nthZ. rewrite app_nth2 by lia. f_equal. lia.
Qed.

Lemma loaded_some m node va d : loaded m node va d -> forall a, va <= a < va + Z.of_nat (length d) -> is_Some (ubyte m node a).
Proof. intros Hd a Ha. replace a with (va + (a - va)) by lia. rewrite Hd by lia. by eexists. Qed.

Lemma copyin_loop_spec root node l c s : uspace s root node l -> forall fuel va len,
  0 <= va -> Z.max 0 len + va mod PGSIZE <= Z.of_nat fuel * PGSIZE ->
  exists r d, copyin_loop fuel root va len c s = Ok (r, d) c s /\ loaded (ram s) node va d /\
    copied (ram s) node va (Z.to_nat len) (length d) r.
Proof.
  intros Hu. destruct (us_owns _ _ _ _ Hu) as (_ & Hi & _). induction fuel as [|fuel IH]; intros va len Hva Hf; cbn [copyin_loop].
  all: destruct (len <=? 0) eqn:El; bool_spec.
  1,3: exists 0, []; split_and!; [done|intros i ?; cbn in *; lia|split; [intros a ?; cbn in *; lia|left; cbn; lia]].
  { pose proof (Z.mod_pos_bound va PGSIZE). unfold PGSIZE in *. lia. }
  rewrite PGROUNDDOWN_eq. fold (pg va). unfold bind at 1. rewrite (walkaddr_spec root node) by done.
  destruct (copy_page s root node l va Hu Hva) as [Ep Hnz]. rewrite Ep.
  destruct (upa (ram s) node va) as [a|] eqn:Ha.
  2: { exists (-1), []. split_and!; [done|intros i ?; cbn in *; lia|split; [intros x ?; cbn in *; lia|right]].
       split_and!; [done|cbn; lia|]. rewrite Z.add_0_r. unfold ubyte. by rewrite Ha. }
  rewrite (proj2 (Z.eqb_neq _ 0)) by (by apply Hnz). cbv zeta.
  set (n := Z.min (PGSIZE - (va - pg va)) len).
  assert (Eoff : va - pg va = va mod PGSIZE) by (unfold pg, PGSIZE; lia). rewrite Eoff in *.
  replace (a - va mod PGSIZE + va mod PGSIZE) with a by lia. pose proof (Z.mod_pos_bound va PGSIZE ltac:(done)) as Hmod.
  assert (Hn : 0 < n <= len /\ va mod PGSIZE + n <= PGSIZE) by (unfold n; lia).
  assert (Hd1 : loaded (ram s) node va (rd_bytes (ram s) a (Z.to_nat n))).
  { apply (page_read s root node l); [done|done|]. lia. }
  unfold bind, gets. destruct (decide (n = len)) as [Hall|Hmore].
  - assert (Hz : copyin_loop fuel root (pg va + PGSIZE) (len - n) c s = Ok (0, []) c s).
    { destruct fuel; cbn [copyin_loop]; by rewrite (proj2 (Z.leb_le _ _)) by lia. }
    rewrite Hz. eexists _, _. split; [reflexivity|]. cbn [fst snd]. rewrite app_nil_r. split; [done|]. split; [by apply loaded_some|].
    left. rewrite rd_bytes_length. split; [done|]. lia.
  - assert (Enext : pg va + PGSIZE = va + n) by (unfold n in *; lia). rewrite Enext.
    assert (Hmod0 : (va + n) mod PGSIZE = 0).
    { rewrite <- Enext. rewrite <- Zplus_mod_idemp_l, pg_aligned. done. }
    destruct (IH (va + n) (len - n)) as (r & d & -> & Hd & Hm & Hr); [lia|rewrite Hmod0; unfold n, PGSIZE in *; lia|].
    eexists _, _. split; [reflexivity|]. cbn [fst snd].
    assert (Hd2 : loaded (ram s) node va (rd_bytes (ram s) a (Z.to_nat n) ++ d)).
    { apply loaded_app; [done|]. rewrite rd_bytes_length, Z2Nat.id by lia. done. }
    split; [done|]. split; [by apply loaded_some|]. rewrite length_app, rd_bytes_length.
    destruct Hr as [[-> ->]|(-> & Hk & Hnone)]; [left; lia|right]. split_and!; [done|lia|].
    replace (va + Z.of_nat (Z.to_nat n + length d)) with (va + n + Z.of_nat (length d)) by lia. done.
Qed.

Lemma copyin_spec root node l c s va len :
  uspace s root node l -> 0 <= va -> 0 <= len ->
  exists r d, copyin root va len c s = Ok (r, d) c s /\ loaded (ram s) node va d /\
    copied (ram s) node va (Z.to_nat len) (length d) r.
Proof.
  intros Hu Hva Hlen. apply (copyin_loop_spec root node l c s Hu); [done|]. unfold copy_fuel.
  pose proof (Z.mod_pos_bound va PGSIZE ltac:(done)). pose proof (Z.div_mod len PGSIZE ltac:(done)).
  pose proof (Z.mod_pos_bound len PGSIZE ltac:(done)).
  assert (0 <= len / PGSIZE) by (apply Z.div_pos; unfold PGSIZE; lia). unfold PGSIZE in *. lia.
Qed.
End uspace.

(** ** The copying routines implement [UserMem]'s laws

    pipe.c, console.c and fs.c are verified against [UserMemLaws]; here vm.c meets
    them whenever the page table of the running process is well formed. *)

Section laws.
Context `{KernelImage}.

(** The byte [copyin] would read at [a]. *)
Definition vm_byte (u : umach) (a : Z) : option Z :=
  if decide (0 <= a) then
    match copyin (u_pagetable u) a 1 (Ctx [] [] 0) (u_mach u) with
    | Ok (r, [b]) _ _ => if decide (r = 0 /\ 0 <= b < 256) then Some b else None
    | _ => None
    end
  else None.

Definition vm_inv (u : umach) : Prop := exists node l, uspace (u_mach u) (u_pagetable u) node l.

Lemma ubyte_range m node a b : ubyte m node a = Some b -> 0 <= b < 256.
Proof. unfold ubyte. intros (x & _ & ->)%fmap_Some. apply rd_range. Qed.

Lemma copyin_one root node l c s a :
  uspace s root node l -> 0 <= a ->
  copyin root a 1 c s = Ok (match ubyte (ram s) node a with Some b => (0, [b]) | None => (-1, []) end) c s.
Proof.
  intros Hu Ha. destruct (copyin_spec root node l c s a 1 Hu Ha ltac:(lia)) as (r & d & -> & Hl & Hm & Hr).
  f_equal. change (Z.to_nat 1) with 1%nat in Hr. destruct Hr as [[-> Hd]|(-> & Hd & Hn)].
  - destruct d as [|b [|]]; try done. specialize (Hl 0 ltac:(cbn; lia)). rewrite Z.add_0_r in Hl. by rewrite Hl.
  - destruct d; [|cbn in Hd; lia]. cbn in Hn. rewrite Z.add_0_r in Hn. by rewrite Hn.
Qed.

Lemma vm_byte_ubyte u node l a :
  uspace (u_mach u) (u_pagetable u) node l -> vm_byte u a = ubyte (ram (u_mach u)) node a.
Proof.
  intros Hu. unfold vm_byte. destruct (decide (0 <= a)) as [Ha|Ha].
  2: { unfold ubyte, upa. by rewrite decide_False by lia. }
  rewrite (copyin_one _ node l) by done. destruct (ubyte _ node a) as [b|] eqn:E; [|done].
  by rewrite decide_True by (split; [done|by apply ubyte_range in E]).
Qed.

Lemma copyout_unmapped root node l c s a b :
  uspace s root node l -> 0 <= a -> ubyte (ram s) node a = None -> copyout root a [b] c s = Ok (-1) c s.
Proof.
  intros Hu Ha Hn. unfold copyout, copy_fuel. cbn [length copyout_loop]. change (Z.of_nat 1 / PGSIZE) with 0.
  change (Z.to_nat (0 + 2)) with 2%nat. cbn [copyout_loop]. rewrite PGROUNDDOWN_eq. fold (pg a).
  destruct (us_owns _ _ _ _ Hu) as (_ & Hi & _). unfold bind at 1. rewrite (walkaddr_spec root node) by done.
  destruct (copy_page s root node l a Hu Ha) as [Ep _]. rewrite Ep. unfold ubyte in Hn. apply fmap_None in Hn. by rewrite Hn.
Qed.

#[export] Program Instance vm_laws : UserMemLaws umach := {|
  um_inv := vm_inv;
  um_byte := vm_byte;
  um_is_killed := u_killed;
  um_free _ := True
|}.
Next Obligation. done. Qed.
Next Obligation.
  intros u a b. unfold vm_byte. destruct (decide (0 <= a)); [|done].
  destruct (copyin _ _ _ _ _) as [[r [|x [|]]] c s| |]; try done. case_decide; [|done]. intros [= ->]. tauto.
Qed.
Next Obligation. done. Qed.
Next Obligation.
  intros c u a (node & l & Hu) Ha. cbn. unfold machop, zoom. rewrite (copyin_one _ node l) by done.
  rewrite (vm_byte_ubyte _ node l) by done. by destruct u.
Qed.
Next Obligation.
  intros c u a n (node & l & Hu) Ha Hn Hall. setoid_rewrite (vm_byte_ubyte u node l); [|done..].
  destruct (copyin_spec (u_pagetable u) node l c (u_mach u) a n Hu Ha Hn) as (r & d & E & Hl & _ & Hr).
  destruct Hr as [[-> Hd]|(-> & Hd & Hnone)].
  - exists d. cbn. unfold machop, zoom. rewrite E. split_and!; [by destruct u|done|]. intros i Hi. apply Hl. lia.
  - destruct (Hall (Z.of_nat (length d)) ltac:(lia)) as [b Hb]. rewrite (vm_byte_ubyte u node l) in Hb by done. congruence.
Qed.
Next Obligation.
  intros c u a b (node & l & Hu) Ha Hb. rewrite (vm_byte_ubyte _ node l) by done.
  cbn. unfold machop, zoom. destruct (ubyte _ node a) as [x|] eqn:Ex.
  - destruct (copyout_spec (u_pagetable u) node l c (u_mach u) a [b] Hu Ha) as (r & c' & s' & -> & -> & Hu' & Hp & k & Hs & _ & Hm & Hr);
      [by apply Forall_singleton|].
    destruct Hr as [[-> ->]|(-> & Hk & Hn)].
    2: { cbn in Hk. assert (k = 0%nat) as -> by lia. rewrite Z.add_0_r in Hn. congruence. }
    exists (set_mach s' u). split_and!; [done|by exists node, l|done|]. intros a'.
    rewrite (vm_byte_ubyte _ node l) by done. rewrite (vm_byte_ubyte u node l) by done. cbn. rewrite Hs. cbn.
    destruct (decide (a' = a)) as [->|]; [by rewrite decide_True, Z.sub_diag by lia|by rewrite decide_False by lia].
  - rewrite (copyout_unmapped _ node l) by done. by destruct u.
Qed.
End laws.
