(* ===== verification/UserAlloc.v ===== *)
(** * Growing, shrinking and copying a process

    [uvmunmap], [uvmdealloc], [uvmalloc] and [uvmcopy] of kernel/vm.c, described by what
    they do to the memory the program sees (UserSpace) and to the free pages.  Every
    page is accounted for: a page that leaves the free list becomes a page of the
    program or a node of its table, also when memory runs out on the way. *)

From S2P Require Import Prelude KMonad Riscv Mem Kalloc Vm PageTable UserMem UserVm UserSpace.

Section ualloc.
Context `{KernelImage}.

Lemma trapframe_bounds : 0 < TRAPFRAME < MAXVA /\ TRAPFRAME mod PGSIZE = 0 /\ MAXVA <= 2 ^ 38.
Proof. by_eval. Qed.

Lemma low_page a va : a mod PGSIZE = 0 -> 0 <= a < TRAPFRAME -> pg va = a -> 0 <= va < TRAPFRAME.
Proof.
  intros Ha Hr <-. pose proof (pg_bounds va). destruct trapframe_bounds as (_ & Ht & _).
  destruct (page_ok_disjoint (pg va) TRAPFRAME Ha Ht); lia.
Qed.

(** The same table, with the pages it does not use changed. *)
Lemma uspace_keep s s' root node l l' :
  uspace s root node l -> kinv s' l' -> (forall p, p ∈ l' -> p ∈ l) ->
  (forall a, is_node node (pg a) -> rd (ram s') a = rd (ram s) a) ->
  uspace s' root node l' /\ forall va, pte_of (ram s') node va = pte_of (ram s) node va.
Proof.
  intros Hu Hk Hsub Hf. destruct (us_owns _ _ _ _ Hu) as (_ & Hi & Hd).
  destruct (pt_inv_frame (ram s) (ram s') root node Hi Hf) as [Hi' Hp]. split; [|exact Hp]. split.
  - split_and!; [done|done|]. intros p Hp'. by apply Hd, Hsub.
  - intros va Hva. rewrite Hp. intros Hv. destruct (us_leaf _ _ _ _ Hu va Hva Hv) as (? & ? & Hn & ?). split_and!; auto.
  - intros va va'. rewrite !Hp. apply Hu.
  - intros va. rewrite Hp. apply Hu.
Qed.

(** The table after it has grown, with the same translations. *)
Lemma uspace_grow s s' root node node' l l' :
  uspace s root node l -> owns s' root node' l' -> evolves s node l s' node' l' ->
  (forall va, 0 <= va < MAXVA -> pte_of (ram s') node' va = pte_of (ram s) node va) -> uspace s' root node' l'.
Proof.
  intros Hu Ho He Hp. destruct trapframe_bounds as (Ht & _).
  split; [done| | |].
  - intros va Hva. rewrite Hp by lia. intros Hv. destruct (us_leaf _ _ _ _ Hu va Hva Hv) as (? & ? & Hn & Hnn).
    split_and!; [done|done| |].
    + intros Hin. by apply (ev_free _ _ _ _ _ _ He) in Hin.
    + intros Hin. apply (ev_new _ _ _ _ _ _ He) in Hin as [?|[? _]]; done.
  - intros va va' H1 H2. rewrite !Hp by lia. by apply Hu.
  - intros va Hva. rewrite Hp by lia. by apply Hu.
Qed.

(** A page that this process does not use. *)
Definition fresh (s : mach) (node : list Z -> option Z) (l : list Z) (p : Z) : Prop :=
  page_ok p /\ p ∉ l /\ ~ is_node node p /\
  forall va, 0 <= va < TRAPFRAME -> valid_pte (pte_of (ram s) node va) = true -> PTE2PA (pte_of (ram s) node va) <> p.

(** One more page is mapped, at [a]. *)
Lemma uspace_map s s' root node node' l l' a p perm :
  uspace s root node l -> owns s' root node' l' -> evolves s node l s' node' l' ->
  fresh s node l p -> a mod PGSIZE = 0 -> 0 <= a < TRAPFRAME -> 0 <= perm < 1024 -> Z.lor perm PTE_V <> PTE_V ->
  (forall va, 0 <= va < MAXVA -> pte_of (ram s') node' va = if decide (pg va = a) then mkpte p perm else pte_of (ram s) node va) ->
  uspace s' root node' l'.
Proof.
  intros Hu Ho He (Hok & Hnl & Hnn & Hnm) Ha Hr Hperm Hleaf Hp. destruct trapframe_bounds as (Ht & Hta & _).
  pose proof (page_ok_pos _ Hok) as Hpos. destruct (mkpte_fields p perm ltac:(lia) Hperm) as (_ & Epa & Efl & _).
  rewrite (page_ok_aligned _ Hok : p mod 4096 = 0), Z.sub_0_r in Epa.
  assert (Hl' : forall q, q ∉ l -> q ∉ l') by (intros q Hq Hin; by apply (ev_free _ _ _ _ _ _ He) in Hin).
  assert (Hn' : forall q, q ∉ l -> ~ is_node node q -> ~ is_node node' q).
  { intros q Hq Hn Hin. apply (ev_new _ _ _ _ _ _ He) in Hin as [?|[? _]]; done. }
  split; [done| | |].
  - intros va Hva. rewrite Hp by lia. case_decide; [intros _; rewrite Epa, Efl; split_and!; auto|].
    intros Hv. destruct (us_leaf _ _ _ _ Hu va Hva Hv) as (? & ? & ? & ?). split_and!; auto.
  - intros va va' H1 H2. rewrite !Hp by lia. do 2 case_decide; [congruence| | |by apply Hu]; rewrite Epa; intros V1 V2 E.
    + symmetry in E. by apply Hnm in E.
    + by apply Hnm in E.
  - intros va Hva. rewrite Hp by lia. rewrite decide_False; [by apply Hu|]. intros E.
    pose proof (low_page a va Ha Hr E). lia.
Qed.

Lemma map_one s root node l c a p perm :
  uspace s root node l -> LK_kmem ∉ held c -> fresh s node l p -> a mod PGSIZE = 0 -> 0 <= a < TRAPFRAME ->
  valid_pte (pte_of (ram s) node a) = false -> 0 <= perm < 1024 -> Z.lor perm PTE_V <> PTE_V ->
  wp (mappages root a PGSIZE p perm) c s (fun r c' s' => c' = c /\ exists node' l',
    uspace s' root node' l' /\ evolves s node l s' node' l' /\
    (r = 0 /\ (forall va, 0 <= va < MAXVA -> pte_of (ram s') node' va = if decide (pg va = a) then mkpte p perm else pte_of (ram s) node va) \/
     r = -1 /\ l' = [] /\ fresh s' node' l' p /\ forall va, 0 <= va < MAXVA -> pte_of (ram s') node' va = pte_of (ram s) node va)).
Proof.
  intros Hu Hl Hfr Ha Hr Hinv Hperm Hleaf. destruct trapframe_bounds as (Ht & Hta & Hm).
  pose proof (page_ok_pos _ (proj1 Hfr)) as Hpos.
  assert (Hend : a + PGSIZE <= MAXVA).
  { pose proof (page_in_range a ltac:(lia)) as [_ ?]. rewrite (pg_in a a) in * by (done || unfold PGSIZE; lia). done. }
  assert (Ea : PGROUNDDOWN a = a) by (by apply PGROUNDDOWN_id).
  assert (Eb : PGROUNDDOWN (a + PGSIZE - 1) = a).
  { rewrite PGROUNDDOWN_eq. apply pg_in; [done|]. unfold PGSIZE. lia. }
  eapply wp_mono; [apply (mappages_spec root perm c s node l a PGSIZE p (us_owns _ _ _ _ Hu) Hl)|].
  1-3: unfold PGSIZE in *; lia.
  - lia.
  - rewrite Ea, Eb, Z.sub_diag. change (0 / PGSIZE + 1) with 1. pose proof (proj1 Hfr) as [_ ?]. plia.
  - done.
  - rewrite Ea, Eb, Z.sub_diag. change (0 / PGSIZE + 1) with 1. intros va Hva. rewrite <- pte_of_pg, (pg_in a va); [done|done|]. lia.
  - cbn beta. rewrite Ea, Eb, Z.sub_diag. intros r c' s' (-> & node' & l' & k & Ho & He & Hmap & Hk & _). split; [done|].
    exists node', l'. destruct Hk as [[-> ->]|(-> & Hk & ->)].
    + assert (Hp : forall va, 0 <= va < MAXVA -> pte_of (ram s') node' va = if decide (pg va = a) then mkpte p perm else pte_of (ram s) node va).
      { intros va Hva. rewrite Hmap by done. change (0 / PGSIZE + 1) with 1. rewrite Z.mul_1_l.
        destruct (decide (a <= va < a + PGSIZE)) as [Hin|Hin].
        - apply pg_in in Hin; [|done]. rewrite decide_True by done. f_equal. lia.
        - rewrite decide_False; [done|]. intros <-. pose proof (pg_bounds va). lia. }
      split_and!; [by apply (uspace_map s s' root node node' l l' a p perm)|done|by left].
    + change (0 / PGSIZE + 1) with 1 in Hk. assert (k = 0) as -> by lia.
      assert (Hp : forall va, 0 <= va < MAXVA -> pte_of (ram s') node' va = pte_of (ram s) node va).
      { intros va Hva. rewrite Hmap by done. by rewrite decide_False by lia. }
      split_and!; [by apply (uspace_grow s s' root node node' l [])|done|right]. split_and!; [done|done| |done].
      destruct Hfr as (? & ? & ? & Hnm). split_and!; [done|apply not_elem_of_nil| |].
      * intros Hin. apply (ev_new _ _ _ _ _ _ He) in Hin as [?|[? _]]; done.
      * intros va Hva. rewrite Hp by lia. by apply Hnm.
Qed.

(** ** Unmapping *)

(** The pages [ps] of the program have been unmapped and freed. *)
Definition unmapped (s : mach) (node : list Z -> option Z) (l : list Z) (s' : mach) (l' : list Z) (ps : list Z) : Prop :=
  (forall va, 0 <= va < MAXVA -> pte_of (ram s') node va = if decide (pg va ∈ ps) then 0 else pte_of (ram s) node va) /\
  (forall p, p ∈ l' <-> p ∈ l \/ exists a, a ∈ ps /\ p = PTE2PA (pte_of (ram s) node a)) /\
  (forall x, pg x ∉ l' -> ~ is_node node (pg x) -> rd (ram s') x = rd (ram s) x).

Lemma not_valid_0 : valid_pte 0 = false.
Proof. done. Qed.

Lemma unmap_page_spec s root node l c a :
  uspace s root node l -> LK_kmem ∉ held c -> a mod PGSIZE = 0 -> 0 <= a < TRAPFRAME ->
  valid_pte (pte_of (ram s) node a) = true ->
  wp (unmap_page root true a) c s (fun _ c' s' => c' = c /\ exists l', uspace s' root node l' /\ unmapped s node l s' l' [a]).
Proof.
  intros Hu Hl Ha Hr Hv. destruct trapframe_bounds as (Ht & Hta & _).
  destruct (us_owns _ _ _ _ Hu) as (Hk & Hi & Hd).
  destruct (us_leaf _ _ _ _ Hu a Hr Hv) as (Hflag & Hok & Hnl & Hnn).
  unfold pte_of in Hv. destruct (node [PX 2 a; PX 1 a]) as [q|] eqn:Hq; [|done].
  assert (Eq : pte_of (ram s) node a = load64 (ram s) (q + 8 * PX 0 a)) by (unfold pte_of; by rewrite Hq).
  unfold unmap_page. apply wp_bind. eexists _, c, s. split; [apply walk_lookup; [exact Hi|lia]|].
  assert (Eleaf : leaf_addr node a = q + 8 * PX 0 a) by (unfold leaf_addr; by rewrite Hq). rewrite Eleaf.
  rewrite (proj2 (Z.eqb_neq _ 0)) by (rewrite <- Eleaf; intros E; apply (leaf_addr_0 _ _ _ _ Hi) in E; congruence).
  apply wp_bind, wp_gets. unfold valid_pte in Hv. apply negb_true_iff in Hv. rewrite Hv. rewrite <- Eq in *.
  rewrite (proj2 (Z.eqb_neq _ _)) by done.
  set (pa := PTE2PA (pte_of (ram s) node a)) in *.
  destruct (kfree_spec pa c s l Hk Hok Hnl Hl) as (s1 & Hrun & Hk1 & Hop).
  apply wp_bind. exists tt, c, s1. split; [exact Hrun|].
  assert (Hnode : forall x, is_node node (pg x) -> rd (ram s1) x = rd (ram s) x).
  { intros x Hx. apply Hop, pg_out; [by apply page_ok_aligned|]. intros E. by rewrite E in Hx. }
  destruct (pt_inv_frame (ram s) (ram s1) root node Hi Hnode) as [Hi1 Hp1].
  assert (Ho1 : owns s1 root node (pa :: l)).
  { split_and!; [done|done|]. intros p [->|Hin]%elem_of_cons; [done|by apply Hd]. }
  destruct (set_leaf s1 root node (pa :: l) a 0 q Ho1 Hq ltac:(lia) ltac:(lia)) as (Ho2 & He2 & Hp2).
  apply wp_modify. set (s2 := set_ram _ s1) in *. clearbody s2. split; [done|]. exists (pa :: l).
  assert (Hpte : forall va, 0 <= va < MAXVA -> pte_of (ram s2) node va = if decide (pg va = a) then 0 else pte_of (ram s) node va).
  { intros va Hva. rewrite Hp2, Hp1, (pg_in a a) by (done || unfold PGSIZE; lia). done. }
  assert (Hva0 : valid_pte (pte_of (ram s) node a) = true) by (unfold valid_pte; by rewrite Hv).
  split; [split|split_and!].
  - done.
  - intros va Hva. rewrite Hpte by lia. case_decide as E; [done|]. intros Hv'.
    destruct (us_leaf _ _ _ _ Hu va Hva Hv') as (? & ? & ? & ?). split_and!; [done|done| |done].
    intros [Ein|?]%elem_of_cons; [|done]. apply E. rewrite (us_inj _ _ _ _ Hu va a) by done. apply pg_in; [done|unfold PGSIZE; lia].
  - intros va va' H1 H2. rewrite !Hpte by lia. do 2 case_decide; try done. by apply Hu.
  - intros va Hva. rewrite Hpte by lia. case_decide; [done|by apply Hu].
  - intros va Hva. rewrite Hpte by done. destruct (decide (pg va = a)), (decide (pg va ∈ [a])); try done.
    + exfalso. set_solver.
    + exfalso. set_solver.
  - intros p. rewrite elem_of_cons. split.
    + intros [->|?]; [right; exists a; split; [by left|done]|by left].
    + intros [?|(b & ->%list_elem_of_singleton & ->)]; [by right|by left].
  - intros x Hx Hn. rewrite (ev_frame _ _ _ _ _ _ He2) by done. apply Hop, pg_out; [by apply page_ok_aligned|].
    intros E. apply Hx. rewrite E. by left.
Qed.

Lemma unmapped_cons s node l s1 l1 s2 l2 ps a :
  unmapped s node l s1 l1 [a] -> unmapped s1 node l1 s2 l2 ps ->
  (forall b, b ∈ ps -> 0 <= b < MAXVA /\ pg b = b) -> a ∉ ps -> unmapped s node l s2 l2 (a :: ps).
Proof.
  intros (P1 & L1 & F1) (P2 & L2 & F2) Hps Hn.
  assert (Eb : forall b, b ∈ ps -> pte_of (ram s1) node b = pte_of (ram s) node b).
  { intros b Hb. destruct (Hps b Hb) as [Hr E]. rewrite P1, E, decide_False; [done| |done].
    intros ->%list_elem_of_singleton. done. }
  split_and!.
  - intros va Hva. rewrite P2, P1 by done.
    destruct (decide (pg va ∈ ps)) as [E1|E1], (decide (pg va ∈ [a])) as [E2|E2], (decide (pg va ∈ a :: ps)) as [E3|E3]; try done;
      rewrite elem_of_cons in E3; rewrite list_elem_of_singleton in E2; tauto.
  - intros p. rewrite L2, L1. split.
    + intros [[?|(b & ->%list_elem_of_singleton & ->)]|(b & Hb & ->)]; [by left|right; exists a; split; [by left|done]|].
      right. exists b. rewrite Eb by done. split; [by right|done].
    + intros [?|(b & Hb & ->)]; [by left; left|]. apply elem_of_cons in Hb as [->|Hb].
      * left. right. exists a. split; [by left|done].
      * right. exists b. by rewrite Eb.
  - intros x Hx Hnn. rewrite F2 by done. apply F1; [|done]. intros Hin. apply Hx, L2. by left.
Qed.

Lemma unmapped_nil s node l : unmapped s node l s l [].
Proof.
  split_and!; [|intros p; set_solver|done]. intros va Hva. rewrite decide_False by apply not_elem_of_nil. done.
Qed.

Lemma pages_elem va n x : x ∈ pages va (va + Z.of_nat n * PGSIZE) <-> exists i, 0 <= i < Z.of_nat n /\ x = va + i * PGSIZE.
Proof.
  unfold pages. rewrite list_elem_of_fmap. setoid_rewrite elem_of_upto.
  replace ((va + Z.of_nat n * PGSIZE - va + PGSIZE - 1) / PGSIZE) with (Z.of_nat n).
  - split; intros (i & ? & ?); eauto.
  - unfold PGSIZE. replace (va + Z.of_nat n * 4096 - va + 4096 - 1) with (4095 + Z.of_nat n * 4096) by lia.
    rewrite Z.div_add by lia. done.
Qed.

Lemma pages_nodup va stop : NoDup (pages va stop).
Proof. unfold pages. apply NoDup_fmap_2; [|apply NoDup_upto]. intros i j. unfold PGSIZE. lia. Qed.

Lemma pages_pg va n x : va mod PGSIZE = 0 -> pg x ∈ pages va (va + Z.of_nat n * PGSIZE) <-> va <= x < va + Z.of_nat n * PGSIZE.
Proof.
  intros Ha. rewrite pages_elem, pg_range by done. split.
  - intros (i & Hi & ->). unfold PGSIZE. lia.
  - intros Hx. exists ((pg x - va) / PGSIZE). pose proof (pg_aligned x) as Hp. unfold PGSIZE in *.
    pose proof (Z.div_mod (pg x) 4096 ltac:(lia)). pose proof (Z.div_mod va 4096 ltac:(lia)).
    replace (pg x - va) with ((pg x / 4096 - va / 4096) * 4096) by lia. rewrite Z.div_mul by lia. lia.
Qed.

Lemma uvmunmap_spec s root node l c va n :
  uspace s root node l -> LK_kmem ∉ held c -> va mod PGSIZE = 0 -> 0 <= va -> va + Z.of_nat n * PGSIZE <= TRAPFRAME ->
  (forall x, va <= x < va + Z.of_nat n * PGSIZE -> valid_pte (pte_of (ram s) node x) = true) ->
  wp (uvmunmap root va (Z.of_nat n) true) c s (fun _ c' s' => c' = c /\ exists l', uspace s' root node l' /\
    unmapped s node l s' l' (pages va (va + Z.of_nat n * PGSIZE))).
Proof.
  intros Hu Hl Ha Hva Hend Hv. destruct trapframe_bounds as (Ht & _ & Hm). unfold uvmunmap.
  rewrite (proj2 (Z.eqb_eq _ 0)) by done. cbn [negb]. rewrite u64_small by plia. set (ps := pages _ _).
  assert (Hps : forall x, x ∈ ps -> x mod PGSIZE = 0 /\ 0 <= x < TRAPFRAME /\ valid_pte (pte_of (ram s) node x) = true).
  { intros x Hx. apply pages_elem in Hx as (i & Hi & ->).
    assert (va + i * PGSIZE < va + Z.of_nat n * PGSIZE) by (unfold PGSIZE; lia).
    split; [rewrite Z.mod_add by done; done|]. split; [unfold PGSIZE in *; lia|]. apply Hv. unfold PGSIZE in *. lia. }
  assert (Hnd : NoDup ps) by apply pages_nodup. clearbody ps. clear Hv Hend Ha.
  revert s l Hu Hps. induction ps as [|a ps IH]; intros s l Hu Hps; cbn [mfor].
  { apply wp_ret. split; [done|]. exists l. split; [done|apply unmapped_nil]. }
  apply NoDup_cons in Hnd as [Hna Hnd]. destruct (Hps a ltac:(by left)) as (Haa & Hra & Hva').
  assert (Hpg : forall b, b ∈ a :: ps -> 0 <= b < MAXVA /\ pg b = b).
  { intros b Hb. destruct (Hps b Hb) as (Hab & Hrb & _). split; [lia|]. apply pg_in; [done|unfold PGSIZE; lia]. }
  apply wp_bind. eapply wp_mono; [by apply unmap_page_spec|]. cbn beta. intros _ c' s1 (-> & l1 & Hu1 & Hun1).
  eapply wp_mono; [apply (IH Hnd s1 l1 Hu1)|].
  - intros x Hx. destruct (Hps x ltac:(by right)) as (? & Hrx & Hvx). split_and!; [done|lia|lia|].
    destruct Hun1 as (P1 & _ & _). rewrite P1 by lia. rewrite decide_False; [done|].
    destruct (Hpg x ltac:(by right)) as [_ ->]. intros ->%list_elem_of_singleton. done.
  - cbn beta. intros _ c' s2 (-> & l2 & Hu2 & Hun2). split; [done|]. exists l2. split; [done|].
    eapply unmapped_cons; [done|done| |done]. intros b Hb. apply Hpg. by right.
Qed.

(** ** Accounting for pages *)

(** A page of the program. *)
Definition data_page (s : mach) (node : list Z -> option Z) (p : Z) : Prop :=
  exists va, 0 <= va < TRAPFRAME /\ valid_pte (pte_of (ram s) node va) = true /\ PTE2PA (pte_of (ram s) node va) = p.

(** The pages that are free or belong to the process. *)
Definition total (s : mach) (node : list Z -> option Z) (l : list Z) (p : Z) : Prop :=
  p ∈ l \/ is_node node p \/ data_page s node p.

(** Pages are neither lost nor gained, and memory outside them does not change. *)
Record confined (s : mach) (node : list Z -> option Z) (l : list Z) (s' : mach) (node' : list Z -> option Z) (l' : list Z) : Prop := {
  cf_total p : total s' node' l' p <-> total s node l p;
  cf_frame x : ~ total s node l (pg x) -> rd (ram s') x = rd (ram s) x
}.

Lemma confined_refl s node l : confined s node l s node l.
Proof. by split. Qed.

Lemma confined_trans s0 n0 l0 s1 n1 l1 s2 n2 l2 :
  confined s0 n0 l0 s1 n1 l1 -> confined s1 n1 l1 s2 n2 l2 -> confined s0 n0 l0 s2 n2 l2.
Proof.
  intros H1 H2. split.
  - intros p. rewrite (cf_total _ _ _ _ _ _ H2). apply H1.
  - intros x Hx. rewrite (cf_frame _ _ _ _ _ _ H2); [by apply H1|]. by rewrite (cf_total _ _ _ _ _ _ H1).
Qed.

(** Nodes and free pages together are the same pages before and after a table grows. *)
Lemma evolves_pages s node l s' node' l' p :
  evolves s node l s' node' l' -> p ∈ l' \/ is_node node' p <-> p ∈ l \/ is_node node p.
Proof.
  intros He. split.
  - intros [Hp|Hp]; [left; by apply He|]. apply He in Hp as [?|[? _]]; tauto.
  - intros [Hp|(x & Hx)]; [by apply He|]. right. exists x. by apply He.
Qed.

Lemma data_page_ext s s' node node' :
  (forall va, 0 <= va < MAXVA -> pte_of (ram s') node' va = pte_of (ram s) node va) ->
  forall p, data_page s' node' p <-> data_page s node p.
Proof.
  intros Hp p. destruct trapframe_bounds as (Ht & _). unfold data_page.
  split; intros (va & Hva & Hv & E); exists va; (rewrite Hp in * by lia || rewrite <- Hp in * by lia); done.
Qed.

(** The program sees the same byte at an address whose entry has not changed. *)
Lemma ubyte_frame s root node l s' node' va :
  uspace s root node l ->
  (forall x, pg x ∉ l -> ~ is_node node (pg x) -> rd (ram s') x = rd (ram s) x \/ upa (ram s) node va <> Some x) ->
  pte_of (ram s') node' va = pte_of (ram s) node va -> ubyte (ram s') node' va = ubyte (ram s) node va.
Proof.
  intros Hu Hf Hp. unfold ubyte. assert (upa (ram s') node' va = upa (ram s) node va) as -> by (unfold upa; by rewrite Hp).
  destruct (upa (ram s) node va) as [x|] eqn:Hx; [|done]. cbn. f_equal.
  destruct (upa_inv _ _ _ _ _ _ Hu Hx) as (_ & _ & _ & _ & _ & Hnl & Hnn). destruct (Hf x Hnl Hnn); [done|congruence].
Qed.

(** *** Taking a page and giving it back *)

Lemma kalloc_user s root node l c :
  uspace s root node l -> LK_kmem ∉ held c ->
  wp kalloc c s (fun p c' s' => c' = c /\
    (p = 0 /\ l = [] /\ s' = s \/
     p <> 0 /\ exists l', l = p :: l' /\ uspace s' root node l' /\ fresh s' node l' p /\ only_page p s s' /\
       forall va, pte_of (ram s') node va = pte_of (ram s) node va)).
Proof.
  intros Hu Hl. pose proof (us_owns _ _ _ _ Hu) as (Hk & Hi & Hd). pose proof (kalloc_spec c s l Hk Hl) as Ha.
  destruct l as [|p l]; [exists 0, c, s; split; [done|]; split; [done|by left]|].
  destruct Ha as (s1 & Hrun & Hk1 & Hop & _). exists p, c, s1. split; [exact Hrun|]. split; [done|]. right.
  destruct Hk as (_ & [Hnl _]%NoDup_cons & [Hok _]%Forall_cons). pose proof (page_ok_pos _ Hok).
  pose proof (Hd p ltac:(by left)) as Hnn.
  destruct (uspace_keep s s1 root node (p :: l) l Hu Hk1) as [Hu1 Hp1].
  { intros q Hq. by right. }
  { intros a Ha. apply Hop, pg_out; [by apply page_ok_aligned|]. intros E. by rewrite E in Ha. }
  split; [lia|]. exists l. split_and!; [done|done| |done|done].
  split_and!; [done|done|done|]. intros va Hva. rewrite Hp1. intros Hv E.
  destruct (us_leaf _ _ _ _ Hu va Hva Hv) as (_ & _ & Hn & _). apply Hn. rewrite E. by left.
Qed.

Lemma kfree_user s root node l c p :
  uspace s root node l -> LK_kmem ∉ held c -> fresh s node l p ->
  wp (kfree p) c s (fun _ c' s' => c' = c /\ uspace s' root node (p :: l) /\ only_page p s s' /\
    forall va, pte_of (ram s') node va = pte_of (ram s) node va).
Proof.
  intros Hu Hl (Hok & Hnl & Hnn & Hnm). pose proof (us_owns _ _ _ _ Hu) as (Hk & Hi & Hd).
  destruct (kfree_spec p c s l Hk Hok Hnl Hl) as (s1 & Hrun & Hk1 & Hop). exists tt, c, s1. split; [exact Hrun|]. split; [done|].
  assert (Hf : forall a, is_node node (pg a) -> rd (ram s1) a = rd (ram s) a).
  { intros a Ha. apply Hop, pg_out; [by apply page_ok_aligned|]. intros E. by rewrite E in Ha. }
  destruct (pt_inv_frame (ram s) (ram s1) root node Hi Hf) as [Hi1 Hp1]. split_and!; [|done|done]. split.
  - split_and!; [done|done|]. intros q [->|Hq]%elem_of_cons; [done|by apply Hd].
  - intros va Hva. rewrite Hp1. intros Hv. destruct (us_leaf _ _ _ _ Hu va Hva Hv) as (? & ? & ? & ?).
    split_and!; [done|done| |done]. intros [E|?]%elem_of_cons; [by apply (Hnm va)|done].
  - intros va va'. rewrite !Hp1. apply Hu.
  - intros va. rewrite Hp1. apply Hu.
Qed.

(** A fresh page gets new contents. *)
Lemma fill_user s root node l p (f : mem -> mem) :
  uspace s root node l -> fresh s node l p -> (forall m x, pg x <> p -> rd (f m) x = rd m x) ->
  let s' := set_ram f s in
  uspace s' root node l /\ fresh s' node l p /\ forall va, pte_of (ram s') node va = pte_of (ram s) node va.
Proof.
  intros Hu (Hok & Hnl & Hnn & Hnm) Hf s'. pose proof (us_owns _ _ _ _ Hu) as (Hk & _).
  assert (Hk' : kinv s' l).
  { apply (kinv_only_page p s); [done| |done|by apply page_ok_aligned|done]. intros a Ha. cbn. apply Hf. intros E.
    pose proof (pg_bounds a). lia. }
  destruct (uspace_keep s s' root node l l Hu Hk') as [Hu' Hp'].
  { done. }
  { intros a Ha. cbn. apply Hf. intros E. by rewrite E in Ha. }
  split_and!; [done| |done]. split_and!; [done|done|done|]. intros va. rewrite Hp'. apply Hnm.
Qed.

(** *** Allocating, filling and mapping one page

    The step that the loops of [uvmalloc] and [uvmcopy] share, with their error exits:
    [E1] when there is no page, [E2] when there is none for the table, and [K] when the
    page has been mapped. *)

(** Nothing that the program can see has changed. *)
Definition same_view (s : mach) (node : list Z -> option Z) (s' : mach) (node' : list Z -> option Z) : Prop :=
  (forall va, 0 <= va < MAXVA -> pte_of (ram s') node' va = pte_of (ram s) node va) /\
  (forall va, ubyte (ram s') node' va = ubyte (ram s) node va).

(** Page [p], with the contents that [f] gives it, is mapped at [a]; [m] is the memory
    that [f] found. *)
Record mapped_page (s : mach) (node : list Z -> option Z) (l : list Z) (s' : mach) (node' : list Z -> option Z)
    (a p perm : Z) (f : mem -> mem) (m : mem) : Prop := {
  mp_free : p ∈ l;
  mp_pte va : 0 <= va < MAXVA -> pte_of (ram s') node' va = if decide (pg va = a) then mkpte p perm else pte_of (ram s) node va;
  mp_view va : pg va <> a -> ubyte (ram s') node' va = ubyte (ram s) node va;
  mp_found x : pg x <> p -> rd m x = rd (ram s) x;
  mp_contents x : pg x = p -> rd (ram s') x = rd (f m) x
}.

Lemma upa_none_out s node va : ~ 0 <= va < MAXVA -> ubyte (ram s) node va = None.
Proof. intros Hn. unfold ubyte, upa. by rewrite decide_False. Qed.

Lemma alloc_fill_map root node l c s a perm (f : Z -> mem -> mem) (E1 E2 K : M mach Z) Q :
  uspace s root node l -> LK_kmem ∉ held c -> a mod PGSIZE = 0 -> 0 <= a < TRAPFRAME ->
  valid_pte (pte_of (ram s) node a) = false -> 0 <= perm < 1024 -> Z.lor perm PTE_V <> PTE_V ->
  (forall p m x, page_ok p -> pg x <> p -> rd (f p m) x = rd m x) ->
  (l = [] -> wp E1 c s Q) ->
  (forall s' node' l', uspace s' root node' l' -> confined s node l s' node' l' -> same_view s node s' node' -> wp E2 c s' Q) ->
  (forall s' node' l' p m, uspace s' root node' l' -> confined s node l s' node' l' ->
    mapped_page s node l s' node' a p perm (f p) m -> wp K c s' Q) ->
  wp (p <- kalloc ;; if p =? 0 then E1 else
      modify (set_ram (f p)) ;; r <- mappages root a PGSIZE p perm ;; if negb (r =? 0) then kfree p ;; E2 else K) c s Q.
Proof.
  intros Hu Hl Ha Hr Hinv Hperm Hleaf Hf H1 H2 H3. destruct trapframe_bounds as (Ht & Hta & _).
  apply wp_bind. eapply wp_mono; [by apply kalloc_user|]. cbn beta.
  intros p c' s1 (-> & [(-> & -> & ->)|(Hp0 & l1 & -> & Hu1 & Hfr1 & Hop & Hp1)]); [by apply H1|].
  rewrite (proj2 (Z.eqb_neq p 0)) by done. pose proof (proj1 Hfr1) as Hok.
  destruct (fill_user s1 root node l1 p (f p) Hu1 Hfr1) as (Hu2 & Hfr2 & Hp2); [intros m x; by apply Hf|].
  apply wp_bind, wp_modify. set (s2 := set_ram (f p) s1) in *.
  assert (Hs2 : forall x, pg x <> p -> rd (ram s2) x = rd (ram s) x).
  { intros x Hx. cbn. rewrite Hf by done. apply Hop, pg_out; [by apply page_ok_aligned|done]. }
  assert (Hfill : forall x, rd (ram s2) x = rd (f p (ram s1)) x) by done. clearbody s2.
  assert (Hpl : p ∈ p :: l1) by (by left).
  apply wp_bind. eapply wp_mono; [apply (map_one s2 root node l1 c a p perm Hu2 Hl Hfr2 Ha Hr); [by rewrite Hp2, Hp1|done|done]|].
  cbn beta. intros r c' s3 (-> & node' & l' & Hu3 & He & Hres).
  assert (Hpages : forall q, q ∈ l' \/ is_node node' q <-> q ∈ l1 \/ is_node node q) by (intros q; by eapply evolves_pages).
  destruct Hfr2 as (_ & Hnl & Hnn & Hnm).
  assert (Hs3 : forall x, pg x ∉ p :: l1 -> ~ is_node node (pg x) -> rd (ram s3) x = rd (ram s) x).
  { intros x Hx Hn. apply not_elem_of_cons in Hx as [Hxp Hx]. rewrite (ev_frame _ _ _ _ _ _ He) by done. by apply Hs2. }
  destruct Hres as [[-> Hpte]|(-> & -> & Hfr3 & Hpte)]; cbn [Z.eqb negb Z.opp].
  - assert (Hpte' : forall va, 0 <= va < MAXVA -> pte_of (ram s3) node' va = if decide (pg va = a) then mkpte p perm else pte_of (ram s) node va).
    { intros va Hva. rewrite Hpte, Hp2, Hp1 by done. done. }
    destruct (mkpte_fields p perm ltac:(pose proof (page_ok_pos _ Hok); lia) Hperm) as (_ & Epa & _).
    rewrite (page_ok_aligned _ Hok : p mod 4096 = 0), Z.sub_0_r in Epa.
    assert (Hdata : forall q, data_page s3 node' q <-> data_page s node q \/ q = p).
    { intros q. split.
      - intros (va & Hva & Hv & E). rewrite Hpte' in Hv, E by lia. case_decide; [right; congruence|left; by exists va].
      - intros [(va & Hva & Hv & E)| ->].
        + exists va. rewrite Hpte' by lia. rewrite decide_False; [done|]. intros E'.
          rewrite <- pte_of_pg, E' in Hv. congruence.
        + exists a. rewrite Hpte', (pg_in a a), decide_True by (done || lia || unfold PGSIZE; lia).
          split_and!; [lia|lia| |done]. apply mkpte_valid; [pose proof (page_ok_pos _ Hok); lia|done]. }
    apply (H3 s3 node' l' p (ram s1)); [done| |].
    + split; [|intros x Hx; apply Hs3; unfold total in Hx; tauto]. intros q. unfold total. rewrite Hdata, elem_of_cons.
      specialize (Hpages q). tauto.
    + split; [done|done| | |].
      * intros va Hne. destruct (decide (0 <= va < MAXVA)); [|by rewrite !upa_none_out].
        eapply ubyte_frame; [done| |]. { intros x Hx Hn. left. by apply Hs3. }
        rewrite Hpte' by done. by rewrite decide_False.
      * intros x Hx. apply Hop, pg_out; [by apply page_ok_aligned|done].
      * intros x Hx. rewrite (ev_frame _ _ _ _ _ _ He) by (by rewrite Hx). apply Hfill.
  - apply wp_bind. eapply wp_mono; [by apply (kfree_user s3 root node' [] c p)|]. cbn beta.
    intros _ c' s4 (-> & Hu4 & Hop4 & Hp4).
    assert (Hs4 : forall x, pg x ∉ p :: l1 -> ~ is_node node (pg x) -> rd (ram s4) x = rd (ram s) x).
    { intros x Hx Hn. rewrite <- Hs3 by done. apply Hop4, pg_out; [by apply page_ok_aligned|]. intros E. apply Hx. rewrite E. by left. }
    assert (Hpte' : forall va, 0 <= va < MAXVA -> pte_of (ram s4) node' va = pte_of (ram s) node va).
    { intros va Hva. rewrite Hp4, Hpte, Hp2, Hp1 by done. done. }
    apply (H2 s4 node' [p]); [done| |].
    + split; [|intros x Hx; apply Hs4; unfold total in Hx; tauto]. intros q. unfold total. rewrite (data_page_ext s s4 node node' Hpte').
      specialize (Hpages q). rewrite !elem_of_cons. rewrite elem_of_nil in *. tauto.
    + split; [done|]. intros va. destruct (decide (0 <= va < MAXVA)); [|by rewrite !upa_none_out].
      eapply ubyte_frame; [done| |by apply Hpte']. intros x Hx Hn. left. by apply Hs4.
Qed.

(** ** uvmdealloc *)

Lemma unmapped_confined s root node l s' l' ps :
  uspace s root node l -> unmapped s node l s' l' ps ->
  (forall a, a ∈ ps -> 0 <= a < TRAPFRAME /\ pg a = a /\ valid_pte (pte_of (ram s) node a) = true) ->
  confined s node l s' node l' /\
  forall va, ubyte (ram s') node va = if decide (pg va ∈ ps) then None else ubyte (ram s) node va.
Proof.
  intros Hu (P & L & F) Hps. destruct trapframe_bounds as (Ht & Hta & _). split; [split|].
  - intros q. unfold total. rewrite L. split.
    + intros [[?|(a & Ha & ->)]|[?|(va & Hva & Hv & E)]]; [by left| |by right; left|].
      * right. right. destruct (Hps a Ha) as (? & _ & ?). by exists a.
      * right. right. rewrite P in Hv, E by lia. case_decide; [done|]. by exists va.
    + intros [?|[?|(va & Hva & Hv & E)]]; [by left; left|by right; left|].
      destruct (decide (pg va ∈ ps)) as [Hin|Hin].
      * left. right. exists (pg va). split; [done|]. by rewrite pte_of_pg.
      * right. right. exists va. rewrite P by lia. by rewrite decide_False.
  - intros x Hx. apply F; [|intros ?; apply Hx; by right; left]. intros Hin. apply L in Hin as [?|(a & Ha & E)]; apply Hx; [by left|].
    right. right. destruct (Hps a Ha) as (? & _ & ?). by exists a.
  - intros va. destruct (decide (0 <= va < MAXVA)) as [Hr|Hr].
    2: { rewrite !upa_none_out by done. by case_decide. }
    case_decide as Hin.
    + unfold ubyte, upa. rewrite P, !decide_True by done. done.
    + apply (ubyte_frame s root node l); [done| |by rewrite P, decide_False].
      intros x Hx Hn. destruct (decide (upa (ram s) node va = Some x)) as [E|]; [left|by right]. apply F; [|done].
      destruct (upa_inv _ _ _ _ _ _ Hu E) as (Hlow & Huse & Epg & _). intros Hl'. apply L in Hl' as [?|(a & Ha & E')]; [done|].
      destruct (Hps a Ha) as (Hra & Hpa & Hva). unfold user_pte in Huse. apply andb_true_iff in Huse as [Hv _].
      apply Hin. rewrite (us_inj _ _ _ _ Hu va a) by (done || congruence). by rewrite Hpa.
Qed.

Lemma PGROUNDUP_id x : x mod PGSIZE = 0 -> 0 <= x <= TRAPFRAME -> PGROUNDUP x = x.
Proof.
  intros Hx Hr. destruct trapframe_bounds as (Ht & Hta & Hm). rewrite PGROUNDUP_eq by lia. unfold PGSIZE in Hx.
  rewrite <- Zplus_mod_idemp_l, Hx. change ((0 + 4095) mod 4096) with 4095. lia.
Qed.

Lemma PGROUNDUP_le x y : y mod PGSIZE = 0 -> 0 <= x <= y -> y <= TRAPFRAME -> PGROUNDUP x <= y.
Proof.
  intros Hy Hx Ht. destruct trapframe_bounds as (Ht' & Hta & Hm). pose proof (PGROUNDUP_bounds x ltac:(lia)).
  pose proof (PGROUNDUP_aligned x) as Hal. destruct (decide (PGROUNDUP x <= y)); [done|].
  destruct (page_ok_disjoint (PGROUNDUP x) y Hal Hy); lia.
Qed.

Lemma page_count b a : b mod PGSIZE = 0 -> a mod PGSIZE = 0 -> b <= a -> exists n, a - b = Z.of_nat n * PGSIZE /\ (a - b) / PGSIZE = Z.of_nat n.
Proof.
  intros Hb Ha Hle. unfold PGSIZE in *. pose proof (Z.div_mod a 4096 ltac:(lia)). pose proof (Z.div_mod b 4096 ltac:(lia)).
  exists (Z.to_nat (a / 4096 - b / 4096)). rewrite Z2Nat.id by lia. split; [lia|].
  replace (a - b) with ((a / 4096 - b / 4096) * 4096) by lia. apply Z.div_mul. lia.
Qed.

(** [uvmdealloc] from [oldsz] to a smaller [newsz] takes away exactly the whole pages
    between them. *)
Lemma uvmdealloc_spec s root node l c oldsz newsz :
  uspace s root node l -> LK_kmem ∉ held c -> 0 <= newsz <= TRAPFRAME -> 0 <= oldsz <= TRAPFRAME ->
  (forall x, PGROUNDUP newsz <= x < PGROUNDUP oldsz -> valid_pte (pte_of (ram s) node x) = true) ->
  wp (uvmdealloc root oldsz newsz) c s (fun r c' s' => c' = c /\ r = Z.min oldsz newsz /\ exists l', uspace s' root node l' /\
    confined s node l s' node l' /\
    (forall va, 0 <= va < MAXVA -> pte_of (ram s') node va =
      if decide (PGROUNDUP newsz <= va < PGROUNDUP oldsz) then 0 else pte_of (ram s) node va) /\
    (forall va, ubyte (ram s') node va = if decide (PGROUNDUP newsz <= va < PGROUNDUP oldsz) then None else ubyte (ram s) node va)).
Proof.
  intros Hu Hl Hn Ho Hv. destruct trapframe_bounds as (Ht & Hta & Hm). unfold uvmdealloc.
  pose proof (PGROUNDUP_aligned newsz) as An. pose proof (PGROUNDUP_aligned oldsz) as Ao.
  pose proof (PGROUNDUP_bounds newsz ltac:(lia)) as Bn. pose proof (PGROUNDUP_le oldsz TRAPFRAME Hta ltac:(lia) ltac:(lia)) as Bo.
  assert (Hnop : PGROUNDUP oldsz <= PGROUNDUP newsz -> exists l', uspace s root node l' /\ confined s node l s node l' /\
    (forall va, 0 <= va < MAXVA -> pte_of (ram s) node va =
      if decide (PGROUNDUP newsz <= va < PGROUNDUP oldsz) then 0 else pte_of (ram s) node va) /\
    (forall va, ubyte (ram s) node va = if decide (PGROUNDUP newsz <= va < PGROUNDUP oldsz) then None else ubyte (ram s) node va)).
  { intros Hle. exists l. split_and!; [done|apply confined_refl|intros va _|intros va]; by rewrite decide_False by lia. }
  destruct (oldsz <=? newsz) eqn:E; bool_spec.
  { apply wp_ret. split; [done|]. split; [lia|]. apply Hnop. apply PGROUNDUP_le; [done|lia|].
    apply PGROUNDUP_le; [done|lia|lia]. }
  apply wp_bind. destruct (PGROUNDUP newsz <? PGROUNDUP oldsz) eqn:E2; bool_spec.
  2: { apply wp_ret, wp_ret. split; [done|]. split; [lia|]. by apply Hnop. }
  destruct (page_count _ _ An Ao ltac:(lia)) as (n & En & Ed). rewrite Ed, s32_small by (unfold PGSIZE in *; lia).
  replace (PGROUNDUP oldsz) with (PGROUNDUP newsz + Z.of_nat n * PGSIZE) in * by lia.
  eapply wp_mono; [apply (uvmunmap_spec s root node l c (PGROUNDUP newsz) n Hu Hl An); [lia|lia|done]|].
  cbn beta. intros _ c' s' (-> & l' & Hu' & Hun). apply wp_ret. split; [done|]. split; [lia|]. exists l'.
  destruct (unmapped_confined s root node l s' l' _ Hu Hun) as [Hc Hb].
  { intros a Ha. apply pages_elem in Ha as (i & Hi & ->).
    assert (PGROUNDUP newsz + i * PGSIZE < PGROUNDUP newsz + Z.of_nat n * PGSIZE) by (unfold PGSIZE; lia).
    split; [unfold PGSIZE in *; lia|]. split; [|apply Hv; unfold PGSIZE in *; lia].
    apply pg_in; [by rewrite Z.mod_add|unfold PGSIZE; lia]. }
  split_and!; [done|done| |].
  - intros va Hva. destruct Hun as (P & _ & _). rewrite P by done.
    destruct (decide (pg va ∈ _)) as [Hin|Hin], (decide (_ <= va < _)) as [Hr|Hr]; try done; rewrite pages_pg in Hin by done; tauto.
  - intros va. rewrite Hb.
    destruct (decide (pg va ∈ _)) as [Hin|Hin], (decide (_ <= va < _)) as [Hr|Hr]; try done; rewrite pages_pg in Hin by done; tauto.
Qed.

(** ** uvmalloc *)

Lemma perm_low x : 0 <= x < 1024 -> 0 <= Z.lor (Z.lor PTE_R PTE_U) x < 1024.
Proof. intros Hx. apply lor_lt_1024; [by_eval|done]. Qed.

(** The permissions of a program's page make a leaf that the program can use. *)
Lemma user_perm x : Z.lor (Z.lor (Z.lor PTE_R PTE_U) x) PTE_V <> PTE_V /\ Z.land (Z.lor (Z.lor (Z.lor PTE_R PTE_U) x) PTE_V) PTE_U <> 0.
Proof.
  split; intros E.
  - apply (f_equal (fun z => Z.testbit z 1)) in E. rewrite !Z.lor_spec in E. done.
  - apply (f_equal (fun z => Z.testbit z 4)) in E. rewrite Z.land_spec, !Z.lor_spec in E. done.
Qed.

Lemma mkpte_user p x : page_ok p -> 0 <= x < 1024 -> user_pte (mkpte p (Z.lor (Z.lor PTE_R PTE_U) x)) = true /\
  PTE2PA (mkpte p (Z.lor (Z.lor PTE_R PTE_U) x)) = p.
Proof.
  intros Hok Hx. pose proof (page_ok_pos _ Hok). pose proof (perm_low x Hx).
  destruct (mkpte_fields p (Z.lor (Z.lor PTE_R PTE_U) x)) as (_ & Epa & _ & Hl); [lia|done|].
  rewrite (page_ok_aligned _ Hok : p mod 4096 = 0), Z.sub_0_r in Epa. split; [|done]. unfold user_pte.
  rewrite mkpte_valid by (done || lia). cbn [andb]. apply negb_true_iff, Z.eqb_neq. rewrite Hl by by_eval. apply user_perm.
Qed.

Lemma memset_page p m x : page_ok p -> pg x <> p -> rd (memset m p 0 PGSIZE) x = rd m x.
Proof. intros Hok Hx. apply rd_memset_out, pg_out; [by apply page_ok_aligned|done]. Qed.

(** The page that [uvmalloc] maps reads as zeroes. *)
Lemma mapped_zero s node l s' node' a p x m va :
  mapped_page s node l s' node' a p (Z.lor (Z.lor PTE_R PTE_U) x) (fun m => memset m p 0 PGSIZE) m -> page_ok p -> 0 <= x < 1024 ->
  0 <= va < MAXVA -> pg va = a -> ubyte (ram s') node' va = Some 0.
Proof.
  intros Hm Hok Hx Hva Hpg. unfold ubyte, upa. rewrite decide_True by done. rewrite (mp_pte _ _ _ _ _ _ _ _ _ _ Hm), decide_True by done.
  destruct (mkpte_user p x Hok Hx) as [-> ->]. cbn. f_equal. pose proof (Z.mod_pos_bound va PGSIZE ltac:(done)).
  rewrite (mp_contents _ _ _ _ _ _ _ _ _ _ Hm).
  - rewrite rd_memset_in by lia. done.
  - apply pg_in; [by apply page_ok_aligned|lia].
Qed.

Lemma uvmalloc_loop_spec root b newsz x c : b mod PGSIZE = 0 -> 0 <= b -> 0 <= newsz <= TRAPFRAME -> 0 <= x < 1024 -> LK_kmem ∉ held c ->
  forall fuel s node l a,
  uspace s root node l -> a mod PGSIZE = 0 -> b <= a -> a <= Z.max b (PGROUNDUP newsz) ->  newsz - a <= Z.of_nat fuel * PGSIZE ->
  (forall va, b <= va < a -> valid_pte (pte_of (ram s) node va) = true) ->
  (forall va, a <= va < PGROUNDUP newsz -> valid_pte (pte_of (ram s) node va) = false) ->
  wp (uvmalloc_loop fuel root b a newsz x) c s (fun r c' s' => c' = c /\ exists node' l',
    uspace s' root node' l' /\ confined s node l s' node' l' /\
    (r = newsz /\ (forall va, ubyte (ram s') node' va = if decide (a <= va < PGROUNDUP newsz) then Some 0 else ubyte (ram s) node va) \/
     r = 0 /\ (forall va, ubyte (ram s') node' va = if decide (b <= va < a) then None else ubyte (ram s) node va))).
Proof.
  intros Hb Hb0 Hn Hx Hl. destruct trapframe_bounds as (Ht & Hta & Hmax).
  pose proof (PGROUNDUP_aligned newsz) as An. pose proof (PGROUNDUP_bounds newsz ltac:(lia)) as Bn.
  pose proof (PGROUNDUP_le newsz TRAPFRAME Hta ltac:(lia) ltac:(lia)) as Bt.
  induction fuel as [|fuel IH]; intros s node l a Hu Ha Hba Han Hf Hv Hi; cbn [uvmalloc_loop].
  all: destruct (newsz <=? a) eqn:E; bool_spec; try lia.
  1,2: apply wp_ret; split; [done|]; exists node, l; split_and!; [done|apply confined_refl|left]; split; [done|]; intros va;
    rewrite decide_False; [done|]; intros ?; pose proof (PGROUNDUP_le newsz a Ha ltac:(lia)); lia.
  assert (Hat : 0 <= a < TRAPFRAME) by lia.
  assert (Hnext : a + PGSIZE <= PGROUNDUP newsz).
  { destruct (page_ok_disjoint a (PGROUNDUP newsz) Ha An); lia. }
  assert (Hfail : forall s1 node1 l1, uspace s1 root node1 l1 -> confined s node l s1 node1 l1 -> same_view s node s1 node1 ->
    wp (uvmdealloc root a b ;; ret 0) c s1 (fun r c' s' => c' = c /\ exists node' l',
      uspace s' root node' l' /\ confined s node l s' node' l' /\
      (r = newsz /\ (forall va, ubyte (ram s') node' va = if decide (a <= va < PGROUNDUP newsz) then Some 0 else ubyte (ram s) node va) \/
       r = 0 /\ (forall va, ubyte (ram s') node' va = if decide (b <= va < a) then None else ubyte (ram s) node va)))).
  { intros s1 node1 l1 Hu1 Hc1 [Hp1 Hb1]. apply wp_bind.
    eapply wp_mono; [apply (uvmdealloc_spec s1 root node1 l1 c a b Hu1 Hl); [lia|lia|]|].
    - rewrite !PGROUNDUP_id by (done || lia). intros va Hva. rewrite Hp1 by lia. by apply Hv.
    - cbn beta. rewrite !PGROUNDUP_id by (done || lia). intros r c' s' (-> & _ & l' & Hu' & Hc' & _ & Hb').
      apply wp_ret. split; [done|]. exists node1, l'. split_and!; [done|by eapply confined_trans|right]. split; [done|].
      intros va. rewrite Hb', Hb1. done. }
  apply (alloc_fill_map root node l c s a (Z.lor (Z.lor PTE_R PTE_U) x) (fun p m => memset m p 0 PGSIZE)); try done.
  - apply Hi. lia.
  - by apply perm_low.
  - apply user_perm.
  - intros p m y. apply memset_page.
  - intros ->. apply (Hfail s node []); [done|apply confined_refl|by split].
  - intros s1 node1 l1 p m Hu1 Hc1 Hm1.
    assert (Hok : page_ok p).
    { destruct (us_owns _ _ _ _ Hu) as ((_ & _ & Hall) & _ & _). rewrite Forall_forall in Hall. apply Hall, Hm1. }
    eapply wp_mono; [apply (IH s1 node1 l1 (a + PGSIZE) Hu1)|].
    + by rewrite <- Zplus_mod_idemp_l, Ha.
    + unfold PGSIZE; lia.
    + lia.
    + unfold PGSIZE in *; lia.
    + intros va Hva. rewrite (mp_pte _ _ _ _ _ _ _ _ _ _ Hm1) by lia. case_decide as Ep.
      * destruct (mkpte_user p x Hok Hx) as [Huu _]. by apply andb_true_iff in Huu as [? _].
      * apply Hv. split; [lia|]. destruct (decide (va < a)); [done|]. exfalso. apply Ep, pg_in; [done|lia].
    + intros va Hva. rewrite (mp_pte _ _ _ _ _ _ _ _ _ _ Hm1) by lia. rewrite decide_False; [apply Hi; unfold PGSIZE in *; lia|].
      intros Ep. pose proof (pg_bounds va). lia.
    + cbn beta. intros r c' s' (-> & node' & l' & Hu' & Hc' & Hr). split; [done|]. exists node', l'.
      split_and!; [done|by eapply confined_trans|].
      assert (Hone : forall va, ubyte (ram s1) node1 va = if decide (a <= va < a + PGSIZE) then Some 0 else ubyte (ram s) node va).
      { intros va. case_decide as Hin.
        - eapply mapped_zero; [done|done|done|lia|]. by apply pg_in.
        - apply (mp_view _ _ _ _ _ _ _ _ _ _ Hm1). intros Ep. pose proof (pg_bounds va). lia. }
      destruct Hr as [[-> Hr]|[-> Hr]]; [left|right]; (split; [done|]); intros va; rewrite Hr, Hone.
      * destruct (decide (a + PGSIZE <= va < PGROUNDUP newsz)), (decide (a <= va < a + PGSIZE)), (decide (a <= va < PGROUNDUP newsz)); try done; lia.
      * destruct (decide (b <= va < a + PGSIZE)), (decide (a <= va < a + PGSIZE)), (decide (b <= va < a)); try done; try lia.
        symmetry. unfold ubyte, upa. rewrite decide_True by lia. unfold user_pte. by rewrite Hi by lia.
Qed.

(** [uvmalloc] grows the process by zeroed pages, or leaves everything the program sees
    as it was. *)
Lemma uvmalloc_spec s root node l c oldsz newsz x :
  uspace s root node l -> LK_kmem ∉ held c -> 0 <= oldsz <= newsz -> newsz <= TRAPFRAME -> 0 <= x < 1024 ->
  (forall va, PGROUNDUP oldsz <= va < PGROUNDUP newsz -> valid_pte (pte_of (ram s) node va) = false) ->
  wp (uvmalloc root oldsz newsz x) c s (fun r c' s' => c' = c /\ exists node' l',
    uspace s' root node' l' /\ confined s node l s' node' l' /\
    (r = newsz /\ (forall va, ubyte (ram s') node' va = if decide (PGROUNDUP oldsz <= va < PGROUNDUP newsz) then Some 0 else ubyte (ram s) node va) \/
     r = 0 /\ (forall va, ubyte (ram s') node' va = ubyte (ram s) node va))).
Proof.
  intros Hu Hl Ho Hn Hx Hi. destruct trapframe_bounds as (Ht & Hta & Hm). unfold uvmalloc.
  rewrite (proj2 (Z.ltb_ge _ _)) by lia. pose proof (PGROUNDUP_aligned oldsz) as Ao. pose proof (PGROUNDUP_bounds oldsz ltac:(lia)) as Bo.
  eapply wp_mono; [apply (uvmalloc_loop_spec root (PGROUNDUP oldsz) newsz x c Ao ltac:(lia) ltac:(lia) Hx Hl _ s node l (PGROUNDUP oldsz) Hu Ao)|].
  - lia.
  - lia.
  - unfold PGSIZE. set (d := newsz - PGROUNDUP oldsz + 4096 - 1). pose proof (Z.div_mod d 4096 ltac:(lia)). pose proof (Z.mod_pos_bound d 4096 ltac:(lia)). lia.
  - intros va Hva. lia.
  - done.
  - cbn beta. intros r c' s' (-> & node' & l' & Hu' & Hc & Hr). split; [done|]. exists node', l'. split_and!; [done|done|].
    destruct Hr as [Hr|[-> Hr]]; [by left|right]. split; [done|]. intros va. rewrite Hr. by rewrite decide_False by lia.
Qed.
End ualloc.
