(* ===== verification/UserFork.v ===== *)
(** * Copying a process: [uvmcopy] of kernel/vm.c, and the properties of virtual memory

    Two address spaces in one physical memory: the parent's, which stays as it is, and
    the child's, which [uvmcopy] fills with copies of the parent's pages.  The last
    part states what the files PageTable, UserSpace and UserAlloc show. *)

From S2P Require Import Prelude KMonad Riscv Mem Kalloc Vm PageTable UserMem UserVm UserSpace UserAlloc.

Section fork.
Context `{KernelImage}.

(** The pages of one address space are not pages of another, nor free. *)
Definition apart (s : mach) (node1 node2 : list Z -> option Z) (l : list Z) : Prop :=
  forall p, is_node node1 p \/ data_page s node1 p -> ~ total s node2 l p.

Lemma upa_data s root node l va x : uspace s root node l -> upa (ram s) node va = Some x -> data_page s node (pg x).
Proof.
  intros Hu Hx. destruct (upa_inv _ _ _ _ _ _ Hu Hx) as (Hr & Huse & E & _). unfold user_pte in Huse.
  apply andb_true_iff in Huse as [Hv _]. by exists va.
Qed.

(** An address space does not notice what happens in another. *)
Lemma other_space s s' root1 node1 root2 node2 node2' l l' :
  uspace s root1 node1 l -> uspace s' root2 node2' l' -> confined s node2 l s' node2' l' -> apart s node1 node2 l ->
  uspace s' root1 node1 l' /\ same_view s node1 s' node1 /\ apart s' node1 node2' l' /\
  forall x, data_page s node1 (pg x) -> rd (ram s') x = rd (ram s) x.
Proof.
  intros Hu1 Hu2 Hc Hap. destruct (us_owns _ _ _ _ Hu1) as (Hk1 & Hi1 & Hd1). destruct (us_owns _ _ _ _ Hu2) as (Hk2 & _ & _).
  assert (Hmem : forall x, is_node node1 (pg x) \/ data_page s node1 (pg x) -> rd (ram s') x = rd (ram s) x).
  { intros x Hx. apply Hc. by apply Hap. }
  destruct (pt_inv_frame (ram s) (ram s') root1 node1 Hi1) as [Hi' Hp]; [intros a Ha; apply Hmem; by left|].
  assert (Hap' : apart s' node1 node2' l').
  { intros p Hpp Ht. apply (cf_total _ _ _ _ _ _ Hc) in Ht. apply (Hap p); [|done]. destruct Hpp as [?|?]; [by left|right].
    by apply (data_page_ext s s' node1 node1) in H0. }
  split_and!; [|split; [done|]|done|intros x Hx; apply Hmem; by right].
  - split.
    + split_and!; [done|done|]. intros p Hin Hn. apply (Hap' p); [by left|by left].
    + intros va Hva. rewrite Hp. intros Hv. destruct (us_leaf _ _ _ _ Hu1 va Hva Hv) as (? & ? & ? & ?). split_and!; [done|done| |done].
      intros Hin. apply (Hap' (PTE2PA (pte_of (ram s) node1 va))); [|by left]. right. exists va. by rewrite Hp.
    + intros va va'. rewrite !Hp. apply Hu1.
    + intros va. rewrite Hp. apply Hu1.
  - intros va. apply (ubyte_frame s root1 node1 l); [done| |apply Hp]. intros x Hx Hn.
    destruct (decide (upa (ram s) node1 va = Some x)) as [E|]; [left|by right]. apply Hmem. right. by eapply upa_data.
Qed.

(** The entry of a copy has the flags of the original. *)
Lemma copy_pte e p :
  page_ok p -> valid_pte e = true -> user_pte (mkpte p (PTE_FLAGS e)) = user_pte e /\ PTE2PA (mkpte p (PTE_FLAGS e)) = p /\
  valid_pte (mkpte p (PTE_FLAGS e)) = true /\ Z.lor (PTE_FLAGS e) PTE_V = PTE_FLAGS e /\ 0 <= PTE_FLAGS e < 1024 /\
  PTE_FLAGS (mkpte p (PTE_FLAGS e)) = PTE_FLAGS e.
Proof.
  intros Hok Hv. pose proof (page_ok_pos _ Hok).
  assert (Hr : 0 <= PTE_FLAGS e < 1024).
  { unfold PTE_FLAGS. change 1023 with (Z.ones 10). rewrite Z.land_ones by lia. apply Z.mod_pos_bound. lia. }
  destruct (mkpte_fields p (PTE_FLAGS e)) as (_ & Epa & _ & Hl); [lia|done|].
  rewrite (page_ok_aligned _ Hok : p mod 4096 = 0), Z.sub_0_r in Epa.
  assert (Hb : Z.testbit e 0 = true).
  { unfold valid_pte in Hv. apply negb_true_iff, Z.eqb_neq in Hv. destruct (Z.testbit e 0) eqn:E; [done|]. exfalso. apply Hv.
    apply Z.bits_inj'. intros n Hn. rewrite Z.land_spec, Z.bits_0. destruct (decide (n = 0)) as [->|]; [by rewrite E|].
    assert (Z.testbit PTE_V n = false) as ->; [|apply andb_false_r]. change PTE_V with (2 ^ 0). apply Z.pow2_bits_false. lia. }
  assert (HV : Z.lor (PTE_FLAGS e) PTE_V = PTE_FLAGS e).
  { apply Z.bits_inj'. intros n Hn. rewrite Z.lor_spec. unfold PTE_FLAGS. rewrite Z.land_spec.
    destruct (decide (n = 0)) as [->|]; [by rewrite Hb|].
    assert (Z.testbit PTE_V n = false) as ->; [|apply orb_false_r]. change PTE_V with (2 ^ 0). apply Z.pow2_bits_false. lia. }
  assert (Hm : forall m, 0 <= m < 1024 -> Z.land (mkpte p (PTE_FLAGS e)) m = Z.land e m).
  { intros m Hmr. rewrite Hl, HV by done. unfold PTE_FLAGS. rewrite <- Z.land_assoc. f_equal.
    change 1023 with (Z.ones 10). rewrite Z.land_comm, Z.land_ones by lia. by apply Z.mod_small. }
  split_and!; [|done|by apply mkpte_valid; [lia|]|done|lia|lia|by apply (Hm 1023)].
  unfold user_pte, valid_pte. by rewrite !Hm by by_eval.
Qed.

Lemma memmove_page p src m x : page_ok p -> pg x <> p -> rd (memmove m p src PGSIZE) x = rd m x.
Proof. intros Hok Hx. apply rd_memmove_out; [done|]. apply pg_out; [by apply page_ok_aligned|done]. Qed.

(** The child sees in its new page what the parent sees in the original. *)
Lemma mapped_copy s root1 node1 node2 l s' node2' a p m va :
  uspace s root1 node1 l -> 0 <= va < TRAPFRAME -> pg va = a -> valid_pte (pte_of (ram s) node1 va) = true -> page_ok p ->
  mapped_page s node2 l s' node2' a p (PTE_FLAGS (pte_of (ram s) node1 va)) (fun m => memmove m p (PTE2PA (pte_of (ram s) node1 va)) PGSIZE) m ->
  ubyte (ram s') node2' va = ubyte (ram s) node1 va.
Proof.
  intros Hu Hva Hpg Hv Hok Hm. destruct trapframe_bounds as (Ht & _). unfold ubyte, upa. rewrite !decide_True by lia.
  rewrite (mp_pte _ _ _ _ _ _ _ _ _ _ Hm), decide_True by (done || lia).
  set (e := pte_of (ram s) node1 va) in *. destruct (copy_pte e p Hok Hv) as (-> & -> & _).
  destruct (user_pte e); [|done]. cbn. f_equal. pose proof (Z.mod_pos_bound va PGSIZE ltac:(done)) as Hmod.
  destruct (us_leaf _ _ _ _ Hu va Hva Hv) as (_ & Hsrc & Hnl & _). fold e in Hsrc, Hnl.
  rewrite (mp_contents _ _ _ _ _ _ _ _ _ _ Hm) by (apply pg_in; [by apply page_ok_aligned|lia]).
  rewrite rd_memmove, decide_True by (done || lia).
  replace (PTE2PA e + (p + va mod PGSIZE - p)) with (PTE2PA e + va mod PGSIZE) by lia.
  apply (mp_found _ _ _ _ _ _ _ _ _ _ Hm). rewrite (pg_in (PTE2PA e)) by (by apply page_ok_aligned || lia).
  intros E1. apply Hnl. rewrite E1. apply Hm.
Qed.

(** What [uvmcopy] of the pages from [i] to [n] does to the child: it has the parent's bytes
    and the parent's permissions there, or no page below [n] any more. *)
Definition uvmcopied (s : mach) (node1 node2 : list Z -> option Z) (s' : mach) (node2' : list Z -> option Z) (i n r : Z) : Prop :=
  r = 0 /\ (forall va, ubyte (ram s') node2' va = if decide (i <= va < n) then ubyte (ram s) node1 va else ubyte (ram s) node2 va) /\
    (forall va, 0 <= va < MAXVA -> PTE_FLAGS (pte_of (ram s') node2' va) = PTE_FLAGS (if decide (i <= va < n) then pte_of (ram s) node1 va else pte_of (ram s) node2 va)) \/
  r = -1 /\ (forall va, ubyte (ram s') node2' va = if decide (0 <= va < i) then None else ubyte (ram s) node2 va) /\
    (forall va, 0 <= va < MAXVA -> valid_pte (pte_of (ram s') node2' va) = if decide (0 <= va < i) then false else valid_pte (pte_of (ram s) node2 va)).

(** One page more. *)
Lemma uvmcopied_step s root1 node1 node2 l s1 n1 s' n2 i n r p m :
  uspace s root1 node1 l -> i mod PGSIZE = 0 -> 0 <= i -> i + PGSIZE <= n -> n <= TRAPFRAME -> page_ok p ->
  valid_pte (pte_of (ram s) node1 i) = true -> (forall va, i <= va < n -> valid_pte (pte_of (ram s) node2 va) = false) ->
  same_view s node1 s1 node1 ->
  mapped_page s node2 l s1 n1 i p (PTE_FLAGS (pte_of (ram s) node1 i)) (fun m => memmove m p (PTE2PA (pte_of (ram s) node1 i)) PGSIZE) m ->
  uvmcopied s1 node1 n1 s' n2 (i + PGSIZE) n r -> uvmcopied s node1 node2 s' n2 i n r.
Proof.
  intros Hu1 Hi Hi0 Hin Hn Hok Hvi Hfree [Hp1 Hb1] Hm Hr. destruct trapframe_bounds as (Ht & _). assert (Hps : 0 < PGSIZE) by done.
  destruct (copy_pte _ p Hok Hvi) as (_ & _ & Hcv & _ & _ & Hcf).
  assert (Hpg : forall va, pg va = i <-> i <= va < i + PGSIZE) by (intros va; split; [intros E; pose proof (pg_bounds va) as Hb; rewrite E in Hb; exact Hb|intros ?; by apply pg_in]).
  assert (Hone : forall va, ubyte (ram s1) n1 va = if decide (i <= va < i + PGSIZE) then ubyte (ram s) node1 va else ubyte (ram s) node2 va).
  { intros va. case_decide as Hv.
    - assert (Ee : pte_of (ram s) node1 va = pte_of (ram s) node1 i) by (by rewrite <- pte_of_pg, (proj2 (Hpg va))).
      apply (mapped_copy s root1 node1 node2 l s1 n1 i p m va Hu1); [lia|by apply Hpg|by rewrite Ee|done|]. by rewrite Ee.
    - apply (mp_view _ _ _ _ _ _ _ _ _ _ Hm). by rewrite Hpg. }
  destruct Hr as [(-> & Hr & Hf)|(-> & Hr & Hf)]; [left|right]; (split_and!; [done|intros va; rewrite Hr, Hone, ?Hb1|intros va Hva; rewrite Hf, (mp_pte _ _ _ _ _ _ _ _ _ _ Hm), ?Hp1 by done]).
  - destruct (decide (i + PGSIZE <= va < n)), (decide (i <= va < i + PGSIZE)), (decide (i <= va < n)); try done; lia.
  - destruct (decide (i + PGSIZE <= va < n)), (decide (i <= va < n)); try done; try lia.
    + rewrite decide_True by (apply Hpg; lia). rewrite Hcf. by rewrite <- (pte_of_pg _ _ va), (proj2 (Hpg va)) by lia.
    + rewrite decide_False; [done|]. rewrite Hpg. lia.
  - destruct (decide (0 <= va < i + PGSIZE)), (decide (i <= va < i + PGSIZE)), (decide (0 <= va < i)); try done; try lia.
    symmetry. unfold ubyte, upa. rewrite decide_True by lia. unfold user_pte. by rewrite Hfree by lia.
  - destruct (decide (0 <= va < i + PGSIZE)), (decide (0 <= va < i)); try done; try lia.
    + symmetry. apply Hfree. lia.
    + rewrite decide_False; [done|]. rewrite Hpg. lia.
Qed.

Lemma uvmcopy_loop_spec root1 node1 root2 sz c : 0 <= sz <= TRAPFRAME -> LK_kmem ∉ held c ->
  forall fuel s node2 l i,
  uspace s root1 node1 l -> uspace s root2 node2 l -> apart s node1 node2 l ->
  i mod PGSIZE = 0 -> 0 <= i <= PGROUNDUP sz -> sz - i <= Z.of_nat fuel * PGSIZE ->
  (forall va, 0 <= va < PGROUNDUP sz -> valid_pte (pte_of (ram s) node1 va) = true) ->
  (forall va, 0 <= va < i -> valid_pte (pte_of (ram s) node2 va) = true) ->
  (forall va, i <= va < PGROUNDUP sz -> valid_pte (pte_of (ram s) node2 va) = false) ->
  wp (uvmcopy_loop fuel root1 root2 i sz) c s (fun r c' s' => c' = c /\ exists node2' l',
    uspace s' root1 node1 l' /\ uspace s' root2 node2' l' /\ confined s node2 l s' node2' l' /\ apart s' node1 node2' l' /\
    same_view s node1 s' node1 /\
    uvmcopied s node1 node2 s' node2' i (PGROUNDUP sz) r).
Proof.
  intros Hsz Hl. destruct trapframe_bounds as (Ht & Hta & Hmax).
  pose proof (PGROUNDUP_aligned sz) as An. pose proof (PGROUNDUP_bounds sz ltac:(lia)) as Bn.
  pose proof (PGROUNDUP_le sz TRAPFRAME Hta ltac:(lia) ltac:(lia)) as Bt.
  induction fuel as [|fuel IH]; intros s node2 l i Hu1 Hu2 Hap Hi Hir Hf Hold Hnew Hfree; cbn [uvmcopy_loop].
  all: destruct (sz <=? i) eqn:E; bool_spec; try lia.
  1,2: apply wp_ret; split; [done|]; exists node2, l; pose proof (PGROUNDUP_le sz i Hi ltac:(lia)); split_and!; [done|done|apply confined_refl|done|by split|left];
    split_and!; [done| |]; intros va; intros; rewrite decide_False; [done|lia|done|lia].
  assert (Hit : 0 <= i < TRAPFRAME) by lia.
  assert (Hnext : i + PGSIZE <= PGROUNDUP sz) by (destruct (page_ok_disjoint i (PGROUNDUP sz) Hi An); lia).
  assert (Hvi : valid_pte (pte_of (ram s) node1 i) = true) by (apply Hold; lia).
  destruct (us_owns _ _ _ _ Hu1) as (Hk & Hi1 & _).
  apply wp_bind. eexists _, c, s. split; [apply walk_lookup; [done|lia]|].
  assert (Hleaf : leaf_addr node1 i <> 0 /\ load64 (ram s) (leaf_addr node1 i) = pte_of (ram s) node1 i).
  { split.
    - intros E0. apply (leaf_addr_0 _ _ _ _ Hi1) in E0. unfold pte_of in Hvi. by rewrite E0 in Hvi.
    - unfold leaf_addr, pte_of in *. by destruct (node1 [_; _]). }
  destruct Hleaf as [Hnz Hload]. rewrite (proj2 (Z.eqb_neq _ 0)) by done. apply wp_bind, wp_gets. rewrite Hload.
  pose proof Hvi as Hvi'. unfold valid_pte in Hvi'. apply negb_true_iff in Hvi'. rewrite Hvi'.
  set (e := pte_of (ram s) node1 i) in *.
  destruct (us_leaf _ _ _ _ Hu1 i Hit Hvi) as (Hfl & Hsrc & _). fold e in Hfl, Hsrc.
  destruct (copy_pte e (PTE2PA e) Hsrc Hvi) as (_ & _ & _ & Hlor & Hfr & _).
  set (Post := fun (r : Z) (c' : ctx) (s' : mach) => c' = c /\ exists node2' l',
    uspace s' root1 node1 l' /\ uspace s' root2 node2' l' /\ confined s node2 l s' node2' l' /\ apart s' node1 node2' l' /\
    same_view s node1 s' node1 /\
    uvmcopied s node1 node2 s' node2' i (PGROUNDUP sz) r).
  assert (Hfail : forall s1 n1 l1, uspace s1 root2 n1 l1 -> confined s node2 l s1 n1 l1 -> same_view s node2 s1 n1 ->
    wp (uvmunmap root2 0 (i / PGSIZE) true ;; ret (-1)) c s1 Post).
  { intros s1 n1 l1 Hu3 Hc3 [Hp3 Hb3]. destruct (page_count 0 i eq_refl Hi ltac:(lia)) as (n & En & Ed).
    rewrite Z.sub_0_r in En, Ed. rewrite Ed. apply wp_bind.
    eapply wp_mono; [apply (uvmunmap_spec s1 root2 n1 l1 c 0 n Hu3 Hl); [done|lia|lia|]|].
    - intros va Hva. rewrite Hp3 by lia. apply Hnew. lia.
    - cbn beta. intros _ c' s' (-> & l' & Hu' & Hun). apply wp_ret. split; [done|]. exists n1, l'.
      destruct (unmapped_confined s1 root2 n1 l1 s' l' _ Hu3 Hun) as [Hc' Hb'].
      { intros a Ha. apply pages_elem in Ha as (j & Hj & ->). rewrite Z.add_0_l.
        split; [unfold PGSIZE in *; lia|]. split; [apply pg_in; [by apply Z.mod_mul|unfold PGSIZE; lia]|].
        rewrite Hp3 by (unfold PGSIZE in *; lia). apply Hnew. unfold PGSIZE in *. lia. }
      assert (Hc : confined s node2 l s' n1 l') by (by eapply confined_trans).
      destruct (other_space s s' root1 node1 root2 node2 n1 l l' Hu1 Hu' Hc Hap) as (? & ? & ? & _).
      split_and!; [done..|right]. split_and!; [done|intros va; rewrite Hb', Hb3|intros va Hva; rewrite (proj1 Hun), Hp3 by done].
      all: destruct (decide (pg va ∈ _)) as [Hin|Hin], (decide (0 <= va < i)); try done; rewrite pages_pg in Hin by done; lia. }
  apply (alloc_fill_map root2 node2 l c s i (PTE_FLAGS e) (fun p m => memmove m p (PTE2PA e) PGSIZE)); try done.
  - apply Hfree. lia.
  - by rewrite Hlor.
  - intros p m y. apply memmove_page.
  - intros ->. apply (Hfail s node2 []); [done|apply confined_refl|by split].
  - intros s1 n1 l1 p m Hu3 Hc3 Hm3.
    assert (Hok : page_ok p) by (destruct Hk as (_ & _ & Hall); rewrite Forall_forall in Hall; apply Hall, Hm3).
    destruct (other_space s s1 root1 node1 root2 node2 n1 l l1 Hu1 Hu3 Hc3 Hap) as (Hu1' & [Hp1 Hb1] & Hap' & _).
    eapply wp_mono; [apply (IH s1 n1 l1 (i + PGSIZE) Hu1' Hu3 Hap')|].
    + by rewrite <- Zplus_mod_idemp_l, Hi.
    + lia.
    + unfold PGSIZE in *; lia.
    + intros va Hva. rewrite Hp1 by lia. by apply Hold.
    + intros va Hva. rewrite (mp_pte _ _ _ _ _ _ _ _ _ _ Hm3) by lia. case_decide as Ep; [by destruct (copy_pte e p Hok Hvi) as (_ & _ & ? & _)|].
      apply Hnew. split; [lia|]. destruct (decide (va < i)); [done|]. exfalso. apply Ep, pg_in; [done|lia].
    + intros va Hva. rewrite (mp_pte _ _ _ _ _ _ _ _ _ _ Hm3) by lia. rewrite decide_False; [apply Hfree; unfold PGSIZE in *; lia|].
      intros Ep. pose proof (pg_bounds va). lia.
    + cbn beta. intros r c' s' (-> & n2 & l2 & A1 & A2 & A3 & A4 & [A5 A6] & Hr). split; [done|]. exists n2, l2.
      split_and!; [done|done|by eapply confined_trans|done|split; [intros va Hva; by rewrite A5, Hp1|intros va; by rewrite A6, Hb1]|].
      apply (uvmcopied_step s root1 node1 node2 l s1 n1 s' n2 i (PGROUNDUP sz) r p m); try done; try lia.
Qed.

(** ** An empty address space *)

Definition single (root : Z) (x : list Z) : option Z := match x with [] => Some root | _ => None end.

Lemma empty_space s root l :
  kinv s l -> page_ok root -> root ∉ l -> (forall j, 0 <= j < 512 -> load64 (ram s) (root + 8 * j) = 0) ->
  uspace s root (single root) l /\ forall va, pte_of (ram s) (single root) va = 0.
Proof.
  intros Hk Hok Hn Hz. assert (Hpte : forall va, pte_of (ram s) (single root) va = 0) by done.
  split; [|done]. split; [|intros va Hva; by rewrite Hpte|intros va va' H1 H2; by rewrite !Hpte|intros va Hva; by rewrite Hpte].
  split_and!; [done| |].
  - split; [done|by intros [|? ?] p [= <-]|by intros [|? ?] [|? ?] p|intros [|? ?] p; cbn; [lia|done]|by intros [|? ?] i q|].
    intros [|? ?] p i; [|done]. intros [= <-] _ Hi. by apply Hz.
  - intros p Hp ([|? ?] & Hx); [|done]. injection Hx as <-. done.
Qed.

(** [uvmcreate] makes one. *)
Lemma uvmcreate_spec s c l :
  kinv s l -> LK_kmem ∉ held c ->
  wp uvmcreate c s (fun r c' s' => c' = c /\
    (r = 0 /\ l = [] /\ s' = s \/ exists l', l = r :: l' /\ uspace s' r (single r) l' /\
      forall va, pte_of (ram s') (single r) va = 0)).
Proof.
  intros Hk Hl. unfold uvmcreate. apply wp_bind. pose proof (kalloc_spec c s l Hk Hl) as Ha. destruct l as [|p l].
  { exists 0, c, s. split; [done|]. apply wp_ret. split; [done|by left]. }
  destruct Ha as (s1 & Hrun & Hk1 & _). exists p, c, s1. split; [exact Hrun|].
  destruct Hk as (_ & [Hn _]%NoDup_cons & [Hok _]%Forall_cons). pose proof (page_ok_pos _ Hok).
  rewrite (proj2 (Z.eqb_neq p 0)) by lia. apply wp_bind, wp_modify, wp_ret. split; [done|]. right. exists l. split; [done|].
  apply empty_space; [|done|done|].
  - apply (kinv_only_page p s1); [done| |done|by apply page_ok_aligned|done]. intros a Ha. cbn. by rewrite rd_memset_out.
  - intros j Hj. cbn. apply load64_memset_0; unfold PGSIZE; lia.
Qed.

(** [uvmcreate] next to an address space that exists. *)
Lemma uvmcreate_beside s root1 node1 l c :
  uspace s root1 node1 l -> LK_kmem ∉ held c ->
  wp uvmcreate c s (fun r c' s' => c' = c /\
    (r = 0 /\ l = [] /\ s' = s \/ exists l', uspace s' root1 node1 l' /\ uspace s' r (single r) l' /\ apart s' node1 (single r) l' /\
      (forall va, pte_of (ram s') node1 va = pte_of (ram s) node1 va) /\ forall va, pte_of (ram s') (single r) va = 0)).
Proof.
  intros Hu Hl. unfold uvmcreate. apply wp_bind. eapply wp_mono; [by apply kalloc_user|]. cbn beta.
  intros p c' s1 (-> & [(-> & -> & ->)|(Hp0 & l1 & -> & Hu1 & Hfr1 & Hop & Hp1)]); [apply wp_ret; split; [done|by left]|].
  rewrite (proj2 (Z.eqb_neq p 0)) by done. pose proof Hfr1 as (Hok & Hnl & Hnn & Hnm).
  destruct (fill_user s1 root1 node1 l1 p (fun m => memset m p 0 PGSIZE) Hu1 Hfr1) as (Hu2 & Hfr2 & Hp2);
    [intros m x; by apply memset_page|].
  apply wp_bind, wp_modify, wp_ret. split; [done|]. right. exists l1.
  destruct (empty_space (set_ram (fun m => memset m p 0 PGSIZE) s1) p l1) as [Hu3 Hp3];
    [apply (us_owns _ _ _ _ Hu2)|done|done|intros j Hj; cbn; apply load64_memset_0; unfold PGSIZE; lia|].
  split_and!; [done|done| |intros va; by rewrite Hp2|done].
  intros q Hq [Hin|[([|? ?] & Hx)|(va & _ & Hv & _)]].
  - destruct Hq as [Hq|(va & Hva & Hv & E)].
    + by apply (us_owns _ _ _ _ Hu2) in Hin.
    + destruct (us_leaf _ _ _ _ Hu2 va Hva Hv) as (_ & _ & Hn & _). by rewrite E in Hn.
  - injection Hx as <-. destruct Hq as [Hq|(va & Hva & Hv & E)]; [done|]. destruct Hfr2 as (_ & _ & _ & Hnm2). by apply (Hnm2 va).
  - done.
  - by rewrite Hp3 in Hv.
Qed.
End fork.

Lemma loaded_stored m m' node va d src :
  loaded m' node va d -> stored m m' node va src -> length d = length src -> d = src.
Proof.
  intros Hd Hs Hl. apply list_eq_same_length with (length src); [done|done|]. intros i x y Hi Hx Hy.
  specialize (Hd (Z.of_nat i) ltac:(lia)). rewrite Hs, decide_True in Hd by lia. injection Hd as E.
  replace (va + Z.of_nat i - va) with (Z.of_nat i) in E by lia.
  rewrite <- (nthZ_lookup 0 d (Z.of_nat i) x), <- (nthZ_lookup 0 src (Z.of_nat i) y) by (lia || by rewrite Nat2Z.id). done.
Qed.

(** ** Properties *)

Section properties.
Context `{KernelImage}.

(** C35: [mappages] keeps the page table a well formed tree over pages of its own and maps
    what it was asked to map: called on a range below MAXVA none of whose pages is
    mapped, it does not panic; it returns 0 and every page of the range has the entry
    for its frame and permissions, or it returns -1 because no page is free and the
    pages it has reached are mapped.  Every other entry is as before, the pages it used
    are nodes of the table, and no other memory changes. *)
Theorem mappages_well_formed s root node l c va size pa perm :
  owns s root node l -> LK_kmem ∉ held c -> 0 <= va -> 0 < size -> va + size <= MAXVA ->
  let a := PGROUNDDOWN va in
  let n := (PGROUNDDOWN (va + size - 1) - a) / PGSIZE + 1 in
  0 <= pa -> pa + n * PGSIZE <= 2 ^ 56 -> 0 <= perm < 1024 ->
  (forall x, a <= x < a + n * PGSIZE -> valid_pte (pte_of (ram s) node x) = false) ->
  exists r s' node' l' k, mappages root va size pa perm c s = Ok r c s' /\
    owns s' root node' l' /\ evolves s node l s' node' l' /\
    (r = 0 /\ k = n \/ r = -1 /\ 0 <= k < n /\ l' = []) /\
    forall x, 0 <= x < MAXVA -> exists addr,
      walk root x false c s' = Ok addr c s' /\
      (if addr =? 0 then 0 else load64 (ram s') addr) =
        if decide (a <= x < a + k * PGSIZE) then mkpte (pa + (pg x - a)) perm else pte_of (ram s) node x.
Proof.
  intros Ho Hl Hva Hsz Hmax a n Hpa Hlim Hperm Hfree.
  destruct (mappages_spec root perm c s node l va size pa Ho Hl Hva Hsz Hmax Hpa Hlim Hperm Hfree)
    as (r & c' & s' & Hrun & -> & node' & l' & k & Ho' & He & Hmap & Hk & _).
  exists r, s', node', l', k. split_and!; [done..|]. intros x Hx. destruct Ho' as (_ & Hi & _).
  exists (leaf_addr node' x). split; [apply walk_lookup; [done|lia]|]. rewrite <- Hmap by done.
  unfold pte_of. destruct (leaf_addr node' x =? 0) eqn:E0; bool_spec.
  - apply (leaf_addr_0 _ _ _ _ Hi) in E0. by rewrite E0.
  - unfold leaf_addr in *. by destruct (node' [_; _]).
Qed.

(** C34: Bytes that [copyout] has copied to a program are what [copyin] copies back, and
    what the program reads: if all pages from [va] on are mapped for the program,
    [copyout] returns 0, [copyin] of the same range then returns 0 and the same bytes,
    the program's other bytes are unchanged, and so is all memory that is not the
    program's.  If some address of the range is not mapped, [copyout] returns -1. *)
Theorem copyout_copyin_roundtrip s root node l c va src :
  uspace s root node l -> 0 <= va -> bytes src ->
  exists r s', copyout root va src c s = Ok r c s' /\ uspace s' root node l /\
    ((forall a, va <= a < va + Z.of_nat (length src) -> is_Some (ubyte (ram s) node a)) ->
      r = 0 /\ copyin root va (Z.of_nat (length src)) c s' = Ok (0, src) c s' /\
      stored (ram s) (ram s') node va src /\ only_user (ram s) (ram s') node va (Z.of_nat (length src))) /\
    ((exists a, va <= a < va + Z.of_nat (length src) /\ ubyte (ram s) node a = None) -> r = -1).
Proof.
  intros Hu Hva Hb.
  destruct (copyout_spec root node l c s va src Hu Hva Hb) as (r & c' & s' & Hrun & -> & Hu' & Hp & k & Hs & Ho & Hm & Hr).
  exists r, s'. split; [done|]. split; [done|]. destruct Hr as [[-> ->]|(-> & Hk & Hn)].
  - split; [|intros (a & Ha & Hn); destruct (Hm a Ha); congruence]. intros _.
    rewrite take_ge in Hs by lia. split_and!; [done| |done|done].
    destruct (copyin_spec root node l c s' va (Z.of_nat (length src)) Hu' Hva ltac:(lia)) as (r & d & Hin & Hd & _ & Hr).
    rewrite Nat2Z.id in Hr. rewrite Hin. destruct Hr as [[-> Hl]|(_ & Hl & Hn)].
    + do 2 f_equal. by apply (loaded_stored (ram s) (ram s') node va).
    + exfalso. rewrite Hs in Hn. rewrite decide_True in Hn by lia. done.
  - split; [|done]. intros Hall. destruct (Hall (va + Z.of_nat k)) as [? ?]; [lia|]. congruence.
Qed.

(** C33: Growing a process: [uvmalloc] either returns the new size, and the program then has
    zeroes in the pages it gained and everything else as it was, or returns 0 and the
    program sees no difference.  In both cases the page table is well formed, the pages
    are still the process's alone, and no page is lost: those that were free are free
    again, pages of the program or nodes of its table. *)
Theorem uvmalloc_grows_or_undoes s root node l c oldsz newsz xperm :
  uspace s root node l -> LK_kmem ∉ held c -> 0 <= oldsz <= newsz -> newsz <= TRAPFRAME -> 0 <= xperm < 1024 ->
  (forall va, PGROUNDUP oldsz <= va < PGROUNDUP newsz -> valid_pte (pte_of (ram s) node va) = false) ->
  exists r s' node' l', uvmalloc root oldsz newsz xperm c s = Ok r c s' /\
    uspace s' root node' l' /\ (forall p, total s' node' l' p <-> total s node l p) /\
    (forall x, ~ total s node l (pg x) -> rd (ram s') x = rd (ram s) x) /\
    (r = newsz /\ (forall va, ubyte (ram s') node' va =
       if decide (PGROUNDUP oldsz <= va < PGROUNDUP newsz) then Some 0 else ubyte (ram s) node va) \/
     r = 0 /\ (forall va, ubyte (ram s') node' va = ubyte (ram s) node va)).
Proof.
  intros Hu Hl Ho Hn Hx Hi.
  destruct (uvmalloc_spec s root node l c oldsz newsz xperm Hu Hl Ho Hn Hx Hi) as (r & c' & s' & Hrun & -> & node' & l' & Hu' & Hc & Hr).
  exists r, s', node', l'. split_and!; [done|done|apply Hc|apply Hc|done].
Qed.

(** C32: [fork] gives the child the memory of its parent: [uvmcopy] into a table with nothing
    mapped below the trapframe returns 0, and in every page below [sz] the child sees what
    the parent sees, with the flags of the parent's entry (readable, writable, executable,
    user), and above it the table is as it was; or it returns -1 and the child's table
    maps nothing below the trapframe again, every page that was free being free or a node
    of that table.  The parent's table and bytes are unchanged in both cases, the two
    processes share no page, and no page is lost. *)
Theorem uvmcopy_copies_memory s root1 node1 root2 node2 l c sz :
  uspace s root1 node1 l -> uspace s root2 node2 l -> apart s node1 node2 l -> LK_kmem ∉ held c -> 0 <= sz <= TRAPFRAME ->
  (forall va, 0 <= va < PGROUNDUP sz -> valid_pte (pte_of (ram s) node1 va) = true) ->
  (forall va, 0 <= va < TRAPFRAME -> valid_pte (pte_of (ram s) node2 va) = false) ->
  exists r s' node2' l', uvmcopy root1 root2 sz c s = Ok r c s' /\
    uspace s' root1 node1 l' /\ uspace s' root2 node2' l' /\ apart s' node1 node2' l' /\
    (forall p, total s' node2' l' p <-> total s node2 l p) /\
    (forall va, ubyte (ram s') node1 va = ubyte (ram s) node1 va) /\
    (forall va, 0 <= va < MAXVA -> pte_of (ram s') node1 va = pte_of (ram s) node1 va) /\
    (r = 0 /\ (forall va, ubyte (ram s') node2' va = if decide (0 <= va < PGROUNDUP sz) then ubyte (ram s) node1 va else None) /\
       (forall va, 0 <= va < MAXVA -> PTE_FLAGS (pte_of (ram s') node2' va) =
          PTE_FLAGS (if decide (0 <= va < PGROUNDUP sz) then pte_of (ram s) node1 va else pte_of (ram s) node2 va)) \/
     r = -1 /\ (forall va, ubyte (ram s') node2' va = None) /\
       (forall va, 0 <= va < TRAPFRAME -> valid_pte (pte_of (ram s') node2' va) = false) /\
       (forall p, p ∈ l -> p ∈ l' \/ is_node node2' p)).
Proof.
  intros Hu1 Hu2 Hap Hl Hsz Hold Hnew. destruct trapframe_bounds as (Ht & Hta & Hmax).
  pose proof (PGROUNDUP_bounds sz ltac:(lia)) as Bn. pose proof (PGROUNDUP_le sz TRAPFRAME Hta ltac:(lia) ltac:(lia)) as Bt.
  assert (Hnone : forall va, ubyte (ram s) node2 va = None).
  { intros va. unfold ubyte, upa. case_decide; [|done]. destruct (decide (va < TRAPFRAME)); [unfold user_pte; by rewrite Hnew by lia|]. by rewrite (us_high _ _ _ _ Hu2) by lia. }
  destruct (uvmcopy_loop_spec root1 node1 root2 sz c Hsz Hl (Z.to_nat ((sz + PGSIZE - 1) / PGSIZE)) s node2 l 0 Hu1 Hu2 Hap)
    as (r & c' & s' & Hrun & -> & node2' & l' & A1 & A2 & A3 & A4 & [A5 A6] & Hr); try done; try lia.
  - unfold PGSIZE. pose proof (Z.div_mod (sz + 4096 - 1) 4096 ltac:(lia)). pose proof (Z.mod_pos_bound (sz + 4096 - 1) 4096 ltac:(lia)). lia.
  - intros va Hva. apply Hnew. lia.
  - exists r, s', node2', l'. split_and!; [exact Hrun|done|done|done|apply A3|done|done|].
    destruct Hr as [(-> & Hr & Hf)|(-> & Hr & Hf)]; [left|right].
    + split_and!; [done|intros va; by rewrite Hr, Hnone|done].
    + assert (Hinv : forall va, 0 <= va < TRAPFRAME -> valid_pte (pte_of (ram s') node2' va) = false) by (intros va Hva; rewrite Hf by lia; case_decide; [done|by apply Hnew]).
      split_and!; [done|intros va; rewrite Hr, Hnone; by case_decide|done|]. intros p Hp.
      destruct (proj2 (cf_total _ _ _ _ _ _ A3 p) (or_introl Hp)) as [?|[?|(va & Hva & Hv & _)]]; [by left|by right|]. by rewrite Hinv in Hv.
Qed.
End properties.

(** ** Witnesses *)

#[local] Program Instance ex_image : KernelImage := {|
  kend := KERNBASE + 34 * PGSIZE;
  etext := KERNBASE + 8 * PGSIZE;
  trampoline := KERNBASE + 7 * PGSIZE
|}.
Solve Obligations with (vm_compute; intuition discriminate).

(** Seven free pages; the first becomes the root of a page table, and one page of the
    program is allocated. *)
Definition ex_pages : list Z := (fun i => KERNBASE + (100 + i) * PGSIZE) <$> upto 7.
Definition ex_mem : mem := snd (foldr (fun p '(next, m) => (p, store64 m p next)) (0, ∅) ex_pages).
Definition ex_s0 : mach := Mach ex_mem (KERNBASE + 100 * PGSIZE).
Definition ex_c : ctx := Ctx [] [] 0.

Lemma ex_kinv : kinv ex_s0 ex_pages.
Proof.
  split_and!; [|by_eval|].
  - cbn [ex_pages]. repeat (split; [vm_compute; reflexivity|]). vm_compute. reflexivity.
  - unfold page_ok. by_eval.
Qed.

Lemma ex_unlocked : LK_kmem ∉ held ex_c.
Proof. apply not_elem_of_nil. Qed.

(** The run of an operation that returns a known value. *)
Definition run_is {A} `{EqDecision A} (m : M mach A) (s : mach) (a : A) : bool :=
  match m ex_c s with Ok a' _ _ => bool_decide (a' = a) | _ => false end.

Lemma run_is_wp {A} `{EqDecision A} (m : M mach A) s a Q :
  run_is m s a = true -> wp m ex_c s Q -> exists c' s', m ex_c s = Ok a c' s' /\ Q a c' s'.
Proof.
  unfold run_is. intros Hr (a' & c' & s' & E & HQ). rewrite E in Hr. apply bool_decide_eq_true in Hr as ->. by exists c', s'.
Qed.

Definition final {A} (m : M mach A) (s : mach) : mach := match m ex_c s with Ok _ _ s' => s' | _ => s end.

Definition ex_root : Z := KERNBASE + 100 * PGSIZE.
Definition ex_s1 : mach := final uvmcreate ex_s0.

Lemma ex_run1 : run_is uvmcreate ex_s0 ex_root = true.
Proof. vm_compute. reflexivity. Qed.

Lemma ex_space : uspace ex_s1 ex_root (single ex_root) (tail ex_pages) /\ forall va, pte_of (ram ex_s1) (single ex_root) va = 0.
Proof.
  destruct (run_is_wp uvmcreate ex_s0 ex_root _ ex_run1 (uvmcreate_spec ex_s0 ex_c ex_pages ex_kinv ex_unlocked))
    as (c' & s' & E & -> & Hr).
  assert (ex_s1 = s') as -> by (unfold ex_s1, final; by rewrite E).
  destruct Hr as [(H0 & _)|(l' & El & Hu)]; [by vm_compute in H0|]. rewrite El. exact Hu.
Qed.

Lemma mappages_well_formed_witness : exists r s' node' l' k,
  mappages ex_root 4096 8192 KERNBASE (Z.lor PTE_R PTE_X) ex_c ex_s1 = Ok r ex_c s' /\ owns s' ex_root node' l' /\
  (r = 0 /\ k = 2 \/ r = -1 /\ 0 <= k < 2 /\ l' = []).
Proof.
  destruct ex_space as [Hu Hp].
  destruct (mappages_well_formed ex_s1 ex_root (single ex_root) (tail ex_pages) ex_c 4096 8192 KERNBASE (Z.lor PTE_R PTE_X)
    (us_owns _ _ _ _ Hu) ex_unlocked ltac:(lia) ltac:(lia) ltac:(by_eval) ltac:(by_eval) ltac:(by_eval) ltac:(by_eval)
    ltac:(intros x _; by rewrite Hp)) as (r & s' & node' & l' & k & E & Ho & _ & Hr & _).
  exists r, s', node', l', k. split; [exact E|]. split; [exact Ho|]. exact Hr.
Defined.

Lemma uvmalloc_grows_or_undoes_witness : exists r s' node' l',
  uvmalloc ex_root 0 100 PTE_W ex_c ex_s1 = Ok r ex_c s' /\ uspace s' ex_root node' l' /\
  (r = 100 \/ r = 0).
Proof.
  destruct ex_space as [Hu Hp].
  destruct (uvmalloc_grows_or_undoes ex_s1 ex_root (single ex_root) (tail ex_pages) ex_c 0 100 PTE_W Hu ex_unlocked
    ltac:(lia) ltac:(by_eval) ltac:(by_eval) ltac:(intros va _; by rewrite Hp)) as (r & s' & node' & l' & E & Hu' & _ & _ & Hr).
  exists r, s', node', l'. split; [exact E|]. split; [exact Hu'|]. destruct Hr as [[-> _]|[-> _]]; [by left|by right].
Defined.

(** The state in which the program has its page. *)
Definition ex_s2 : mach := final (uvmalloc ex_root 0 100 PTE_W) ex_s1.

Lemma ex_run2 : run_is (uvmalloc ex_root 0 100 PTE_W) ex_s1 100 = true.
Proof. vm_compute. reflexivity. Qed.

Lemma ex_space2 : exists node l, uspace ex_s2 ex_root node l /\ forall va, 0 <= va < 4096 -> ubyte (ram ex_s2) node va = Some 0.
Proof.
  destruct ex_space as [Hu Hp].
  destruct (run_is_wp (uvmalloc ex_root 0 100 PTE_W) ex_s1 100 _ ex_run2
    (uvmalloc_spec ex_s1 ex_root (single ex_root) (tail ex_pages) ex_c 0 100 PTE_W Hu ex_unlocked ltac:(lia) ltac:(by_eval) ltac:(by_eval)
      ltac:(intros va _; by rewrite Hp))) as (c' & s' & E & _ & node & l & Hu2 & _ & Hr).
  assert (ex_s2 = s') as -> by (unfold ex_s2, final; by rewrite E).
  exists node, l. split; [done|]. destruct Hr as [[_ Hr]|[? _]]; [|done]. intros va Hva. rewrite Hr.
  change (PGROUNDUP 0) with 0. change (PGROUNDUP 100) with 4096. by rewrite decide_True by lia.
Qed.

Lemma copyout_copyin_roundtrip_witness : exists s',
  copyout ex_root 50 [104; 105] ex_c ex_s2 = Ok 0 ex_c s' /\ copyin ex_root 50 2 ex_c s' = Ok (0, [104; 105]) ex_c s'.
Proof.
  destruct ex_space2 as (node & l & Hu & Hz).
  destruct (copyout_copyin_roundtrip ex_s2 ex_root node l ex_c 50 [104; 105] Hu ltac:(lia) ltac:(unfold bytes; by_eval))
    as (r & s' & E & _ & Hmap & _).
  destruct Hmap as (-> & Ein & _); [intros a Ha; cbn in Ha; rewrite Hz by lia; by eexists|].
  exists s'. split; [exact E|exact Ein].
Defined.

Definition ex_child : Z := freelist ex_s2.
Definition ex_s3 : mach := final uvmcreate ex_s2.

Lemma ex_run3 : run_is uvmcreate ex_s2 ex_child = true.
Proof. vm_compute. reflexivity. Qed.

Lemma ubyte_valid m node va b : ubyte m node va = Some b -> valid_pte (pte_of m node va) = true.
Proof.
  unfold ubyte, upa. case_decide; [|done]. unfold user_pte. by destruct (valid_pte _).
Qed.

Lemma ex_two_spaces : exists node l,
  uspace ex_s3 ex_root node l /\ uspace ex_s3 ex_child (single ex_child) l /\ apart ex_s3 node (single ex_child) l /\
  (forall va, 0 <= va < 4096 -> valid_pte (pte_of (ram ex_s3) node va) = true) /\
  forall va, pte_of (ram ex_s3) (single ex_child) va = 0.
Proof.
  destruct ex_space2 as (node & l & Hu & Hz).
  destruct (run_is_wp uvmcreate ex_s2 ex_child _ ex_run3 (uvmcreate_beside ex_s2 ex_root node l ex_c Hu ex_unlocked))
    as (c' & s' & E & _ & Hr).
  assert (ex_s3 = s') as -> by (unfold ex_s3, final; by rewrite E).
  destruct Hr as [(H0 & _)|(l' & A1 & A2 & A3 & A4 & A5)]; [by vm_compute in H0|].
  exists node, l'. split_and!; [done|done|done| |done]. intros va Hva. rewrite A4. eapply ubyte_valid, Hz. done.
Qed.

Lemma uvmcopy_copies_memory_witness : exists r s' node2' l',
  uvmcopy ex_root ex_child 100 ex_c ex_s3 = Ok r ex_c s' /\ uspace s' ex_child node2' l' /\ (r = 0 \/ r = -1).
Proof.
  destruct ex_two_spaces as (node & l & A1 & A2 & A3 & A4 & A5).
  destruct (uvmcopy_copies_memory ex_s3 ex_root node ex_child (single ex_child) l ex_c 100 A1 A2 A3 ex_unlocked ltac:(by_eval) A4
    ltac:(intros va _; by rewrite A5)) as (r & s' & n2 & l' & E & _ & Hu & _ & _ & _ & _ & Hr).
  exists r, s', n2, l'. split; [exact E|]. split; [exact Hu|]. destruct Hr as [[-> _]|[-> _]]; [by left|by right].
Defined.
