(* ===== verification/KernelMap.v ===== *)
(** * The kernel's address space (kernel/vm.c, [kvmmake]; kernel/proc.c, [proc_mapstacks])

    [kvmmake] maps the devices, the kernel's text and data, the trampoline and a stack
    for every process.  With enough free pages it returns, and the table it makes maps
    exactly these ([boot_maps_kernel]): the tables it can need are counted, so that
    [mappages] does not run out of memory on the way. *)

From S2P Require Import Prelude KMonad Riscv Mem Kalloc Vm PageTable UserSpace UserAlloc UserFork.

(** ** Regions *)

(** [rg_n] pages from [rg_va] on, mapped to those from [rg_pa] on. *)
Record region := Region { rg_va : Z; rg_n : Z; rg_pa : Z; rg_perm : Z }.

Definition covers (va : Z) (r : region) : Prop := rg_va r <= va < rg_va r + rg_n r * PGSIZE.

#[export] Instance covers_dec va r : Decision (covers va r).
Proof. unfold covers. apply _. Defined.

Definition rw : Z := Z.lor PTE_R PTE_W.
Definition rx : Z := Z.lor PTE_R PTE_X.

(** A table of a given list. *)
Ltac in_tables := apply (bool_decide_unpack _); vm_compute; reflexivity.

Section kmap.
Context `{KernelImage}.

Definition fixed_regions : list region :=
  [Region UART0 1 UART0 rw; Region VIRTIO0 1 VIRTIO0 rw; Region PLIC 1024 PLIC rw;
   Region KERNBASE ((etext - KERNBASE) / PGSIZE) KERNBASE rx;
   Region etext ((PHYSTOP - etext) / PGSIZE) etext rw;
   Region TRAMPOLINE 1 trampoline rx].

Definition stack_region (p : nat) (pa : Z) : region := Region (KSTACK (Z.of_nat p)) 1 pa rw.
Definition stack_regions (stk : list Z) : list region := imap stack_region stk.

(** The tables on the way to all of these: the root, three for the gigabytes of the
    devices, of the RAM and of the top, and those below them. *)
Definition kernel_tables : list (list Z) :=
  [[]; [0]; [2]; [255]; [0; 96]; [0; 97]; [0; 128]; [255; 511]] ++ ((fun j => [2; j]) <$> upto 64).

(** Where the pages [l0] that were free at first are: tables of [T], or among [stk],
    which have been taken for something else. *)
Record kpages (T : list (list Z)) (l0 stk : list Z) (node : list Z -> option Z) (l : list Z) : Prop := {
  kp_tables y : is_Some (node y) -> y ∈ T;
  kp_nodes p : is_node node p -> p ∈ l0;
  kp_pages p : p ∈ l0 -> p ∈ l \/ is_node node p \/ p ∈ stk;
  kp_stk p : p ∈ stk -> page_ok p /\ p ∉ l /\ ~ is_node node p /\ p ∈ l0;
  kp_free p : p ∈ l -> p ∈ l0
}.

Lemma length_omap_le {A B} (f : A -> option B) l : (length (omap f l) <= length l)%nat.
Proof. induction l as [|x l IH]; cbn; [lia|]. destruct (f x); cbn; lia. Qed.

Lemma kpages_cost T l0 stk node l : NoDup l0 -> kpages T l0 stk node l -> (length l0 <= length l + length T + length stk)%nat.
Proof.
  intros Hnd K. assert (Hsub : l0 ⊆+ l ++ omap node T ++ stk).
  { apply NoDup_submseteq; [done|]. intros p Hp. rewrite !elem_of_app. destruct (kp_pages _ _ _ _ _ K p Hp) as [Hp'|[(y & Hy)|Hp']]; [by left| |by right; right].
    right. left. apply list_elem_of_omap. exists y. split; [apply (kp_tables _ _ _ _ _ K); by exists p|done]. }
  apply submseteq_length in Hsub. rewrite !length_app in Hsub. pose proof (length_omap_le node T). lia.
Qed.

(** There is a free page. *)
Lemma kpages_free T l0 stk node l : NoDup l0 -> (length T + length stk < length l0)%nat -> kpages T l0 stk node l -> l <> [].
Proof. intros Hnd Hlen K ->. apply kpages_cost in K; [|done]. cbn in K. lia. Qed.

Lemma kpages_evolves T l0 stk s node l s' node' l' (P : list Z -> Prop) : kpages T l0 stk node l -> evolves s node l s' node' l' ->
  new_nodes node node' P -> (forall y, P y -> y ∈ T) -> kpages T l0 stk node' l'.
Proof.
  intros K E Hnew HP. split.
  - intros y Hy. destruct (Hnew y Hy) as [Hy'|Hy']; [by apply (kp_tables _ _ _ _ _ K)|by apply HP].
  - intros p Hp. apply E in Hp as [Hp|[Hp _]]; [by apply (kp_nodes _ _ _ _ _ K)|by apply (kp_free _ _ _ _ _ K)].
  - intros p Hp. destruct (kp_pages _ _ _ _ _ K p Hp) as [Hp'|[(y & Hy)|Hp']]; [|right; left; exists y; by apply E|auto]. apply E in Hp' as [?|?]; auto.
  - intros p Hp. destruct (kp_stk _ _ _ _ _ K p Hp) as (? & Hnl & Hnn & ?). split_and!; [done|intros Hin; apply Hnl; by apply E| |done]. intros Hin. apply E in Hin as [?|[? _]]; done.
  - intros p Hp. apply (kp_free _ _ _ _ _ K). by apply E.
Qed.

(** The regions [rs] are mapped, and nothing else; pages that were not free at first are
    as in [m0]. *)
Record kst (T : list (list Z)) (l0 stk : list Z) (m0 : mem) (rs : list region) (s : mach) (root : Z) (node : list Z -> option Z) (l : list Z) : Prop := {
  ks_owns : owns s root node l;
  ks_in r va : r ∈ rs -> 0 <= va < MAXVA -> covers va r -> pte_of (ram s) node va = mkpte (rg_pa r + (pg va - rg_va r)) (rg_perm r);
  ks_out va : 0 <= va < MAXVA -> (forall r, r ∈ rs -> ~ covers va r) -> pte_of (ram s) node va = 0;
  ks_pages : kpages T l0 stk node l;
  ks_frame a : pg a ∉ l0 -> rd (ram s) a = rd m0 a
}.

(** A region that [mappages] can map with the tables [T]. *)
Record region_ok (T : list (list Z)) (rs : list region) (r : region) : Prop := {
  ro_va : rg_va r mod PGSIZE = 0 /\ 0 <= rg_va r /\ 0 < rg_n r /\ rg_va r + rg_n r * PGSIZE <= MAXVA;
  ro_pa : 0 <= rg_pa r /\ rg_pa r + rg_n r * PGSIZE <= 2 ^ 56;
  ro_perm : 0 <= rg_perm r < 1024;
  ro_apart r' va : r' ∈ rs -> covers va r' -> ~ covers va r;
  ro_tables va : covers va r -> [PX 2 va] ∈ T /\ [PX 2 va; PX 1 va] ∈ T
}.

Section build.
Context (T : list (list Z)) (l0 : list Z) (m0 : mem) (root : Z) (c : ctx) (Hnd : NoDup l0) (Hc : LK_kmem ∉ held c).

Lemma mappages_region stk rs r s node l : (length T + length stk < length l0)%nat ->
  kst T l0 stk m0 rs s root node l -> region_ok T rs r ->
  wp (mappages root (rg_va r) (rg_n r * PGSIZE) (rg_pa r) (rg_perm r)) c s (fun x c' s' =>
    c' = c /\ x = 0 /\ exists node' l', kst T l0 stk m0 (rs ++ [r]) s' root node' l' /\ evolves s node l s' node' l').
Proof using Hnd Hc.
  intros Hlen K [(Ha & Hva & Hn & Hmax) (Hpa & Hlim) Hperm Hap Htab].
  assert (Ea : PGROUNDDOWN (rg_va r) = rg_va r) by (by apply PGROUNDDOWN_id).
  assert (Eb : PGROUNDDOWN (rg_va r + rg_n r * PGSIZE - 1) = rg_va r + (rg_n r - 1) * PGSIZE).
  { rewrite PGROUNDDOWN_eq. apply pg_in; [|plia]. by rewrite Z.mod_add. }
  assert (En : (PGROUNDDOWN (rg_va r + rg_n r * PGSIZE - 1) - PGROUNDDOWN (rg_va r)) / PGSIZE + 1 = rg_n r).
  { rewrite Ea, Eb. replace (rg_va r + (rg_n r - 1) * PGSIZE - rg_va r) with ((rg_n r - 1) * PGSIZE) by lia. rewrite Z.div_mul by done. lia. }
  eapply wp_mono; [apply (mappages_spec root (rg_perm r) c s node l (rg_va r) (rg_n r * PGSIZE) (rg_pa r) (ks_owns _ _ _ _ _ _ _ _ _ K) Hc Hva); rewrite ?En, ?Ea|].
  - plia.
  - done.
  - done.
  - done.
  - done.
  - intros va Hcov. rewrite (ks_out _ _ _ _ _ _ _ _ _ K); [done|plia|]. intros r' Hr' Hc'. by apply (Hap r' va).
  - cbn beta. rewrite En, Ea. intros x c' s' (-> & node' & l' & k & Ho & He & Hmap & Hk & Hnew). pose proof (ks_pages _ _ _ _ _ _ _ _ _ K) as KP.
    assert (K' : kpages T l0 stk node' l') by (apply (kpages_evolves _ _ _ _ _ _ _ _ _ _ KP He Hnew); intros y (va & Hcov & [-> | ->]); by apply Htab).
    destruct Hk as [[-> ->]|(-> & Hk & ->)]; [|by apply kpages_free in K']. split; [done|]. split; [done|]. exists node', l'. split; [|done]. split; [done| | |done|].
    + intros r' va [Hr'|Hr']%elem_of_app Hva' Hc'; rewrite Hmap by done.
      * rewrite decide_False by (by apply (Hap r' va)). by apply (ks_in _ _ _ _ _ _ _ _ _ K).
      * apply list_elem_of_singleton in Hr' as ->. by rewrite decide_True.
    + intros va Hva' Hnc. rewrite Hmap by done. rewrite decide_False by (apply Hnc, elem_of_app; right; by left). apply (ks_out _ _ _ _ _ _ _ _ _ K); [done|]. intros r' Hr'. apply Hnc, elem_of_app. by left.
    + intros a Hal. rewrite (ev_frame _ _ _ _ _ _ He); [by apply K|intros Hin; by apply Hal, (kp_free _ _ _ _ _ KP)|intros Hin; by apply Hal, (kp_nodes _ _ _ _ _ KP)].
Qed.

Lemma kvmmap_region stk rs r s node l : (length T + length stk < length l0)%nat ->
  kst T l0 stk m0 rs s root node l -> region_ok T rs r ->
  wp (kvmmap root (rg_va r) (rg_pa r) (rg_n r * PGSIZE) (rg_perm r)) c s (fun _ c' s' => c' = c /\ exists node' l', kst T l0 stk m0 (rs ++ [r]) s' root node' l').
Proof using Hnd Hc.
  intros Hlen K Hr. unfold kvmmap. apply wp_bind. eapply wp_mono; [by apply (mappages_region stk rs r s node l)|]. intros x c' s' (-> & -> & node' & l' & K' & _).
  apply wp_ret. split; [done|]. by exists node', l'.
Qed.

(** A page is taken for something else than a table. *)
Lemma kalloc_page stk rs s node l : kst T l0 stk m0 rs s root node l -> l <> [] ->
  wp kalloc c s (fun p c' s' => c' = c /\ p <> 0 /\ page_ok p /\ p ∉ stk /\ exists l', l = p :: l' /\ kst T l0 (stk ++ [p]) m0 rs s' root node l').
Proof using Hnd Hc.
  intros K Hne. destruct (ks_owns _ _ _ _ _ _ _ _ _ K) as (Hk & Hi & Hd). destruct l as [|p l]; [done|]. destruct (kalloc_spec c s (p :: l) Hk Hc) as (s1 & Hrun & Hk1 & Hop & _).
  exists p, c, s1. split; [done|]. split; [done|]. destruct Hk as (_ & [Hnl Hnd']%NoDup_cons & [Hok _]%Forall_cons). pose proof (page_ok_pos _ Hok). pose proof (Hd p ltac:(by left)) as Hnn.
  destruct (pt_inv_frame (ram s) (ram s1) root node Hi) as [Hi1 Hp1]. { intros a Ha. apply Hop, pg_out; [by apply page_ok_aligned|]. intros E. by rewrite E in Ha. }
  destruct (ks_pages _ _ _ _ _ _ _ _ _ K) as [Kt Kn Kp Ks Kf]. split; [lia|]. split; [done|]. split; [intros Hin; destruct (Ks p Hin) as (_ & Hx & _); apply Hx; by left|]. exists l. split; [done|]. split.
  - split_and!; [done|done|]. intros q Hq. apply Hd. by right.
  - intros r va Hr Hva Hcv. rewrite Hp1. by apply K.
  - intros va Hva Hno. rewrite Hp1. by apply K.
  - split; [done|done| | |].
    + intros q Hq. destruct (Kp q Hq) as [[->|Hq']%elem_of_cons|[Hq'|Hq']]; [right; right; apply elem_of_app; right; by left|by left|auto|right; right; apply elem_of_app; by left].
    + intros q [Hq|Hq]%elem_of_app; [|apply list_elem_of_singleton in Hq as ->; split_and!; [done|done|done|apply Kf; by left]]. destruct (Ks q Hq) as (? & Hnq & ? & ?). split_and!; [done| |done|done]. intros Hin. apply Hnq. by right.
    + intros q Hq. apply Kf. by right.
  - intros a Ha. rewrite Hop; [by apply K|]. apply pg_out; [by apply page_ok_aligned|]. intros E. apply Ha. rewrite E. apply Kf. by left.
Qed.

(** An empty table in the page [root]. *)
Lemma kst_start s1 s2 l : l0 = root :: l -> kinv s1 l -> page_ok root -> (forall a, pg a ∉ l0 -> rd (ram s1) a = rd m0 a) ->
  s2 = set_ram (fun m => memset m root 0 PGSIZE) s1 -> [] ∈ T -> kst T l0 [] m0 [] s2 root (single root) l.
Proof using Hnd.
  intros El Hk1 Hok Hm -> HT. rewrite El in *. apply NoDup_cons in Hnd as [Hn _]. destruct (empty_space (set_ram (fun m => memset m root 0 PGSIZE) s1) root l) as [Hu Hp0]; [|done|done|intros j Hj; cbn; apply load64_memset_0; unfold PGSIZE; lia|].
  { apply (kinv_only_page root s1); [done| |done|by apply page_ok_aligned|done]. intros a Ha. cbn. by rewrite rd_memset_out. }
  split; [apply Hu|intros r va Hr; by apply not_elem_of_nil in Hr|intros va _ _; apply Hp0| |].
  - split; [by intros [|? ?] [? Hy]| | |intros p Hp; by apply not_elem_of_nil in Hp|intros p Hp; by right].
    + intros p ([|? ?] & Hy); [|done]. injection Hy as <-. by left.
    + intros p [->|Hp]%elem_of_cons; [right; left; by exists []|by left].
  - intros a Ha. cbn. rewrite rd_memset_out; [by apply Hm|]. apply pg_out; [by apply page_ok_aligned|]. intros E. apply Ha. rewrite E. by left.
Qed.
End build.

(** ** The regions of the kernel *)

Lemma PX_at va i j : 0 <= i < 512 -> 0 <= j < 512 -> i * 2 ^ 30 + j * 2 ^ 21 <= va < i * 2 ^ 30 + (j + 1) * 2 ^ 21 -> PX 2 va = i /\ PX 1 va = j.
Proof.
  intros Hi Hj Hva. rewrite !PX_eq by lia. change (12 + 9 * 2) with 30. change (12 + 9 * 1) with 21.
  rewrite <- (Z.div_unique va (2 ^ 30) i (va - i * 2 ^ 30)), <- (Z.div_unique va (2 ^ 21) (i * 512 + j) (va - (i * 512 + j) * 2 ^ 21)) by lia. split; [by rewrite Z.mod_small|].
  rewrite Z.add_comm, Z.mod_add by lia. by rewrite Z.mod_small.
Qed.

Lemma table_at va i j : 0 <= i < 512 -> 0 <= j < 512 -> i * 2 ^ 30 + j * 2 ^ 21 <= va < i * 2 ^ 30 + (j + 1) * 2 ^ 21 ->
  [i] ∈ kernel_tables -> [i; j] ∈ kernel_tables -> [PX 2 va] ∈ kernel_tables /\ [PX 2 va; PX 1 va] ∈ kernel_tables.
Proof. intros Hi Hj Hva H1 H2. by destruct (PX_at va i j Hi Hj Hva) as [-> ->]. Qed.

Lemma ram_tables va : KERNBASE <= va < PHYSTOP -> [PX 2 va] ∈ kernel_tables /\ [PX 2 va; PX 1 va] ∈ kernel_tables.
Proof.
  unfold PHYSTOP, KERNBASE. intros Hva. set (j := (va - 2147483648) / 2 ^ 21). pose proof (Z.div_mod (va - 2147483648) (2 ^ 21) ltac:(done)) as Hd. fold j in Hd.
  pose proof (Z.mod_pos_bound (va - 2147483648) (2 ^ 21) ltac:(done)). apply (table_at va 2 j); [lia|lia|lia|in_tables|].
  unfold kernel_tables. apply elem_of_app. right. apply list_elem_of_fmap. exists j. split; [done|]. apply elem_of_upto. lia.
Qed.

Lemma top_tables va : MAXVA - 512 * PGSIZE <= va < MAXVA -> [PX 2 va] ∈ kernel_tables /\ [PX 2 va; PX 1 va] ∈ kernel_tables.
Proof. change MAXVA with (2 ^ 38). intros Hva. apply (table_at va 255 511); [lia|lia|plia|in_tables|in_tables]. Qed.

Lemma image_facts : (etext - KERNBASE) / PGSIZE * PGSIZE = etext - KERNBASE /\ (PHYSTOP - etext) / PGSIZE * PGSIZE = PHYSTOP - etext /\
  KERNBASE < etext /\ KERNBASE <= trampoline /\ trampoline < etext /\ etext <= PHYSTOP.
Proof.
  pose proof etext_range. pose proof kend_range. pose proof trampoline_range. pose proof etext_aligned as Ha. pose proof (Z.div_mod etext PGSIZE ltac:(done)) as Hd.
  unfold PHYSTOP, KERNBASE, PGSIZE in *. pose proof (Z.div_mod (etext - 2147483648) 4096 ltac:(done)). pose proof (Z.mod_pos_bound (etext - 2147483648) 4096 ltac:(done)).
  pose proof (Z.div_mod (2147483648 + 128 * 1024 * 1024 - etext) 4096 ltac:(done)). pose proof (Z.mod_pos_bound (2147483648 + 128 * 1024 * 1024 - etext) 4096 ltac:(done)). lia.
Qed.

Lemma fixed_ok k r : etext < PHYSTOP -> fixed_regions !! k = Some r -> region_ok kernel_tables (take k fixed_regions) r.
Proof.
  intros He Hk. destruct image_facts as (E1 & E2 & ? & ? & ? & ?). pose proof etext_aligned. pose proof trampoline_aligned.
  destruct k as [|[|[|[|[|[|k]]]]]]; [injection Hk as <-..|done]; split; cbn [rg_va rg_n rg_pa rg_perm take].
  all: try (split_and!; (done || assumption || (change MAXVA with (2 ^ 38); unfold PHYSTOP, KERNBASE, PGSIZE in *; lia))).
  all: try (change MAXVA with (2 ^ 38); unfold PHYSTOP, KERNBASE, PGSIZE in *; lia).
  all: try (intros r' va Hr' Hc1 Hc2; repeat (apply elem_of_cons in Hr' as [->|Hr']); [..|by apply not_elem_of_nil in Hr']).
  all: try (unfold covers in *; cbn [rg_va rg_n] in *; unfold TRAMPOLINE, UART0, VIRTIO0, PLIC in *; change MAXVA with (2 ^ 38) in *; unfold PHYSTOP, KERNBASE, PGSIZE in *; lia).
  all: unfold covers; cbn [rg_va rg_n]; intros va Hc.
  - apply (table_at va 0 128); [lia|lia|unfold UART0, PGSIZE in *; lia|in_tables..].
  - apply (table_at va 0 128); [lia|lia|unfold VIRTIO0, PGSIZE in *; lia|in_tables..].
  - unfold PLIC, PGSIZE in *. destruct (decide (va < 97 * 2 ^ 21)); [apply (table_at va 0 96)|apply (table_at va 0 97)]; (lia || in_tables).
  - apply ram_tables. lia.
  - apply ram_tables. lia.
  - apply top_tables. unfold TRAMPOLINE, PGSIZE in *. change MAXVA with (2 ^ 38) in *. lia.
Qed.

Lemma kvmmap_fixed l0 stk m0 k r sz s root node l c : NoDup l0 -> (length kernel_tables + length stk < length l0)%nat -> LK_kmem ∉ held c -> etext < PHYSTOP ->
  fixed_regions !! k = Some r -> sz = rg_n r * PGSIZE -> kst kernel_tables l0 stk m0 (take k fixed_regions) s root node l ->
  wp (kvmmap root (rg_va r) (rg_pa r) sz (rg_perm r)) c s (fun _ c' s' => c' = c /\ exists node' l', kst kernel_tables l0 stk m0 (take (S k) fixed_regions) s' root node' l').
Proof. intros Hnd Hlen Hc He Hk -> K. rewrite (take_S_r _ _ r) by done. apply (kvmmap_region kernel_tables l0 m0 root c Hnd Hc stk _ r s node l); try done. by apply fixed_ok. Qed.

(** ** The stacks *)

Lemma length_stack_regions stk : length (stack_regions stk) = length stk.
Proof. apply length_imap. Qed.

Lemma stack_regions_app stk p : stack_regions (stk ++ [p]) = stack_regions stk ++ [stack_region (length stk) p].
Proof. unfold stack_regions. rewrite imap_app. cbn. by rewrite Nat.add_0_r. Qed.

Lemma elem_stack_regions stk r : r ∈ stack_regions stk -> exists k p, stk !! k = Some p /\ r = stack_region k p.
Proof. intros Hr. apply list_elem_of_lookup in Hr as [k Hk]. unfold stack_regions in Hk. rewrite list_lookup_imap in Hk. destruct (stk !! k) as [p|] eqn:E; [|done]. injection Hk as <-. by exists k, p. Qed.

Lemma stack_ok stk p : (length stk < Z.to_nat NPROC)%nat -> page_ok p -> region_ok kernel_tables (fixed_regions ++ stack_regions stk) (stack_region (length stk) p).
Proof.
  intros Hl Hp. pose proof (page_ok_pos p Hp). destruct image_facts as (E1 & E2 & ? & ? & ? & ?). change (Z.to_nat NPROC) with 64%nat in Hl. unfold stack_region. split; cbn [rg_va rg_n rg_pa rg_perm].
  - unfold KSTACK, TRAMPOLINE. change MAXVA with (2 ^ 38). unfold PGSIZE. split_and!; [|lia..]. replace (2 ^ 38 - 4096 - (Z.of_nat (length stk) + 1) * 2 * 4096) with ((2 ^ 26 - 1 - (Z.of_nat (length stk) + 1) * 2) * 4096) by lia. by apply Z.mod_mul.
  - unfold page_ok in Hp. unfold PHYSTOP, KERNBASE, PGSIZE in *. lia.
  - done.
  - intros r va [Hr|Hr]%elem_of_app Hc1 Hc2.
    + repeat (apply elem_of_cons in Hr as [->|Hr]); [..|by apply not_elem_of_nil in Hr].
      all: unfold covers, KSTACK in *; cbn [rg_va rg_n] in *; unfold TRAMPOLINE, UART0, VIRTIO0, PLIC in *; change MAXVA with (2 ^ 38) in *; unfold PHYSTOP, KERNBASE, PGSIZE in *; lia.
    + apply elem_stack_regions in Hr as (k & q & Hk & ->). apply lookup_lt_Some in Hk. unfold covers, stack_region, KSTACK in *. cbn [rg_va rg_n] in *. unfold PGSIZE in *. lia.
  - intros va Hc. apply top_tables. unfold covers, KSTACK, TRAMPOLINE in Hc. cbn [rg_va rg_n] in Hc. change MAXVA with (2 ^ 38) in *. unfold PGSIZE in *. lia.
Qed.

(** The stacks so far. *)
Definition stacked (l0 : list Z) (m0 : mem) (root : Z) (n : Z) (s : mach) : Prop :=
  exists stk node l, Z.of_nat (length stk) = n /\ NoDup stk /\ kst kernel_tables l0 stk m0 (fixed_regions ++ stack_regions stk) s root node l.

Lemma proc_mapstacks_spec l0 m0 s root node l c : NoDup l0 -> (length kernel_tables + Z.to_nat NPROC < length l0)%nat -> LK_kmem ∉ held c ->
  kst kernel_tables l0 [] m0 fixed_regions s root node l ->
  wp (proc_mapstacks root) c s (fun _ c' s' => c' = c /\ stacked l0 m0 root NPROC s').
Proof.
  intros Hnd Hlen Hc K. unfold proc_mapstacks. apply (wp_upto (stacked l0 m0 root)); [done| | |done].
  - exists [], node, l. split_and!; [done|constructor|]. by rewrite app_nil_r.
  - intros i s1 Hi (stk & n1 & l1 & <- & Hnds & K1). assert (Hlt : (length stk < Z.to_nat NPROC)%nat) by (unfold NPROC in *; lia).
    apply wp_bind. eapply wp_mono; [apply (kalloc_page kernel_tables l0 m0 root c Hnd Hc stk _ s1 n1 l1 K1)|].
    { apply (kpages_free kernel_tables l0 stk n1); [done|lia|apply K1]. }
    intros p c' s2 (-> & Hp0 & Hok & Hp & l2 & _ & K2). rewrite (proj2 (Z.eqb_neq p 0)) by done.
    eapply wp_mono; [apply (kvmmap_region kernel_tables l0 m0 root c Hnd Hc (stk ++ [p]) (fixed_regions ++ stack_regions stk) (stack_region (length stk) p) s2 n1 l2); [rewrite length_app; cbn [length]; lia|done|by apply stack_ok]|].
    intros [] c' s3 (-> & n3 & l3 & K3). split; [done|]. exists (stk ++ [p]), n3, l3. rewrite length_app. cbn [length]. split_and!; [lia| |].
    + apply NoDup_app. split_and!; [done| |apply NoDup_singleton]. intros q Hq Hq'. apply list_elem_of_singleton in Hq' as ->. done.
    + by rewrite stack_regions_app, app_assoc.
Qed.

(** ** kvmmake *)

(** The entry for [va], as [walk] finds it. *)
Definition kpte (s : mach) (root va : Z) : Z :=
  match walk root va false no_locks s with
  | Ok a _ _ => if a =? 0 then 0 else load64 (ram s) a
  | _ => 0
  end.

Lemma kpte_spec s root node l va : owns s root node l -> va < MAXVA -> kpte s root va = pte_of (ram s) node va.
Proof.
  intros (_ & Hi & _) Hva. unfold kpte. rewrite (walk_lookup root node no_locks s va Hi Hva). unfold pte_of. destruct (leaf_addr node va =? 0) eqn:E0; bool_spec.
  - apply (leaf_addr_0 _ _ _ _ Hi) in E0. by rewrite E0.
  - unfold leaf_addr in *. by destruct (node [_; _]).
Qed.

(** The kernel's address space: [stk] are the pages of the stacks, and [root], the
    tables and the stacks are pages that were free. *)
Record kernel_space (s : mach) (root : Z) (stk l' : list Z) : Prop := {
  kv_free : kinv s l';
  kv_stacks : Z.of_nat (length stk) = NPROC /\ NoDup stk /\ forall p, p ∈ stk -> page_ok p /\ p ∉ l';
  (** every region is mapped *)
  kv_map r va : r ∈ fixed_regions ++ stack_regions stk -> 0 <= va < MAXVA -> covers va r ->
    kpte s root va = mkpte (rg_pa r + (pg va - rg_va r)) (rg_perm r);
  (** and nothing else *)
  kv_hole va : 0 <= va < MAXVA -> (forall r, r ∈ fixed_regions ++ stack_regions stk -> ~ covers va r) -> kpte s root va = 0;
  (** below every stack a page is not mapped *)
  kv_guard p va : 0 <= p < NPROC -> KSTACK p - PGSIZE <= va < KSTACK p -> kpte s root va = 0
}.

Lemma stacked_space l m0 s root : NoDup l -> stacked l m0 root NPROC s -> exists stk node l', owns s root node l' /\ kernel_space s root stk l' /\
  (* 72 tables and the stacks *)
  (length l <= length l' + length kernel_tables + Z.to_nat NPROC)%nat.
Proof.
  intros Hnd (stk & node & l' & Hl & Hnds & K). pose proof (ks_owns _ _ _ _ _ _ _ _ _ K) as Ho. exists stk, node, l'.
  assert (Hhole : forall va, 0 <= va < MAXVA -> (forall r, r ∈ fixed_regions ++ stack_regions stk -> ~ covers va r) -> kpte s root va = 0).
  { intros va Hva Hno. rewrite (kpte_spec s root node l') by (done || lia). by apply K. }
  split; [done|]. split; [|pose proof (kpages_cost _ _ _ _ _ Hnd (ks_pages _ _ _ _ _ _ _ _ _ K)); lia]. split; [apply Ho| | |done|].
  - split_and!; [done|done|]. intros p Hp. destruct (kp_stk _ _ _ _ _ (ks_pages _ _ _ _ _ _ _ _ _ K) p Hp) as (? & ? & _). done.
  - intros r va Hr Hva Hc. rewrite (kpte_spec s root node l') by (done || lia). by apply K.
  - intros p va Hp Hva. destruct image_facts as (E1 & E2 & ? & ? & ? & ?). unfold KSTACK, TRAMPOLINE, NPROC in *. apply Hhole; [change MAXVA with (2 ^ 38) in *; unfold PGSIZE in *; lia|].
    intros r [Hr|Hr]%elem_of_app Hc.
    + repeat (apply elem_of_cons in Hr as [->|Hr]); [..|by apply not_elem_of_nil in Hr].
      all: unfold covers in *; cbn [rg_va rg_n] in *; unfold TRAMPOLINE, UART0, VIRTIO0, PLIC in *; change MAXVA with (2 ^ 38) in *; unfold PHYSTOP, KERNBASE, PGSIZE in *; lia.
    + apply elem_stack_regions in Hr as (k & q & Hk & ->). apply lookup_lt_Some in Hk. unfold covers, stack_region, KSTACK, TRAMPOLINE in *. cbn [rg_va rg_n] in *. unfold PGSIZE in *. lia.
Qed.

(** One call of [kvmmap]. *)
Ltac kmap_step r tac :=
  match goal with
  | Hnd : NoDup ?l0, Hlen : (length kernel_tables + length ?stk < length ?l0)%nat, Hc : LK_kmem ∉ held _, He : etext < PHYSTOP, K : kst _ ?l0 ?stk ?m0 (take ?k _) ?s ?root ?node ?l |- _ =>
      apply wp_bind; eapply wp_mono; [apply (kvmmap_fixed l0 stk m0 k r _ s root node l _ Hnd Hlen Hc He); [reflexivity|tac|exact K]|]; clear K; intros [] ? ? (-> & ? & ? & K)
  end.

(** With more than 136 pages free, [kvmmake] returns. *)
Lemma kvmmake_spec s l c : kinv s l -> LK_kmem ∉ held c -> (length kernel_tables + Z.to_nat NPROC < length l)%nat ->
  wp kvmmake c s (fun root c' s' => c' = c /\ root ∈ l /\ stacked l (ram s) root NPROC s').
Proof.
  intros Hk Hc Hlen. assert (Hnd : NoDup l) by apply Hk. assert (He : etext < PHYSTOP).
  { destruct l as [|p l]; [cbn in Hlen; lia|]. destruct Hk as (_ & _ & [Hp _]%Forall_cons). pose proof etext_range. unfold page_ok in Hp. unfold PGSIZE in *. lia. }
  destruct image_facts as (E1 & E2 & _). unfold kvmmake. apply wp_bind. pose proof (kalloc_spec c s l Hk Hc) as Ha. destruct l as [|root l]; [cbn in Hlen; lia|]. destruct Ha as (s1 & Hrun & Hk1 & Hop & _). exists root, c, s1. split; [exact Hrun|].
  assert (Hok : page_ok root) by (destruct Hk as (_ & _ & [? _]%Forall_cons); done). apply wp_bind, wp_modify. set (s2 := set_ram _ s1).
  assert (K : kst kernel_tables (root :: l) [] (ram s) (take 0 fixed_regions) s2 root (single root) l).
  { apply (kst_start _ _ _ _ Hnd s1); [done|done|done| |done|in_tables]. intros a Ha. apply Hop, pg_out; [by apply page_ok_aligned|]. intros E. apply Ha. rewrite E. by left. }
  clearbody s2. assert (Hlen0 : (length kernel_tables + length (@nil Z) < length (root :: l))%nat) by (cbn [length] in *; lia).
  kmap_step (Region UART0 1 UART0 rw) ltac:(done).
  kmap_step (Region VIRTIO0 1 VIRTIO0 rw) ltac:(done).
  kmap_step (Region PLIC 1024 PLIC rw) ltac:(done).
  kmap_step (Region KERNBASE ((etext - KERNBASE) / PGSIZE) KERNBASE rx) ltac:(by cbn [rg_n]).
  kmap_step (Region etext ((PHYSTOP - etext) / PGSIZE) etext rw) ltac:(by cbn [rg_n]).
  kmap_step (Region TRAMPOLINE 1 trampoline rx) ltac:(done).
  apply wp_bind. eapply wp_mono; [apply (proc_mapstacks_spec (root :: l) (ram s) _ root _ _ c Hnd Hlen Hc K)|]. intros [] c' s4 [-> Hst]. apply wp_ret. split_and!; [done|by left|done].
Qed.

Lemma many_pages l n : (forall p, p ∈ l <-> page_ok p) -> kend + (Z.of_nat n + 1) * PGSIZE <= PHYSTOP -> (n <= length l)%nat.
Proof.
  intros Hl Hn. set (f := fun i : nat => PGROUNDUP kend + Z.of_nat i * PGSIZE). assert (Hsub : f <$> seq 0 n ⊆+ l).
  { apply NoDup_submseteq; [apply NoDup_fmap_2; [intros i j; unfold f, PGSIZE; lia|apply NoDup_seq]|]. intros p Hp. apply list_elem_of_fmap in Hp as (i & -> & Hi). apply elem_of_seq in Hi.
    apply Hl. pose proof kend_range. destruct (PGROUNDUP_bounds kend) as [? ?]; [plia|]. unfold f. split; [|unfold PGSIZE in *; lia]. rewrite Z.mod_add by done. apply PGROUNDUP_aligned. }
  apply submseteq_length in Hsub. by rewrite length_fmap, length_seq in Hsub.
Qed.

(** [main] sets up the kernel's memory: with at least 138 pages of RAM above the
    kernel, [kinit] and [kvmmake] return, whatever the memory holds, and the table maps
    the devices, the kernel's text read-only and executable, its data and all of RAM,
    the trampoline and a stack for every process, each to the page it is meant for and
    with its permissions.  No other address is mapped, in particular not the page below
    a stack; at most 136 pages are used, and the rest is free. *)
Theorem boot_maps_kernel m c : LK_kmem ∉ held c -> kend + 138 * PGSIZE <= PHYSTOP ->
  exists root s l stk l', (kinit ;; kvmmake) c (Mach m 0) = Ok root c s /\
    (forall p, p ∈ l <-> page_ok p) /\ kernel_space s root stk l' /\ (length l <= length l' + 136)%nat.
Proof.
  intros Hc Hend. destruct (kinit_frees_all_pages c m Hc) as (s1 & l & Hrun & Hk & Hl). pose proof (many_pages l 137 Hl ltac:(lia)) as Hn.
  destruct (kvmmake_spec s1 l c Hk Hc) as (root & c' & s2 & Hrun2 & -> & _ & Hst); [exact Hn|]. destruct (stacked_space l (ram s1) s2 root) as (stk & node & l' & _ & Hs & Hcost); [apply Hk|done|].
  exists root, s2, l, stk, l'. split_and!; [|done|done|assert (length kernel_tables = 72%nat) by done; unfold NPROC in *; lia]. unfold bind. by rewrite Hrun.
Qed.
End kmap.

#[local] Program Instance qemu_image : KernelImage := {|
  kend := KERNBASE + 34 * PGSIZE;
  etext := KERNBASE + 8 * PGSIZE;
  trampoline := KERNBASE + 7 * PGSIZE
|}.
Solve Obligations with (vm_compute; intuition discriminate).

Lemma boot_maps_kernel_witness : kend + 138 * PGSIZE <= PHYSTOP /\
  exists root s l stk l', (kinit ;; kvmmake) no_locks (Mach ∅ 0) = Ok root no_locks s /\
    (forall p, p ∈ l <-> page_ok p) /\ kernel_space s root stk l' /\ (length l <= length l' + 136)%nat.
Proof. split; [done|]. apply (boot_maps_kernel ∅ no_locks); [apply not_elem_of_nil|done]. Defined.
