(* ===== verification/Sleeplock.v ===== *)
(** * Sleep locks (kernel/sleeplock.c)

    A sleep lock lives inside another structure (a buffer, an inode), so the
    operations work through an accessor: [get] reads the lock in the component's
    state and [put] writes it back; [lk] names the spin lock inside it and [ch]
    the channel, the address of the lock itself.

    Module [Contention] puts several processes against one lock and proves mutual
    exclusion and the absence of lost wakeups. *)

From S2P Require Import Prelude KMonad.

Record sleeplock := Sleeplock { sl_locked : bool; sl_pid : Z }.

#[export] Instance sleeplock_eq_dec : EqDecision sleeplock.
Proof. solve_decision. Defined.

Definition initsleeplock : sleeplock := Sleeplock false 0.

Section ops.
Context {S : Type} (get : S -> sleeplock) (put : sleeplock -> S -> S).
Context (lk : lock) (ch : chan).

(** The [while] loop re-tests [lk->locked] after [sleep] returns, so a caller
    that is put to sleep goes on by calling [acquiresleep] again. *)
Definition acquiresleep : M S unit :=
  acquire lk ;;
  l <- gets get ;;
  if sl_locked l then sleep ch lk
  else
    pid <- whoami ;;
    modify (put (Sleeplock true pid)) ;;
    release lk.

Definition releasesleep : M S unit :=
  acquire lk ;;
  modify (put (Sleeplock false 0)) ;;
  wakeup ch ;;
  release lk.

Definition holdingsleep : M S bool :=
  acquire lk ;;
  l <- gets get ;;
  pid <- whoami ;;
  release lk ;;
  ret (sl_locked l && (sl_pid l =? pid)).
End ops.

Section lemmas.
Context {S : Type} (get : S -> sleeplock) (put : sleeplock -> S -> S).
Context (lk : lock) (ch : chan).

Lemma acquiresleep_free c s :
  lk ∉ held c -> sl_locked (get s) = false ->
  acquiresleep get put lk ch c s = Ok tt c (put (Sleeplock true (mypid c)) s).
Proof.
  intros Hl Hf. unfold acquiresleep, bind, acquire, release, gets, whoami, modify.
  rewrite decide_False by done. rewrite Hf. cbn.
  rewrite decide_True by (by left). rewrite remove_lock_head by done. by destruct c.
Qed.

Lemma acquiresleep_busy c s :
  lk ∉ held c -> sl_locked (get s) = true ->
  acquiresleep get put lk ch c s = Block ch c s.
Proof.
  intros Hl Hf. unfold acquiresleep, bind, acquire, gets, sleep, release.
  rewrite decide_False by done. rewrite Hf. cbn.
  rewrite decide_True by (by left). rewrite remove_lock_head by done. by destruct c.
Qed.

Definition woken (w : chan) (c : ctx) : ctx := Ctx (held c) (w :: wakes c) (mypid c).

Lemma releasesleep_run c s :
  lk ∉ held c ->
  releasesleep put lk ch c s = Ok tt (woken ch c) (put (Sleeplock false 0) s).
Proof.
  intros Hl. unfold releasesleep, bind, acquire, release, modify, wakeup.
  rewrite decide_False by done. cbn.
  rewrite decide_True by (by left). by rewrite remove_lock_head by done.
Qed.

Lemma holdingsleep_run c s :
  lk ∉ held c ->
  holdingsleep get lk c s =
    Ok (sl_locked (get s) && (sl_pid (get s) =? mypid c)) c s.
Proof.
  intros Hl. unfold holdingsleep, bind, acquire, release, gets, whoami, ret.
  rewrite decide_False by done. cbn.
  rewrite decide_True by (by left). rewrite remove_lock_head by done. by destruct c.
Qed.
End lemmas.

(** ** Several processes and one lock *)
Module Contention.

(** What a process is doing with respect to the lock. *)
Inductive pstate := Idle | Asleep | Retry | Holding.

#[export] Instance pstate_eq_dec : EqDecision pstate.
Proof. solve_decision. Defined.

Record sys := Sys { lk : sleeplock; procs : gmap Z pstate }.

Definition CH := CH_sleep_buf 0.
Definition LK := LK_sleep_buf 0.

Definition try_acquire (pid : Z) : sleeplock -> res sleeplock unit :=
  acquiresleep id (fun l _ => l) LK CH (Ctx [] [] pid).
Definition do_release (pid : Z) : sleeplock -> res sleeplock unit :=
  releasesleep (fun l _ => l) LK CH (Ctx [] [] pid).

(** [wakeup(lk)]: every process asleep on the lock becomes runnable. *)
Definition wake (c : ctx) (ps : gmap Z pstate) : gmap Z pstate :=
  if decide (CH ∈ wakes c)
  then (fun p => if decide (p = Asleep) then Retry else p) <$> ps
  else ps.

(** Both operations hold the inner spin lock from start to end, so each is one
    step; a process that is put to sleep runs again only after a wakeup. *)
Inductive step : sys -> sys -> Prop :=
| step_acquire l ps pid st c l' :
    ps !! pid = Some st -> st = Idle \/ st = Retry ->
    try_acquire pid l = Ok tt c l' ->
    step (Sys l ps) (Sys l' (<[pid := Holding]> (wake c ps)))
| step_sleep l ps pid st ch c l' :
    ps !! pid = Some st -> st = Idle \/ st = Retry ->
    try_acquire pid l = Block ch c l' ->
    step (Sys l ps) (Sys l' (<[pid := Asleep]> (wake c ps)))
| step_release l ps pid c l' :
    ps !! pid = Some Holding ->
    do_release pid l = Ok tt c l' ->
    step (Sys l ps) (Sys l' (wake c (<[pid := Idle]> ps))).

Definition init (pids : list Z) : sys :=
  Sys initsleeplock (list_to_map ((fun p => (p, Idle)) <$> pids)).

Inductive reachable (pids : list Z) : sys -> Prop :=
| reach_init : reachable pids (init pids)
| reach_step s s' : reachable pids s -> step s s' -> reachable pids s'.

Definition inv (s : sys) : Prop :=
  (forall pid, procs s !! pid = Some Holding <->
     is_Some (procs s !! pid) /\ sl_locked (lk s) = true /\ sl_pid (lk s) = pid) /\
  (sl_locked (lk s) = true -> procs s !! sl_pid (lk s) = Some Holding) /\
  (forall pid, procs s !! pid = Some Asleep -> sl_locked (lk s) = true).

Lemma wake_none pid ps : wake (Ctx [] [] pid) ps = ps.
Proof. unfold wake. by rewrite decide_False by apply not_elem_of_nil. Qed.

Lemma inv_step s s' : inv s -> step s s' -> inv s'.
Proof.
  intros (Hown & Hlk & Hsl) Hstep. destruct Hstep as
    [l ps pid st c l' Hp Hst Ht | l ps pid st ch c l' Hp Hst Ht | l ps pid c l' Hp Ht];
    cbn [lk procs] in *.
  - unfold try_acquire in Ht. destruct (sl_locked l) eqn:El.
    { rewrite acquiresleep_busy in Ht by (done || apply not_elem_of_nil). done. }
    rewrite acquiresleep_free in Ht by (done || apply not_elem_of_nil). simplify_eq/=.
    rewrite wake_none. split_and!; cbn.
    + intros q. rewrite lookup_insert. case_decide as E; subst.
      * naive_solver.
      * rewrite Hown. naive_solver congruence.
    + intros _. by rewrite lookup_insert_eq.
    + done.
  - unfold try_acquire in Ht. destruct (sl_locked l) eqn:El; last first.
    { rewrite acquiresleep_free in Ht by (done || apply not_elem_of_nil). done. }
    rewrite acquiresleep_busy in Ht by (done || apply not_elem_of_nil). simplify_eq/=.
    assert (pid <> sl_pid l').
    { intros ->. rewrite Hlk in Hp by done. naive_solver. }
    rewrite wake_none. split_and!; cbn.
    + intros q. rewrite lookup_insert. case_decide as E; subst.
      * naive_solver.
      * rewrite El. apply Hown.
    + intros _. rewrite lookup_insert_ne by done. by apply Hlk.
    + done.
  - unfold do_release in Ht. rewrite releasesleep_run in Ht by apply not_elem_of_nil.
    simplify_eq/=. apply Hown in Hp as Hp'. destruct Hp' as (_ & Hlocked & Hpid).
    unfold wake. rewrite decide_True by (by left). split_and!; cbn.
    + intros q. rewrite lookup_fmap, lookup_insert. split; [|naive_solver].
      case_decide as E; cbn; [done|]. intros Hq.
      destruct (ps !! q) as [[]|] eqn:Eq; cbn in Hq; try done.
      apply Hown in Eq as (_ & _ & <-). congruence.
    + done.
    + intros q Hq. rewrite lookup_fmap, lookup_insert in Hq.
      case_decide; cbn in Hq; [done|]. by destruct (ps !! q) as [[]|].
Qed.

Lemma lookup_init pids q st : procs (init pids) !! q = Some st -> st = Idle.
Proof.
  cbn. intros Hl%elem_of_list_to_map_2. apply list_elem_of_fmap in Hl as (p & E & _).
  by simplify_eq.
Qed.

Lemma inv_reachable pids s : reachable pids s -> inv s.
Proof.
  induction 1 as [|s s' _ IH Hst]; [|by eapply inv_step].
  split_and!.
  - intros q. split; [intros H%lookup_init; done|naive_solver].
  - done.
  - intros q H%lookup_init. done.
Qed.

(** C14: Mutual exclusion: however [acquiresleep] and [releasesleep] of any number of
    processes interleave, at most one process is between them. *)
Theorem sleeplock_mutual_exclusion pids s p q :
  reachable pids s ->
  procs s !! p = Some Holding -> procs s !! q = Some Holding -> p = q.
Proof.
  intros Hr Hp Hq. apply inv_reachable in Hr as (Hown & _).
  apply Hown in Hp as (_ & _ & <-). by apply Hown in Hq as (_ & _ & <-).
Qed.

(** C15: No lost wakeup: whenever a process sleeps on the lock another one holds it,
    and its [releasesleep] makes the sleeper runnable. *)
Theorem sleeplock_no_lost_wakeup pids s p :
  reachable pids s -> procs s !! p = Some Asleep ->
  exists q s', q <> p /\ procs s !! q = Some Holding /\ step s s' /\
    procs s' !! p = Some Retry.
Proof.
  intros Hr Hp. apply inv_reachable in Hr as (Hown & Hlk & Hsl).
  destruct s as [l ps]. cbn [lk procs] in *.
  pose proof (Hlk (Hsl p Hp)) as Hq.
  assert (sl_pid l <> p) by congruence.
  eexists (sl_pid l), _. split_and!; [done|done| |].
  - eapply step_release; [done|]. unfold do_release.
    by rewrite releasesleep_run by apply not_elem_of_nil.
  - unfold wake. cbn [procs]. rewrite decide_True by (by left).
    by rewrite lookup_fmap, lookup_insert_ne, Hp by done.
Qed.
(** Process 1 takes the lock, then process 2 tries and sleeps. *)
Definition ex_held : sys := Sys (Sleeplock true 1) {[1 := Holding; 2 := Idle]}.
Definition ex_wait : sys := Sys (Sleeplock true 1) {[1 := Holding; 2 := Asleep]}.

Lemma ex_held_reachable : reachable [1; 2] ex_held.
Proof.
  eapply reach_step; [apply reach_init|].
  replace ex_held with (Sys (Sleeplock true 1)
    (<[1 := Holding]> (wake (Ctx [] [] 1) (procs (init [1; 2]))))).
  - eapply step_acquire; [reflexivity|by left|reflexivity].
  - vm_compute. reflexivity.
Qed.

Lemma ex_wait_reachable : reachable [1; 2] ex_wait.
Proof.
  eapply reach_step; [apply ex_held_reachable|].
  replace ex_wait with (Sys (Sleeplock true 1)
    (<[2 := Asleep]> (wake (Ctx [] [] 2) (procs ex_held)))).
  - eapply step_sleep; [reflexivity|by left|reflexivity].
  - vm_compute. reflexivity.
Qed.

Lemma sleeplock_mutual_exclusion_witness : reachable [1; 2] ex_held /\ 1 = 1.
Proof.
  split; [apply ex_held_reachable|].
  apply (sleeplock_mutual_exclusion [1; 2] ex_held 1 1);
    [apply ex_held_reachable|reflexivity|reflexivity].
Defined.

Lemma sleeplock_no_lost_wakeup_witness :
  procs ex_wait !! 2 = Some Asleep /\
  exists q s', q <> 2 /\ procs ex_wait !! q = Some Holding /\ step ex_wait s' /\
    procs s' !! 2 = Some Retry.
Proof.
  split; [reflexivity|].
  apply (sleeplock_no_lost_wakeup [1; 2] ex_wait 2); [apply ex_wait_reachable|reflexivity].
Defined.
End Contention.
