(* ===== verification/Bytes.v ===== *)
(** * Little-endian fields of a byte buffer

    The kernel reads structures out of disk blocks by casting [bp->data]; a field
    of [n] bytes at offset [off] is then [getn n d off], and assigning it is
    [putn n d off v]. *)

From S2P Require Import Prelude.

Fixpoint getn (n : nat) (d : list Z) (off : Z) : Z :=
  match n with
  | O => 0
  | S n' => u8 (nthZ 0 d off) + 256 * getn n' d (off + 1)
  end.

Fixpoint putn (n : nat) (d : list Z) (off v : Z) : list Z :=
  match n with
  | O => d
  | S n' => putn n' (setZ d off (u8 v)) (off + 1) (v / 256)
  end.

Definition get16 := getn 2.
Definition get32 := getn 4.
Definition put16 := putn 2.
Definition put32 := putn 4.

(** [memmove(d + off, src, length src)] inside a buffer. *)
Fixpoint splice (d : list Z) (off : Z) (src : list Z) : list Z :=
  match src with
  | [] => d
  | x :: src' => splice (setZ d off x) (off + 1) src'
  end.

(** The [n] bytes at [d + off]. *)
Definition slice (d : list Z) (off n : Z) : list Z := take (Z.to_nat n) (drop (Z.to_nat off) d).

(** ** Lemmas *)

Lemma u8_u8 x : u8 (u8 x) = u8 x.
Proof. apply u8_small, u8_range. Qed.

Lemma length_putn n d off v : length (putn n d off v) = length d.
Proof.
  revert d off v. induction n as [|n IH]; intros; cbn [putn]; [done|].
  by rewrite IH, length_setZ.
Qed.

Lemma getn_range n d off : 0 <= getn n d off < 256 ^ Z.of_nat n.
Proof.
  revert off. induction n as [|n IH]; intros off; [done|].
  cbn [getn]. rewrite Nat2Z.inj_succ, Z.pow_succ_r by lia.
  pose proof (IH (off + 1)). pose proof (u8_range (nthZ 0 d off)). lia.
Qed.

Lemma nthZ_putn_out n d off v i :
  0 <= off -> 0 <= i -> i < off \/ off + Z.of_nat n <= i ->
  nthZ 0 (putn n d off v) i = nthZ 0 d i.
Proof.
  revert d off v. induction n as [|n IH]; intros d off v ? ? Hi; cbn [putn]; [done|].
  rewrite IH by lia. apply nthZ_setZ_ne; lia.
Qed.

Lemma getn_ext n d d' off :
  (forall i, off <= i < off + Z.of_nat n -> nthZ 0 d i = nthZ 0 d' i) ->
  getn n d off = getn n d' off.
Proof.
  revert off. induction n as [|n IH]; intros off H; cbn [getn]; [done|].
  rewrite H by lia. rewrite (IH (off + 1)); [done|]. intros; apply H; lia.
Qed.

Lemma getn_putn_same n d off v :
  0 <= off -> off + Z.of_nat n <= Z.of_nat (length d) ->
  getn n (putn n d off v) off = v mod 256 ^ Z.of_nat n.
Proof.
  revert d off v. induction n as [|n IH]; intros d off v Ho Hl; cbn [getn putn].
  - by rewrite Z.mod_1_r.
  - rewrite nthZ_putn_out, nthZ_setZ_eq by lia.
    rewrite IH by (rewrite ?length_setZ; lia). rewrite u8_u8.
    unfold u8. change (2 ^ 8) with 256. rewrite Nat2Z.inj_succ, Z.pow_succ_r by lia.
    rewrite Z.rem_mul_r by lia. lia.
Qed.

Lemma getn_putn_out n k d off off' v :
  0 <= off -> 0 <= off' ->
  off' + Z.of_nat n <= off \/ off + Z.of_nat k <= off' ->
  getn n (putn k d off v) off' = getn n d off'.
Proof. intros. apply getn_ext. intros. apply nthZ_putn_out; lia. Qed.

Lemma get32_put32_same d off v :
  0 <= off -> off + 4 <= Z.of_nat (length d) -> get32 (put32 d off v) off = u32 v.
Proof. intros. unfold get32, put32. by rewrite getn_putn_same by lia. Qed.

Lemma get16_put16_same d off v :
  0 <= off -> off + 2 <= Z.of_nat (length d) -> get16 (put16 d off v) off = u16 v.
Proof. intros. unfold get16, put16. by rewrite getn_putn_same by lia. Qed.

Lemma get32_put32_out d off off' v :
  0 <= off -> 0 <= off' -> off' + 4 <= off \/ off + 4 <= off' ->
  get32 (put32 d off v) off' = get32 d off'.
Proof. intros. apply getn_putn_out; lia. Qed.

Lemma length_put32 d off v : length (put32 d off v) = length d.
Proof. apply length_putn. Qed.
Lemma length_put16 d off v : length (put16 d off v) = length d.
Proof. apply length_putn. Qed.

Lemma get32_range d off : 0 <= get32 d off < 2 ^ 32.
Proof. apply (getn_range 4). Qed.
Lemma get16_range d off : 0 <= get16 d off < 2 ^ 16.
Proof. apply (getn_range 2). Qed.

Lemma nthZ_replicate (n : nat) (x i : Z) : nthZ x (replicate n x) i = x.
Proof. unfold nthZ. rewrite nth_lookup. destruct (replicate n x !! Z.to_nat i) eqn:E; [|done]. by apply lookup_replicate in E as [-> _]. Qed.

Lemma getn_zeros n m off : getn n (replicate m 0) off = 0.
Proof. revert off. induction n as [|n IH]; intros off; cbn [getn]; [done|]. by rewrite IH, nthZ_replicate. Qed.

Lemma get32_zeros m off : get32 (replicate m 0) off = 0.
Proof. apply getn_zeros. Qed.
Lemma get16_zeros m off : get16 (replicate m 0) off = 0.
Proof. apply getn_zeros. Qed.

Lemma length_splice d off src : length (splice d off src) = length d.
Proof.
  revert d off. induction src as [|x src IH]; intros; cbn [splice]; [done|].
  by rewrite IH, length_setZ.
Qed.

Lemma nthZ_splice z d off src i :
  0 <= off -> off + Z.of_nat (length src) <= Z.of_nat (length d) -> 0 <= i ->
  nthZ z (splice d off src) i =
    if decide (off <= i < off + Z.of_nat (length src)) then nthZ z src (i - off)
    else nthZ z d i.
Proof.
  revert d off. induction src as [|x src IH]; intros d off Ho Hl Hi; cbn [splice length].
  - by rewrite decide_False by (cbn; lia).
  - cbn [length] in Hl. rewrite IH by (rewrite ?length_setZ; lia).
    destruct (decide (i = off)) as [->|Hne].
    + rewrite decide_False by lia. rewrite decide_True by lia.
      rewrite nthZ_setZ_eq by lia. by rewrite Z.sub_diag.
    + rewrite nthZ_setZ_ne by lia. repeat case_decide; try lia; try done.
      unfold nthZ. replace (Z.to_nat (i - off)) with (S (Z.to_nat (i - (off + 1)))) by lia.
      done.
Qed.

Lemma length_slice d off n :
  0 <= off -> 0 <= n -> off + n <= Z.of_nat (length d) -> length (slice d off n) = Z.to_nat n.
Proof. intros. unfold slice. rewrite length_take, length_drop. lia. Qed.

Lemma nthZ_slice z d off n i :
  0 <= off -> 0 <= i < n -> nthZ z (slice d off n) i = nthZ z d (off + i).
Proof.
  intros. unfold slice, nthZ. rewrite !nth_lookup, lookup_take_lt by lia.
  rewrite lookup_drop. do 2 f_equal. lia.
Qed.

Lemma get32_ext d d' off :
  (forall i, off <= i < off + 4 -> nthZ 0 d i = nthZ 0 d' i) -> get32 d off = get32 d' off.
Proof. intros Hi. by apply (getn_ext 4). Qed.
Lemma get16_ext d d' off :
  (forall i, off <= i < off + 2 -> nthZ 0 d i = nthZ 0 d' i) -> get16 d off = get16 d' off.
Proof. intros Hi. by apply (getn_ext 2). Qed.

(** The same bytes at another place. *)
Lemma getn_shift n d d' : forall off off',
  (forall i, 0 <= i < Z.of_nat n -> nthZ 0 d (off + i) = nthZ 0 d' (off' + i)) -> getn n d off = getn n d' off'.
Proof.
  induction n as [|n IH]; intros off off' Hi; cbn [getn]; [done|]. pose proof (Hi 0 ltac:(lia)) as H0. rewrite !Z.add_0_r in H0. rewrite H0.
  do 2 f_equal. apply IH. intros i Hi'. rewrite <- !Z.add_assoc. apply Hi. lia.
Qed.
Lemma get32_shift d d' off off' :
  (forall i, 0 <= i < 4 -> nthZ 0 d (off + i) = nthZ 0 d' (off' + i)) -> get32 d off = get32 d' off'.
Proof. apply (getn_shift 4). Qed.
Lemma get16_shift d d' off off' :
  (forall i, 0 <= i < 2 -> nthZ 0 d (off + i) = nthZ 0 d' (off' + i)) -> get16 d off = get16 d' off'.
Proof. apply (getn_shift 2). Qed.

Lemma nthZ_put32_out d off v i :
  0 <= off -> 0 <= i -> i < off \/ off + 4 <= i -> nthZ 0 (put32 d off v) i = nthZ 0 d i.
Proof. intros. by apply (nthZ_putn_out 4). Qed.
Lemma nthZ_put16_out d off v i :
  0 <= off -> 0 <= i -> i < off \/ off + 2 <= i -> nthZ 0 (put16 d off v) i = nthZ 0 d i.
Proof. intros. by apply (nthZ_putn_out 2). Qed.

Lemma bytes_putn n : forall d off v, Forall (fun b => 0 <= b < 256) d -> Forall (fun b => 0 <= b < 256) (putn n d off v).
Proof.
  induction n as [|n IH]; intros d off v Hd; cbn [putn]; [done|]. apply IH. unfold setZ. apply Forall_insert; [done|apply u8_range].
Qed.
Lemma bytes_put16 d off v : Forall (fun b => 0 <= b < 256) d -> Forall (fun b => 0 <= b < 256) (put16 d off v).
Proof. apply (bytes_putn 2). Qed.

#[global] Opaque get32 put32 get16 put16.
