(* ===== verification/Bio.v ===== *)
(** * The buffer cache (kernel/bio.c)

    [bcache.buf] and [bcache.head] are one array of [buf] records, the list head
    at index [NBUF]; [prev] and [next] are indices into it, so the doubly linked
    LRU list is the code's own pointer structure.  The disk contents are the
    [platter]; [disk_rw] is the effect that the driver promises for
    [virtio_disk_rw] (the driver itself is file Virtio), and every write to the
    platter is recorded in [writes], oldest first, so that a crash between two
    writes can be described.

    [acache] is the abstract cache that clients see, and the lemmas [*_spec] are
    its contract: which blocks are in use, how often, by whom they are locked and
    with what contents. *)

From S2P Require Import Prelude KMonad Riscv Sleeplock.

Definition BSIZE := 1024.

Record buf := Buf {
  b_valid : bool;
  b_disk : bool;
  b_dev : Z;
  b_blockno : Z;
  b_lock : sleeplock;
  b_refcnt : Z;
  b_prev : Z;
  b_next : Z;
  b_data : list Z
}.

Definition block := list Z.
Definition zero_block : block := replicate (Z.to_nat BSIZE) 0.

Record bcache := Bcache {
  bufs : list buf;
  platter : gmap Z block;
  writes : list (Z * block)
}.

Definition HEAD := NBUF.
Definition buf0 : buf := Buf false false 0 0 initsleeplock 0 0 0 zero_block.
Definition bufat (s : bcache) (i : Z) : buf := nthZ buf0 (bufs s) i.
Definition blk (s : bcache) (bno : Z) : block := default zero_block (platter s !! bno).

Definition upd_buf (i : Z) (f : buf -> buf) (s : bcache) : bcache :=
  Bcache (setZ (bufs s) i (f (bufat s i))) (platter s) (writes s).

#[global] Arguments bufat : simpl never.
#[global] Arguments blk : simpl never.

Definition set_valid v b := Buf v (b_disk b) (b_dev b) (b_blockno b) (b_lock b) (b_refcnt b) (b_prev b) (b_next b) (b_data b).
Definition set_lock l b := Buf (b_valid b) (b_disk b) (b_dev b) (b_blockno b) l (b_refcnt b) (b_prev b) (b_next b) (b_data b).
Definition set_refcnt r b := Buf (b_valid b) (b_disk b) (b_dev b) (b_blockno b) (b_lock b) r (b_prev b) (b_next b) (b_data b).
Definition set_prev p b := Buf (b_valid b) (b_disk b) (b_dev b) (b_blockno b) (b_lock b) (b_refcnt b) p (b_next b) (b_data b).
Definition set_next n b := Buf (b_valid b) (b_disk b) (b_dev b) (b_blockno b) (b_lock b) (b_refcnt b) (b_prev b) n (b_data b).
Definition set_data d b := Buf (b_valid b) (b_disk b) (b_dev b) (b_blockno b) (b_lock b) (b_refcnt b) (b_prev b) (b_next b) d.
Definition recycle dev bno b := Buf false (b_disk b) dev bno (b_lock b) 1 (b_prev b) (b_next b) (b_data b).

(** ** Operations *)

(** One iteration of the loop in [binit]. *)
Definition binit_step (b : Z) (s : bcache) : bcache :=
  let s := upd_buf b (set_next (b_next (bufat s HEAD))) s in
  let s := upd_buf b (set_prev HEAD) s in
  let s := upd_buf b (set_lock initsleeplock) s in
  let s := upd_buf (b_next (bufat s HEAD)) (set_prev b) s in
  upd_buf HEAD (set_next b) s.

Definition binit (s : bcache) : bcache :=
  let s := upd_buf HEAD (set_prev HEAD) s in
  let s := upd_buf HEAD (set_next HEAD) s in
  fold_left (fun s b => binit_step b s) (upto NBUF) s.

(** [for(b = bcache.head.next; b != &bcache.head; b = b->next)] *)
Fixpoint find_cached (fuel : nat) (s : bcache) (b dev blockno : Z) : option Z :=
  match fuel with
  | O => None
  | S f =>
      if b =? HEAD then None
      else if (b_dev (bufat s b) =? dev) && (b_blockno (bufat s b) =? blockno) then Some b
      else find_cached f s (b_next (bufat s b)) dev blockno
  end.

(** [for(b = bcache.head.prev; b != &bcache.head; b = b->prev)] *)
Fixpoint find_lru (fuel : nat) (s : bcache) (b : Z) : option Z :=
  match fuel with
  | O => None
  | S f =>
      if b =? HEAD then None
      else if b_refcnt (bufat s b) =? 0 then Some b
      else find_lru f s (b_prev (bufat s b))
  end.

(** Each loop visits the [NBUF] buffers and the head. *)
Definition list_fuel : nat := Z.to_nat (NBUF + 1).

Definition acquiresleep_buf (b : Z) : M bcache unit :=
  acquiresleep (fun s => b_lock (bufat s b)) (fun l => upd_buf b (set_lock l))
    (LK_sleep_buf b) (CH_sleep_buf b).
Definition releasesleep_buf (b : Z) : M bcache unit :=
  releasesleep (fun l => upd_buf b (set_lock l)) (LK_sleep_buf b) (CH_sleep_buf b).
Definition holdingsleep_buf (b : Z) : M bcache bool :=
  holdingsleep (fun s => b_lock (bufat s b)) (LK_sleep_buf b).

Definition incref (b : buf) : buf := set_refcnt (u32 (b_refcnt b + 1)) b.
Definition decref (b : buf) : buf := set_refcnt (u32 (b_refcnt b - 1)) b.

Definition bget (dev blockno : Z) : M bcache Z :=
  acquire LK_bcache ;;
  (* Is the block already cached? *)
  hit <- gets (fun s => find_cached list_fuel s (b_next (bufat s HEAD)) dev blockno) ;;
  match hit with
  | Some b =>
      modify (upd_buf b incref) ;;
      release LK_bcache ;;
      acquiresleep_buf b ;;
      ret b
  | None =>
      (* Not cached.  Recycle the least recently used (LRU) unused buffer. *)
      victim <- gets (fun s => find_lru list_fuel s (b_prev (bufat s HEAD))) ;;
      match victim with
      | Some b =>
          modify (upd_buf b (recycle dev blockno)) ;;
          release LK_bcache ;;
          acquiresleep_buf b ;;
          ret b
      | None => panic "bget: no buffers"
      end
  end.

(** [virtio_disk_rw(b, write)]: move one block between the buffer and the disk. *)
Definition disk_rw (b : Z) (write : bool) : M bcache unit :=
  if write
  then modify (fun s =>
         let x := bufat s b in
         Bcache (bufs s) (<[b_blockno x := b_data x]> (platter s))
           (writes s ++ [(b_blockno x, b_data x)]))
  else modify (fun s => upd_buf b (set_data (blk s (b_blockno (bufat s b)))) s).

Definition bread (dev blockno : Z) : M bcache Z :=
  b <- bget dev blockno ;;
  valid <- gets (fun s => b_valid (bufat s b)) ;;
  (when negb valid do
     disk_rw b false ;;
     modify (upd_buf b (set_valid true))) ;;
  ret b.

Definition bwrite (b : Z) : M bcache unit :=
  h <- holdingsleep_buf b ;;
  if negb h then panic "bwrite" else disk_rw b true.

(** Unlink [b] and put it right after the head. *)
Definition to_front (b : Z) (s : bcache) : bcache :=
  let s := upd_buf (b_next (bufat s b)) (set_prev (b_prev (bufat s b))) s in
  let s := upd_buf (b_prev (bufat s b)) (set_next (b_next (bufat s b))) s in
  let s := upd_buf b (set_next (b_next (bufat s HEAD))) s in
  let s := upd_buf b (set_prev HEAD) s in
  let s := upd_buf (b_next (bufat s HEAD)) (set_prev b) s in
  upd_buf HEAD (set_next b) s.

Definition brelse (b : Z) : M bcache unit :=
  h <- holdingsleep_buf b ;;
  if negb h then panic "brelse"
  else
    releasesleep_buf b ;;
    acquire LK_bcache ;;
    modify (upd_buf b decref) ;;
    r <- gets (fun s => b_refcnt (bufat s b)) ;;
    (* no one is waiting for it. *)
    (when r =? 0 do modify (to_front b)) ;;
    release LK_bcache.

Definition bpin (b : Z) : M bcache unit :=
  acquire LK_bcache ;;
  modify (upd_buf b incref) ;;
  release LK_bcache.

Definition bunpin (b : Z) : M bcache unit :=
  acquire LK_bcache ;;
  modify (upd_buf b decref) ;;
  release LK_bcache.

(** The client's own access to [b->data]. *)
Definition get_data (b : Z) : M bcache block := gets (fun s => b_data (bufat s b)).
Definition put_data (b : Z) (d : block) : M bcache unit := modify (upd_buf b (set_data d)).

(** ** The doubly linked list *)

(** [seg nx pv a l e]: following [nx] from [a] visits [l] and then [e], and [pv]
    leads back. *)
Fixpoint seg (nx pv : Z -> Z) (a : Z) (l : list Z) (e : Z) : Prop :=
  match l with
  | [] => nx a = e /\ pv e = a
  | x :: l' => nx a = x /\ pv x = a /\ seg nx pv x l' e
  end.

Definition fupd (f : Z -> Z) (i v : Z) : Z -> Z := fun j => if decide (i = j) then v else f j.

Section dll.
Implicit Types (nx pv : Z -> Z) (a b e x y : Z) (l : list Z).

Lemma fupd_eq f i v : fupd f i v i = v.
Proof. unfold fupd. by rewrite decide_True. Qed.
Lemma fupd_ne f i j v : i <> j -> fupd f i v j = f j.
Proof. intros. unfold fupd. by rewrite decide_False. Qed.

Lemma seg_ext nx pv nx' pv' a l e :
  (forall y, y ∈ a :: l -> nx y = nx' y) ->
  (forall y, y ∈ l ++ [e] -> pv y = pv' y) ->
  seg nx pv a l e -> seg nx' pv' a l e.
Proof.
  revert a. induction l as [|x l IH]; intros a Hn Hp Hs; cbn in *.
  - rewrite <- Hn, <- Hp by set_solver. done.
  - rewrite <- Hn, <- Hp by set_solver. destruct Hs as (? & ? & ?).
    split_and!; [done|done|]. apply IH; [set_solver..|done].
Qed.

Lemma seg_prev_in nx pv a l1 b l2 e : seg nx pv a (l1 ++ b :: l2) e -> pv b ∈ a :: l1.
Proof.
  revert a. induction l1 as [|x l1 IH]; intros a; cbn.
  - intros (_ & -> & _). set_solver.
  - intros (_ & _ & Hs). apply IH in Hs. set_solver.
Qed.

Lemma seg_next_in nx pv a l1 b l2 e : seg nx pv a (l1 ++ b :: l2) e -> nx b ∈ l2 ++ [e].
Proof.
  revert a. induction l1 as [|x l1 IH]; intros a; cbn.
  - intros (_ & _ & Hs). destruct l2; cbn in *; destruct Hs; set_solver.
  - intros (_ & _ & Hs). by apply IH in Hs.
Qed.

(** [b->next->prev = b->prev; b->prev->next = b->next;] *)
Lemma seg_unlink nx pv a l1 b l2 e :
  seg nx pv a (l1 ++ b :: l2) e -> NoDup (a :: l1 ++ b :: l2) -> e ∉ l1 ++ b :: l2 ->
  seg (fupd nx (pv b) (nx b)) (fupd pv (nx b) (pv b)) a (l1 ++ l2) e.
Proof.
  revert a. induction l1 as [|x l1 IH]; intros a Hs Hnd He; cbn in *.
  - destruct Hs as (Ha & Hb & Hs). rewrite Hb.
    apply NoDup_cons in Hnd as [Hna Hnd]. apply NoDup_cons in Hnd as [Hnb Hnd].
    destruct l2 as [|y l2]; cbn in *.
    + destruct Hs as [-> Hs]. by rewrite !fupd_eq.
    + destruct Hs as (-> & Hy & Hs). rewrite !fupd_eq. split_and!; [done|done|].
      apply NoDup_cons in Hnd as [Hny Hnd].
      eapply seg_ext; [| |exact Hs].
      * intros z Hz. rewrite fupd_ne; [done|]. set_solver.
      * intros z Hz. rewrite fupd_ne; [done|]. set_solver.
  - destruct Hs as (Ha & Hx & Hs). apply NoDup_cons in Hnd as [Hna Hnd].
    pose proof (seg_prev_in _ _ _ _ _ _ _ Hs) as Hpin.
    pose proof (seg_next_in _ _ _ _ _ _ _ Hs) as Hnin.
    assert (nx b <> x).
    { intros E. rewrite E in Hnin. apply NoDup_cons in Hnd as [Hnx _]. set_solver. }
    split_and!.
    + rewrite fupd_ne; [done|]. intros E. rewrite E in Hpin. set_solver.
    + rewrite fupd_ne; done.
    + apply IH; [done|done|set_solver].
Qed.

(** [b->next = a->next; b->prev = a; a->next->prev = b; a->next = b;] *)
Lemma seg_insert nx pv a b l e :
  seg nx pv a l e -> b ∉ a :: l -> b <> e -> a ∉ l -> NoDup l -> e ∉ l ->
  seg (fupd (fupd nx b (nx a)) a b) (fupd (fupd pv b a) (nx a) b) a (b :: l) e.
Proof.
  intros Hs Hb Hbe Ha Hnd He. cbn. rewrite fupd_eq. split_and!; [done| |].
  - rewrite fupd_ne, fupd_eq; [done|]. destruct l; cbn in Hs; destruct Hs; set_solver.
  - destruct l as [|x l]; cbn in *.
    + destruct Hs as [-> ?]. rewrite fupd_ne by set_solver. by rewrite !fupd_eq.
    + destruct Hs as (-> & Hx & Hs). rewrite fupd_ne by set_solver. rewrite !fupd_eq.
      split_and!; [done|done|]. apply NoDup_cons in Hnd as [Hnx Hnd].
      eapply seg_ext; [| |exact Hs].
      * intros y Hy. rewrite !fupd_ne; [done| |]; set_solver.
      * intros y Hy. rewrite !fupd_ne; [done| |]; set_solver.
Qed.
End dll.

Definition next (s : bcache) (i : Z) : Z := b_next (bufat s i).
Definition prev (s : bcache) (i : Z) : Z := b_prev (bufat s i).

(** The LRU list [l] (most recently used first) holds every buffer once. *)
Record dll (s : bcache) (l : list Z) : Prop := {
  dll_len : length (bufs s) = Z.to_nat (NBUF + 1);
  dll_seg : seg (next s) (prev s) HEAD l HEAD;
  dll_nodup : NoDup l;
  dll_mem : forall i, i ∈ l <-> 0 <= i < NBUF
}.

Lemma dll_head s l : dll s l -> HEAD ∉ l.
Proof. intros Hd Hin. apply (dll_mem _ _ Hd) in Hin. unfold HEAD in Hin. lia. Qed.

Definition inb (i : Z) : Prop := 0 <= i <= NBUF.

Lemma bufat_upd s i j f :
  length (bufs s) = Z.to_nat (NBUF + 1) -> inb i -> inb j ->
  bufat (upd_buf i f s) j = if decide (i = j) then f (bufat s i) else bufat s j.
Proof. intros Hl Hi Hj. unfold inb in *. unfold bufat, upd_buf. cbn. apply nthZ_setZ; plia. Qed.

Lemma length_upd_buf i f s : length (bufs (upd_buf i f s)) = length (bufs s).
Proof. apply length_setZ. Qed.

(** An update that keeps the links keeps the list. *)
Lemma dll_upd s l i f :
  dll s l -> inb i ->
  (forall b, b_next (f b) = b_next b) -> (forall b, b_prev (f b) = b_prev b) ->
  dll (upd_buf i f s) l.
Proof.
  intros Hd Hi Hn Hp. destruct Hd as [Hlen Hseg Hnd Hmem].
  split; [by rewrite length_upd_buf| |done|done].
  assert (forall y, y ∈ HEAD :: l -> inb y) as Hin.
  { intros y [->|Hy]%elem_of_cons; [unfold inb, HEAD; plia|].
    apply Hmem in Hy. unfold inb. lia. }
  eapply seg_ext; [| |exact Hseg]; intros y Hy;
    (assert (inb y) by (apply Hin; set_solver));
    unfold next, prev; rewrite bufat_upd by done; case_decide; subst; congruence.
Qed.

Section links.
Context (s : bcache) (i v j : Z).
Context (Hlen : length (bufs s) = Z.to_nat (NBUF + 1)) (Hi : inb i) (Hj : inb j).

Lemma next_set_next : next (upd_buf i (set_next v) s) j = fupd (next s) i v j.
Proof. unfold next, fupd. rewrite bufat_upd by done. by case_decide. Qed.
Lemma next_set_prev : next (upd_buf i (set_prev v) s) j = next s j.
Proof. unfold next. rewrite bufat_upd by done. case_decide; by subst. Qed.
Lemma prev_set_prev : prev (upd_buf i (set_prev v) s) j = fupd (prev s) i v j.
Proof. unfold prev, fupd. rewrite bufat_upd by done. by case_decide. Qed.
Lemma prev_set_next : prev (upd_buf i (set_next v) s) j = prev s j.
Proof. unfold prev. rewrite bufat_upd by done. case_decide; by subst. Qed.
End links.

(** The last four statements of [brelse], and the body of the loop of [binit]. *)
Definition link_front (b : Z) (s : bcache) : bcache :=
  let s := upd_buf b (set_next (b_next (bufat s HEAD))) s in
  let s := upd_buf b (set_prev HEAD) s in
  let s := upd_buf (b_next (bufat s HEAD)) (set_prev b) s in
  upd_buf HEAD (set_next b) s.

Definition unlink (b : Z) (s : bcache) : bcache :=
  let s := upd_buf (b_next (bufat s b)) (set_prev (b_prev (bufat s b))) s in
  upd_buf (b_prev (bufat s b)) (set_next (b_next (bufat s b))) s.

Lemma to_front_eq b s : to_front b s = link_front b (unlink b s).
Proof. done. Qed.

Lemma inb_head : inb HEAD.
Proof. unfold inb, HEAD. plia. Qed.

#[export] Hint Resolve inb_head : xv6.

Lemma seg_in_next nx pv a l e : seg nx pv a l e -> nx a ∈ l ++ [e].
Proof. destruct l; cbn; intros [-> ?]; set_solver. Qed.

Lemma link_front_seg s b l :
  length (bufs s) = Z.to_nat (NBUF + 1) ->
  seg (next s) (prev s) HEAD l HEAD -> 0 <= b < NBUF -> b ∉ l -> NoDup l ->
  (forall i, i ∈ l -> 0 <= i < NBUF) ->
  length (bufs (link_front b s)) = Z.to_nat (NBUF + 1) /\
  seg (next (link_front b s)) (prev (link_front b s)) HEAD (b :: l) HEAD.
Proof.
  intros Hlen Hs Hb Hbl Hnd Hr.
  assert (inb b) as Hbi by (unfold inb; lia). pose proof inb_head as Hh.
  assert (b <> HEAD) as Hbh by (unfold HEAD; lia).
  assert (HEAD ∉ l) as Hhl by (intros E; apply Hr in E; unfold HEAD in E; lia).
  assert (inb (next s HEAD)) as Hni.
  { pose proof (seg_in_next _ _ _ _ _ Hs) as [Hin|Hin]%elem_of_app.
    - apply Hr in Hin. unfold inb. lia.
    - apply list_elem_of_singleton in Hin. by rewrite Hin. }
  unfold link_front. cbv zeta. fold (next s HEAD).
  set (s1 := upd_buf b (set_next (next s HEAD)) s).
  set (s2 := upd_buf b (set_prev HEAD) s1). fold (next s2 HEAD).
  assert (length (bufs s1) = Z.to_nat (NBUF + 1)) as Hl1 by (by unfold s1; rewrite length_upd_buf).
  assert (length (bufs s2) = Z.to_nat (NBUF + 1)) as Hl2 by (by unfold s2; rewrite length_upd_buf).
  assert (next s2 HEAD = next s HEAD) as E2.
  { unfold s2, s1. by rewrite next_set_prev, next_set_next, fupd_ne by done. }
  rewrite E2. split; [by rewrite !length_upd_buf|].
  assert (forall y, y ∈ HEAD :: b :: l -> inb y) as Hin.
  { intros y [->|[->|Hy]%elem_of_cons]%elem_of_cons; [done..|].
    apply Hr in Hy. unfold inb. lia. }
  eapply seg_ext; [| |apply (seg_insert _ _ _ _ _ _ Hs)]; try done; [| |set_solver].
  - intros y Hy. assert (inb y) by auto.
    rewrite next_set_next by (rewrite ?length_upd_buf; done).
    unfold fupd at 1 3. case_decide; [done|].
    rewrite next_set_prev by done. unfold s2. rewrite next_set_prev by done.
    unfold s1. by rewrite next_set_next by done.
  - intros y Hy. assert (inb y) by (apply Hin; set_solver).
    rewrite prev_set_next by (rewrite ?length_upd_buf; done).
    rewrite prev_set_prev by done. unfold fupd at 1 3. case_decide; [done|].
    unfold s2. rewrite prev_set_prev by done. unfold fupd. case_decide; [done|].
    unfold s1. by rewrite prev_set_next by done.
Qed.

Lemma unlink_seg s b l1 l2 :
  length (bufs s) = Z.to_nat (NBUF + 1) ->
  seg (next s) (prev s) HEAD (l1 ++ b :: l2) HEAD -> NoDup (l1 ++ b :: l2) ->
  (forall i, i ∈ l1 ++ b :: l2 -> 0 <= i < NBUF) ->
  length (bufs (unlink b s)) = Z.to_nat (NBUF + 1) /\
  seg (next (unlink b s)) (prev (unlink b s)) HEAD (l1 ++ l2) HEAD.
Proof.
  intros Hlen Hs Hnd Hr. pose proof inb_head as Hh.
  assert (forall y, y ∈ HEAD :: l1 ++ b :: l2 -> inb y) as Hin.
  { intros y [->|Hy]%elem_of_cons; [done|]. apply Hr in Hy. unfold inb. lia. }
  assert (HEAD ∉ l1 ++ b :: l2) as Hhl by (intros E; apply Hr in E; unfold HEAD in E; lia).
  pose proof (seg_next_in _ _ _ _ _ _ _ Hs) as Hn.
  pose proof (seg_prev_in _ _ _ _ _ _ _ Hs) as Hp.
  assert (b <> HEAD) by set_solver.
  assert (next s b <> b) as Hnb.
  { intros E. rewrite E in Hn. apply NoDup_app in Hnd as (_ & _ & Hnd).
    apply NoDup_cons in Hnd as [? _]. set_solver. }
  assert (inb b) by (apply Hin; set_solver).
  assert (inb (next s b)) by (apply Hin; set_solver).
  assert (inb (prev s b)) by (apply Hin; set_solver).
  unfold unlink. cbv zeta. fold (next s b) (prev s b).
  set (s1 := upd_buf (next s b) (set_prev (prev s b)) s). fold (next s1 b) (prev s1 b).
  unfold s1. rewrite next_set_prev, prev_set_prev, fupd_ne by done.
  split; [by rewrite !length_upd_buf|].
  eapply seg_ext; [| |apply (seg_unlink _ _ _ _ _ _ _ Hs)]; [| | |done].
  - intros y Hy. assert (inb y) by (apply Hin; set_solver).
    rewrite next_set_next by (rewrite ?length_upd_buf; done).
    unfold fupd. case_decide; [done|]. by rewrite next_set_prev by done.
  - intros y Hy. assert (inb y) by (apply Hin; set_solver).
    rewrite prev_set_next by (rewrite ?length_upd_buf; done).
    by rewrite prev_set_prev by done.
  - by constructor.
Qed.

(** [brelse] moves the buffer to the most recently used position. *)
Lemma to_front_dll s b l1 l2 :
  dll s (l1 ++ b :: l2) -> dll (to_front b s) (b :: l1 ++ l2).
Proof.
  intros [Hlen Hs Hnd Hmem]. rewrite to_front_eq.
  destruct (unlink_seg s b l1 l2) as [Hl1 Hs1]; [done|done|done|by intros i ?%Hmem|].
  assert (NoDup (b :: l1 ++ l2)) as Hnd' by (by rewrite Permutation_middle).
  apply NoDup_cons in Hnd' as [Hb Hnd'].
  assert (0 <= b < NBUF) by (apply Hmem; set_solver).
  destruct (link_front_seg (unlink b s) b (l1 ++ l2)) as [Hl2 Hs2]; try done.
  { intros i Hi. apply Hmem. set_solver. }
  split; [done|done|by constructor|].
  intros i. rewrite <- Hmem. set_solver.
Qed.

(** ** Searching the list *)

Lemma find_cached_spec s dev bno fuel a l :
  seg (next s) (prev s) a l HEAD -> HEAD ∉ l -> (length l < fuel)%nat ->
  match find_cached fuel s (next s a) dev bno with
  | Some i => i ∈ l /\ b_dev (bufat s i) = dev /\ b_blockno (bufat s i) = bno
  | None => forall i, i ∈ l -> b_dev (bufat s i) = dev -> b_blockno (bufat s i) <> bno
  end.
Proof.
  revert a fuel. induction l as [|x l IH]; intros a fuel Hs Hh Hf; cbn in Hs.
  all: destruct fuel as [|f]; [cbn in Hf; lia|]; cbn [find_cached].
  - destruct Hs as [-> _]. rewrite Z.eqb_refl. intros i Hi. by apply elem_of_nil in Hi.
  - destruct Hs as (-> & _ & Hs). apply not_elem_of_cons in Hh as [Hx Hh].
    destruct (x =? HEAD) eqn:E; bool_spec; [congruence|].
    destruct (_ && _)%bool eqn:Em.
    + bool_spec. split_and!; [by left|done|done].
    + pose proof (IH x f Hs Hh ltac:(cbn in Hf; lia)) as IHx.
      change (b_next (bufat s x)) with (next s x).
      destruct (find_cached f s (next s x) dev bno).
      * destruct IHx as (? & ? & ?). split_and!; [by right|done|done].
      * intros i [->|Hi]%elem_of_cons; [|by apply IHx].
        intros Ed Eb. rewrite Ed, Eb, !Z.eqb_refl in Em. done.
Qed.

Lemma links_snoc nx pv a l x e :
  seg nx pv a (l ++ [x]) e -> pv e = x /\ seg nx pv a l x.
Proof.
  revert a. induction l as [|y l IH]; intros a; cbn; [naive_solver|].
  intros (? & ? & Hs). apply IH in Hs as [? ?]. done.
Qed.

Lemma find_lru_spec s fuel l e :
  seg (next s) (prev s) HEAD l e -> HEAD ∉ l -> (length l < fuel)%nat ->
  match find_lru fuel s (prev s e) with
  | Some i => exists l1 l2, l = l1 ++ i :: l2 /\ b_refcnt (bufat s i) = 0 /\
      forall j, j ∈ l2 -> b_refcnt (bufat s j) <> 0
  | None => forall i, i ∈ l -> b_refcnt (bufat s i) <> 0
  end.
Proof.
  revert e fuel. induction l as [|x l IH] using rev_ind; intros e fuel Hs Hh Hf.
  all: destruct fuel as [|f]; [cbn in Hf; rewrite ?length_app in Hf; lia|]; cbn [find_lru].
  - destruct Hs as [_ ->]. rewrite Z.eqb_refl. intros i Hi. by apply elem_of_nil in Hi.
  - apply links_snoc in Hs as [-> Hs].
    destruct (x =? HEAD) eqn:E; bool_spec; [set_solver|].
    destruct (b_refcnt (bufat s x) =? 0) eqn:Er; bool_spec.
    + exists l, []. split_and!; [done|done|]. intros j Hj. by apply elem_of_nil in Hj.
    + rewrite length_app in Hf. cbn in Hf.
      pose proof (IH x f Hs ltac:(set_solver) ltac:(lia)) as IHx.
      change (b_prev (bufat s x)) with (prev s x).
      destruct (find_lru f s (prev s x)).
      * destruct IHx as (l1 & l2 & -> & ? & Hl2). exists l1, (l2 ++ [x]).
        split_and!; [by rewrite <- app_assoc|done|]. intros j Hj. set_solver.
      * intros i Hi. set_solver.
Qed.

Lemma dll_length s l : dll s l -> length l = Z.to_nat NBUF.
Proof.
  intros Hd. assert (l ≡ₚ upto NBUF) as ->.
  { apply NoDup_Permutation; [apply Hd| |].
    - unfold upto. apply NoDup_fmap_2; [apply _|apply NoDup_seq].
    - intros i. rewrite (dll_mem _ _ Hd), elem_of_upto. done. }
  unfold upto. by rewrite length_fmap, length_seq.
Qed.

(** ** The abstract cache *)

(** A block in use: how many references it has, its lock, its contents. *)
Record ainfo := AI { a_ref : Z; a_lock : sleeplock; a_data : block }.
Notation acache := (gmap Z ainfo).

Definition isbuf (i : Z) : Prop := 0 <= i < NBUF.

(** Buffer [i] is in use for block [bno]. *)
Definition handle (s : bcache) (i bno : Z) : Prop :=
  isbuf i /\ b_dev (bufat s i) = ROOTDEV /\ b_blockno (bufat s i) = bno /\
  b_refcnt (bufat s i) <> 0.

Definition info (b : buf) : ainfo := AI (b_refcnt b) (b_lock b) (b_data b).

Record bR (s : bcache) (live : acache) : Prop := {
  bR_dll : exists l, dll s l;
  bR_uniq : forall i j, isbuf i -> isbuf j ->
    b_dev (bufat s i) = ROOTDEV -> b_dev (bufat s j) = ROOTDEV ->
    b_blockno (bufat s i) = b_blockno (bufat s j) -> i = j;
  bR_free : forall i, isbuf i -> b_refcnt (bufat s i) = 0 ->
    sl_locked (b_lock (bufat s i)) = false /\
    (b_dev (bufat s i) = ROOTDEV -> b_valid (bufat s i) = true ->
     b_data (bufat s i) = blk s (b_blockno (bufat s i)));
  bR_live : forall i, isbuf i -> b_refcnt (bufat s i) <> 0 ->
    b_dev (bufat s i) = ROOTDEV /\ b_valid (bufat s i) = true /\
    live !! b_blockno (bufat s i) = Some (info (bufat s i));
  bR_has : forall bno, is_Some (live !! bno) -> exists i, handle s i bno;
  bR_ref : forall bno x, live !! bno = Some x -> 0 < a_ref x < 2 ^ 32
}.

Lemma bR_len s live : bR s live -> length (bufs s) = Z.to_nat (NBUF + 1).
Proof. intros H. destruct (bR_dll _ _ H) as [l Hl]. apply Hl. Qed.

Lemma isbuf_inb i : isbuf i -> inb i.
Proof. unfold isbuf, inb. lia. Qed.
#[export] Hint Resolve isbuf_inb : xv6.

Lemma handle_info s live i bno :
  bR s live -> handle s i bno -> live !! bno = Some (info (bufat s i)).
Proof. intros H (Hi & _ & <- & Hr). by apply (bR_live _ _ H). Qed.

Lemma handle_inj s live i j bno :
  bR s live -> handle s i bno -> handle s j bno -> i = j.
Proof.
  intros H (? & ? & E & _) (? & ? & E' & _). apply (bR_uniq _ _ H); congruence.
Qed.

Lemma upd_buf_upd_buf s i f g :
  length (bufs s) = Z.to_nat (NBUF + 1) -> inb i ->
  upd_buf i f (upd_buf i g s) = upd_buf i (fun b => f (g b)) s.
Proof.
  intros Hl Hi. unfold upd_buf at 1. rewrite bufat_upd by done.
  rewrite decide_True by done. unfold upd_buf, setZ. cbn. by rewrite list_insert_insert_eq.
Qed.

(** Blocks whose buffers an operation on block [bno] does not touch. *)
Definition others_kept (bno : Z) (s s' : bcache) : Prop :=
  forall j b, b <> bno -> handle s j b -> handle s' j b.

(** Buffer [i] comes into use, or stays in use, for block [b_blockno (f x)]. *)
Lemma bR_upd s live i f :
  bR s live -> isbuf i ->
  (forall b, b_next (f b) = b_next b) -> (forall b, b_prev (f b) = b_prev b) ->
  let x := bufat s i in
  b_dev (f x) = ROOTDEV -> b_valid (f x) = true -> 0 < b_refcnt (f x) < 2 ^ 32 ->
  b_refcnt x = 0 \/ b_blockno (f x) = b_blockno x ->
  (forall j, isbuf j -> j <> i -> b_dev (bufat s j) = ROOTDEV ->
     b_blockno (bufat s j) <> b_blockno (f x)) ->
  bR (upd_buf i f s) (<[b_blockno (f x) := info (f x)]> live) /\
  handle (upd_buf i f s) i (b_blockno (f x)) /\
  others_kept (b_blockno (f x)) s (upd_buf i f s).
Proof.
  intros HR Hi Hn Hp x Hdev Hval Href Hor Huniq.
  pose proof (bR_len _ _ HR) as Hlen.
  assert (forall j, isbuf j ->
    bufat (upd_buf i f s) j = if decide (i = j) then f x else bufat s j) as Hat.
  { intros j ?. apply bufat_upd; auto with xv6. }
  assert (handle (upd_buf i f s) i (b_blockno (f x))) as Hh.
  { unfold handle. rewrite Hat, decide_True by done. repeat split; try done; apply Hi || lia. }
  assert (forall j b, handle s j b -> b <> b_blockno (f x) -> handle (upd_buf i f s) j b) as Hk.
  { intros j b Hj Hb. pose proof Hj as (Hj1 & Hj2 & Hj3 & Hj4).
    unfold handle. rewrite Hat by done. case_decide as E; [|done]. subst j.
    exfalso. destruct Hor as [Hz|Hz]; unfold x in *; congruence. }
  split_and!; [split| done| intros j b Hb Hj; by apply Hk].
  - destruct (bR_dll _ _ HR) as [l Hl]. exists l. apply dll_upd; auto with xv6.
  - intros j k Hj Hk'. rewrite !Hat by done. repeat case_decide; subst.
    + done.
    + intros _ Hd E. exfalso. eapply (Huniq k); congruence || done.
    + intros Hd _ E. exfalso. eapply (Huniq j); congruence || done.
    + apply (bR_uniq _ _ HR); done.
  - intros j Hj. rewrite Hat by done. case_decide; [lia|].
    intros Hr. by apply (bR_free _ _ HR j).
  - intros j Hj. rewrite Hat by done. case_decide as E.
    + intros _. split_and!; [done|done|]. by rewrite lookup_insert_eq.
    + intros Hr. destruct (bR_live _ _ HR j Hj Hr) as (? & ? & ?).
      split_and!; [done|done|]. rewrite lookup_insert_ne; [done|].
      intros Eb. by apply (Huniq j).
  - intros b [y Hy]. rewrite lookup_insert in Hy. case_decide as E; [subst; by exists i|].
    destruct (bR_has _ _ HR b) as [j Hj]; [by exists y|]. exists j. apply Hk; congruence.
  - intros b y. rewrite lookup_insert. case_decide.
    + intros [= <-]. done.
    + apply (bR_ref _ _ HR).
Qed.

(** The last reference to a clean, unlocked buffer goes away. *)
Lemma bR_upd_free s live i f :
  bR s live -> isbuf i ->
  (forall b, b_next (f b) = b_next b) -> (forall b, b_prev (f b) = b_prev b) ->
  let x := bufat s i in
  b_refcnt x <> 0 -> b_refcnt (f x) = 0 -> b_dev (f x) = b_dev x ->
  b_blockno (f x) = b_blockno x ->
  sl_locked (b_lock (f x)) = false -> b_data (f x) = blk s (b_blockno x) ->
  bR (upd_buf i f s) (delete (b_blockno x) live) /\
  others_kept (b_blockno x) s (upd_buf i f s).
Proof.
  intros HR Hi Hn Hp x Hr0 Hr Hdev Hbno Hlk Hd.
  pose proof (bR_len _ _ HR) as Hlen.
  assert (forall j, isbuf j ->
    bufat (upd_buf i f s) j = if decide (i = j) then f x else bufat s j) as Hat.
  { intros j ?. apply bufat_upd; auto with xv6. }
  destruct (bR_live _ _ HR i Hi Hr0) as (Hxd & _ & _).
  assert (others_kept (b_blockno x) s (upd_buf i f s)) as Hk.
  { intros j b Hb Hj. pose proof Hj as (? & ? & ? & ?). unfold handle. rewrite Hat by done.
    case_decide; [|done]. subst. done. }
  split; [split|done].
  - destruct (bR_dll _ _ HR) as [l Hl]. exists l. apply dll_upd; auto with xv6.
  - intros j k Hj Hk'. rewrite !Hat by done.
    repeat case_decide; subst; rewrite ?Hdev, ?Hbno; intros.
    all: try done; by apply (bR_uniq _ _ HR).
  - intros j Hj. rewrite Hat by done. case_decide; [|by apply (bR_free _ _ HR)].
    intros _. split; [done|]. intros _ _. by rewrite Hbno.
  - intros j Hj. rewrite Hat by done. case_decide as E; [done|].
    intros Hrj. destruct (bR_live _ _ HR j Hj Hrj) as (? & ? & ?). split_and!; [done|done|].
    rewrite lookup_delete_ne; [done|]. intros Eb. apply E.
    by apply (bR_uniq _ _ HR).
  - intros b [y Hy]. apply lookup_delete_Some in Hy as [Hne Hy].
    destruct (bR_has _ _ HR b) as [j Hj]; [by exists y|]. exists j. by apply Hk.
  - intros b y Hy. apply lookup_delete_Some in Hy as [_ Hy]. by apply (bR_ref _ _ HR b).
Qed.

(** ** The contract of the operations *)

(** The running thread holds none of the cache's spin locks. *)
Definition nolk (c : ctx) : Prop :=
  LK_bcache ∉ held c /\ forall i, LK_sleep_buf i ∉ held c.

Lemma nolk_ceq c c' : ceq c c' -> nolk c -> nolk c'.
Proof. intros [E _]. unfold nolk. by rewrite E. Qed.

Lemma cached_spec s live bno :
  bR s live ->
  match find_cached list_fuel s (next s HEAD) ROOTDEV bno with
  | Some i => isbuf i /\ b_dev (bufat s i) = ROOTDEV /\ b_blockno (bufat s i) = bno
  | None => forall i, isbuf i -> b_dev (bufat s i) = ROOTDEV -> b_blockno (bufat s i) <> bno
  end.
Proof.
  intros HR. destruct (bR_dll _ _ HR) as [l Hl].
  pose proof (find_cached_spec s ROOTDEV bno list_fuel HEAD l (dll_seg _ _ Hl)
    (dll_head _ _ Hl)) as Hf.
  rewrite (dll_length _ _ Hl) in Hf. specialize (Hf ltac:(unfold list_fuel; plia)).
  destruct (find_cached _ _ _ _ _) as [i|].
  - by rewrite (dll_mem _ _ Hl) in Hf.
  - intros i Hi. apply Hf. by apply (dll_mem _ _ Hl).
Qed.

(** As long as a buffer is not in use, the search for a victim succeeds, and
    picks the least recently used one. *)
Lemma victim_spec s live l :
  bR s live -> dll s l -> (size live < Z.to_nat NBUF)%nat ->
  exists i l1 l2, find_lru list_fuel s (prev s HEAD) = Some i /\ isbuf i /\
    b_refcnt (bufat s i) = 0 /\ l = l1 ++ i :: l2 /\
    forall j, j ∈ l2 -> b_refcnt (bufat s j) <> 0.
Proof.
  intros HR Hl Hsz.
  pose proof (find_lru_spec s list_fuel l HEAD (dll_seg _ _ Hl) (dll_head _ _ Hl)) as Hf.
  rewrite (dll_length _ _ Hl) in Hf. specialize (Hf ltac:(unfold list_fuel; plia)).
  destruct (find_lru _ _ _) as [i|].
  - destruct Hf as (l1 & l2 & -> & Hr & Hl2). exists i, l1, l2.
    split_and!; [done| |done|done|done]. apply (dll_mem _ _ Hl). set_solver.
  - exfalso.
    assert (NoDup ((fun i => b_blockno (bufat s i)) <$> l)) as Hnd.
    { apply NoDup_fmap_2_strong; [|apply Hl]. intros i j Hi Hj E.
      apply (dll_mem _ _ Hl) in Hi as Hi', Hj as Hj'.
      destruct (bR_live _ _ HR i Hi' (Hf i Hi)) as (? & _ & _).
      destruct (bR_live _ _ HR j Hj' (Hf j Hj)) as (? & _ & _).
      by apply (bR_uniq _ _ HR). }
    pose proof (size_list_to_set (C := gset Z) _ Hnd) as Hsize.
    rewrite length_fmap, (dll_length _ _ Hl) in Hsize.
    assert (list_to_set ((fun i => b_blockno (bufat s i)) <$> l) ⊆@{gset Z} dom live) as Hsub.
    { intros b Hb. apply elem_of_list_to_set, list_elem_of_fmap in Hb as (i & -> & Hi).
      apply elem_of_dom. apply (dll_mem _ _ Hl) in Hi as Hi'.
      destruct (bR_live _ _ HR i Hi' (Hf i Hi)) as (_ & _ & ->). done. }
    apply subseteq_size in Hsub. rewrite Hsize, size_dom in Hsub. lia.
Qed.

Lemma bget_hit s c i bno :
  nolk c -> inb i -> length (bufs s) = Z.to_nat (NBUF + 1) ->
  find_cached list_fuel s (next s HEAD) ROOTDEV bno = Some i ->
  sl_locked (b_lock (bufat s i)) = false ->
  bget ROOTDEV bno c s =
    Ok i c (upd_buf i (fun b => set_lock (Sleeplock true (mypid c)) (incref b)) s).
Proof.
  intros [Hb Hs] Hi Hlen Hf Hlk. unfold bget. rewrite bind_acquire by done.
  unfold bind at 1, gets. fold (next s HEAD). rewrite Hf.
  unfold bind at 1, modify. rewrite bind_release by done. rewrite ctx_eta.
  unfold acquiresleep_buf. erewrite bind_Ok.
  2:{ apply acquiresleep_free; [done|]. rewrite bufat_upd by done. by rewrite decide_True. }
  by rewrite upd_buf_upd_buf.
Qed.

Lemma bget_miss s c i bno :
  nolk c -> inb i -> length (bufs s) = Z.to_nat (NBUF + 1) ->
  find_cached list_fuel s (next s HEAD) ROOTDEV bno = None ->
  find_lru list_fuel s (prev s HEAD) = Some i ->
  sl_locked (b_lock (bufat s i)) = false ->
  bget ROOTDEV bno c s =
    Ok i c (upd_buf i (fun b => set_lock (Sleeplock true (mypid c)) (recycle ROOTDEV bno b)) s).
Proof.
  intros [Hb Hs] Hi Hlen Hf Hv Hlk. unfold bget. rewrite bind_acquire by done.
  unfold bind at 1, gets. fold (next s HEAD). rewrite Hf.
  unfold bind at 1. fold (prev s HEAD). rewrite Hv.
  unfold bind at 1, modify. rewrite bind_release by done. rewrite ctx_eta.
  unfold acquiresleep_buf. erewrite bind_Ok.
  2:{ apply acquiresleep_free; [done|]. rewrite bufat_upd by done. by rewrite decide_True. }
  by rewrite upd_buf_upd_buf.
Qed.

(** The state after [bread], when [bget] has returned buffer [i] updated by [f]. *)
Lemma bread_after_bget s c i bno f :
  inb i -> length (bufs s) = Z.to_nat (NBUF + 1) ->
  bget ROOTDEV bno c s = Ok i c (upd_buf i f s) ->
  let x := f (bufat s i) in
  bread ROOTDEV bno c s =
    Ok i c (upd_buf i (fun b => if b_valid x then f b
              else set_valid true (set_data (blk s (b_blockno x)) (f b))) s).
Proof.
  intros Hi Hlen Hg x. unfold bread. erewrite bind_Ok by exact Hg.
  unfold bind at 1, gets. rewrite bufat_upd, decide_True by done. fold x.
  destruct (b_valid x) eqn:Ev; cbn; unfold bind, ret, modify; cbn; [by destruct s|].
  rewrite upd_buf_upd_buf by (by rewrite ?length_upd_buf).
  rewrite upd_buf_upd_buf by done.
  by rewrite bufat_upd, decide_True by done.
Qed.

(** What [bread] makes of the abstract state of a block. *)
Definition read_info (pid : Z) (d : block) (o : option ainfo) : ainfo :=
  match o with
  | None => AI 1 (Sleeplock true pid) d
  | Some x => AI (a_ref x + 1) (Sleeplock true pid) (a_data x)
  end.

(** [bread] can go on: an unused block needs a free buffer, a used one must be
    unlocked. *)
Definition readable (live : acache) (bno : Z) : Prop :=
  match live !! bno with
  | None => (size live < Z.to_nat NBUF)%nat
  | Some x => sl_locked (a_lock x) = false /\ a_ref x + 1 < 2 ^ 32
  end.

Definition same_disk (s s' : bcache) : Prop :=
  platter s' = platter s /\ writes s' = writes s.

Lemma bread_spec s live bno c :
  bR s live -> nolk c -> readable live bno ->
  exists i s', bread ROOTDEV bno c s = Ok i c s' /\
    bR s' (<[bno := read_info (mypid c) (blk s bno) (live !! bno)]> live) /\
    handle s' i bno /\ others_kept bno s s' /\ same_disk s s'.
Proof.
  intros HR Hc Hrd. pose proof (bR_len _ _ HR) as Hlen.
  pose proof (cached_spec s live bno HR) as Hcs.
  destruct (find_cached _ _ _ _ _) as [i|] eqn:Ef.
  - destruct Hcs as (Hi & Hdev & Hbno). set (x := bufat s i) in *.
    assert (sl_locked (b_lock x) = false /\ 0 <= b_refcnt x /\ b_refcnt x + 1 < 2 ^ 32) as
      (Hlk & Hr0 & Hr1).
    { unfold readable in Hrd. destruct (decide (b_refcnt x = 0)) as [E|E].
      - destruct (bR_free _ _ HR i Hi E). fold x. rewrite E. by split_and!.
      - destruct (bR_live _ _ HR i Hi E) as (_ & _ & Hlv). fold x in Hlv.
        rewrite Hbno in Hlv. rewrite Hlv in Hrd. pose proof (bR_ref _ _ HR _ _ Hlv).
        destruct Hrd as [? ?]. cbn in *. split_and!; [done|lia|lia]. }
    pose proof (bget_hit s c i bno Hc ltac:(auto with xv6) Hlen Ef Hlk) as Hg.
    apply bread_after_bget in Hg; [|auto with xv6|done]. cbn in Hg. fold x in Hg.
    destruct (bR_upd s live i (fun b => if b_valid x
        then set_lock (Sleeplock true (mypid c)) (incref b)
        else set_valid true (set_data (blk s (b_blockno x))
               (set_lock (Sleeplock true (mypid c)) (incref b)))))
      as (HR' & Hh & Hk).
    1-4: first [done | by intros b; destruct (b_valid x)].
    all: fold x; cbn.
    + by destruct (b_valid x).
    + by destruct (b_valid x) eqn:E.
    + destruct (b_valid x); cbn; rewrite u32_small by lia; lia.
    + right. by destruct (b_valid x).
    + intros j Hj Hne Hdj E. apply Hne. apply (bR_uniq _ _ HR); try done.
      fold x. rewrite E. by destruct (b_valid x).
    + fold x in HR', Hh, Hk.
      assert (b_blockno (if b_valid x
        then set_lock (Sleeplock true (mypid c)) (incref x)
        else set_valid true (set_data (blk s (b_blockno x))
               (set_lock (Sleeplock true (mypid c)) (incref x)))) = bno) as Eb
        by (by destruct (b_valid x)).
      rewrite Eb in HR', Hh, Hk.
      eexists i, _. split_and!; [exact Hg| |exact Hh|exact Hk|done].
      replace (read_info _ _ _) with (info (if b_valid x
        then set_lock (Sleeplock true (mypid c)) (incref x)
        else set_valid true (set_data (blk s (b_blockno x))
               (set_lock (Sleeplock true (mypid c)) (incref x))))); [exact HR'|].
      destruct (decide (b_refcnt x = 0)) as [E|E].
      * assert (live !! bno = None) as ->.
        { destruct (live !! bno) as [y|] eqn:Ey; [|done].
          destruct (bR_has _ _ HR bno) as [j (Hj & Hj2 & Hj3 & Hj4)]; [by exists y|].
          assert (j = i) by (apply (bR_uniq _ _ HR); fold x; congruence).
          subst j. done. }
        destruct (bR_free _ _ HR i Hi E) as [_ Hcl]. fold x in Hcl.
        destruct (b_valid x) eqn:Ev; cbn; unfold info; cbn; rewrite E, Hbno in *.
        -- f_equal. by apply Hcl.
        -- done.
      * destruct (bR_live _ _ HR i Hi E) as (_ & Hv & Hlv). fold x in Hlv, Hv.
        rewrite <- Hbno, Hlv, Hv. unfold info. cbn. by rewrite u32_small by lia.
  - destruct (bR_dll _ _ HR) as [l Hl].
    assert (live !! bno = None) as Hn.
    { destruct (live !! bno) as [y|] eqn:Ey; [|done].
      destruct (bR_has _ _ HR bno) as [j (Hj & Hj2 & Hj3 & _)]; [by exists y|].
      exfalso. by eapply Hcs. }
    unfold readable in Hrd. rewrite Hn in *.
    destruct (victim_spec s live l HR Hl Hrd) as (i & _ & _ & Hv & Hi & Hr & _ & _).
    destruct (bR_free _ _ HR i Hi Hr) as [Hlk _].
    pose proof (bget_miss s c i bno Hc ltac:(auto with xv6) Hlen Ef Hv Hlk) as Hg.
    apply bread_after_bget in Hg; [|auto with xv6|done]. cbn in Hg.
    destruct (bR_upd s live i (fun b => set_valid true (set_data (blk s bno)
               (set_lock (Sleeplock true (mypid c)) (recycle ROOTDEV bno b)))))
      as (HR' & Hh & Hk); try done; cbn.
    + by left.
    + intros j Hj _ Hdj E. by eapply Hcs.
    + eexists i, _. by split_and!.
Qed.

Lemma bR_upd_live s live i f bno :
  bR s live -> handle s i bno ->
  (forall b, b_next (f b) = b_next b) -> (forall b, b_prev (f b) = b_prev b) ->
  (forall b, b_dev (f b) = b_dev b) -> (forall b, b_blockno (f b) = b_blockno b) ->
  (forall b, b_valid (f b) = b_valid b) ->
  0 < b_refcnt (f (bufat s i)) < 2 ^ 32 ->
  bR (upd_buf i f s) (<[bno := info (f (bufat s i))]> live) /\
  handle (upd_buf i f s) i bno /\ others_kept bno s (upd_buf i f s).
Proof.
  intros HR (Hi & Hd & Hb & Hr) Hn Hp Hfd Hfb Hfv Hfr.
  destruct (bR_live _ _ HR i Hi Hr) as (_ & Hv & _).
  pose proof (bR_upd s live i f HR Hi Hn Hp) as H. cbn in H.
  rewrite Hfb, Hb in H. apply H.
  - by rewrite Hfd.
  - by rewrite Hfv.
  - done.
  - by right.
  - intros j Hj Hne Hdj E. apply Hne. apply (bR_uniq _ _ HR); congruence.
Qed.

(** Block [bno] is locked by the running process. *)
Definition mine (c : ctx) (x : ainfo) : Prop := a_lock x = Sleeplock true (mypid c).

Lemma holding_mine s live c i bno x :
  bR s live -> nolk c -> handle s i bno -> live !! bno = Some x -> mine c x ->
  holdingsleep_buf i c s = Ok true c s /\ x = info (bufat s i).
Proof.
  intros HR [_ Hc] Hh Hx Hm.
  assert (x = info (bufat s i)) as ->.
  { rewrite (handle_info _ _ _ _ HR Hh) in Hx. by simplify_eq. }
  split; [|done]. unfold holdingsleep_buf. rewrite holdingsleep_run by done.
  unfold mine in Hm. cbn in Hm. rewrite Hm. cbn. by rewrite Z.eqb_refl.
Qed.

Lemma bwrite_spec s live c i bno x :
  bR s live -> nolk c -> handle s i bno -> live !! bno = Some x -> mine c x ->
  exists s', bwrite i c s = Ok tt c s' /\ bR s' live /\ bufs s' = bufs s /\
    platter s' = <[bno := a_data x]> (platter s) /\
    writes s' = writes s ++ [(bno, a_data x)].
Proof.
  intros HR Hc Hh Hx Hm. destruct (holding_mine _ _ _ _ _ _ HR Hc Hh Hx Hm) as [Hr ->].
  destruct Hh as (Hi & Hd & Hb & Hrf). rewrite <- Hb. cbn [a_data info].
  set (b := bufat s i) in *. eexists. split_and!.
  - unfold bwrite. rewrite (bind_Ok _ _ _ _ _ _ _ Hr). cbn.
    unfold disk_rw, modify. fold b. reflexivity.
  - destruct HR as [HR1 HR2 HR3 HR4 HR5 HR6]. split; try done.
    + destruct HR1 as [l [? ? ? ?]]. exists l. by split.
    + intros j Hj Hz. destruct (HR3 j Hj Hz) as [? Hcl]. split; [done|].
      intros Hdj Hvj. cbn. unfold blk. cbn. rewrite lookup_insert_ne.
      * by apply Hcl.
      * intros E. assert (i = j) by (by apply HR2). subst j. done.
  - done.
  - done.
  - done.
Qed.

Lemma put_data_spec s live c i bno x d :
  bR s live -> handle s i bno -> live !! bno = Some x ->
  exists s', put_data i d c s = Ok tt c s' /\
    bR s' (<[bno := AI (a_ref x) (a_lock x) d]> live) /\
    handle s' i bno /\ others_kept bno s s' /\ same_disk s s'.
Proof.
  intros HR Hh Hx. rewrite (handle_info _ _ _ _ HR Hh) in Hx. simplify_eq.
  pose proof (bR_ref _ _ HR _ _ (handle_info _ _ _ _ HR Hh)) as Hr. cbn in Hr.
  destruct (bR_upd_live s live i (set_data d) bno HR Hh) as (HR' & Hh' & Hk); try done.
  eexists. by split_and!.
Qed.

Lemma get_data_spec s live c i bno x :
  bR s live -> handle s i bno -> live !! bno = Some x -> get_data i c s = Ok (a_data x) c s.
Proof.
  intros HR Hh Hx. rewrite (handle_info _ _ _ _ HR Hh) in Hx. by simplify_eq.
Qed.

Lemma bpin_spec s live c i bno x :
  bR s live -> nolk c -> handle s i bno -> live !! bno = Some x -> a_ref x + 1 < 2 ^ 32 ->
  exists s', bpin i c s = Ok tt c s' /\
    bR s' (<[bno := AI (a_ref x + 1) (a_lock x) (a_data x)]> live) /\
    handle s' i bno /\ others_kept bno s s' /\ same_disk s s'.
Proof.
  intros HR [Hc _] Hh Hx Hr. rewrite (handle_info _ _ _ _ HR Hh) in Hx. simplify_eq.
  pose proof (bR_ref _ _ HR _ _ (handle_info _ _ _ _ HR Hh)) as Hr0. cbn in *.
  destruct (bR_upd_live s live i incref bno HR Hh) as (HR' & Hh' & Hk); try done.
  { cbn. rewrite u32_small by lia. lia. }
  eexists. split_and!; [| |done|done|done].
  - unfold bpin. rewrite bind_acquire by done. unfold bind, modify.
    by rewrite release_run, ctx_eta by done.
  - unfold info, incref in HR'. cbn in HR'. by rewrite u32_small in HR' by lia.
Qed.

Lemma bunpin_spec s live c i bno x :
  bR s live -> nolk c -> handle s i bno -> live !! bno = Some x -> 1 < a_ref x ->
  exists s', bunpin i c s = Ok tt c s' /\
    bR s' (<[bno := AI (a_ref x - 1) (a_lock x) (a_data x)]> live) /\
    handle s' i bno /\ others_kept bno s s' /\ same_disk s s'.
Proof.
  intros HR [Hc _] Hh Hx Hr. rewrite (handle_info _ _ _ _ HR Hh) in Hx. simplify_eq.
  pose proof (bR_ref _ _ HR _ _ (handle_info _ _ _ _ HR Hh)) as Hr0. cbn in *.
  destruct (bR_upd_live s live i decref bno HR Hh) as (HR' & Hh' & Hk); try done.
  { cbn. rewrite u32_small by lia. lia. }
  eexists. split_and!; [| |done|done|done].
  - unfold bunpin. rewrite bind_acquire by done. unfold bind, modify.
    by rewrite release_run, ctx_eta by done.
  - unfold info, decref in HR'. cbn in HR'. by rewrite u32_small in HR' by lia.
Qed.

(** All of a buffer but its links. *)
Definition fields (b : buf) : ainfo * Z * Z * bool := (info b, b_dev b, b_blockno b, b_valid b).

(** Two states that differ only in the order of the LRU list. *)
Lemma bR_relink s s' live :
  bR s live -> (exists l, dll s' l) -> platter s' = platter s ->
  (forall i, fields (bufat s' i) = fields (bufat s i)) ->
  bR s' live /\ forall i b, handle s i b -> handle s' i b.
Proof.
  intros HR Hd Hpl Hf.
  assert (forall i, isbuf i -> info (bufat s' i) = info (bufat s i) /\
    b_dev (bufat s' i) = b_dev (bufat s i) /\
    b_blockno (bufat s' i) = b_blockno (bufat s i) /\
    b_valid (bufat s' i) = b_valid (bufat s i)) as Hat.
  { intros i _. specialize (Hf i). unfold fields in Hf. split_and!; congruence. }
  assert (forall i, isbuf i -> b_refcnt (bufat s' i) = b_refcnt (bufat s i)) as Href.
  { intros i Hi. destruct (Hat i Hi) as ([= -> _ _] & _). done. }
  assert (forall i b, handle s i b -> handle s' i b) as Hk.
  { intros i b (Hi & ? & ? & ?). destruct (Hat i Hi) as (_ & E1 & E2 & _).
    unfold handle. by rewrite E1, E2, Href by done. }
  split; [|done]. split.
  - done.
  - intros i j Hi Hj. destruct (Hat i Hi) as (_ & -> & -> & _).
    destruct (Hat j Hj) as (_ & -> & -> & _). by apply (bR_uniq _ _ HR).
  - intros i Hi. rewrite Href by done.
    destruct (Hat i Hi) as ([= _ -> ->] & -> & -> & ->).
    unfold blk. rewrite Hpl. by apply (bR_free _ _ HR).
  - intros i Hi. rewrite Href by done. destruct (Hat i Hi) as (-> & -> & -> & ->).
    by apply (bR_live _ _ HR).
  - intros b Hb. destruct (bR_has _ _ HR b Hb) as [i Hi]. eauto.
  - apply (bR_ref _ _ HR).
Qed.

Lemma fields_upd s k f i :
  fields (f (bufat s k)) = fields (bufat s k) ->
  fields (bufat (upd_buf k f s) i) = fields (bufat s i).
Proof.
  intros Hf. unfold upd_buf, bufat at 1, nthZ, setZ. cbn.
  destruct (decide (Z.to_nat k = Z.to_nat i)) as [E|E].
  - assert (bufat s k = bufat s i) as Eb by (unfold bufat, nthZ; by rewrite E).
    rewrite nth_lookup, E. destruct (decide (Z.to_nat i < length (bufs s))%nat).
    + rewrite list_lookup_insert_eq by done. cbn. by rewrite Hf, Eb.
    + rewrite list_insert_ge by lia. by rewrite <- nth_lookup.
  - by rewrite nth_lookup, list_lookup_insert_ne, <- nth_lookup.
Qed.

Lemma link_front_fields s b i : fields (bufat (link_front b s) i) = fields (bufat s i).
Proof. unfold link_front. cbv zeta. by rewrite !fields_upd. Qed.

Lemma to_front_fields s b i : fields (bufat (to_front b s) i) = fields (bufat s i).
Proof. unfold to_front. cbv zeta. by rewrite !fields_upd. Qed.

(** [brelse] by the holder of the buffer. *)
Lemma brelse_run s c i :
  nolk c -> length (bufs s) = Z.to_nat (NBUF + 1) -> inb i ->
  holdingsleep_buf i c s = Ok true c s ->
  let f := fun b => decref (set_lock (Sleeplock false 0) b) in
  brelse i c s = Ok tt (woken (CH_sleep_buf i) c)
    (if b_refcnt (f (bufat s i)) =? 0 then to_front i (upd_buf i f s) else upd_buf i f s).
Proof.
  intros [Hcb Hcs] Hlen Hi Hr f. unfold brelse. rewrite (bind_Ok _ _ _ _ _ _ _ Hr). cbn.
  unfold releasesleep_buf. erewrite bind_Ok by (by apply releasesleep_run).
  rewrite bind_acquire by done. unfold bind, modify, gets, ret. cbn.
  rewrite upd_buf_upd_buf by auto with xv6. fold f.
  rewrite bufat_upd, decide_True by auto with xv6. set (b := bufat s i).
  change (b_refcnt (f b)) with (u32 (b_refcnt b - 1)).
  destruct (u32 (b_refcnt b - 1) =? 0); by rewrite release_run.
Qed.

(** [brelse] drops a reference and the lock; a buffer nobody refers to any more
    must be clean. *)
Lemma brelse_spec s live c i bno x :
  bR s live -> nolk c -> handle s i bno -> live !! bno = Some x -> mine c x ->
  1 < a_ref x \/ a_data x = blk s bno ->
  exists s', brelse i c s = Ok tt (woken (CH_sleep_buf i) c) s' /\
    bR s' (if decide (a_ref x = 1) then delete bno live
           else <[bno := AI (a_ref x - 1) (Sleeplock false 0) (a_data x)]> live) /\
    others_kept bno s s' /\ same_disk s s'.
Proof.
  intros HR Hc Hh Hx Hm Hcl.
  destruct (holding_mine _ _ _ _ _ _ HR Hc Hh Hx Hm) as [Hr ->].
  pose proof Hc as [Hcb Hcs]. pose proof (bR_len _ _ HR) as Hlen.
  pose proof Hh as (Hi & Hd & Hb & Hrf).
  pose proof (bR_ref _ _ HR _ _ (handle_info _ _ _ _ HR Hh)) as Hr0.
  cbn in Hr0, Hcl |- *. set (b := bufat s i) in *.
  set (f := fun b => decref (set_lock (Sleeplock false 0) b)).
  assert (b_refcnt (f b) = b_refcnt b - 1) as Hrf' by (cbn; by rewrite u32_small by lia).
  pose proof (brelse_run _ _ _ Hc Hlen (isbuf_inb _ Hi) Hr) as Hrun. fold f b in Hrun.
  rewrite Hrun, Hrf'. case_decide as E.
  - destruct (bR_upd_free s live i f HR Hi) as [HR' Hk]; try done.
    { change (b_refcnt (f b) = 0). rewrite Hrf', E. done. }
    { fold b. cbn. destruct Hcl; [lia|]. by rewrite Hb. }
    fold b in HR', Hk. rewrite Hb in HR', Hk. rewrite E. cbn.
    destruct (bR_dll _ _ HR') as [l Hl].
    assert (i ∈ l) as Hil by (by apply (dll_mem _ _ Hl)).
    apply list_elem_of_split in Hil as (l1 & l2 & ->).
    destruct (bR_relink (upd_buf i f s) (to_front i (upd_buf i f s)) (delete bno live))
      as [HR2 Hk2]; [done| |done| |].
    + eexists. by apply to_front_dll.
    + intros j. apply to_front_fields.
    + eexists. split_and!; [done|done| |done]. intros j b' Hne Hj. by apply Hk2, Hk.
  - destruct (bR_upd_live s live i f bno HR Hh) as (HR' & Hh' & Hk); try done.
    { fold b. rewrite Hrf'. lia. }
    fold b in HR'. unfold info in HR'. rewrite Hrf' in HR'. cbn in HR'.
    replace (b_refcnt b - 1 =? 0) with false by (symmetry; apply Z.eqb_neq; lia).
    eexists. by split_and!.
Qed.

(** ** Initialisation *)

(** The cache as the kernel finds it: static memory is zero. *)
Definition static_bcache (d : gmap Z block) : bcache :=
  Bcache (replicate (Z.to_nat (NBUF + 1)) buf0) d [].

Lemma binit_step_eq s b :
  length (bufs s) = Z.to_nat (NBUF + 1) -> isbuf b ->
  binit_step b s = link_front b (upd_buf b (set_lock initsleeplock) s).
Proof.
  intros Hl Hb. unfold binit_step, link_front. cbv zeta.
  rewrite (bufat_upd s b HEAD), decide_False by (unfold HEAD, isbuf in *; auto with xv6; lia).
  rewrite !upd_buf_upd_buf by (rewrite ?length_upd_buf; auto with xv6). done.
Qed.

Lemma binit_loop s n :
  0 <= n -> n <= NBUF -> length (bufs s) = Z.to_nat (NBUF + 1) ->
  seg (next s) (prev s) HEAD [] HEAD -> (forall i, fields (bufat s i) = fields buf0) ->
  let s' := fold_left (fun s b => binit_step b s) (upto n) s in
  length (bufs s') = Z.to_nat (NBUF + 1) /\
  seg (next s') (prev s') HEAD (reverse (upto n)) HEAD /\
  platter s' = platter s /\ forall i, fields (bufat s' i) = fields buf0.
Proof.
  intros Hn. pattern n. apply natlike_ind; [| |exact Hn]; clear n Hn.
  - intros _ Hl Hs Hf. by split_and!.
  - intros n Hn IH HnN Hl Hs Hf. destruct (IH ltac:(lia) Hl Hs Hf) as (IHl & IHs & IHp & IHf).
    cbv zeta. rewrite <- Z.add_1_r, upto_S, fold_left_app, reverse_app by done.
    cbn [fold_left reverse rev_append app]. set (s1 := fold_left _ (upto n) s) in *.
    rewrite binit_step_eq by (done || (unfold isbuf; lia)).
    set (s2 := upd_buf n (set_lock initsleeplock) s1).
    assert (length (bufs s2) = Z.to_nat (NBUF + 1)) as Hl2 by (unfold s2; by rewrite length_upd_buf).
    assert (inb n) by (unfold inb; lia).
    assert (forall y, y ∈ HEAD :: reverse (upto n) -> inb y) as Hin.
    { intros y [->|Hy]%elem_of_cons; [apply inb_head|].
      apply elem_of_reverse, elem_of_upto in Hy. unfold inb. lia. }
    assert (seg (next s2) (prev s2) HEAD (reverse (upto n)) HEAD) as Hs2.
    { eapply seg_ext; [| |exact IHs]; intros y Hy;
        unfold next, prev, s2; rewrite bufat_upd by (try done; apply Hin; set_solver);
        case_decide; by subst. }
    destruct (link_front_seg s2 n (reverse (upto n))) as [Hl3 Hs3]; try done; [lia| | | |].
    + rewrite elem_of_reverse, elem_of_upto. lia.
    + rewrite reverse_Permutation; apply NoDup_upto.
    + intros i Hi. apply elem_of_reverse, elem_of_upto in Hi. lia.
    + split_and!; [done|done|exact IHp|]. intros i. rewrite link_front_fields.
      unfold s2. rewrite fields_upd; [apply IHf|].
      pose proof (IHf n) as E. unfold fields, info in E |- *. cbn in E |- *. congruence.
Qed.

(** [binit] builds the list, the last buffer of the array first. *)
Lemma binit_facts d :
  let s := binit (static_bcache d) in
  dll s (reverse (upto NBUF)) /\ platter s = d /\ forall i, fields (bufat s i) = fields buf0.
Proof.
  unfold binit. cbv zeta.
  set (s1 := upd_buf HEAD (set_next HEAD) (upd_buf HEAD (set_prev HEAD) (static_bcache d))).
  destruct (binit_loop s1 NBUF) as (Hl & Hs & Hp & Hf); [plia|plia| | | |].
  - unfold s1. by rewrite !length_upd_buf.
  - split; vm_compute; reflexivity.
  - intros i. unfold s1. rewrite !fields_upd; [|done..].
    unfold bufat, nthZ, static_bcache. cbn [bufs].
    rewrite nth_lookup. destruct (replicate _ _ !! _) as [x|] eqn:E; [|done].
    by apply lookup_replicate in E as [-> _].
  - set (s := fold_left _ (upto NBUF) s1) in *.
    assert (platter s = d) as Hd by exact Hp. clearbody s.
    split_and!; [|done|done]. split; [done|done| |].
    + rewrite reverse_Permutation. apply NoDup_upto.
    + intros i. by rewrite elem_of_reverse, elem_of_upto.
Qed.

#[global] Opaque binit.

(** After [binit] the cache is well formed and holds no block. *)
Lemma binit_spec d : bR (binit (static_bcache d)) ∅ /\ platter (binit (static_bcache d)) = d.
Proof.
  destruct (binit_facts d) as (Hdll & Hd & Hf). revert Hdll Hd Hf.
  generalize (binit (static_bcache d)). intros s Hdll Hd Hf.
  assert (forall i, b_dev (bufat s i) = 0 /\ b_refcnt (bufat s i) = 0 /\
    sl_locked (b_lock (bufat s i)) = false) as Hz.
  { intros i. pose proof (Hf i) as E. unfold fields, info in E. cbn in E.
    assert (b_lock (bufat s i) = initsleeplock) as -> by congruence.
    split_and!; [congruence..|done]. }
  split; [split|exact Hd].
  - eauto.
  - intros i j _ _ E. by rewrite (proj1 (Hz i)) in E.
  - intros i _ _. destruct (Hz i) as (-> & _ & ->). done.
  - intros i _ E. destruct (Hz i) as (_ & E' & _). done.
  - intros bno [x Hx]. by rewrite lookup_empty in Hx.
  - intros bno x Hx. by rewrite lookup_empty in Hx.
Qed.

(** ** Replacement *)

Lemma find_lru_unique s l1 i l2 l1' i' l2' :
  l1 ++ i :: l2 = l1' ++ i' :: l2' ->
  b_refcnt (bufat s i) = 0 -> (forall j, j ∈ l2 -> b_refcnt (bufat s j) <> 0) ->
  b_refcnt (bufat s i') = 0 -> (forall j, j ∈ l2' -> b_refcnt (bufat s j) <> 0) -> i = i'.
Proof.
  intros E Hi H2 Hi' H2'. apply app_eq_inv in E as [(k & E1 & E2)|(k & E1 & E2)].
  - destruct k as [|x k]; [by injection E2|]. injection E2 as -> ->.
    exfalso. apply (H2' i); [set_solver|done].
  - destruct k as [|x k]; [by injection E2|]. injection E2 as -> ->.
    exfalso. apply (H2 i'); [set_solver|done].
Qed.

(** Replacement is by least recent use: [brelse] of the last reference moves
    the buffer to the front of the list, and [bread] of a block that is not cached
    recycles the rearmost buffer without references, fills it from the disk and
    leaves every other buffer and the list alone. *)
Theorem bcache_lru s live c l1 i l2 :
  bR s live -> nolk c -> dll s (l1 ++ i :: l2) ->
  (b_refcnt (bufat s i) = 1 -> b_lock (bufat s i) = Sleeplock true (mypid c) ->
   exists s', brelse i c s = Ok tt (woken (CH_sleep_buf i) c) s' /\ dll s' (i :: l1 ++ l2)) /\
  (forall bno, b_refcnt (bufat s i) = 0 -> (forall j, j ∈ l2 -> b_refcnt (bufat s j) <> 0) ->
   (forall j, isbuf j -> b_dev (bufat s j) = ROOTDEV -> b_blockno (bufat s j) <> bno) ->
   exists s', bread ROOTDEV bno c s = Ok i c s' /\ dll s' (l1 ++ i :: l2) /\
     b_data (bufat s' i) = blk s bno /\
     forall j, isbuf j -> j <> i -> bufat s' j = bufat s j).
Proof.
  intros HR Hc Hl. pose proof (dll_len _ _ Hl) as Hlen.
  assert (isbuf i) as Hi by (apply (dll_mem _ _ Hl); set_solver). split.
  - intros Hr Hlk. pose proof Hc as [_ Hcs].
    eexists. split; [apply brelse_run; auto with xv6|].
    + unfold holdingsleep_buf. rewrite holdingsleep_run by auto. rewrite Hlk. cbn.
      by rewrite Z.eqb_refl.
    + cbn. rewrite Hr. cbn. apply to_front_dll.
      apply (dll_upd s _ i _ Hl); auto with xv6.
  - intros bno Hr H2 Hnc.
    pose proof (cached_spec s live bno HR) as Hcs.
    destruct (find_cached _ _ _ _ _) as [j|] eqn:Ef; [exfalso; by eapply Hnc; apply Hcs|].
    pose proof (find_lru_spec s list_fuel _ HEAD (dll_seg _ _ Hl) (dll_head _ _ Hl)) as Hf.
    rewrite (dll_length _ _ Hl) in Hf. specialize (Hf ltac:(unfold list_fuel; plia)).
    destruct (find_lru _ _ _) as [i'|] eqn:Ev; [|exfalso; apply (Hf i); set_solver].
    destruct Hf as (l1' & l2' & E & Hr' & H2').
    assert (i = i') as <- by (by eapply find_lru_unique).
    destruct (bR_free _ _ HR i Hi Hr) as [Hlk _].
    pose proof (bget_miss s c i bno Hc (isbuf_inb _ Hi) Hlen Ef Ev Hlk) as Hg.
    apply bread_after_bget in Hg; [|auto with xv6|done]. cbn in Hg.
    eexists. split_and!; [exact Hg| | |].
    + apply (dll_upd s _ i _ Hl); auto with xv6.
    + by rewrite bufat_upd, decide_True by auto with xv6.
    + intros j Hj Hne. by rewrite bufat_upd, decide_False by auto with xv6.
Qed.

(** On the cache [binit] leaves, reading block 5 recycles buffer 0, the rearmost. *)
Lemma bcache_lru_witness :
  let s := binit (static_bcache ∅) in
  let c := Ctx [] [] 1 in
  dll s (reverse (upto NBUF)) /\
  exists s', bread ROOTDEV 5 c s = Ok 0 c s' /\ dll s' (reverse (upto NBUF)) /\
    b_data (bufat s' 0) = blk s 5 /\ forall j, isbuf j -> j <> 0 -> bufat s' j = bufat s j.
Proof.
  intros s c. destruct (binit_facts ∅) as (Hdll & _ & Hf).
  pose proof (proj1 (binit_spec ∅)) as HR. fold s in Hdll, Hf, HR. clearbody s.
  assert (forall i, b_dev (bufat s i) = 0 /\ b_refcnt (bufat s i) = 0) as Hz.
  { intros i. pose proof (Hf i) as E. unfold fields, info in E. cbn in E.
    split; congruence. }
  split; [exact Hdll|].
  change (reverse (upto NBUF)) with (rev (tail (upto NBUF)) ++ 0 :: []) in *.
  apply (bcache_lru s ∅ c (rev (tail (upto NBUF))) 0 []).
  - exact HR.
  - split; [|intros i]; apply not_elem_of_nil.
  - exact Hdll.
  - apply Hz.
  - intros j Hj. by apply elem_of_nil in Hj.
  - intros j _ E. by rewrite (proj1 (Hz j)) in E.
Defined.
