(* ===== verification/Virtio.v ===== *)
(** * The disk driver: kernel/virtio_disk.c

    The driver's own state and the memory it shares with the device (descriptor
    table, available ring, used ring) are one record; the buffers and the blocks on
    the disk are those of Bio.  A physical address that the driver gives to the device
    is a [daddr], which names the object it points to.

    [virtio_disk_rw] is cut where it sleeps: [virtio_disk_rw_try] runs from the start
    until it sleeps, for want of descriptors or until the request is served, and
    [virtio_disk_rw_resume] goes on after a wakeup. *)

From S2P Require Import Prelude KMonad Riscv Mem Kalloc Ring Sleeplock Bio.

(** ** virtio.h *)

Definition NUM := 8.
Definition VRING_DESC_F_NEXT := 1.
Definition VRING_DESC_F_WRITE := 2.
Definition VIRTIO_BLK_T_IN := 0.
Definition VIRTIO_BLK_T_OUT := 1.

Definition VIRTIO_MMIO_MAGIC_VALUE := 0.
Definition VIRTIO_MMIO_VERSION := 4.
Definition VIRTIO_MMIO_DEVICE_ID := 8.
Definition VIRTIO_MMIO_VENDOR_ID := 12.
Definition VIRTIO_MMIO_DEVICE_FEATURES := 16.
Definition VIRTIO_MMIO_DRIVER_FEATURES := 32.
Definition VIRTIO_MMIO_QUEUE_SEL := 48.
Definition VIRTIO_MMIO_QUEUE_NUM_MAX := 52.
Definition VIRTIO_MMIO_QUEUE_NUM := 56.
Definition VIRTIO_MMIO_QUEUE_READY := 68.
Definition VIRTIO_MMIO_QUEUE_NOTIFY := 80.
Definition VIRTIO_MMIO_INTERRUPT_STATUS := 96.
Definition VIRTIO_MMIO_INTERRUPT_ACK := 100.
Definition VIRTIO_MMIO_STATUS := 112.
Definition VIRTIO_MMIO_QUEUE_DESC_LOW := 128.
Definition VIRTIO_MMIO_QUEUE_DESC_HIGH := 132.
Definition VIRTIO_MMIO_DRIVER_DESC_LOW := 144.
Definition VIRTIO_MMIO_DRIVER_DESC_HIGH := 148.
Definition VIRTIO_MMIO_DEVICE_DESC_LOW := 160.
Definition VIRTIO_MMIO_DEVICE_DESC_HIGH := 164.

Definition VIRTIO_CONFIG_S_ACKNOWLEDGE := 1.
Definition VIRTIO_CONFIG_S_DRIVER := 2.
Definition VIRTIO_CONFIG_S_DRIVER_OK := 4.
Definition VIRTIO_CONFIG_S_FEATURES_OK := 8.

Definition VIRTIO_BLK_F_RO := 5.
Definition VIRTIO_BLK_F_SCSI := 7.
Definition VIRTIO_BLK_F_CONFIG_WCE := 11.
Definition VIRTIO_BLK_F_MQ := 12.
Definition VIRTIO_F_ANY_LAYOUT := 27.
Definition VIRTIO_RING_F_INDIRECT_DESC := 28.
Definition VIRTIO_RING_F_EVENT_IDX := 29.

(** What a descriptor points to: nothing, [disk.ops[i]], the data of buffer [b], or
    [disk.info[i].status]. *)
Inductive daddr := A_null | A_op (i : Z) | A_data (b : Z) | A_status (i : Z).

Record virtq_desc := Desc { d_addr : daddr; d_len : Z; d_flags : Z; d_next : Z }.
Record virtio_blk_req := Req { rq_type : Z; rq_reserved : Z; rq_sector : Z }.

Definition desc0 : virtq_desc := Desc A_null 0 0 0.
Definition req0 : virtio_blk_req := Req 0 0 0.

(** [struct disk], with the rings it points to. *)
Record disk := Disk {
  dk_desc : list virtq_desc;
  avail_idx : Z;
  avail_ring : list Z;
  used_ring_idx : Z;         (** [used->idx], written by the device *)
  used_ring : list Z;        (** the [id]s of [used->ring] *)
  dk_free : list bool;
  dk_used_idx : Z;           (** [disk.used_idx] *)
  dk_info_b : list Z;        (** [info[i].b], an index of [bcache.buf] or [NULL] *)
  dk_info_status : list Z;
  dk_ops : list virtio_blk_req
}.

Definition set_desc i x d := Disk (setZ (dk_desc d) i x) (avail_idx d) (avail_ring d) (used_ring_idx d) (used_ring d) (dk_free d) (dk_used_idx d) (dk_info_b d) (dk_info_status d) (dk_ops d).
Definition set_avail idx ring d := Disk (dk_desc d) idx ring (used_ring_idx d) (used_ring d) (dk_free d) (dk_used_idx d) (dk_info_b d) (dk_info_status d) (dk_ops d).
Definition set_used idx ring d := Disk (dk_desc d) (avail_idx d) (avail_ring d) idx ring (dk_free d) (dk_used_idx d) (dk_info_b d) (dk_info_status d) (dk_ops d).
Definition set_free i x d := Disk (dk_desc d) (avail_idx d) (avail_ring d) (used_ring_idx d) (used_ring d) (setZ (dk_free d) i x) (dk_used_idx d) (dk_info_b d) (dk_info_status d) (dk_ops d).
Definition set_used_idx x d := Disk (dk_desc d) (avail_idx d) (avail_ring d) (used_ring_idx d) (used_ring d) (dk_free d) x (dk_info_b d) (dk_info_status d) (dk_ops d).
Definition set_info_b i x d := Disk (dk_desc d) (avail_idx d) (avail_ring d) (used_ring_idx d) (used_ring d) (dk_free d) (dk_used_idx d) (setZ (dk_info_b d) i x) (dk_info_status d) (dk_ops d).
Definition set_info_status i x d := Disk (dk_desc d) (avail_idx d) (avail_ring d) (used_ring_idx d) (used_ring d) (dk_free d) (dk_used_idx d) (dk_info_b d) (setZ (dk_info_status d) i x) (dk_ops d).
Definition set_op i x d := Disk (dk_desc d) (avail_idx d) (avail_ring d) (used_ring_idx d) (used_ring d) (dk_free d) (dk_used_idx d) (dk_info_b d) (dk_info_status d) (setZ (dk_ops d) i x).

Definition descat (d : disk) (i : Z) : virtq_desc := nthZ desc0 (dk_desc d) i.
Definition opat (d : disk) (i : Z) : virtio_blk_req := nthZ req0 (dk_ops d) i.

(** The driver, the buffers and the blocks on the disk, and the device's registers as
    the driver has written them. *)
Record vst := Vst { v_disk : disk; v_bc : bcache; v_regs : list (Z * Z) }.

Definition on_disk (f : disk -> disk) (s : vst) : vst := Vst (f (v_disk s)) (v_bc s) (v_regs s).
Definition on_bc (f : bcache -> bcache) (s : vst) : vst := Vst (v_disk s) (f (v_bc s)) (v_regs s).
(** [*R(r) = v] *)
Definition wreg (r v : Z) : M vst unit := modify (fun s => Vst (v_disk s) (v_bc s) (v_regs s ++ [(r, u32 v)])).

Definition set_bdisk (x : bool) (b : buf) : buf :=
  Buf (b_valid b) x (b_dev b) (b_blockno b) (b_lock b) (b_refcnt b) (b_prev b) (b_next b) (b_data b).

(** ** Initialisation

    [rd w r] is what a read of register [r] returns after the register writes [w]. *)

Definition vdop {A} (m : M vst A) : M (mach * vst) A := zoom snd (fun x s => (fst s, x)) m.
Definition vmop {A} (m : M mach A) : M (mach * vst) A := zoom fst (fun x s => (x, snd s)) m.

Definition clear_bits (features : Z) (bits : list Z) : Z :=
  fold_left (fun f b => Z.land f (Z.lnot (Z.shiftl 1 b))) bits features.

(** [disk.desc], [disk.avail] and [disk.used] point to three fresh zeroed pages. *)
Definition zero_page (pa : Z) : M (mach * vst) unit := vmop (modify (set_ram (fun m => memset m pa 0 PGSIZE))).

Definition virtio_disk_init (rd : list (Z * Z) -> Z -> Z) : M (mach * vst) unit :=
  let reg r := vdop (gets (fun s => rd (v_regs s) r)) in
  magic <- reg VIRTIO_MMIO_MAGIC_VALUE ;;
  version <- reg VIRTIO_MMIO_VERSION ;;
  device <- reg VIRTIO_MMIO_DEVICE_ID ;;
  vendor <- reg VIRTIO_MMIO_VENDOR_ID ;;
  if negb (magic =? 0x74726976) || negb (version =? 2) || negb (device =? 2) || negb (vendor =? 0x554d4551) then
    panic "could not find virtio disk"
  else
    (* reset device *)
    vdop (wreg VIRTIO_MMIO_STATUS 0) ;;
    (* set ACKNOWLEDGE status bit *)
    let status := Z.lor 0 VIRTIO_CONFIG_S_ACKNOWLEDGE in
    vdop (wreg VIRTIO_MMIO_STATUS status) ;;
    (* set DRIVER status bit *)
    let status := Z.lor status VIRTIO_CONFIG_S_DRIVER in
    vdop (wreg VIRTIO_MMIO_STATUS status) ;;
    (* negotiate features *)
    features <- reg VIRTIO_MMIO_DEVICE_FEATURES ;;
    let features := clear_bits features
      [VIRTIO_BLK_F_RO; VIRTIO_BLK_F_SCSI; VIRTIO_BLK_F_CONFIG_WCE; VIRTIO_BLK_F_MQ;
       VIRTIO_F_ANY_LAYOUT; VIRTIO_RING_F_EVENT_IDX; VIRTIO_RING_F_INDIRECT_DESC] in
    vdop (wreg VIRTIO_MMIO_DRIVER_FEATURES features) ;;
    (* tell device that feature negotiation is complete. *)
    vdop (wreg VIRTIO_MMIO_STATUS (Z.lor status VIRTIO_CONFIG_S_FEATURES_OK)) ;;
    (* re-read status to ensure FEATURES_OK is set. *)
    status <- reg VIRTIO_MMIO_STATUS ;;
    if Z.land status VIRTIO_CONFIG_S_FEATURES_OK =? 0 then panic "virtio disk FEATURES_OK unset"
    else
      (* initialize queue 0. *)
      vdop (wreg VIRTIO_MMIO_QUEUE_SEL 0) ;;
      (* ensure queue 0 is not in use. *)
      ready <- reg VIRTIO_MMIO_QUEUE_READY ;;
      if negb (ready =? 0) then panic "virtio disk should not be ready"
      else
        (* check maximum queue size. *)
        max <- reg VIRTIO_MMIO_QUEUE_NUM_MAX ;;
        if max =? 0 then panic "virtio disk has no queue 0"
        else if max <? NUM then panic "virtio disk max queue too short"
        else
          (* allocate and zero queue memory. *)
          desc <- vmop kalloc ;;
          avail <- vmop kalloc ;;
          used <- vmop kalloc ;;
          if (desc =? 0) || (avail =? 0) || (used =? 0) then panic "virtio disk kalloc"
          else
            zero_page desc ;; zero_page avail ;; zero_page used ;;
            vdop (modify (on_disk (fun d =>
              Disk (replicate (Z.to_nat NUM) desc0) 0 (replicate (Z.to_nat NUM) 0) 0 (replicate (Z.to_nat NUM) 0)
                (dk_free d) (dk_used_idx d) (dk_info_b d) (dk_info_status d) (dk_ops d)))) ;;
            (* set queue size. *)
            vdop (wreg VIRTIO_MMIO_QUEUE_NUM NUM) ;;
            (* write physical addresses. *)
            vdop (wreg VIRTIO_MMIO_QUEUE_DESC_LOW desc) ;;
            vdop (wreg VIRTIO_MMIO_QUEUE_DESC_HIGH (Z.shiftr desc 32)) ;;
            vdop (wreg VIRTIO_MMIO_DRIVER_DESC_LOW avail) ;;
            vdop (wreg VIRTIO_MMIO_DRIVER_DESC_HIGH (Z.shiftr avail 32)) ;;
            vdop (wreg VIRTIO_MMIO_DEVICE_DESC_LOW used) ;;
            vdop (wreg VIRTIO_MMIO_DEVICE_DESC_HIGH (Z.shiftr used 32)) ;;
            (* queue is ready. *)
            vdop (wreg VIRTIO_MMIO_QUEUE_READY 1) ;;
            (* all NUM descriptors start out unused. *)
            mfor (upto NUM) (fun i => vdop (modify (on_disk (set_free i true)))) ;;
            (* tell device we're completely ready. *)
            vdop (wreg VIRTIO_MMIO_STATUS (Z.lor status VIRTIO_CONFIG_S_DRIVER_OK)).

(** ** Descriptors *)

(** The first free descriptor at or after [i]. *)
Fixpoint find_free (l : list bool) (i : Z) : Z :=
  match l with
  | [] => -1
  | f :: l' => if (f : bool) then i else find_free l' (i + 1)
  end.

(** find a free descriptor, mark it non-free, return its index. *)
Definition alloc_desc : M vst Z :=
  i <- gets (fun s => find_free (dk_free (v_disk s)) 0) ;;
  (when 0 <=? i do modify (on_disk (set_free i false))) ;;
  ret i.

(** mark a descriptor as free. *)
Definition free_desc (i : Z) : M vst unit :=
  if NUM <=? i then panic "free_desc 1"
  else
    f <- gets (fun s => nthZ false (dk_free (v_disk s)) i) ;;
    if (f : bool) then panic "free_desc 2"
    else
      modify (on_disk (set_desc i desc0)) ;;
      modify (on_disk (set_free i true)) ;;
      wakeup CH_disk_free.

(** free a chain of descriptors; a chain has at most [NUM]. *)
Fixpoint free_chain (fuel : nat) (i : Z) : M vst unit :=
  match fuel with
  | O => panic "free_chain: out of fuel"
  | S f =>
      d <- gets (fun s => descat (v_disk s) i) ;;
      free_desc i ;;
      if negb (Z.land (d_flags d) VRING_DESC_F_NEXT =? 0) then free_chain f (d_next d) else ret tt
  end.

(** allocate three descriptors (they need not be contiguous). *)
Definition alloc3_desc : M vst (option (Z * Z * Z)) :=
  i0 <- alloc_desc ;;
  if i0 <? 0 then ret None
  else
    i1 <- alloc_desc ;;
    if i1 <? 0 then free_desc i0 ;; ret None
    else
      i2 <- alloc_desc ;;
      if i2 <? 0 then free_desc i0 ;; free_desc i1 ;; ret None
      else ret (Some (i0, i1, i2)).

(** ** Requests *)

(** Format the three descriptors and give the chain to the device. *)
Definition submit (b : Z) (write : bool) (idx : Z * Z * Z) : M vst unit :=
  let '(i0, i1, i2) := idx in
  (* uint arithmetic, then widened *)
  sector <- gets (fun s => u32 (b_blockno (bufat (v_bc s) b) * (BSIZE / 512))) ;;
  modify (on_disk (set_op i0 (Req (if write then VIRTIO_BLK_T_OUT else VIRTIO_BLK_T_IN) 0 sector))) ;;
  modify (on_disk (set_desc i0 (Desc (A_op i0) 16 VRING_DESC_F_NEXT i1))) ;;
  modify (on_disk (set_desc i1 (Desc (A_data b) BSIZE
    (Z.lor (if write then 0 else VRING_DESC_F_WRITE) VRING_DESC_F_NEXT) i2))) ;;
  modify (on_disk (set_info_status i0 0xff)) ;; (* device writes 0 on success *)
  modify (on_disk (set_desc i2 (Desc (A_status i0) 1 VRING_DESC_F_WRITE 0))) ;;
  (* record struct buf for virtio_disk_intr(). *)
  modify (on_bc (upd_buf b (set_bdisk true))) ;;
  modify (on_disk (set_info_b i0 b)) ;;
  (* tell the device the first index in our chain of descriptors. *)
  modify (on_disk (fun d => set_avail (avail_idx d) (setZ (avail_ring d) (avail_idx d mod NUM) i0) d)) ;;
  (* tell the device another avail ring entry is available. *)
  modify (on_disk (fun d => set_avail (u16 (avail_idx d + 1)) (avail_ring d) d)) ;;
  wreg VIRTIO_MMIO_QUEUE_NOTIFY 0.

(** Where a thread in [virtio_disk_rw] is when it has given up the lock. *)
Inductive rwres := RwNoDesc | RwWait (i0 : Z) | RwDone.

(** [while(b->disk == 1) sleep(b, &disk.vdisk_lock);] and what follows. *)
Definition rw_wait (b i0 : Z) : M vst rwres :=
  busy <- gets (fun s => b_disk (bufat (v_bc s) b)) ;;
  if (busy : bool) then
    release LK_vdisk ;; (* sleep(b, &disk.vdisk_lock) *)
    ret (RwWait i0)
  else
    modify (on_disk (set_info_b i0 NULL)) ;;
    free_chain (Z.to_nat NUM) i0 ;;
    release LK_vdisk ;;
    ret RwDone.

Definition virtio_disk_rw_try (b : Z) (write : bool) : M vst rwres :=
  acquire LK_vdisk ;;
  r <- alloc3_desc ;;
  match r with
  | None =>
      release LK_vdisk ;; (* sleep(&disk.free[0], &disk.vdisk_lock) *)
      ret RwNoDesc
  | Some (i0, i1, i2) =>
      submit b write (i0, i1, i2) ;;
      rw_wait b i0
  end.

Definition virtio_disk_rw_resume (b i0 : Z) : M vst rwres :=
  acquire LK_vdisk ;;
  rw_wait b i0.

(** ** The interrupt handler *)

(** The used ring holds at most [NUM] new entries. *)
Fixpoint intr_loop (fuel : nat) : M vst unit :=
  d <- gets v_disk ;;
  if dk_used_idx d =? used_ring_idx d then ret tt
  else
    match fuel with
    | O => panic "virtio_disk_intr: out of fuel"
    | S f =>
        let id := nthZ 0 (used_ring d) (dk_used_idx d mod NUM) in
        if negb (nthZ 0 (dk_info_status d) id =? 0) then panic "virtio_disk_intr status"
        else
          let b := nthZ NULL (dk_info_b d) id in
          modify (on_bc (upd_buf b (set_bdisk false))) ;; (* disk is done with buf *)
          wakeup (CH_buf b) ;;
          modify (on_disk (set_used_idx (u16 (dk_used_idx d + 1)))) ;;
          intr_loop f
    end.

(** [rd] as in [virtio_disk_init]. *)
Definition virtio_disk_intr (rd : list (Z * Z) -> Z -> Z) : M vst unit :=
  acquire LK_vdisk ;;
  st <- gets (fun s => rd (v_regs s) VIRTIO_MMIO_INTERRUPT_STATUS) ;;
  wreg VIRTIO_MMIO_INTERRUPT_ACK (Z.land st 3) ;;
  intr_loop (Z.to_nat NUM) ;;
  release LK_vdisk.
