(* ===== verification/VirtioInv.v ===== *)
(** * Threads, the disk and its driver

    Any number of threads are inside [virtio_disk_rw], the device serves requests in
    its own time and in any order, and interrupts arrive at any moment.  The critical
    sections of the driver are atomic steps, since [vdisk_lock] is held throughout.

    The device is not part of the sources: it is a relation [dev_step], about which the
    only assumption is that it does what the virtio specification says ([dev_ok]).  It
    may finish a request with an error, for which the driver's handler panics. *)

From S2P Require Import Prelude KMonad Riscv Mem Kalloc Sleeplock Bio Ring Virtio.

(** ** The device *)

(** How far the device has read the available ring, and the chains it is serving. *)
Record dev := Dev { dv_taken : Z; dv_pending : list Z }.

(** The status byte that ends a request. *)
Definition VIRTIO_BLK_S_OK := 0.
Definition VIRTIO_BLK_S_IOERR := 1.
Definition VIRTIO_BLK_S_UNSUPP := 2.

Definition flag (x : virtq_desc) (f : Z) : bool := negb (Z.land (d_flags x) f =? 0).

(** The request that the chain starting at descriptor [h] makes, with its buffer and its
    status byte, if it is laid out as section 5.2 of the virtio specification asks: a
    header of 16 bytes that the device reads, the data of one block (two sectors), which
    the device writes if the request reads the disk and reads if it writes it, and one
    byte that the device writes. *)
Definition blk_request (d : disk) (h : Z) : option (virtio_blk_req * Z * Z) :=
  let d0 := descat d h in
  let d1 := descat d (d_next d0) in
  let d2 := descat d (d_next d1) in
  match d_addr d0, d_addr d1, d_addr d2 with
  | A_op i, A_data b, A_status j =>
      let r := opat d i in
      if flag d0 VRING_DESC_F_NEXT && negb (flag d0 VRING_DESC_F_WRITE) && (d_len d0 =? 16) &&
         flag d1 VRING_DESC_F_NEXT && (d_len d1 =? BSIZE) &&
         (if flag d1 VRING_DESC_F_WRITE then rq_type r =? VIRTIO_BLK_T_IN else rq_type r =? VIRTIO_BLK_T_OUT) &&
         negb (flag d2 VRING_DESC_F_NEXT) && flag d2 VRING_DESC_F_WRITE && (d_len d2 =? 1) &&
         (rq_sector r mod 2 =? 0)
      then Some (r, b, j)
      else None
  | _, _, _ => None
  end.

(** The effect of serving a chain.  With status OK the data has been moved; with another
    status the block that was to be written, or the buffer that was to be filled, may
    hold anything ([x]).  Nothing is promised for chains laid out otherwise. *)
Definition served (h : Z) (s s' : vst) : Prop :=
  let d := v_disk s in
  match blk_request d h with
  | Some (r, b, j) =>
      let bno := rq_sector r / 2 in
      exists st x, st ∈ [VIRTIO_BLK_S_OK; VIRTIO_BLK_S_IOERR; VIRTIO_BLK_S_UNSUPP] /\
        (st = VIRTIO_BLK_S_OK -> x = if rq_type r =? VIRTIO_BLK_T_OUT then b_data (bufat (v_bc s) b) else blk (v_bc s) bno) /\
        s' = Vst
          (set_used (u16 (used_ring_idx d + 1)) (setZ (used_ring d) (used_ring_idx d mod NUM) h)
             (set_info_status j st d))
          (if rq_type r =? VIRTIO_BLK_T_OUT then
             Bcache (bufs (v_bc s)) (<[bno := x]> (platter (v_bc s))) (writes (v_bc s) ++ [(bno, x)])
           else upd_buf b (set_data x) (v_bc s))
          (v_regs s)
  | None => True
  end.

(** What the device may do: read an entry of the available ring, or finish a chain. *)
Inductive dev_allowed : vst * dev -> vst * dev -> Prop :=
| dev_take s v :
    dv_taken v <> avail_idx (v_disk s) ->
    dev_allowed (s, v)
      (s, Dev (u16 (dv_taken v + 1)) (dv_pending v ++ [nthZ 0 (avail_ring (v_disk s)) (dv_taken v mod NUM)]))
| dev_finish s v h l1 l2 s' :
    dv_pending v = l1 ++ h :: l2 -> served h s s' ->
    dev_allowed (s, v) (s', Dev (dv_taken v) (l1 ++ l2)).

(** ** Threads in [virtio_disk_rw]

    A call and its progress: [r_head] is [idx[0]] once the descriptors are allocated, and
    [r_old] what it moves: the buffer's data, or the block, when it was called. *)
Record rq := Rq { r_b : Z; r_write : bool; r_old : block; r_head : option Z }.
Definition set_head (i0 : Z) (r : rq) : rq := Rq (r_b r) (r_write r) (r_old r) (Some i0).

(** [t_sleep] is the channel the thread sleeps on. *)
Record thread := Th { t_rq : rq; t_sleep : option chan }.

Record vm := Vm { m_st : vst; m_dev : dev; m_th : gmap Z thread }.

Definition wake (ws : list chan) (th : thread) : thread :=
  Th (t_rq th) (match t_sleep th with Some ch => if decide (ch ∈ ws) then None else Some ch | None => None end).

(** The thread after a part of [virtio_disk_rw]. *)
Definition settle (x : rwres) (r : rq) : option thread :=
  match x with
  | RwNoDesc => Some (Th r (Some CH_disk_free))
  | RwWait i0 => Some (Th (set_head i0 r) (Some (CH_buf (r_b r))))
  | RwDone => None
  end.

Definition vctx : ctx := Ctx [] [] 0.

Definition blockno_of (s : vst) (b : Z) : Z := b_blockno (bufat (v_bc s) b).
Definition data_of (s : vst) (b : Z) : block := b_data (bufat (v_bc s) b).
Definition busy_of (s : vst) (b : Z) : bool := b_disk (bufat (v_bc s) b).

(** A call of [virtio_disk_rw(b, write)]. *)
Definition called (s : vst) (b : Z) (write : bool) : rq :=
  Rq b write (if write then data_of s b else blk (v_bc s) (blockno_of s b)) None.

Section machine.
Variable rd : list (Z * Z) -> Z -> Z.
Variable dev_step : vst * dev -> vst * dev -> Prop.
Hypothesis dev_ok : forall x y, dev_step x y -> dev_allowed x y.

Inductive vstep : vm -> vm -> Prop :=
(** a thread calls [virtio_disk_rw]; its buffer is locked, and a block has one buffer *)
| vs_call m t b write :
    m_th m !! t = None -> 0 <= b < NBUF -> 0 <= blockno_of (m_st m) b < 2 ^ 31 ->
    (forall t' th, m_th m !! t' = Some th ->
       r_b (t_rq th) <> b /\ blockno_of (m_st m) (r_b (t_rq th)) <> blockno_of (m_st m) b) ->
    vstep m (Vm (m_st m) (m_dev m) (<[t := Th (called (m_st m) b write) None]> (m_th m)))
(** the rest of the kernel works on other buffers *)
| vs_other m bc' :
    length (bufs bc') = length (bufs (v_bc (m_st m))) -> platter bc' = platter (v_bc (m_st m)) ->
    (forall t th, m_th m !! t = Some th -> bufat bc' (r_b (t_rq th)) = bufat (v_bc (m_st m)) (r_b (t_rq th))) ->
    vstep m (Vm (Vst (v_disk (m_st m)) bc' (v_regs (m_st m))) (m_dev m) (m_th m))
(** a thread that has no descriptors tries (again) to allocate them *)
| vs_try m t r x c' s' :
    m_th m !! t = Some (Th r None) -> r_head r = None ->
    virtio_disk_rw_try (r_b r) (r_write r) vctx (m_st m) = Ok x c' s' ->
    vstep m (Vm s' (m_dev m) (partial_alter (fun _ => settle x r) t (wake (wakes c') <$> m_th m)))
(** a thread that has given its request to the device runs again *)
| vs_resume m t r h x c' s' :
    m_th m !! t = Some (Th r None) -> r_head r = Some h ->
    virtio_disk_rw_resume (r_b r) h vctx (m_st m) = Ok x c' s' ->
    vstep m (Vm s' (m_dev m) (partial_alter (fun _ => settle x r) t (wake (wakes c') <$> m_th m)))
(** [kill] makes a sleeping thread runnable *)
| vs_kill m t th :
    m_th m !! t = Some th -> vstep m (Vm (m_st m) (m_dev m) (<[t := Th (t_rq th) None]> (m_th m)))
| vs_intr m u c' s' :
    virtio_disk_intr rd vctx (m_st m) = Ok u c' s' ->
    vstep m (Vm s' (m_dev m) (wake (wakes c') <$> m_th m))
| vs_dev m s' v' :
    dev_step (m_st m, m_dev m) (s', v') -> vstep m (Vm s' v' (m_th m)).

(** The state after [virtio_disk_init]. *)
Definition vstart (m : vm) : Prop :=
  exists mach0 s0 c' mach1,
    virtio_disk_init rd vctx (mach0, s0) = Ok tt c' (mach1, m_st m) /\
    length (dk_free (v_disk s0)) = Z.to_nat NUM /\ length (dk_info_b (v_disk s0)) = Z.to_nat NUM /\
    length (dk_info_status (v_disk s0)) = Z.to_nat NUM /\ length (dk_ops (v_disk s0)) = Z.to_nat NUM /\
    dk_used_idx (v_disk s0) = 0 /\ length (bufs (v_bc s0)) = Z.to_nat (NBUF + 1) /\
    m_dev m = Dev 0 [] /\ m_th m = ∅.

Definition vreach (m : vm) : Prop := exists m0, vstart m0 /\ rtc vstep m0 m.
End machine.

(** ** The invariant *)

(** The entries of a ring between two 16-bit indices. *)
Definition queue (ring : list Z) (a b : Z) : list Z := seg NUM ring a (u16 (b - a)).

Definition availq (d : disk) (v : dev) : list Z := queue (avail_ring d) (dv_taken v) (avail_idx d).
Definition usedq (d : disk) : list Z := queue (used_ring d) (dk_used_idx d) (used_ring_idx d).
(** The chains the device has not finished, or whose interrupt is still to come. *)
Definition inflight (d : disk) (v : dev) : list Z := availq d v ++ dv_pending v ++ usedq d.

Definition chain (d : disk) (h : Z) : list Z :=
  [h; d_next (descat d h); d_next (descat d (d_next (descat d h)))].

Fixpoint count (l : list bool) : nat :=
  match l with
  | [] => 0
  | f :: l' => (if (f : bool) then 1 else 0) + count l'
  end.
Definition nfree (d : disk) : nat := count (dk_free d).

Definition flagsof (write : bool) : Z := Z.lor (if write then 0 else VRING_DESC_F_WRITE) VRING_DESC_F_NEXT.

(** The request, laid out in the descriptor table. *)
Definition request (s : vst) (r : rq) (h : Z) : Prop :=
  let d := v_disk s in
  exists i1 i2,
    0 <= h < NUM /\ 0 <= i1 < NUM /\ 0 <= i2 < NUM /\ NoDup [h; i1; i2] /\
    descat d h = Desc (A_op h) 16 VRING_DESC_F_NEXT i1 /\
    descat d i1 = Desc (A_data (r_b r)) BSIZE (flagsof (r_write r)) i2 /\
    descat d i2 = Desc (A_status h) 1 VRING_DESC_F_WRITE 0 /\
    opat d h = Req (if r_write r then VIRTIO_BLK_T_OUT else VIRTIO_BLK_T_IN) 0 (2 * blockno_of s (r_b r)) /\
    nthZ NULL (dk_info_b d) h = r_b r.

(** The transfer has taken place. *)
Definition moved (s : vst) (r : rq) : Prop :=
  if r_write r then blk (v_bc s) (blockno_of s (r_b r)) = r_old r else data_of s (r_b r) = r_old r.

Record disk_wf (d : disk) (v : dev) : Prop := {
  dw_desc : length (dk_desc d) = Z.to_nat NUM;
  dw_avail : length (avail_ring d) = Z.to_nat NUM;
  dw_used : length (used_ring d) = Z.to_nat NUM;
  dw_free : length (dk_free d) = Z.to_nat NUM;
  dw_info : length (dk_info_b d) = Z.to_nat NUM;
  dw_status : length (dk_info_status d) = Z.to_nat NUM;
  dw_ops : length (dk_ops d) = Z.to_nat NUM;
  dw_idx : 0 <= avail_idx d < 2 ^ 16 /\ 0 <= dv_taken v < 2 ^ 16 /\
           0 <= used_ring_idx d < 2 ^ 16 /\ 0 <= dk_used_idx d < 2 ^ 16
}.

(** The device has announced that it has finished the chain, without an error. *)
Definition status_ok (d : disk) (h : Z) : Prop := nthZ 0 (dk_info_status d) h = VIRTIO_BLK_S_OK.
Definition done_ok (d : disk) (h : Z) : Prop := h ∈ usedq d /\ status_ok d h.

(** Invariants of one call. *)
Record rq_ok (s : vst) (v : dev) (r : rq) : Prop := {
  ro_b : 0 <= r_b r < NBUF;
  ro_bno : 0 <= blockno_of s (r_b r) < 2 ^ 31;
  ro_req h : r_head r = Some h -> request s r h /\
    (h ∈ inflight (v_disk s) v <-> busy_of s (r_b r) = true) /\
    (done_ok (v_disk s) h \/ busy_of s (r_b r) = false -> moved s r);
  (** what it moves stays as it was *)
  ro_src : if r_write r then data_of s (r_b r) = r_old r
           else blk (v_bc s) (blockno_of s (r_b r)) = r_old r
}.

Record rinv (s : vst) (v : dev) (R : gmap Z rq) : Prop := {
  vi_wf : disk_wf (v_disk s) v;
  vi_bufs : length (bufs (v_bc s)) = Z.to_nat (NBUF + 1);
  vi_rq t r : R !! t = Some r -> rq_ok s v r;
  vi_excl t1 t2 r1 r2 : R !! t1 = Some r1 -> R !! t2 = Some r2 -> t1 <> t2 ->
    r_b r1 <> r_b r2 /\ blockno_of s (r_b r1) <> blockno_of s (r_b r2);
  (** every descriptor is free or in the chain of one call *)
  vi_disj t1 t2 r1 r2 h1 h2 : R !! t1 = Some r1 -> R !! t2 = Some r2 -> t1 <> t2 ->
    r_head r1 = Some h1 -> r_head r2 = Some h2 -> chain (v_disk s) h1 ## chain (v_disk s) h2;
  vi_free i : 0 <= i < NUM -> nthZ false (dk_free (v_disk s)) i = false <->
    exists t r h, R !! t = Some r /\ r_head r = Some h /\ i ∈ chain (v_disk s) h;
  (** each chain in flight is there once, and some call waits for it *)
  vi_nodup : NoDup (inflight (v_disk s) v);
  vi_owner h : h ∈ inflight (v_disk s) v -> exists t r, R !! t = Some r /\ r_head r = Some h
}.

(** A thread sleeps only if there is a reason to. *)
Definition sleep_ok (s : vst) (th : thread) : Prop :=
  match t_sleep th with
  | None => True
  | Some ch =>
      (ch = CH_disk_free /\ r_head (t_rq th) = None /\ (nfree (v_disk s) < 3)%nat) \/
      (ch = CH_buf (r_b (t_rq th)) /\ is_Some (r_head (t_rq th)) /\ busy_of s (r_b (t_rq th)) = true)
  end.

Record vinv (m : vm) : Prop := {
  vi_rinv : rinv (m_st m) (m_dev m) (t_rq <$> m_th m);
  vi_sleep t th : m_th m !! t = Some th -> sleep_ok (m_st m) th
}.

(** ** Rings *)

Ltac idx_lia := unfold u16, NUM in *; change (2 ^ 16) with 65536 in *; Z.div_mod_to_equations; lia.

Lemma length_queue ring a b : Z.of_nat (length (queue ring a b)) = u16 (b - a).
Proof. unfold queue. rewrite length_seg. pose proof (u16_range (b - a)). lia. Qed.

Lemma queue_push ring a b x :
  length ring = Z.to_nat NUM -> 0 <= a < 2 ^ 16 -> 0 <= b < 2 ^ 16 ->
  (length (queue ring a b) < Z.to_nat NUM)%nat ->
  queue (setZ ring (b mod NUM) x) a (u16 (b + 1)) = queue ring a b ++ [x].
Proof.
  intros Hl Ha Hb Hn. pose proof (length_queue ring a b) as El. unfold queue.
  replace (u16 (u16 (b + 1) - a)) with (u16 (b - a) + 1) by idx_lia.
  replace (b mod NUM) with ((a + u16 (b - a)) mod NUM) by idx_lia.
  apply seg_push; [done|done|]. rewrite <- El. unfold NUM in *. lia.
Qed.

Lemma queue_pop ring a b :
  0 <= a < 2 ^ 16 -> 0 <= b < 2 ^ 16 -> a <> b ->
  queue ring a b = nthZ 0 ring (a mod NUM) :: queue ring (u16 (a + 1)) b.
Proof.
  intros Ha Hb Hne. unfold queue. rewrite seg_cons by (done || idx_lia). f_equal.
  replace (u16 (b - u16 (a + 1))) with (u16 (b - a) - 1) by idx_lia.
  apply seg_congr; [done|idx_lia].
Qed.

Lemma used_queue_empty ring a b : 0 <= a < 2 ^ 16 -> 0 <= b < 2 ^ 16 -> queue ring a b = [] <-> a = b.
Proof.
  intros Ha Hb. rewrite <- length_zero_iff_nil. pose proof (length_queue ring a b).
  rewrite <- Nat2Z.inj_iff. idx_lia.
Qed.

(** At most [NUM] distinct descriptors. *)
Lemma NoDup_descs (l : list Z) : NoDup l -> (forall i, i ∈ l -> 0 <= i < NUM) -> (length l <= Z.to_nat NUM)%nat.
Proof.
  intros Hn Hr. rewrite <- (length_upto NUM). apply submseteq_length, NoDup_submseteq; [done|].
  intros i Hi. by apply elem_of_upto, Hr.
Qed.

(** ** Descriptors *)

Lemma find_free_spec l i :
  find_free l i = -1 /\ Forall (fun f => f = false) l \/
  exists j, find_free l i = i + j /\ 0 <= j < Z.of_nat (length l) /\ nthZ false l j = true.
Proof.
  revert i. induction l as [|[] l IH]; intros i; cbn [find_free length].
  - by left.
  - right. exists 0. split_and!; [lia|lia|lia|done].
  - destruct (IH (i + 1)) as [[E HF]|(j & E & Hj & Hn)].
    + left. split; [done|by constructor].
    + right. exists (j + 1). rewrite E. split_and!; [lia|lia|lia|].
      unfold nthZ in *. by replace (Z.to_nat (j + 1)) with (S (Z.to_nat j)) by lia.
Qed.

Lemma nfree_0 d : Forall (fun f => f = false) (dk_free d) -> nfree d = 0%nat.
Proof. unfold nfree. by induction 1 as [|? ? ->]. Qed.

Lemma count_set l n (x : bool) :
  (n < length l)%nat -> nth n l false = negb x -> (count (<[n := x]> l) + (if x then 0 else 1) = count l + (if x then 1 else 0))%nat.
Proof.
  revert n. induction l as [|f l IH]; intros [|n] Hn Hx; cbn in Hn, Hx; try lia.
  - subst f. destruct x; cbn; lia.
  - specialize (IH n ltac:(lia) Hx). change (<[S n := x]> (f :: l)) with (f :: <[n := x]> l).
    cbn [count]. destruct f, x; lia.
Qed.

Lemma count_clear l i : (count (setZ l i false) <= count l)%nat.
Proof.
  unfold setZ. generalize (Z.to_nat i). induction l as [|f l IH]; intros [|n]; [done|done|cbn; lia|].
  change (<[S n := false]> (f :: l)) with (f :: <[n := false]> l). cbn [count]. specialize (IH n). lia.
Qed.

Lemma nfree_set d i x :
  0 <= i < Z.of_nat (length (dk_free d)) -> nthZ false (dk_free d) i = negb x ->
  (nfree (set_free i x d) + (if x then 0 else 1) = nfree d + (if x then 1 else 0))%nat.
Proof. intros Hi. apply count_set. lia. Qed.

Lemma nthZ_ext {A} (d : A) l1 l2 :
  length l1 = length l2 -> (forall i, 0 <= i < Z.of_nat (length l1) -> nthZ d l1 i = nthZ d l2 i) -> l1 = l2.
Proof.
  intros Hl He. apply list_eq. intros i. destruct (decide (i < length l1)%nat) as [Hi|Hi].
  - specialize (He (Z.of_nat i) ltac:(lia)).
    rewrite <- (Nat2Z.id i), !(lookup_nthZ d) by lia. by f_equal.
  - rewrite !lookup_ge_None_2; [done|lia|lia].
Qed.

(** The descriptors that are not free have kept their contents; nothing else changed. *)
Definition idle_desc (s s' : vst) : Prop :=
  exists ds, v_disk s' = Disk ds (avail_idx (v_disk s)) (avail_ring (v_disk s)) (used_ring_idx (v_disk s))
      (used_ring (v_disk s)) (dk_free (v_disk s)) (dk_used_idx (v_disk s)) (dk_info_b (v_disk s))
      (dk_info_status (v_disk s)) (dk_ops (v_disk s)) /\
    length ds = length (dk_desc (v_disk s)) /\ v_bc s' = v_bc s /\ v_regs s' = v_regs s /\
    forall i, 0 <= i < NUM -> nthZ false (dk_free (v_disk s)) i = false -> nthZ desc0 ds i = descat (v_disk s) i.

Section descriptors.
Implicit Types (s : vst) (c : ctx).

Lemma wp_alloc_desc c s (Q : Z -> ctx -> vst -> Prop) :
  length (dk_free (v_disk s)) = Z.to_nat NUM ->
  (nfree (v_disk s) = 0%nat -> Q (-1) c s) ->
  (forall i, 0 <= i < NUM -> nthZ false (dk_free (v_disk s)) i = true -> Q i c (on_disk (set_free i false) s)) ->
  wp alloc_desc c s Q.
Proof.
  intros Hl H0 H1. apply wp_bind, wp_gets.
  destruct (find_free_spec (dk_free (v_disk s)) 0) as [[-> HF]|(j & -> & Hj & Hn)].
  - apply wp_bind, wp_ret, wp_ret. by apply H0, nfree_0.
  - rewrite Z.add_0_l. rewrite (proj2 (Z.leb_le 0 j)) by lia. apply wp_bind, wp_modify, wp_ret, H1; [|done].
    rewrite Hl in Hj. unfold NUM in *. lia.
Qed.

Lemma wp_free_desc i c s (Q : unit -> ctx -> vst -> Prop) :
  0 <= i < NUM -> nthZ false (dk_free (v_disk s)) i = false ->
  Q tt (Ctx (held c) (CH_disk_free :: wakes c) (mypid c)) (on_disk (set_free i true) (on_disk (set_desc i desc0) s)) ->
  wp (free_desc i) c s Q.
Proof.
  intros Hi Hf HQ. unfold free_desc. rewrite (proj2 (Z.leb_gt NUM i)) by lia.
  apply wp_bind, wp_gets. rewrite Hf. by apply wp_bind, wp_modify, wp_bind, wp_modify, wp_wakeup.
Qed.

(** The free flags after three allocations, or after giving back. *)
Lemma free_set d i x j :
  length (dk_free d) = Z.to_nat NUM -> 0 <= i < NUM -> 0 <= j ->
  nthZ false (dk_free (set_free i x d)) j = if decide (i = j) then x else nthZ false (dk_free d) j.
Proof. intros Hl Hi Hj. cbn [set_free dk_free]. apply nthZ_setZ; [|done]. rewrite Hl. unfold NUM in *. lia. Qed.

(** Descriptors allocated and given back. *)
Lemma idle_desc_intro s ds fr :
  let d := v_disk s in
  length fr = length (dk_free d) -> length ds = length (dk_desc d) ->
  (forall i, 0 <= i < Z.of_nat (length fr) -> nthZ false fr i = nthZ false (dk_free d) i) ->
  (forall i, 0 <= i < NUM -> nthZ false (dk_free d) i = false -> nthZ desc0 ds i = descat d i) ->
  idle_desc s (Vst (Disk ds (avail_idx d) (avail_ring d) (used_ring_idx d) (used_ring d) fr (dk_used_idx d)
    (dk_info_b d) (dk_info_status d) (dk_ops d)) (v_bc s) (v_regs s)).
Proof.
  intros d Hl Hd Hfr Hds. exists ds. split_and!; try done. cbn. f_equal. by apply (nthZ_ext false).
Qed.

Lemma wp_alloc3_desc c s (Q : option (Z * Z * Z) -> ctx -> vst -> Prop) :
  length (dk_free (v_disk s)) = Z.to_nat NUM -> length (dk_desc (v_disk s)) = Z.to_nat NUM ->
  (forall i0 i1 i2, Forall (fun i => 0 <= i < NUM /\ nthZ false (dk_free (v_disk s)) i = true) [i0; i1; i2] ->
     NoDup [i0; i1; i2] ->
     Q (Some (i0, i1, i2)) c (on_disk (fun d => set_free i2 false (set_free i1 false (set_free i0 false d))) s)) ->
  (forall c' s', (nfree (v_disk s) < 3)%nat -> held c' = held c -> mypid c' = mypid c -> idle_desc s s' -> Q None c' s') ->
  wp alloc3_desc c s Q.
Proof.
  intros Hf Hd HS HN.
  assert (Hlen : Z.of_nat (length (dk_free (v_disk s))) = NUM) by (by rewrite Hf).
  apply wp_bind, wp_alloc_desc; [done| |].
  { intros H0. apply wp_ret, HN; [lia|done|done|]. exists (dk_desc (v_disk s)). by destruct s as [[]]. }
  intros i0 Hi0 Hf0. rewrite (proj2 (Z.ltb_ge i0 0)) by lia.
  set (s1 := on_disk (set_free i0 false) s).
  assert (Hl1 : length (dk_free (v_disk s1)) = Z.to_nat NUM) by (cbn; by rewrite length_setZ).
  assert (N1 := nfree_set (v_disk s) i0 false ltac:(lia) Hf0).
  assert (G1 : forall j, 0 <= j -> nthZ false (dk_free (v_disk s1)) j = if decide (i0 = j) then false else nthZ false (dk_free (v_disk s)) j)
    by (intros; by apply free_set).
  apply wp_bind, wp_alloc_desc; [done| |].
  { intros H0. apply wp_bind, wp_free_desc; [done| |].
    - rewrite G1, decide_True by (done || lia). done.
    - apply wp_ret, HN; [unfold s1 in *; cbn in *; lia|done|done|].
      apply (idle_desc_intro s (setZ (dk_desc (v_disk s)) i0 desc0) (setZ (setZ (dk_free (v_disk s)) i0 false) i0 true));
        [by rewrite !length_setZ|by rewrite length_setZ| |].
      + intros j Hj. rewrite !length_setZ in Hj. rewrite !nthZ_setZ by (rewrite ?length_setZ; lia).
        repeat case_decide; congruence.
      + intros j Hj Hfj. apply nthZ_setZ_ne; [lia|lia|congruence]. }
  intros i1 Hi1 Hf1. rewrite (proj2 (Z.ltb_ge i1 0)) by lia.
  rewrite G1 in Hf1 by lia. destruct (decide (i0 = i1)) as [|N01]; [done|].
  set (s2 := on_disk (set_free i1 false) s1).
  assert (N2 := nfree_set (v_disk s1) i1 false ltac:(lia) ltac:(rewrite G1, decide_False by (done || lia); done)).
  assert (G2 : forall j, 0 <= j -> nthZ false (dk_free (v_disk s2)) j = if decide (i1 = j) then false else nthZ false (dk_free (v_disk s1)) j)
    by (intros; by apply free_set).
  apply wp_bind, wp_alloc_desc; [cbn; by rewrite !length_setZ| |].
  { intros H0. apply wp_bind, wp_free_desc; [done| |].
    { rewrite G2, G1 by lia. repeat case_decide; done. }
    apply wp_bind, wp_free_desc; [done| |].
    { cbn. rewrite !nthZ_setZ by (rewrite ?length_setZ; lia). repeat case_decide; congruence. }
    apply wp_ret, HN; [unfold s1, s2 in *; cbn in *; lia|done|done|].
    apply (idle_desc_intro s (setZ (setZ (dk_desc (v_disk s)) i0 desc0) i1 desc0)
        (setZ (setZ (setZ (setZ (dk_free (v_disk s)) i0 false) i1 false) i0 true) i1 true));
      [by rewrite !length_setZ|by rewrite !length_setZ| |].
    - intros j Hj. rewrite !length_setZ in Hj. rewrite !nthZ_setZ by (rewrite ?length_setZ; lia).
      repeat case_decide; congruence.
    - intros j Hj Hfj. rewrite !nthZ_setZ_ne; [done|lia|lia|congruence|lia|lia|congruence]. }
  intros i2 Hi2 Hf2. rewrite (proj2 (Z.ltb_ge i2 0)) by lia. rewrite G2, G1 in Hf2 by lia.
  destruct (decide (i1 = i2)) as [|N12]; [done|]. destruct (decide (i0 = i2)) as [|N02]; [done|].
  apply wp_ret, HS; [by rewrite !Forall_cons, Forall_nil|].
  clear -N01 N02 N12. rewrite !NoDup_cons, NoDup_nil. set_solver.
Qed.
End descriptors.

(** ** Preservation *)

Section preservation.
Implicit Types (s : vst) (v : dev) (R : gmap Z rq) (r : rq).

Lemma request_chain s r h : request s r h ->
  exists i1 i2, chain (v_disk s) h = [h; i1; i2] /\ NoDup [h; i1; i2] /\
    0 <= h < NUM /\ 0 <= i1 < NUM /\ 0 <= i2 < NUM.
Proof.
  intros (i1 & i2 & ? & ? & ? & ? & E0 & E1 & _). exists i1, i2. unfold chain.
  rewrite E0. cbn. by rewrite E1.
Qed.

Lemma request_range s r h i : request s r h -> i ∈ chain (v_disk s) h -> 0 <= i < NUM.
Proof.
  intros (i1 & i2 & -> & _ & ? & ? & ?)%request_chain. rewrite !elem_of_cons, elem_of_nil.
  naive_solver.
Qed.

Lemma head_in_chain d h : h ∈ chain d h.
Proof. by left. Qed.

(** A request depends on its own descriptors only. *)
Lemma request_ext s s' r h :
  (forall i, i ∈ chain (v_disk s) h -> descat (v_disk s') i = descat (v_disk s) i) ->
  opat (v_disk s') h = opat (v_disk s) h ->
  nthZ NULL (dk_info_b (v_disk s')) h = nthZ NULL (dk_info_b (v_disk s)) h ->
  blockno_of s' (r_b r) = blockno_of s (r_b r) ->
  request s r h -> request s' r h /\ chain (v_disk s') h = chain (v_disk s) h.
Proof.
  intros Hd Ho Hi Hb Hr. destruct (request_chain _ _ _ Hr) as (i1 & i2 & Ec & _).
  destruct Hr as (j1 & j2 & ? & ? & ? & ? & E0 & E1 & E2 & Eo & Ei).
  assert (chain (v_disk s) h = [h; j1; j2]) as Ec' by (unfold chain; rewrite E0; cbn; by rewrite E1).
  rewrite Ec' in Hd. assert (F0 := Hd h ltac:(set_solver)). assert (F1 := Hd j1 ltac:(set_solver)).
  assert (F2 := Hd j2 ltac:(set_solver)). split.
  - exists j1, j2. rewrite F0, F1, F2, Ho, Hi, Hb. done.
  - rewrite Ec'. unfold chain. rewrite F0, E0. cbn. by rewrite F1, E1.
Qed.

Lemma rq_range s v R t r h i : rinv s v R -> R !! t = Some r -> r_head r = Some h ->
  i ∈ chain (v_disk s) h -> 0 <= i < NUM.
Proof. intros HI Ht Hh. apply (request_range s r), (ro_req _ _ _ (vi_rq _ _ _ HI t r Ht) h Hh). Qed.

Lemma inflight_range s v R h : rinv s v R -> h ∈ inflight (v_disk s) v -> 0 <= h < NUM.
Proof.
  intros HI Hh. destruct (vi_owner _ _ _ HI h Hh) as (t & r & Ht & Hr).
  eapply rq_range; [done..|]. apply head_in_chain.
Qed.

Lemma usedq_inflight d v h : h ∈ usedq d -> h ∈ inflight d v.
Proof. intros Hh. unfold inflight. rewrite !elem_of_app. auto. Qed.

(** The call that owns a chain. *)
Lemma owner_unique s v R t1 t2 r1 r2 h : rinv s v R ->
  R !! t1 = Some r1 -> R !! t2 = Some r2 -> r_head r1 = Some h -> r_head r2 = Some h -> t1 = t2.
Proof.
  intros HI H1 H2 E1 E2. destruct (decide (t1 = t2)) as [|Hne]; [done|].
  pose proof (vi_disj _ _ _ HI _ _ _ _ _ _ H1 H2 Hne E1 E2) as Hd.
  exfalso. apply (Hd h); apply head_in_chain.
Qed.

Lemma rinv_call s v R t b write :
  rinv s v R -> R !! t = None -> 0 <= b < NBUF -> 0 <= blockno_of s b < 2 ^ 31 ->
  (forall t' r, R !! t' = Some r -> r_b r <> b /\ blockno_of s (r_b r) <> blockno_of s b) ->
  rinv s v (<[t := called s b write]> R).
Proof.
  intros [Hwf Hb Hrq Hex Hdj Hfr Hnd How] Ht Hbr Hbn Hx. split; try done.
  - intros t' r [[-> <-]|[Hne Hr]]%lookup_insert_Some; [|by apply (Hrq t')].
    split; [done|done|done|]. cbn. by destruct write.
  - intros t1 t2 r1 r2 [[-> <-]|[? H1]]%lookup_insert_Some [[-> <-]|[? H2]]%lookup_insert_Some Hne; try done.
    + destruct (Hx t2 r2 H2). cbn. split; congruence.
    + by apply (Hx t1).
    + by apply (Hex t1 t2).
  - intros t1 t2 r1 r2 h1 h2 [[-> <-]|[? H1]]%lookup_insert_Some [[-> <-]|[? H2]]%lookup_insert_Some; try done.
    by apply Hdj.
  - intros i Hi. rewrite (Hfr i Hi). split; intros (t' & r & h & Hr & Hh & Hin).
    + exists t', r, h. split; [|done]. rewrite lookup_insert_ne; [done|congruence].
    + apply lookup_insert_Some in Hr as [[-> <-]|[? Hr]]; [done|]. by exists t', r, h.
  - intros h Hh. destruct (How h Hh) as (t' & r & Hr & ?). exists t', r.
    split; [|done]. rewrite lookup_insert_ne; [done|congruence].
Qed.

Lemma rinv_other s v R bc' :
  rinv s v R -> length (bufs bc') = length (bufs (v_bc s)) -> platter bc' = platter (v_bc s) ->
  (forall t r, R !! t = Some r -> bufat bc' (r_b r) = bufat (v_bc s) (r_b r)) ->
  rinv (Vst (v_disk s) bc' (v_regs s)) v R.
Proof.
  intros [Hwf Hb Hrq Hex Hdj Hfr Hnd How] Hl Hp Hbf.
  set (s' := Vst (v_disk s) bc' (v_regs s)).
  assert (Eblk : forall n, blk bc' n = blk (v_bc s) n) by (intros n; unfold blk; by rewrite Hp).
  assert (Eb : forall t r, R !! t = Some r -> blockno_of s' (r_b r) = blockno_of s (r_b r) /\
      data_of s' (r_b r) = data_of s (r_b r) /\ busy_of s' (r_b r) = busy_of s (r_b r))
    by (intros t r Hr; unfold blockno_of, data_of, busy_of; cbn; by rewrite (Hbf t r Hr)).
  split; try done; cbn.
  - congruence.
  - intros t r Hr. destruct (Hrq t r Hr) as [? ? Hreq Hsrc]. destruct (Eb t r Hr) as (E1 & E2 & E3).
    split; [done|congruence| |cbn; by rewrite E1, E2, Eblk].
    intros h Hh. destruct (Hreq h Hh) as (Hq & Hin & Hm). unfold moved. rewrite E1, E2, E3. cbn. rewrite Eblk.
    split; [|done]. by apply (request_ext s s').
  - intros t1 t2 r1 r2 H1 H2 Hne. destruct (Eb _ _ H1) as (-> & _), (Eb _ _ H2) as (-> & _). eauto.
Qed.

(** A step of the driver or the device that neither starts nor ends a call. *)
Lemma rinv_update s s' v v' R :
  rinv s v R -> disk_wf (v_disk s') v' -> length (bufs (v_bc s')) = length (bufs (v_bc s)) ->
  (forall t r, R !! t = Some r -> blockno_of s' (r_b r) = blockno_of s (r_b r) /\
     (if r_write r then data_of s' (r_b r) = r_old r else blk (v_bc s') (blockno_of s (r_b r)) = r_old r)) ->
  dk_free (v_disk s') = dk_free (v_disk s) ->
  (forall t r h, R !! t = Some r -> r_head r = Some h ->
     (forall i, i ∈ chain (v_disk s) h -> descat (v_disk s') i = descat (v_disk s) i) /\
     opat (v_disk s') h = opat (v_disk s) h /\
     nthZ NULL (dk_info_b (v_disk s')) h = nthZ NULL (dk_info_b (v_disk s)) h /\
     (h ∈ inflight (v_disk s') v' <-> busy_of s' (r_b r) = true) /\
     (done_ok (v_disk s') h \/ busy_of s' (r_b r) = false -> moved s' r)) ->
  NoDup (inflight (v_disk s') v') ->
  (forall h, h ∈ inflight (v_disk s') v' -> h ∈ inflight (v_disk s) v) ->
  rinv s' v' R.
Proof.
  intros [Hwf Hb Hrq Hex Hdj Hfr Hnd How] Hwf' Hl Hbno Hfree Hreq Hnd' Hsub.
  assert (Hr' : forall t r h, R !! t = Some r -> r_head r = Some h ->
    request s' r h /\ chain (v_disk s') h = chain (v_disk s) h).
  { intros t r h Hr Hh. destruct (Hreq t r h Hr Hh) as (? & ? & ? & _).
    apply (request_ext s s'); try done; [by apply (Hbno t)|]. by apply (ro_req _ _ _ (Hrq t r Hr)). }
  split; try done.
  - congruence.
  - intros t r Hr. destruct (Hrq t r Hr). destruct (Hbno t r Hr) as [E Hs]. split; [done|congruence| |by rewrite E].
    intros h Hh. split; [by apply (Hr' t)|]. by apply (Hreq t r h).
  - intros t1 t2 r1 r2 H1 H2 Hne. destruct (Hbno _ _ H1) as [-> _], (Hbno _ _ H2) as [-> _]. eauto.
  - intros t1 t2 r1 r2 h1 h2 H1 H2 Hne E1 E2.
    rewrite (proj2 (Hr' _ _ _ H1 E1)), (proj2 (Hr' _ _ _ H2 E2)). eauto.
  - intros i Hi. rewrite Hfree, (Hfr i Hi). split; intros (t & r & h & Hr & Hh & Hin); exists t, r, h;
      (split_and!; [done|done|]); by rewrite (proj2 (Hr' _ _ _ Hr Hh)) in *.
  - intros h Hh. by apply How, Hsub.
Qed.

Lemma rinv_take s v R :
  rinv s v R -> dv_taken v <> avail_idx (v_disk s) ->
  rinv s (Dev (u16 (dv_taken v + 1)) (dv_pending v ++ [nthZ 0 (avail_ring (v_disk s)) (dv_taken v mod NUM)])) R.
Proof.
  intros HI Hne. set (v' := Dev _ _). pose proof (vi_wf _ _ _ HI) as Hwf. destruct (dw_idx _ _ Hwf) as (Ia & It & Iu & Ik).
  assert (Hp : inflight (v_disk s) v' ≡ₚ inflight (v_disk s) v).
  { unfold inflight, availq. rewrite (queue_pop _ (dv_taken v)) by done. cbn [v' dv_taken dv_pending app].
    solve_Permutation. }
  apply (rinv_update s s v); try done.
  - destruct Hwf. split; try done. cbn. pose proof (u16_range (dv_taken v + 1)). naive_solver lia.
  - intros t r Hr. split; [done|]. apply (vi_rq _ _ _ HI t r Hr).
  - intros t r h Hr Hh. destruct (ro_req _ _ _ (vi_rq _ _ _ HI t r Hr) h Hh) as (_ & ? & ?).
    split_and!; try done. by rewrite Hp.
  - rewrite Hp. apply HI.
  - intros h. by rewrite Hp.
Qed.

Lemma rinv_idle s s' v R : rinv s v R -> idle_desc s s' -> rinv s' v R.
Proof.
  intros HI (ds & Ed & Hl & Ebc & _ & Hds). destruct s' as [d' bc' rg']. cbn in Ed, Ebc. subst d' bc'.
  apply (rinv_update s _ v); cbn; try done.
  - destruct (vi_wf _ _ _ HI). split; try done. cbn. congruence.
  - intros t r Hr. split; [done|]. apply (vi_rq _ _ _ HI t r Hr).
  - intros t r h Hr Hh. destruct (ro_req _ _ _ (vi_rq _ _ _ HI t r Hr) h Hh) as (Hq & ? & ?).
    split_and!; try done. intros i Hi. apply Hds; [by eapply request_range|].
    apply (vi_free _ _ _ HI); [by eapply request_range|]. by exists t, r, h.
  - apply HI.
Qed.

(** The buffers and blocks after a transfer of [x], and what a request that succeeds
    transfers. *)
Definition transfer (s : vst) (r : rq) (x : block) : bcache :=
  let bno := blockno_of s (r_b r) in
  if r_write r then Bcache (bufs (v_bc s)) (<[bno := x]> (platter (v_bc s))) (writes (v_bc s) ++ [(bno, x)])
  else upd_buf (r_b r) (set_data x) (v_bc s).
Definition source (s : vst) (r : rq) : block :=
  if r_write r then data_of s (r_b r) else blk (v_bc s) (blockno_of s (r_b r)).

Lemma request_laid_out s r h : request s r h ->
  blk_request (v_disk s) h = Some (Req (if r_write r then VIRTIO_BLK_T_OUT else VIRTIO_BLK_T_IN) 0 (2 * blockno_of s (r_b r)), r_b r, h).
Proof.
  intros (i1 & i2 & ? & ? & ? & ? & E0 & E1 & E2 & Eo & Ei). unfold blk_request.
  rewrite E0. cbn [d_addr d_next]. rewrite E1. cbn [d_addr d_next]. rewrite E2. cbn [d_addr]. rewrite Eo. cbn [rq_sector].
  rewrite (Z.mul_comm 2), Z.mod_mul by lia. by destruct (r_write r).
Qed.

Lemma served_request s s' r h :
  request s r h -> served h s s' ->
  exists st x, (st = VIRTIO_BLK_S_OK -> x = source s r) /\
    s' = Vst (set_used (u16 (used_ring_idx (v_disk s) + 1))
                (setZ (used_ring (v_disk s)) (used_ring_idx (v_disk s) mod NUM) h)
                (set_info_status h st (v_disk s))) (transfer s r x) (v_regs s).
Proof.
  intros Hr. unfold served. rewrite (request_laid_out s r h Hr). cbn [rq_sector rq_type]. rewrite (Z.mul_comm 2), Z.div_mul by lia.
  intros (st & x & _ & Hx & ->). exists st, x. unfold transfer, source. by destruct (r_write r).
Qed.

Lemma inb_rq s v r : rq_ok s v r -> inb (r_b r).
Proof. intros Hr. pose proof (ro_b _ _ _ Hr). unfold inb. plia. Qed.

(** A transfer changes nothing that another call sees. *)
Lemma transfer_bufat s v R t1 t r1 r x :
  rinv s v R -> R !! t1 = Some r1 -> R !! t = Some r ->
  bufat (transfer s r x) (r_b r1) =
    if decide (t1 = t) then (if r_write r then bufat (v_bc s) (r_b r) else set_data x (bufat (v_bc s) (r_b r)))
    else bufat (v_bc s) (r_b r1).
Proof.
  intros HI H1 Hr. unfold transfer. case_decide as E.
  - subst t1. rewrite H1 in Hr. injection Hr as <-. destruct (r_write r1); [done|].
    rewrite bufat_upd, decide_True by (done || apply HI || by eapply inb_rq, (vi_rq _ _ _ HI)). done.
  - destruct (r_write r); [done|].
    rewrite bufat_upd, decide_False by (apply HI || (by eapply inb_rq, (vi_rq _ _ _ HI)) || by apply not_eq_sym, (vi_excl _ _ _ HI t1 t)).
    done.
Qed.

Lemma transfer_blk s r x n :
  blk (transfer s r x) n = if r_write r && (n =? blockno_of s (r_b r)) then x else blk (v_bc s) n.
Proof.
  unfold transfer. destruct (r_write r); cbn [andb]; [|done]. unfold blk. cbn.
  destruct (Z.eqb_spec n (blockno_of s (r_b r))) as [->|Hne].
  - by rewrite lookup_insert_eq.
  - by rewrite lookup_insert_ne.
Qed.

Section finish.
Context (s : vst) (v : dev) (R : gmap Z rq) (h : Z) (l1 l2 : list Z) (t : Z) (r : rq) (st : Z) (x : block).
Context (HI : rinv s v R) (Hp : dv_pending v = l1 ++ h :: l2) (Hr : R !! t = Some r) (Hh : r_head r = Some h).
Context (Hx : st = VIRTIO_BLK_S_OK -> x = source s r).
Let d := v_disk s.
Let v' := Dev (dv_taken v) (l1 ++ l2).
Let s' := Vst (set_used (u16 (used_ring_idx d + 1)) (setZ (used_ring d) (used_ring_idx d mod NUM) h) (set_info_status h st d)) (transfer s r x) (v_regs s).

Lemma finish_inflight : h ∈ inflight d v.
Proof using Hp. unfold inflight. rewrite Hp. apply elem_of_app. right. apply elem_of_app. left. apply elem_of_app. right. by left. Qed.

Lemma finish_usedq : usedq (v_disk s') = usedq d ++ [h].
Proof using HI Hp Hr Hh Hx.
  pose proof (vi_wf _ _ _ HI) as Hwf. destruct (dw_idx _ _ Hwf) as (Ia & It & Iu & Ik).
  assert (Hlen : (length (inflight d v) <= Z.to_nat NUM)%nat) by (apply NoDup_descs; [apply HI|intros i; by eapply inflight_range]).
  apply queue_push; [apply Hwf|done|done|]. change (length (usedq d) < Z.to_nat NUM)%nat. unfold inflight in Hlen.
  rewrite Hp, !length_app in Hlen. cbn [length] in Hlen. lia.
Qed.

Lemma finish_perm : inflight (v_disk s') v' ≡ₚ inflight d v.
Proof using HI Hp Hr Hh Hx. unfold inflight. rewrite finish_usedq, Hp. cbn. change (availq (v_disk s') v') with (availq d v). solve_Permutation. Qed.

Lemma finish_buf t1 r1 : R !! t1 = Some r1 -> blockno_of s' (r_b r1) = blockno_of s (r_b r1) /\ busy_of s' (r_b r1) = busy_of s (r_b r1) /\
  data_of s' (r_b r1) = if decide (t1 = t) then (if r_write r then data_of s (r_b r) else x) else data_of s (r_b r1).
Proof using HI Hp Hr Hh Hx.
  intros H1. unfold blockno_of, busy_of, data_of. cbn [s' v_bc]. rewrite (transfer_bufat s v R t1 t r1 r x HI H1 Hr). case_decide as E; [|done].
  subst t1. assert (r1 = r) as -> by congruence. by destruct (r_write r).
Qed.

(** The block of another call. *)
Lemma finish_blk t1 r1 : R !! t1 = Some r1 -> t1 <> t -> blk (transfer s r x) (blockno_of s (r_b r1)) = blk (v_bc s) (blockno_of s (r_b r1)).
Proof using HI Hp Hr Hh Hx. intros H1 Hne. rewrite transfer_blk. destruct (vi_excl _ _ _ HI t1 t r1 r H1 Hr Hne) as [_ Hbn]. by rewrite (proj2 (Z.eqb_neq _ _) Hbn), andb_false_r. Qed.

Lemma finish_status h1 : 0 <= h1 < NUM -> nthZ 0 (dk_info_status (v_disk s')) h1 = if decide (h1 = h) then st else nthZ 0 (dk_info_status d) h1.
Proof using HI Hp Hr Hh Hx.
  intros Hr1. pose proof (inflight_range _ _ _ _ HI finish_inflight) as Hhr. pose proof (dw_status _ _ (vi_wf _ _ _ HI)) as Hl. fold d in Hl. cbn.
  destruct (decide (h1 = h)) as [->|Hne]; [rewrite nthZ_setZ_eq by (unfold NUM in *; lia); done|]. by rewrite nthZ_setZ_ne by lia.
Qed.

Lemma finish_moved t1 r1 h1 : R !! t1 = Some r1 -> r_head r1 = Some h1 -> done_ok (v_disk s') h1 \/ busy_of s' (r_b r1) = false -> moved s' r1.
Proof using HI Hp Hr Hh Hx.
  intros H1 E1 Hc. destruct (finish_buf t1 r1 H1) as (Eb & Ebusy & Edata). pose proof (ro_src _ _ _ (vi_rq _ _ _ HI t1 r1 H1)) as Hsrc.
  destruct (ro_req _ _ _ (vi_rq _ _ _ HI t1 r1 H1) h1 E1) as (Hq & Hbusy & Hmv). assert (Hr1 : 0 <= h1 < NUM) by (destruct Hq as (? & ? & Hq & _); exact Hq).
  unfold moved. rewrite Eb, Edata. cbn [s' v_bc]. destruct (decide (t1 = t)) as [->|Hne].
  - assert (r1 = r) as -> by congruence. assert (h1 = h) as -> by congruence. destruct Hc as [[_ Hst]|Hc].
    + unfold status_ok in Hst. rewrite finish_status, decide_True in Hst by done. rewrite transfer_blk, Z.eqb_refl, andb_true_r, (Hx Hst). unfold source. by destruct (r_write r).
    + exfalso. rewrite Ebusy, (proj1 Hbusy finish_inflight) in Hc. done.
  - rewrite (finish_blk t1 r1 H1 Hne). apply Hmv. rewrite <- Ebusy. destruct Hc as [[Hu Hst]|]; [left|by right].
    assert (Hn1 : h1 <> h) by (intros ->; apply Hne; by eapply (owner_unique s v R)).
    rewrite finish_usedq, elem_of_app, list_elem_of_singleton in Hu. unfold status_ok in Hst. rewrite finish_status, decide_False in Hst by done. split; [by destruct Hu|done].
Qed.

Lemma finish_rinv : rinv s' v' R.
Proof using HI Hp Hr Hh Hx.
  pose proof (vi_wf _ _ _ HI) as Hwf. destruct (dw_idx _ _ Hwf) as (Ia & It & Iu & Ik). apply (rinv_update s s' v v' R HI).
  - destruct Hwf. split; cbn; rewrite ?length_setZ; try done. pose proof (u16_range (used_ring_idx d + 1)). naive_solver lia.
  - cbn. unfold transfer. destruct (r_write r); [done|]. apply length_upd_buf.
  - intros t1 r1 H1. destruct (finish_buf t1 r1 H1) as (Eb & _ & Edata). split; [done|]. rewrite Edata. cbn [s' v_bc].
    pose proof (ro_src _ _ _ (vi_rq _ _ _ HI t1 r1 H1)) as Hsrc. destruct (decide (t1 = t)) as [->|Hne].
    + rewrite transfer_blk. assert (r1 = r) as -> by congruence. by destruct (r_write r).
    + by rewrite (finish_blk t1 r1 H1 Hne).
  - done.
  - intros t1 r1 h1 H1 E1. destruct (finish_buf t1 r1 H1) as (_ & Ebusy & _). split_and!; [done|done|done| |by eapply finish_moved].
    rewrite finish_perm, Ebusy. by apply (ro_req _ _ _ (vi_rq _ _ _ HI t1 r1 H1)).
  - rewrite finish_perm. apply HI.
  - intros h1. by rewrite finish_perm.
Qed.
End finish.

Lemma rinv_finish s v R h l1 l2 s' :
  rinv s v R -> dv_pending v = l1 ++ h :: l2 -> served h s s' -> rinv s' (Dev (dv_taken v) (l1 ++ l2)) R.
Proof.
  intros HI Hp Hs. destruct (vi_owner _ _ _ HI h (finish_inflight s v h l1 l2 Hp)) as (t & r & Hr & Hh).
  destruct (ro_req _ _ _ (vi_rq _ _ _ HI t r Hr) h Hh) as (Hreq & _). destruct (served_request _ _ _ _ Hreq Hs) as (st & x & Hx & ->). by apply (finish_rinv s v R h l1 l2 t r st x).
Qed.

(** The state after [submit] of three descriptors that were free. *)
Definition submitted (s : vst) (r : rq) (i0 i1 i2 : Z) : vst :=
  let d := v_disk s in
  Vst (Disk (setZ (setZ (setZ (dk_desc d) i0 (Desc (A_op i0) 16 VRING_DESC_F_NEXT i1))
               i1 (Desc (A_data (r_b r)) BSIZE (flagsof (r_write r)) i2)) i2 (Desc (A_status i0) 1 VRING_DESC_F_WRITE 0))
         (u16 (avail_idx d + 1)) (setZ (avail_ring d) (avail_idx d mod NUM) i0) (used_ring_idx d) (used_ring d)
         (setZ (setZ (setZ (dk_free d) i0 false) i1 false) i2 false) (dk_used_idx d) (setZ (dk_info_b d) i0 (r_b r))
         (setZ (dk_info_status d) i0 255)
         (setZ (dk_ops d) i0 (Req (if r_write r then VIRTIO_BLK_T_OUT else VIRTIO_BLK_T_IN) 0 (2 * blockno_of s (r_b r)))))
      (upd_buf (r_b r) (set_bdisk true) (v_bc s)) (v_regs s ++ [(VIRTIO_MMIO_QUEUE_NOTIFY, 0)]).

Section submit.
Variables (s : vst) (v : dev) (R : gmap Z rq) (t : Z) (r : rq) (i0 i1 i2 : Z).
Hypothesis HI : rinv s v R.
Hypothesis Hr : R !! t = Some r.
Hypothesis Hnone : r_head r = None.
Hypothesis Hfree : Forall (fun i => 0 <= i < NUM /\ nthZ false (dk_free (v_disk s)) i = true) [i0; i1; i2].
Hypothesis Hdist : NoDup [i0; i1; i2].
Notation s' := (submitted s r i0 i1 i2).
Notation d' := (v_disk s').

Lemma new_free i : i ∈ [i0; i1; i2] -> 0 <= i < NUM /\ nthZ false (dk_free (v_disk s)) i = true.
Proof. apply (proj1 (Forall_forall _ _) Hfree). Qed.

Lemma sub_distinct : i0 <> i1 /\ i0 <> i2 /\ i1 <> i2 /\ 0 <= i0 < NUM /\ 0 <= i1 < NUM /\ 0 <= i2 < NUM.
Proof.
  assert (H0 := new_free i0 ltac:(set_solver)). assert (H1 := new_free i1 ltac:(set_solver)).
  assert (H2 := new_free i2 ltac:(set_solver)). clear -Hdist H0 H1 H2.
  rewrite !NoDup_cons in Hdist. set_solver.
Qed.

Lemma sub_desc i : 0 <= i ->
  descat d' i = if decide (i = i2) then Desc (A_status i0) 1 VRING_DESC_F_WRITE 0
    else if decide (i = i1) then Desc (A_data (r_b r)) BSIZE (flagsof (r_write r)) i2
    else if decide (i = i0) then Desc (A_op i0) 16 VRING_DESC_F_NEXT i1 else descat (v_disk s) i.
Proof.
  intros Hi. destruct sub_distinct as (? & ? & ? & ? & ? & ?).
  assert (Hl : length (dk_desc (v_disk s)) = Z.to_nat NUM) by apply (vi_wf _ _ _ HI).
  unfold descat. cbn. rewrite !nthZ_setZ by (rewrite ?length_setZ, ?Hl; unfold NUM in *; lia).
  repeat case_decide; congruence.
Qed.

Lemma sub_free i : 0 <= i ->
  nthZ false (dk_free d') i = if decide (i ∈ [i0; i1; i2]) then false else nthZ false (dk_free (v_disk s)) i.
Proof.
  intros Hi. destruct sub_distinct as (? & ? & ? & ? & ? & ?).
  assert (Hl : length (dk_free (v_disk s)) = Z.to_nat NUM) by apply (vi_wf _ _ _ HI).
  cbn. rewrite !nthZ_setZ by (rewrite ?length_setZ, ?Hl; unfold NUM in *; lia).
  repeat case_decide; set_solver.
Qed.

(** The chains of other calls are elsewhere. *)
Lemma sub_other t1 r1 h1 i : R !! t1 = Some r1 -> r_head r1 = Some h1 -> i ∈ chain (v_disk s) h1 ->
  0 <= i < NUM /\ i ∉ [i0; i1; i2].
Proof.
  intros H1 E1 Hi. assert (Hir := rq_range _ _ _ _ _ _ _ HI H1 E1 Hi). split; [done|]. intros Hn.
  destruct (new_free i Hn) as [_ Hf]. rewrite (proj2 (vi_free _ _ _ HI i Hir)) in Hf; [done|]. by exists t1, r1, h1.
Qed.

Lemma sub_new_head : i0 ∉ inflight (v_disk s) v.
Proof.
  intros (t1 & r1 & H1 & E1)%(vi_owner _ _ _ HI).
  destruct (sub_other t1 r1 i0 i0 H1 E1 (head_in_chain _ _)) as [_ Hn]. set_solver.
Qed.

Lemma sub_inflight : inflight d' v ≡ₚ i0 :: inflight (v_disk s) v.
Proof.
  destruct (dw_idx _ _ (vi_wf _ _ _ HI)) as (Ia & It & Iu & Ik).
  assert (Hlen : (length (i0 :: inflight (v_disk s) v) <= Z.to_nat NUM)%nat).
  { apply NoDup_descs.
    - apply NoDup_cons. split; [apply sub_new_head|apply HI].
    - intros i [->|Hi]%elem_of_cons; [apply sub_distinct|by eapply inflight_range]. }
  assert (Hq : availq d' v = availq (v_disk s) v ++ [i0]).
  { apply queue_push; [apply (vi_wf _ _ _ HI)|done|done|]. change (length (availq (v_disk s) v) < Z.to_nat NUM)%nat.
    unfold inflight in Hlen. cbn [length] in Hlen. rewrite !length_app in Hlen. lia. }
  unfold inflight. rewrite Hq. change (usedq d') with (usedq (v_disk s)). solve_Permutation.
Qed.

Lemma sub_buf t1 r1 : R !! t1 = Some r1 ->
  blockno_of s' (r_b r1) = blockno_of s (r_b r1) /\ data_of s' (r_b r1) = data_of s (r_b r1) /\
  busy_of s' (r_b r1) = (if decide (t1 = t) then true else busy_of s (r_b r1)).
Proof.
  intros H1. unfold blockno_of, data_of, busy_of. cbn [v_bc submitted].
  rewrite bufat_upd by (apply HI || (by eapply inb_rq, (vi_rq _ _ _ HI))).
  destruct (decide (t1 = t)) as [->|Hne].
  - rewrite H1 in Hr. injection Hr as <-. by rewrite decide_True.
  - rewrite decide_False; [done|]. apply not_eq_sym. by apply (vi_excl _ _ _ HI t1 t).
Qed.

Lemma sub_request : request s' (set_head i0 r) i0 /\ chain d' i0 = [i0; i1; i2].
Proof.
  destruct sub_distinct as (N01 & N02 & N12 & R0 & R1 & R2).
  assert (D0 := sub_desc i0 ltac:(lia)). assert (D1 := sub_desc i1 ltac:(lia)). assert (D2 := sub_desc i2 ltac:(lia)).
  rewrite !decide_False, decide_True in D0 by congruence.
  rewrite decide_False, decide_True in D1 by congruence. rewrite decide_True in D2 by done.
  split; [|unfold chain; rewrite D0; cbn [d_next]; by rewrite D1].
  exists i1, i2. split_and!; try done; try lia.
  - cbn [set_head r_write r_b]. rewrite (proj1 (sub_buf t r Hr)). unfold opat. cbn.
    apply nthZ_setZ_eq. rewrite (dw_ops _ _ (vi_wf _ _ _ HI)). unfold NUM in *. lia.
  - cbn. apply nthZ_setZ_eq. rewrite (dw_info _ _ (vi_wf _ _ _ HI)). unfold NUM in *. lia.
Qed.

(** The request of another call is untouched. *)
Lemma sub_request_other t1 r1 h1 : R !! t1 = Some r1 -> r_head r1 = Some h1 ->
  request s' r1 h1 /\ chain d' h1 = chain (v_disk s) h1.
Proof.
  intros H1 E1. assert (Hh := sub_other t1 r1 h1 h1 H1 E1 (head_in_chain _ _)).
  destruct sub_distinct as (_ & _ & _ & R0 & _).
  apply request_ext; [| | |by apply (sub_buf t1)|by apply (ro_req _ _ _ (vi_rq _ _ _ HI t1 r1 H1))].
  - intros i Hi. destruct (sub_other t1 r1 h1 i H1 E1 Hi) as [Hir Hn].
    rewrite sub_desc by lia. rewrite !decide_False; set_solver.
  - apply nthZ_setZ_ne; set_solver by lia.
  - apply nthZ_setZ_ne; set_solver by lia.
Qed.

(** A call of the new table is the submitted one or an old one. *)
Lemma sub_lookup t1 r1 : <[t := set_head i0 r]> R !! t1 = Some r1 ->
  (t1 = t /\ r1 = set_head i0 r) \/ (t1 <> t /\ R !! t1 = Some r1).
Proof. intros [[-> <-]|[? ?]]%lookup_insert_Some; auto. Qed.

Lemma sub_done h : done_ok d' h -> done_ok (v_disk s) h.
Proof.
  intros [Hu Hs]. change (usedq d') with (usedq (v_disk s)) in Hu. split; [done|]. pose proof (inflight_range _ _ _ _ HI (usedq_inflight _ v _ Hu)).
  destruct sub_distinct as (_ & _ & _ & R0 & _). unfold status_ok in *. cbn in Hs. rewrite nthZ_setZ_ne in Hs; [done|lia|lia|].
  intros <-. by apply sub_new_head, usedq_inflight.
Qed.

Lemma sub_rq t1 r1 : <[t := set_head i0 r]> R !! t1 = Some r1 -> rq_ok s' v r1.
Proof.
  intros [[-> ->]|[Hne H1]]%sub_lookup.
  - destruct (sub_buf t r Hr) as (Eb & Ed & Ebusy). rewrite decide_True in Ebusy by done.
    destruct (vi_rq _ _ _ HI t r Hr) as [Hb Hbn _ Hsrc].
    split; cbn [set_head r_b r_head r_write r_old]; [done|congruence| |by rewrite Eb, Ed].
    intros h [= <-]. split_and!; [apply sub_request| |].
    + rewrite Ebusy, sub_inflight. split; [done|by left].
    + rewrite Ebusy. intros [[Hu _]|?]; [|done]. change (usedq d') with (usedq (v_disk s)) in Hu.
      exfalso. by apply sub_new_head, usedq_inflight.
  - destruct (sub_buf t1 r1 H1) as (Eb & Ed & Ebusy). rewrite decide_False in Ebusy by done.
    destruct (vi_rq _ _ _ HI t1 r1 H1) as [Hb Hbn Hreq Hsrc].
    split; [done|congruence| |by rewrite Eb, Ed].
    intros h Hh. destruct (Hreq h Hh) as (_ & Hin & Hm). split; [by apply (sub_request_other t1)|].
    unfold moved. rewrite Eb, Ed, Ebusy. split; [|intros [Hd|?]; apply Hm; [left; by apply sub_done|by right]]. rewrite sub_inflight, elem_of_cons, <- Hin.
    split; [|by right]. intros [->|]; [|done].
    destruct (sub_other t1 r1 i0 i0 H1 Hh (head_in_chain _ _)). set_solver.
Qed.

Lemma rinv_submit : rinv s' v (<[t := set_head i0 r]> R).
Proof.
  destruct sub_distinct as (N01 & N02 & N12 & R0 & R1 & R2). destruct sub_request as [_ Ec].
  split.
  - destruct (vi_wf _ _ _ HI). split; cbn; rewrite ?length_setZ; try done.
    pose proof (u16_range (avail_idx (v_disk s) + 1)). naive_solver lia.
  - cbn. rewrite length_setZ. apply HI.
  - apply sub_rq.
  - intros t1 t2 r1 r2 [[-> ->]|[N1 H1]]%sub_lookup [[-> ->]|[N2 H2]]%sub_lookup Hne; [done|..].
    all: cbn [set_head r_b].
    + rewrite (proj1 (sub_buf _ _ Hr)), (proj1 (sub_buf _ _ H2)). by apply (vi_excl _ _ _ HI t t2).
    + rewrite (proj1 (sub_buf _ _ H1)), (proj1 (sub_buf _ _ Hr)). by apply (vi_excl _ _ _ HI t1 t).
    + rewrite (proj1 (sub_buf _ _ H1)), (proj1 (sub_buf _ _ H2)). by apply (vi_excl _ _ _ HI t1 t2).
  - assert (Hx : forall t1 r1 h1, R !! t1 = Some r1 -> r_head r1 = Some h1 -> chain d' i0 ## chain d' h1).
    { intros t1 r1 h1 H1 E1. rewrite Ec, (proj2 (sub_request_other _ _ _ H1 E1)). intros i Hi Hi1.
      by apply (sub_other _ _ _ _ H1 E1 Hi1). }
    intros t1 t2 r1 r2 h1 h2 [[-> ->]|[N1 H1]]%sub_lookup [[-> ->]|[N2 H2]]%sub_lookup Hne E1 E2; [done|..].
    + injection E1 as <-. eauto.
    + injection E2 as <-. intros i Hi1 Hi2. by apply (Hx t1 r1 h1 H1 E1 i).
    + rewrite (proj2 (sub_request_other _ _ _ H1 E1)), (proj2 (sub_request_other _ _ _ H2 E2)).
      by apply (vi_disj _ _ _ HI t1 t2 r1 r2).
  - intros i Hi. rewrite sub_free by lia. destruct (decide (i ∈ [i0; i1; i2])) as [Hin|Hni].
    + split; [|done]. intros _. exists t, (set_head i0 r), i0. rewrite lookup_insert_eq, Ec. done.
    + rewrite (vi_free _ _ _ HI i Hi). split; intros (t1 & r1 & h1 & H1 & E1 & Hc).
      * exists t1, r1, h1. rewrite (proj2 (sub_request_other _ _ _ H1 E1)), lookup_insert_ne; [done|congruence].
      * apply sub_lookup in H1 as [[-> ->]|[N1 H1]]; [injection E1 as <-; by rewrite Ec in Hc|].
        rewrite (proj2 (sub_request_other _ _ _ H1 E1)) in Hc. by exists t1, r1, h1.
  - rewrite sub_inflight. apply NoDup_cons. split; [apply sub_new_head|apply HI].
  - intros h. rewrite sub_inflight. intros [->|Hh]%elem_of_cons.
    + exists t, (set_head i0 r). by rewrite lookup_insert_eq.
    + destruct (vi_owner _ _ _ HI h Hh) as (t1 & r1 & H1 & E1). exists t1, r1.
      rewrite lookup_insert_ne; [done|congruence].
Qed.
End submit.

(** The state after a served request's chain has been freed. *)
Definition released (s : vst) (h i1 i2 : Z) : vst :=
  let d := v_disk s in
  Vst (Disk (setZ (setZ (setZ (dk_desc d) h desc0) i1 desc0) i2 desc0) (avail_idx d) (avail_ring d)
         (used_ring_idx d) (used_ring d) (setZ (setZ (setZ (dk_free d) h true) i1 true) i2 true) (dk_used_idx d)
         (setZ (dk_info_b d) h NULL) (dk_info_status d) (dk_ops d)) (v_bc s) (v_regs s).

Lemma rinv_released s v R t r h i1 i2 :
  rinv s v R -> R !! t = Some r -> r_head r = Some h -> busy_of s (r_b r) = false ->
  chain (v_disk s) h = [h; i1; i2] -> rinv (released s h i1 i2) v (delete t R).
Proof.
  intros HI Hr Hh Hbusy Ec. set (s' := released s h i1 i2).
  destruct (ro_req _ _ _ (vi_rq _ _ _ HI t r Hr) h Hh) as (Hreq & Hin & _).
  assert (Hni : h ∉ inflight (v_disk s) v) by (rewrite Hin, Hbusy; done).
  destruct (request_chain _ _ _ Hreq) as (j1 & j2 & Ec' & Hnd & Rh & R1 & R2).
  rewrite Ec' in Ec. injection Ec as -> ->.
  assert (Ho : forall t1 r1 h1 i, R !! t1 = Some r1 -> t1 <> t -> r_head r1 = Some h1 ->
    i ∈ chain (v_disk s) h1 -> 0 <= i < NUM /\ i ∉ [h; i1; i2]).
  { intros t1 r1 h1 i H1 Hne E1 Hi. split; [by eapply rq_range|]. rewrite <- Ec'. intros Hi2.
    by apply (vi_disj _ _ _ HI t1 t r1 r h1 h H1 Hr Hne E1 Hh i). }
  assert (Hq : forall t1 r1 h1, R !! t1 = Some r1 -> t1 <> t -> r_head r1 = Some h1 ->
    request s' r1 h1 /\ chain (v_disk s') h1 = chain (v_disk s) h1).
  { intros t1 r1 h1 H1 Hne E1. assert (Hh1 := Ho t1 r1 h1 h1 H1 Hne E1 (head_in_chain _ _)).
    apply request_ext; [|done| |done|by apply (ro_req _ _ _ (vi_rq _ _ _ HI t1 r1 H1))].
    - intros i Hi. destruct (Ho t1 r1 h1 i H1 Hne E1 Hi) as [Hir Hn]. unfold descat. cbn.
      rewrite !nthZ_setZ_ne; set_solver by lia.
    - apply nthZ_setZ_ne; set_solver by lia. }
  assert (Hfr : length (dk_free (v_disk s)) = Z.to_nat NUM) by apply (vi_wf _ _ _ HI).
  split.
  - destruct (vi_wf _ _ _ HI). split; cbn; rewrite ?length_setZ; done.
  - apply HI.
  - intros t1 r1 [Hne H1]%lookup_delete_Some. destruct (vi_rq _ _ _ HI t1 r1 H1) as [? ? Hrq ?].
    split; try done. intros h1 E1. destruct (Hrq h1 E1) as (_ & ? & ?). split; [by apply (Hq t1)|done].
  - intros t1 t2 r1 r2 [? H1]%lookup_delete_Some [? H2]%lookup_delete_Some. by apply (vi_excl _ _ _ HI t1 t2).
  - intros t1 t2 r1 r2 h1 h2 [N1 H1]%lookup_delete_Some [N2 H2]%lookup_delete_Some Hne E1 E2.
    rewrite (proj2 (Hq _ _ _ H1 (not_eq_sym N1) E1)), (proj2 (Hq _ _ _ H2 (not_eq_sym N2) E2)).
    by apply (vi_disj _ _ _ HI t1 t2 r1 r2).
  - intros i Hi.
    change (dk_free (v_disk s')) with (setZ (setZ (setZ (dk_free (v_disk s)) h true) i1 true) i2 true).
    rewrite !nthZ_setZ by (rewrite ?length_setZ, ?Hfr; unfold NUM in *; lia). split.
    + intros Hf. repeat case_decide; try done. apply (vi_free _ _ _ HI i Hi) in Hf as (t1 & r1 & h1 & Hr1 & E1 & Hc).
      assert (Hne : t1 <> t).
      { intros ->. rewrite Hr1 in Hr. injection Hr as ->. rewrite Hh in E1. injection E1 as <-.
        rewrite Ec' in Hc. set_solver. }
      exists t1, r1, h1. rewrite lookup_delete_ne by done. split_and!; [done|done|]. by rewrite (proj2 (Hq t1 r1 h1 Hr1 Hne E1)).
    + intros (t1 & r1 & h1 & [N1 H1]%lookup_delete_Some & E1 & Hc).
      rewrite (proj2 (Hq t1 r1 h1 H1 (not_eq_sym N1) E1)) in Hc.
      destruct (Ho t1 r1 h1 i H1 (not_eq_sym N1) E1 Hc) as [_ Hn]. rewrite !decide_False by set_solver.
      apply (vi_free _ _ _ HI i Hi). by exists t1, r1, h1.
  - apply HI.
  - intros h1 Hh1. destruct (vi_owner _ _ _ HI h1 Hh1) as (t1 & r1 & H1 & E1). exists t1, r1.
    rewrite lookup_delete_ne; [done|]. intros <-. rewrite H1 in Hr. injection Hr as ->.
    rewrite Hh in E1. by injection E1 as <-.
Qed.

(** One iteration of the loop of [virtio_disk_intr]. *)
Definition acked (s : vst) (b : Z) : vst :=
  on_disk (set_used_idx (u16 (dk_used_idx (v_disk s) + 1))) (on_bc (upd_buf b (set_bdisk false)) s).

Lemma acked_buf s v R t t1 r r1 :
  rinv s v R -> R !! t = Some r -> R !! t1 = Some r1 ->
  let s' := acked s (r_b r) in
  blockno_of s' (r_b r1) = blockno_of s (r_b r1) /\ data_of s' (r_b r1) = data_of s (r_b r1) /\
  busy_of s' (r_b r1) = (if decide (t1 = t) then false else busy_of s (r_b r1)).
Proof.
  intros HI Hr H1 s'. unfold blockno_of, data_of, busy_of. cbn [v_bc acked on_disk on_bc s'].
  rewrite bufat_upd by (apply HI || (by eapply inb_rq, (vi_rq _ _ _ HI))).
  destruct (decide (t1 = t)) as [->|Hne].
  - rewrite H1 in Hr. injection Hr as <-. by rewrite decide_True.
  - rewrite decide_False; [done|]. apply not_eq_sym. by apply (vi_excl _ _ _ HI t1 t).
Qed.

Lemma rinv_acked s v R :
  rinv s v R -> dk_used_idx (v_disk s) <> used_ring_idx (v_disk s) ->
  let id := nthZ 0 (used_ring (v_disk s)) (dk_used_idx (v_disk s) mod NUM) in
  exists t r, R !! t = Some r /\
    nthZ NULL (dk_info_b (v_disk s)) id = r_b r /\ usedq (v_disk s) = id :: usedq (v_disk (acked s (r_b r))) /\
    (status_ok (v_disk s) id -> rinv (acked s (r_b r)) v R).
Proof.
  intros HI Hne id. pose proof (vi_wf _ _ _ HI) as Hwf. destruct (dw_idx _ _ Hwf) as (Ia & It & Iu & Ik).
  assert (Hq : forall b, usedq (v_disk s) = id :: usedq (v_disk (acked s b))) by (intros b; by apply queue_pop).
  assert (Hu : id ∈ usedq (v_disk s)) by (rewrite (Hq 0); by left).
  destruct (vi_owner _ _ _ HI id (usedq_inflight _ _ _ Hu)) as (t & r & Hr & Hh). exists t, r.
  destruct (ro_req _ _ _ (vi_rq _ _ _ HI t r Hr) id Hh) as (Hreq & _ & Hmv). specialize (Hq (r_b r)).
  split_and!; [done|by destruct Hreq as (? & ? & Hreq); apply Hreq|done|]. intros Hst.
  set (s' := acked s (r_b r)) in *.
  assert (Hp : inflight (v_disk s) v ≡ₚ id :: inflight (v_disk s') v).
  { unfold inflight. rewrite Hq. change (availq (v_disk s') v) with (availq (v_disk s) v). solve_Permutation. }
  assert (Hnd := vi_nodup _ _ _ HI). rewrite Hp in Hnd. apply NoDup_cons in Hnd as [Hnid Hnd].
  apply (rinv_update s s' v v R HI).
  - destruct Hwf. split; try done. cbn. pose proof (u16_range (dk_used_idx (v_disk s) + 1)). naive_solver lia.
  - apply length_upd_buf.
  - intros t1 r1 H1. destruct (acked_buf s v R t t1 r r1 HI Hr H1) as (Eb & Ed & _). split; [done|].
    fold s' in Ed. rewrite Ed. apply (ro_src _ _ _ (vi_rq _ _ _ HI t1 r1 H1)).
  - done.
  - intros t1 r1 h1 H1 E1. destruct (acked_buf s v R t t1 r r1 HI Hr H1) as (Eb & Ed & Eu). fold s' in Eb, Ed, Eu.
    destruct (ro_req _ _ _ (vi_rq _ _ _ HI t1 r1 H1) h1 E1) as (_ & Hin & Hm).
    split_and!; [done|done|done| |].
    + rewrite Eu. destruct (decide (t1 = t)) as [->|Hnt].
      * rewrite H1 in Hr. injection Hr as <-. rewrite Hh in E1. injection E1 as <-. by split.
      * rewrite <- Hin, Hp, elem_of_cons. split; [by right|]. intros [->|]; [|done].
        exfalso. apply Hnt. by eapply (owner_unique s v R).
    + unfold moved. rewrite Eb, Ed, Eu. intros Hc. destruct (decide (t1 = t)) as [->|Hnt].
      * rewrite H1 in Hr. injection Hr as <-. rewrite Hh in E1. injection E1 as <-. apply Hmv. by left.
      * apply Hm. destruct Hc as [[Hc Hs1]|]; [left|by right]. split; [rewrite Hq; by right|exact Hs1].
  - done.
  - intros h. rewrite Hp. by right.
Qed.

(** The registers play no part. *)
Lemma rinv_regs s v R rs : rinv s v R -> rinv (Vst (v_disk s) (v_bc s) rs) v R.
Proof.
  intros HI. apply (rinv_update s _ v v R HI); try done; try apply HI.
  - intros t r Hr. split; [done|]. apply (ro_src _ _ _ (vi_rq _ _ _ HI t r Hr)).
  - intros t r h Hr Hh. destruct (ro_req _ _ _ (vi_rq _ _ _ HI t r Hr) h Hh) as (_ & ? & ?). done.
Qed.
End preservation.

(** ** The driver's routines *)

Section routines.
Implicit Types (s : vst) (c : ctx) (v : dev) (R : gmap Z rq) (r : rq).

(** Sleepers on a buffer are woken when its request is done. *)
Definition busy_or_woken R s s' c' : Prop :=
  forall t r, R !! t = Some r -> busy_of s (r_b r) = true ->
    busy_of s' (r_b r) = true \/ CH_buf (r_b r) ∈ wakes c'.

(** No request that the device has finished has failed. *)
Definition no_errors (d : disk) : Prop := Forall (status_ok d) (usedq d).
#[export] Instance no_errors_dec d : Decision (no_errors d).
Proof. unfold no_errors, status_ok. apply _. Defined.

(** The first entry of the used ring. *)
Lemma intr_head s v R : rinv s v R -> dk_used_idx (v_disk s) <> used_ring_idx (v_disk s) ->
  let id := nthZ 0 (used_ring (v_disk s)) (dk_used_idx (v_disk s) mod NUM) in
  no_errors (v_disk s) <-> status_ok (v_disk s) id /\ forall b, no_errors (v_disk (acked s b)).
Proof.
  intros HI Hne id. destruct (dw_idx _ _ (vi_wf _ _ _ HI)) as (Ia & It & Iu & Ik).
  assert (Hq : forall b, usedq (v_disk s) = id :: usedq (v_disk (acked s b))) by (intros b; by apply queue_pop).
  unfold no_errors at 1. rewrite (Hq 0), Forall_cons. split; intros [? Hf]; (split; [done|]); [intros b; exact Hf|exact (Hf 0)].
Qed.

Lemma wp_intr_loop fuel c s v R :
  rinv s v R -> no_errors (v_disk s) -> (length (usedq (v_disk s)) <= fuel)%nat ->
  wp (intr_loop fuel) c s (fun _ c' s' => held c' = held c /\ wakes c ⊆ wakes c' /\ rinv s' v R /\
    dk_free (v_disk s') = dk_free (v_disk s) /\ busy_or_woken R s s' c' /\
    usedq (v_disk s') = [] /\ availq (v_disk s') v = availq (v_disk s) v).
Proof.
  revert c s. induction fuel as [|f IH]; intros c s HI Hno Hl; cbn [intr_loop]; apply wp_bind, wp_gets.
  all: destruct (dw_idx _ _ (vi_wf _ _ _ HI)) as (Ia & It & Iu & Ik).
  all: destruct (Z.eqb_spec (dk_used_idx (v_disk s)) (used_ring_idx (v_disk s))) as [He|He].
  1,3: apply wp_ret; split_and!; try done; [intros t r Hr; by left|by apply used_queue_empty].
  { exfalso. apply He, (used_queue_empty (used_ring (v_disk s)) _ _ Ik Iu), length_zero_iff_nil.
    unfold usedq in Hl. lia. }
  destruct (rinv_acked s v R HI He) as (t & r & Hr & Eb & Eq & HI'). apply (intr_head s v R HI He) in Hno as [Est Hno].
  specialize (HI' Est). rewrite Est, Eb. cbn [Z.eqb negb]. apply wp_bind, wp_modify, wp_bind, wp_wakeup, wp_bind, wp_modify.
  change (on_disk _ (on_bc _ s)) with (acked s (r_b r)).
  eapply wp_mono; [apply IH; [exact HI'|apply Hno|rewrite Eq in Hl; cbn [length] in Hl; lia]|].
  cbn. intros _ c' s' (Hh & Hw & HI2 & Ef & Hb & Hq & Ha). split_and!; try done; [set_solver|].
  intros t1 r1 H1 Hbusy. destruct (acked_buf s v R t t1 r r1 HI Hr H1) as (_ & _ & Eu).
  destruct (decide (t1 = t)) as [->|Hne].
  - right. rewrite H1 in Hr. injection Hr as <-. set_solver.
  - apply (Hb t1 r1 H1). by rewrite Eu.
Qed.

(** The handler panics on the first request that has failed. *)
Lemma intr_loop_panics fuel c s v R :
  rinv s v R -> ~ no_errors (v_disk s) -> (length (usedq (v_disk s)) <= fuel)%nat ->
  intr_loop fuel c s = Panic "virtio_disk_intr status".
Proof.
  revert c s. induction fuel as [|f IH]; intros c s HI Hno Hl.
  { exfalso. apply Hno. unfold no_errors. destruct (usedq (v_disk s)); [constructor|cbn in Hl; lia]. }
  destruct (dw_idx _ _ (vi_wf _ _ _ HI)) as (Ia & It & Iu & Ik). cbn [intr_loop]. unfold bind at 1, gets.
  destruct (Z.eqb_spec (dk_used_idx (v_disk s)) (used_ring_idx (v_disk s))) as [He|He].
  { exfalso. apply Hno. unfold no_errors, usedq. by rewrite (proj2 (used_queue_empty (used_ring (v_disk s)) _ _ Ik Iu) He). }
  destruct (rinv_acked s v R HI He) as (t & r & Hr & Eb & Eq & HI'). rewrite (intr_head s v R HI He) in Hno.
  set (id := nthZ 0 (used_ring (v_disk s)) (dk_used_idx (v_disk s) mod NUM)) in *.
  destruct (Z.eqb_spec (nthZ 0 (dk_info_status (v_disk s)) id) 0) as [Est|Est]; [|done]. cbn [negb].
  rewrite Eb. unfold bind, modify, wakeup. change (on_disk _ (on_bc _ s)) with (acked s (r_b r)). apply IH; [by apply HI'| |rewrite Eq in Hl; cbn [length] in Hl; lia].
  intros Hn. apply Hno. split; [done|]. intros b. exact Hn.
Qed.

Lemma usedq_num s v R : rinv s v R -> (length (usedq (v_disk s)) <= Z.to_nat NUM)%nat.
Proof.
  intros HI. etrans; [|apply (NoDup_descs (inflight (v_disk s) v)); [apply HI|intros i; by eapply inflight_range]].
  unfold inflight. rewrite !length_app. cbn. lia.
Qed.

Lemma wp_intr rd s v R :
  rinv s v R -> no_errors (v_disk s) ->
  wp (virtio_disk_intr rd) vctx s (fun _ c' s' => rinv s' v R /\
    dk_free (v_disk s') = dk_free (v_disk s) /\ busy_or_woken R s s' c' /\
    usedq (v_disk s') = [] /\ availq (v_disk s') v = availq (v_disk s) v).
Proof.
  intros HI Hno. apply wp_bind, wp_acquire; [apply not_elem_of_nil|]. apply wp_bind, wp_gets, wp_bind, wp_modify, wp_bind.
  eapply wp_mono; [apply (wp_intr_loop _ _ _ v R (rinv_regs s v R _ HI) Hno), (usedq_num _ _ _ HI)|].
  cbn. intros _ c' s' (Hh & _ & HI' & Hf & Hb & Hq). by apply (wp_release _ _ vctx); [|apply not_elem_of_nil|].
Qed.

Lemma intr_panics rd s v R :
  rinv s v R -> ~ no_errors (v_disk s) -> virtio_disk_intr rd vctx s = Panic "virtio_disk_intr status".
Proof.
  intros HI Hno. unfold virtio_disk_intr, bind at 1, acquire, vctx. cbn [held]. rewrite decide_False by apply not_elem_of_nil.
  unfold bind at 1, gets, bind at 1, wreg, modify. unfold bind. by rewrite (intr_loop_panics _ _ _ v R (rinv_regs s v R _ HI) Hno (usedq_num _ _ _ HI)).
Qed.

(** A run of the handler that returns met no error. *)
Lemma intr_ok rd s v R u c' s' : rinv s v R -> virtio_disk_intr rd vctx s = Ok u c' s' -> no_errors (v_disk s).
Proof. intros HI Hrun. destruct (decide (no_errors (v_disk s))) as [|Hn]; [done|]. by rewrite (intr_panics rd s v R HI Hn) in Hrun. Qed.

(** [rw_wait] once the request is submitted: it sleeps, or frees the chain and returns. *)
Lemma wp_rw_wait_busy r h s c (Q : rwres -> ctx -> vst -> Prop) :
  busy_of s (r_b r) = true -> held c = [LK_vdisk] -> Q (RwWait h) (Ctx [] (wakes c) (mypid c)) s ->
  wp (rw_wait (r_b r) h) c s Q.
Proof.
  intros Hb Hh HQ. apply wp_bind, wp_gets. unfold busy_of in Hb. rewrite Hb.
  apply wp_bind, (wp_release _ _ vctx); [done|apply not_elem_of_nil|]. by apply wp_ret.
Qed.

Lemma wp_free_chain f i x c s (Q : unit -> ctx -> vst -> Prop) :
  descat (v_disk s) i = x -> 0 <= i < NUM -> nthZ false (dk_free (v_disk s)) i = false ->
  (let c' := Ctx (held c) (CH_disk_free :: wakes c) (mypid c) in
   let s' := on_disk (set_free i true) (on_disk (set_desc i desc0) s) in
   if negb (Z.land (d_flags x) VRING_DESC_F_NEXT =? 0) then wp (free_chain f (d_next x)) c' s' Q else Q tt c' s') ->
  wp (free_chain (S f) i) c s Q.
Proof.
  intros E Hi Hf HQ. cbn [free_chain]. apply wp_bind, wp_gets, wp_bind, wp_free_desc; [done|done|].
  rewrite E. destruct (negb _); [done|by apply wp_ret].
Qed.

Lemma wp_rw_wait_done r h s v R t c (Q : rwres -> ctx -> vst -> Prop) :
  rinv s v R -> R !! t = Some r -> r_head r = Some h -> busy_of s (r_b r) = false -> held c = [LK_vdisk] ->
  (forall i1 i2 c', chain (v_disk s) h = [h; i1; i2] -> CH_disk_free ∈ wakes c' -> Q RwDone c' (released s h i1 i2)) ->
  wp (rw_wait (r_b r) h) c s Q.
Proof.
  intros HI Hr Hh Hb Hc HQ. destruct (ro_req _ _ _ (vi_rq _ _ _ HI t r Hr) h Hh) as (Hreq & _ & _).
  destruct (request_chain _ _ _ Hreq) as (j1 & j2 & Ec & Hnd & _).
  assert (Hfr : forall i, i ∈ chain (v_disk s) h -> nthZ false (dk_free (v_disk s)) i = false).
  { intros i Hi. apply (vi_free _ _ _ HI); [by eapply rq_range|]. by exists t, r, h. }
  destruct Hreq as (i1 & i2 & R0 & R1 & R2 & _ & D0 & D1 & D2 & _).
  assert (j1 = i1 /\ j2 = i2) as [-> ->].
  { unfold chain in Ec. rewrite D0 in Ec. cbn in Ec. rewrite D1 in Ec. by simplify_eq. }
  rewrite Ec in Hfr. assert (F0 := Hfr h ltac:(set_solver)). assert (F1 := Hfr i1 ltac:(set_solver)).
  assert (F2 := Hfr i2 ltac:(set_solver)).
  assert (Hne : h <> i1 /\ h <> i2 /\ i1 <> i2) by (rewrite !NoDup_cons in Hnd; set_solver).
  destruct Hne as (N01 & N02 & N12).
  unfold rw_wait. apply wp_bind, wp_gets. unfold busy_of in Hb. rewrite Hb.
  apply wp_bind, wp_modify, wp_bind. change (Z.to_nat NUM) with (S (S (S 5))).
  eapply wp_free_chain; [exact D0|done|exact F0|]. cbn [d_flags d_next].
  change (negb _) with true. cbv iota.
  eapply wp_free_chain; [|done| |].
  { unfold descat. cbn. rewrite nthZ_setZ_ne; [exact D1|lia|lia|done]. }
  { cbn. rewrite nthZ_setZ_ne; [done|lia|lia|done]. }
  cbn [d_flags d_next]. replace (negb _) with true by (by destruct (r_write r)).
  eapply wp_free_chain; [|done| |].
  { unfold descat. cbn. rewrite !nthZ_setZ_ne; [exact D2|lia..|done|lia|lia|done]. }
  { cbn. rewrite !nthZ_setZ_ne; [done|lia..|done|lia|lia|done]. }
  cbn [d_flags]. change (negb _) with false. cbv iota.
  apply wp_bind, (wp_release _ _ vctx); [done|apply not_elem_of_nil|]. apply wp_ret.
  apply (HQ i1 i2); [done|]. by left.
Qed.

Lemma wp_submit r s c i0 i1 i2 (Q : unit -> ctx -> vst -> Prop) :
  0 <= blockno_of s (r_b r) < 2 ^ 31 ->
  Q tt c (submitted s r i0 i1 i2) ->
  wp (submit (r_b r) (r_write r) (i0, i1, i2)) c
    (on_disk (fun d => set_free i2 false (set_free i1 false (set_free i0 false d))) s) Q.
Proof.
  intros Hb HQ. unfold submit, wreg. apply wp_bind, wp_gets.
  replace (u32 _) with (2 * blockno_of s (r_b r)).
  2: { unfold blockno_of in *. cbn. change (BSIZE / 512) with 2. rewrite u32_small; lia. }
  repeat apply wp_bind, wp_modify. apply wp_modify. exact HQ.
Qed.

Lemma wp_try s v R t r :
  rinv s v R -> R !! t = Some r -> r_head r = None ->
  wp (virtio_disk_rw_try (r_b r) (r_write r)) vctx s (fun x c' s' =>
    (x = RwNoDesc /\ (nfree (v_disk s) < 3)%nat /\ idle_desc s s') \/
    (exists i0 i1 i2, x = RwWait i0 /\
       Forall (fun i => 0 <= i < NUM /\ nthZ false (dk_free (v_disk s)) i = true) [i0; i1; i2] /\
       NoDup [i0; i1; i2] /\ s' = submitted s r i0 i1 i2)).
Proof.
  intros HI Hr Hn. pose proof (vi_wf _ _ _ HI) as Hwf.
  apply wp_bind, wp_acquire; [apply not_elem_of_nil|].
  apply wp_bind, wp_alloc3_desc; [apply Hwf|apply Hwf| |].
  - intros i0 i1 i2 HF HN. apply wp_bind, wp_submit; [apply (vi_rq _ _ _ HI t r Hr)|].
    apply wp_rw_wait_busy; [|done|].
    + destruct (sub_buf s v R t r i0 i1 i2 HI Hr Hn t r Hr) as (_ & _ & ->). by rewrite decide_True.
    + right. exists i0, i1, i2. done.
  - intros c' s' Hf Hh _ Hi. apply wp_bind, (wp_release _ _ vctx); [done|apply not_elem_of_nil|].
    apply wp_ret. by left.
Qed.

Lemma wp_resume s v R t r h :
  rinv s v R -> R !! t = Some r -> r_head r = Some h ->
  wp (virtio_disk_rw_resume (r_b r) h) vctx s (fun x c' s' =>
    (x = RwWait h /\ s' = s /\ busy_of s (r_b r) = true) \/
    (exists i1 i2, x = RwDone /\ busy_of s (r_b r) = false /\ CH_disk_free ∈ wakes c' /\
       chain (v_disk s) h = [h; i1; i2] /\ s' = released s h i1 i2)).
Proof.
  intros HI Hr Hh. apply wp_bind, wp_acquire; [apply not_elem_of_nil|].
  destruct (busy_of s (r_b r)) eqn:Hb.
  - apply wp_rw_wait_busy; [done|done|]. by left.
  - eapply wp_rw_wait_done; [done..|]. intros i1 i2 c' Ec Hw. right. by exists i1, i2.
Qed.
End routines.

(** ** Reachable states *)

Definition disk_fresh (d0 : disk) : disk :=
  Disk (replicate (Z.to_nat NUM) desc0) 0 (replicate (Z.to_nat NUM) 0) 0 (replicate (Z.to_nat NUM) 0)
    (replicate (Z.to_nat NUM) true) (dk_used_idx d0) (dk_info_b d0) (dk_info_status d0) (dk_ops d0).

Section init.
Implicit Types (x y : mach * vst) (D : disk) (B : bcache).

Definition keeps {A} (m : M (mach * vst) A) : Prop := forall x,
  post m x (fun _ y => v_disk (snd y) = v_disk (snd x) /\ v_bc (snd y) = v_bc (snd x)).

Lemma keeps_vmop {A} (m : M mach A) : keeps (vmop m).
Proof. intros x c a c' s' H. unfold vmop, zoom in H. destruct (m _ _); by simplify_eq. Qed.
Lemma keeps_reg {A} (f : vst -> A) : keeps (vdop (gets f)).
Proof. intros x c a c' s' H. unfold vdop, zoom, gets in H. by simplify_eq. Qed.
Lemma keeps_wreg r w : keeps (vdop (wreg r w)).
Proof. intros x c a c' s' H. unfold vdop, zoom, wreg, modify in H. by simplify_eq. Qed.

(** A step that leaves the driver's state and the buffers alone, and one that does not. *)
Lemma post_keeps {A C} (m : M (mach * vst) A) (k : A -> M (mach * vst) C) x Q D B :
  keeps m -> v_disk (snd x) = D -> v_bc (snd x) = B ->
  (forall a y, v_disk (snd y) = D -> v_bc (snd y) = B -> post (k a) y Q) -> post (bind m k) x Q.
Proof.
  intros Hm Hd Hb Hk. apply post_bind. eapply post_mono; [apply Hm|]. intros a y [E1 E2]. apply Hk; congruence.
Qed.
Lemma post_on_disk {C} f (k : unit -> M (mach * vst) C) x Q D B :
  v_disk (snd x) = D -> v_bc (snd x) = B ->
  (forall y, v_disk (snd y) = f D -> v_bc (snd y) = B -> post (k tt) y Q) -> post (bind (vdop (modify (on_disk f))) k) x Q.
Proof.
  intros Hd Hb Hk. apply post_bind. intros c a c' s' H. unfold vdop, zoom, modify in H. simplify_eq.
  by apply Hk.
Qed.

Ltac init_step :=
  lazymatch goal with
  | |- post (bind (vdop (gets _)) _) _ _ => eapply (post_keeps _ _ _ _ _ _ (keeps_reg _)); [eassumption..|]; intros ? ? ? ?
  | |- post (bind (vdop (wreg _ _)) _) _ _ => eapply (post_keeps _ _ _ _ _ _ (keeps_wreg _ _)); [eassumption..|]; intros ? ? ? ?
  | |- post (bind (vmop _) _) _ _ => eapply (post_keeps _ _ _ _ _ _ (keeps_vmop _)); [eassumption..|]; intros ? ? ? ?
  | |- post (bind (zero_page _) _) _ _ => eapply (post_keeps _ _ _ _ _ _ (keeps_vmop _)); [eassumption..|]; intros ? ? ? ?
  | |- post (panic _) _ _ => apply post_panic
  | |- post (if ?b then _ else _) _ _ => destruct b
  end.

Lemma set_all_free l : length l = Z.to_nat NUM ->
  fold_left (fun l i => setZ l i true) (upto NUM) l = replicate (Z.to_nat NUM) true.
Proof.
  intros Hl. do 8 (destruct l as [|? l]; [done|]). by destruct l.
Qed.

Lemma post_set_all_free {C} (k : unit -> M (mach * vst) C) l x Q D B :
  v_disk (snd x) = D -> v_bc (snd x) = B ->
  (forall y, v_disk (snd y) = fold_left (fun d i => set_free i true d) l D -> v_bc (snd y) = B -> post (k tt) y Q) ->
  post (bind (mfor l (fun i => vdop (modify (on_disk (set_free i true))))) k) x Q.
Proof.
  intros Hd Hb Hk. apply post_bind.
  apply (post_mfor (fun l' y => fold_left (fun d i => set_free i true d) l' (v_disk (snd y)) =
    fold_left (fun d i => set_free i true d) l D /\ v_bc (snd y) = B)).
  - by rewrite Hd.
  - intros i l' y [E1 E2] c a c' s' H. unfold vdop, zoom, modify in H. by simplify_eq.
  - intros y [E1 E2]. by apply Hk.
Qed.

Lemma virtio_disk_init_post rd k s0 :
  length (dk_free (v_disk s0)) = Z.to_nat NUM ->
  post (virtio_disk_init rd) (k, s0) (fun _ x => v_disk (snd x) = disk_fresh (v_disk s0) /\ v_bc (snd x) = v_bc s0).
Proof.
  intros Hl. assert (Hd : v_disk (snd (k, s0)) = v_disk s0) by done. assert (Hb : v_bc (snd (k, s0)) = v_bc s0) by done.
  revert Hd Hb Hl. generalize (v_disk s0) (v_bc s0) (k, s0). intros D B x Hd Hb Hl. unfold virtio_disk_init.
  repeat init_step.
  eapply post_on_disk; [eassumption..|]. intros yd Hyd Hyb. repeat init_step.
  eapply post_set_all_free; [eassumption..|]. intros z Hzd Hzb. eapply post_mono; [apply keeps_wreg|].
  cbn beta. intros _ w [-> ->]. split; [|done]. rewrite Hzd. unfold disk_fresh.
  rewrite <- (set_all_free _ Hl). reflexivity.
Qed.
End init.

Lemma vinv_start rd m : vstart rd m -> vinv m.
Proof.
  destruct m as [s v T]. intros (k0 & s0 & c' & k1 & Hrun & Hf & Hi & Hs & Ho & Hu & Hb & Ev & ET).
  cbn in Ev, ET. subst v T. destruct (virtio_disk_init_post rd k0 s0 Hf _ _ _ _ Hrun) as [Ed Eb]. cbn in Ed, Eb.
  split; [|done]. cbn [m_st m_dev m_th]. rewrite fmap_empty.
  assert (Hq : inflight (v_disk s) (Dev 0 []) = []) by (rewrite Ed; unfold inflight, availq, usedq; cbn; by rewrite Hu).
  split; try done; try (rewrite Hq; by constructor).
  - rewrite Ed. split; try done. cbn. rewrite Hu. lia.
  - congruence.
  - intros i Hi'. rewrite Ed. cbn. split.
    + unfold nthZ. rewrite nth_lookup, lookup_replicate_2; [done|]. unfold NUM in *. lia.
    + intros (? & ? & ? & Hl & _). by rewrite lookup_empty in Hl.
  - intros h. rewrite Hq. by intros ?%not_elem_of_nil.
Qed.

Section steps.
Implicit Types (T : gmap Z thread) (m : vm).

Lemma rq_wake ws T : t_rq <$> (wake ws <$> T) = t_rq <$> T.
Proof. rewrite <- map_fmap_compose. by apply map_fmap_ext. Qed.

Lemma lookup_rq T t th : T !! t = Some th -> (t_rq <$> T) !! t = Some (t_rq th).
Proof. intros H. by rewrite lookup_fmap, H. Qed.

Lemma lookup_rq_inv T t r : (t_rq <$> T) !! t = Some r -> exists th, T !! t = Some th /\ r = t_rq th.
Proof. rewrite lookup_fmap. intros (th & -> & ?)%fmap_Some. eauto. Qed.

Lemma rq_settle x r ws t T :
  t_rq <$> partial_alter (fun _ => settle x r) t (wake ws <$> T) =
    match settle x r with Some th => <[t := t_rq th]> (t_rq <$> T) | None => delete t (t_rq <$> T) end.
Proof.
  destruct (settle x r) as [th|].
  - change (partial_alter _ t ?T') with (<[t := th]> T'). by rewrite fmap_insert, rq_wake.
  - change (partial_alter _ t ?T') with (delete t T'). by rewrite fmap_delete, rq_wake.
Qed.

(** The other threads of a table after a step, woken or not. *)
Lemma lookup_settle x r ws t T t1 th1 :
  partial_alter (fun _ => settle x r) t (wake ws <$> T) !! t1 = Some th1 ->
  (t1 = t /\ settle x r = Some th1) \/ (t1 <> t /\ exists th, T !! t1 = Some th /\ th1 = wake ws th).
Proof.
  destruct (decide (t1 = t)) as [->|Hne].
  - rewrite lookup_partial_alter_eq. auto.
  - rewrite lookup_partial_alter_ne, lookup_fmap by done. intros (th & -> & ->)%fmap_Some. eauto.
Qed.

(** A thread that is not woken still has a reason to sleep. *)
Lemma sleep_ok_wake s s' ws th :
  sleep_ok s th ->
  ((nfree (v_disk s) < 3)%nat -> (nfree (v_disk s') < 3)%nat \/ CH_disk_free ∈ ws) ->
  (is_Some (r_head (t_rq th)) -> busy_of s (r_b (t_rq th)) = true ->
     busy_of s' (r_b (t_rq th)) = true \/ CH_buf (r_b (t_rq th)) ∈ ws) ->
  sleep_ok s' (wake ws th).
Proof.
  unfold sleep_ok, wake. cbn. destruct (t_sleep th) as [ch|]; [|done]. intros Hs Hf Hb.
  case_decide as Hw; [done|].
  destruct Hs as [(-> & ? & Hn)|(-> & Hh & Hbusy)]; [left|right]; split_and!; try done.
  - destruct (Hf Hn); [done|contradiction].
  - destruct (Hb Hh Hbusy); [done|contradiction].
Qed.

Lemma vinv_call m t b write :
  vinv m -> m_th m !! t = None -> 0 <= b < NBUF -> 0 <= blockno_of (m_st m) b < 2 ^ 31 ->
  (forall t' th, m_th m !! t' = Some th ->
     r_b (t_rq th) <> b /\ blockno_of (m_st m) (r_b (t_rq th)) <> blockno_of (m_st m) b) ->
  vinv (Vm (m_st m) (m_dev m) (<[t := Th (called (m_st m) b write) None]> (m_th m))).
Proof.
  intros [HI Hs] Ht Hb Hbn Hx. split; cbn [m_st m_dev m_th].
  - rewrite fmap_insert. apply rinv_call; try done; [by rewrite lookup_fmap, Ht|].
    intros t' r (th & Hth & ->)%lookup_rq_inv. eauto.
  - intros t' th [[-> <-]|[? Hth]]%lookup_insert_Some; [done|eauto].
Qed.

Lemma vinv_dev m s' v' : vinv m -> dev_allowed (m_st m, m_dev m) (s', v') -> vinv (Vm s' v' (m_th m)).
Proof.
  intros [HI Hs] Hd. inversion Hd as [s v Hne|s v h l1 l2 s1 Hp Hsv]; subst.
  - split; [by apply rinv_take|done].
  - split; cbn [m_st m_dev m_th]; [by eapply rinv_finish|]. intros t th Hth.
    pose proof (Hs t th Hth) as Hok. unfold sleep_ok in *. destruct (t_sleep th) as [ch|]; [|done].
    assert (Hin : h ∈ inflight (v_disk (m_st m)) (m_dev m)) by (unfold inflight; rewrite Hp, !elem_of_app; set_solver).
    destruct (vi_owner _ _ _ HI h Hin) as (t0 & r & Hr & Hh).
    destruct (ro_req _ _ _ (vi_rq _ _ _ HI t0 r Hr) h Hh) as (Hreq & _).
    destruct (served_request _ _ _ _ Hreq Hsv) as (st & x & _ & ->). unfold busy_of. cbn [v_bc v_disk].
    rewrite (transfer_bufat _ _ _ t t0 _ r x HI (lookup_rq _ _ _ Hth) Hr).
    assert (bufat (v_bc (m_st m)) (r_b r) = bufat (v_bc (m_st m)) (r_b (t_rq th)) \/ t <> t0) as Hc.
    { destruct (decide (t = t0)) as [->|]; [left|by right]. apply lookup_rq in Hth. congruence. }
    case_decide as E; [|exact Hok]. destruct Hc as [->|]; [|done]. by destruct (r_write r).
Qed.

Lemma vinv_try m t r x c' s' :
  vinv m -> m_th m !! t = Some (Th r None) -> r_head r = None ->
  virtio_disk_rw_try (r_b r) (r_write r) vctx (m_st m) = Ok x c' s' ->
  vinv (Vm s' (m_dev m) (partial_alter (fun _ => settle x r) t (wake (wakes c') <$> m_th m))).
Proof.
  intros [HI Hs] Ht Hn Hrun. pose proof (lookup_rq _ _ _ Ht) as Hr. cbn in Hr.
  destruct (wp_try _ _ _ _ _ HI Hr Hn) as (x1 & c1 & s1 & Hrun1 & Hpost).
  rewrite Hrun in Hrun1. injection Hrun1 as <- <- <-. split; cbn [m_st m_dev m_th].
  - rewrite rq_settle. destruct Hpost as [(-> & _ & Hid)|(i0 & i1 & i2 & -> & HF & HN & ->)]; cbn.
    + rewrite insert_id by done. by eapply rinv_idle.
    + by apply rinv_submit.
  - intros t1 th1 [[-> E]|[Hne (th & Hth & ->)]]%lookup_settle.
    + destruct Hpost as [(-> & Hf & (ds & Ed & _))|(i0 & i1 & i2 & -> & HF & HN & ->)]; cbn in E; injection E as <-.
      * left. rewrite Ed. done.
      * right. cbn. split_and!; [done|done|].
        destruct (sub_buf _ _ _ _ _ i0 i1 i2 HI Hr Hn t r Hr) as (_ & _ & ->). by rewrite decide_True.
    + apply (sleep_ok_wake (m_st m)); [by eapply Hs| |].
      all: destruct Hpost as [(-> & _ & (ds & Ed & _ & Ebc & _))|(i0 & i1 & i2 & -> & HF & HN & ->)].
      * rewrite Ed. cbn. by left.
      * left. eapply Nat.le_lt_trans; [|done]. cbn. unfold nfree. cbn. by rewrite !count_clear.
      * intros _ Hbusy. left. unfold busy_of in *. by rewrite Ebc.
      * intros _ Hbusy. left.
        destruct (sub_buf _ _ _ _ _ i0 i1 i2 HI Hr Hn t1 _ (lookup_rq _ _ _ Hth)) as (_ & _ & ->). by rewrite decide_False.
Qed.

Lemma vinv_resume m t r h x c' s' :
  vinv m -> m_th m !! t = Some (Th r None) -> r_head r = Some h ->
  virtio_disk_rw_resume (r_b r) h vctx (m_st m) = Ok x c' s' ->
  vinv (Vm s' (m_dev m) (partial_alter (fun _ => settle x r) t (wake (wakes c') <$> m_th m))).
Proof.
  intros [HI Hs] Ht Hh Hrun. pose proof (lookup_rq _ _ _ Ht) as Hr. cbn in Hr.
  destruct (wp_resume _ _ _ _ _ _ HI Hr Hh) as (x1 & c1 & s1 & Hrun1 & Hpost).
  rewrite Hrun in Hrun1. injection Hrun1 as <- <- <-. split; cbn [m_st m_dev m_th].
  - rewrite rq_settle. destruct Hpost as [(-> & -> & _)|(i1 & i2 & -> & Hb & _ & Ec & ->)]; cbn.
    + assert (set_head h r = r) as -> by (destruct r; cbn in *; by rewrite Hh). by rewrite insert_id.
    + by eapply rinv_released.
  - intros t1 th1 [[-> E]|[Hne (th & Hth & ->)]]%lookup_settle.
    + destruct Hpost as [(-> & -> & Hb)|(i1 & i2 & -> & _)]; cbn in E; [|done]. injection E as <-. by right.
    + apply (sleep_ok_wake (m_st m)); [by eapply Hs| |].
      all: destruct Hpost as [(-> & -> & Hb)|(i1 & i2 & -> & Hb & Hw & Ec & ->)]; auto.
Qed.

Lemma vinv_intr rd m u c' s' :
  vinv m -> virtio_disk_intr rd vctx (m_st m) = Ok u c' s' ->
  vinv (Vm s' (m_dev m) (wake (wakes c') <$> m_th m)).
Proof.
  intros [HI Hs] Hrun. destruct (wp_intr rd _ _ _ HI (intr_ok _ _ _ _ _ _ _ HI Hrun)) as (x1 & c1 & s1 & Hrun1 & HI' & Hf & Hb & _).
  rewrite Hrun in Hrun1. injection Hrun1 as _ <- <-. split; cbn [m_st m_dev m_th].
  - by rewrite rq_wake.
  - intros t th1. rewrite lookup_fmap. intros (th & Hth & ->)%fmap_Some.
    apply (sleep_ok_wake (m_st m)); [by eapply Hs| |].
    + unfold nfree. rewrite Hf. by left.
    + intros _. by eapply Hb, lookup_rq.
Qed.

Section machine.
Variable rd : list (Z * Z) -> Z -> Z.
Variable dev_step : vst * dev -> vst * dev -> Prop.
Hypothesis dev_ok : forall x y, dev_step x y -> dev_allowed x y.

Lemma vinv_step m m' : vstep rd dev_step m m' -> vinv m -> vinv m'.
Proof.
  intros Hstep HV. destruct Hstep as [| m bc' Hl Hp Hb | | | m t th Ht | | ].
  - by apply vinv_call.
  - destruct HV as [HI Hs]. split; cbn [m_st m_dev m_th].
    + apply rinv_other; try done. intros t r (th & Hth & ->)%lookup_rq_inv. eauto.
    + intros t th Hth. pose proof (Hs t th Hth) as Hok. unfold sleep_ok, busy_of in *. cbn.
      by rewrite (Hb t th Hth).
  - by eapply vinv_try.
  - by eapply vinv_resume.
  - destruct HV as [HI Hs]. split; cbn [m_st m_dev m_th].
    + rewrite fmap_insert. cbn. by rewrite insert_id by by apply lookup_rq.
    + intros t' th' [[-> <-]|[? Hth]]%lookup_insert_Some; [done|eauto].
  - by eapply vinv_intr.
  - apply vinv_dev; [done|]. by apply dev_ok.
Qed.

Lemma vreach_vinv m : vreach rd dev_step m -> vinv m.
Proof. intros (m0 & H0 & Hr). eapply (rtc_preserves vinv); [apply vinv_step|exact Hr|]. by eapply vinv_start. Qed.
End machine.
End steps.

(** ** Properties *)

Lemma count_all_true l : (count l < length l)%nat -> exists i, 0 <= i < Z.of_nat (length l) /\ nthZ false l i = false.
Proof.
  induction l as [|f l IH]; cbn; [lia|]. destruct f; cbn.
  - intros Hl. destruct IH as (i & Hi & E); [lia|]. exists (i + 1). split; [lia|].
    unfold nthZ in *. by replace (Z.to_nat (i + 1)) with (S (Z.to_nat i)) by lia.
  - intros _. exists 0. split; [lia|done].
Qed.

(** A chain whose completion the device has announced: the interrupt wakes its thread. *)
Lemma intr_wakes rd s v R t r h c' s' u :
  rinv s v R -> R !! t = Some r -> r_head r = Some h -> h ∈ usedq (v_disk s) ->
  virtio_disk_intr rd vctx s = Ok u c' s' -> CH_buf (r_b r) ∈ wakes c'.
Proof.
  intros HI Hr Hh Hu Hrun. destruct (wp_intr rd _ _ _ HI (intr_ok _ _ _ _ _ _ _ HI Hrun)) as (x1 & c1 & s1 & Hrun1 & HI' & Hf & Hb & Hq & Ha).
  rewrite Hrun in Hrun1. injection Hrun1 as _ <- <-.
  assert (Hbusy : busy_of s (r_b r) = true)
    by (apply (ro_req _ _ _ (vi_rq _ _ _ HI t r Hr) h Hh); by apply usedq_inflight).
  destruct (Hb t r Hr Hbusy) as [Hbusy'|]; [|done]. exfalso.
  apply (ro_req _ _ _ (vi_rq _ _ _ HI' t r Hr) h Hh) in Hbusy'.
  unfold inflight in Hbusy'. rewrite Hq, Ha, app_nil_r in Hbusy'.
  pose proof (vi_nodup _ _ _ HI) as Hnd. unfold inflight in Hnd. rewrite app_assoc in Hnd.
  apply NoDup_app in Hnd as (_ & Hd & _). by apply (Hd h).
Qed.

(** C26: [virtio_disk_rw] moves the block: whenever a call returns, in any interleaving
    of calls, interrupts and device steps, the buffer's data and the block on the disk
    both are what they have to be: the data that the buffer held at the call if it
    writes, the block that the disk held at the call if it reads.  The device serves a
    chain as specified only if its descriptors have the lengths and directions that the
    specification asks for; a call whose request the device fails never returns. *)
Theorem virtio_disk_rw_moves rd dev_step m t r h c' s' :
  (forall x y, dev_step x y -> dev_allowed x y) -> vreach rd dev_step m ->
  m_th m !! t = Some (Th r None) -> r_head r = Some h ->
  virtio_disk_rw_resume (r_b r) h vctx (m_st m) = Ok RwDone c' s' ->
  data_of s' (r_b r) = r_old r /\ blk (v_bc s') (blockno_of s' (r_b r)) = r_old r.
Proof.
  intros Hdev Hreach Ht Hh Hrun. destruct (vreach_vinv rd dev_step Hdev m Hreach) as [HI _].
  pose proof (lookup_rq _ _ _ Ht) as Hr. cbn in Hr.
  destruct (wp_resume _ _ _ _ _ _ HI Hr Hh) as (x1 & c1 & s1 & Hrun1 & Hpost).
  rewrite Hrun in Hrun1. injection Hrun1 as <- <- <-.
  destruct Hpost as [(? & _)|(i1 & i2 & _ & Hb & _ & _ & ->)]; [done|].
  pose proof (ro_src _ _ _ (vi_rq _ _ _ HI t r Hr)) as Hsrc.
  destruct (ro_req _ _ _ (vi_rq _ _ _ HI t r Hr) h Hh) as (_ & _ & Hm).
  specialize (Hm (or_intror Hb)). unfold moved in Hm. by destruct (r_write r).
Qed.

(** C27: The driver panics only for an error of the device, and never loses a descriptor:
    in every reachable state the interrupt handler returns if no finished request has an
    error status, and otherwise panics as it is meant to; the next part of every call
    returns (none of the checks of [free_desc] fails, no loop runs out of entries), and a
    descriptor is marked in use exactly if it belongs to the chain of a call, which is
    then the only such call. *)
Theorem virtio_driver_safe rd dev_step m :
  (forall x y, dev_step x y -> dev_allowed x y) -> vreach rd dev_step m ->
  (if decide (no_errors (v_disk (m_st m))) then exists c' s', virtio_disk_intr rd vctx (m_st m) = Ok tt c' s'
   else virtio_disk_intr rd vctx (m_st m) = Panic "virtio_disk_intr status") /\
  (forall t th, m_th m !! t = Some th ->
     exists x c' s', match r_head (t_rq th) with
       | None => virtio_disk_rw_try (r_b (t_rq th)) (r_write (t_rq th)) vctx (m_st m)
       | Some h => virtio_disk_rw_resume (r_b (t_rq th)) h vctx (m_st m)
       end = Ok x c' s') /\
  (forall i, 0 <= i < NUM -> nthZ false (dk_free (v_disk (m_st m))) i = false <->
     exists t th h, m_th m !! t = Some th /\ r_head (t_rq th) = Some h /\ i ∈ chain (v_disk (m_st m)) h) /\
  (forall t1 t2 th1 th2 h1 h2 i, m_th m !! t1 = Some th1 -> m_th m !! t2 = Some th2 ->
     r_head (t_rq th1) = Some h1 -> r_head (t_rq th2) = Some h2 ->
     i ∈ chain (v_disk (m_st m)) h1 -> i ∈ chain (v_disk (m_st m)) h2 -> t1 = t2).
Proof.
  intros Hdev Hreach. destruct (vreach_vinv rd dev_step Hdev m Hreach) as [HI _]. split_and!.
  - case_decide as Hno; [|by apply (intr_panics rd _ _ _ HI)]. destruct (wp_intr rd _ _ _ HI Hno) as ([] & c1 & s1 & Hrun & _). eauto.
  - intros t th Ht. pose proof (lookup_rq _ _ _ Ht) as Hr. destruct (r_head (t_rq th)) as [h|] eqn:Hh.
    + destruct (wp_resume _ _ _ _ _ _ HI Hr Hh) as (x & c1 & s1 & Hrun & _). eauto.
    + destruct (wp_try _ _ _ _ _ HI Hr Hh) as (x & c1 & s1 & Hrun & _). eauto.
  - intros i Hi. rewrite (vi_free _ _ _ HI i Hi). split.
    + intros (t & r & h & (th & Hth & ->)%lookup_rq_inv & ? & ?). by exists t, th, h.
    + intros (t & th & h & Hth & ? & ?). exists t, (t_rq th), h. split; [by apply lookup_rq|done].
  - intros t1 t2 th1 th2 h1 h2 i H1 H2 E1 E2 Hi1 Hi2. destruct (decide (t1 = t2)) as [|Hne]; [done|].
    exfalso. by eapply (vi_disj _ _ _ HI t1 t2); [apply lookup_rq..| | | | |].
Qed.

(** C28: No thread sleeps in vain: a thread asleep in [virtio_disk_rw] waits either for
    descriptors that other calls hold, or for its own request, which is in the
    available ring, with the device, or in the used ring; in the last case the
    interrupt handler wakes the thread, if no request has failed, on which it panics. *)
Theorem virtio_no_lost_wakeup rd dev_step m t th ch :
  (forall x y, dev_step x y -> dev_allowed x y) -> vreach rd dev_step m ->
  m_th m !! t = Some th -> t_sleep th = Some ch ->
  (ch = CH_disk_free /\ exists t' th' h, m_th m !! t' = Some th' /\ r_head (t_rq th') = Some h) \/
  (exists h, ch = CH_buf (r_b (t_rq th)) /\ r_head (t_rq th) = Some h /\
     (h ∈ availq (v_disk (m_st m)) (m_dev m) \/ h ∈ dv_pending (m_dev m) \/
      h ∈ usedq (v_disk (m_st m)) /\
        forall u c' s', virtio_disk_intr rd vctx (m_st m) = Ok u c' s' -> ch ∈ wakes c')).
Proof.
  intros Hdev Hreach Ht Hsl. destruct (vreach_vinv rd dev_step Hdev m Hreach) as [HI Hs].
  pose proof (Hs t th Ht) as Hok. unfold sleep_ok in Hok. rewrite Hsl in Hok.
  destruct Hok as [(-> & _ & Hf)|(-> & [h Hh] & Hb)]; [left|right].
  - split; [done|]. assert (Hl := dw_free _ _ (vi_wf _ _ _ HI)).
    destruct (count_all_true (dk_free (v_disk (m_st m)))) as (i & Hi & E); [rewrite Hl; unfold nfree in Hf; change (Z.to_nat NUM) with 8%nat; lia|].
    assert (Hi' : 0 <= i < NUM) by (rewrite Hl in Hi; unfold NUM in *; lia).
    apply (proj1 (vi_free _ _ _ HI i Hi')) in E as (t' & r & h & (th' & Hth' & ->)%lookup_rq_inv & ? & _).
    by exists t', th', h.
  - exists h. split_and!; [done|done|]. pose proof (lookup_rq _ _ _ Ht) as Hr.
    apply (ro_req _ _ _ (vi_rq _ _ _ HI t _ Hr) h Hh) in Hb. unfold inflight in Hb. rewrite !elem_of_app in Hb.
    destruct Hb as [|[|Hu]]; [auto|auto|]. right. right. split; [done|]. intros u c' s'. by apply (intr_wakes rd _ _ _ t _ h _ _ u HI Hr Hh Hu).
Qed.

(** ** Witnesses

    A compliant device that serves its chains in order, and a machine on which a thread
    writes buffer 3 to block 46. *)

Definition ex_rd (w : list (Z * Z)) (r : Z) : Z :=
  if r =? VIRTIO_MMIO_MAGIC_VALUE then 0x74726976
  else if r =? VIRTIO_MMIO_VERSION then 2
  else if r =? VIRTIO_MMIO_DEVICE_ID then 2
  else if r =? VIRTIO_MMIO_VENDOR_ID then 0x554d4551
  else if r =? VIRTIO_MMIO_STATUS then 11
  else if r =? VIRTIO_MMIO_QUEUE_NUM_MAX then 1024
  else 0.

Definition ex_dev : vst * dev -> vst * dev -> Prop := dev_allowed.

Lemma ex_dev_ok x y : ex_dev x y -> dev_allowed x y.
Proof. done. Qed.

Definition ex_bc : bcache :=
  Bcache (setZ (replicate (Z.to_nat (NBUF + 1)) buf0) 3 (Buf true false 1 46 initsleeplock 1 0 0 [7; 7; 7])) ∅ [].

Definition ex_disk0 : disk :=
  Disk [] 0 [] 0 [] (replicate 8 false) 0 (replicate 8 0) (replicate 8 0) (replicate 8 req0).

(** Three free pages, linked through their first words. *)
Definition ex_mach : mach :=
  let pa i := KERNBASE + i * PGSIZE in
  Mach (store64 (store64 (store64 ∅ (pa 1) (pa 2)) (pa 2) (pa 3)) (pa 3) 0) (pa 1).

Definition ex_s0 : vst := Vst ex_disk0 ex_bc [].
Definition ex_s1 : vst := Eval vm_compute in
  match virtio_disk_init ex_rd vctx (ex_mach, ex_s0) with Ok _ _ (_, s) => s | _ => ex_s0 end.
Definition ex_s2 : vst := Eval vm_compute in
  match virtio_disk_rw_try 3 true vctx ex_s1 with Ok _ _ s => s | _ => ex_s0 end.
Definition ex_s3 : vst := Eval vm_compute in
  Vst (set_used 1 (setZ (used_ring (v_disk ex_s2)) 0 0) (set_info_status 0 0 (v_disk ex_s2)))
    (Bcache (bufs (v_bc ex_s2)) {[46 := [7; 7; 7]]} [(46, [7; 7; 7])]) (v_regs ex_s2).
Definition ex_s4 : vst := Eval vm_compute in
  match virtio_disk_intr ex_rd vctx ex_s3 with Ok _ _ s => s | _ => ex_s0 end.

Definition ex_rq : rq := called ex_s1 3 true.
Definition ex_m0 : vm := Vm ex_s1 (Dev 0 []) ∅.
Definition ex_m1 : vm := Vm ex_s1 (Dev 0 []) (<[1 := Th ex_rq None]> ∅).
Definition ex_m2 : vm :=
  Vm ex_s2 (Dev 0 []) (partial_alter (fun _ => settle (RwWait 0) ex_rq) 1 (wake [] <$> m_th ex_m1)).
Definition ex_m3 : vm := Vm ex_s2 (Dev 1 [0]) (m_th ex_m2).
Definition ex_m4 : vm := Vm ex_s3 (Dev 1 []) (m_th ex_m3).
Definition ex_m5 : vm := Vm ex_s4 (Dev 1 []) (wake [CH_buf 3] <$> m_th ex_m4).

Lemma ex_start : vstart ex_rd ex_m0.
Proof.
  assert (Hrun : exists c' k, virtio_disk_init ex_rd vctx (ex_mach, ex_s0) = Ok tt c' (k, ex_s1)).
  { destruct (virtio_disk_init ex_rd vctx (ex_mach, ex_s0)) as [[] c' [k s]| |] eqn:E.
    - exists c', k. f_equal. f_equal.
      assert (H : match virtio_disk_init ex_rd vctx (ex_mach, ex_s0) with Ok _ _ (_, s) => s | _ => ex_s0 end = ex_s1)
        by (vm_compute; reflexivity).
      rewrite E in H. exact H.
    - exfalso. assert (H : match virtio_disk_init ex_rd vctx (ex_mach, ex_s0) with Ok _ _ _ => true | _ => false end = true)
        by (vm_compute; reflexivity). rewrite E in H. discriminate.
    - exfalso. assert (H : match virtio_disk_init ex_rd vctx (ex_mach, ex_s0) with Ok _ _ _ => true | _ => false end = true)
        by (vm_compute; reflexivity). rewrite E in H. discriminate. }
  destruct Hrun as (c' & k & Hrun). exists ex_mach, ex_s0, c', k. split; [exact Hrun|]. by split_and!.
Qed.

Lemma ex_steps3 : rtc (vstep ex_rd ex_dev) ex_m0 ex_m3.
Proof.
  apply rtc_l with ex_m1; [|apply rtc_l with ex_m2; [|apply rtc_l with ex_m3; [|done]]].
  - apply (vs_call ex_rd ex_dev ex_m0 1 3 true); [done|done|vm_compute; intuition congruence|].
    intros t' th Hl. change (m_th ex_m0) with (∅ : gmap Z thread) in Hl. by rewrite lookup_empty in Hl.
  - apply (vs_try ex_rd ex_dev ex_m1 1 ex_rq (RwWait 0) vctx ex_s2); [done|done|vm_compute; reflexivity].
  - apply (vs_dev ex_rd ex_dev ex_m2), (dev_take ex_s2 (Dev 0 [])). vm_compute. congruence.
Qed.

Lemma ex_steps : rtc (vstep ex_rd ex_dev) ex_m0 ex_m4 /\ vstep ex_rd ex_dev ex_m4 ex_m5.
Proof.
  split.
  - eapply rtc_r; [apply ex_steps3|].
    apply (vs_dev ex_rd ex_dev ex_m3), (dev_finish ex_s2 (Dev 1 [0]) 0 [] []); [done|]. exists VIRTIO_BLK_S_OK, [7; 7; 7]. split_and!; [by left|done|]. vm_compute. reflexivity.
  - apply (vs_intr ex_rd ex_dev ex_m4 tt (Ctx [] [CH_buf 3] 0) ex_s4). vm_compute. reflexivity.
Qed.

Lemma ex_reach4 : vreach ex_rd ex_dev ex_m4.
Proof. exists ex_m0. split; [apply ex_start|apply ex_steps]. Qed.
Lemma ex_reach5 : vreach ex_rd ex_dev ex_m5.
Proof. exists ex_m0. split; [apply ex_start|]. eapply rtc_r; apply ex_steps. Qed.

Lemma virtio_disk_rw_moves_witness :
  exists c' s', virtio_disk_rw_resume 3 0 vctx ex_s4 = Ok RwDone c' s' /\
    data_of s' 3 = [7; 7; 7] /\ blk (v_bc s') (blockno_of s' 3) = [7; 7; 7].
Proof.
  eexists _, _. split; [vm_compute; reflexivity|].
  eapply (virtio_disk_rw_moves ex_rd ex_dev ex_m5 1 (set_head 0 ex_rq) 0 (Ctx [] [CH_disk_free; CH_disk_free; CH_disk_free] 0) _ ex_dev_ok ex_reach5);
    [reflexivity|reflexivity|vm_compute; reflexivity].
Defined.

(** The same request, finished with an error. *)
Definition ex_s3e : vst := Eval vm_compute in
  Vst (set_used 1 (setZ (used_ring (v_disk ex_s2)) 0 0) (set_info_status 0 VIRTIO_BLK_S_IOERR (v_disk ex_s2)))
    (Bcache (bufs (v_bc ex_s2)) {[46 := []]} [(46, [])]) (v_regs ex_s2).
Definition ex_m4e : vm := Vm ex_s3e (Dev 1 []) (m_th ex_m3).

Lemma ex_reach4e : vreach ex_rd ex_dev ex_m4e.
Proof.
  exists ex_m0. split; [apply ex_start|]. eapply rtc_r; [apply ex_steps3|].
  apply (vs_dev ex_rd ex_dev ex_m3), (dev_finish ex_s2 (Dev 1 [0]) 0 [] []); [done|]. exists VIRTIO_BLK_S_IOERR, []. split_and!; [by right; left|done|]. vm_compute. reflexivity.
Qed.

Lemma virtio_driver_safe_witness :
  (exists c' s', virtio_disk_intr ex_rd vctx ex_s3 = Ok tt c' s') /\
  virtio_disk_intr ex_rd vctx ex_s3e = Panic "virtio_disk_intr status".
Proof.
  split; [apply (virtio_driver_safe ex_rd ex_dev ex_m4 ex_dev_ok ex_reach4)|apply (virtio_driver_safe ex_rd ex_dev ex_m4e ex_dev_ok ex_reach4e)].
Defined.

Lemma virtio_no_lost_wakeup_witness :
  (CH_buf 3 = CH_disk_free /\ exists t' th' h, m_th ex_m4 !! t' = Some th' /\ r_head (t_rq th') = Some h) \/
  (exists h, CH_buf 3 = CH_buf 3 /\ Some 0 = Some h /\
     (h ∈ availq (v_disk ex_s3) (Dev 1 []) \/ h ∈ dv_pending (Dev 1 []) \/
      h ∈ usedq (v_disk ex_s3) /\
        forall u c' s', virtio_disk_intr ex_rd vctx ex_s3 = Ok u c' s' -> CH_buf 3 ∈ wakes c')).
Proof.
  apply (virtio_no_lost_wakeup ex_rd ex_dev ex_m4 1 (Th (set_head 0 ex_rq) (Some (CH_buf 3))) (CH_buf 3) ex_dev_ok ex_reach4);
    reflexivity.
Defined.
