(* ===== verification/Log.v ===== *)
(** * The redo log (kernel/log.c)

    The log sits on the buffer cache of Bio.  Its header is kept in memory
    ([log.lh]) and in the first log block, where it is encoded as the C structure
    lays it out.  [LogCrash] (next file) proves what a crash can do to it, and
    Module [Reservation] what [begin_op] reserves. *)

From S2P Require Import Prelude KMonad Riscv Bytes Sleeplock Bio.

Record logheader := LH { lh_n : Z; lh_block : list Z }.

Record log := Log {
  l_start : Z;
  l_size : Z;
  l_outstanding : Z;
  l_committing : bool;
  l_dev : Z;
  l_lh : logheader
}.

Record lstate := LState { lg : log; bc : bcache }.

Definition set_lg (f : log -> log) (s : lstate) : lstate := LState (f (lg s)) (bc s).
Definition set_bc (b : bcache) (s : lstate) : lstate := LState (lg s) b.
Definition bio {A} (m : M bcache A) : M lstate A := zoom bc set_bc m.

Definition set_lh (h : logheader) (l : log) : log :=
  Log (l_start l) (l_size l) (l_outstanding l) (l_committing l) (l_dev l) h.
Definition set_outstanding (n : Z) (l : log) : log :=
  Log (l_start l) (l_size l) n (l_committing l) (l_dev l) (l_lh l).
Definition set_committing (b : bool) (l : log) : log :=
  Log (l_start l) (l_size l) (l_outstanding l) b (l_dev l) (l_lh l).
Definition set_n (n : Z) (h : logheader) : logheader := LH n (lh_block h).
Definition set_block (i b : Z) (h : logheader) : logheader := LH (lh_n h) (setZ (lh_block h) i b).

Definition blockat (l : log) (i : Z) : Z := nthZ 0 (lh_block (l_lh l)) i.

(** [struct logheader]: [int n; int block[LOGSIZE];] *)
Definition sizeof_logheader := 4 * (1 + LOGSIZE).
Definition hdr_n (d : block) : Z := s32 (get32 d 0).
Definition hdr_block (d : block) (i : Z) : Z := s32 (get32 d (4 + 4 * i)).

(** Copy committed blocks from log to their home location. *)
Definition install_one (recovering : bool) (tail : Z) : M lstate unit :=
  l <- gets lg ;;
  lbuf <- bio (bread (l_dev l) (l_start l + tail + 1)) ;; (* read log block *)
  dbuf <- bio (bread (l_dev l) (blockat l tail)) ;; (* read dst *)
  d <- bio (get_data lbuf) ;;
  bio (put_data dbuf d) ;; (* copy block to dst *)
  bio (bwrite dbuf) ;; (* write dst to disk *)
  (when negb recovering do bio (bunpin dbuf)) ;;
  bio (brelse lbuf) ;;
  bio (brelse dbuf).

Definition install_trans (recovering : bool) : M lstate unit :=
  n <- gets (fun s => lh_n (l_lh (lg s))) ;;
  mfor (upto n) (install_one recovering).

(** [for (i = 0; i < log.lh.n; i++) log.lh.block[i] = lh->block[i];] *)
Definition read_blocks (n : Z) (d : block) (h : logheader) : logheader :=
  fold_left (fun h i => set_block i (hdr_block d i) h) (upto n) h.

(** Read the log header from disk into the in-memory log header. *)
Definition read_head : M lstate unit :=
  l <- gets lg ;;
  b <- bio (bread (l_dev l) (l_start l)) ;;
  d <- bio (get_data b) ;;
  modify (set_lg (fun l => set_lh (set_n (hdr_n d) (l_lh l)) l)) ;;
  modify (set_lg (fun l => set_lh (read_blocks (hdr_n d) d (l_lh l)) l)) ;;
  bio (brelse b).

(** [hb->n = log.lh.n; for (...) hb->block[i] = log.lh.block[i];] *)
Definition encode_head (h : logheader) (d : block) : block :=
  fold_left (fun d i => put32 d (4 + 4 * i) (nthZ 0 (lh_block h) i)) (upto (lh_n h))
    (put32 d 0 (lh_n h)).

(** Write in-memory log header to disk: the true point at which the current
    transaction commits. *)
Definition write_head : M lstate unit :=
  l <- gets lg ;;
  b <- bio (bread (l_dev l) (l_start l)) ;;
  d <- bio (get_data b) ;;
  bio (put_data b (encode_head (l_lh l) d)) ;;
  bio (bwrite b) ;;
  bio (brelse b).

Definition recover_from_log : M lstate unit :=
  read_head ;;
  install_trans true ;; (* if committed, copy from log to disk *)
  modify (set_lg (fun l => set_lh (set_n 0 (l_lh l)) l)) ;;
  write_head. (* clear the log *)

Definition initlog (dev logstart nlog : Z) : M lstate unit :=
  if BSIZE <=? sizeof_logheader then panic "initlog: too big logheader"
  else
    modify (set_lg (fun l => Log logstart nlog (l_outstanding l) (l_committing l) dev (l_lh l))) ;;
    recover_from_log.

(** Called at the start of each FS system call.  A caller put to sleep evaluates
    the conditions again, so it goes on by calling [begin_op] again. *)
Definition begin_op : M lstate unit :=
  acquire LK_log ;;
  l <- gets lg ;;
  if l_committing l then sleep CH_log LK_log
  else if LOGSIZE <? lh_n (l_lh l) + (l_outstanding l + 1) * MAXOPBLOCKS
  then sleep CH_log LK_log
  else
    modify (set_lg (set_outstanding (l_outstanding l + 1))) ;;
    release LK_log.

(** Copy modified blocks from cache to log. *)
Definition write_log_one (tail : Z) : M lstate unit :=
  l <- gets lg ;;
  to <- bio (bread (l_dev l) (l_start l + tail + 1)) ;; (* log block *)
  from <- bio (bread (l_dev l) (blockat l tail)) ;; (* cache block *)
  d <- bio (get_data from) ;;
  bio (put_data to d) ;;
  bio (bwrite to) ;; (* write the log *)
  bio (brelse from) ;;
  bio (brelse to).

Definition write_log : M lstate unit :=
  n <- gets (fun s => lh_n (l_lh (lg s))) ;;
  mfor (upto n) write_log_one.

Definition commit : M lstate unit :=
  n <- gets (fun s => lh_n (l_lh (lg s))) ;;
  when 0 <? n do
    write_log ;; (* Write modified blocks from cache to log *)
    write_head ;; (* Write header to disk -- the real commit *)
    install_trans false ;; (* Now install writes to home locations *)
    modify (set_lg (fun l => set_lh (set_n 0 (l_lh l)) l)) ;;
    write_head. (* Erase the transaction from the log *)

(** Called at the end of each FS system call; commits if this was the last
    outstanding operation. *)
Definition end_op : M lstate unit :=
  acquire LK_log ;;
  modify (set_lg (fun l => set_outstanding (l_outstanding l - 1) l)) ;;
  l <- gets lg ;;
  if l_committing l then panic "log.committing"
  else
    do_commit <-
      (if l_outstanding l =? 0
       then modify (set_lg (set_committing true)) ;; ret true
       else wakeup CH_log ;; ret false) ;;
    release LK_log ;;
    when (do_commit : bool) do
      commit ;;
      acquire LK_log ;;
      modify (set_lg (set_committing false)) ;;
      wakeup CH_log ;;
      release LK_log.

(** [for (i = 0; i < log.lh.n; i++) if (log.lh.block[i] == b->blockno) break;] *)
Fixpoint absorb (bs : list Z) (n : nat) (bno i : Z) : Z :=
  match n with
  | O => i
  | S n' => if nthZ 0 bs i =? bno then i else absorb bs n' bno (i + 1)
  end.

(** Caller has modified [b->data] and is done with the buffer: record the block
    number and pin the buffer in the cache. *)
Definition log_write (b : Z) : M lstate unit :=
  acquire LK_log ;;
  l <- gets lg ;;
  let h := l_lh l in
  if (LOGSIZE <=? lh_n h) || (l_size l - 1 <=? lh_n h)
  then panic "too big a transaction"
  else if l_outstanding l <? 1 then panic "log_write outside of trans"
  else
    bno <- gets (fun s => b_blockno (bufat (bc s) b)) ;;
    let i := absorb (lh_block h) (Z.to_nat (lh_n h)) bno 0 in
    modify (set_lg (fun l => set_lh (set_block i bno (l_lh l)) l)) ;;
    (when i =? lh_n h do (* Add new block to log? *)
       bio (bpin b) ;;
       modify (set_lg (fun l => set_lh (set_n (lh_n (l_lh l) + 1) (l_lh l)) l))) ;;
    release LK_log.
