(* ===== verification/LogTx.v ===== *)
(** * Transactions

    The buffer cache as a file system operation sees it between [begin_op] and
    [end_op]: a logical disk, of which every block can be read ([bread]), changed
    in its buffer, recorded in the log ([log_write]) and given back ([brelse]).
    Nothing reaches the platter before [commit]: the blocks written so far are
    pinned in the cache ([txR]), and reading a block returns what was last logged
    for it. *)

From S2P Require Import Prelude KMonad Riscv Bytes Sleeplock Bio Log.

Notation disk := (gmap Z block).

Definition dblk (d : disk) (b : Z) : block := default zero_block (d !! b).

(** The disk after a sequence of block writes. *)
Definition apply_writes (ws : list (Z * block)) (d : disk) : disk :=
  fold_left (fun d w => <[fst w := snd w]> d) ws d.

(** ** Specifications of the cache operations on [lstate] *)

Lemma runs_bio {A} (m : M bcache A) c s Q :
  runs m c (bc s) (fun a b => Q a (LState (lg s) b)) -> runs (bio m) c s Q.
Proof. apply (runs_zoom bc set_bc m c s Q). Qed.

Definition dsame (s s' : lstate) : Prop := lg s' = lg s /\ same_disk (bc s) (bc s').

Lemma bread_runs s live bno c :
  bR (bc s) live -> nolk c -> readable live bno ->
  runs (bio (bread ROOTDEV bno)) c s (fun i s' =>
    bR (bc s') (<[bno := read_info (mypid c) (blk (bc s) bno) (live !! bno)]> live) /\
    handle (bc s') i bno /\ others_kept bno (bc s) (bc s') /\ dsame s s').
Proof.
  intros HR Hc Hr. apply runs_bio.
  destruct (bread_spec _ _ _ _ HR Hc Hr) as (i & s' & Hrun & ? & ? & ? & ?).
  eapply runs_Ok; [exact Hrun|done|]. by split_and!.
Qed.

Lemma get_data_runs s live c i bno x (Q : block -> lstate -> Prop) :
  bR (bc s) live -> handle (bc s) i bno -> live !! bno = Some x -> Q (a_data x) s ->
  runs (bio (get_data i)) c s Q.
Proof.
  intros HR Hh Hx HQ. apply runs_bio.
  eapply runs_Ok; [by eapply get_data_spec|done|]. by destruct s.
Qed.

Lemma put_data_runs s live c i bno x d :
  bR (bc s) live -> handle (bc s) i bno -> live !! bno = Some x ->
  runs (bio (put_data i d)) c s (fun _ s' =>
    bR (bc s') (<[bno := AI (a_ref x) (a_lock x) d]> live) /\
    handle (bc s') i bno /\ others_kept bno (bc s) (bc s') /\ dsame s s').
Proof.
  intros HR Hh Hx. apply runs_bio.
  destruct (put_data_spec _ _ c _ _ _ d HR Hh Hx) as (s' & Hrun & ? & ? & ? & ?).
  eapply runs_Ok; [exact Hrun|done|]. by split_and!.
Qed.

Lemma bwrite_runs s live c i bno x :
  bR (bc s) live -> nolk c -> handle (bc s) i bno -> live !! bno = Some x -> mine c x ->
  runs (bio (bwrite i)) c s (fun _ s' =>
    bR (bc s') live /\ (forall j b, handle (bc s) j b -> handle (bc s') j b) /\
    lg s' = lg s /\ platter (bc s') = <[bno := a_data x]> (platter (bc s)) /\
    writes (bc s') = writes (bc s) ++ [(bno, a_data x)]).
Proof.
  intros HR Hc Hh Hx Hm. apply runs_bio.
  destruct (bwrite_spec _ _ _ _ _ _ HR Hc Hh Hx Hm) as (s' & Hrun & ? & Hb & ? & ?).
  eapply runs_Ok; [exact Hrun|done|]. cbn. split_and!; try done.
  intros j b. unfold handle, bufat. by rewrite Hb.
Qed.

Lemma bunpin_runs s live c i bno x :
  bR (bc s) live -> nolk c -> handle (bc s) i bno -> live !! bno = Some x -> 1 < a_ref x ->
  runs (bio (bunpin i)) c s (fun _ s' =>
    bR (bc s') (<[bno := AI (a_ref x - 1) (a_lock x) (a_data x)]> live) /\
    handle (bc s') i bno /\ others_kept bno (bc s) (bc s') /\ dsame s s').
Proof.
  intros HR Hc Hh Hx Hr. apply runs_bio.
  destruct (bunpin_spec _ _ _ _ _ _ HR Hc Hh Hx Hr) as (s' & Hrun & ? & ? & ? & ?).
  eapply runs_Ok; [exact Hrun|done|]. by split_and!.
Qed.

Lemma brelse_runs s live c i bno x :
  bR (bc s) live -> nolk c -> handle (bc s) i bno -> live !! bno = Some x -> mine c x ->
  1 < a_ref x \/ a_data x = blk (bc s) bno ->
  runs (bio (brelse i)) c s (fun _ s' =>
    bR (bc s') (if decide (a_ref x = 1) then delete bno live
           else <[bno := AI (a_ref x - 1) (Sleeplock false 0) (a_data x)]> live) /\
    others_kept bno (bc s) (bc s') /\ dsame s s').
Proof.
  intros HR Hc Hh Hx Hm Hcl. apply runs_bio.
  destruct (brelse_spec _ _ _ _ _ _ HR Hc Hh Hx Hm Hcl) as (s' & Hrun & ? & ? & ?).
  eapply runs_Ok; [exact Hrun|done|]. by split_and!.
Qed.

(** ** The transaction in the cache *)

Definition unlocked : sleeplock := Sleeplock false 0.

(** The cache between two operations of a transaction that has written [txn]:
    the logged blocks are pinned with their new contents, nothing else is in use. *)
Definition pinned (txn : list (Z * block)) : acache := (AI 1 unlocked) <$> list_to_map txn.

#[global] Arguments pinned : simpl never.

Lemma pinned_lookup txn h d :
  NoDup txn.*1 -> (h, d) ∈ txn -> pinned txn !! h = Some (AI 1 unlocked d).
Proof.
  intros Hnd Hin. unfold pinned. rewrite lookup_fmap.
  by rewrite (elem_of_list_to_map_1 txn h d) by done.
Qed.

Lemma pinned_None txn h : h ∉ txn.*1 -> pinned txn !! h = None.
Proof.
  intros Hn. unfold pinned. rewrite lookup_fmap.
  by rewrite not_elem_of_list_to_map_1 by done.
Qed.

Lemma size_pinned txn : NoDup txn.*1 -> size (pinned txn) = length txn.
Proof.
  intros Hnd. unfold pinned. rewrite map_size_fmap.
  rewrite <- (length_map_to_list (list_to_map txn : gmap Z block)).
  by rewrite map_to_list_to_map.
Qed.

(** One call of a specified operation, in the middle of a procedure. *)
Ltac call lem :=
  apply runs_bind; eapply runs_mono; [eapply lem|].

(** Side conditions on contexts: they all differ in wakeups only. *)
Ltac ceq_cong := unfold ceq in *; destruct_and?; try split; congruence.
Ltac ctxs :=
  match goal with
  | H : nolk ?c |- nolk _ => eapply (nolk_ceq c); [ceq_cong|exact H]
  | |- mine _ (AI _ (Sleeplock true _) _) => unfold mine; cbn; f_equal; ceq_cong
  | H : ?l ∉ held ?c |- ?l ∉ held ?c' =>
      replace (held c') with (held c) by ceq_cong; exact H
  | |- mypid _ = _ => ceq_cong
  end.

(** ** Disks and writes *)

Lemma dblk_insert d h x b : dblk (<[h := x]> d) b = if decide (h = b) then x else dblk d b.
Proof. unfold dblk. rewrite lookup_insert. by case_decide. Qed.

Lemma dblk_apply_out ws d b : b ∉ ws.*1 -> dblk (apply_writes ws d) b = dblk d b.
Proof.
  revert d. induction ws as [|[h x] ws IH]; intros d Hb; [done|].
  cbn in Hb. apply not_elem_of_cons in Hb as [? ?]. cbn.
  rewrite IH by done. by rewrite dblk_insert, decide_False by done.
Qed.

(** The last write to a block decides; blocks never written keep their value. *)
Lemma dblk_apply_agree ws d d' b :
  b ∈ ws.*1 \/ dblk d b = dblk d' b ->
  dblk (apply_writes ws d) b = dblk (apply_writes ws d') b.
Proof.
  revert d d'. induction ws as [|[h x] ws IH]; intros d d' Hb; cbn in *.
  - destruct Hb as [?%elem_of_nil|?]; done.
  - apply IH. rewrite !dblk_insert. case_decide; [by right|]. set_solver.
Qed.

Lemma apply_writes_app ws1 ws2 d :
  apply_writes (ws1 ++ ws2) d = apply_writes ws2 (apply_writes ws1 d).
Proof. apply fold_left_app. Qed.

(** With distinct addresses every write of the sequence survives it. *)
Lemma dblk_apply_in ws d h x :
  NoDup ws.*1 -> (h, x) ∈ ws -> dblk (apply_writes ws d) h = x.
Proof.
  revert d. induction ws as [|[h' x'] ws IH]; intros d Hnd Hin; [by apply elem_of_nil in Hin|].
  cbn in Hnd. apply NoDup_cons in Hnd as [Hn Hnd].
  apply elem_of_cons in Hin as [[= <- <-]|Hin]; cbn.
  - rewrite dblk_apply_out by done. by rewrite dblk_insert, decide_True.
  - by apply IH.
Qed.


(** ** The logical disk *)

(** What the cache holds for a block logged with contents [t] and held by the
    running process with contents [h]. *)
Definition live_at (pid : Z) (t h : option block) : option ainfo :=
  match t, h with
  | None, None => None
  | Some d, None => Some (AI 1 unlocked d)
  | None, Some d => Some (AI 1 (Sleeplock true pid) d)
  | Some _, Some d => Some (AI 2 (Sleeplock true pid) d)
  end.

Definition tlive (pid : Z) (txn : list (Z * block)) (hd : gmap Z block) : acache :=
  merge (live_at pid) (list_to_map txn) hd.

#[global] Arguments tlive : simpl never.

(** Transaction [txn] is under way and the running process [pid] holds the buffers
    of the blocks in [hd]. *)
Record txR (pid : Z) (s : lstate) (txn : list (Z * block)) (hd : gmap Z block) : Prop := {
  tx_bR : bR (bc s) (tlive pid txn hd);
  tx_nd : NoDup txn.*1;
  tx_lhn : lh_n (l_lh (lg s)) = Z.of_nat (length txn);
  tx_lhlen : length (lh_block (l_lh (lg s))) = Z.to_nat LOGSIZE;
  tx_lhblocks : take (length txn) (lh_block (l_lh (lg s))) = txn.*1;
  tx_rootdev : l_dev (lg s) = ROOTDEV;
  tx_open : 1 <= l_outstanding (lg s)
}.

Definition ld (s : lstate) (txn : list (Z * block)) (b : Z) : block :=
  dblk (apply_writes txn (platter (bc s))) b.

(** What no operation of a transaction changes. *)
Definition frame (s s' : lstate) : Prop :=
  platter (bc s') = platter (bc s) /\ writes (bc s') = writes (bc s) /\
  l_start (lg s') = l_start (lg s) /\ l_size (lg s') = l_size (lg s) /\
  l_outstanding (lg s') = l_outstanding (lg s) /\ l_dev (lg s') = l_dev (lg s) /\
  l_committing (lg s') = l_committing (lg s).

#[export] Instance frame_preorder : PreOrder frame.
Proof.
  split; [by intros s|].
  intros s1 s2 s3 (?&?&?&?&?&?&?) (?&?&?&?&?&?&?). unfold frame. split_and!; congruence.
Qed.

Lemma dsame_frame s s' : dsame s s' -> frame s s'.
Proof. intros (E & ? & ?). unfold frame. by rewrite E. Qed.

(** [log.lh.block[i] = b] for an absorbed or a new block. *)
Fixpoint upd_txn (txn : list (Z * block)) (b : Z) (d : block) : list (Z * block) :=
  match txn with
  | [] => [(b, d)]
  | (h, x) :: t => if decide (h = b) then (b, d) :: t else (h, x) :: upd_txn t b d
  end.

Lemma upd_txn_fst txn b d :
  (upd_txn txn b d).*1 = if decide (b ∈ txn.*1) then txn.*1 else txn.*1 ++ [b].
Proof.
  induction txn as [|[h x] t IH]; cbn.
  - rewrite decide_False; [done|]. apply not_elem_of_nil.
  - destruct (decide (h = b)) as [E|E].
    + subst. rewrite decide_True; [done|]. by left.
    + cbn. rewrite IH. destruct (decide (b ∈ t.*1)) as [Hin|Hn].
      * rewrite decide_True; [done|]. by right.
      * rewrite decide_False; [done|]. intros [Eb|?]%elem_of_cons; [by apply E|done].
Qed.

Lemma upd_txn_map txn b d :
  (list_to_map (upd_txn txn b d) : gmap Z block) = <[b := d]> (list_to_map txn).
Proof.
  induction txn as [|[h x] t IH]; [done|]. cbn.
  case_decide as E; cbn.
  - subst. by rewrite insert_insert_eq.
  - rewrite IH. by rewrite insert_insert_ne.
Qed.

Lemma length_upd_txn txn b d :
  length (upd_txn txn b d) = if decide (b ∈ txn.*1) then length txn else S (length txn).
Proof.
  rewrite <- (length_fmap fst), upd_txn_fst. case_decide.
  - by rewrite length_fmap.
  - rewrite length_app, length_fmap. cbn. lia.
Qed.

Lemma NoDup_upd_txn txn b d : NoDup txn.*1 -> NoDup (upd_txn txn b d).*1.
Proof.
  intros Hnd. rewrite upd_txn_fst. case_decide; [done|].
  apply NoDup_app. split_and!; [done| |apply NoDup_singleton].
  intros x Hx ->%list_elem_of_singleton. done.
Qed.

Lemma dblk_apply_map txn d b :
  NoDup txn.*1 ->
  dblk (apply_writes txn d) b = default (dblk d b) ((list_to_map txn : gmap Z block) !! b).
Proof.
  intros Hnd. destruct (list_to_map txn !! b) as [x|] eqn:E; cbn.
  - apply dblk_apply_in; [done|]. by apply elem_of_list_to_map_2.
  - apply dblk_apply_out. by apply not_elem_of_list_to_map_2.
Qed.

Lemma ld_upd s txn b d b' :
  NoDup txn.*1 -> ld s (upd_txn txn b d) b' = if decide (b = b') then d else ld s txn b'.
Proof.
  intros Hnd. unfold ld. rewrite !dblk_apply_map by auto using NoDup_upd_txn.
  rewrite upd_txn_map, lookup_insert. by case_decide.
Qed.

(** ** The absorbing search *)

Lemma absorb_spec bs n b i :
  0 <= i -> (Z.to_nat i + n <= length bs)%nat ->
  let r := absorb bs n b i in
  i <= r <= i + Z.of_nat n /\
  (r < i + Z.of_nat n -> nthZ 0 bs r = b) /\
  (r = i + Z.of_nat n -> forall j, i <= j < r -> nthZ 0 bs j <> b).
Proof.
  revert i. induction n as [|n IH]; intros i Hi Hl; cbn [absorb].
  - cbn. split_and!; lia.
  - destruct (nthZ 0 bs i =? b) eqn:E; bool_spec; cbv zeta.
    + split_and!; [lia|lia|done|lia].
    + destruct (IH (i + 1)) as (H1 & H2 & H3); [lia|lia|].
      split_and!; [lia|lia|intros; apply H2; lia|].
      intros Hr j Hj. destruct (decide (j = i)) as [->|?]; [done|]. apply H3; lia.
Qed.

(** ** The operations of a transaction *)

Lemma lookup_tlive pid txn hd b :
  tlive pid txn hd !! b = live_at pid ((list_to_map txn : gmap Z block) !! b) (hd !! b).
Proof. unfold tlive. rewrite lookup_merge. by destruct (list_to_map txn !! b), (hd !! b). Qed.

Lemma tlive_held pid txn hd b d x :
  hd !! b = Some d -> tlive pid txn hd !! b = Some x ->
  a_lock x = Sleeplock true pid /\ a_data x = d /\
  a_ref x = if decide (b ∈ txn.*1) then 2 else 1.
Proof.
  intros Hd. rewrite lookup_tlive, Hd.
  destruct (list_to_map txn !! b) as [t|] eqn:E; cbn; intros [= <-]; cbn.
  - rewrite decide_True; [done|]. apply elem_of_list_to_map_2 in E.
    apply list_elem_of_fmap. by exists (b, t).
  - rewrite decide_False; [done|]. by apply not_elem_of_list_to_map_2.
Qed.

Lemma tlive_is_held pid txn hd b d :
  hd !! b = Some d -> exists x, tlive pid txn hd !! b = Some x.
Proof. intros Hd. rewrite lookup_tlive, Hd. destruct (list_to_map txn !! b); cbn; eauto. Qed.

Lemma size_tlive pid txn hd :
  NoDup txn.*1 -> (size (tlive pid txn hd) <= length txn + size hd)%nat.
Proof.
  intros Hnd. rewrite <- !size_dom.
  assert (dom (tlive pid txn hd) ⊆ list_to_set txn.*1 ∪ dom hd) as Hsub.
  { intros b [x Hx]%elem_of_dom. rewrite lookup_tlive in Hx.
    destruct (list_to_map txn !! b) as [t|] eqn:E.
    - apply elem_of_union_l, elem_of_list_to_set, list_elem_of_fmap.
      exists (b, t). split; [done|by apply elem_of_list_to_map_2].
    - apply elem_of_union_r, elem_of_dom. by destruct (hd !! b). }
  apply subseteq_size in Hsub. rewrite size_union_alt in Hsub.
  pose proof (size_list_to_set (C := gset Z) txn.*1 Hnd) as Hl. rewrite length_fmap in Hl.
  assert (size (dom hd ∖ list_to_set txn.*1) <= size (dom hd))%nat
    by (apply subseteq_size; set_solver). lia.
Qed.

(** Equality of cache descriptions, block by block. *)
Lemma bR_ext s a a' : bR s a -> (forall b, a !! b = a' !! b) -> bR s a'.
Proof. intros HR E. by rewrite <- (map_eq a a' E). Qed.

Section tx.
Context (pid : Z) (s : lstate) (txn : list (Z * block)) (hd : gmap Z block) (c : ctx).
Context (HT : txR pid s txn hd) (Hc : nolk c) (Hpid : mypid c = pid).

(** A step that leaves the log alone keeps everything but the cache description. *)
Lemma txR_dsame s' hd' :
  dsame s s' -> bR (bc s') (tlive pid txn hd') -> txR pid s' txn hd'.
Proof. intros [E _] HR. destruct HT. split; rewrite ?E; done. Qed.

(** [bread] returns the last logged contents of the block. *)
Lemma bread_tx b :
  hd !! b = None -> (length txn + size hd < Z.to_nat NBUF)%nat ->
  runs (bio (bread ROOTDEV b)) c s (fun i s' =>
    txR pid s' txn (<[b := ld s txn b]> hd) /\ handle (bc s') i b /\
    others_kept b (bc s) (bc s') /\ frame s s').
Proof.
  intros Hb Hsz. eapply runs_mono; [eapply bread_runs; [apply HT|done|]|].
  - unfold readable. pose proof (size_tlive pid txn hd (tx_nd _ _ _ _ HT)).
    destruct (tlive pid txn hd !! b) as [x|] eqn:E; [|lia].
    rewrite lookup_tlive, Hb in E. destruct (list_to_map txn !! b); [|done].
    cbn in E. injection E as <-. done.
  - cbn. intros i s' (HR & Hh & Hk & Hs). rewrite Hpid in HR.
    split_and!; [|done|done|by apply dsame_frame].
    apply txR_dsame; [done|]. eapply bR_ext; [exact HR|]. intros b'.
    rewrite (lookup_tlive _ _ (<[_:=_]> hd)), !lookup_insert. case_decide as E.
    + subst b'. rewrite lookup_tlive, Hb. unfold ld. rewrite dblk_apply_map by apply HT.
      by destruct (list_to_map txn !! b).
    + by rewrite lookup_tlive.
Qed.

Lemma get_data_tx i b d (Q : block -> lstate -> Prop) :
  hd !! b = Some d -> handle (bc s) i b -> Q d s -> runs (bio (get_data i)) c s Q.
Proof.
  intros Hd Hh HQ. destruct (tlive_is_held pid txn hd b d Hd) as [x Hx].
  destruct (tlive_held _ _ _ _ _ _ Hd Hx) as (_ & Ed & _).
  eapply get_data_runs; [apply HT|exact Hh|exact Hx|]. by rewrite Ed.
Qed.

Lemma put_data_tx i b d d' :
  hd !! b = Some d -> handle (bc s) i b ->
  runs (bio (put_data i d')) c s (fun _ s' =>
    txR pid s' txn (<[b := d']> hd) /\ handle (bc s') i b /\
    others_kept b (bc s) (bc s') /\ frame s s').
Proof.
  intros Hd Hh. destruct (tlive_is_held pid txn hd b d Hd) as [x Hx].
  eapply runs_mono; [eapply put_data_runs; [apply HT|exact Hh|exact Hx]|].
  cbn. intros _ s' (HR & Hh' & Hk & Hs). split_and!; [|done|done|by apply dsame_frame].
  apply txR_dsame; [done|]. eapply bR_ext; [exact HR|]. intros b'.
  rewrite (lookup_tlive _ _ (<[_:=_]> hd)), !lookup_insert. case_decide as E.
  - subst b'. rewrite lookup_tlive, Hd in Hx.
    destruct (list_to_map txn !! b); cbn in Hx; by injection Hx as <-.
  - by rewrite lookup_tlive.
Qed.

(** [brelse] of a buffer whose changes, if any, have been logged. *)
Lemma brelse_tx i b :
  hd !! b = Some (ld s txn b) -> handle (bc s) i b ->
  runs (bio (brelse i)) c s (fun _ s' =>
    txR pid s' txn (delete b hd) /\ others_kept b (bc s) (bc s') /\ frame s s').
Proof.
  intros Hd Hh. destruct (tlive_is_held pid txn hd b _ Hd) as [x Hx].
  destruct (tlive_held _ _ _ _ _ _ Hd Hx) as (El & Ed & Er).
  unfold ld in Ed. rewrite dblk_apply_map in Ed by apply HT.
  eapply runs_mono; [eapply brelse_runs; [apply HT|done|exact Hh|exact Hx| |]|].
  - unfold mine. by rewrite El, Hpid.
  - rewrite Er. case_decide as E; [left; lia|right].
    rewrite Ed, not_elem_of_list_to_map_1 by done. done.
  - cbn. intros _ s' (HR & Hk & Hs). split_and!; [|done|by apply dsame_frame].
    apply txR_dsame; [done|]. eapply bR_ext; [exact HR|]. intros b'.
    rewrite (lookup_tlive _ _ (delete b hd)), Er.
    destruct (decide (b = b')) as [<-|Hne].
    + rewrite lookup_delete_eq. destruct (decide (b ∈ txn.*1)) as [Hin|Hn].
      * rewrite decide_False, lookup_insert_eq by lia.
        destruct (list_to_map txn !! b) eqn:Et; [|by apply not_elem_of_list_to_map_2 in Et].
        cbn in Ed |- *. by rewrite Ed.
      * by rewrite decide_True, lookup_delete_eq, not_elem_of_list_to_map_1.
    + rewrite (lookup_delete_ne hd), <- lookup_tlive by done.
      destruct (decide (b ∈ txn.*1)).
      * by rewrite decide_False, lookup_insert_ne by done.
      * by rewrite decide_True, lookup_delete_ne by done.
Qed.
End tx.

Lemma bpin_runs s live c i bno x :
  bR (bc s) live -> nolk c -> handle (bc s) i bno -> live !! bno = Some x ->
  a_ref x + 1 < 2 ^ 32 ->
  runs (bio (bpin i)) c s (fun _ s' =>
    bR (bc s') (<[bno := AI (a_ref x + 1) (a_lock x) (a_data x)]> live) /\
    handle (bc s') i bno /\ others_kept bno (bc s) (bc s') /\ dsame s s').
Proof.
  intros HR Hc Hh Hx Hr. apply runs_bio.
  destruct (bpin_spec _ _ _ _ _ _ HR Hc Hh Hx Hr) as (s' & Hrun & ? & ? & ? & ?).
  eapply runs_Ok; [exact Hrun|done|]. by split_and!.
Qed.

Lemma nolk_locked c : nolk c -> nolk (locked LK_log c).
Proof. unfold nolk. cbn. set_solver. Qed.

Section log_write.
Context (pid : Z) (s : lstate) (txn : list (Z * block)) (hd : gmap Z block) (c : ctx).
Context (HT : txR pid s txn hd) (Hc : nolk c).

(** Where [absorb] finds the block. *)
Lemma absorb_tx b :
  (length txn < Z.to_nat LOGSIZE)%nat ->
  let bs := lh_block (l_lh (lg s)) in
  let n := Z.of_nat (length txn) in
  let r := absorb bs (length txn) b 0 in
  if decide (b ∈ txn.*1) then 0 <= r < n /\ setZ bs r b = bs
  else r = n /\ take (S (length txn)) (setZ bs r b) = txn.*1 ++ [b].
Proof.
  intros Hroom bs n r. pose proof (tx_lhlen _ _ _ _ HT) as Hl. fold bs in Hl.
  pose proof (tx_lhblocks _ _ _ _ HT) as Hb. fold bs in Hb.
  destruct (absorb_spec bs (length txn) b 0) as (H1 & H2 & H3); [lia|lia|].
  fold r in H1, H2, H3. rewrite Z.add_0_l in *. fold n in H1, H2, H3.
  case_decide as Hin.
  - assert (r < n) as Hlt.
    { destruct (decide (r = n)) as [E|]; [|lia]. exfalso.
      apply list_elem_of_lookup in Hin as [j Hj].
      pose proof (lookup_lt_Some _ _ _ Hj) as Hlt. rewrite length_fmap in Hlt.
      apply (H3 E (Z.of_nat j)); [lia|].
      rewrite <- (nthZ_take 0 bs _ (length txn)) by lia. rewrite Hb.
      unfold nthZ. by rewrite Nat2Z.id, nth_lookup, Hj. }
    split; [lia|]. apply (setZ_id 0); [lia|auto].
  - assert (r = n) as ->.
    { destruct (decide (r = n)) as [|E]; [done|]. exfalso. apply Hin.
      rewrite <- Hb, <- (H2 ltac:(lia)).
      rewrite <- (nthZ_take 0 bs _ (length txn)) by lia.
      apply (nthZ_elem 0). rewrite Hb, length_fmap. lia. }
    split; [done|].
    rewrite (take_S_r _ _ b); [by rewrite take_setZ_ge, Hb by lia|].
    unfold setZ. subst n. rewrite Nat2Z.id. apply list_lookup_insert_eq. lia.
Qed.

(** [log_write] makes the buffer's contents the block's logical contents. *)
Lemma log_write_tx i b d :
  LK_log ∉ held c -> hd !! b = Some d -> handle (bc s) i b ->
  (length txn < Z.to_nat LOGSIZE)%nat -> Z.of_nat (length txn) < l_size (lg s) - 1 ->
  runs (log_write i) c s (fun _ s' =>
    txR pid s' (upd_txn txn b d) hd /\ handle (bc s') i b /\
    others_kept b (bc s) (bc s') /\ frame s s').
Proof.
  intros Hlk Hd Hh Hroom Hsize. apply runs_wp. unfold log_write.
  apply wp_bind, wp_acquire; [done|]. apply wp_bind, wp_gets. cbv zeta.
  rewrite (tx_lhn _ _ _ _ HT), Nat2Z.id. pose proof (tx_open _ _ _ _ HT).
  destruct (Z.leb_spec LOGSIZE (Z.of_nat (length txn))); [lia|].
  destruct (Z.leb_spec (l_size (lg s) - 1) (Z.of_nat (length txn))); [lia|]. cbn [orb].
  destruct (Z.ltb_spec (l_outstanding (lg s)) 1); [lia|].
  apply wp_bind, wp_gets. pose proof Hh as (_ & _ & Eb & _). rewrite Eb.
  apply wp_bind, wp_modify. cbn [lg set_lg bc].
  pose proof (absorb_tx b Hroom) as Habs. cbv zeta in Habs.
  set (r := absorb _ (length txn) b 0) in *.
  set (s1 := set_lg _ s).
  destruct (tlive_is_held pid txn hd b d Hd) as [x Hx].
  destruct (tlive_held _ _ _ _ _ _ Hd Hx) as (El & Ed & Er).
  case_decide as Hin.
  - destruct Habs as [Hr Eset]. destruct (Z.eqb_spec r (Z.of_nat (length txn))); [lia|].
    apply wp_bind, wp_ret. eapply wp_release; [done|done|]. split; [done|].
    split_and!; [|done|by intros ?|done]. destruct HT. split; cbn.
    + eapply bR_ext; [exact tx_bR0|]. intros b'. rewrite !lookup_tlive, upd_txn_map, lookup_insert.
      case_decide; [|done]. subst b'. rewrite Hd.
      by destruct (list_to_map txn !! b) eqn:E; [|apply not_elem_of_list_to_map_2 in E].
    + by apply NoDup_upd_txn.
    + by rewrite length_upd_txn, decide_True.
    + by rewrite length_setZ.
    + by rewrite length_upd_txn, upd_txn_fst, !decide_True, Eset by done.
    + done.
    + done.
  - destruct Habs as [Er' Etake]. rewrite <- Er', Z.eqb_refl.
    apply wp_bind, wp_bind. eapply wp_runs.
    { eapply (bpin_runs s1 (tlive pid txn hd)); [apply HT|by apply nolk_locked|done|exact Hx|lia]. }
    cbn. intros _ c2 s2 Hc2 (HR2 & Hh2 & Hk2 & Hlg2 & Hpl2 & Hw2).
    apply wp_modify. apply wp_release with (c0 := c); [by destruct Hc2 as [<- _]|done|].
    split; [split; [done|by destruct Hc2]|].
    split_and!; [|done|done|by unfold frame; cbn; rewrite Hlg2]. split; cbn; rewrite ?Hlg2; cbn.
    + eapply bR_ext; [exact HR2|]. intros b'. rewrite lookup_insert.
      rewrite !lookup_tlive, upd_txn_map, lookup_insert.
      case_decide; [|done]. subst b'. rewrite Hd. by rewrite El, Ed, Er.
    + apply NoDup_upd_txn, HT.
    + rewrite length_upd_txn, decide_False, (tx_lhn _ _ _ _ HT) by done. lia.
    + rewrite length_setZ. apply HT.
    + by rewrite length_upd_txn, upd_txn_fst, !decide_False, Etake by done.
    + by eapply tx_rootdev.
    + by eapply tx_open.
Qed.
End log_write.

(** ** One block update, from reading it to giving it back *)

Definition update (b : Z) (f : block -> block) : M lstate unit :=
  i <- bio (bread ROOTDEV b) ;;
  d <- bio (get_data i) ;;
  bio (put_data i (f d)) ;;
  log_write i ;;
  bio (brelse i).

Lemma ld_frame s s' txn b : frame s s' -> ld s' txn b = ld s txn b.
Proof. intros (E & _). unfold ld. by rewrite E. Qed.

Lemma update_spec pid s txn c b f :
  txR pid s txn ∅ -> nolk c -> LK_log ∉ held c -> mypid c = pid ->
  (length txn < Z.to_nat LOGSIZE)%nat -> Z.of_nat (length txn) < l_size (lg s) - 1 ->
  runs (update b f) c s (fun _ s' =>
    txR pid s' (upd_txn txn b (f (ld s txn b))) ∅ /\ frame s s').
Proof.
  intros HT Hc Hlk Hpid Hroom Hsz. unfold update.
  call (bread_tx pid s txn ∅); [done|done|done|apply lookup_empty|rewrite map_size_empty; plia|].
  cbn. intros i s1 (HT1 & Hh1 & _ & Hf1) c1 Hc1.
  apply runs_bind. eapply (get_data_tx pid s1 txn);
    [exact HT1|by rewrite lookup_insert_eq|exact Hh1|]. intros c2 Hc2.
  call (put_data_tx pid s1 txn);
    [exact HT1|by rewrite lookup_insert_eq|exact Hh1|].
  cbn. intros _ s3 (HT3 & Hh3 & _ & Hf3) c3 Hc3.
  call (log_write_tx pid s3 txn);
    [exact HT3|ctxs|ctxs|by rewrite lookup_insert_eq|exact Hh3|done| |].
  { destruct Hf3 as (_ & _ & _ & -> & _), Hf1 as (_ & _ & _ & -> & _). done. }
  cbn. intros _ s4 (HT4 & Hh4 & _ & Hf4) c4 Hc4.
  eapply runs_mono; [eapply (brelse_tx pid s4); [exact HT4|ctxs|ctxs| |exact Hh4]|].
  { rewrite lookup_insert_eq. rewrite ld_upd, decide_True by (done || apply HT). done. }
  cbn. intros _ s5 (HT5 & _ & Hf5). split.
  - rewrite insert_insert_eq, delete_insert_id in HT5 by apply lookup_empty. exact HT5.
  - do 3 (etransitivity; [eassumption|]). done.
Qed.

(** Between the operations of a transaction the cache is what [commit] expects. *)
Lemma tlive_pinned pid txn : tlive pid txn ∅ = pinned txn.
Proof.
  apply map_eq. intros b. rewrite lookup_tlive, lookup_empty. unfold pinned.
  rewrite lookup_fmap. by destruct (list_to_map txn !! b).
Qed.

(** C4: A transaction reads its own writes and nothing of it reaches the disk
    early: reading a block, changing its buffer, [log_write] and [brelse] make the
    new contents the block's logical contents (what the next [bread] returns) and
    leave those of every other block, the platter and the sequence of disk writes
    as they were; the log grows by one block only if the block was not yet in it. *)
Theorem log_write_absorbs pid s txn c b f :
  txR pid s txn ∅ -> nolk c -> LK_log ∉ held c -> mypid c = pid ->
  (length txn < Z.to_nat LOGSIZE)%nat -> Z.of_nat (length txn) < l_size (lg s) - 1 ->
  runs (update b f) c s (fun _ s' => exists txn',
    txR pid s' txn' ∅ /\ platter (bc s') = platter (bc s) /\ writes (bc s') = writes (bc s) /\
    length txn' = (if decide (b ∈ txn.*1) then length txn else S (length txn)) /\
    forall b', ld s' txn' b' = if decide (b = b') then f (ld s txn b) else ld s txn b').
Proof.
  intros HT Hc Hl Hp Hr Hs. eapply runs_mono; [by apply (update_spec pid s txn)|].
  cbn. intros _ s' [HT' Hf]. eexists. split_and!; [exact HT'|apply Hf|apply Hf| |].
  - apply length_upd_txn.
  - intros b'. rewrite (ld_frame s s') by done. apply ld_upd, HT.
Qed.

(** A log with one operation under way on an empty disk, as an example. *)
Definition ex_state : lstate :=
  LState (Log 2 LOGSIZE 1 false ROOTDEV (LH 0 (replicate (Z.to_nat LOGSIZE) 0)))
    (binit (static_bcache ∅)).
Definition ex_ctx : ctx := Ctx [] [] 7.
Definition ex_block : block := replicate (Z.to_nat BSIZE) 1.

Lemma ex_nolk : nolk ex_ctx /\ LK_log ∉ held ex_ctx.
Proof. split; [split; [|intros i]|]; apply not_elem_of_nil. Qed.

Lemma ex_txR : txR 7 ex_state [] ∅.
Proof.
  split; [|apply NoDup_nil_2|reflexivity..|].
  - rewrite tlive_pinned. apply binit_spec.
  - cbn. lia.
Qed.

Lemma log_write_absorbs_witness :
  txR 7 ex_state [] ∅ /\
  runs (update 40 (fun _ => ex_block)) ex_ctx ex_state (fun _ s' => exists txn',
    txR 7 s' txn' ∅ /\ platter (bc s') = platter (bc ex_state) /\
    writes (bc s') = writes (bc ex_state) /\ length txn' = 1%nat /\
    forall b', ld s' txn' b' = if decide (40 = b') then ex_block else ld ex_state [] b').
Proof.
  split; [apply ex_txR|].
  apply (log_write_absorbs 7 ex_state [] ex_ctx 40 (fun _ => ex_block));
    [apply ex_txR|apply ex_nolk|apply ex_nolk|reflexivity|vm_compute; lia|vm_compute; reflexivity].
Defined.
