(* ===== verification/LogReserve.v ===== *)
(** * The reservation of log space

    [begin_op] admits an operation only if the log has room for [MAXOPBLOCKS] more
    blocks per operation under way; [log_write] panics if the log is full.  The
    transition system below interleaves operations: each one starts with
    [begin_op], logs buffers with [log_write] and finishes with [end_op] (the last
    one commits).  [log_write_within_budget] bounds the number of distinct blocks
    an operation may write so that [log_write] never panics, as a function of the
    size of the log area ([log.size], which mkfs sets to [LOGSIZE]);
    [log_write_full_budget_panics] shows that with that size the [MAXOPBLOCKS] that
    [begin_op] reserves are not enough. *)

From S2P Require Import Prelude KMonad Riscv Sleeplock Bio Log LogTx.

(** ** Computations that leave [struct log] alone *)

Definition keeps_lg {A} (m : M lstate A) : Prop :=
  forall c s a c' s', m c s = Ok a c' s' -> lg s' = lg s.

Lemma keeps_bio {A} (m : M bcache A) : keeps_lg (bio m).
Proof.
  intros c s a c' s'. unfold bio, zoom. destruct (m c (bc s)); try done. by intros [= <- <- <-].
Qed.

Lemma keeps_gets {A} (f : lstate -> A) : keeps_lg (gets f).
Proof. intros c s a c' s' [= _ _ <-]. done. Qed.

Lemma keeps_ret {A} (a : A) : keeps_lg (ret a).
Proof. intros c s a' c' s' [= _ _ <-]. done. Qed.

Lemma keeps_bind {A B} (m : M lstate A) (k : A -> M lstate B) :
  keeps_lg m -> (forall a, keeps_lg (k a)) -> keeps_lg (bind m k).
Proof.
  intros Hm Hk c s b c' s' (a & c1 & s1 & H1 & H2)%bind_Ok_inv.
  apply Hm in H1. apply Hk in H2. congruence.
Qed.

Lemma keeps_mfor {A} (l : list A) (f : A -> M lstate unit) :
  (forall a, keeps_lg (f a)) -> keeps_lg (mfor l f).
Proof.
  intros Hf. induction l as [|x l IH]; cbn; [apply keeps_ret|]. by apply keeps_bind.
Qed.

Create HintDb keeps.
#[export] Hint Resolve keeps_bio keeps_gets keeps_ret keeps_bind keeps_mfor : keeps.

Lemma keeps_write_head : keeps_lg write_head.
Proof. unfold write_head. auto 20 with keeps. Qed.

Lemma keeps_write_log : keeps_lg write_log.
Proof. unfold write_log, write_log_one. auto 20 with keeps. Qed.

Lemma keeps_install r : keeps_lg (install_trans r).
Proof.
  unfold install_trans, install_one. destruct r; cbn; auto 20 with keeps.
Qed.

(** A completed [commit] leaves an empty in-memory header. *)
Lemma commit_Ok_lg c s a c' s' :
  commit c s = Ok a c' s' -> 0 <= lh_n (l_lh (lg s)) ->
  lg s' = set_lh (set_n 0 (l_lh (lg s))) (lg s).
Proof.
  intros (n & c0 & s0 & [= <- <- <-] & H0)%bind_Ok_inv Hn.
  destruct (Z.ltb_spec 0 (lh_n (l_lh (lg s)))) as [Hlt|Hge].
  - apply bind_Ok_inv in H0 as (? & c1 & s1 & H1 & H0). apply keeps_write_log in H1.
    apply bind_Ok_inv in H0 as (? & c2 & s2 & H2 & H0). apply keeps_write_head in H2.
    apply bind_Ok_inv in H0 as (? & c3 & s3 & H3 & H0). apply keeps_install in H3.
    apply bind_Ok_inv in H0 as (? & c4 & s4 & [= _ _ <-] & H0).
    apply keeps_write_head in H0. cbn in H0. congruence.
  - injection H0 as _ _ <-. assert (lh_n (l_lh (lg s)) = 0) as E by lia.
    destruct s as [[st sz o cm dv [n bl]] b]. cbn in *. by subst n.
Qed.

(** ** What a completed call did to [struct log] *)

Lemma begin_op_Ok c s a c' s' :
  held c = [] -> begin_op c s = Ok a c' s' ->
  l_committing (lg s) = false /\
  lh_n (l_lh (lg s)) + (l_outstanding (lg s) + 1) * MAXOPBLOCKS <= LOGSIZE /\
  s' = set_lg (set_outstanding (l_outstanding (lg s) + 1)) s.
Proof.
  intros Hh. unfold begin_op. rewrite bind_acquire by (rewrite Hh; apply not_elem_of_nil).
  unfold bind, gets. destruct (l_committing (lg s)); [unfold sleep; by destruct (release _ _ _)|].
  destruct (Z.ltb_spec LOGSIZE (lh_n (l_lh (lg s)) + (l_outstanding (lg s) + 1) * MAXOPBLOCKS));
    [unfold sleep; by destruct (release _ _ _)|].
  unfold modify. rewrite release_run by (rewrite Hh; apply not_elem_of_nil).
  intros [= _ _ <-]. done.
Qed.

(** The header after [log_write] of block [b]. *)
Definition logged (b : Z) (h : logheader) : logheader :=
  let r := absorb (lh_block h) (Z.to_nat (lh_n h)) b 0 in
  LH (if r =? lh_n h then lh_n h + 1 else lh_n h) (setZ (lh_block h) r b).

Lemma log_write_run c s i :
  held c = [] -> 1 <= l_outstanding (lg s) ->
  log_write i c s =
    if (LOGSIZE <=? lh_n (l_lh (lg s))) || (l_size (lg s) - 1 <=? lh_n (l_lh (lg s)))
    then Panic "too big a transaction"
    else Ok tt c
      (LState (set_lh (logged (b_blockno (bufat (bc s) i)) (l_lh (lg s))) (lg s))
         (if absorb (lh_block (l_lh (lg s))) (Z.to_nat (lh_n (l_lh (lg s))))
               (b_blockno (bufat (bc s) i)) 0 =? lh_n (l_lh (lg s))
          then upd_buf i incref (bc s) else bc s)).
Proof.
  intros Hh Ho. assert (forall l, l ∉ held c) as Hn by (intros l; rewrite Hh; apply not_elem_of_nil).
  unfold log_write. rewrite bind_acquire by auto. unfold bind at 1. unfold gets at 1. cbv zeta.
  destruct (_ || _); [done|]. destruct (Z.ltb_spec (l_outstanding (lg s)) 1); [lia|].
  unfold logged. cbv zeta. set (r := absorb _ _ _ 0).
  unfold bind at 1. unfold gets at 1. unfold bind at 1. unfold modify at 1. fold r.
  destruct (r =? lh_n (l_lh (lg s))).
  - unfold bind at 1. unfold bind at 1. unfold bio, zoom, bpin.
    rewrite bind_acquire by (cbn; set_solver). unfold bind, modify.
    rewrite release_run by (cbn; rewrite Hh; set_solver).
    cbn [held wakes mypid bc lg set_lg set_bc]. by rewrite release_run, ctx_eta by auto.
  - unfold bind, ret. by rewrite release_run, ctx_eta by auto.
Qed.

Lemma end_op_Ok c s a c' s' :
  held c = [] -> 0 <= lh_n (l_lh (lg s)) -> end_op c s = Ok a c' s' ->
  l_committing (lg s) = false /\ l_committing (lg s') = false /\
  l_outstanding (lg s') = l_outstanding (lg s) - 1 /\ l_size (lg s') = l_size (lg s) /\
  lh_block (l_lh (lg s')) = lh_block (l_lh (lg s)) /\
  lh_n (l_lh (lg s')) =
    if l_outstanding (lg s) =? 1 then 0 else lh_n (l_lh (lg s)).
Proof.
  intros Hh Hn. assert (forall l, l ∉ held c) as Hnh by (intros l; rewrite Hh; apply not_elem_of_nil).
  unfold end_op. rewrite bind_acquire by auto.
  unfold bind at 1. unfold modify at 1. unfold bind at 1. unfold gets at 1. cbn [lg set_lg].
  change (l_committing (set_outstanding _ _)) with (l_committing (lg s)).
  change (l_outstanding (set_outstanding ?n _)) with n.
  destruct (l_committing (lg s)) eqn:Hcm; [done|].
  destruct (Z.eqb_spec (l_outstanding (lg s) - 1) 0) as [E|E].
  - replace (l_outstanding (lg s) =? 1) with true by (symmetry; apply Z.eqb_eq; lia).
    rewrite bind_assoc. unfold bind at 1. unfold modify at 1. unfold bind at 1. unfold ret at 1.
    rewrite bind_release by auto.
    intros (? & c1 & s1 & H1 & H2)%bind_Ok_inv. apply commit_Ok_lg in H1; [|done].
    unfold bind, acquire in H2. case_decide; [done|].
    unfold modify, wakeup, release in H2. case_decide; [|done].
    injection H2 as _ _ <-. cbn. rewrite H1. by split_and!.
  - replace (l_outstanding (lg s) =? 1) with false by (symmetry; apply Z.eqb_neq; lia).
    rewrite bind_assoc. unfold bind at 1. unfold wakeup at 1. unfold bind at 1. unfold ret at 1.
    cbn [held wakes mypid]. rewrite bind_release by auto. unfold ret. intros [= _ _ <-]. by split_and!.
Qed.

(** ** The logged blocks *)

Definition hblocks (h : logheader) : list Z := take (Z.to_nat (lh_n h)) (lh_block h).

Lemma logged_spec b h :
  0 <= lh_n h < LOGSIZE -> length (lh_block h) = Z.to_nat LOGSIZE ->
  length (lh_block (logged b h)) = Z.to_nat LOGSIZE /\
  b ∈ hblocks (logged b h) /\ (forall x, x ∈ hblocks h -> x ∈ hblocks (logged b h)) /\
  lh_n h <= lh_n (logged b h) <= lh_n h + 1 /\
  (b ∈ hblocks h -> lh_n (logged b h) = lh_n h).
Proof.
  intros Hn Hl. destruct (absorb_spec (lh_block h) (Z.to_nat (lh_n h)) b 0) as (H1 & H2 & H3);
    [lia|lia|].
  unfold logged. cbv zeta. set (r := absorb _ _ b 0) in *.
  rewrite Z.add_0_l, Z2Nat.id in H1, H2, H3 by lia. unfold hblocks. cbn [lh_n lh_block].
  rewrite length_setZ.
  destruct (Z.eqb_spec r (lh_n h)) as [E|E].
  - split_and!; [done| | |lia|lia|].
    + rewrite E. apply list_elem_of_lookup. exists (Z.to_nat (lh_n h)).
      rewrite lookup_take_lt by lia. unfold setZ. apply list_lookup_insert_eq. lia.
    + intros x (j & Hj)%list_elem_of_lookup. pose proof (lookup_lt_Some _ _ _ Hj) as Hlt.
      rewrite length_take in Hlt. rewrite lookup_take_lt in Hj by lia.
      apply list_elem_of_lookup. exists j. rewrite lookup_take_lt by lia.
      unfold setZ. rewrite list_lookup_insert_ne by lia. done.
    + intros (j & Hj)%list_elem_of_lookup. pose proof (lookup_lt_Some _ _ _ Hj) as Hlt.
      rewrite length_take in Hlt. rewrite lookup_take_lt in Hj by lia.
      exfalso. apply (H3 E (Z.of_nat j)); [lia|]. unfold nthZ.
      by rewrite Nat2Z.id, nth_lookup, Hj.
  - rewrite (setZ_id 0) by (lia || (apply H2; lia)).
    split_and!; [done| |done|lia|lia|done].
    rewrite <- (H2 ltac:(lia)), <- (nthZ_take 0 _ _ (Z.to_nat (lh_n h))) by lia.
    apply (nthZ_elem 0). rewrite length_take. lia.
Qed.

(** ** Interleaved operations *)

(** The state of the log and, for each operation under way, the set of blocks it
    has written. *)
Definition config : Type := lstate * list (gset Z).

Section budget.
(** [K]: the number of distinct blocks an operation writes at most;
    [sz]: the number of blocks of the log area, [log.size]. *)
Context (K sz : Z).

Inductive step : config -> config -> Prop :=
| step_begin c c' s s' ops :
    held c = [] -> begin_op c s = Ok tt c' s' -> step (s, ops) (s', ∅ :: ops)
| step_write c c' s s' i ops1 w ops2 :
    held c = [] ->
    let w' := {[b_blockno (bufat (bc s) i)]} ∪ w in
    Z.of_nat (size w') <= K ->
    log_write i c s = Ok tt c' s' -> step (s, ops1 ++ w :: ops2) (s', ops1 ++ w' :: ops2)
| step_end c c' s s' ops1 w ops2 :
    held c = [] -> end_op c s = Ok tt c' s' -> step (s, ops1 ++ w :: ops2) (s', ops1 ++ ops2)
| step_cache s b ops :
    (* the rest of the file system uses the cache *)
    step (s, ops) (LState (lg s) b, ops).

(** After [initlog]. *)
Definition initial (s : lstate) : Prop :=
  l_outstanding (lg s) = 0 /\ l_committing (lg s) = false /\ l_size (lg s) = sz /\
  lh_n (l_lh (lg s)) = 0 /\ length (lh_block (l_lh (lg s))) = Z.to_nat LOGSIZE.

Definition reachable (x : config) : Prop :=
  exists s0, initial s0 /\ rtc step (s0, []) x.

(** What [begin_op] reserved and the operations have not used. *)
Definition slack (ops : list (gset Z)) : Z :=
  foldr (fun w a => MAXOPBLOCKS - Z.of_nat (size w) + a) 0 ops.

Definition op_ok (h : logheader) (w : gset Z) : Prop :=
  Z.of_nat (size w) <= K /\ forall b, b ∈ w -> b ∈ hblocks h.

Record inv (x : config) : Prop := {
  inv_out : l_outstanding (lg x.1) = Z.of_nat (length x.2);
  inv_size : l_size (lg x.1) = sz;
  inv_n : 0 <= lh_n (l_lh (lg x.1));
  inv_len : length (lh_block (l_lh (lg x.1))) = Z.to_nat LOGSIZE;
  inv_slack : lh_n (l_lh (lg x.1)) + slack x.2 <= LOGSIZE;
  inv_ops : Forall (op_ok (l_lh (lg x.1))) x.2
}.

Lemma slack_app o1 o2 : slack (o1 ++ o2) = slack o1 + slack o2.
Proof. unfold slack. induction o1 as [|w o1 IH]; cbn; [done|]. rewrite IH. lia. Qed.

Lemma slack_cons w o : slack (w :: o) = MAXOPBLOCKS - Z.of_nat (size w) + slack o.
Proof. done. Qed.

Context (HK : 0 <= K <= MAXOPBLOCKS).

Lemma slack_nonneg h ops :
  Forall (op_ok h) ops ->
  0 <= slack ops /\ slack ops <= Z.of_nat (length ops) * MAXOPBLOCKS.
Proof.
  induction 1 as [|w ops [Hw _] _ IH]; [cbn; lia|]. rewrite slack_cons.
  cbn [length]. plia.
Qed.

Lemma inv_initial s : initial s -> inv (s, []).
Proof. intros (Ho & _ & Hs & Hn & Hl). split; cbn; rewrite ?Hn; try done. Qed.

Lemma inv_write c c' s s' i ops1 w ops2 :
  held c = [] ->
  let w' := {[b_blockno (bufat (bc s) i)]} ∪ w in
  Z.of_nat (size w') <= K -> log_write i c s = Ok tt c' s' ->
  inv (s, ops1 ++ w :: ops2) -> inv (s', ops1 ++ w' :: ops2).
Proof.
  intros Hh w' Hw' Hrun [Ho Hs Hn Hl Hsl Hops]. cbn [fst snd] in *.
  rewrite length_app in Ho. cbn [length] in Ho.
  rewrite log_write_run in Hrun by (done || lia). set (b := b_blockno _) in *.
  destruct (Z.leb_spec LOGSIZE (lh_n (l_lh (lg s)))); [done|].
  destruct (Z.leb_spec (l_size (lg s) - 1) (lh_n (l_lh (lg s)))); [done|]. cbn [orb] in Hrun.
  injection Hrun as _ <-.
  destruct (logged_spec b (l_lh (lg s))) as (L1 & L2 & L3 & L4 & L5); [lia|done|].
  apply Forall_app in Hops as [Hops1 Hops2]. apply Forall_cons in Hops2 as [[Hw Hwb] Hops2].
  rewrite slack_app, slack_cons in Hsl.
  assert (lh_n (logged b (l_lh (lg s))) - Z.of_nat (size w') <= lh_n (l_lh (lg s)) - Z.of_nat (size w))
    as Hgrow.
  { unfold w'. destruct (decide (b ∈ w)) as [Hin|Hn'].
    - rewrite (L5 (Hwb b Hin)). replace ({[b]} ∪ w) with w by set_solver. lia.
    - rewrite size_union, size_singleton by set_solver. lia. }
  assert (forall ops, Forall (op_ok (l_lh (lg s))) ops ->
    Forall (op_ok (logged b (l_lh (lg s)))) ops) as Hmono.
  { intros ops Hf. eapply Forall_impl; [exact Hf|]. intros v [? Hv]. split; [done|]. auto. }
  split; cbn [fst snd lg l_lh l_outstanding l_size set_lh lh_n]; try done.
  - rewrite length_app. cbn [length]. lia.
  - lia.
  - rewrite slack_app, slack_cons. lia.
  - apply Forall_app. split; [by apply Hmono|]. apply Forall_cons. split; [|by apply Hmono].
    split; [done|]. intros x. unfold w'. rewrite elem_of_union, elem_of_singleton.
    intros [->|Hx]; auto.
Qed.

Lemma inv_end c c' s s' ops1 w ops2 :
  held c = [] -> end_op c s = Ok tt c' s' ->
  inv (s, ops1 ++ w :: ops2) -> inv (s', ops1 ++ ops2).
Proof.
  intros Hh Hrun [Ho Hs Hn Hl Hsl Hops]. cbn [fst snd] in *.
  apply end_op_Ok in Hrun as (_ & _ & Eo & Es & Eb & En); [|done|done].
  rewrite length_app in Ho. cbn [length] in Ho. rewrite slack_app, slack_cons in Hsl.
  apply Forall_app in Hops as [Hops1 Hops2]. apply Forall_cons in Hops2 as [[Hw Hwb] Hops2].
  destruct (Z.eqb_spec (l_outstanding (lg s)) 1) as [E1|E1].
  - destruct ops1, ops2; cbn [length] in Ho; try lia.
    split; cbn [fst snd app]; rewrite ?En, ?Eb; try done; [cbn; lia|congruence].
  - split; cbn [fst snd]; rewrite ?En, ?Eb; try done.
    + rewrite length_app. lia.
    + congruence.
    + rewrite slack_app. lia.
    + unfold op_ok, hblocks in *. rewrite En, Eb. by apply Forall_app.
Qed.

Lemma budget_inv_step x y : step x y -> inv x -> inv y.
Proof.
  intros Hst. destruct Hst as [c c' s s' ops Hh Hrun|c c' s s' i o1 w o2 Hh w' Hw Hrun|
    c c' s s' o1 w o2 Hh Hrun|s b ops].
  - apply begin_op_Ok in Hrun as (_ & Hr & ->); [|done]. intros [Ho Hs Hn Hl Hsl Hops].
    cbn [fst snd] in *. pose proof (slack_nonneg _ _ Hops) as [_ Hmax]. rewrite Ho in Hr.
    split; cbn; try done.
    + lia.
    + fold (slack ops). change (size (∅ : gset Z)) with 0%nat. lia.
    + apply Forall_cons. split; [|done]. split; [change (size (∅ : gset Z)) with 0%nat; lia|].
      set_solver.
  - by apply inv_write with c c'.
  - by apply inv_end with c c'.
  - intros [Ho Hs Hn Hl Hsl Hops]. by split.
Qed.

Lemma budget_inv_reachable x : reachable x -> inv x.
Proof.
  intros (s0 & H0 & Hr). eapply (rtc_preserves inv); [apply budget_inv_step|exact Hr|].
  by apply inv_initial.
Qed.
End budget.

(** ** Running interleavings *)

Inductive action := ABegin | AWrite (op : nat) (buffer : Z).

Definition run_action (K : Z) (a : action) (x : config) : option config :=
  let c := Ctx [] [] 1 in
  match a with
  | ABegin =>
      match begin_op c x.1 with Ok tt _ s' => Some (s', ∅ :: x.2) | _ => None end
  | AWrite op i =>
      w ← x.2 !! op;
      let w' := {[b_blockno (bufat (bc x.1) i)]} ∪ w in
      if decide (Z.of_nat (size w') <= K) then
        match log_write i c x.1 with Ok tt _ s' => Some (s', <[op := w']> x.2) | _ => None end
      else None
  end.

Definition run_actions (K : Z) (l : list action) (x : config) : option config :=
  foldl (fun o a => o ≫= run_action K a) (Some x) l.

Lemma run_action_step K a x y : run_action K a x = Some y -> step K x y.
Proof.
  destruct x as [s ops], a as [|op i]; cbn.
  - destruct (begin_op _ s) as [[] c' s'| |] eqn:E; try done.
    intros [= <-]. by apply step_begin with (Ctx [] [] 1) c'.
  - destruct (ops !! op) as [w|] eqn:Ew; cbn; [|done]. case_decide as Hw; [|done].
    destruct (log_write _ _ s) as [[] c' s'| |] eqn:E; try done. intros [= <-].
    rewrite <- (take_drop_middle _ _ _ Ew) at 1.
    rewrite insert_take_drop by (by eapply lookup_lt_Some).
    by apply step_write with (Ctx [] [] 1) c'.
Qed.

Lemma run_actions_rtc K l x y : run_actions K l x = Some y -> rtc (step K) x y.
Proof.
  unfold run_actions. revert x. induction l as [|a l IH]; cbn; intros x.
  - by intros [= <-].
  - destruct (run_action K a x) as [z|] eqn:E; cbn.
    + intros Hl. eapply rtc_l; [by eapply run_action_step|]. by apply IH.
    + intros Hl. exfalso. clear IH E. induction l; cbn in Hl; [done|auto].
Qed.

(** A log of [sz] blocks and a cache whose buffer [i] holds block [100 + i]. *)
Definition ex_reserve (sz : Z) : lstate :=
  LState (Log 2 sz 0 false ROOTDEV (LH 0 (replicate (Z.to_nat LOGSIZE) 0)))
    (Bcache ((fun i => Buf true false ROOTDEV (100 + i) initsleeplock 1 0 0 []) <$> upto NBUF) ∅ []).

Lemma ex_reserve_initial sz : initial sz (ex_reserve sz).
Proof. by unfold initial. Qed.

(** Three operations; two have written ten blocks each, the third nine. *)
Definition ex_actions : list action :=
  [ABegin; ABegin; ABegin] ++
  (AWrite 0 <$> upto 10) ++ ((fun i => AWrite 1 (10 + i)) <$> upto 10) ++
  ((fun i => AWrite 2 (20 + i)) <$> upto 9).

Definition ex_full : config :=
  default (ex_reserve LOGSIZE, []) (run_actions MAXOPBLOCKS ex_actions (ex_reserve LOGSIZE, [])).

Lemma ex_full_run : run_actions MAXOPBLOCKS ex_actions (ex_reserve LOGSIZE, []) = Some ex_full.
Proof. vm_compute. reflexivity. Qed.

(** ** Properties *)

(** C5: Log reservation: as long as each operation writes at most [K] distinct
    blocks between [begin_op] and [end_op], with
    [LOGSIZE - (MAXOPBLOCKS - K) < min(LOGSIZE, log.size - 1)], no interleaving of
    operations makes [log_write] panic, including the repeated logging of a block
    that is absorbed.  With the log area mkfs makes ([log.size = LOGSIZE]) this
    allows [K = MAXOPBLOCKS - 2]. *)
Theorem log_write_within_budget K sz s ops1 w ops2 c i :
  0 <= K <= MAXOPBLOCKS -> LOGSIZE - (MAXOPBLOCKS - K) < Z.min LOGSIZE (sz - 1) ->
  reachable K sz (s, ops1 ++ w :: ops2) -> held c = [] ->
  Z.of_nat (size ({[b_blockno (bufat (bc s) i)]} ∪ w)) <= K ->
  exists s', log_write i c s = Ok tt c s'.
Proof.
  intros HK Hsz Hr Hh Hw. apply budget_inv_reachable in Hr as [Ho Hs Hn Hl Hsl Hops]; [|done].
  cbn [fst snd] in *. rewrite slack_app, slack_cons in Hsl.
  apply Forall_app in Hops as [H1 H2]. apply Forall_cons in H2 as [[Hwk _] H2].
  apply slack_nonneg in H1 as [H1 _]; [|done]. apply slack_nonneg in H2 as [H2 _]; [|done].
  rewrite length_app in Ho. cbn [length] in Ho.
  rewrite log_write_run by (done || lia). rewrite Hs.
  destruct (Z.leb_spec LOGSIZE (lh_n (l_lh (lg s)))); [lia|].
  destruct (Z.leb_spec (sz - 1) (lh_n (l_lh (lg s)))); [lia|]. cbn. eauto.
Qed.

(** C12: The [MAXOPBLOCKS] blocks that [begin_op] reserves per operation are not
    available with the log area mkfs makes, whose [LOGSIZE] blocks include the
    header: there are operations that each write at most [MAXOPBLOCKS] distinct
    blocks, all admitted by [begin_op], one of whose [log_write] calls panics. *)
Theorem log_write_full_budget_panics :
  exists s ops1 w ops2 i c,
    reachable MAXOPBLOCKS LOGSIZE (s, ops1 ++ w :: ops2) /\ held c = [] /\
    Z.of_nat (size ({[b_blockno (bufat (bc s) i)]} ∪ w)) <= MAXOPBLOCKS /\
    log_write i c s = Panic "too big a transaction".
Proof.
  exists ex_full.1, (take 2 ex_full.2), (default ∅ (ex_full.2 !! 2%nat)), (drop 3 ex_full.2), 29,
    (Ctx [] [] 1).
  split_and!; [|done|vm_compute; discriminate|vm_compute; reflexivity].
  exists (ex_reserve LOGSIZE). split; [apply ex_reserve_initial|].
  rewrite take_drop_middle by (vm_compute; reflexivity). rewrite <- surjective_pairing.
  apply run_actions_rtc with ex_actions, ex_full_run.
Qed.

Lemma log_write_within_budget_witness :
  exists s w ops2,
    reachable (MAXOPBLOCKS - 2) LOGSIZE (s, [] ++ w :: ops2) /\
    exists s', log_write 0 (Ctx [] [] 1) s = Ok tt (Ctx [] [] 1) s'.
Proof.
  destruct (run_actions (MAXOPBLOCKS - 2) [ABegin] (ex_reserve LOGSIZE, [])) as [[s ops]|] eqn:E;
    [|vm_compute in E; discriminate].
  assert (reachable (MAXOPBLOCKS - 2) LOGSIZE (s, ops)) as Hr.
  { exists (ex_reserve LOGSIZE). split; [apply ex_reserve_initial|].
    by apply run_actions_rtc with [ABegin]. }
  assert (ops = [∅]) as ->. { vm_compute in E. by injection E as _ <-. }
  exists s, ∅, []. split; [exact Hr|].
  apply (log_write_within_budget (MAXOPBLOCKS - 2) LOGSIZE s [] ∅ [] (Ctx [] [] 1) 0);
    [split; vm_compute; discriminate|vm_compute; reflexivity|exact Hr|reflexivity|].
  rewrite union_empty_r_L, size_singleton. vm_compute. discriminate.
Defined.
