(* ===== verification/LogCrash.v ===== *)
(** * Crash safety of the log

    A crash loses memory and keeps the platter, which changes one block at a time
    (Bio records every write).  [commit_crash_atomic] cuts the sequence of writes
    of [commit] at an arbitrary point and runs [initlog] on the disk found there:
    every block outside the log then holds either what it held before the
    transaction or what the transaction wrote to it, all blocks on the same side. *)

From S2P Require Import Prelude KMonad Riscv Bytes Sleeplock Bio Log LogTx.

(** ** The loops of [commit] *)

Section write_log.
Context (txn : list (Z * block)) (l : log).
Context (Hnd : NoDup txn.*1) (Hlen : (length txn < Z.to_nat NBUF)%nat).
Context (Hdev : l_dev l = ROOTDEV).
Context (Hblocks : forall i h d, txn !! Z.to_nat i = Some (h, d) -> 0 <= i -> blockat l i = h).
Context (Hregion : forall h i, h ∈ txn.*1 -> 0 <= i <= Z.of_nat (length txn) ->
           h <> l_start l + i).

Lemma txn_in i h d : txn !! Z.to_nat i = Some (h, d) -> (h, d) ∈ txn.
Proof. intros Hi. by eapply list_elem_of_lookup_2. Qed.

Lemma write_log_one_spec s c i h d :
  bR (bc s) (pinned txn) -> lg s = l -> nolk c ->
  0 <= i < Z.of_nat (length txn) -> txn !! Z.to_nat i = Some (h, d) ->
  runs (write_log_one i) c s (fun _ s' =>
    bR (bc s') (pinned txn) /\ lg s' = l /\
    platter (bc s') = <[l_start l + i + 1 := d]> (platter (bc s)) /\
    writes (bc s') = writes (bc s) ++ [(l_start l + i + 1, d)]).
Proof.
  intros HR Hlg Hc Hi Htx. set (lb := l_start l + i + 1).
  pose proof (txn_in _ _ _ Htx) as Hin.
  assert (h ∈ txn.*1) as Hh by (apply list_elem_of_fmap; by exists (h, d)).
  assert (lb ∉ txn.*1) as Hlb.
  { intros Hb. apply (Hregion lb (i + 1) Hb); unfold lb; lia. }
  assert (h <> lb) as Hne by congruence.
  pose proof (pinned_lookup _ _ _ Hnd Hin) as Hph.
  pose proof (pinned_None _ _ Hlb) as Hpl.
  unfold write_log_one. apply runs_bind, runs_gets. intros c0 Hc0.
  rewrite Hlg, Hdev, (Hblocks i h d) by (done || lia). fold lb.
  (* to = bread(log block) *)
  call bread_runs; [exact HR|ctxs| |].
  { unfold readable. rewrite Hpl, size_pinned by done. done. }
  intros b1 s1 (HR1 & Hb1 & _ & Hlg1 & Hpl1 & Hw1) c1 Hc1. rewrite Hpl in HR1. cbn in HR1.
  (* from = bread(cache block) *)
  call bread_runs; [exact HR1|ctxs| |].
  { unfold readable. rewrite lookup_insert_ne, Hph by done. by split. }
  intros b2 s2 (HR2 & Hb2 & Hk2 & Hlg2 & Hpl2 & Hw2) c2 Hc2.
  rewrite lookup_insert_ne, Hph in HR2 by done. cbn in HR2.
  apply Hk2 in Hb1; [|done].
  (* memmove *)
  apply runs_bind. eapply get_data_runs; [exact HR2|exact Hb2|by rewrite lookup_insert_eq|].
  cbn. intros c3 Hc3.
  call put_data_runs; [exact HR2|exact Hb1|by rewrite lookup_insert_ne, lookup_insert_eq|].
  cbn. intros _ s4 (HR4 & Hb4 & Hk4 & Hlg4 & Hpl4 & Hw4) c4 Hc4.
  apply Hk4 in Hb2; [|done].
  (* bwrite(to) *)
  call bwrite_runs; [exact HR4|ctxs|exact Hb4|by rewrite lookup_insert_eq|ctxs|].
  cbn. intros _ s5 (HR5 & Hk5 & Hlg5 & Hpl5 & Hw5) c5 Hc5.
  apply Hk5 in Hb2, Hb4.
  (* brelse(from); brelse(to) *)
  call brelse_runs;
    [exact HR5|ctxs|exact Hb2|by rewrite lookup_insert_ne, lookup_insert_eq|ctxs|by left|].
  cbn. intros _ s6 (HR6 & Hk6 & Hlg6 & Hpl6 & Hw6) c6 Hc6. apply Hk6 in Hb4; [|done].
  eapply runs_mono; [eapply brelse_runs;
    [exact HR6|ctxs|exact Hb4|by rewrite lookup_insert_ne, lookup_insert_eq|ctxs|right]|].
  { cbn. unfold blk. rewrite Hpl6, Hpl5, lookup_insert_eq. done. }
  cbn. intros _ s7 (HR7 & _ & Hlg7 & Hpl7 & Hw7). split_and!.
  - replace (pinned txn) with (delete lb (<[h:=AI 1 unlocked d]>
      (<[lb:=AI 1 (Sleeplock true (mypid c0)) d]>
        (<[h:=AI 2 (Sleeplock true (mypid c1)) d]>
          (<[lb:=AI 1 (Sleeplock true (mypid c0)) (blk (bc s) lb)]> (pinned txn))))));
      [exact HR7|].
    apply map_eq. intros k. destruct (decide (k = lb)) as [->|?].
    + by rewrite lookup_delete_eq.
    + rewrite lookup_delete_ne by done. destruct (decide (k = h)) as [->|?].
      * by rewrite lookup_insert_eq.
      * by rewrite !lookup_insert_ne by done.
  - congruence.
  - rewrite Hpl7, Hpl6, Hpl5, Hpl4, Hpl2, Hpl1. done.
  - rewrite Hw7, Hw6, Hw5, Hw4, Hw2, Hw1. done.
Qed.

(** The writes of [write_log]. *)
Definition log_writes : list (Z * block) :=
  imap (fun j x => (l_start l + Z.of_nat j + 1, snd x)) txn.

Lemma log_writes_lookup i h d :
  0 <= i -> txn !! Z.to_nat i = Some (h, d) ->
  log_writes !! Z.to_nat i = Some (l_start l + i + 1, d).
Proof.
  intros Hi Hl. unfold log_writes. rewrite list_lookup_imap, Hl. cbn.
  by rewrite Z2Nat.id.
Qed.

Lemma length_log_writes : length log_writes = length txn.
Proof. unfold log_writes. by rewrite length_imap. Qed.

Lemma write_log_spec s c :
  bR (bc s) (pinned txn) -> lg s = l -> nolk c -> lh_n (l_lh l) = Z.of_nat (length txn) ->
  runs write_log c s (fun _ s' =>
    bR (bc s') (pinned txn) /\ lg s' = l /\
    platter (bc s') = apply_writes log_writes (platter (bc s)) /\
    writes (bc s') = writes (bc s) ++ log_writes).
Proof.
  intros HR Hlg Hc Hn. unfold write_log. apply runs_bind, runs_gets. rewrite Hlg, Hn.
  intros c0 Hc0. apply (runs_mfor (fun i s' =>
    bR (bc s') (pinned txn) /\ lg s' = l /\
    platter (bc s') = apply_writes (take (Z.to_nat i) log_writes) (platter (bc s)) /\
    writes (bc s') = writes (bc s) ++ take (Z.to_nat i) log_writes)); [lia| | |].
  - cbn. rewrite app_nil_r. by split_and!.
  - intros i c' s' Hi Hc' (HR' & Hlg' & Hp' & Hw').
    destruct (txn !! Z.to_nat i) as [[h d]|] eqn:E; [|apply lookup_ge_None in E; lia].
    eapply runs_mono; [apply (write_log_one_spec s' c' i h d); try done; ctxs|].
    cbn. intros _ s2 (HR2 & Hlg2 & Hp2 & Hw2).
    replace (Z.to_nat (i + 1)) with (S (Z.to_nat i)) by lia.
    rewrite (take_S_r _ _ _ (log_writes_lookup i h d ltac:(lia) E)).
    split_and!; [done|done| |].
    + rewrite Hp2, Hp'. unfold apply_writes. by rewrite fold_left_app.
    + rewrite Hw2, Hw'. by rewrite app_assoc.
  - intros s' (HR' & Hlg' & Hp' & Hw'). rewrite take_ge in Hp', Hw'
      by (rewrite length_log_writes; lia). by split_and!.
Qed.

(** Installing one block of a committed transaction. *)
Lemma install_commit_one_spec s c i h d :
  bR (bc s) (pinned (drop (Z.to_nat i) txn)) -> lg s = l -> nolk c ->
  0 <= i < Z.of_nat (length txn) -> txn !! Z.to_nat i = Some (h, d) ->
  blk (bc s) (l_start l + i + 1) = d ->
  runs (install_one false i) c s (fun _ s' =>
    bR (bc s') (pinned (drop (Z.to_nat (i + 1)) txn)) /\ lg s' = l /\
    platter (bc s') = <[h := d]> (platter (bc s)) /\
    writes (bc s') = writes (bc s) ++ [(h, d)]).
Proof.
  intros HR Hlg Hc Hi Htx Hd. set (lb := l_start l + i + 1) in *.
  set (rest := drop (Z.to_nat (i + 1)) txn).
  assert (drop (Z.to_nat i) txn = (h, d) :: rest) as Hdrop.
  { rewrite (drop_S _ _ _ Htx). unfold rest. do 2 f_equal. lia. }
  assert (NoDup ((h, d) :: rest).*1) as Hnd'.
  { rewrite <- Hdrop. rewrite fmap_drop.
    rewrite <- (take_drop (Z.to_nat i) (txn.*1)) in Hnd. by apply NoDup_app in Hnd as (_ & _ & ?). }
  rewrite Hdrop in HR.
  assert (forall x, x ∈ ((h, d) :: rest).*1 -> x ∈ txn.*1) as Hsub.
  { intros x. rewrite <- Hdrop, fmap_drop.
    intros Hx. apply list_elem_of_lookup in Hx as [k Hk]. rewrite lookup_drop in Hk.
    by eapply list_elem_of_lookup_2. }
  assert (lb ∉ ((h, d) :: rest).*1) as Hlb.
  { intros Hb. apply (Hregion lb (i + 1) (Hsub _ Hb)); unfold lb; lia. }
  assert (h <> lb) as Hne by (cbn in Hlb; set_solver).
  assert (pinned ((h, d) :: rest) !! h = Some (AI 1 unlocked d)) as Hph
    by (apply pinned_lookup; [done|by left]).
  pose proof (pinned_None _ _ Hlb) as Hpl.
  unfold install_one. apply runs_bind, runs_gets. intros c0 Hc0.
  rewrite Hlg, Hdev, (Hblocks i h d) by (done || lia). fold lb.
  call bread_runs; [exact HR|ctxs| |].
  { unfold readable. rewrite Hpl, size_pinned by done.
    rewrite <- Hdrop, length_drop. lia. }
  intros b1 s1 (HR1 & Hb1 & _ & Hlg1 & Hpl1 & Hw1) c1 Hc1. rewrite Hpl in HR1. cbn in HR1.
  rewrite Hd in HR1.
  call bread_runs; [exact HR1|ctxs| |].
  { unfold readable. rewrite lookup_insert_ne, Hph by done. by split. }
  intros b2 s2 (HR2 & Hb2 & Hk2 & Hlg2 & Hpl2 & Hw2) c2 Hc2.
  rewrite lookup_insert_ne, Hph in HR2 by done. cbn in HR2. apply Hk2 in Hb1; [|done].
  apply runs_bind. eapply get_data_runs;
    [exact HR2|exact Hb1|by rewrite lookup_insert_ne, lookup_insert_eq|].
  cbn. intros c3 Hc3.
  call put_data_runs; [exact HR2|exact Hb2|by rewrite lookup_insert_eq|].
  cbn. intros _ s4 (HR4 & Hb4 & Hk4 & Hlg4 & Hpl4 & Hw4) c4 Hc4. apply Hk4 in Hb1; [|done].
  rewrite insert_insert_eq in HR4.
  call bwrite_runs; [exact HR4|ctxs|exact Hb4|by rewrite lookup_insert_eq|ctxs|].
  cbn. intros _ s5 (HR5 & Hk5 & Hlg5 & Hpl5 & Hw5) c5 Hc5. apply Hk5 in Hb1, Hb4.
  call bunpin_runs; [exact HR5|ctxs|exact Hb4|by rewrite lookup_insert_eq|done|].
  cbn. intros _ s6 (HR6 & Hb6 & Hk6 & Hlg6 & Hpl6 & Hw6) c6 Hc6. apply Hk6 in Hb1; [|done].
  rewrite insert_insert_eq in HR6.
  call brelse_runs;
    [exact HR6|ctxs|exact Hb1|by rewrite lookup_insert_ne, lookup_insert_eq|ctxs|right|].
  { cbn. unfold blk. rewrite Hpl6, Hpl5, lookup_insert_ne, Hpl4, Hpl2, Hpl1 by done.
    by symmetry. }
  cbn. intros _ s7 (HR7 & Hk7 & Hlg7 & Hpl7 & Hw7) c7 Hc7. apply Hk7 in Hb6; [|done].
  eapply runs_mono; [eapply brelse_runs;
    [exact HR7|ctxs|exact Hb6|by rewrite lookup_delete_ne, lookup_insert_eq|ctxs|right]|].
  { cbn. unfold blk. rewrite Hpl7, Hpl6, Hpl5, lookup_insert_eq. done. }
  cbn. intros _ s8 (HR8 & _ & Hlg8 & Hpl8 & Hw8). split_and!.
  - eapply (eq_rect _ (bR (bc s8)) HR8). apply map_eq. intros k.
    assert (forall k, k ∉ [h; lb] -> pinned ((h, d) :: rest) !! k = pinned rest !! k) as Hc'.
    { intros k' Hk'. unfold pinned. rewrite !lookup_fmap. cbn.
      by rewrite lookup_insert_ne by set_solver. }
    cbn in Hnd'. apply NoDup_cons in Hnd' as [Hnh _].
    destruct (decide (k = h)) as [->|?].
    { by rewrite lookup_delete_eq, pinned_None. }
    rewrite lookup_delete_ne by done. destruct (decide (k = lb)) as [->|?].
    { rewrite lookup_delete_eq, pinned_None; [done|]. cbn in Hlb. set_solver. }
    rewrite lookup_delete_ne, !lookup_insert_ne by done. apply Hc'. set_solver.
  - congruence.
  - rewrite Hpl8, Hpl7, Hpl6, Hpl5, Hpl4, Hpl2, Hpl1. done.
  - rewrite Hw8, Hw7, Hw6, Hw5, Hw4, Hw2, Hw1. done.
Qed.

Lemma install_commit_spec s c :
  bR (bc s) (pinned txn) -> lg s = l -> nolk c -> lh_n (l_lh l) = Z.of_nat (length txn) ->
  (forall i h d, 0 <= i -> txn !! Z.to_nat i = Some (h, d) ->
     blk (bc s) (l_start l + i + 1) = d) ->
  runs (install_trans false) c s (fun _ s' =>
    bR (bc s') ∅ /\ lg s' = l /\
    platter (bc s') = apply_writes txn (platter (bc s)) /\
    writes (bc s') = writes (bc s) ++ txn).
Proof.
  intros HR Hlg Hc Hn Hlog. unfold install_trans.
  apply runs_bind, runs_gets. rewrite Hlg, Hn.
  intros c0 Hc0. apply (runs_mfor (fun i s' =>
    bR (bc s') (pinned (drop (Z.to_nat i) txn)) /\ lg s' = l /\
    (forall i h d, 0 <= i -> txn !! Z.to_nat i = Some (h, d) ->
       blk (bc s') (l_start l + i + 1) = d) /\
    platter (bc s') = apply_writes (take (Z.to_nat i) txn) (platter (bc s)) /\
    writes (bc s') = writes (bc s) ++ take (Z.to_nat i) txn)); [lia| | |].
  - cbn. rewrite drop_0, app_nil_r. by split_and!.
  - intros i c' s' Hi Hc' (HR' & Hlg' & Hlog' & Hp' & Hw').
    destruct (txn !! Z.to_nat i) as [[h d]|] eqn:E; [|apply lookup_ge_None in E; lia].
    eapply runs_mono; [apply (install_commit_one_spec s' c' i h d); try done|].
    { ctxs. } { apply (Hlog' i h d); [lia|done]. }
    cbn. intros _ s2 (HR2 & Hlg2 & Hp2 & Hw2). split_and!; [done|done| | |].
    + intros j h' d' Hj E'. unfold blk. rewrite Hp2, lookup_insert_ne.
      * by apply (Hlog' j h' d').
      * intros Eh. apply (Hregion h (j + 1)); [|apply lookup_lt_Some in E'; lia|lia].
        apply list_elem_of_fmap. exists (h, d). split; [done|by eapply txn_in].
    + rewrite Hp2, Hp'. replace (Z.to_nat (i + 1)) with (S (Z.to_nat i)) by lia.
      rewrite (take_S_r _ _ _ E). unfold apply_writes. by rewrite fold_left_app.
    + rewrite Hw2, Hw'. replace (Z.to_nat (i + 1)) with (S (Z.to_nat i)) by lia.
      rewrite (take_S_r _ _ _ E). by rewrite app_assoc.
  - intros s' (HR' & Hlg' & _ & Hp' & Hw'). rewrite Nat2Z.id in *.
    rewrite take_ge in Hp', Hw' by done. rewrite drop_ge in HR' by done. by split_and!.
Qed.
End write_log.

(** ** The header block *)

Definition head_ok (h : logheader) : Prop :=
  0 <= lh_n h <= LOGSIZE /\ length (lh_block h) = Z.to_nat LOGSIZE /\
  forall i, 0 <= i < lh_n h -> 0 <= nthZ 0 (lh_block h) i < 2 ^ 31.

Lemma encode_blocks_spec bs d k :
  0 <= k -> k <= LOGSIZE -> length d = Z.to_nat BSIZE ->
  let d' := fold_left (fun d i => put32 d (4 + 4 * i) (nthZ 0 bs i)) (upto k) d in
  length d' = Z.to_nat BSIZE /\ get32 d' 0 = get32 d 0 /\
  forall i, 0 <= i < k -> get32 d' (4 + 4 * i) = u32 (nthZ 0 bs i).
Proof.
  intros Hk. revert k Hk. apply (natlike_ind (fun k => k <= LOGSIZE -> _ -> _)).
  - intros _ Hl. cbn. split_and!; [done|done|lia].
  - intros k Hk IH HkL Hl. destruct (IH ltac:(lia) Hl) as (IH1 & IH2 & IH3).
    cbv zeta. rewrite <- Z.add_1_r, upto_S, fold_left_app by done. cbn [fold_left].
    set (d1 := fold_left _ (upto k) d) in *.
    assert (Z.of_nat (length d1) = 1024) as Hl1 by (rewrite IH1; done).
    split_and!.
    + by rewrite length_put32.
    + by rewrite get32_put32_out by lia.
    + intros i Hi. destruct (decide (i = k)) as [->|?].
      * rewrite get32_put32_same; [done|lia|plia].
      * rewrite get32_put32_out by lia. apply IH3. lia.
Qed.

Lemma encode_head_spec h d :
  head_ok h -> length d = Z.to_nat BSIZE ->
  length (encode_head h d) = Z.to_nat BSIZE /\ hdr_n (encode_head h d) = lh_n h /\
  forall i, 0 <= i < lh_n h -> hdr_block (encode_head h d) i = nthZ 0 (lh_block h) i.
Proof.
  intros (Hn & _ & Hb) Hl.
  destruct (encode_blocks_spec (lh_block h) (put32 d 0 (lh_n h)) (lh_n h)) as (H1 & H2 & H3);
    [lia|lia|by rewrite length_put32|].
  fold (encode_head h d) in H1, H2, H3. split_and!; [done| |].
  - unfold hdr_n. rewrite H2, get32_put32_same by (rewrite ?Hl; unfold BSIZE; lia).
    rewrite u32_small, s32_small by plia. done.
  - intros i Hi. unfold hdr_block. rewrite H3 by done.
    pose proof (Hb i Hi). rewrite u32_small, s32_small by lia. done.
Qed.

Lemma read_blocks_spec d h n :
  0 <= n -> n <= LOGSIZE -> length (lh_block h) = Z.to_nat LOGSIZE ->
  let h' := read_blocks n d h in
  lh_n h' = lh_n h /\ length (lh_block h') = Z.to_nat LOGSIZE /\
  forall i, 0 <= i < n -> nthZ 0 (lh_block h') i = hdr_block d i.
Proof.
  intros Hn. revert n Hn. apply (natlike_ind (fun n => n <= LOGSIZE -> _ -> _)).
  - intros _ Hl. cbn. split_and!; [done|done|lia].
  - intros k Hk IH HkL Hl. destruct (IH ltac:(lia) Hl) as (IH1 & IH2 & IH3).
    cbv zeta. unfold read_blocks. rewrite <- Z.add_1_r, upto_S, fold_left_app by done.
    cbn [fold_left]. fold (read_blocks k d h). split_and!.
    + done.
    + cbn. by rewrite length_setZ.
    + intros i Hi. cbn. rewrite nthZ_setZ by (rewrite ?IH2; plia).
      case_decide as E; [by rewrite E|]. apply IH3. lia.
Qed.

Lemma write_head_spec s c live :
  bR (bc s) live -> nolk c -> l_dev (lg s) = ROOTDEV ->
  live !! l_start (lg s) = None -> (size live < Z.to_nat NBUF)%nat ->
  let d := encode_head (l_lh (lg s)) (blk (bc s) (l_start (lg s))) in
  runs write_head c s (fun _ s' =>
    bR (bc s') live /\ lg s' = lg s /\
    platter (bc s') = <[l_start (lg s) := d]> (platter (bc s)) /\
    writes (bc s') = writes (bc s) ++ [(l_start (lg s), d)]).
Proof.
  intros HR Hc Hdev Hl Hsz d. unfold write_head. apply runs_bind, runs_gets. intros c0 Hc0.
  rewrite Hdev. set (hb := l_start (lg s)) in *.
  call bread_runs; [exact HR|ctxs|by unfold readable; rewrite Hl|].
  intros b1 s1 (HR1 & Hb1 & _ & Hlg1 & Hpl1 & Hw1) c1 Hc1. rewrite Hl in HR1. cbn in HR1.
  apply runs_bind. eapply get_data_runs; [exact HR1|exact Hb1|by rewrite lookup_insert_eq|].
  cbn. intros c2 Hc2.
  call put_data_runs; [exact HR1|exact Hb1|by rewrite lookup_insert_eq|].
  cbn. intros _ s3 (HR3 & Hb3 & Hk3 & Hlg3 & Hpl3 & Hw3) c3 Hc3. fold d in HR3.
  rewrite insert_insert_eq in HR3.
  call bwrite_runs; [exact HR3|ctxs|exact Hb3|by rewrite lookup_insert_eq|ctxs|].
  cbn. intros _ s4 (HR4 & Hk4 & Hlg4 & Hpl4 & Hw4) c4 Hc4. apply Hk4 in Hb3.
  eapply runs_mono; [eapply brelse_runs;
    [exact HR4|ctxs|exact Hb3|by rewrite lookup_insert_eq|ctxs|right]|].
  { cbn. unfold blk. rewrite Hpl4, lookup_insert_eq. done. }
  cbn. intros _ s5 (HR5 & _ & Hlg5 & Hpl5 & Hw5). split_and!.
  - by rewrite delete_insert_eq, delete_id in HR5.
  - congruence.
  - rewrite Hpl5, Hpl4, Hpl3, Hpl1. done.
  - rewrite Hw5, Hw4, Hw3, Hw1. done.
Qed.

Lemma readable_empty bno : readable ∅ bno.
Proof. unfold readable. rewrite lookup_empty, map_size_empty. plia. Qed.

Lemma read_head_spec s c :
  bR (bc s) ∅ -> nolk c -> l_dev (lg s) = ROOTDEV ->
  let d := blk (bc s) (l_start (lg s)) in
  runs read_head c s (fun _ s' =>
    bR (bc s') ∅ /\ same_disk (bc s) (bc s') /\
    lg s' = set_lh (read_blocks (hdr_n d) d (set_n (hdr_n d) (l_lh (lg s)))) (lg s)).
Proof.
  intros HR Hc Hdev d. unfold read_head. apply runs_bind, runs_gets. intros c0 Hc0.
  rewrite Hdev. set (hb := l_start (lg s)) in *.
  call bread_runs; [exact HR|ctxs|apply readable_empty|].
  intros b1 s1 (HR1 & Hb1 & _ & Hlg1 & Hpl1 & Hw1) c1 Hc1.
  rewrite lookup_empty in HR1. cbn in HR1. fold d in HR1.
  apply runs_bind. eapply get_data_runs; [exact HR1|exact Hb1|by rewrite lookup_insert_eq|].
  cbn. intros c2 Hc2. apply runs_bind, runs_modify. intros c3 Hc3.
  apply runs_bind, runs_modify. intros c4 Hc4.
  eapply runs_mono; [eapply brelse_runs;
    [exact HR1|ctxs|exact Hb1|by rewrite lookup_insert_eq|ctxs|right]|].
  { cbn. unfold d, blk. by rewrite Hpl1. }
  cbn. intros _ s5 (HR5 & _ & Hlg5 & Hpl5 & Hw5). split_and!.
  - by rewrite delete_insert_eq in HR5.
  - cbn in *. split; congruence.
  - cbn in Hlg5. rewrite Hlg5, Hlg1. done.
Qed.

(** ** Recovery *)

(** What the log on disk [d] says is to be installed. *)
Definition disk_txn (start : Z) (d : disk) : list (Z * block) :=
  (fun i => (hdr_block (dblk d start) i, dblk d (start + i + 1)))
    <$> upto (hdr_n (dblk d start)).

(** A block that does not belong to the log. *)
Definition home (start b : Z) : Prop := forall i, 0 <= i <= LOGSIZE -> b <> start + i.

Definition log_ok (start : Z) (d : disk) : Prop :=
  0 <= hdr_n (dblk d start) <= LOGSIZE /\ length (dblk d start) = Z.to_nat BSIZE /\
  forall i, 0 <= i < hdr_n (dblk d start) -> home start (hdr_block (dblk d start) i).

Lemma install_recover_one_spec s c i :
  let l := lg s in
  let lb := l_start l + i + 1 in
  let h := blockat l i in
  bR (bc s) ∅ -> nolk c -> l_dev l = ROOTDEV -> h <> lb ->
  runs (install_one true i) c s (fun _ s' =>
    bR (bc s') ∅ /\ lg s' = lg s /\
    platter (bc s') = <[h := blk (bc s) lb]> (platter (bc s)) /\
    writes (bc s') = writes (bc s) ++ [(h, blk (bc s) lb)]).
Proof.
  intros l lb h HR Hc Hdev Hne.
  unfold install_one. apply runs_bind, runs_gets. intros c0 Hc0.
  fold l. rewrite Hdev. fold lb h. set (d := blk (bc s) lb).
  call bread_runs; [exact HR|ctxs|apply readable_empty|].
  intros b1 s1 (HR1 & Hb1 & _ & Hlg1 & Hpl1 & Hw1) c1 Hc1.
  rewrite lookup_empty in HR1. cbn in HR1. fold d in HR1.
  call bread_runs; [exact HR1|ctxs| |].
  { unfold readable. rewrite lookup_insert_ne, lookup_empty by done.
    rewrite map_size_insert_None, map_size_empty by apply lookup_empty. plia. }
  intros b2 s2 (HR2 & Hb2 & Hk2 & Hlg2 & Hpl2 & Hw2) c2 Hc2.
  rewrite lookup_insert_ne, lookup_empty in HR2 by done. cbn in HR2. apply Hk2 in Hb1; [|done].
  apply runs_bind. eapply get_data_runs;
    [exact HR2|exact Hb1|by rewrite lookup_insert_ne, lookup_insert_eq|].
  cbn. intros c3 Hc3.
  call put_data_runs; [exact HR2|exact Hb2|by rewrite lookup_insert_eq|].
  cbn. intros _ s4 (HR4 & Hb4 & Hk4 & Hlg4 & Hpl4 & Hw4) c4 Hc4. apply Hk4 in Hb1; [|done].
  rewrite insert_insert_eq in HR4.
  call bwrite_runs; [exact HR4|ctxs|exact Hb4|by rewrite lookup_insert_eq|ctxs|].
  cbn. intros _ s5 (HR5 & Hk5 & Hlg5 & Hpl5 & Hw5) c5 Hc5. apply Hk5 in Hb1, Hb4.
  apply runs_bind, runs_ret. intros c6 Hc6.
  call brelse_runs;
    [exact HR5|ctxs|exact Hb1|by rewrite lookup_insert_ne, lookup_insert_eq|ctxs|right|].
  { cbn. unfold d, blk. by rewrite Hpl5, lookup_insert_ne, Hpl4, Hpl2, Hpl1 by done. }
  cbn. intros _ s7 (HR7 & Hk7 & Hlg7 & Hpl7 & Hw7) c7 Hc7. apply Hk7 in Hb4; [|done].
  eapply runs_mono; [eapply brelse_runs;
    [exact HR7|ctxs|exact Hb4|by rewrite lookup_delete_ne, lookup_insert_eq|ctxs|right]|].
  { cbn. unfold blk. rewrite Hpl7, Hpl5, lookup_insert_eq. done. }
  cbn. intros _ s8 (HR8 & _ & Hlg8 & Hpl8 & Hw8). split_and!.
  - eapply (eq_rect _ (bR (bc s8)) HR8). apply map_eq. intros k.
    rewrite lookup_empty. destruct (decide (k = h)) as [->|?]; [by rewrite lookup_delete_eq|].
    rewrite lookup_delete_ne by done. destruct (decide (k = lb)) as [->|?].
    { by rewrite lookup_delete_eq. }
    by rewrite lookup_delete_ne, !lookup_insert_ne by done.
  - by rewrite Hlg8, Hlg7, Hlg5, Hlg4, Hlg2, Hlg1.
  - rewrite Hpl8, Hpl7, Hpl5, Hpl4, Hpl2, Hpl1. done.
  - rewrite Hw8, Hw7, Hw5, Hw4, Hw2, Hw1. done.
Qed.

(** The writes of [install_trans(1)] on disk [d]. *)
Definition rec_writes (l : log) (d : disk) (n : Z) : list (Z * block) :=
  (fun i => (blockat l i, dblk d (l_start l + i + 1))) <$> upto n.

Lemma install_recover_spec s c l n :
  bR (bc s) ∅ -> nolk c -> lg s = l -> l_dev l = ROOTDEV -> lh_n (l_lh l) = n ->
  0 <= n <= LOGSIZE ->
  (forall i, 0 <= i < n -> home (l_start l) (blockat l i)) ->
  runs (install_trans true) c s (fun _ s' =>
    bR (bc s') ∅ /\ lg s' = l /\
    platter (bc s') = apply_writes (rec_writes l (platter (bc s)) n) (platter (bc s)) /\
    writes (bc s') = writes (bc s) ++ rec_writes l (platter (bc s)) n).
Proof.
  intros HR Hc Hlg Hdev Hn Hr Hh. unfold install_trans.
  apply runs_bind, runs_gets. rewrite Hlg, Hn. intros c0 Hc0.
  apply (runs_mfor (fun i s' => 0 <= i /\
    bR (bc s') ∅ /\ lg s' = l /\
    platter (bc s') = apply_writes (rec_writes l (platter (bc s)) i) (platter (bc s)) /\
    writes (bc s') = writes (bc s) ++ rec_writes l (platter (bc s)) i)); [lia| | |].
  - cbn. rewrite app_nil_r. by split_and!.
  - intros i c' s' Hi Hc' (_ & HR' & Hlg' & Hp' & Hw').
    pose proof (Hh i Hi) as Hhi.
    pose proof (install_recover_one_spec s' c' i HR') as Hone. rewrite Hlg' in Hone.
    eapply runs_mono; [apply Hone; [ctxs|done|]|].
    { rewrite <- Z.add_assoc. apply Hhi. lia. }
    cbn. intros _ s2 (HR2 & Hlg2 & Hp2 & Hw2).
    assert (blk (bc s') (l_start l + i + 1) = dblk (platter (bc s)) (l_start l + i + 1)) as E.
    { unfold blk. rewrite Hp'. apply dblk_apply_out.
      intros Hin. apply list_elem_of_fmap in Hin as ([h d] & Eh & Hin).
      apply list_elem_of_fmap in Hin as (j & [= -> _] & Hj%elem_of_upto). cbn in Eh.
      apply (Hh j ltac:(lia) (i + 1)); lia. }
    rewrite E in Hp2, Hw2. unfold rec_writes. rewrite upto_S, fmap_app by lia.
    split_and!; [lia|done|done| |].
    + rewrite apply_writes_app. rewrite Hp2, Hp'. done.
    + rewrite Hw2, Hw'. by rewrite app_assoc.
  - intros s' (_ & ?). done.
Qed.

Definition cleared (start : Z) (d : disk) : disk :=
  <[start := put32 (dblk d start) 0 0]> d.

Lemma recover_spec s c :
  let start := l_start (lg s) in
  let d := platter (bc s) in
  bR (bc s) ∅ -> nolk c -> l_dev (lg s) = ROOTDEV ->
  length (lh_block (l_lh (lg s))) = Z.to_nat LOGSIZE -> log_ok start d ->
  runs recover_from_log c s (fun _ s' =>
    bR (bc s') ∅ /\ lh_n (l_lh (lg s')) = 0 /\
    platter (bc s') = cleared start (apply_writes (disk_txn start d) d) /\
    writes (bc s') = writes (bc s) ++ disk_txn start d ++
      [(start, put32 (dblk d start) 0 0)]).
Proof.
  intros start d HR Hc Hdev Hlb (Hn & Hlen & Hhome).
  set (n := hdr_n (dblk d start)) in *.
  unfold recover_from_log.
  call read_head_spec; [exact HR|ctxs|done|].
  intros _ s1 (HR1 & [Hpl1 Hw1] & Hlg1) c1 Hc1.
  change (blk (bc s) (l_start (lg s))) with (dblk d start) in Hlg1. fold n in Hlg1.
  destruct (read_blocks_spec (dblk d start) (set_n n (l_lh (lg s))) n) as (Hb1 & Hb2 & Hb3);
    [lia|lia|done|].
  set (h := read_blocks n (dblk d start) (set_n n (l_lh (lg s)))) in *. cbn in Hb1.
  assert (forall i, 0 <= i < n -> blockat (lg s1) i = hdr_block (dblk d start) i) as Hbl.
  { intros i Hi. rewrite Hlg1. by apply Hb3. }
  assert (l_start (lg s1) = start) as Hst by (by rewrite Hlg1).
  assert (rec_writes (lg s1) (platter (bc s1)) n = disk_txn start d) as Hrw.
  { unfold rec_writes, disk_txn. fold n. apply list_fmap_ext. intros j i Hi.
    assert (0 <= i < n) by (apply elem_of_upto; by eapply list_elem_of_lookup_2).
    by rewrite Hbl, Hst, Hpl1. }
  call (install_recover_spec s1 c1 (lg s1) n); [exact HR1|ctxs|done| | |lia| |].
  { by rewrite Hlg1. } { by rewrite Hlg1. }
  { intros i Hi. rewrite Hbl, Hst by done. by apply Hhome. }
  rewrite Hrw, Hpl1. fold d.
  intros _ s2 (HR2 & Hlg2 & Hpl2 & Hw2) c2 Hc2.
  apply runs_bind, runs_modify. intros c3 Hc3.
  eapply runs_mono; [eapply write_head_spec; [exact HR2|ctxs| |apply lookup_empty|]|].
  { cbn. by rewrite Hlg2, Hlg1. } { rewrite map_size_empty. plia. }
  cbn. rewrite Hlg2, Hst. intros _ s3 (HR3 & Hlg3 & Hpl3 & Hw3).
  assert (dblk (platter (bc s2)) start = dblk d start) as Es.
  { rewrite Hpl2. apply dblk_apply_out. intros Hin.
    apply list_elem_of_fmap in Hin as ([h' x] & E & Hin).
    apply list_elem_of_fmap in Hin as (j & [= -> _] & Hj%elem_of_upto). cbn in E.
    apply (Hhome j Hj 0); [plia|lia]. }
  change (blk (bc s2) start) with (dblk (platter (bc s2)) start) in *. rewrite Es in *.
  split_and!; [done|by rewrite Hlg3| |].
  - rewrite Hpl3. unfold cleared. rewrite <- Hpl2, Es. done.
  - rewrite Hw3, Hw2, Hw1. by rewrite app_assoc.
Qed.

(** [initlog] from a cache that holds nothing. *)
Lemma initlog_spec s c start nlog :
  let d := platter (bc s) in
  bR (bc s) ∅ -> nolk c ->
  length (lh_block (l_lh (lg s))) = Z.to_nat LOGSIZE -> log_ok start d ->
  runs (initlog ROOTDEV start nlog) c s (fun _ s' =>
    bR (bc s') ∅ /\ lh_n (l_lh (lg s')) = 0 /\
    platter (bc s') = cleared start (apply_writes (disk_txn start d) d) /\
    writes (bc s') = writes (bc s) ++ disk_txn start d ++
      [(start, put32 (dblk d start) 0 0)]).
Proof.
  intros d HR Hc Hlb Hok. unfold initlog. cbn [Z.leb].
  apply runs_bind, runs_modify. intros c1 Hc1.
  match goal with |- runs _ _ ?s1 _ => apply (recover_spec s1 c1) end;
    cbn; [done|ctxs|done|done|done].
Qed.

(** ** Commit *)

(** The state [end_op] calls [commit] in: the transaction [txn] is recorded in the
    in-memory header and pinned in the cache, and the log on disk is empty. *)
Record tx_ready (s : lstate) (txn : list (Z * block)) : Prop := {
  tx_cache : bR (bc s) (pinned txn);
  tx_nodup : NoDup txn.*1;
  tx_len : (0 < length txn < Z.to_nat NBUF)%nat;
  tx_dev : l_dev (lg s) = ROOTDEV;
  tx_n : lh_n (l_lh (lg s)) = Z.of_nat (length txn);
  tx_hlen : length (lh_block (l_lh (lg s))) = Z.to_nat LOGSIZE;
  tx_blocks : forall i h d, txn !! Z.to_nat i = Some (h, d) -> 0 <= i -> blockat (lg s) i = h;
  tx_home : forall h, h ∈ txn.*1 -> home (l_start (lg s)) h /\ 0 <= h < 2 ^ 31;
  tx_empty : hdr_n (blk (bc s) (l_start (lg s))) = 0;
  tx_blen : length (blk (bc s) (l_start (lg s))) = Z.to_nat BSIZE
}.

(** The header [commit] writes to commit, and the one that erases the log. *)
Definition commit_head (s : lstate) : block :=
  encode_head (l_lh (lg s)) (blk (bc s) (l_start (lg s))).

Definition commit_writes (s : lstate) (txn : list (Z * block)) : list (Z * block) :=
  log_writes txn (lg s) ++ [(l_start (lg s), commit_head s)] ++
  txn ++ [(l_start (lg s), put32 (commit_head s) 0 0)].

Section commit.
Context (s : lstate) (txn : list (Z * block)) (Hr : tx_ready s txn).
Local Notation start := (l_start (lg s)).

Lemma tx_head_ok : head_ok (l_lh (lg s)).
Proof.
  pose proof (tx_len _ _ Hr). unfold head_ok. rewrite (tx_n _ _ Hr).
  split_and!; [lia|plia|apply Hr|]. intros i Hi.
  destruct (txn !! Z.to_nat i) as [[h d]|] eqn:E; [|apply lookup_ge_None in E; lia].
  pose proof (tx_blocks _ _ Hr i h d E ltac:(lia)) as Hb. unfold blockat in Hb. rewrite Hb.
  apply (tx_home _ _ Hr), list_elem_of_fmap. exists (h, d).
  split; [done|by eapply list_elem_of_lookup_2].
Qed.

Lemma log_writes_elem b x :
  (b, x) ∈ log_writes txn (lg s) ->
  exists i h, 0 <= i < Z.of_nat (length txn) /\ txn !! Z.to_nat i = Some (h, x) /\
    b = start + i + 1.
Proof.
  unfold log_writes. intros (j & Hj)%list_elem_of_lookup.
  rewrite list_lookup_imap in Hj. destruct (txn !! j) as [[h d]|] eqn:E; [|done].
  cbn in Hj. injection Hj as <- <-. exists (Z.of_nat j), h.
  rewrite Nat2Z.id. split_and!; [lia|apply lookup_lt_Some in E; lia|done|done].
Qed.

Lemma log_writes_region b : b ∈ (log_writes txn (lg s)).*1 ->
  exists i, 0 <= i < Z.of_nat (length txn) /\ b = start + i + 1.
Proof.
  intros ([b' x] & -> & Hin)%list_elem_of_fmap.
  apply log_writes_elem in Hin as (i & h & ? & ? & ?). eauto.
Qed.

Lemma NoDup_log_writes : NoDup (log_writes txn (lg s)).*1.
Proof.
  unfold log_writes. apply NoDup_alt. intros i j b Hi Hj.
  rewrite list_lookup_fmap, list_lookup_imap in Hi, Hj.
  destruct (txn !! i), (txn !! j); simplify_eq/=. lia.
Qed.

Lemma log_block_written d i h x :
  0 <= i -> txn !! Z.to_nat i = Some (h, x) ->
  dblk (apply_writes (log_writes txn (lg s)) d) (start + i + 1) = x.
Proof.
  intros Hi E. apply dblk_apply_in; [apply NoDup_log_writes|].
  eapply list_elem_of_lookup_2. by apply log_writes_lookup with h.
Qed.

Lemma start_not_home : start ∉ txn.*1.
Proof. intros Hin. apply (tx_home _ _ Hr) in Hin as [Hh _]. apply (Hh 0); [plia|lia]. Qed.

Lemma log_block_not_home i : 0 <= i < Z.of_nat (length txn) -> start + i + 1 ∉ txn.*1.
Proof.
  intros Hi Hin. apply (tx_home _ _ Hr) in Hin as [Hh _].
  pose proof (tx_len _ _ Hr). apply (Hh (i + 1)); [plia|lia].
Qed.

(** [commit] terminates without panicking; these are its disk writes, in order. *)
Lemma commit_spec c :
  nolk c ->
  runs commit c s (fun _ s' =>
    bR (bc s') ∅ /\ lg s' = set_lh (set_n 0 (l_lh (lg s))) (lg s) /\
    platter (bc s') = apply_writes (commit_writes s txn) (platter (bc s)) /\
    writes (bc s') = writes (bc s) ++ commit_writes s txn).
Proof.
  intros Hc. unfold commit. apply runs_bind, runs_gets. rewrite (tx_n _ _ Hr). intros c0 Hc0.
  pose proof (tx_len _ _ Hr). destruct (Z.ltb_spec 0 (Z.of_nat (length txn))); [|lia].
  assert (forall h i, h ∈ txn.*1 -> 0 <= i <= Z.of_nat (length txn) -> h <> start + i) as Hreg.
  { intros h i Hh Hi. apply (tx_home _ _ Hr) in Hh as [Hh _]. apply Hh. plia. }
  call (write_log_spec txn (lg s)); 
    [by eapply tx_nodup|lia|by eapply tx_dev|by eapply tx_blocks|done|by eapply tx_cache|done
    |ctxs|by eapply tx_n|].
  intros _ s1 (HR1 & Hlg1 & Hp1 & Hw1) c1 Hc1.
  assert (blk (bc s1) start = blk (bc s) start) as Eb.
  { unfold blk. rewrite Hp1. apply dblk_apply_out.
    intros (i & Hi & E)%log_writes_region. lia. }
  call write_head_spec; [exact HR1|ctxs| | | |].
  { rewrite Hlg1. by eapply tx_dev. }
  { rewrite Hlg1. apply pinned_None, start_not_home. }
  { rewrite size_pinned by apply Hr. lia. }
  rewrite Hlg1. fold start. rewrite Eb. fold (commit_head s).
  cbn. intros _ s2 (HR2 & Hlg2 & Hp2 & Hw2) c2 Hc2.
  call (install_commit_spec txn (lg s)); 
    [by eapply tx_nodup|lia|by eapply tx_dev|by eapply tx_blocks|done|exact HR2|done
    |ctxs|by eapply tx_n| |].
  { intros i h d Hi E. unfold blk. rewrite Hp2, lookup_insert_ne by lia.
    rewrite Hp1. by apply (log_block_written _ i h d). }
  intros _ s3 (HR3 & Hlg3 & Hp3 & Hw3) c3 Hc3.
  apply runs_bind, runs_modify. intros c4 Hc4.
  assert (blk (bc s3) start = commit_head s) as Eh.
  { unfold blk. rewrite Hp3. etransitivity; [apply dblk_apply_out, start_not_home|].
    unfold dblk. by rewrite Hp2, lookup_insert_eq. }
  eapply runs_mono; [eapply write_head_spec; [exact HR3|ctxs| |apply lookup_empty|]|].
  { cbn. rewrite Hlg3. by eapply tx_dev. } { rewrite map_size_empty. plia. }
  cbn. rewrite Hlg3. fold start. rewrite Eh. intros _ s4 (HR4 & Hlg4 & Hp4 & Hw4).
  split_and!; [done|done| |].
  - unfold commit_writes. rewrite !apply_writes_app.
    rewrite Hp4, Hp3, Hp2, Hp1. done.
  - rewrite Hw4, Hw3, Hw2, Hw1. unfold commit_writes. by rewrite !app_assoc.
Qed.
End commit.

(** ** Crashes *)

(** What the blocks outside the log hold after recovery from disk [d]. *)
Definition recovered (start : Z) (d : disk) (b : Z) : block :=
  dblk (apply_writes (disk_txn start d) d) b.

Lemma dblk_cleared start d b : home start b -> dblk (cleared start d) b = dblk d b.
Proof.
  intros Hb. unfold cleared. rewrite dblk_insert, decide_False; [done|].
  intros ->. apply (Hb 0); [plia|lia].
Qed.

Lemma disk_txn_home start d b :
  log_ok start d -> b ∈ (disk_txn start d).*1 -> home start b.
Proof.
  intros (_ & _ & Hh) ([b' x] & -> & Hin)%list_elem_of_fmap.
  apply list_elem_of_fmap in Hin as (i & [= -> ->] & Hi%elem_of_upto). by apply Hh.
Qed.

(** Only the header and the log blocks it covers matter to recovery. *)
Lemma disk_txn_ext start d d' :
  dblk d' start = dblk d start ->
  (forall i, 0 <= i < hdr_n (dblk d start) ->
     dblk d' (start + i + 1) = dblk d (start + i + 1)) ->
  disk_txn start d' = disk_txn start d.
Proof.
  intros E Hi. unfold disk_txn. rewrite E. apply list_fmap_ext. intros j i Hj.
  rewrite Hi; [done|]. apply elem_of_upto. by eapply list_elem_of_lookup_2.
Qed.

Lemma log_ok_ext start d d' : dblk d' start = dblk d start -> log_ok start d -> log_ok start d'.
Proof. unfold log_ok. by intros ->. Qed.

Lemma disk_txn_erased start d : hdr_n (dblk d start) = 0 -> disk_txn start d = [].
Proof. unfold disk_txn. by intros ->. Qed.

Lemma log_ok_erased start d :
  hdr_n (dblk d start) = 0 -> length (dblk d start) = Z.to_nat BSIZE -> log_ok start d.
Proof. intros E Hl. unfold log_ok. rewrite E. split_and!; [plia|plia|done|lia]. Qed.

Lemma hdr_n_erase x : length x = Z.to_nat BSIZE -> hdr_n (put32 x 0 0) = 0.
Proof.
  intros Hl. unfold hdr_n. rewrite get32_put32_same by (rewrite ?Hl; unfold BSIZE; lia). done.
Qed.

Lemma elem_of_take_fst (ws : list (Z * block)) k b : b ∈ (take k ws).*1 -> b ∈ ws.*1.
Proof.
  intros Hin. rewrite <- (take_drop k ws), fmap_app. apply elem_of_app. by left.
Qed.

(** Installing part of the transaction before installing all of it is harmless. *)
Lemma apply_prefix_absorbed txn k d b :
  dblk (apply_writes txn (apply_writes (take k txn) d)) b = dblk (apply_writes txn d) b.
Proof.
  apply dblk_apply_agree. destruct (decide (b ∈ txn.*1)) as [|Hn]; [by left|right].
  apply dblk_apply_out. by intros ?%elem_of_take_fst.
Qed.

Section crash.
Context (s : lstate) (txn : list (Z * block)) (Hr : tx_ready s txn).
Local Notation start := (l_start (lg s)).
Local Notation d0 := (platter (bc s)).
Local Notation lw := (log_writes txn (lg s)).

Lemma committed_log d :
  dblk d start = commit_head s ->
  (forall i h x, 0 <= i -> txn !! Z.to_nat i = Some (h, x) -> dblk d (start + i + 1) = x) ->
  log_ok start d /\ disk_txn start d = txn.
Proof.
  intros Eh El. pose proof (tx_len _ _ Hr).
  destruct (encode_head_spec (l_lh (lg s)) (blk (bc s) start)) as (Hl & Hn & Hb);
    [by apply tx_head_ok with txn|by eapply tx_blen|].
  fold (commit_head s) in Hl, Hn, Hb. rewrite (tx_n _ _ Hr) in Hn, Hb.
  assert (forall i h x, txn !! Z.to_nat i = Some (h, x) -> 0 <= i ->
    hdr_block (commit_head s) i = h) as Hh.
  { intros i h x E Hi. pose proof (lookup_lt_Some _ _ _ E).
    rewrite Hb by lia. by eapply tx_blocks. }
  unfold log_ok, disk_txn. rewrite Eh, Hn. split; [split_and!; [lia|plia|done|]|].
  - intros i Hi. destruct (txn !! Z.to_nat i) as [[h x]|] eqn:E; [|apply lookup_ge_None in E; lia].
    rewrite (Hh i h x) by (done || lia). apply (tx_home _ _ Hr), list_elem_of_fmap.
    exists (h, x). split; [done|by eapply list_elem_of_lookup_2].
  - apply list_eq. intros j. rewrite list_lookup_fmap.
    destruct (txn !! j) as [[h x]|] eqn:E.
    + pose proof (lookup_lt_Some _ _ _ E). rewrite lookup_upto by lia. cbn.
      rewrite <- (Nat2Z.id j) in E. rewrite (Hh _ h x), (El _ h x) by (done || lia). done.
    + apply lookup_ge_None in E.
      rewrite (proj2 (lookup_ge_None (upto _) j)) by (rewrite length_upto; lia). done.
Qed.

Lemma lw_start : start ∉ lw.*1.
Proof. intros (i & ? & ?)%log_writes_region. lia. Qed.

Lemma lw_home b : home start b -> b ∉ lw.*1.
Proof.
  intros Hb (i & Hi & ->)%log_writes_region. pose proof (tx_len _ _ Hr).
  apply (Hb (i + 1)); [plia|lia].
Qed.

Lemma home_ne_start b : home start b -> start <> b.
Proof. intros Hb E. apply (Hb 0); [plia|lia]. Qed.

(** The disk once the header is written. *)
Definition d_committed : disk := <[start := commit_head s]> (apply_writes lw d0).

Lemma apply_txn_committed b :
  home start b -> dblk (apply_writes txn d_committed) b = dblk (apply_writes txn d0) b.
Proof.
  intros Hb. apply dblk_apply_agree. right. unfold d_committed.
  rewrite dblk_insert, decide_False by (by apply home_ne_start).
  by apply dblk_apply_out, lw_home.
Qed.

(** Before the header is written recovery finds an empty log. *)
Lemma prefix_before k b :
  home start b ->
  let d := apply_writes (take k lw) d0 in
  log_ok start d /\ recovered start d b = dblk d0 b.
Proof.
  intros Hb d.
  assert (forall x, x ∉ lw.*1 -> dblk d x = dblk d0 x) as E.
  { intros x Hx. apply dblk_apply_out. by intros ?%elem_of_take_fst. }
  assert (hdr_n (dblk d start) = 0) as He.
  { rewrite E by apply lw_start. by eapply tx_empty. }
  split; [apply log_ok_erased; [done|rewrite E by apply lw_start; by eapply tx_blen]|].
  unfold recovered. rewrite disk_txn_erased by done. by apply E, lw_home.
Qed.

(** From then on recovery finds, and installs, the transaction. *)
Lemma prefix_committed m b :
  home start b ->
  let d := apply_writes (take m txn) d_committed in
  log_ok start d /\ recovered start d b = dblk (apply_writes txn d0) b.
Proof.
  intros Hb d.
  assert (forall x, x ∉ txn.*1 -> dblk d x = dblk d_committed x) as E.
  { intros x Hx. apply dblk_apply_out. by intros ?%elem_of_take_fst. }
  destruct (committed_log d) as [Hok Htx].
  { rewrite E by (by apply start_not_home). unfold d_committed.
    by rewrite dblk_insert, decide_True. }
  { intros i h x Hi El. pose proof (lookup_lt_Some _ _ _ El).
    rewrite E by (apply log_block_not_home; [done|lia]). unfold d_committed.
    rewrite dblk_insert, decide_False by lia. by apply log_block_written with h. }
  split; [done|]. unfold recovered. rewrite Htx. unfold d.
  rewrite apply_prefix_absorbed. by apply apply_txn_committed.
Qed.

(** After the log is erased the transaction is at its home locations. *)
Lemma prefix_erased b :
  home start b ->
  let d := <[start := put32 (commit_head s) 0 0]> (apply_writes txn d_committed) in
  log_ok start d /\ recovered start d b = dblk (apply_writes txn d0) b.
Proof.
  intros Hb d.
  assert (length (commit_head s) = Z.to_nat BSIZE) as Hl.
  { apply encode_head_spec; [by apply tx_head_ok with txn|by eapply tx_blen]. }
  assert (dblk d start = put32 (commit_head s) 0 0) as Es.
  { unfold d. by rewrite dblk_insert, decide_True. }
  assert (hdr_n (dblk d start) = 0) as He by (rewrite Es; by apply hdr_n_erase).
  split; [apply log_ok_erased; [done|by rewrite Es, length_put32]|].
  unfold recovered. rewrite disk_txn_erased by done. unfold d. cbn.
  rewrite dblk_insert, decide_False by (by apply home_ne_start).
  by apply apply_txn_committed.
Qed.

(** What recovery finds after [k] writes of [commit]. *)
Lemma commit_prefix k b :
  home start b ->
  let d := apply_writes (take k (commit_writes s txn)) d0 in
  log_ok start d /\
  recovered start d b =
  dblk (if decide (k <= length txn)%nat then d0 else apply_writes txn d0) b.
Proof.
  intros Hb. unfold commit_writes. rewrite take_app, apply_writes_app, length_log_writes.
  case_decide as Hk.
  { replace (k - length txn)%nat with O by lia. by apply prefix_before. }
  rewrite (take_ge lw) by (rewrite length_log_writes; lia).
  destruct (k - length txn)%nat as [|m] eqn:Ek; [lia|].
  change (take (S m) _) with
    ((start, commit_head s) :: take m (txn ++ [(start, put32 (commit_head s) 0 0)])).
  change (apply_writes (?w :: ?ws) (apply_writes lw d0)) with (apply_writes ws d_committed).
  rewrite take_app, apply_writes_app.
  destruct (m - length txn)%nat as [|m'] eqn:Em; [by apply prefix_committed|].
  rewrite (take_ge txn) by lia. cbn [take]. rewrite take_nil. by apply prefix_erased.
Qed.
(** The disk [commit] leaves when it is not interrupted. *)
Lemma commit_writes_final :
  apply_writes (commit_writes s txn) d0 =
  <[start := put32 (commit_head s) 0 0]> (apply_writes txn d_committed).
Proof. unfold commit_writes. by rewrite !apply_writes_app. Qed.

Lemma commit_header :
  hdr_n (dblk (apply_writes (commit_writes s txn) d0) start) = 0.
Proof.
  rewrite commit_writes_final, dblk_insert, decide_True by done. apply hdr_n_erase.
  apply encode_head_spec; [by apply tx_head_ok with txn|by eapply tx_blen].
Qed.

Lemma commit_final b :
  home start b ->
  dblk (apply_writes (commit_writes s txn) d0) b = dblk (apply_writes txn d0) b.
Proof.
  intros Hb. rewrite commit_writes_final.
  rewrite dblk_insert, decide_False by (by apply home_ne_start).
  by apply apply_txn_committed.
Qed.
End crash.

(** ** A crash while recovering *)

Definition recovery_writes (start : Z) (d : disk) : list (Z * block) :=
  disk_txn start d ++ [(start, put32 (dblk d start) 0 0)].

Lemma recovery_prefix start d k b :
  log_ok start d -> home start b ->
  let d' := apply_writes (take k (recovery_writes start d)) d in
  log_ok start d' /\ recovered start d' b = recovered start d b.
Proof.
  intros Hok Hb. unfold recovery_writes. rewrite take_app, apply_writes_app.
  assert (start ∉ (disk_txn start d).*1) as Hs.
  { intros Hin. apply disk_txn_home in Hin; [|done]. apply (Hin 0); [plia|lia]. }
  destruct (k - length (disk_txn start d))%nat as [|m] eqn:Ek.
  - cbn. set (d1 := apply_writes (take k (disk_txn start d)) d).
    assert (forall x, x ∉ (disk_txn start d).*1 -> dblk d1 x = dblk d x) as E.
    { intros x Hx. apply dblk_apply_out. by intros ?%elem_of_take_fst. }
    split; [by apply (log_ok_ext _ d); [apply E|]|].
    unfold recovered. rewrite (disk_txn_ext start d d1); [|by apply E|].
    + unfold d1. by rewrite apply_prefix_absorbed.
    + destruct Hok as (Hn & _ & Hh). intros i Hi. apply E.
      intros ([b' x] & Eb & Hin)%list_elem_of_fmap.
      apply list_elem_of_fmap in Hin as (j & [= -> _] & Hj%elem_of_upto). cbn in Eb.
      apply (Hh j Hj (i + 1)); lia.
  - rewrite (take_ge (disk_txn start d)) by lia. cbn [take]. rewrite take_nil.
    set (d1 := apply_writes (disk_txn start d) d).
    change (apply_writes [?w] d1) with (<[fst w := snd w]> d1). cbn [fst snd].
    set (d2 := <[start := _]> d1). destruct Hok as (_ & Hl & _).
    assert (dblk d2 start = put32 (dblk d start) 0 0) as E2.
    { unfold d2. by rewrite dblk_insert, decide_True. }
    assert (hdr_n (dblk d2 start) = 0) as He by (rewrite E2; by apply hdr_n_erase).
    split; [apply log_ok_erased; [done|by rewrite E2, length_put32]|].
    unfold recovered at 1. rewrite disk_txn_erased by done. cbn. unfold d2.
    rewrite dblk_insert, decide_False; [done|]. intros E. apply (Hb 0); [plia|lia].
Qed.

(** ** Starting up, starting and ending operations *)

Definition static_log : log := Log 0 0 0 false 0 (LH 0 (replicate (Z.to_nat LOGSIZE) 0)).

(** The memory of a machine that starts with disk [d], after [binit]. *)
Definition boot (d : disk) : lstate := LState static_log (binit (static_bcache d)).

Lemma boot_spec c d start nlog :
  nolk c -> log_ok start d ->
  runs (initlog ROOTDEV start nlog) c (boot d) (fun _ s' =>
    bR (bc s') ∅ /\ lh_n (l_lh (lg s')) = 0 /\
    writes (bc s') = writes (bc (boot d)) ++ recovery_writes start d /\
    platter (bc s') = cleared start (apply_writes (disk_txn start d) d) /\
    forall b, home start b -> blk (bc s') b = recovered start d b).
Proof.
  intros Hc Hok. destruct (binit_spec d) as [HR Hp].
  eapply runs_mono; [apply initlog_spec; cbn [bc lg boot]; [exact HR|done|done|by rewrite Hp]|].
  cbn [bc lg boot]. rewrite Hp. intros _ s' (HR' & Hn & Hp' & Hw).
  split_and!; [done|done|done|done|].
  intros b Hb. change (blk (bc s') b) with (dblk (platter (bc s')) b).
  rewrite Hp'. by apply dblk_cleared.
Qed.

Lemma txR_ready pid s txn :
  txR pid s txn ∅ -> (0 < length txn < Z.to_nat NBUF)%nat ->
  (forall h, h ∈ txn.*1 -> home (l_start (lg s)) h /\ 0 <= h < 2 ^ 31) ->
  hdr_n (blk (bc s) (l_start (lg s))) = 0 ->
  length (blk (bc s) (l_start (lg s))) = Z.to_nat BSIZE -> tx_ready s txn.
Proof.
  intros [HR Hnd Hn Hl Hb Hdev Hop] Hlen Hh He Hbl. rewrite tlive_pinned in HR.
  split; try done. intros i h d E Hi. unfold blockat.
  pose proof (lookup_lt_Some _ _ _ E). rewrite <- (nthZ_take 0 _ _ (length txn)) by lia.
  rewrite Hb. apply nthZ_lookup; [done|]. by rewrite list_lookup_fmap, E.
Qed.

(** The last [end_op] of a transaction commits it. *)
Lemma end_op_spec s c txn :
  tx_ready s txn -> nolk c -> LK_log ∉ held c ->
  l_outstanding (lg s) = 1 -> l_committing (lg s) = false ->
  runs end_op c s (fun _ s' =>
    bR (bc s') ∅ /\ lh_n (l_lh (lg s')) = 0 /\ l_outstanding (lg s') = 0 /\
    l_committing (lg s') = false /\
    platter (bc s') = apply_writes (commit_writes s txn) (platter (bc s))).
Proof.
  intros Hr Hc Hl Ho Hcm. apply runs_wp. unfold end_op.
  apply wp_bind, wp_acquire; [done|]. apply wp_bind, wp_modify, wp_bind, wp_gets. cbn.
  rewrite Hcm, Ho. cbn. apply wp_bind, wp_bind, wp_modify, wp_ret.
  apply wp_bind, wp_release with (c0 := c); [done|done|]. change (Ctx _ _ _) with (Ctx (held c) (wakes c) (mypid c)). rewrite ctx_eta.
  set (s1 := set_lg _ _).
  assert (tx_ready s1 txn) as Hr1. { by destruct Hr; split. }
  apply wp_bind. eapply wp_runs; [apply (commit_spec s1 txn Hr1); done|].
  cbn. intros _ c2 s2 Hc2 (HR2 & Hlg2 & Hp2 & _).
  apply wp_bind, wp_acquire; [by destruct Hc2 as [<- _]|].
  apply wp_bind, wp_modify, wp_bind, wp_wakeup.
  apply wp_release with (c0 := c2); [done|by destruct Hc2 as [<- _]|].
  split; [done|]. cbn. rewrite Hlg2. split_and!; [done|done|unfold s1; cbn; lia|done|exact Hp2].
Qed.

(** ** Properties *)




(** ** Witnesses *)

Definition ex_txn : list (Z * block) := [(40, ex_block)].

Lemma ex_ready :
  exists s, txR 7 s ex_txn ∅ /\ tx_ready s ex_txn /\
    l_outstanding (lg s) = 1 /\ l_committing (lg s) = false.
Proof.
  destruct (update_spec 7 ex_state [] ex_ctx 40 (fun _ => ex_block)) as
    (_ & _ & s & _ & _ & HT & Hf); 
    [apply ex_txR|apply ex_nolk|apply ex_nolk|done|cbn; plia|cbn; plia|].
  destruct Hf as (Hp & _ & Hst & _ & Ho & _ & Hcm). cbn in Hst, Ho, Hcm.
  assert (blk (bc s) 2 = zero_block) as E2.
  { unfold blk. rewrite Hp. cbn [bc ex_state]. by rewrite (proj2 (binit_spec ∅)). }
  exists s. split_and!; [done| |done|done].
  eapply txR_ready; [exact HT|cbn; plia| | |]; rewrite Hst.
  - intros h Hh. cbn in Hh. apply list_elem_of_singleton in Hh. subst h.
    split; [intros i Hi; plia|lia].
  - rewrite E2. vm_compute. reflexivity.
  - by rewrite E2.
Qed.


(** A disk whose log holds a committed block 40 that has not been installed. *)
Definition ex_logged : disk := <[2 := put32 (put32 zero_block 0 1) 4 40]> (<[3 := ex_block]> ∅).

Lemma log_ok_logged : log_ok 2 ex_logged /\ recovery_writes 2 ex_logged !! 0%nat = Some (40, ex_block).
Proof.
  split; [|by vm_compute]. assert (En : hdr_n (dblk ex_logged 2) = 1) by (vm_compute; reflexivity).
  unfold log_ok. rewrite En. split_and!; [plia|plia|by vm_compute|].
  intros i Hi k Hk. replace i with 0 by lia. assert (hdr_block (dblk ex_logged 2) 0 = 40) as -> by (vm_compute; reflexivity).
  unfold LOGSIZE, MAXOPBLOCKS in *. lia.
Qed.


