(* ===== verification/BlockLayer.v ===== *)
(** * The interface of the block layer

    fs.c uses the buffer cache and the log through a handful of calls.  [BlockLayer]
    is that interface; [BlockLaws] states what a transaction promises its user, in
    terms of a logical disk [b_ld] (what [bread] returns), the buffers the process
    holds and the blocks logged so far.  The instance at the end shows that
    bio.c and log.c keep the promise; the file system is verified against the
    interface. *)

From S2P Require Import Prelude KMonad Riscv Bytes Sleeplock Bio Log LogTx.

Class BlockLayer (L : Type) := {
  bl_bread : Z -> Z -> M L Z;
  bl_get : Z -> M L block;
  bl_put : Z -> block -> M L unit;
  bl_log_write : Z -> M L unit;
  bl_brelse : Z -> M L unit;
  bl_begin_op : M L unit;
  bl_end_op : M L unit;
  bl_initlog : Z -> Z -> Z -> M L unit;
  (** the disk interrupt *)
  bl_intr : M L unit
}.

(** A transaction under way. *)
Record bstate := BS {
  b_ld : Z -> block;
  b_held : gmap Z block;
  b_txn : gset Z
}.

Definition bupd (f : Z -> block) (b : Z) (d : block) : Z -> block :=
  fun b' => if decide (b = b') then d else f b'.

Class BlockLaws (L : Type) `{BlockLayer L} := {
  (** process [pid] is in a transaction *)
  bl_R : Z -> L -> bstate -> Prop;
  (** handle [i] is the buffer of block [b] *)
  bl_handle : L -> Z -> Z -> Prop;
  (** the number of blocks a transaction may log *)
  bl_cap : L -> Z;
  (** the running thread holds no lock of the block layer *)
  bl_free : ctx -> Prop;
  bl_free_ceq c c' : ceq c c' -> bl_free c -> bl_free c';
  bl_ext pid l s f : bl_R pid l s -> (forall b, b_ld s b = f b) ->
    bl_R pid l (BS f (b_held s) (b_txn s));
  bl_length pid l s b : bl_R pid l s -> length (b_ld s b) = Z.to_nat BSIZE;
  bl_bread_ok pid l s c b :
    bl_R pid l s -> bl_free c -> mypid c = pid -> b_held s !! b = None ->
    Z.of_nat (size (b_txn s) + size (b_held s)) < NBUF ->
    runs (bl_bread ROOTDEV b) c l (fun i l' =>
      bl_R pid l' (BS (b_ld s) (<[b := b_ld s b]> (b_held s)) (b_txn s)) /\
      bl_handle l' i b /\ (forall j b', b' <> b -> bl_handle l j b' -> bl_handle l' j b') /\
      bl_cap l' = bl_cap l);
  bl_get_ok pid l s c i b d :
    bl_R pid l s -> b_held s !! b = Some d -> bl_handle l i b ->
    bl_get i c l = Ok d c l;
  bl_put_ok pid l s c i b d d' :
    bl_R pid l s -> b_held s !! b = Some d -> bl_handle l i b ->
    length d' = Z.to_nat BSIZE ->
    runs (bl_put i d') c l (fun _ l' =>
      bl_R pid l' (BS (b_ld s) (<[b := d']> (b_held s)) (b_txn s)) /\
      bl_handle l' i b /\ (forall j b', b' <> b -> bl_handle l j b' -> bl_handle l' j b') /\
      bl_cap l' = bl_cap l);
  bl_log_write_ok pid l s c i b d :
    bl_R pid l s -> bl_free c -> b_held s !! b = Some d -> bl_handle l i b ->
    Z.of_nat (size (b_txn s)) < bl_cap l ->
    runs (bl_log_write i) c l (fun _ l' =>
      bl_R pid l' (BS (bupd (b_ld s) b d) (b_held s) ({[b]} ∪ b_txn s)) /\
      bl_handle l' i b /\ (forall j b', b' <> b -> bl_handle l j b' -> bl_handle l' j b') /\
      bl_cap l' = bl_cap l);
  bl_brelse_ok pid l s c i b :
    bl_R pid l s -> bl_free c -> mypid c = pid ->
    b_held s !! b = Some (b_ld s b) -> bl_handle l i b ->
    runs (bl_brelse i) c l (fun _ l' =>
      bl_R pid l' (BS (b_ld s) (delete b (b_held s)) (b_txn s)) /\
      (forall j b', b' <> b -> bl_handle l j b' -> bl_handle l' j b') /\
      bl_cap l' = bl_cap l)
}.

(** ** The implementation: bio.c and log.c *)

#[export] Instance log_layer : BlockLayer lstate := {|
  bl_bread dev b := bio (bread dev b);
  bl_get i := bio (get_data i);
  bl_put i d := bio (put_data i d);
  bl_log_write := log_write;
  bl_brelse i := bio (brelse i);
  bl_begin_op := begin_op;
  bl_end_op := end_op;
  bl_initlog := initlog;
  (** [disk_rw] is atomic in Bio, no request is ever pending there; the driver with its
      interrupts is file Virtio, and VirtioInv shows that it implements [disk_rw] *)
  bl_intr := ret tt
|}.

Record logR (pid : Z) (s : lstate) (a : bstate) (txn : list (Z * block)) : Prop := {
  lr_tx : txR pid s txn (b_held a);
  lr_ld : forall b, b_ld a b = ld s txn b;
  lr_txn : forall b, b ∈ b_txn a <-> b ∈ txn.*1;
  lr_len : forall b, length (b_ld a b) = Z.to_nat BSIZE /\
    forall d, b_held a !! b = Some d -> length d = Z.to_nat BSIZE
}.

Definition log_free (c : ctx) : Prop := nolk c /\ LK_log ∉ held c.

Definition log_cap (s : lstate) : Z := Z.min LOGSIZE (l_size (lg s) - 1).

Lemma logR_size pid s a txn : logR pid s a txn -> size (b_txn a) = length txn.
Proof.
  intros [HT _ Ht _]. rewrite <- (length_fmap fst).
  rewrite <- (size_list_to_set (C := gset Z) txn.*1) by apply HT.
  f_equal. apply set_eq. intros b. by rewrite Ht, elem_of_list_to_set.
Qed.

Lemma log_cap_frame s s' : frame s s' -> log_cap s' = log_cap s.
Proof. intros (_ & _ & _ & E & _). unfold log_cap. by rewrite E. Qed.

Lemma logR_log_write pid s a txn s' b d :
  logR pid s a txn -> b_held a !! b = Some d -> frame s s' ->
  txR pid s' (upd_txn txn b d) (b_held a) ->
  logR pid s' (BS (bupd (b_ld a) b d) (b_held a) ({[b]} ∪ b_txn a)) (upd_txn txn b d).
Proof.
  intros [HT Hld Htx Hlen] Hd Hf HT'. split; cbn; [done| | |].
  - intros b'. rewrite (ld_frame s s'), ld_upd by (done || apply HT).
    unfold bupd. by case_decide.
  - intros b'. rewrite elem_of_union, elem_of_singleton, Htx, upd_txn_fst.
    case_decide as E; [naive_solver|]. rewrite elem_of_app, list_elem_of_singleton. tauto.
  - intros b'. split; [|apply Hlen]. unfold bupd. case_decide; [|apply Hlen].
    by apply (Hlen b).
Qed.

#[export] Program Instance log_laws : BlockLaws lstate := {|
  bl_R pid s a := exists txn, logR pid s a txn;
  bl_handle s i b := handle (bc s) i b;
  bl_cap := log_cap;
  bl_free := log_free
|}.
Next Obligation. intros c c' E [? ?]. split; [by eapply nolk_ceq|]. by destruct E as [<- _]. Qed.
Next Obligation.
  intros pid l s f (txn & [HT Hld Htx Hlen]) E. exists txn. split; cbn; [done| |done|].
  - intros b. by rewrite <- E.
  - intros b. rewrite <- E. apply Hlen.
Qed.
Next Obligation. intros pid l s b (txn & [_ _ _ Hlen]). apply Hlen. Qed.
Next Obligation.
  intros pid l s c b (txn & HR) [Hc _] Hp Hb Hsz. rewrite (logR_size _ _ _ _ HR) in Hsz.
  destruct HR as [HT Hld Htx Hlen].
  eapply runs_mono; [eapply (bread_tx pid l txn); [done|done|done|done|plia]|].
  cbn. intros i l' (HT' & Hh & Hk & Hf). rewrite <- Hld in HT'.
  split_and!; [|done|done|by apply log_cap_frame]. exists txn. split; cbn; [done| |done|].
  - intros b'. by rewrite (ld_frame l l').
  - intros b'. split; [apply Hlen|]. intros d. rewrite lookup_insert.
    case_decide; [intros [= <-]; apply Hlen|apply Hlen].
Qed.
Next Obligation.
  intros pid l s c i b d (txn & [HT _ _ _]) Hd Hh.
  destruct (tlive_is_held pid txn (b_held s) b d Hd) as [x Hx].
  destruct (tlive_held _ _ _ _ _ _ Hd Hx) as (_ & <- & _).
  change (bl_get i c l) with (bio (get_data i) c l).
  unfold bio, zoom. rewrite (get_data_spec _ _ c _ _ _ (tx_bR _ _ _ _ HT) Hh Hx). by destruct l.
Qed.
Next Obligation.
  intros pid l s c i b d d' (txn & [HT Hld Htx Hlen]) Hd Hh Hl.
  eapply runs_mono; [eapply (put_data_tx pid l txn); done|].
  cbn. intros _ l' (HT' & Hh' & Hk & Hf).
  split_and!; [|done|done|by apply log_cap_frame]. exists txn. split; cbn; [done| |done|].
  - intros b'. by rewrite (ld_frame l l').
  - intros b'. split; [apply Hlen|]. intros x. rewrite lookup_insert.
    case_decide; [by intros [= <-]|apply Hlen].
Qed.
Next Obligation.
  intros pid l s c i b d (txn & HR) [Hc Hl] Hd Hh Hcap. rewrite (logR_size _ _ _ _ HR) in Hcap.
  unfold log_cap in Hcap.
  eapply runs_mono; [eapply (log_write_tx pid l txn); [apply HR|done|done|done|done|lia|lia]|].
  cbn. intros _ l' (HT' & Hh' & Hk & Hf).
  split_and!; [|done|done|by apply log_cap_frame].
  exists (upd_txn txn b d). by apply (logR_log_write pid l s txn).
Qed.
Next Obligation.
  intros pid l s c i b (txn & [HT Hld Htx Hlen]) [Hc Hl] Hp Hd Hh. rewrite Hld in Hd.
  eapply runs_mono; [by eapply (brelse_tx pid l txn)|].
  cbn. intros _ l' (HT' & Hk & Hf). split_and!; [|done|by apply log_cap_frame].
  exists txn. split; cbn; [done| |done|].
  - intros b'. by rewrite (ld_frame l l').
  - intros b'. split; [apply Hlen|]. intros x. rewrite lookup_delete.
    case_decide; [done|apply Hlen].
Qed.
