(* ===== verification/Fs.v ===== *)
(** * The file system (kernel/fs.c)

    Five layers: blocks (the bitmap allocator), inodes (allocation, the inode table
    with its reference counts), inode content ([bmap], [readi], [writei], [itrunc]),
    directories and paths.  The code runs over the block layer interface of
    BlockLayer, and over the user memory of the running process through
    [UserMem]; kernel buffers are byte lists.  [struct inode *] is an index into the
    inode table, with [NULL = -1]. *)

From S2P Require Import Prelude KMonad Riscv Mem Bytes Sleeplock Bio BlockLayer UserMem.

(** ** kernel/fs.h, kernel/stat.h and kernel/file.h *)

Definition ROOTINO := 1.
Definition FSMAGIC := 270544960. (* 0x10203040 *)
Definition NDIRECT := 12.
Definition NINDIRECT := BSIZE / 4.
Definition MAXFILE := NDIRECT + NINDIRECT.
Definition DIRSIZ := 14.
Definition T_DIR := 1.
Definition T_FILE := 2.
Definition T_DEVICE := 3.

Record superblock := SB {
  sb_magic : Z; sb_size : Z; sb_nblocks : Z; sb_ninodes : Z;
  sb_nlog : Z; sb_logstart : Z; sb_inodestart : Z; sb_bmapstart : Z
}.

(** [struct dinode]: type, major, minor, nlink at 0, 2, 4, 6; size at 8; addrs at 12. *)
Definition sizeof_dinode := 64.
Definition IPB := BSIZE / sizeof_dinode.
Definition IBLOCK (i : Z) (sb : superblock) : Z := i / IPB + sb_inodestart sb.
Definition BPB := BSIZE * 8.
Definition BBLOCK (b : Z) (sb : superblock) : Z := b / BPB + sb_bmapstart sb.
Definition sizeof_dirent := 16.

(** In-memory copy of an inode. *)
Record inode := Inode {
  i_dev : Z; i_inum : Z; i_ref : Z; i_lock : sleeplock; i_valid : bool;
  i_type : Z; i_major : Z; i_minor : Z; i_nlink : Z; i_size : Z; i_addrs : list Z
}.

Definition inode0 : inode :=
  Inode 0 0 0 initsleeplock false 0 0 0 0 0 (replicate (Z.to_nat (NDIRECT + 1)) 0).

Record stat := Stat { st_dev : Z; st_ino : Z; st_type : Z; st_nlink : Z; st_size : Z }.

Definition set_key dev inum ref ip := Inode dev inum ref (i_lock ip) false (i_type ip) (i_major ip) (i_minor ip) (i_nlink ip) (i_size ip) (i_addrs ip).
Definition set_ref r ip := Inode (i_dev ip) (i_inum ip) r (i_lock ip) (i_valid ip) (i_type ip) (i_major ip) (i_minor ip) (i_nlink ip) (i_size ip) (i_addrs ip).
Definition set_ilock l ip := Inode (i_dev ip) (i_inum ip) (i_ref ip) l (i_valid ip) (i_type ip) (i_major ip) (i_minor ip) (i_nlink ip) (i_size ip) (i_addrs ip).
Definition set_ivalid v ip := Inode (i_dev ip) (i_inum ip) (i_ref ip) (i_lock ip) v (i_type ip) (i_major ip) (i_minor ip) (i_nlink ip) (i_size ip) (i_addrs ip).
Definition set_type t ip := Inode (i_dev ip) (i_inum ip) (i_ref ip) (i_lock ip) (i_valid ip) t (i_major ip) (i_minor ip) (i_nlink ip) (i_size ip) (i_addrs ip).
Definition set_dev_nrs ma mi ip := Inode (i_dev ip) (i_inum ip) (i_ref ip) (i_lock ip) (i_valid ip) (i_type ip) ma mi (i_nlink ip) (i_size ip) (i_addrs ip).
Definition set_nlink n ip := Inode (i_dev ip) (i_inum ip) (i_ref ip) (i_lock ip) (i_valid ip) (i_type ip) (i_major ip) (i_minor ip) n (i_size ip) (i_addrs ip).
Definition set_size n ip := Inode (i_dev ip) (i_inum ip) (i_ref ip) (i_lock ip) (i_valid ip) (i_type ip) (i_major ip) (i_minor ip) (i_nlink ip) n (i_addrs ip).
Definition set_addr k a ip := Inode (i_dev ip) (i_inum ip) (i_ref ip) (i_lock ip) (i_valid ip) (i_type ip) (i_major ip) (i_minor ip) (i_nlink ip) (i_size ip) (setZ (i_addrs ip) k a).

(** ** Structures in disk blocks *)

Definition decode_sb (d : block) : superblock :=
  SB (get32 d 0) (get32 d 4) (get32 d 8) (get32 d 12)
     (get32 d 16) (get32 d 20) (get32 d 24) (get32 d 28).

(** Offset of [(struct dinode* )bp->data + inum%IPB]. *)
Definition dip_off (inum : Z) : Z := (inum mod IPB) * sizeof_dinode.

(** The assignments of [ilock] from [dip] to [ip]. *)
Definition load_dinode (d : block) (o : Z) (ip : inode) : inode :=
  Inode (i_dev ip) (i_inum ip) (i_ref ip) (i_lock ip) true
    (s16 (get16 d o)) (s16 (get16 d (o + 2))) (s16 (get16 d (o + 4))) (s16 (get16 d (o + 6)))
    (get32 d (o + 8))
    ((fun k => get32 d (o + 12 + 4 * k)) <$> upto (NDIRECT + 1)).

(** The assignments of [iupdate] from [ip] to [dip]. *)
Definition store_dinode (ip : inode) (d : block) (o : Z) : block :=
  let d := put16 d o (i_type ip) in
  let d := put16 d (o + 2) (i_major ip) in
  let d := put16 d (o + 4) (i_minor ip) in
  let d := put16 d (o + 6) (i_nlink ip) in
  let d := put32 d (o + 8) (i_size ip) in
  fold_left (fun d k => put32 d (o + 12 + 4 * k) (nthZ 0 (i_addrs ip) k)) (upto (NDIRECT + 1)) d.

Definition zeros (n : Z) : list Z := replicate (Z.to_nat n) 0.

(** [struct dirent]: inum at 0, name at 2. *)
Definition de_inum (de : list Z) : Z := get16 de 0.
Definition de_name (de : list Z) : list Z := slice de 2 DIRSIZ.

Record fs (L U : Type) := Fs {
  fs_sb : superblock;
  fs_inode : list inode;
  fs_blk : L;
  fs_usr : U
}.
Arguments Fs {L U}.
Arguments fs_sb {L U}.
Arguments fs_inode {L U}.
Arguments fs_blk {L U}.
Arguments fs_usr {L U}.

Section ops.
Context {L U : Type} `{BlockLayer L} `{UserMem U}.

Definition set_sb (sb : superblock) (s : fs L U) : fs L U := Fs sb (fs_inode s) (fs_blk s) (fs_usr s).
Definition set_inodes (l : list inode) (s : fs L U) : fs L U := Fs (fs_sb s) l (fs_blk s) (fs_usr s).
Definition set_blk (b : L) (s : fs L U) : fs L U := Fs (fs_sb s) (fs_inode s) b (fs_usr s).
Definition set_usr (u : U) (s : fs L U) : fs L U := Fs (fs_sb s) (fs_inode s) (fs_blk s) u.
Definition blkop {A} (m : M L A) : M (fs L U) A := zoom fs_blk set_blk m.
Definition usrop {A} (m : M U A) : M (fs L U) A := zoom fs_usr set_usr m.

Definition inodeat (s : fs L U) (ip : Z) : inode := nthZ inode0 (fs_inode s) ip.
Definition upd_inode (ip : Z) (f : inode -> inode) (s : fs L U) : fs L U :=
  set_inodes (setZ (fs_inode s) ip (f (inodeat s ip))) s.

(** [ip->xxx] and assignments to it. *)
Definition iget_f {A} (ip : Z) (f : inode -> A) : M (fs L U) A := gets (fun s => f (inodeat s ip)).
Definition iset (ip : Z) (f : inode -> inode) : M (fs L U) unit := modify (upd_inode ip f).
Definition getsb : M (fs L U) superblock := gets fs_sb.

(** ** Blocks *)

Definition readsb (dev : Z) : M (fs L U) unit :=
  bp <- blkop (bl_bread dev 1) ;;
  d <- blkop (bl_get bp) ;;
  modify (set_sb (decode_sb d)) ;;
  blkop (bl_brelse bp).

Definition fsinit (dev : Z) : M (fs L U) unit :=
  readsb dev ;;
  sb <- getsb ;;
  if negb (sb_magic sb =? FSMAGIC) then panic "invalid file system"
  else blkop (bl_initlog dev (sb_logstart sb) (sb_nlog sb)).

(** Zero a block. *)
Definition bzero (dev bno : Z) : M (fs L U) unit :=
  bp <- blkop (bl_bread dev bno) ;;
  blkop (bl_put bp (zeros BSIZE)) ;;
  blkop (bl_log_write bp) ;;
  blkop (bl_brelse bp).

(** [(bp->data[bi/8] & (1 << (bi % 8))) != 0] *)
Definition bit_set (d : block) (bi : Z) : bool :=
  negb (Z.land (nthZ 0 d (bi / 8)) (Z.shiftl 1 (bi mod 8)) =? 0).

(** [for(bi = 0; bi < BPB && b + bi < sb.size; bi++)] up to the first free bit. *)
Fixpoint find_free (n : nat) (d : block) (b bi size : Z) : option Z :=
  match n with
  | O => None
  | S n' =>
      if b + bi <? size
      then if bit_set d bi then find_free n' d b (bi + 1) size else Some bi
      else None
  end.

(** [for(b = 0; b < sb.size; b += BPB)]; the loop variable runs over the list. *)
Fixpoint balloc_loop (dev size : Z) (bs : list Z) : M (fs L U) Z :=
  match bs with
  | [] => ret 0 (* printf("balloc: out of blocks\n") *)
  | b :: bs' =>
      sb <- getsb ;;
      bp <- blkop (bl_bread dev (BBLOCK b sb)) ;;
      d <- blkop (bl_get bp) ;;
      match find_free (Z.to_nat BPB) d b 0 size with
      | Some bi =>
          let m := Z.shiftl 1 (bi mod 8) in
          (* Mark block in use. *)
          blkop (bl_put bp (setZ d (bi / 8) (Z.lor (nthZ 0 d (bi / 8)) m))) ;;
          blkop (bl_log_write bp) ;;
          blkop (bl_brelse bp) ;;
          bzero dev (b + bi) ;;
          ret (b + bi)
      | None =>
          blkop (bl_brelse bp) ;;
          balloc_loop dev size bs'
      end
  end.

Definition balloc (dev : Z) : M (fs L U) Z :=
  sb <- getsb ;;
  balloc_loop dev (sb_size sb) ((fun i => i * BPB) <$> upto ((sb_size sb + BPB - 1) / BPB)).

Definition bfree (dev b : Z) : M (fs L U) unit :=
  sb <- getsb ;;
  bp <- blkop (bl_bread dev (BBLOCK b sb)) ;;
  d <- blkop (bl_get bp) ;;
  let bi := b mod BPB in
  let m := Z.shiftl 1 (bi mod 8) in
  if negb (bit_set d bi) then panic "freeing free block"
  else
    blkop (bl_put bp (setZ d (bi / 8) (Z.land (nthZ 0 d (bi / 8)) (Z.lnot m)))) ;;
    blkop (bl_log_write bp) ;;
    blkop (bl_brelse bp).

(** ** Inodes *)

Definition iinit (s : fs L U) : fs L U :=
  fold_left (fun s i => upd_inode i (set_ilock initsleeplock) s) (upto NINODE) s.

(** The scan of [iget]: the entry for the inode, or the first free entry. *)
Fixpoint iget_scan (l : list inode) (i dev inum empty : Z) : Z + Z :=
  match l with
  | [] => inr empty
  | ip :: l' =>
      if (0 <? i_ref ip) && (i_dev ip =? dev) && (i_inum ip =? inum) then inl i
      else
        iget_scan l' (i + 1) dev inum
          (if (empty =? NULL) && (i_ref ip =? 0) then i else empty)
  end.

Definition iget (dev inum : Z) : M (fs L U) Z :=
  acquire LK_itable ;;
  r <- gets (fun s => iget_scan (fs_inode s) 0 dev inum NULL) ;;
  match r with
  | inl ip =>
      iset ip (fun i => set_ref (i_ref i + 1) i) ;;
      release LK_itable ;;
      ret ip
  | inr empty =>
      if empty =? NULL then panic "iget: no inodes"
      else
        iset empty (set_key dev inum 1) ;;
        release LK_itable ;;
        ret empty
  end.

(** [for(inum = 1; inum < sb.ninodes; inum++)] *)
Fixpoint ialloc_loop (dev type : Z) (inums : list Z) : M (fs L U) Z :=
  match inums with
  | [] => ret NULL (* printf("ialloc: no inodes\n") *)
  | inum :: l =>
      sb <- getsb ;;
      bp <- blkop (bl_bread dev (IBLOCK inum sb)) ;;
      d <- blkop (bl_get bp) ;;
      let o := dip_off inum in
      if s16 (get16 d o) =? 0 then
        (* a free inode *)
        blkop (bl_put bp (put16 (splice d o (zeros sizeof_dinode)) o type)) ;;
        blkop (bl_log_write bp) ;; (* mark it allocated on the disk *)
        blkop (bl_brelse bp) ;;
        iget dev inum
      else
        blkop (bl_brelse bp) ;;
        ialloc_loop dev type l
  end.

Definition ialloc (dev type : Z) : M (fs L U) Z :=
  sb <- getsb ;;
  ialloc_loop dev type ((fun i => i + 1) <$> upto (sb_ninodes sb - 1)).

Definition iupdate (ip : Z) : M (fs L U) unit :=
  sb <- getsb ;;
  i <- iget_f ip id ;;
  bp <- blkop (bl_bread (i_dev i) (IBLOCK (i_inum i) sb)) ;;
  d <- blkop (bl_get bp) ;;
  blkop (bl_put bp (store_dinode i d (dip_off (i_inum i)))) ;;
  blkop (bl_log_write bp) ;;
  blkop (bl_brelse bp).

Definition idup (ip : Z) : M (fs L U) Z :=
  acquire LK_itable ;;
  iset ip (fun i => set_ref (i_ref i + 1) i) ;;
  release LK_itable ;;
  ret ip.

Definition acquiresleep_inode (ip : Z) : M (fs L U) unit :=
  acquiresleep (fun s => i_lock (inodeat s ip)) (fun l => upd_inode ip (set_ilock l))
    (LK_sleep_inode ip) (CH_sleep_inode ip).
Definition releasesleep_inode (ip : Z) : M (fs L U) unit :=
  releasesleep (fun l => upd_inode ip (set_ilock l)) (LK_sleep_inode ip) (CH_sleep_inode ip).
Definition holdingsleep_inode (ip : Z) : M (fs L U) bool :=
  holdingsleep (fun s => i_lock (inodeat s ip)) (LK_sleep_inode ip).

Definition ilock (ip : Z) : M (fs L U) unit :=
  ref <- iget_f ip i_ref ;;
  if (ip =? NULL) || (ref <? 1) then panic "ilock"
  else
    acquiresleep_inode ip ;;
    valid <- iget_f ip i_valid ;;
    when negb valid do
      i <- iget_f ip id ;;
      sb <- getsb ;;
      bp <- blkop (bl_bread (i_dev i) (IBLOCK (i_inum i) sb)) ;;
      d <- blkop (bl_get bp) ;;
      iset ip (load_dinode d (dip_off (i_inum i))) ;;
      blkop (bl_brelse bp) ;;
      t <- iget_f ip i_type ;;
      when t =? 0 do panic "ilock: no type".

Definition iunlock (ip : Z) : M (fs L U) unit :=
  if ip =? NULL then panic "iunlock"
  else
    h <- holdingsleep_inode ip ;;
    ref <- iget_f ip i_ref ;;
    if negb h || (ref <? 1) then panic "iunlock" else releasesleep_inode ip.

(** ** Inode content *)

(** [(uint* )bp->data[bn]] *)
Definition get_slot (d : block) (bn : Z) : Z := get32 d (4 * bn).

Definition bmap (ip bn : Z) : M (fs L U) Z :=
  if bn <? NDIRECT then
    addr <- iget_f ip (fun i => nthZ 0 (i_addrs i) bn) ;;
    if addr =? 0 then
      dev <- iget_f ip i_dev ;;
      addr <- balloc dev ;;
      if addr =? 0 then ret 0
      else
        iset ip (set_addr bn addr) ;;
        ret addr
    else ret addr
  else
    let bn := bn - NDIRECT in
    if bn <? NINDIRECT then
      (* Load indirect block, allocating if necessary. *)
      dev <- iget_f ip i_dev ;;
      addr <- iget_f ip (fun i => nthZ 0 (i_addrs i) NDIRECT) ;;
      addr <-
        (if addr =? 0 then
           addr <- balloc dev ;;
           (when negb (addr =? 0) do iset ip (set_addr NDIRECT addr)) ;;
           ret addr
         else ret addr) ;;
      if addr =? 0 then ret 0
      else
        bp <- blkop (bl_bread dev addr) ;;
        d <- blkop (bl_get bp) ;;
        addr <-
          (if get_slot d bn =? 0 then
             addr <- balloc dev ;;
             (when negb (addr =? 0) do
                blkop (bl_put bp (put32 d (4 * bn) addr)) ;;
                blkop (bl_log_write bp)) ;;
             ret addr
           else ret (get_slot d bn)) ;;
        blkop (bl_brelse bp) ;;
        ret addr
    else panic "bmap: out of range".

(** Discard contents. *)
Definition itrunc (ip : Z) : M (fs L U) unit :=
  dev <- iget_f ip i_dev ;;
  mfor (upto NDIRECT) (fun k =>
    a <- iget_f ip (fun i => nthZ 0 (i_addrs i) k) ;;
    when negb (a =? 0) do
      bfree dev a ;;
      iset ip (set_addr k 0)) ;;
  ind <- iget_f ip (fun i => nthZ 0 (i_addrs i) NDIRECT) ;;
  (when negb (ind =? 0) do
     bp <- blkop (bl_bread dev ind) ;;
     mfor (upto NINDIRECT) (fun j =>
       d <- blkop (bl_get bp) ;;
       when negb (get_slot d j =? 0) do bfree dev (get_slot d j)) ;;
     blkop (bl_brelse bp) ;;
     bfree dev ind ;;
     iset ip (set_addr NDIRECT 0)) ;;
  iset ip (set_size 0) ;;
  iupdate ip.

Definition iput (ip : Z) : M (fs L U) unit :=
  acquire LK_itable ;;
  i <- iget_f ip id ;;
  (when (i_ref i =? 1) && i_valid i && (i_nlink i =? 0) do
     (* inode has no links and no other references: truncate and free. *)
     acquiresleep_inode ip ;;
     release LK_itable ;;
     itrunc ip ;;
     iset ip (set_type 0) ;;
     iupdate ip ;;
     iset ip (set_ivalid false) ;;
     releasesleep_inode ip ;;
     acquire LK_itable) ;;
  iset ip (fun i => set_ref (i_ref i - 1) i) ;;
  release LK_itable.

Definition iunlockput (ip : Z) : M (fs L U) unit :=
  iunlock ip ;;
  iput ip.

Definition stati (ip : Z) : M (fs L U) stat :=
  i <- iget_f ip id ;;
  ret (Stat (i_dev i) (i_inum i) (i_type i) (i_nlink i) (i_size i)).

(** Where [readi] puts bytes: a kernel buffer, or user memory at an address; the
    same for [writei]. *)
Inductive udst := KDst | UDst (va : Z).
Inductive usrc := KSrc (bytes : list Z) | USrc (va : Z).

(** kernel/proc.c [either_copyout]; the second component is what arrives in a kernel
    buffer. *)
Definition either_copyout (dst : udst) (tot : Z) (src : list Z) : M (fs L U) (Z * list Z) :=
  match dst with
  | UDst va => r <- usrop (um_copyout (va + tot) src) ;; ret (r, [])
  | KDst => ret (0, src)
  end.

(** kernel/proc.c [either_copyin]: the bytes that arrive at the destination. *)
Definition either_copyin (src : usrc) (tot m : Z) : M (fs L U) (Z * list Z) :=
  match src with
  | USrc va => usrop (um_copyin (va + tot) m)
  | KSrc bytes => ret (0, slice bytes tot m)
  end.

Definition seg_len (n tot off : Z) : Z := Z.min (n - tot) (BSIZE - off mod BSIZE).

(** The loop [for(tot=0; tot<n; tot+=m, off+=m, dst+=m)] of [readi]; the result is
    [tot] (with [-1] for a failed copy) and the bytes copied to a kernel buffer. *)
Fixpoint readi_loop (fuel : nat) (ip : Z) (dst : udst) (off n tot : Z) (acc : list Z)
    : M (fs L U) (Z * list Z) :=
  if n <=? tot then ret (tot, acc)
  else
    match fuel with
    | O => panic "readi: out of fuel"
    | S f =>
        addr <- bmap ip (off / BSIZE) ;;
        if addr =? 0 then ret (tot, acc)
        else
          dev <- iget_f ip i_dev ;;
          bp <- blkop (bl_bread dev addr) ;;
          let m := seg_len n tot off in
          d <- blkop (bl_get bp) ;;
          r <- either_copyout dst tot (slice d (off mod BSIZE) m) ;;
          if fst r =? -1 then
            blkop (bl_brelse bp) ;;
            ret (-1, acc)
          else
            blkop (bl_brelse bp) ;;
            readi_loop f ip dst (off + m) n (tot + m) (acc ++ snd r)
    end.

Definition rw_fuel (n : Z) : nat := Z.to_nat (n / BSIZE + 2).

Definition readi (ip : Z) (dst : udst) (off n : Z) : M (fs L U) (Z * list Z) :=
  size <- iget_f ip i_size ;;
  if (size <? off) || (u32 (off + n) <? off) then ret (0, [])
  else
    let n := if size <? u32 (off + n) then u32 (size - off) else n in
    readi_loop (rw_fuel n) ip dst off n 0 [].

(** The result is [tot] and the value of [off] after the loop. *)
Fixpoint writei_loop (fuel : nat) (ip : Z) (src : usrc) (off n tot : Z) : M (fs L U) (Z * Z) :=
  if n <=? tot then ret (tot, off)
  else
    match fuel with
    | O => panic "writei: out of fuel"
    | S f =>
        addr <- bmap ip (off / BSIZE) ;;
        if addr =? 0 then ret (tot, off)
        else
          dev <- iget_f ip i_dev ;;
          bp <- blkop (bl_bread dev addr) ;;
          let m := seg_len n tot off in
          r <- either_copyin src tot m ;;
          d <- blkop (bl_get bp) ;;
          blkop (bl_put bp (splice d (off mod BSIZE) (snd r))) ;;
          if fst r =? -1 then
            blkop (bl_brelse bp) ;;
            ret (tot, off)
          else
            blkop (bl_log_write bp) ;;
            blkop (bl_brelse bp) ;;
            writei_loop f ip src (off + m) n (tot + m)
    end.

Definition writei (ip : Z) (src : usrc) (off n : Z) : M (fs L U) Z :=
  size <- iget_f ip i_size ;;
  if (size <? off) || (u32 (off + n) <? off) then ret (-1)
  else if MAXFILE * BSIZE <? u32 (off + n) then ret (-1)
  else
    r <- writei_loop (rw_fuel n) ip src off n 0 ;;
    let '(tot, off) := r in
    size <- iget_f ip i_size ;;
    (when size <? off do iset ip (set_size off)) ;;
    iupdate ip ;;
    ret tot.
End ops.
