(* ===== verification/FsDir.v ===== *)
(** * Directories and paths (kernel/fs.c, from "Directories" on)

    A directory is a file of 16-byte entries; a path is a NUL-terminated string,
    here the list of its bytes before the NUL.  [char name[DIRSIZ]] is a buffer of
    which [skipelem] overwrites a prefix, so the model keeps what was there. *)

From S2P Require Import Prelude KMonad Riscv Mem Bytes Sleeplock Bio BlockLayer UserMem Fs.

(** [s[i]] of a string or of a character array. *)
Definition chr (s : list Z) (i : Z) : Z := nthZ 0 s i.

Definition namecmp (s t : list Z) : Z := strncmp (chr s) (chr t) DIRSIZ.

Definition SLASH := 47.

(** [while( *path == '/') path++;] *)
Fixpoint skip_slashes (path : list Z) : list Z :=
  match path with
  | c :: p => if c =? SLASH then skip_slashes p else path
  | [] => []
  end.

(** [while( *path != '/' && *path != 0) path++;]: the element and the rest. *)
Fixpoint take_elem (path : list Z) : list Z * list Z :=
  match path with
  | c :: p => if c =? SLASH then ([], path) else let '(e, r) := take_elem p in (c :: e, r)
  | [] => ([], [])
  end.

(** The remaining path and the name buffer; [None] when there is no element. *)
Definition skipelem (path name : list Z) : option (list Z * list Z) :=
  match skip_slashes path with
  | [] => None
  | p =>
      let '(s, rest) := take_elem p in
      let len := Z.of_nat (length s) in
      let name :=
        if DIRSIZ <=? len then splice name 0 (take (Z.to_nat DIRSIZ) s)
        else setZ (splice name 0 s) len 0 in
      Some (skip_slashes rest, name)
  end.

Section dirs.
Context {L U : Type} `{BlockLayer L} `{UserMem U}.

(** [for(off = 0; off < dp->size; off += sizeof(de))]; the result is the inode and
    the offset of the entry. *)
Fixpoint dirlookup_loop (fuel : nat) (dp : Z) (name : list Z) (off : Z) : M (fs L U) (Z * Z) :=
  size <- iget_f dp i_size ;;
  if size <=? off then ret (NULL, 0)
  else
    match fuel with
    | O => panic "dirlookup: out of fuel"
    | S f =>
        r <- readi dp KDst off sizeof_dirent ;;
        if negb (fst r =? sizeof_dirent) then panic "dirlookup read"
        else
          let de := snd r in
          if de_inum de =? 0 then dirlookup_loop f dp name (off + sizeof_dirent)
          else if namecmp name (de_name de) =? 0 then
            (* entry matches path element *)
            dev <- iget_f dp i_dev ;;
            ip <- iget dev (de_inum de) ;;
            ret (ip, off)
          else dirlookup_loop f dp name (off + sizeof_dirent)
    end.

Definition dir_fuel (size : Z) : nat := Z.to_nat ((size + sizeof_dirent - 1) / sizeof_dirent).

Definition dirlookup (dp : Z) (name : list Z) : M (fs L U) (Z * Z) :=
  type <- iget_f dp i_type ;;
  if negb (type =? T_DIR) then panic "dirlookup not DIR"
  else
    size <- iget_f dp i_size ;;
    dirlookup_loop (dir_fuel size) dp name 0.

(** The scan of [dirlink] for an empty entry: the offset it stops at and the
    contents of [de] then. *)
Fixpoint dirlink_scan (fuel : nat) (dp off : Z) (de : list Z) : M (fs L U) (Z * list Z) :=
  size <- iget_f dp i_size ;;
  if size <=? off then ret (off, de)
  else
    match fuel with
    | O => panic "dirlink: out of fuel"
    | S f =>
        r <- readi dp KDst off sizeof_dirent ;;
        if negb (fst r =? sizeof_dirent) then panic "dirlink read"
        else if de_inum (snd r) =? 0 then ret (off, snd r)
        else dirlink_scan f dp (off + sizeof_dirent) (snd r)
    end.

(** [strncpy(de.name, name, DIRSIZ); de.inum = inum;] on the bytes of [de]. *)
Definition make_dirent (de name : list Z) (inum : Z) : list Z :=
  put16 (splice de 2 (strncpy (de_name de) (chr name) DIRSIZ)) 0 inum.

Definition dirlink (dp : Z) (name : list Z) (inum : Z) : M (fs L U) Z :=
  (* Check that name is not present. *)
  r <- dirlookup dp name ;;
  if negb (fst r =? NULL) then
    iput (fst r) ;;
    ret (-1)
  else
    (* Look for an empty dirent. *)
    size <- iget_f dp i_size ;;
    r <- dirlink_scan (dir_fuel size) dp 0 (zeros sizeof_dirent) ;;
    let '(off, de) := r in
    n <- writei dp (KSrc (make_dirent de name inum)) off sizeof_dirent ;;
    if negb (n =? sizeof_dirent) then ret (-1) else ret 0.

(** The loop of [namex]: the inode (or [NULL]) and the name buffer. *)
Fixpoint namex_loop (fuel : nat) (ip : Z) (path : list Z) (nameiparent : bool) (name : list Z)
    : M (fs L U) (Z * list Z) :=
  match skipelem path name with
  | None =>
      if nameiparent then
        iput ip ;;
        ret (NULL, name)
      else ret (ip, name)
  | Some (path, name) =>
      match fuel with
      | O => panic "namex: out of fuel"
      | S f =>
          ilock ip ;;
          type <- iget_f ip i_type ;;
          if negb (type =? T_DIR) then
            iunlockput ip ;;
            ret (NULL, name)
          else if nameiparent && bool_decide (path = []) then
            (* Stop one level early. *)
            iunlock ip ;;
            ret (ip, name)
          else
            r <- dirlookup ip name ;;
            if fst r =? NULL then
              iunlockput ip ;;
              ret (NULL, name)
            else
              iunlockput ip ;;
              namex_loop f (fst r) path nameiparent name
      end
  end.

(** [cwd] is [myproc()->cwd]. *)
Definition namex (cwd : Z) (path : list Z) (nameiparent : bool) (name : list Z)
    : M (fs L U) (Z * list Z) :=
  ip <- (if chr path 0 =? SLASH then iget ROOTDEV ROOTINO else idup cwd) ;;
  namex_loop (length path) ip path nameiparent name.

Definition namei (cwd : Z) (path : list Z) : M (fs L U) Z :=
  r <- namex cwd path false (zeros DIRSIZ) ;;
  ret (fst r).

Definition nameiparent (cwd : Z) (path name : list Z) : M (fs L U) (Z * list Z) :=
  namex cwd path true name.
End dirs.
