(* ===== verification/FsPath.v ===== *)
(** * Paths (kernel/fs.c, [skipelem] and [namex])

    [elements] splits a path into the components that [skipelem] returns one after the
    other.  [namex] is proved equal to a walk over these components, which is defined by
    recursion on them; so it makes one turn for each component and ends. *)

From S2P Require Import Prelude KMonad Riscv Mem Bytes Sleeplock Bio BlockLayer UserMem Fs FsDir.

(** The components of a path, without empty ones. *)
Fixpoint elements (path : list Z) : list (list Z) :=
  match path with
  | [] => []
  | c :: p =>
      let es := elements p in
      if c =? SLASH then es
      else if (match p with [] => true | c' :: _ => c' =? SLASH end) then [c] :: es
      else match es with e :: es' => (c :: e) :: es' | [] => [[c]] end
  end.

(** What [skipelem] leaves in the name buffer for a component. *)
Definition put_name (name e : list Z) : list Z :=
  let len := Z.of_nat (length e) in
  if DIRSIZ <=? len then splice name 0 (take (Z.to_nat DIRSIZ) e) else setZ (splice name 0 e) len 0.

Lemma elements_skip path : elements (skip_slashes path) = elements path.
Proof. induction path as [|c p IH]; cbn [skip_slashes elements]; [done|]. destruct (c =? SLASH) eqn:E; [done|]. cbn [elements]. by rewrite E. Qed.

Lemma elements_nil path : elements path = [] <-> skip_slashes path = [].
Proof.
  induction path as [|c p IH]; cbn [skip_slashes elements]; [done|]. destruct (c =? SLASH); [done|].
  split; [|done]. destruct (match p with [] => true | c' :: _ => c' =? SLASH end); [done|]. by destruct (elements p).
Qed.

(** The first component, when the path does not begin with a slash. *)
Lemma take_elem_spec : forall p c, c <> SLASH ->
  let '(e, r) := take_elem (c :: p) in elements (c :: p) = e :: elements r /\ (length r <= length p)%nat.
Proof.
  induction p as [|c' p IH]; intros c Hc; cbn [take_elem elements]; rewrite (proj2 (Z.eqb_neq c SLASH)) by done; [done|].
  destruct (Z.eqb_spec c' SLASH) as [->|Hc'].
  - split; [|done]. cbn [elements]. by rewrite Z.eqb_refl.
  - specialize (IH c' Hc'). cbn [take_elem] in IH. rewrite (proj2 (Z.eqb_neq c' SLASH)) in IH by done.
    destruct (take_elem p) as [e r]. destruct IH as [E Hl]. cbn [elements] in E. rewrite (proj2 (Z.eqb_neq c' SLASH)) in E by done.
    rewrite E. split; [done|cbn; lia].
Qed.

Lemma skip_slashes_head path c p : skip_slashes path = c :: p -> c <> SLASH.
Proof.
  induction path as [|x path IH]; cbn; [done|]. destruct (Z.eqb_spec x SLASH); [done|]. by intros [= <- <-].
Qed.

Lemma length_skip_slashes path : (length (skip_slashes path) <= length path)%nat.
Proof. induction path as [|x path IH]; cbn; [done|]. destruct (x =? SLASH); cbn; lia. Qed.

(** [skipelem] takes the first component off the path. *)
Lemma skipelem_elements path name :
  match elements path with
  | [] => skipelem path name = None
  | e :: es => exists rest, skipelem path name = Some (rest, put_name name e) /\ elements rest = es /\
      (length rest < length path)%nat /\ (rest = [] <-> es = [])
  end.
Proof.
  rewrite <- elements_skip. unfold skipelem. pose proof (length_skip_slashes path) as Hl.
  destruct (skip_slashes path) as [|c p] eqn:Es; [done|]. pose proof (skip_slashes_head _ _ _ Es) as Hc.
  pose proof (take_elem_spec p c Hc) as Ht. destruct (take_elem (c :: p)) as [e r]. destruct Ht as [-> Hr].
  exists (skip_slashes r). split_and!; [done|apply elements_skip| |symmetry; apply elements_nil].
  pose proof (length_skip_slashes r). cbn in Hl. lia.
Qed.

Lemma bind_ext {S A B} (m : M S A) (k k' : A -> M S B) c s :
  (forall a c' s', k a c' s' = k' a c' s') -> bind m k c s = bind m k' c s.
Proof. intros E. unfold bind. by destruct (m c s). Qed.

Section walk.
Context {L U : Type} `{BlockLayer L} `{UserMem U}.

(** [namex] as a walk over the components. *)
Fixpoint namex_walk (ip : Z) (es : list (list Z)) (nameiparent : bool) (name : list Z) : M (fs L U) (Z * list Z) :=
  match es with
  | [] => if nameiparent then iput ip ;; ret (NULL, name) else ret (ip, name)
  | e :: es' =>
      let name := put_name name e in
      ilock ip ;;
      type <- iget_f ip i_type ;;
      if negb (type =? T_DIR) then
        iunlockput ip ;;
        ret (NULL, name)
      else if nameiparent && bool_decide (es' = []) then
        iunlock ip ;;
        ret (ip, name)
      else
        r <- dirlookup ip name ;;
        if fst r =? NULL then
          iunlockput ip ;;
          ret (NULL, name)
        else
          iunlockput ip ;;
          namex_walk (fst r) es' nameiparent name
  end.

Lemma namex_loop_walk fuel ip path nameiparent name c (s : fs L U) :
  (length path <= fuel)%nat ->
  namex_loop fuel ip path nameiparent name c s = namex_walk ip (elements path) nameiparent name c s.
Proof.
  revert ip path name c s. induction fuel as [|fuel IH]; intros ip path name c s Hf; cbn [namex_loop];
    pose proof (skipelem_elements path name) as He; destruct (elements path) as [|e es].
  1,3: by rewrite He.
  { destruct He as (rest & _ & _ & Hl & _). lia. }
  destruct He as (rest & -> & Ees & Hl & Hnil). cbn [namex_walk]. cbv zeta.
  apply bind_ext. intros _ c1 s1. apply bind_ext. intros t c2 s2. destruct (negb _); [done|].
  rewrite (bool_decide_ext (rest = []) (es = [])) by done. destruct (_ && _); [done|].
  apply bind_ext. intros r c3 s3. destruct (fst r =? NULL); [done|]. apply bind_ext. intros _ c4 s4.
  rewrite IH by lia. by rewrite Ees.
Qed.

(** C9: [namex] always ends: it is the walk over the components of the path, which makes
    one turn for each of them and is defined without a bound on the number of turns. *)
Theorem namex_walks_path cwd path nameiparent name c (s : fs L U) :
  namex cwd path nameiparent name c s =
    (ip <- (if FsDir.chr path 0 =? SLASH then iget ROOTDEV ROOTINO else idup cwd) ;;
     namex_walk ip (elements path) nameiparent name) c s.
Proof. unfold namex. apply bind_ext. intros ip c1 s1. by apply namex_loop_walk. Qed.
End walk.
