(* ===== verification/FsBlk.v ===== *)
(** * Blocks of the file system (kernel/fs.c, [bzero], [balloc] and [bfree])

    One file system operation in a transaction, against the laws of the block layer:
    [in_tx c s a] says that the running process is in a transaction that sees the
    logical disk [b_ld a], holds the buffers [b_held a] and has logged [b_txn a].  The
    bitmap is then a set of blocks, [balloc] takes the first block that is not in it,
    and [bfree] takes one out. *)

From S2P Require Import Prelude KMonad Riscv Mem Bytes Sleeplock Bio BlockLayer UserMem Fs.

Section steps.
Context {L U : Type} {HB : BlockLayer L} {HL : BlockLaws L} {HU : UserMem U}.
Implicit Types (s : fs L U) (a : bstate) (H : gset Z).

Definition in_tx (c : ctx) (s : fs L U) (a : bstate) : Prop :=
  bl_R (mypid c) (fs_blk s) a /\ bl_free c.

(** Only the state of the block layer differs, and the buffers of the blocks in [H]
    are still where they were. *)
Definition kept (H : gset Z) (s s' : fs L U) : Prop :=
  s' = set_blk (fs_blk s') s /\ bl_cap (fs_blk s') = bl_cap (fs_blk s) /\
  forall j b, b ∈ H -> bl_handle (fs_blk s) j b -> bl_handle (fs_blk s') j b.

Lemma in_tx_ceq c c' s a : ceq c c' -> in_tx c s a -> in_tx c' s a.
Proof. intros E [HR Hf]. split; [by destruct E as [_ <-]|by eapply bl_free_ceq]. Qed.

Lemma kept_refl H s : kept H s s.
Proof. split_and!; [by destruct s|done|done]. Qed.

Lemma kept_trans H s s1 s2 : kept H s s1 -> kept H s1 s2 -> kept H s s2.
Proof.
  intros (E1 & C1 & K1) (E2 & C2 & K2). split_and!; [|by rewrite C2|eauto].
  rewrite E2 at 1. rewrite E1 at 1. done.
Qed.

Lemma kept_sb H s s' : kept H s s' -> fs_sb s' = fs_sb s.
Proof. intros (-> & _). done. Qed.
Lemma kept_inode H s s' : kept H s s' -> fs_inode s' = fs_inode s.
Proof. intros (-> & _). done. Qed.
Lemma kept_usr H s s' : kept H s s' -> fs_usr s' = fs_usr s.
Proof. intros (-> & _). done. Qed.
Lemma kept_cap H s s' : kept H s s' -> bl_cap (fs_blk s') = bl_cap (fs_blk s).
Proof. intros (_ & E & _). done. Qed.
Lemma kept_handle H s s' j b : kept H s s' -> b ∈ H -> bl_handle (fs_blk s) j b -> bl_handle (fs_blk s') j b.
Proof. intros (_ & _ & K). apply K. Qed.
Lemma kept_sub H H' s s' : H' ⊆ H -> kept H s s' -> kept H' s s'.
Proof. intros Hs (E & C & K). split_and!; [done|done|]. intros j b Hb. apply K. set_solver. Qed.

(** Once the blocks [T] are in the transaction, [n] more fit in the log and the cache. *)
Definition fits (s : fs L U) (a : bstate) (T : gset Z) (n : Z) : Prop :=
  Z.of_nat (size T) + n < bl_cap (fs_blk s) /\ Z.of_nat (size T + size (b_held a)) + n < NBUF.

Lemma fits_sub s a T T' n : T' ⊆ T -> fits s a T n -> fits s a T' n.
Proof. intros Hs [? ?]. pose proof (subseteq_size _ _ Hs). split; lia. Qed.

(** ** One call of the block layer *)

Lemma runs_blkop {A} (m : M L A) c s Q :
  runs m c (fs_blk s) (fun x l' => Q x (set_blk l' s)) -> runs (blkop m) c s Q.
Proof. apply runs_zoom. Qed.

Lemma bread_step {A} H c s a b (K : Z -> M (fs L U) A) Q :
  in_tx c s a -> b ∉ H -> b_held a !! b = None ->
  Z.of_nat (size (b_txn a) + size (b_held a)) < NBUF ->
  (forall i c' s', ceq c c' -> in_tx c' s' (BS (b_ld a) (<[b := b_ld a b]> (b_held a)) (b_txn a)) ->
     bl_handle (fs_blk s') i b -> kept H s s' -> runs (K i) c' s' Q) ->
  runs (bind (blkop (bl_bread ROOTDEV b)) K) c s Q.
Proof.
  intros [HR Hf] Hb Hn Hsz HK. apply runs_bind, runs_blkop.
  eapply runs_mono; [by eapply bl_bread_ok|]. cbn. intros i l' (HR' & Hh & Hk & Hcap) c' Hc'.
  apply HK; [done| |done|].
  - destruct Hc' as [E1 E2]. split; [by rewrite <- E2|]. by eapply bl_free_ceq; [|exact Hf].
  - split_and!; [done|done|]. intros j b' Hb'. apply Hk. by intros ->.
Qed.

Lemma get_step {A} c s a i b d (K : block -> M (fs L U) A) Q :
  in_tx c s a -> b_held a !! b = Some d -> bl_handle (fs_blk s) i b ->
  runs (K d) c s Q -> runs (bind (blkop (bl_get i)) K) c s Q.
Proof.
  intros [HR _] Hd Hh. apply runs_same. unfold blkop, zoom. rewrite (bl_get_ok _ _ _ c _ _ _ HR Hd Hh).
  by destruct s.
Qed.

Lemma put_step {A} H c s a i b d d' (K : unit -> M (fs L U) A) Q :
  in_tx c s a -> b ∉ H -> b_held a !! b = Some d -> bl_handle (fs_blk s) i b -> length d' = Z.to_nat BSIZE ->
  (forall c' s', ceq c c' -> in_tx c' s' (BS (b_ld a) (<[b := d']> (b_held a)) (b_txn a)) ->
     bl_handle (fs_blk s') i b -> kept H s s' -> runs (K tt) c' s' Q) ->
  runs (bind (blkop (bl_put i d')) K) c s Q.
Proof.
  intros [HR Hf] Hb Hd Hh Hl HK. apply runs_bind, runs_blkop.
  eapply runs_mono; [by eapply bl_put_ok|]. cbn. intros [] l' (HR' & Hh' & Hk & Hcap) c' Hc'.
  apply HK; [done| |done|].
  - destruct Hc' as [E1 E2]. split; [by rewrite <- E2|]. by eapply bl_free_ceq; [|exact Hf].
  - split_and!; [done|done|]. intros j b' Hb'. apply Hk. by intros ->.
Qed.

Lemma log_write_step {A} H c s a i b d (K : unit -> M (fs L U) A) Q :
  in_tx c s a -> b ∉ H -> b_held a !! b = Some d -> bl_handle (fs_blk s) i b ->
  Z.of_nat (size (b_txn a)) < bl_cap (fs_blk s) ->
  (forall c' s', ceq c c' -> in_tx c' s' (BS (bupd (b_ld a) b d) (b_held a) ({[b]} ∪ b_txn a)) ->
     bl_handle (fs_blk s') i b -> kept H s s' -> runs (K tt) c' s' Q) ->
  runs (bind (blkop (bl_log_write i)) K) c s Q.
Proof.
  intros [HR Hf] Hb Hd Hh Hl HK. apply runs_bind, runs_blkop.
  eapply runs_mono; [by eapply bl_log_write_ok|]. cbn. intros [] l' (HR' & Hh' & Hk & Hcap) c' Hc'.
  apply HK; [done| |done|].
  - destruct Hc' as [E1 E2]. split; [by rewrite <- E2|]. by eapply bl_free_ceq; [|exact Hf].
  - split_and!; [done|done|]. intros j b' Hb'. apply Hk. by intros ->.
Qed.

Lemma brelse_runs_fs H c s a i b (Q : unit -> fs L U -> Prop) :
  in_tx c s a -> b ∉ H -> b_held a !! b = Some (b_ld a b) -> bl_handle (fs_blk s) i b ->
  (forall s', (forall c', ceq c c' -> in_tx c' s' (BS (b_ld a) (delete b (b_held a)) (b_txn a))) -> kept H s s' -> Q tt s') ->
  runs (blkop (bl_brelse i)) c s Q.
Proof.
  intros [HR Hf] Hb Hd Hh HK. apply runs_blkop.
  eapply runs_mono; [by eapply bl_brelse_ok|]. cbn. intros [] l' (HR' & Hk & Hcap). apply HK.
  - intros c' [E1 E2]. split; [by rewrite <- E2|]. by eapply bl_free_ceq; [|exact Hf].
  - split_and!; [done|done|]. intros j b' Hb'. apply Hk. by intros ->.
Qed.

Lemma brelse_step {A} H c s a i b (K : unit -> M (fs L U) A) Q :
  in_tx c s a -> b ∉ H -> b_held a !! b = Some (b_ld a b) -> bl_handle (fs_blk s) i b ->
  (forall c' s', ceq c c' -> in_tx c' s' (BS (b_ld a) (delete b (b_held a)) (b_txn a)) -> kept H s s' ->
     runs (K tt) c' s' Q) ->
  runs (bind (blkop (bl_brelse i)) K) c s Q.
Proof.
  intros HT Hb Hd Hh HK. apply runs_bind. eapply brelse_runs_fs; [done|exact Hb|done|done|].
  intros s' HT' Hk c' Hc'. by apply HK; [|apply HT'|].
Qed.

(** The end of an update of block [b] whose buffer is held: [bp->data = d';
    log_write(bp); brelse(bp)]. *)
Lemma update_runs H c s a i b d d' (Q : unit -> fs L U -> Prop) :
  in_tx c s (BS (b_ld a) (<[b := d]> (b_held a)) (b_txn a)) -> b ∉ H -> b_held a !! b = None ->
  bl_handle (fs_blk s) i b -> length d' = Z.to_nat BSIZE ->
  Z.of_nat (size (b_txn a)) < bl_cap (fs_blk s) ->
  (forall s', (forall c', ceq c c' -> in_tx c' s' (BS (bupd (b_ld a) b d') (b_held a) ({[b]} ∪ b_txn a))) -> kept H s s' -> Q tt s') ->
  runs (blkop (bl_put i d') ;; blkop (bl_log_write i) ;; blkop (bl_brelse i)) c s Q.
Proof.
  intros HT Hb Hn Hh Hl Hcap HK.
  eapply put_step; [exact HT|exact Hb|apply lookup_insert_eq|done|done|]. cbn. intros c1 s1 Hc1 HT1 Hh1 Hk1.
  rewrite insert_insert_eq in HT1.
  eapply log_write_step; [exact HT1|exact Hb|apply lookup_insert_eq|done|cbn; by rewrite (kept_cap _ _ _ Hk1)|].
  cbn. intros c2 s2 Hc2 HT2 Hh2 Hk2.
  eapply brelse_runs_fs; [exact HT2|exact Hb| |done|].
  { cbn. rewrite lookup_insert_eq. unfold bupd. by rewrite decide_True. }
  cbn. intros s3 HT3 Hk3. rewrite delete_insert_id in HT3 by done. apply HK.
  - intros c' Hc'. apply HT3. ceqs.
  - eapply kept_trans; [exact Hk1|]. by eapply kept_trans.
Qed.

(** [bzero] of a block whose buffer is not held. *)
Lemma bzero_runs H c s a b (Q : unit -> fs L U -> Prop) :
  in_tx c s a -> b ∉ H -> b_held a !! b = None -> fits s a (b_txn a) 0 ->
  (forall s', (forall c', ceq c c' -> in_tx c' s' (BS (bupd (b_ld a) b (zeros BSIZE)) (b_held a) ({[b]} ∪ b_txn a))) ->
     kept H s s' -> Q tt s') ->
  runs (bzero ROOTDEV b) c s Q.
Proof.
  intros HT Hb Hn [Hr1 Hr2] HK. unfold bzero.
  eapply bread_step; [exact HT|exact Hb|done|lia|]. intros i c1 s1 Hc1 HT1 Hh1 Hk1.
  eapply update_runs; [exact HT1|exact Hb|done|done|reflexivity|rewrite (kept_cap _ _ _ Hk1); lia|].
  intros s2 HT2 Hk2. apply HK; [|by eapply kept_trans]. intros c' Hc'. apply HT2. ceqs.
Qed.
End steps.

(** ** The bitmap *)

Lemma bit_set_testbit d bi : bit_set d bi = Z.testbit (nthZ 0 d (bi / 8)) (bi mod 8).
Proof.
  unfold bit_set. set (x := nthZ 0 d (bi / 8)). pose proof (Z.mod_pos_bound bi 8 ltac:(lia)) as Hm.
  rewrite Z.shiftl_1_l. destruct (Z.testbit x (bi mod 8)) eqn:E.
  - apply negb_true_iff, Z.eqb_neq. intros E0. apply (f_equal (fun y => Z.testbit y (bi mod 8))) in E0.
    by rewrite Z.land_spec, E, Z.pow2_bits_true, Z.bits_0 in E0 by lia.
  - apply negb_false_iff, Z.eqb_eq. apply Z.bits_inj'. intros k Hk. rewrite Z.land_spec, Z.bits_0.
    destruct (decide (k = bi mod 8)) as [->|]; [by rewrite E|]. rewrite Z.pow2_bits_false by lia. apply andb_false_r.
Qed.

(** The two assignments to [bp->data[bi/8]]. *)
Definition mark (d : block) (bi : Z) : block :=
  setZ d (bi / 8) (Z.lor (nthZ 0 d (bi / 8)) (Z.shiftl 1 (bi mod 8))).
Definition unmark (d : block) (bi : Z) : block :=
  setZ d (bi / 8) (Z.land (nthZ 0 d (bi / 8)) (Z.lnot (Z.shiftl 1 (bi mod 8)))).

Section bits.
Context (d : block) (bi : Z) (Hbi : 0 <= bi < BPB) (Hd : length d = Z.to_nat BSIZE).

Lemma bit_index : 0 <= bi / 8 < Z.of_nat (length d).
Proof using Hbi Hd. rewrite Hd. unfold BPB, BSIZE in *. pose proof (Z.div_mod bi 8 ltac:(lia)). pose proof (Z.mod_pos_bound bi 8). lia. Qed.

Lemma bit_set_byte x bi' :
  0 <= bi' -> (forall j, 0 <= j < 8 -> j <> bi mod 8 -> Z.testbit x j = Z.testbit (nthZ 0 d (bi / 8)) j) ->
  bit_set (setZ d (bi / 8) x) bi' = if decide (bi' = bi) then Z.testbit x (bi mod 8) else bit_set d bi'.
Proof using Hbi Hd.
  intros Hbi' Hx. pose proof bit_index. rewrite !bit_set_testbit. pose proof (Z.mod_pos_bound bi' 8 ltac:(lia)).
  pose proof (Z.div_mod bi 8 ltac:(lia)). pose proof (Z.div_mod bi' 8 ltac:(lia)).
  destruct (decide (bi' / 8 = bi / 8)) as [E|E].
  - rewrite E, nthZ_setZ_eq by lia. destruct (decide (bi' = bi)) as [->|]; [done|]. apply Hx; lia.
  - rewrite nthZ_setZ_ne by (try apply Z.div_pos; lia). by rewrite decide_False by congruence.
Qed.

Lemma bit_set_mark bi' : 0 <= bi' -> bit_set (mark d bi) bi' = (bi' =? bi) || bit_set d bi'.
Proof using Hbi Hd.
  intros Hbi'. unfold mark. pose proof (Z.mod_pos_bound bi 8 ltac:(lia)). rewrite bit_set_byte; [|done|].
  - rewrite Z.lor_spec, Z.shiftl_1_l, Z.pow2_bits_true by lia. rewrite orb_true_r.
    destruct (decide (bi' = bi)) as [->|]; [by rewrite Z.eqb_refl|by rewrite (proj2 (Z.eqb_neq _ _))].
  - intros j Hj Hne. rewrite Z.lor_spec, Z.shiftl_1_l, Z.pow2_bits_false by lia. apply orb_false_r.
Qed.

Lemma bit_set_unmark bi' : 0 <= bi' -> bit_set (unmark d bi) bi' = negb (bi' =? bi) && bit_set d bi'.
Proof using Hbi Hd.
  intros Hbi'. unfold unmark. pose proof (Z.mod_pos_bound bi 8 ltac:(lia)). rewrite bit_set_byte; [|done|].
  - rewrite Z.land_spec, Z.lnot_spec, Z.shiftl_1_l, Z.pow2_bits_true by lia. rewrite andb_false_r.
    destruct (decide (bi' = bi)) as [->|]; [by rewrite Z.eqb_refl|by rewrite (proj2 (Z.eqb_neq _ _))].
  - intros j Hj Hne. rewrite Z.land_spec, Z.lnot_spec, Z.shiftl_1_l, Z.pow2_bits_false by lia. apply andb_true_r.
Qed.
End bits.

Lemma bitmap_find_spec d b size : forall n bi,
  match find_free n d b bi size with
  | Some r => bi <= r < bi + Z.of_nat n /\ b + r < size /\ bit_set d r = false /\
      forall j, bi <= j < r -> bit_set d j = true
  | None => forall j, bi <= j < bi + Z.of_nat n -> b + j < size -> bit_set d j = true
  end.
Proof.
  induction n as [|n IH]; intros bi; cbn [find_free]; [intros; lia|].
  destruct (Z.ltb_spec (b + bi) size) as [Hlt|Hge]; [|intros; lia].
  destruct (bit_set d bi) eqn:Eb.
  - specialize (IH (bi + 1)). destruct (find_free n d b (bi + 1) size) as [r|].
    + destruct IH as (? & ? & ? & Hall). split_and!; [lia|lia|done|done|]. intros j Hj.
      destruct (decide (j = bi)) as [->|]; [done|]. apply Hall. lia.
    + intros j Hj Hs. destruct (decide (j = bi)) as [->|]; [done|]. apply IH; [lia|done].
  - split_and!; [lia|lia|done|done|]. intros; lia.
Qed.

(** Block [b] is marked in use. *)
Definition used (sb : superblock) (ld : Z -> block) (b : Z) : bool := bit_set (ld (BBLOCK b sb)) (b mod BPB).

Definition nbitmap (sb : superblock) : Z := (sb_size sb + BPB - 1) / BPB.
(** The bitmap is the last part of the disk before the data. *)
Definition data_start (sb : superblock) : Z := sb_bmapstart sb + nbitmap sb.
Definition is_bitmap (sb : superblock) (b : Z) : Prop := sb_bmapstart sb <= b < data_start sb.

Lemma size_list_bound (l : list Z) : (size (list_to_set l : gset Z) <= length l)%nat.
Proof.
  induction l as [|x l IH]; cbn; [by rewrite size_empty|].
  destruct (decide (x ∈ (list_to_set l : gset Z))) as [Hin|Hin].
  - replace ({[x]} ∪ list_to_set l) with (list_to_set l : gset Z) by set_solver. lia.
  - rewrite size_union, size_singleton by set_solver. lia.
Qed.

Definition bitmaps (sb : superblock) : gset Z :=
  list_to_set ((fun k => sb_bmapstart sb + k) <$> upto (nbitmap sb)).

Lemma elem_bitmaps sb b : b ∈ bitmaps sb <-> is_bitmap sb b.
Proof.
  unfold bitmaps, is_bitmap, data_start. rewrite elem_of_list_to_set, list_elem_of_fmap. setoid_rewrite elem_of_upto. split.
  - intros (k & -> & Hk). lia.
  - intros Hb. exists (b - sb_bmapstart sb). lia.
Qed.

Lemma size_bitmaps sb : 0 <= nbitmap sb -> Z.of_nat (size (bitmaps sb)) <= nbitmap sb.
Proof.
  intros Hn. unfold bitmaps. pose proof (size_list_bound ((fun k => sb_bmapstart sb + k) <$> upto (nbitmap sb))).
  rewrite length_fmap, length_upto in H. lia.
Qed.

Record fs_ok (sb : superblock) (ld : Z -> block) : Prop := {
  fo_start : 0 < sb_bmapstart sb;
  fo_size : data_start sb <= sb_size sb < 2 ^ 32;
  fo_len b : length (ld b) = Z.to_nat BSIZE;
  (** the blocks before the data are in use *)
  fo_meta b : 0 <= b < data_start sb -> used sb ld b = true
}.

Definition first_free (sb : superblock) (ld : Z -> block) (r : Z) : Prop :=
  0 <= r < sb_size sb /\ used sb ld r = false /\ forall b, 0 <= b < r -> used sb ld b = true.

Definition alloc_ld (sb : superblock) (ld : Z -> block) (r : Z) : Z -> block :=
  bupd (bupd ld (BBLOCK r sb) (mark (ld (BBLOCK r sb)) (r mod BPB))) r (zeros BSIZE).
Definition free_ld (sb : superblock) (ld : Z -> block) (r : Z) : Z -> block :=
  bupd ld (BBLOCK r sb) (unmark (ld (BBLOCK r sb)) (r mod BPB)).

Lemma BPB_pos : 0 < BPB.
Proof. done. Qed.

Lemma nbitmap_nonneg sb : 0 < sb_bmapstart sb -> data_start sb <= sb_size sb -> 0 <= nbitmap sb.
Proof.
  unfold data_start, nbitmap. intros H1 H2. destruct (decide (0 <= sb_size sb + BPB - 1)); [by apply Z.div_pos|].
  pose proof (Z.div_mod (sb_size sb + BPB - 1) BPB). pose proof (Z.mod_pos_bound (sb_size sb + BPB - 1) BPB BPB_pos).
  change BPB with 8192 in *. lia.
Qed.

Lemma BBLOCK_bitmap sb b : 0 <= b < sb_size sb -> is_bitmap sb (BBLOCK b sb).
Proof.
  intros Hb. unfold is_bitmap, data_start, nbitmap, BBLOCK. assert (0 <= b / BPB) by (apply Z.div_pos; [lia|done]).
  assert (b / BPB < (sb_size sb + BPB - 1) / BPB); [|lia].
  replace (sb_size sb + BPB - 1) with ((sb_size sb - 1) + 1 * BPB) by lia. rewrite Z.div_add by done.
  pose proof (Z.div_le_mono b (sb_size sb - 1) BPB BPB_pos). lia.
Qed.

Lemma BBLOCK_inj sb b b' : BBLOCK b sb = BBLOCK b' sb -> b mod BPB = b' mod BPB -> b = b'.
Proof.
  unfold BBLOCK. intros E Em. rewrite (Z.div_mod b BPB), (Z.div_mod b' BPB) by done. f_equal; [f_equal; lia|done].
Qed.

Lemma used_update sb ld r x b :
  0 <= r < sb_size sb -> 0 <= b < sb_size sb ->
  (forall bi, 0 <= bi -> bit_set x bi = if decide (bi = r mod BPB) then bit_set x (r mod BPB) else bit_set (ld (BBLOCK r sb)) bi) ->
  used sb (bupd ld (BBLOCK r sb) x) b = if decide (b = r) then bit_set x (r mod BPB) else used sb ld b.
Proof.
  intros Hr Hb Hx. unfold used, bupd. pose proof (Z.mod_pos_bound b BPB BPB_pos).
  destruct (decide (BBLOCK r sb = BBLOCK b sb)) as [E|E].
  - rewrite Hx by lia. rewrite E. destruct (decide (b mod BPB = r mod BPB)) as [Em|Em].
    + by rewrite decide_True by (by eapply BBLOCK_inj).
    + by rewrite decide_False by congruence.
  - by rewrite decide_False by congruence.
Qed.

Lemma used_bupd_data sb ld b x r : 0 <= r < sb_size sb -> ~ is_bitmap sb b -> used sb (bupd ld b x) r = used sb ld r.
Proof.
  intros Hr Hb. unfold used, bupd. rewrite decide_False; [done|]. intros ->. by apply Hb, BBLOCK_bitmap.
Qed.

Section ok.
Context (sb : superblock) (ld : Z -> block) (Hok : fs_ok sb ld).

Lemma first_free_data r : first_free sb ld r -> data_start sb <= r.
Proof using Hok.
  intros (Hr & Hu & _). destruct (decide (r < data_start sb)); [|lia]. rewrite (fo_meta _ _ Hok) in Hu by lia. done.
Qed.

Lemma data_start_pos : 0 < data_start sb <= sb_size sb.
Proof using Hok.
  pose proof (fo_start _ _ Hok). pose proof (fo_size _ _ Hok). pose proof (nbitmap_nonneg sb). unfold data_start in *. lia.
Qed.

Lemma mod_BPB r : 0 <= r mod BPB < BPB.
Proof using. apply Z.mod_pos_bound, BPB_pos. Qed.

Lemma used_alloc r b :
  first_free sb ld r -> 0 <= b < sb_size sb -> used sb (alloc_ld sb ld r) b = (b =? r) || used sb ld b.
Proof using Hok.
  intros Hff Hb. pose proof (first_free_data r Hff). destruct Hff as (Hr & Hu & _). unfold alloc_ld.
  pose proof (mod_BPB r). rewrite used_bupd_data by (done || unfold is_bitmap; lia). rewrite used_update; [|done|done|].
  - rewrite bit_set_mark by (done || apply Hok || lia). rewrite Z.eqb_refl. cbn [orb].
    destruct (decide (b = r)) as [->|]; [by rewrite Z.eqb_refl|by rewrite (proj2 (Z.eqb_neq _ _))].
  - intros bi Hbi. rewrite !bit_set_mark by (done || apply Hok || lia). rewrite Z.eqb_refl.
    destruct (decide (bi = _)) as [->|]; [by rewrite Z.eqb_refl|by rewrite (proj2 (Z.eqb_neq _ _))].
Qed.

Lemma alloc_other r b : 0 <= r < sb_size sb -> b <> r -> ~ is_bitmap sb b -> alloc_ld sb ld r b = ld b.
Proof using.
  intros Hr Hne Hb. unfold alloc_ld, bupd. rewrite decide_False by congruence. rewrite decide_False; [done|].
  intros <-. by apply Hb, BBLOCK_bitmap.
Qed.

Lemma alloc_self r : alloc_ld sb ld r r = zeros BSIZE.
Proof using. unfold alloc_ld, bupd. by rewrite decide_True. Qed.

Lemma fs_ok_bupd b x : ~ is_bitmap sb b -> length x = Z.to_nat BSIZE -> fs_ok sb (bupd ld b x).
Proof using Hok.
  intros Hb Hx. split; [apply Hok|apply Hok| |].
  - intros b'. unfold bupd. case_decide; [done|apply Hok].
  - intros b' Hb'. rewrite used_bupd_data; [by apply Hok| |done]. pose proof data_start_pos. lia.
Qed.

Lemma fs_ok_alloc r : first_free sb ld r -> fs_ok sb (alloc_ld sb ld r).
Proof using Hok.
  intros Hff. split; [apply Hok|apply Hok| |].
  - intros b'. unfold alloc_ld, bupd. case_decide; [done|]. case_decide; [|apply Hok]. unfold mark. rewrite length_setZ. apply Hok.
  - intros b' Hb'. pose proof data_start_pos. rewrite used_alloc by (done || lia). rewrite (fo_meta _ _ Hok) by done. apply orb_true_r.
Qed.

Lemma used_free r b :
  0 <= r < sb_size sb -> 0 <= b < sb_size sb -> used sb (free_ld sb ld r) b = negb (b =? r) && used sb ld b.
Proof using Hok.
  intros Hr Hb. unfold free_ld. pose proof (mod_BPB r). rewrite used_update; [|done|done|].
  - rewrite bit_set_unmark by (done || apply Hok || lia). rewrite Z.eqb_refl. cbn [negb andb].
    destruct (decide (b = r)) as [->|]; [by rewrite Z.eqb_refl|by rewrite (proj2 (Z.eqb_neq _ _))].
  - intros bi Hbi. rewrite !bit_set_unmark by (done || apply Hok || lia). rewrite Z.eqb_refl.
    destruct (decide (bi = _)) as [->|]; [by rewrite Z.eqb_refl|by rewrite (proj2 (Z.eqb_neq _ _))].
Qed.
End ok.

(** ** balloc and bfree *)

Section alloc.
Context {L U : Type} {HB : BlockLayer L} {HL : BlockLaws L} {HU : UserMem U}.
Implicit Types (s : fs L U) (a : bstate) (H : gset Z).

(** The buffers held outside are of data blocks in use. *)
Definition outer (sb : superblock) (H : gset Z) (a : bstate) : Prop :=
  forall b, b ∈ H \/ is_Some (b_held a !! b) -> data_start sb <= b < sb_size sb /\ used sb (b_ld a) b = true.

Definition alloc_result (sb : superblock) (a a' : bstate) (r : Z) : Prop :=
  r = 0 /\ a' = a /\ (forall b, 0 <= b < sb_size sb -> used sb (b_ld a) b = true) \/
  first_free sb (b_ld a) r /\
    a' = BS (alloc_ld sb (b_ld a) r) (b_held a) ({[r]} ∪ ({[BBLOCK r sb]} ∪ b_txn a)).

Lemma outer_bitmap sb H a b : outer sb H a -> is_bitmap sb b -> b ∉ H /\ b_held a !! b = None.
Proof.
  intros Ho Hb. unfold is_bitmap in Hb. split; [intros Hin|apply eq_None_not_Some; intros Hin]; (destruct (Ho b) as [? _]; [tauto|lia]).
Qed.

Lemma outer_free sb H a b : outer sb H a -> used sb (b_ld a) b = false -> b ∉ H /\ b_held a !! b = None.
Proof.
  intros Ho Hb. split; [intros Hin|apply eq_None_not_Some; intros Hin]; (destruct (Ho b) as [_ ?]; [tauto|congruence]).
Qed.

(** The turn of the loop that finds a free block. *)
Lemma balloc_found H sb c s a i b bi (Q : Z -> fs L U -> Prop) :
  let r := b + bi in
  in_tx c s (BS (b_ld a) (<[BBLOCK b sb := b_ld a (BBLOCK b sb)]> (b_held a)) (b_txn a)) ->
  bl_handle (fs_blk s) i (BBLOCK b sb) -> outer sb H a -> fs_ok sb (b_ld a) -> fits s a (bitmaps sb ∪ b_txn a) 0 ->
  first_free sb (b_ld a) r -> BBLOCK r sb = BBLOCK b sb -> r mod BPB = bi ->
  (forall s' a', (forall c', ceq c c' -> in_tx c' s' a') -> kept H s s' -> alloc_result sb a a' r -> Q r s') ->
  runs (blkop (bl_put i (mark (b_ld a (BBLOCK b sb)) bi)) ;; blkop (bl_log_write i) ;; blkop (bl_brelse i) ;;
    bzero ROOTDEV r ;; ret r) c s Q.
Proof.
  intros r HT Hh Ho Hok Hfit Hff EB Em HK. set (bb := BBLOCK b sb) in *.
  assert (Hbb : is_bitmap sb bb) by (rewrite <- EB; apply BBLOCK_bitmap; apply Hff).
  destruct (outer_bitmap sb H a bb Ho Hbb) as [HbH Hbn].
  pose proof (first_free_data sb _ Hok _ Hff) as Hds.
  assert (Hne : bb <> r) by (intros ->; unfold is_bitmap in Hbb; lia).
  destruct (outer_free sb H a r Ho) as [HrH Hrn]; [apply Hff|].
  assert (Hfit1 : fits s a ({[bb]} ∪ b_txn a) 0) by (eapply fits_sub; [|exact Hfit]; apply elem_bitmaps in Hbb; set_solver).
  assert (Hfit0 : fits s a (b_txn a) 0) by (eapply fits_sub; [|exact Hfit]; set_solver).
  eapply put_step; [exact HT|exact HbH|apply lookup_insert_eq|done|unfold mark; rewrite length_setZ; apply Hok|].
  cbn. intros c1 s1 Hc1 HT1 Hh1 Hk1. rewrite insert_insert_eq in HT1.
  eapply log_write_step; [exact HT1|exact HbH|apply lookup_insert_eq|done|cbn; rewrite (kept_cap _ _ _ Hk1); destruct Hfit0; lia|].
  cbn. intros c2 s2 Hc2 HT2 Hh2 Hk2.
  eapply brelse_step; [exact HT2|exact HbH| |done|].
  { cbn. rewrite lookup_insert_eq. unfold bupd. by rewrite decide_True. }
  cbn. intros c3 s3 Hc3 HT3 Hk3. rewrite delete_insert_id in HT3 by done.
  pose proof (kept_trans _ _ _ _ Hk1 (kept_trans _ _ _ _ Hk2 Hk3)) as Hk.
  apply runs_bind. eapply bzero_runs; [exact HT3|exact HrH|done| |].
  { unfold fits in *. cbn. by rewrite (kept_cap _ _ _ Hk). }
  cbn. intros s4 HT4 Hk4 c4 Hc4. apply runs_ret. eapply (HK s4); [|by eapply kept_trans|right; split; [done|reflexivity]].
  intros c' Hc'. unfold alloc_ld. rewrite EB, Em. fold bb. apply HT4. ceqs.
Qed.

Lemma balloc_loop_runs H sb a (Q : Z -> fs L U -> Prop) : forall n k c s,
  fs_sb s = sb ->
  in_tx c s a -> outer sb H a -> fs_ok sb (b_ld a) -> fits s a (bitmaps sb ∪ b_txn a) 0 ->
  Z.of_nat (k + n) = nbitmap sb ->
  (forall b, 0 <= b < Z.of_nat k * BPB -> b < sb_size sb -> used sb (b_ld a) b = true) ->
  (forall r s' a', (forall c', ceq c c' -> in_tx c' s' a') -> kept H s s' -> alloc_result sb a a' r -> Q r s') ->
  runs (balloc_loop ROOTDEV (sb_size sb) ((fun i => i * BPB) <$> (Z.of_nat <$> seq k n))) c s Q.
Proof.
  induction n as [|n IH]; intros k c s Esb HT Ho Hok Hfit Hn Hpre HK; cbn [seq fmap list_fmap balloc_loop].
  - apply runs_ret. eapply (HK 0 s a); [intros c' Hc'; by eapply in_tx_ceq|apply kept_refl|left; split_and!; [done|done|]].
    intros b Hb. apply Hpre; [|lia]. rewrite Nat.add_0_r in Hn. rewrite Hn. unfold nbitmap.
    pose proof (Z.div_mod (sb_size sb + BPB - 1) BPB). pose proof (Z.mod_pos_bound (sb_size sb + BPB - 1) BPB BPB_pos).
    pose proof BPB_pos. lia.
  - eapply runs_same; [reflexivity|]. rewrite Esb.
    set (b := Z.of_nat k * BPB). assert (EBB : BBLOCK b sb = Z.of_nat k + sb_bmapstart sb) by (unfold BBLOCK, b; by rewrite Z.div_mul).
    assert (Hb0 : 0 <= b) by (unfold b; pose proof BPB_pos; lia).
    assert (Hbb : is_bitmap sb (BBLOCK b sb)) by (unfold is_bitmap, data_start; lia).
    destruct (outer_bitmap sb H a _ Ho Hbb) as [HbH Hbn].
    destruct (fits_sub s a (bitmaps sb ∪ b_txn a) (b_txn a) 0 ltac:(set_solver) Hfit) as [Hr1 Hr2].
    eapply bread_step; [exact HT|exact HbH|exact Hbn|lia|]. intros i c1 s1 Hc1 HT1 Hh1 Hk1.
    eapply get_step; [exact HT1|cbn; apply lookup_insert_eq|done|].
    pose proof (bitmap_find_spec (b_ld a (BBLOCK b sb)) b (sb_size sb) (Z.to_nat BPB) 0) as Hff.
    rewrite Z2Nat.id in Hff by done.
    assert (Hbit : forall j, 0 <= j < BPB -> BBLOCK (b + j) sb = BBLOCK b sb /\ (b + j) mod BPB = j).
    { intros j Hj. unfold BBLOCK, b. rewrite (Z.add_comm _ j), Z.div_add, Z.div_small, Z.mod_add, Z.mod_small, Z.div_mul by done. lia. }
    assert (Hbit' : forall j, 0 <= j < BPB -> used sb (b_ld a) (b + j) = bit_set (b_ld a (BBLOCK b sb)) j).
    { intros j Hj. unfold used. destruct (Hbit j Hj) as [-> ->]. done. }
    destruct (find_free (Z.to_nat BPB) (b_ld a (BBLOCK b sb)) b 0 (sb_size sb)) as [bi|].
    + destruct Hff as (Hbi & Hlt & Hu & Hall). destruct (Hbit bi ltac:(lia)) as [EB Em].
      eapply (balloc_found H sb c1 s1 a i b bi); [exact HT1|done|done|done|unfold fits; by rewrite (kept_cap _ _ _ Hk1)| |done|done|].
      * split_and!; [lia|done|by rewrite Hbit' by lia|]. intros x Hx. destruct (decide (x < b)); [apply Hpre; lia|].
        replace x with (b + (x - b)) by lia. rewrite Hbit' by lia. apply Hall. lia.
      * intros s' a' HT' Hk' Ha'. eapply HK; [|by eapply kept_trans|exact Ha']. intros c' Hc'. apply HT'. ceqs.
    + eapply brelse_step; [exact HT1|exact HbH|cbn; apply lookup_insert_eq|done|].
      cbn. intros c2 s2 Hc2 HT2 Hk2. rewrite delete_insert_id in HT2 by done.
      pose proof (kept_trans _ _ _ _ Hk1 Hk2) as Hk. destruct a as [ld hd tx]. cbn in *.
      apply (IH (S k) c2 s2); [by rewrite (kept_sb _ _ _ Hk)|done|done|done| |lia| |].
      * unfold fits in *. cbn. by rewrite (kept_cap _ _ _ Hk).
      * intros x Hx Hxs. destruct (decide (x < b)); [apply Hpre; lia|].
        replace x with (b + (x - b)) by lia. rewrite Hbit' by lia. apply Hff; lia.
      * intros r s' a' HT' Hk' Ha'. eapply HK; [|by eapply kept_trans|exact Ha']. intros c' Hc'. apply HT'. ceqs.
Qed.

Lemma balloc_runs H c s a (Q : Z -> fs L U -> Prop) :
  let sb := fs_sb s in
  in_tx c s a -> outer sb H a -> fs_ok sb (b_ld a) -> fits s a (bitmaps sb ∪ b_txn a) 0 ->
  (forall r s' a', (forall c', ceq c c' -> in_tx c' s' a') -> kept H s s' -> alloc_result sb a a' r -> Q r s') ->
  runs (balloc ROOTDEV) c s Q.
Proof.
  intros sb HT Ho Hok Hfit HK. unfold balloc. eapply runs_same; [reflexivity|]. fold sb. fold (nbitmap sb). unfold upto.
  eapply (balloc_loop_runs H sb a Q (Z.to_nat (nbitmap sb)) 0); try done; [|intros; lia].
  cbn. rewrite Z2Nat.id; [done|]. apply nbitmap_nonneg; apply Hok.
Qed.

Lemma bfree_runs H c s a b (Q : unit -> fs L U -> Prop) :
  let sb := fs_sb s in
  in_tx c s a -> outer sb H a -> fs_ok sb (b_ld a) -> fits s a (b_txn a) 0 ->
  0 <= b < sb_size sb -> used sb (b_ld a) b = true ->
  (forall s', (forall c', ceq c c' -> in_tx c' s' (BS (free_ld sb (b_ld a) b) (b_held a) ({[BBLOCK b sb]} ∪ b_txn a))) ->
     kept H s s' -> Q tt s') ->
  runs (bfree ROOTDEV b) c s Q.
Proof.
  intros sb HT Ho Hok [Hr1 Hr2] Hb Hu HK. unfold bfree. eapply runs_same; [reflexivity|]. fold sb.
  destruct (outer_bitmap sb H a _ Ho (BBLOCK_bitmap _ _ Hb)) as [HbH Hbn].
  eapply bread_step; [exact HT|exact HbH|exact Hbn|lia|]. intros i c1 s1 Hc1 HT1 Hh1 Hk1.
  eapply get_step; [exact HT1|cbn; apply lookup_insert_eq|done|]. unfold used in Hu. rewrite Hu. cbn [negb].
  eapply update_runs; [exact HT1|exact HbH|done|done| |rewrite (kept_cap _ _ _ Hk1); lia|].
  { rewrite length_setZ. apply Hok. }
  intros s2 HT2 Hk2. apply HK; [|by eapply kept_trans]. intros c' Hc'. apply HT2. ceqs.
Qed.
End alloc.
