(* ===== verification/FsFile.v ===== *)
(** * The contents of a file (kernel/fs.c, [bmap], [readi], [writei])

    An inode names its blocks through thirteen addresses, the last of them that of a
    block of further addresses.  [slot] numbers all of these; [inode_ok] says that the
    blocks are the file's own, and [content] is the byte sequence they hold.  [bmap]
    extends the mapping, [readi] reads a slice of the contents and [writei] replaces one. *)

From S2P Require Import Prelude KMonad Riscv Mem Bytes Sleeplock Bio BlockLayer UserMem Fs FsBlk.

(** ** The blocks of an inode *)

(** Slots 0 .. 11 are the direct blocks, slot 12 the indirect block, and slot 13 + j the
    j-th block it names. *)
Definition slot (ld : Z -> block) (i : inode) (k : Z) : Z :=
  if k <=? NDIRECT then nthZ 0 (i_addrs i) k
  else
    let ind := nthZ 0 (i_addrs i) NDIRECT in
    if ind =? 0 then 0 else get_slot (ld ind) (k - NDIRECT - 1).

Definition NSLOTS := NDIRECT + 1 + NINDIRECT.

Definition file_slot (bn : Z) : Z := if bn <? NDIRECT then bn else bn + 1.

Lemma file_slot_range bn : 0 <= bn < MAXFILE -> 0 <= file_slot bn < NSLOTS.
Proof.
  change MAXFILE with 268. change NSLOTS with 269. unfold file_slot, NDIRECT. destruct (Z.ltb_spec bn 12); lia.
Qed.

Lemma file_slot_inj bn bn' : 0 <= bn -> 0 <= bn' -> file_slot bn = file_slot bn' -> bn = bn'.
Proof. unfold file_slot, NDIRECT. destruct (Z.ltb_spec bn 12), (Z.ltb_spec bn' 12); lia. Qed.

Lemma file_slot_ind bn : 0 <= bn -> file_slot bn <> NDIRECT.
Proof. unfold file_slot, NDIRECT. destruct (Z.ltb_spec bn 12); lia. Qed.

Record inode_ok (sb : superblock) (ld : Z -> block) (i : inode) : Prop := {
  io_len : length (i_addrs i) = 13%nat;
  io_dev : i_dev i = ROOTDEV;
  io_block : 0 < IBLOCK (i_inum i) sb < sb_bmapstart sb;
  (** the blocks are in the data area, in use, and named once *)
  io_slot k : 0 <= k < NSLOTS -> slot ld i k <> 0 ->
    data_start sb <= slot ld i k < sb_size sb /\ used sb ld (slot ld i k) = true;
  io_inj k k' : 0 <= k < NSLOTS -> 0 <= k' < NSLOTS -> slot ld i k <> 0 -> slot ld i k = slot ld i k' -> k = k';
  io_size : 0 <= i_size i <= MAXFILE * BSIZE;
  (** there are no holes *)
  io_mapped bn : 0 <= bn -> bn * BSIZE < i_size i -> slot ld i (file_slot bn) <> 0
}.

Definition with_addrs (l : list Z) (i : inode) : inode :=
  Inode (i_dev i) (i_inum i) (i_ref i) (i_lock i) (i_valid i) (i_type i) (i_major i) (i_minor i) (i_nlink i) (i_size i) l.

(** More blocks have been given to the file; those it had hold what they held. *)
Record ext (sb : superblock) (ld : Z -> block) (i : inode) (ld' : Z -> block) (i' : inode) : Prop := {
  x_fields : i' = with_addrs (i_addrs i') i;
  x_slot k : 0 <= k < NSLOTS -> slot ld i k <> 0 -> slot ld' i' k = slot ld i k;
  x_new k : 0 <= k < NSLOTS -> slot ld i k = 0 -> slot ld' i' k <> 0 -> used sb ld (slot ld' i' k) = false;
  x_used b : 0 <= b < sb_size sb -> used sb ld b = true -> used sb ld' b = true;
  x_data b : 0 < b < sb_size sb -> used sb ld b = true -> ~ is_bitmap sb b -> b <> slot ld i NDIRECT -> ld' b = ld b
}.

Lemma with_addrs_id i : i = with_addrs (i_addrs i) i.
Proof. by destruct i. Qed.

Lemma ext_refl sb ld i : ext sb ld i ld i.
Proof. split; [apply with_addrs_id|done|congruence|done|done]. Qed.

Lemma ext_trans sb ld i ld1 i1 ld2 i2 :
  inode_ok sb ld2 i2 -> ext sb ld i ld1 i1 -> ext sb ld1 i1 ld2 i2 -> ext sb ld i ld2 i2.
Proof.
  intros Hio X Y. split.
  - rewrite (x_fields _ _ _ _ _ Y) at 1. rewrite (x_fields _ _ _ _ _ X) at 1. done.
  - intros k Hk Hs. rewrite (x_slot _ _ _ _ _ Y), (x_slot _ _ _ _ _ X); [done..|]. by rewrite (x_slot _ _ _ _ _ X).
  - intros k Hk Hs Hn. pose proof (io_slot _ _ _ Hio k Hk Hn) as [Hr _].
    assert (Hd : 0 <= slot ld2 i2 k < sb_size sb).
    { pose proof (io_block _ _ _ Hio). pose proof (nbitmap_nonneg sb). unfold data_start in *. lia. }
    destruct (decide (slot ld1 i1 k = 0)) as [E|E].
    + pose proof (x_new _ _ _ _ _ Y k Hk E Hn) as Hu. destruct (used sb ld (slot ld2 i2 k)) eqn:Eu; [|done].
      apply (x_used _ _ _ _ _ X) in Eu; [congruence|done].
    + rewrite (x_slot _ _ _ _ _ Y) by done. by apply (x_new _ _ _ _ _ X).
  - intros b Hb Hu. by apply (x_used _ _ _ _ _ Y), (x_used _ _ _ _ _ X).
  - intros b Hb Hu Hm Hne. rewrite (x_data _ _ _ _ _ Y); [by apply (x_data _ _ _ _ _ X)|done| |done|].
    + apply (x_used _ _ _ _ _ X); [lia|done].
    + intros E. destruct (decide (slot ld i NDIRECT = 0)) as [E0|E0].
      * assert (Hn : slot ld1 i1 NDIRECT <> 0) by lia. pose proof (x_new _ _ _ _ _ X NDIRECT ltac:(done) E0 Hn). congruence.
      * rewrite (x_slot _ _ _ _ _ X) in E by done. done.
Qed.

(** One more block, [r], in slot [k]. *)
Lemma ext_add sb ld i ld' i' k r :
  fs_ok sb ld -> inode_ok sb ld i -> first_free sb ld r -> 0 <= k < NSLOTS -> slot ld i k = 0 ->
  i' = with_addrs (i_addrs i') i -> length (i_addrs i') = 13%nat ->
  (forall k', 0 <= k' < NSLOTS -> slot ld' i' k' = if decide (k' = k) then r else slot ld i k') ->
  (forall b, 0 <= b < sb_size sb -> used sb ld' b = (b =? r) || used sb ld b) ->
  (forall b, 0 < b < sb_size sb -> used sb ld b = true -> ~ is_bitmap sb b -> b <> slot ld i NDIRECT -> ld' b = ld b) ->
  inode_ok sb ld' i' /\ ext sb ld i ld' i'.
Proof.
  intros Hok Hio Hff Hk Hk0 Hi' Hlen Hslot Hused Hdata. pose proof (first_free_data sb ld Hok r Hff) as Hds.
  pose proof (data_start_pos sb ld Hok). pose proof Hff as (Hr & Hru & _).
  assert (Hnu : forall k', 0 <= k' < NSLOTS -> slot ld i k' <> 0 -> slot ld i k' <> r).
  { intros k' Hk' Hn E. pose proof (io_slot _ _ _ Hio k' Hk' Hn) as [_ Hu]. congruence. }
  assert (Hur : forall b, 0 <= b < sb_size sb -> used sb ld b = true -> used sb ld' b = true).
  { intros b Hb Hu. rewrite Hused, Hu by done. apply orb_true_r. }
  split.
  - split.
    + done.
    + rewrite Hi'. apply Hio.
    + rewrite Hi'. apply Hio.
    + intros k' Hk'. rewrite Hslot by done. destruct (decide (k' = k)); intros Hn.
      * split; [lia|]. rewrite Hused by done. by rewrite Z.eqb_refl.
      * pose proof (io_slot _ _ _ Hio k' Hk' Hn) as [? ?]. split; [done|]. apply Hur; [lia|done].
    + intros k1 k2 H1 H2. rewrite !Hslot by done. destruct (decide (k1 = k)), (decide (k2 = k)); try congruence.
      * intros Hn E. exfalso. apply (Hnu k2); congruence.
      * intros Hn E. exfalso. by apply (Hnu k1).
      * by apply (io_inj _ _ _ Hio).
    + rewrite Hi'. apply Hio.
    + rewrite Hi'. cbn. intros bn Hbn Hlt. pose proof (io_mapped _ _ _ Hio bn Hbn Hlt) as Hm.
      rewrite Hi' in Hslot. pose proof (io_size _ _ _ Hio).
      rewrite Hslot by (apply file_slot_range; unfold BSIZE in *; lia). by destruct (decide _); [congruence|].
  - split; [done| | |exact Hur|exact Hdata].
    + intros k' Hk' Hn. rewrite Hslot by done. by destruct (decide _); [congruence|].
    + intros k' Hk' E. rewrite Hslot by done. by destruct (decide _).
Qed.

Lemma slot_le ld i k : k <= NDIRECT -> slot ld i k = nthZ 0 (i_addrs i) k.
Proof. intros Hk. unfold slot. by rewrite (proj2 (Z.leb_le _ _)). Qed.

Lemma slot_gt ld i k :
  NDIRECT < k -> slot ld i k = if decide (slot ld i NDIRECT = 0) then 0 else get_slot (ld (slot ld i NDIRECT)) (k - NDIRECT - 1).
Proof.
  intros Hk. rewrite (slot_le ld i NDIRECT) by lia. unfold slot. rewrite (proj2 (Z.leb_gt _ _)) by done. cbv zeta.
  destruct (Z.eqb_spec (nthZ 0 (i_addrs i) NDIRECT) 0) as [E|E]; [by rewrite decide_True|by rewrite decide_False].
Qed.

Section add.
Context (sb : superblock) (ld : Z -> block) (i : inode) (r : Z).
Context (Hok : fs_ok sb ld) (Hio : inode_ok sb ld i) (Hff : first_free sb ld r).

Lemma slot_not_new k : 0 <= k < NSLOTS -> slot ld i k <> 0 -> slot ld i k <> r /\ ~ is_bitmap sb (slot ld i k) /\ 0 < slot ld i k < sb_size sb.
Proof using Hok Hio Hff.
  intros Hk Hn. destruct (io_slot _ _ _ Hio k Hk Hn) as [Hr Hu]. pose proof (data_start_pos sb ld Hok). destruct Hff as (_ & Hf & _).
  split_and!; [congruence|unfold is_bitmap; lia|lia|lia].
Qed.

(** A direct block, or the indirect block. *)
Lemma ext_direct k :
  0 <= k <= NDIRECT -> slot ld i k = 0 ->
  inode_ok sb (alloc_ld sb ld r) (set_addr k r i) /\ ext sb ld i (alloc_ld sb ld r) (set_addr k r i) /\
  slot (alloc_ld sb ld r) (set_addr k r i) k = r.
Proof using Hok Hio Hff.
  intros Hk Hk0. assert (HkN : 0 <= k < NSLOTS) by (change NSLOTS with 269; unfold NDIRECT in *; lia).
  pose proof (io_len _ _ _ Hio) as Hlen. destruct Hff as (Hr & _).
  assert (Hlow : forall k', 0 <= k' <= NDIRECT -> slot (alloc_ld sb ld r) (set_addr k r i) k' = if decide (k' = k) then r else slot ld i k').
  { intros k' Hk'. rewrite !slot_le by lia. cbn. destruct (decide (k' = k)) as [->|].
    - apply nthZ_setZ_eq. unfold NDIRECT in *. lia.
    - apply nthZ_setZ_ne; lia. }
  assert (Hslot : forall k', 0 <= k' < NSLOTS -> slot (alloc_ld sb ld r) (set_addr k r i) k' = if decide (k' = k) then r else slot ld i k').
  { intros k' Hk'. destruct (decide (k' <= NDIRECT)); [apply Hlow; lia|].
    rewrite !(slot_gt _ _ k') by lia. rewrite Hlow by (unfold NDIRECT; lia). rewrite (decide_False (P := k' = k)) by lia.
    destruct (decide (NDIRECT = k)) as [<-|].
    - rewrite (decide_True (P := slot ld i NDIRECT = 0)) by done. destruct (decide (r = 0)); [done|].
      rewrite alloc_self. apply get32_zeros.
    - destruct (decide (slot ld i NDIRECT = 0)) as [|Hn]; [done|].
      destruct (slot_not_new NDIRECT ltac:(done) Hn) as (? & ? & _). by rewrite alloc_other. }
  destruct (ext_add sb ld i (alloc_ld sb ld r) (set_addr k r i) k r) as [? ?]; try done.
  - cbn. by rewrite length_setZ.
  - intros b Hb. by apply used_alloc.
  - intros b Hb Hu Hm _. apply alloc_other; [done| |done]. intros ->. destruct Hff as (_ & ? & _). congruence.
  - split_and!; [done|done|]. rewrite Hslot by done. by rewrite decide_True.
Qed.

(** A block named by the indirect block. *)
Lemma ext_indirect j :
  let ind := slot ld i NDIRECT in
  let ld' := bupd (alloc_ld sb ld r) ind (put32 (ld ind) (4 * j) r) in
  0 <= j < NINDIRECT -> ind <> 0 -> get_slot (ld ind) j = 0 ->
  inode_ok sb ld' i /\ ext sb ld i ld' i /\ slot ld' i (j + NDIRECT + 1) = r /\ fs_ok sb ld'.
Proof using Hok Hio Hff.
  intros ind ld' Hj Hind Hj0. destruct (slot_not_new NDIRECT ltac:(done) Hind) as (Hir & Hib & Hi0). fold ind in Hir, Hib, Hi0.
  assert (Hind' : slot ld' i NDIRECT = ind) by (unfold ind; by rewrite !slot_le by lia).
  assert (Hl : ld' ind = put32 (ld ind) (4 * j) r) by (unfold ld', bupd; by rewrite decide_True).
  assert (Hrange : 0 <= j + NDIRECT + 1 < NSLOTS) by (change NSLOTS with 269; change NINDIRECT with 256 in Hj; unfold NDIRECT; lia).
  assert (Hlen : length (ld ind) = 1024%nat) by apply Hok. pose proof (fo_size _ _ Hok). pose proof Hff as (Hr & _).
  assert (Hslot : forall k', 0 <= k' < NSLOTS -> slot ld' i k' = if decide (k' = j + NDIRECT + 1) then r else slot ld i k').
  { intros k' Hk'. change NSLOTS with 269 in Hk'. change NINDIRECT with 256 in Hj. destruct (decide (k' <= NDIRECT)).
    - rewrite decide_False by lia. by rewrite !slot_le by lia.
    - rewrite !(slot_gt _ _ k') by lia. rewrite Hind'. fold ind. rewrite !(decide_False (P := ind = 0)) by done. rewrite Hl. unfold get_slot.
      unfold NDIRECT in *. destruct (decide (k' = j + 12 + 1)) as [->|].
      + replace (j + 12 + 1 - 12 - 1) with j by lia. rewrite get32_put32_same by lia. apply u32_small. lia.
      + apply get32_put32_out; lia. }
  assert (Hused : forall b, 0 <= b < sb_size sb -> used sb ld' b = (b =? r) || used sb ld b).
  { intros b Hb. unfold ld'. rewrite used_bupd_data by done. by apply used_alloc. }
  destruct (ext_add sb ld i ld' i (j + NDIRECT + 1) r) as [? ?]; try done.
  - rewrite slot_gt by lia. fold ind. rewrite decide_False by done. by replace (j + NDIRECT + 1 - NDIRECT - 1) with j by lia.
  - apply with_addrs_id.
  - apply Hio.
  - intros b Hb Hu Hm Hne. unfold ld', bupd. rewrite decide_False by (intros E; by apply Hne; rewrite <- E).
    apply alloc_other; [done| |done].
    intros ->. destruct Hff as (_ & ? & _). congruence.
  - split_and!; [done|done|rewrite Hslot by done; by rewrite decide_True|].
    apply fs_ok_bupd; [by apply fs_ok_alloc|done|]. by rewrite length_put32.
Qed.
End add.

(** ** bmap *)

Section bmap.
Context {L U : Type} {HB : BlockLayer L} {HL : BlockLaws L} {HU : UserMem U}.
Implicit Types (s : fs L U) (a : bstate).

(** Only inode [ip] and the state of the block layer differ. *)
Record fkept (ip : Z) (s s' : fs L U) : Prop := {
  fk_sb : fs_sb s' = fs_sb s;
  fk_usr : fs_usr s' = fs_usr s;
  fk_cap : bl_cap (fs_blk s') = bl_cap (fs_blk s);
  fk_len : length (fs_inode s') = length (fs_inode s);
  fk_other j : 0 <= j -> j <> ip -> inodeat s' j = inodeat s j
}.

Lemma fkept_refl ip s : fkept ip s s.
Proof. done. Qed.

Lemma fkept_trans ip s s1 s2 : fkept ip s s1 -> fkept ip s1 s2 -> fkept ip s s2.
Proof. intros [? ? ? ? O1] [? ? ? ? O2]. split; try congruence. intros j Hj Hne. by rewrite O2, O1. Qed.

Lemma kept_fkept H ip s s' : kept H s s' -> fkept ip s s'.
Proof.
  intros Hk. split; [by eapply kept_sb|by eapply kept_usr|by eapply kept_cap|by rewrite (kept_inode _ _ _ Hk)|].
  intros j _ _. unfold inodeat. by rewrite (kept_inode _ _ _ Hk).
Qed.

Lemma kept_inodeat H s s' ip : kept H s s' -> inodeat s' ip = inodeat s ip.
Proof. intros Hk. unfold inodeat. by rewrite (kept_inode _ _ _ Hk). Qed.

Lemma inodeat_upd ip f s : 0 <= ip < Z.of_nat (length (fs_inode s)) -> inodeat (upd_inode ip f s) ip = f (inodeat s ip).
Proof. intros Hip. unfold inodeat at 1, upd_inode. cbn. by apply nthZ_setZ_eq. Qed.

Lemma upd_fkept ip f s : 0 <= ip -> fkept ip s (upd_inode ip f s).
Proof.
  intros Hip. split; [done|done|done|cbn; by rewrite length_setZ|]. intros j Hj Hne. unfold inodeat, upd_inode. cbn.
  apply nthZ_setZ_ne; lia.
Qed.

Lemma in_tx_upd c s a ip f : in_tx c s a -> in_tx c (upd_inode ip f s) a.
Proof. done. Qed.

(** What [bmap] has done for file block [bn]. *)
Record bmapped (sb : superblock) (bn : Z) (ld : Z -> block) (i : inode) (a a' : bstate) (i' : inode) (r : Z) : Prop := {
  bm_fs : fs_ok sb (b_ld a');
  bm_inode : inode_ok sb (b_ld a') i';
  bm_ext : ext sb ld i (b_ld a') i';
  bm_held : b_held a' = b_held a;
  bm_addr : r = slot (b_ld a') i' (file_slot bn);
  (** no address: the disk is full *)
  bm_full : r = 0 -> forall b, 0 <= b < sb_size sb -> used sb (b_ld a') b = true;
  bm_fresh : slot ld i (file_slot bn) = 0 -> r <> 0 -> b_ld a' r = zeros BSIZE;
  bm_txn x : x ∈ b_txn a' -> x ∈ b_txn a \/ is_bitmap sb x \/ x <> 0 /\ (x = slot (b_ld a') i' NDIRECT \/ x = r);
  (** nothing happens to a block that is mapped already *)
  bm_same : slot ld i (file_slot bn) <> 0 -> a' = a /\ i' = i
}.

Lemma alloc_txn sb (r x : Z) (T : gset Z) :
  0 <= r < sb_size sb -> x ∈ {[r]} ∪ ({[BBLOCK r sb]} ∪ T) -> x ∈ T \/ is_bitmap sb x \/ x = r.
Proof. intros Hr. rewrite !elem_of_union, !elem_of_singleton. intros [->|[->|?]]; [tauto|right; left; by apply BBLOCK_bitmap|tauto]. Qed.

Lemma alloc_size sb (r : Z) (T : gset Z) :
  0 <= r < sb_size sb -> (size (bitmaps sb ∪ ({[r]} ∪ ({[BBLOCK r sb]} ∪ T))) <= S (size (bitmaps sb ∪ T)))%nat.
Proof.
  intros Hr. replace (bitmaps sb ∪ ({[r]} ∪ ({[BBLOCK r sb]} ∪ T))) with ({[r]} ∪ (bitmaps sb ∪ T)).
  2: { apply BBLOCK_bitmap, elem_bitmaps in Hr. set_solver. }
  destruct (decide (r ∈ bitmaps sb ∪ T)).
  - replace ({[r]} ∪ (bitmaps sb ∪ T)) with (bitmaps sb ∪ T) by set_solver. lia.
  - rewrite size_union, size_singleton by set_solver. lia.
Qed.

Context (ip : Z) (sb : superblock).

(** The direct part, and the allocation of the indirect block. *)
Lemma alloc_addr_runs c s a k (Q : Z -> fs L U -> Prop) :
  let i := inodeat s ip in
  fs_sb s = sb -> in_tx c s a -> b_held a = ∅ -> fs_ok sb (b_ld a) -> inode_ok sb (b_ld a) i ->
  0 <= ip < Z.of_nat (length (fs_inode s)) -> fits s a (bitmaps sb ∪ b_txn a) 0 ->
  0 <= k <= NDIRECT -> slot (b_ld a) i k = 0 ->
  (forall r s' a', (forall c', ceq c c' -> in_tx c' s' a') -> kept ∅ s s' -> alloc_result sb a a' r ->
     (r <> 0 -> let s2 := upd_inode ip (set_addr k r) s' in
       fkept ip s s2 /\ inodeat s2 ip = set_addr k r i /\ fs_ok sb (b_ld a') /\
       inode_ok sb (b_ld a') (inodeat s2 ip) /\ ext sb (b_ld a) i (b_ld a') (inodeat s2 ip) /\
       slot (b_ld a') (inodeat s2 ip) k = r /\ b_ld a' r = zeros BSIZE) -> Q r s') ->
  runs (balloc ROOTDEV) c s Q.
Proof.
  intros i Esb HT Hh Hok Hio Hip Hfit Hk Hk0 HK.
  eapply (balloc_runs ∅); rewrite ?Esb; try done.
  { intros b [?|Hb]; [set_solver|]. rewrite Hh, lookup_empty in Hb. by destruct Hb. }
  intros r s' a' HT' Hk' Hres. apply (HK r s' a'); [done|done|done|]. intros Hr0 s2.
  destruct Hres as [(-> & _)|(Hff & ->)]; [done|]. cbn [b_ld].
  assert (Ei : inodeat s2 ip = set_addr k r i).
  { unfold s2. rewrite inodeat_upd by (by rewrite (kept_inode _ _ _ Hk')). by rewrite (kept_inodeat _ _ _ _ Hk'). }
  rewrite Ei. destruct (ext_direct sb (b_ld a) i r Hok Hio Hff k Hk Hk0) as (? & ? & ?).
  split_and!; try done; [|by apply fs_ok_alloc|apply alloc_self].
  eapply fkept_trans; [by eapply kept_fkept|]. apply upd_fkept. lia.
Qed.

(** The indirect part, once there is an indirect block. *)
Lemma bmap_ind_runs c s a j (Q : Z -> fs L U -> Prop) :
  let i := inodeat s ip in
  let ind := slot (b_ld a) i NDIRECT in
  fs_sb s = sb -> in_tx c s a -> b_held a = ∅ -> fs_ok sb (b_ld a) -> inode_ok sb (b_ld a) i ->
  fits s a (bitmaps sb ∪ b_txn a) 1 -> 0 <= j < NINDIRECT -> ind <> 0 ->
  (forall r s' a', (forall c', ceq c c' -> in_tx c' s' a') -> kept ∅ s s' ->
     bmapped sb (j + NDIRECT) (b_ld a) i a a' i r -> Q r s') ->
  runs (bp <- blkop (bl_bread ROOTDEV ind) ;;
        d <- blkop (bl_get bp) ;;
        addr <- (if get_slot d j =? 0 then
             addr <- balloc ROOTDEV ;;
             (when negb (addr =? 0) do
                blkop (bl_put bp (put32 d (4 * j) addr)) ;;
                blkop (bl_log_write bp)) ;;
             ret addr
           else ret (get_slot d j)) ;;
        blkop (bl_brelse bp) ;;
        ret addr) c s Q.
Proof.
  intros i ind Esb HT Hh Hok Hio [Hf1 Hf2] Hj Hind HK.
  assert (Hfs : file_slot (j + NDIRECT) = j + NDIRECT + 1).
  { unfold file_slot. destruct (Z.ltb_spec (j + NDIRECT) NDIRECT); lia. }
  assert (Hslot : slot (b_ld a) i (file_slot (j + NDIRECT)) = get_slot (b_ld a ind) j).
  { rewrite Hfs, slot_gt by lia. fold ind. rewrite decide_False by done. f_equal. lia. }
  assert (HindN : data_start sb <= ind < sb_size sb /\ used sb (b_ld a) ind = true) by (by apply (io_slot _ _ _ Hio)).
  assert (Eind : slot (b_ld a) i NDIRECT = ind) by done. clearbody ind.
  pose proof (subseteq_size (b_txn a) (bitmaps sb ∪ b_txn a) ltac:(set_solver)) as Hsub. rewrite Hh, map_size_empty in Hf2.
  eapply (bread_step ∅); [exact HT|set_solver|by rewrite Hh|rewrite Hh, map_size_empty; lia|].
  intros bp c1 s1 Hc1 HT1 Hh1 Hk1. rewrite Hh in HT1.
  eapply get_step; [exact HT1|cbn; apply lookup_insert_eq|done|].
  assert (Hfin : forall c2 s2 a2 r, ceq c c2 -> in_tx c2 s2 (BS (b_ld a2) {[ind := b_ld a2 ind]} (b_txn a2)) ->
    bl_handle (fs_blk s2) bp ind -> kept ∅ s s2 -> b_held a2 = ∅ ->
    bmapped sb (j + NDIRECT) (b_ld a) i a a2 i r ->
    runs (blkop (bl_brelse bp) ;; ret r) c2 s2 Q).
  { clear Hfs Hslot. intros c2 s2 [ld2 hd2 tx2] r Hc2 HT2 Hb2 Hk2 Hh2 Hbm. cbn [b_ld b_held b_txn] in *. subst hd2.
    eapply (brelse_step ∅ _ _ _ _ ind); [exact HT2|set_solver|apply lookup_insert_eq|done|].
    cbn [b_ld b_held b_txn]. intros c3 s3 Hc3 HT3 Hk3. rewrite delete_singleton_eq in HT3. apply runs_ret.
    eapply HK; [|by eapply kept_trans|exact Hbm]. intros c' Hc'. eapply in_tx_ceq; [|exact HT3]. ceqs. }
  destruct (Z.eqb_spec (get_slot (b_ld a ind) j) 0) as [E0|E0].
  2: { eapply runs_same; [reflexivity|]. eapply (Hfin c1 s1 a); try done. split; try done; try congruence.
    - apply ext_refl.
    - intros x Hx. by left. }
  apply runs_bind. apply runs_bind. set (a1 := BS (b_ld a) {[ind := b_ld a ind]} (b_txn a)) in *.
  assert (Esb1 : fs_sb s1 = sb) by (by rewrite (kept_sb _ _ _ Hk1)).
  eapply (balloc_runs {[ind]} c1 s1 a1); rewrite ?Esb1; try done.
  { intros b [->%elem_of_singleton|[x Hx]]; [done|]. cbn in Hx. by apply lookup_singleton_Some in Hx as [<- _]. }
  { unfold fits. rewrite (kept_cap _ _ _ Hk1). cbn [a1 b_held b_txn]. rewrite map_size_singleton. lia. }
  intros r s2 a2 HT2 Hk2 Hres c2 Hc2. pose proof (kept_trans _ _ _ _ Hk1 (kept_sub {[ind]} ∅ _ _ (empty_subseteq _) Hk2)) as Hk12.
  assert (Hb2 : bl_handle (fs_blk s2) bp ind) by (eapply kept_handle; [exact Hk2|set_solver|done]).
  destruct Hres as [(-> & -> & Hfull)|(Hff & ->)].
  { eapply runs_same; [reflexivity|]. apply runs_ret. intros c3 Hc3. eapply (Hfin c3 s2 a); try done; [ceqs| |].
    - eapply in_tx_ceq; [exact Hc3|]. by apply HT2.
    - split; try done; [apply ext_refl|congruence|]. intros x Hx. by left. }
  change (b_ld a1) with (b_ld a) in Hff.
  destruct (ext_indirect sb (b_ld a) i r Hok Hio Hff j Hj) as (Hio' & Hext & Hsl & Hok'); rewrite ?Eind in *; [done|done|].
  pose proof (first_free_data sb _ Hok _ Hff) as Hds. pose proof (data_start_pos sb _ Hok). pose proof Hff as (Hr & Hru & _).
  rewrite (proj2 (Z.eqb_neq r 0)) by lia. cbn [negb]. apply runs_bind.
  eapply (put_step ∅ _ _ _ _ ind); [by apply HT2|set_solver|apply lookup_insert_eq|done|rewrite length_put32; apply Hok|].
  cbn [b_ld b_held b_txn a1]. intros c3 s3 Hc3 HT3 Hb3 Hk3. rewrite insert_singleton_eq in HT3.
  apply runs_blkop. pose proof (alloc_size sb r (b_txn a) Hr) as Hsz.
  assert (Hcap : Z.of_nat (size ({[r]} ∪ ({[BBLOCK r sb]} ∪ b_txn a))) < bl_cap (fs_blk s3)).
  { rewrite (kept_cap _ _ _ Hk3), (kept_cap _ _ _ Hk12).
    pose proof (subseteq_size ({[r]} ∪ ({[BBLOCK r sb]} ∪ b_txn a)) (bitmaps sb ∪ ({[r]} ∪ ({[BBLOCK r sb]} ∪ b_txn a))) ltac:(set_solver)). lia. }
  eapply runs_mono; [eapply (bl_log_write_ok _ _ _ c3 bp ind); [apply HT3|apply HT3|apply lookup_insert_eq|done|exact Hcap]|].
  cbn [b_ld b_held b_txn]. intros [] l4 (HR4 & Hb4 & Hk4 & Hcap4) c4 Hc4. apply runs_ret. intros c5 Hc5.
  assert (Hk5 : kept ∅ s (set_blk l4 s3)).
  { eapply kept_trans; [exact Hk12|]. eapply kept_trans; [exact Hk3|]. split_and!; [done|done|]. intros j0 b0 ?. set_solver. }
  eapply (Hfin c5 _ (BS (bupd (alloc_ld sb (b_ld a) r) ind (put32 (b_ld a ind) (4 * j) r)) ∅ ({[ind]} ∪ ({[r]} ∪ ({[BBLOCK r sb]} ∪ b_txn a))))); try done.
  - ceqs.
  - cbn [b_ld b_held b_txn]. replace (bupd _ ind _ ind) with (put32 (b_ld a ind) (4 * j) r) by (unfold bupd; by rewrite decide_True).
    split; [|by eapply bl_free_ceq; [|apply HT3]; ceqs]. cbn. by replace (mypid c5) with (mypid c3) by ceqs.
  - split; cbn [b_ld b_held b_txn]; try done; [by rewrite Hfs, Hsl|lia| | |].
    + intros _ _. unfold bupd. rewrite decide_False by (intros E; rewrite E in HindN; destruct HindN; congruence). apply alloc_self.
    + intros x. rewrite elem_of_union, elem_of_singleton. rewrite (slot_le _ _ NDIRECT), <- (slot_le (b_ld a)), Eind by lia.
      intros [->|[?|[?| ->]]%(alloc_txn sb)]; [|tauto|tauto| |done]; right; right; [tauto|split; [lia|tauto]].
    + congruence.
Qed.

(** Nothing to do, or the disk is full. *)
Lemma bmapped_same bn a i r :
  fs_ok sb (b_ld a) -> inode_ok sb (b_ld a) i -> r = slot (b_ld a) i (file_slot bn) ->
  (r = 0 -> forall b, 0 <= b < sb_size sb -> used sb (b_ld a) b = true) ->
  bmapped sb bn (b_ld a) i a a i r.
Proof. intros Hok Hio Hr Hfull. split; try done; [apply ext_refl|congruence|]. intros x Hx. by left. Qed.

Lemma bmap_direct_runs c s a bn (Q : Z -> fs L U -> Prop) :
  let i := inodeat s ip in
  fs_sb s = sb -> in_tx c s a -> b_held a = ∅ -> fs_ok sb (b_ld a) -> inode_ok sb (b_ld a) i ->
  0 <= ip < Z.of_nat (length (fs_inode s)) -> fits s a (bitmaps sb ∪ b_txn a) 0 -> 0 <= bn < NDIRECT ->
  (forall r s' a', (forall c', ceq c c' -> in_tx c' s' a') -> fkept ip s s' ->
     bmapped sb bn (b_ld a) i a a' (inodeat s' ip) r -> Q r s') ->
  runs (bmap ip bn) c s Q.
Proof.
  intros i Esb HT Hh Hok Hio Hip Hfit Hbn HK. unfold bmap. rewrite (proj2 (Z.ltb_lt _ _)) by lia.
  assert (Hfs : file_slot bn = bn) by (unfold file_slot; by rewrite (proj2 (Z.ltb_lt _ _)) by lia).
  eapply runs_same; [reflexivity|]. fold i. rewrite <- (slot_le (b_ld a) i bn) by lia.
  destruct (Z.eqb_spec (slot (b_ld a) i bn) 0) as [E|E].
  2: { apply runs_ret, (HK _ s a); [intros c' Hc'; by eapply in_tx_ceq|apply fkept_refl|].
       apply bmapped_same; [done|done|by rewrite Hfs|done]. }
  eapply runs_same; [reflexivity|]. fold i. rewrite (io_dev _ _ _ Hio).
  apply runs_bind. eapply (alloc_addr_runs c s a bn); try done; [lia|]. intros r s1 a1 HT1 Hk1 Hres Hset c1 Hc1.
  destruct (Z.eqb_spec r 0) as [->|Hr].
  - destruct Hres as [(_ & -> & Hfull)|(Hff & _)].
    2: { pose proof (first_free_data sb _ Hok _ Hff). pose proof (data_start_pos sb _ Hok). lia. }
    apply runs_ret, (HK _ s1 a); [intros c' Hc'; apply HT1; ceqs|by eapply kept_fkept|].
    rewrite (kept_inodeat _ _ _ _ Hk1). apply bmapped_same; [done|done|by rewrite Hfs|done].
  - destruct (Hset Hr) as (Hf2 & Ei & Hok' & Hio' & Hext & Hsl & Hz). destruct Hres as [(-> & _)|(Hff & ->)]; [done|].
    eapply runs_bind, runs_modify. intros c2 Hc2. apply runs_ret, (HK _ _ _ ltac:(intros c' Hc'; apply in_tx_upd, HT1; ceqs)); [done|].
    split; try done; [by rewrite Hfs| |rewrite Hfs; congruence].
    intros x [?|[?| ->]]%(alloc_txn sb); [tauto|tauto|tauto|]. apply Hff.
Qed.

Lemma bmap_runs c s a bn (Q : Z -> fs L U -> Prop) :
  let i := inodeat s ip in
  fs_sb s = sb -> in_tx c s a -> b_held a = ∅ -> fs_ok sb (b_ld a) -> inode_ok sb (b_ld a) i ->
  0 <= ip < Z.of_nat (length (fs_inode s)) -> fits s a (bitmaps sb ∪ b_txn a) 2 -> 0 <= bn < MAXFILE ->
  (forall r s' a', (forall c', ceq c c' -> in_tx c' s' a') -> fkept ip s s' ->
     bmapped sb bn (b_ld a) i a a' (inodeat s' ip) r -> Q r s') ->
  runs (bmap ip bn) c s Q.
Proof.
  intros i Esb HT Hh Hok Hio Hip [Hf1 Hf2] Hbn HK. destruct (decide (bn < NDIRECT)).
  { apply (bmap_direct_runs c s a); try done; [split; lia|lia]. }
  unfold bmap. rewrite (proj2 (Z.ltb_ge _ _)) by lia. change MAXFILE with (NDIRECT + NINDIRECT) in Hbn. rewrite (proj2 (Z.ltb_lt _ _)) by lia.
  set (j := bn - NDIRECT). assert (Ebn : bn = j + NDIRECT) by lia. assert (Hj : 0 <= j < NINDIRECT) by lia. clearbody j. subst bn.
  assert (Hfs : file_slot (j + NDIRECT) = j + NDIRECT + 1).
  { unfold file_slot. destruct (Z.ltb_spec (j + NDIRECT) NDIRECT); lia. }
  eapply runs_same; [reflexivity|]. eapply runs_same; [reflexivity|]. fold i. rewrite (io_dev _ _ _ Hio).
  rewrite <- (slot_le (b_ld a) i NDIRECT) by lia. destruct (Z.eqb_spec (slot (b_ld a) i NDIRECT) 0) as [E|E].
  2: { eapply runs_same; [reflexivity|]. rewrite (proj2 (Z.eqb_neq _ _)) by done.
       eapply (bmap_ind_runs c s a j); try done; [split; lia|]. intros r s' a' HT' Hk' Hbm.
       eapply HK; [done|by eapply kept_fkept|]. rewrite (kept_inodeat _ _ _ _ Hk'). done. }
  assert (E0 : slot (b_ld a) i (file_slot (j + NDIRECT)) = 0) by (rewrite Hfs, slot_gt by lia; by rewrite decide_True).
  apply runs_bind, runs_bind. eapply (alloc_addr_runs c s a NDIRECT); try done; [split; lia|].
  intros r s1 a1 HT1 Hk1 Hres Hset c1 Hc1. destruct (Z.eqb_spec r 0) as [->|Hr]; cbn [negb].
  { eapply runs_same; [reflexivity|]. apply runs_ret. intros c2 Hc2. cbn [Z.eqb]. destruct Hres as [(_ & -> & Hfull)|(Hff & _)].
    2: { pose proof (first_free_data sb _ Hok _ Hff). pose proof (data_start_pos sb _ Hok). lia. }
    apply runs_ret, (HK _ s1 a); [intros c' Hc'; apply HT1; ceqs|by eapply kept_fkept|].
    rewrite (kept_inodeat _ _ _ _ Hk1). by apply bmapped_same. }
  destruct (Hset Hr) as (Hf & Ei & Hok' & Hio' & Hext & Hsl & Hz). destruct Hres as [(-> & _)|(Hff & ->)]; [done|].
  set (s2 := upd_inode ip (set_addr NDIRECT r) s1) in *. set (a1 := BS _ _ _) in *.
  apply runs_bind, runs_modify. fold s2. intros c2 Hc2. apply runs_ret. intros c3 Hc3. rewrite (proj2 (Z.eqb_neq _ _)) by done.
  assert (HT2 : in_tx c3 s2 a1) by (apply in_tx_upd, HT1; ceqs).
  rewrite <- Hsl. pose proof (alloc_size sb r (b_txn a) ltac:(apply Hff)) as Hsz.
  eapply (bmap_ind_runs c3 s2 a1 j); try done; [by rewrite (fk_sb _ _ _ Hf)| |by rewrite Hsl|].
  { unfold fits. rewrite (fk_cap _ _ _ Hf). cbn [a1 b_txn b_held]. lia. }
  intros r2 s3 a3 HT3 Hk3 Hbm. apply (HK r2 s3 a3); [intros c' Hc'; apply HT3; ceqs|by eapply fkept_trans; [|by eapply kept_fkept]|].
  rewrite (kept_inodeat _ _ _ _ Hk3). destruct Hbm as [Hok3 Hio3 Hext3 Hh3 Hr3 Hfull3 Hz3 Htx3 Hs3].
  assert (E1 : slot (b_ld a1) (inodeat s2 ip) (file_slot (j + NDIRECT)) = 0).
  { rewrite Hfs, slot_gt by lia. rewrite Hsl, decide_False by done. cbn [a1 b_ld]. rewrite alloc_self. apply get32_zeros. }
  split; try done; [by eapply ext_trans|by auto|].
  intros x Hx. destruct (Htx3 x Hx) as [Hx1|[?|?]]; [|tauto|tauto].
  apply (alloc_txn sb) in Hx1 as [?|[?| ->]]; [tauto|tauto| |apply Hff]. right; right. split; [done|]. left.
  rewrite (x_slot _ _ _ _ _ Hext3) by (done || by rewrite Hsl). done.
Qed.
End bmap.
