(* ===== verification/FsData.v ===== *)
(** * Reading and writing a file (kernel/fs.c, [readi] and [writei])

    The bytes of a file as a list: [readi] returns a slice of it, and [writei] overwrites
    or appends to it, as far as the disk has room, without touching any other block in
    use. *)

From S2P Require Import Prelude KMonad Riscv Mem Bytes Sleeplock Bio BlockLayer UserMem Fs FsBlk FsFile.

(** Byte [o] of the file. *)
Definition fbyte (ld : Z -> block) (i : inode) (o : Z) : Z :=
  nthZ 0 (ld (slot ld i (file_slot (o / BSIZE)))) (o mod BSIZE).

Definition fbytes (ld : Z -> block) (i : inode) (off n : Z) : list Z := (fun k => fbyte ld i (off + k)) <$> upto n.

Definition content (ld : Z -> block) (i : inode) : list Z := fbytes ld i 0 (i_size i).

(** ** Lists of bytes *)

Lemma length_fbytes ld i off n : length (fbytes ld i off n) = Z.to_nat n.
Proof. unfold fbytes. by rewrite length_fmap, length_upto. Qed.

Lemma nthZ_fbytes ld i off n k : 0 <= k < n -> nthZ 0 (fbytes ld i off n) k = fbyte ld i (off + k).
Proof.
  intros Hk. unfold nthZ, fbytes. rewrite nth_lookup, list_lookup_fmap, lookup_upto by lia. cbn. f_equal. lia.
Qed.

(** Lists are equal when their elements are. *)
Lemma list_eq_nthZ (l l' : list Z) :
  length l = length l' -> (forall k, 0 <= k < Z.of_nat (length l) -> nthZ 0 l k = nthZ 0 l' k) -> l = l'.
Proof.
  intros Hl Hk. apply (nth_ext _ _ 0 0 Hl). intros n Hn. specialize (Hk (Z.of_nat n) ltac:(lia)). unfold nthZ in Hk.
  by rewrite Nat2Z.id in Hk.
Qed.

Lemma nthZ_app (l l' : list Z) k :
  0 <= k -> nthZ 0 (l ++ l') k = if decide (k < Z.of_nat (length l)) then nthZ 0 l k else nthZ 0 l' (k - Z.of_nat (length l)).
Proof.
  intros Hk. unfold nthZ. destruct (decide _).
  - rewrite app_nth1 by lia. done.
  - rewrite app_nth2 by lia. f_equal. lia.
Qed.

Lemma nthZ_drop n (l : list Z) k : 0 <= k -> nthZ 0 (drop n l) k = nthZ 0 l (Z.of_nat n + k).
Proof. intros Hk. unfold nthZ. rewrite !nth_lookup, lookup_drop. do 2 f_equal. lia. Qed.

Lemma fbytes_app ld i off n m : 0 <= n -> 0 <= m -> fbytes ld i off (n + m) = fbytes ld i off n ++ fbytes ld i (off + n) m.
Proof.
  intros Hn Hm. apply list_eq_nthZ; [rewrite length_app, !length_fbytes; lia|]. rewrite length_fbytes. intros k Hk.
  rewrite nthZ_app, length_fbytes by lia. rewrite nthZ_fbytes by lia. destruct (decide _); rewrite nthZ_fbytes by lia; [done|].
  f_equal. lia.
Qed.

(** Offsets in the same block. *)
Lemma same_block o k :
  0 <= o mod BSIZE + k < BSIZE -> (o + k) / BSIZE = o / BSIZE /\ (o + k) mod BSIZE = o mod BSIZE + k.
Proof.
  intros Hk. pose proof (Z.div_mod o BSIZE ltac:(done)). split.
  - symmetry. apply (Z.div_unique_pos _ _ _ (o mod BSIZE + k)); [done|lia].
  - symmetry. apply (Z.mod_unique_pos _ _ (o / BSIZE)); [done|lia].
Qed.

Lemma block_end o :
  (o + (BSIZE - o mod BSIZE)) / BSIZE = o / BSIZE + 1 /\ (o + (BSIZE - o mod BSIZE)) mod BSIZE = 0.
Proof.
  pose proof (Z.div_mod o BSIZE ltac:(done)). replace (o + (BSIZE - o mod BSIZE)) with ((o / BSIZE + 1) * BSIZE) by lia.
  split; [by apply Z.div_mul|by apply Z.mod_mul].
Qed.

(** The part of the file that lies in one block. *)
Lemma fbytes_block ld i off n :
  0 <= off -> 0 <= n <= BSIZE - off mod BSIZE -> length (ld (slot ld i (file_slot (off / BSIZE)))) = Z.to_nat BSIZE ->
  fbytes ld i off n = slice (ld (slot ld i (file_slot (off / BSIZE)))) (off mod BSIZE) n.
Proof.
  intros Ho Hn Hl. pose proof (Z.mod_pos_bound off BSIZE ltac:(done)) as Hm.
  assert (Hlen : length (slice (ld (slot ld i (file_slot (off / BSIZE)))) (off mod BSIZE) n) = Z.to_nat n) by (apply length_slice; lia).
  apply list_eq_nthZ; [by rewrite length_fbytes|]. rewrite length_fbytes. intros k Hk.
  rewrite nthZ_fbytes, nthZ_slice by lia. unfold fbyte.
  by destruct (same_block off k) as [-> ->]; [lia|].
Qed.

(** ** readi *)

Section readi.
Context {L U : Type} {HB : BlockLayer L} {HL : BlockLaws L} {HU : UserMem U}.
Context (ip : Z) (sb : superblock).
Implicit Types (s : fs L U) (a : bstate).

(** The state [readi] and [writei] start in. *)
Record file_state (c : ctx) (s : fs L U) (a : bstate) : Prop := {
  fl_tx : in_tx c s a;
  fl_held : b_held a = ∅;
  fl_sb : fs_sb s = sb;
  fl_ip : 0 <= ip < Z.of_nat (length (fs_inode s));
  fl_fs : fs_ok sb (b_ld a);
  fl_inode : inode_ok sb (b_ld a) (inodeat s ip)
}.

Lemma file_state_ceq c c' s a : ceq c c' -> file_state c s a -> file_state c' s a.
Proof. intros Hc []. split; done || by eapply in_tx_ceq. Qed.

Lemma file_state_kept c s s' a : file_state c s a -> in_tx c s' a -> fkept ip s s' -> inodeat s' ip = inodeat s ip -> file_state c s' a.
Proof. intros [] HT [] E. split; congruence || (by rewrite fk_len0) || (by rewrite E) || done. Qed.

(** Reading a block of the file: the turn [bmap; bread; ...; brelse]. *)
Lemma mapped_slot s a c o : file_state c s a -> 0 <= o < i_size (inodeat s ip) ->
  slot (b_ld a) (inodeat s ip) (file_slot (o / BSIZE)) <> 0 /\ 0 <= o / BSIZE < MAXFILE.
Proof.
  intros F Ho. pose proof (io_size _ _ _ (fl_inode _ _ _ F)). pose proof (Z.div_mod o BSIZE ltac:(done)).
  pose proof (Z.mod_pos_bound o BSIZE ltac:(done)). split; [|unfold BSIZE in *; lia].
  apply (io_mapped _ _ _ (fl_inode _ _ _ F)); unfold BSIZE in *; lia.
Qed.

Lemma readi_loop_runs : forall fuel c s a off n tot acc (Q : Z * list Z -> fs L U -> Prop),
  let i := inodeat s ip in
  file_state c s a -> fits s a (bitmaps sb ∪ b_txn a) 2 ->
  0 <= off -> tot <= n -> off + (n - tot) <= i_size i -> (tot < n -> (n - tot) + off mod BSIZE <= Z.of_nat fuel * BSIZE) ->
  (forall s', (forall c', ceq c c' -> file_state c' s' a) -> fkept ip s s' -> inodeat s' ip = i ->
     Q (n, acc ++ fbytes (b_ld a) i off (n - tot)) s') ->
  runs (readi_loop fuel ip KDst off n tot acc) c s Q.
Proof.
  induction fuel as [|fuel IH]; intros c s a off n tot acc Q i F Hfit Hoff Htot Hsz Hfuel HK; cbn [readi_loop];
    destruct (Z.leb_spec n tot) as [Hle|Hlt].
  1,3: apply runs_ret; replace tot with n in * by lia; specialize (HK s); rewrite Z.sub_diag in HK; cbn in HK; rewrite app_nil_r in HK;
    apply HK; [intros c' Hc'; by eapply file_state_ceq|apply fkept_refl|done].
  { specialize (Hfuel Hlt). pose proof (Z.mod_pos_bound off BSIZE ltac:(done)). unfold BSIZE in *. lia. }
  destruct (mapped_slot s a c off F ltac:(fold i; lia)) as [Hm Hbn]. fold i in Hm. pose proof (Z.mod_pos_bound off BSIZE ltac:(done)) as Hmod.
  apply runs_bind. eapply (bmap_runs ip sb c s a); try apply F; [done|done|].
  intros r s1 a1 HT1 Hf1 Hbm c1 Hc1. destruct (bm_same _ _ _ _ _ _ _ _ Hbm Hm) as [-> Ei]. fold i in Ei.
  pose proof (bm_addr _ _ _ _ _ _ _ _ Hbm) as Er. rewrite Ei in Er. rewrite (proj2 (Z.eqb_neq _ _)) by congruence.
  assert (F1 : file_state c1 s1 a) by (apply (file_state_kept c1 s s1); [by eapply file_state_ceq|by apply HT1|done|done]).
  eapply runs_same; [reflexivity|]. rewrite Ei. assert (Edev : i_dev i = ROOTDEV) by apply F. rewrite Edev.
  pose proof (subseteq_size (b_txn a) (bitmaps sb ∪ b_txn a) ltac:(set_solver)) as Hsub. destruct Hfit as [Hf1' Hf2'].
  eapply (bread_step ∅); [apply F1|set_solver|by rewrite (fl_held _ _ _ F)|lia|].
  intros bp c2 s2 Hc2 HT2 Hb2 Hk2. eapply (get_step _ _ _ _ r); [exact HT2|apply lookup_insert_eq|done|].
  cbn [either_copyout]. eapply runs_same; [reflexivity|]. cbn [fst snd Z.eqb].
  eapply (brelse_step ∅ _ _ _ _ r); [exact HT2|set_solver|apply lookup_insert_eq|done|]. cbn [b_ld b_held b_txn].
  intros c3 s3 Hc3 HT3 Hk3. rewrite delete_insert_id in HT3 by (by rewrite (fl_held _ _ _ F)).
  replace (BS (b_ld a) (b_held a) (b_txn a)) with a in HT3 by (by destruct a).
  pose proof (kept_trans _ _ _ _ Hk2 Hk3) as Hk23. set (m := seg_len n tot off).
  assert (Em : 0 < m /\ m <= BSIZE - off mod BSIZE /\ m <= n - tot) by (unfold m, seg_len; lia).
  assert (Ei3 : inodeat s3 ip = i) by (by rewrite (kept_inodeat _ _ _ _ Hk23)).
  assert (Hf3 : fkept ip s s3) by (eapply fkept_trans; [exact Hf1|by eapply kept_fkept]).
  assert (F3 : file_state c3 s3 a) by (apply (file_state_kept c3 s s3); [eapply file_state_ceq; [|exact F]; ceqs|done|done|done]).
  apply (IH c3 s3 a); try done; rewrite ?Ei3; try lia.
  { unfold fits. rewrite (fk_cap _ _ _ Hf3). done. }
  { intros Hmore. assert (E : m = BSIZE - off mod BSIZE) by (unfold m, seg_len in *; lia).
    rewrite E, (proj2 (block_end off)). specialize (Hfuel Hlt). unfold BSIZE in *. lia. }
  intros s4 F4 Hf4 Ei4. rewrite <- app_assoc.
  replace (slice (b_ld a r) (off mod BSIZE) m ++ fbytes (b_ld a) i (off + m) (n - (tot + m))) with (fbytes (b_ld a) i off (n - tot)).
  - apply HK; [intros c' Hc'; apply F4; ceqs|by eapply fkept_trans|done].
  - replace (n - tot) with (m + (n - (tot + m))) by lia. rewrite fbytes_app by lia. f_equal. rewrite Er.
    apply fbytes_block; [done|lia|apply F].
Qed.

(** [readi] into a kernel buffer returns the bytes of the file from [off] on, as many as
    asked for and as there are. *)
Lemma readi_runs c s a off n (Q : Z * list Z -> fs L U -> Prop) :
  let i := inodeat s ip in
  let l := slice (content (b_ld a) i) off n in
  file_state c s a -> fits s a (bitmaps sb ∪ b_txn a) 2 -> 0 <= off -> 0 <= n -> off + n < 2 ^ 32 ->
  (forall s', (forall c', ceq c c' -> file_state c' s' a) -> fkept ip s s' -> inodeat s' ip = i -> Q (Z.of_nat (length l), l) s') ->
  runs (readi ip KDst off n) c s Q.
Proof.
  intros i l F Hfit Hoff Hn H32 HK. pose proof (io_size _ _ _ (fl_inode _ _ _ F)) as Hsz. fold i in Hsz.
  unfold readi. eapply runs_same; [reflexivity|]. fold i. rewrite u32_small by lia.
  rewrite (proj2 (Z.ltb_ge (off + n) off)) by lia. rewrite orb_false_r.
  destruct (Z.ltb_spec (i_size i) off) as [Hbig|Hle].
  { assert (El : l = []). { unfold l, slice. rewrite drop_ge; [by rewrite take_nil|]. unfold content. rewrite length_fbytes. lia. }
    apply runs_ret. rewrite El in HK. apply HK; [intros c' Hc'; by eapply file_state_ceq|apply fkept_refl|done]. }
  assert (Hmax : MAXFILE * BSIZE < 2 ^ 32) by done.
  set (n' := Z.min n (i_size i - off)).
  assert (El : l = fbytes (b_ld a) i off n').
  { unfold l, content. apply list_eq_nthZ.
    - unfold slice. rewrite length_take, length_drop, !length_fbytes. lia.
    - intros k. unfold slice at 1. rewrite length_take, length_drop, length_fbytes. intros Hk.
      rewrite nthZ_slice, !nthZ_fbytes by lia. f_equal. }
  assert (En : (if i_size i <? off + n then u32 (i_size i - off) else n) = n').
  { destruct (Z.ltb_spec (i_size i) (off + n)); [rewrite u32_small by lia|]; lia. }
  rewrite En. eapply (readi_loop_runs _ c s a off n' 0 []); try done; [lia|fold i; lia| |].
  { intros _. unfold rw_fuel. pose proof (Z.mod_pos_bound off BSIZE ltac:(done)). pose proof (Z.div_mod n' BSIZE ltac:(done)).
    pose proof (Z.mod_pos_bound n' BSIZE ltac:(done)). assert (0 <= n' / BSIZE) by (apply Z.div_pos; [lia|done]). unfold BSIZE in *. lia. }
  intros s' F' Hf' Ei'. fold i. rewrite Z.sub_0_r. cbn [app]. rewrite <- El.
  replace n' with (Z.of_nat (length l)) by (rewrite El, length_fbytes; lia). by apply HK.
Qed.
End readi.
