(* ===== verification/FsInode.v ===== *)
(** * Inodes on disk (kernel/fs.c, [iupdate] and the reading part of [ilock])

    [iupdate] stores the fields of an inode in its block; loading them back gives the
    same fields, and the other inodes of the block are as they were. *)

From S2P Require Import Prelude KMonad Riscv Mem Bytes Sleeplock Bio BlockLayer UserMem Fs FsBlk FsFile FsData.

(** ** The fields of a [struct dinode] *)

(** The thirteen addresses. *)
Lemma store_addrs_spec (l : list Z) d o : 0 <= o -> forall n, 0 <= n -> o + 4 * n <= Z.of_nat (length d) ->
  let d' := fold_left (fun d k => put32 d (o + 4 * k) (nthZ 0 l k)) (upto n) d in
  length d' = length d /\ (forall k, 0 <= k < n -> get32 d' (o + 4 * k) = u32 (nthZ 0 l k)) /\
  (forall x, 0 <= x -> x < o \/ o + 4 * n <= x -> nthZ 0 d' x = nthZ 0 d x).
Proof.
  intros Ho. apply (natlike_ind (fun n => o + 4 * n <= Z.of_nat (length d) -> _)).
  - intros _. split_and!; [done|intros; lia|done].
  - intros n Hn IH Hl. destruct IH as (H1 & H2 & H3); [lia|]. cbv zeta. rewrite <- Z.add_1_r, upto_S, fold_left_app by done.
    cbn [fold_left]. set (d1 := fold_left _ (upto n) d) in *. split_and!.
    + by rewrite length_put32.
    + intros k Hk. destruct (decide (k = n)) as [->|].
      * apply get32_put32_same; lia.
      * rewrite get32_put32_out by lia. apply H2. lia.
    + intros x Hx Hout. rewrite nthZ_put32_out by lia. apply H3; lia.
Qed.

Record stored_dinode (i : inode) (d : block) (o : Z) (d' : block) : Prop := {
  sd_len : length d' = length d;
  sd_type : get16 d' o = u16 (i_type i);
  sd_major : get16 d' (o + 2) = u16 (i_major i);
  sd_minor : get16 d' (o + 4) = u16 (i_minor i);
  sd_nlink : get16 d' (o + 6) = u16 (i_nlink i);
  sd_size : get32 d' (o + 8) = u32 (i_size i);
  sd_addr k : 0 <= k <= NDIRECT -> get32 d' (o + 12 + 4 * k) = u32 (nthZ 0 (i_addrs i) k);
  sd_out x : 0 <= x -> x < o \/ o + sizeof_dinode <= x -> nthZ 0 d' x = nthZ 0 d x
}.

Lemma store_dinode_spec i d o :
  0 <= o -> o + sizeof_dinode <= Z.of_nat (length d) -> stored_dinode i d o (store_dinode i d o).
Proof.
  unfold sizeof_dinode. intros Ho Hl. unfold store_dinode. cbv zeta.
  set (d0 := put32 (put16 (put16 (put16 (put16 d o (i_type i)) (o + 2) (i_major i)) (o + 4) (i_minor i)) (o + 6) (i_nlink i)) (o + 8) (i_size i)).
  assert (Hl0 : length d0 = length d) by (unfold d0; by rewrite length_put32, !length_put16).
  destruct (store_addrs_spec (i_addrs i) d0 (o + 12) ltac:(lia) (NDIRECT + 1) ltac:(done)) as (H1 & H2 & H3).
  { rewrite Hl0. unfold NDIRECT. lia. }
  set (d' := fold_left _ _ d0) in *. unfold NDIRECT in *.
  assert (H16 : forall x, 0 <= x -> x + 2 <= o + 12 -> get16 d' x = get16 d0 x) by (intros; apply get16_ext; intros; apply H3; lia).
  split; unfold NDIRECT.
  - congruence.
  - rewrite H16 by lia. unfold d0. rewrite (get16_ext _ (put16 d o (i_type i))).
    + apply get16_put16_same; lia.
    + intros x Hx. by rewrite nthZ_put32_out, !nthZ_put16_out by lia.
  - rewrite H16 by lia. unfold d0. rewrite (get16_ext _ (put16 (put16 d o (i_type i)) (o + 2) (i_major i))).
    + apply get16_put16_same; rewrite ?length_put16; lia.
    + intros x Hx. by rewrite nthZ_put32_out, 2!nthZ_put16_out by lia.
  - rewrite H16 by lia. unfold d0. rewrite (get16_ext _ (put16 (put16 (put16 d o (i_type i)) (o + 2) (i_major i)) (o + 4) (i_minor i))).
    + apply get16_put16_same; rewrite ?length_put16; lia.
    + intros x Hx. by rewrite nthZ_put32_out, nthZ_put16_out by lia.
  - rewrite H16 by lia. unfold d0. rewrite (get16_ext _ (put16 (put16 (put16 (put16 d o (i_type i)) (o + 2) (i_major i)) (o + 4) (i_minor i)) (o + 6) (i_nlink i))).
    + apply get16_put16_same; rewrite ?length_put16; lia.
    + intros x Hx. by rewrite nthZ_put32_out by lia.
  - rewrite (get32_ext d' d0) by (intros; apply H3; lia). apply get32_put32_same; rewrite ?length_put16; lia.
  - intros k Hk. apply H2. lia.
  - intros x Hx Hout. rewrite H3 by (unfold sizeof_dinode in *; lia). unfold d0. unfold sizeof_dinode in Hout.
    by rewrite nthZ_put32_out, !nthZ_put16_out by lia.
Qed.

(** The fields fit in their types. *)
Record fields_ok (i : inode) : Prop := {
  fi_type : - 2 ^ 15 <= i_type i < 2 ^ 15;
  fi_major : - 2 ^ 15 <= i_major i < 2 ^ 15;
  fi_minor : - 2 ^ 15 <= i_minor i < 2 ^ 15;
  fi_nlink : - 2 ^ 15 <= i_nlink i < 2 ^ 15
}.

Lemma s16_u16 x : - 2 ^ 15 <= x < 2 ^ 15 -> s16 (u16 x) = x.
Proof.
  intros Hx. unfold s16, u16. rewrite Zplus_mod_idemp_l. rewrite Z.mod_small by lia. lia.
Qed.

(** What [ilock] loads after [iupdate] are the fields that were stored. *)
Lemma dinode_roundtrip i j d o :
  fields_ok i -> 0 <= i_size i < 2 ^ 32 -> length (i_addrs i) = 13%nat -> Forall (fun x => 0 <= x < 2 ^ 32) (i_addrs i) ->
  0 <= o -> o + sizeof_dinode <= Z.of_nat (length d) ->
  load_dinode (store_dinode i d o) o j =
    Inode (i_dev j) (i_inum j) (i_ref j) (i_lock j) true (i_type i) (i_major i) (i_minor i) (i_nlink i) (i_size i) (i_addrs i).
Proof.
  intros [? ? ? ?] Hs Hl Hall Ho Hlen. destruct (store_dinode_spec i d o Ho Hlen). unfold load_dinode.
  rewrite sd_type0, sd_major0, sd_minor0, sd_nlink0, sd_size0, !s16_u16, u32_small by done. f_equal.
  apply list_eq_nthZ; [by rewrite length_fmap|]. rewrite length_fmap. cbn [length upto NDIRECT].
  intros k Hk. change (length (upto (NDIRECT + 1))) with 13%nat in Hk. unfold nthZ at 1. rewrite nth_lookup, list_lookup_fmap, lookup_upto by (unfold NDIRECT; lia).
  cbn. rewrite Z2Nat.id by lia. rewrite sd_addr0 by (unfold NDIRECT; lia). apply u32_small.
  unfold nthZ. destruct (nth_in_or_default (Z.to_nat k) (i_addrs i) 0) as [Hin| ->]; [|lia].
  apply list_elem_of_In in Hin. by eapply (proj1 (Forall_forall _ _)) in Hall.
Qed.

(** The other inodes of the block are not affected. *)
Lemma dinode_other i j d o o' :
  0 <= o -> o + sizeof_dinode <= Z.of_nat (length d) -> 0 <= o' -> o' + sizeof_dinode <= o \/ o + sizeof_dinode <= o' ->
  load_dinode (store_dinode i d o) o' j = load_dinode d o' j.
Proof.
  intros Ho Hlen Ho' Hout. destruct (store_dinode_spec i d o Ho Hlen). unfold sizeof_dinode in *.
  assert (H16 : forall x, 0 <= x <= 62 -> get16 (store_dinode i d o) (o' + x) = get16 d (o' + x)) by (intros; apply get16_ext; intros; apply sd_out0; unfold sizeof_dinode; lia).
  assert (H32 : forall x, 0 <= x <= 60 -> get32 (store_dinode i d o) (o' + x) = get32 d (o' + x)) by (intros; apply get32_ext; intros; apply sd_out0; unfold sizeof_dinode; lia).
  unfold load_dinode. rewrite !H16, H32 by lia. pose proof (H16 0 ltac:(lia)) as E0. rewrite Z.add_0_r in E0. rewrite E0. f_equal.
  apply list_fmap_ext. intros k x Hx. apply list_elem_of_lookup_2, elem_of_upto in Hx. unfold NDIRECT in Hx.
  rewrite <- Z.add_assoc. apply H32. lia.
Qed.

(** ** iupdate *)

(** A block before the data changes. *)
Section meta.
Context (sb : superblock) (ld : Z -> block) (i : inode) (b : Z) (x : block).
Context (Hok : fs_ok sb ld) (Hio : inode_ok sb ld i) (Hb : 0 < b < sb_bmapstart sb) (Hlen : length x = Z.to_nat BSIZE).

Lemma meta_not_bitmap : ~ is_bitmap sb b.
Proof. clear - Hb. unfold is_bitmap. lia. Qed.

Lemma meta_slot_ne k : 0 <= k < NSLOTS -> slot ld i k <> 0 -> slot ld i k <> b.
Proof.
  clear Hlen. intros Hk Hn. destruct (io_slot _ _ _ Hio k Hk Hn) as [Hr _]. pose proof (fo_size _ _ Hok). pose proof (nbitmap_nonneg sb). unfold data_start in *. lia.
Qed.

Lemma meta_slot k : slot (bupd ld b x) i k = slot ld i k.
Proof.
  clear Hlen. destruct (decide (k <= NDIRECT)); [by rewrite !slot_le|]. rewrite !(slot_gt _ _ k) by lia.
  rewrite (slot_le (bupd ld b x)), <- (slot_le ld) by lia. destruct (decide (slot ld i NDIRECT = 0)) as [|Hn]; [done|].
  unfold bupd. rewrite decide_False; [done|]. intros E. by apply (meta_slot_ne NDIRECT).
Qed.

Lemma meta_used b' : 0 <= b' < sb_size sb -> used sb (bupd ld b x) b' = used sb ld b'.
Proof. intros Hb'. apply used_bupd_data; [done|apply meta_not_bitmap]. Qed.

Lemma meta_ok : fs_ok sb (bupd ld b x) /\ inode_ok sb (bupd ld b x) i.
Proof.
  split; [apply fs_ok_bupd; [done|apply meta_not_bitmap|done]|]. pose proof (data_start_pos sb ld Hok). destruct Hio. split; try done.
  - intros k Hk. rewrite meta_slot. intros Hn. destruct (io_slot k Hk Hn). split; [done|]. rewrite meta_used; [done|]. lia.
  - intros k k' Hk Hk'. rewrite !meta_slot. by apply io_inj.
  - intros bn Hbn Hlt. rewrite meta_slot. by apply io_mapped.
Qed.

Lemma meta_fbyte o : 0 <= o -> o / BSIZE < MAXFILE -> slot ld i (file_slot (o / BSIZE)) <> 0 -> fbyte (bupd ld b x) i o = fbyte ld i o.
Proof.
  intros Ho Hm Hn. unfold fbyte. rewrite meta_slot. unfold bupd. rewrite decide_False; [done|]. intros E.
  apply (meta_slot_ne (file_slot (o / BSIZE))); [|done|done]. apply file_slot_range. split; [by apply Z.div_pos|done].
Qed.
End meta.

Section iupdate.
Context {L U : Type} {HB : BlockLayer L} {HL : BlockLaws L} {HU : UserMem U}.
Context (ip : Z) (sb : superblock).
Implicit Types (s : fs L U) (a : bstate).

Definition inode_block (ld : Z -> block) (i : inode) : block := store_dinode i (ld (IBLOCK (i_inum i) sb)) (dip_off (i_inum i)).

Lemma dip_off_range inum : 0 <= dip_off inum /\ dip_off inum + sizeof_dinode <= BSIZE.
Proof.
  unfold dip_off. pose proof (Z.mod_pos_bound inum IPB ltac:(done)) as H. change IPB with 16 in *. unfold sizeof_dinode, BSIZE. lia.
Qed.

Lemma length_inode_block ld i : fs_ok sb ld -> length (inode_block ld i) = Z.to_nat BSIZE.
Proof.
  intros Hok. pose proof (dip_off_range (i_inum i)) as [H1 H2]. unfold inode_block.
  rewrite (sd_len _ _ _ _ (store_dinode_spec i _ _ H1 ltac:(rewrite (fo_len _ _ Hok); unfold BSIZE in *; lia))). apply Hok.
Qed.

Lemma iupdate_runs c s a (Q : unit -> fs L U -> Prop) :
  let i := inodeat s ip in
  let b := IBLOCK (i_inum i) sb in
  file_state ip sb c s a -> fits s a (b_txn a) 0 ->
  (forall s', (forall c', ceq c c' -> file_state ip sb c' s' (BS (bupd (b_ld a) b (inode_block (b_ld a) i)) ∅ ({[b]} ∪ b_txn a))) ->
     kept ∅ s s' -> Q tt s') ->
  runs (iupdate ip) c s Q.
Proof.
  intros i b F [Hf1 Hf2] HK. unfold iupdate. eapply runs_same; [reflexivity|]. eapply runs_same; [reflexivity|]. cbn [id].
  fold i. rewrite (fl_sb _ _ _ _ _ F). fold b. assert (Edev : i_dev i = ROOTDEV) by apply F. rewrite Edev.
  rewrite (fl_held _ _ _ _ _ F), map_size_empty in Hf2.
  eapply (bread_step ∅ _ _ _ b); [apply F|set_solver|by rewrite (fl_held _ _ _ _ _ F)|rewrite (fl_held _ _ _ _ _ F), map_size_empty; lia|].
  intros bp c1 s1 Hc1 HT1 Hb1 Hk1. eapply (get_step _ _ _ _ b); [exact HT1|apply lookup_insert_eq|done|].
  cbn [b_ld]. fold (inode_block (b_ld a) i).
  eapply (update_runs ∅ _ _ a); [exact HT1|set_solver|by rewrite (fl_held _ _ _ _ _ F)|done|apply length_inode_block; apply F|rewrite (kept_cap _ _ _ Hk1); lia|].
  rewrite (fl_held _ _ _ _ _ F). intros s2 HT2 Hk2. pose proof (kept_trans _ _ _ _ Hk1 Hk2) as Hk.
  assert (Hb : 0 < b < sb_bmapstart sb) by apply F.
  apply HK; [|done]. intros c' Hc'. destruct (meta_ok sb (b_ld a) i b (inode_block (b_ld a) i)) as [Hok' Hio'];
    [apply F|apply F|done|apply length_inode_block; apply F|].
  split; [apply HT2; ceqs|done|by rewrite (kept_sb _ _ _ Hk); apply F|by rewrite (kept_inode _ _ _ Hk); apply F|done|].
  by rewrite (kept_inodeat _ _ _ _ Hk).
Qed.
End iupdate.
