(* ===== verification/FsWrite.v ===== *)
(** * Writing a file (kernel/fs.c, [writei])

    The loop of [writei], block by block: the file's bytes change from the offset on by
    a prefix of the data, blocks that [bmap] adds are the file's own, and no other block
    in use changes.  The blocks logged are counted, for the reservation of [begin_op]. *)

From S2P Require Import Prelude KMonad Riscv Mem Bytes Sleeplock Bio BlockLayer UserMem Fs FsBlk FsFile FsData FsInode.

(** ** The contents of a file that is being written *)

Lemma block_range o : 0 <= o < MAXFILE * BSIZE -> 0 <= o / BSIZE < MAXFILE.
Proof.
  intros Ho. split; [apply Z.div_pos; [lia|done]|]. apply Z.div_lt_upper_bound; [done|]. lia.
Qed.

Lemma fbyte_ext sb ld i ld1 i1 o :
  fs_ok sb ld -> inode_ok sb ld i -> ext sb ld i ld1 i1 -> 0 <= o < MAXFILE * BSIZE ->
  slot ld i (file_slot (o / BSIZE)) <> 0 -> fbyte ld1 i1 o = fbyte ld i o.
Proof.
  intros Hok Hio X Ho Hn. pose proof (block_range o Ho) as Hb. pose proof (file_slot_range _ Hb) as Hk.
  unfold fbyte. rewrite (x_slot _ _ _ _ _ X) by done. f_equal. destruct (io_slot _ _ _ Hio _ Hk Hn) as [Hr Hu].
  pose proof (data_start_pos sb ld Hok). apply (x_data _ _ _ _ _ X); [lia|done|unfold is_bitmap; lia|].
  intros E. apply (io_inj _ _ _ Hio) in E; [|done|done|done]. exact (file_slot_ind (o / BSIZE) ltac:(lia) E).
Qed.

Section block.
Context (sb : superblock) (ld : Z -> block) (i : inode) (bn : Z) (x : block).
Context (Hok : fs_ok sb ld) (Hio : inode_ok sb ld i) (Hbn : 0 <= bn < MAXFILE) (Hlen : length x = Z.to_nat BSIZE).
Let r := slot ld i (file_slot bn).
Context (Hr : slot ld i (file_slot bn) <> 0).

Lemma write_block_data : data_start sb <= r < sb_size sb /\ ~ is_bitmap sb r /\ used sb ld r = true.
Proof using Hio Hbn Hr.
  clear Hlen. destruct (io_slot _ _ _ Hio _ (file_slot_range _ Hbn) Hr) as [H1 H2]. fold r in H1, H2. split_and!; [lia|lia| |done].
  unfold is_bitmap. lia.
Qed.

Lemma write_block_slot k : slot (bupd ld r x) i k = slot ld i k.
Proof using Hio Hbn Hr.
  clear Hlen Hok. destruct (decide (k <= NDIRECT)); [by rewrite !slot_le|]. rewrite !(slot_gt _ _ k) by lia.
  rewrite (slot_le (bupd ld r x)), <- (slot_le ld) by lia. destruct (decide (slot ld i NDIRECT = 0)) as [|Hn]; [done|].
  unfold bupd. rewrite decide_False; [done|]. intros E. apply (io_inj _ _ _ Hio) in E; [|by apply file_slot_range|done|done].
  exact (file_slot_ind bn ltac:(lia) E).
Qed.

Lemma write_block_used b : 0 <= b < sb_size sb -> used sb (bupd ld r x) b = used sb ld b.
Proof using Hio Hbn Hr. intros Hb. apply used_bupd_data; [done|]. apply write_block_data. Qed.

Lemma write_block_ok : fs_ok sb (bupd ld r x) /\ inode_ok sb (bupd ld r x) i.
Proof using Hok Hio Hbn Hlen Hr.
  split; [apply fs_ok_bupd; [done|apply write_block_data|done]|]. destruct Hio. split; try done.
  - intros k Hk. rewrite write_block_slot. intros Hn. destruct (io_slot k Hk Hn). split; [done|].
    rewrite write_block_used; [done|]. pose proof (data_start_pos sb ld Hok). lia.
  - intros k k' Hk Hk'. rewrite !write_block_slot. by apply io_inj.
  - intros b Hb Hlt. rewrite write_block_slot. by apply io_mapped.
Qed.

Lemma fbyte_write_block o :
  0 <= o < MAXFILE * BSIZE -> slot ld i (file_slot (o / BSIZE)) <> 0 ->
  fbyte (bupd ld r x) i o = if decide (o / BSIZE = bn) then nthZ 0 x (o mod BSIZE) else fbyte ld i o.
Proof using Hio Hbn Hr.
  clear Hlen Hok. intros Ho Hn. pose proof (block_range o Ho) as Hb. unfold fbyte. rewrite write_block_slot. unfold bupd at 1.
  destruct (decide (o / BSIZE = bn)) as [->|Hne]; [by rewrite decide_True|]. rewrite decide_False; [done|].
  intros E. apply Hne. apply (io_inj _ _ _ Hio) in E; [|by apply file_slot_range|by apply file_slot_range|done].
  symmetry. apply file_slot_inj in E; [done|lia|lia].
Qed.
End block.

(** The bytes [w] have been written from [off] on. *)
Record written (sb : superblock) (ld : Z -> block) (i : inode) (off : Z) (w : list Z) (ld' : Z -> block) (i' : inode) : Prop := {
  w_fields : i' = with_addrs (i_addrs i') i;
  w_slot k : 0 <= k < NSLOTS -> slot ld i k <> 0 -> slot ld' i' k = slot ld i k;
  w_new k : 0 <= k < NSLOTS -> slot ld i k = 0 -> slot ld' i' k <> 0 -> used sb ld (slot ld' i' k) = false;
  w_used b : 0 <= b < sb_size sb -> used sb ld b = true -> used sb ld' b = true;
  (** blocks in use that are not the file's *)
  w_frame b : 0 < b < sb_size sb -> used sb ld b = true -> ~ is_bitmap sb b ->
    (forall k, 0 <= k < NSLOTS -> slot ld i k <> b) -> ld' b = ld b;
  w_in o : off <= o < off + Z.of_nat (length w) ->
    slot ld' i' (file_slot (o / BSIZE)) <> 0 /\ fbyte ld' i' o = nthZ 0 w (o - off);
  w_out o : 0 <= o < MAXFILE * BSIZE -> ~ (off <= o < off + Z.of_nat (length w)) ->
    slot ld i (file_slot (o / BSIZE)) <> 0 -> fbyte ld' i' o = fbyte ld i o
}.

Lemma written_nil sb ld i off : written sb ld i off [] ld i.
Proof. split; [apply with_addrs_id|done|by intros k _ E1 E2|done|done|intros o Ho; cbn in Ho; lia|done]. Qed.

(** [bmap] between two segments. *)
Lemma written_ext sb ld0 i0 off w ld i ld1 i1 :
  fs_ok sb ld -> inode_ok sb ld i -> inode_ok sb ld1 i1 -> 0 <= off -> off + Z.of_nat (length w) <= MAXFILE * BSIZE ->
  written sb ld0 i0 off w ld i -> ext sb ld i ld1 i1 -> written sb ld0 i0 off w ld1 i1.
Proof.
  intros Hok Hio Hio1 Hoff Hmax W X. pose proof (data_start_pos sb ld Hok) as Hds.
  assert (Hrng : forall k, 0 <= k < NSLOTS -> slot ld1 i1 k <> 0 -> 0 <= slot ld1 i1 k < sb_size sb).
  { intros k Hk Hn. destruct (io_slot _ _ _ Hio1 k Hk Hn). lia. }
  split.
  - rewrite (x_fields _ _ _ _ _ X) at 1. rewrite (w_fields _ _ _ _ _ _ _ W) at 1. done.
  - intros k Hk Hn. rewrite (x_slot _ _ _ _ _ X), (w_slot _ _ _ _ _ _ _ W); [done..|]. by rewrite (w_slot _ _ _ _ _ _ _ W).
  - intros k Hk Hn H1. destruct (decide (slot ld i k = 0)) as [E|E].
    + pose proof (x_new _ _ _ _ _ X k Hk E H1) as Hu. destruct (used sb ld0 (slot ld1 i1 k)) eqn:Eu; [|done].
      apply (w_used _ _ _ _ _ _ _ W) in Eu; [congruence|by apply Hrng].
    + rewrite (x_slot _ _ _ _ _ X) by done. by apply (w_new _ _ _ _ _ _ _ W).
  - intros b Hb Hu. apply (x_used _ _ _ _ _ X); [done|]. by apply (w_used _ _ _ _ _ _ _ W).
  - intros b Hb Hu Hm Hown. rewrite <- (w_frame _ _ _ _ _ _ _ W b) by done.
    apply (x_data _ _ _ _ _ X); [done|apply (w_used _ _ _ _ _ _ _ W); [lia|done]|done|].
    intros E. destruct (decide (slot ld0 i0 NDIRECT = 0)) as [E0|E0].
    + assert (Hn : slot ld i NDIRECT <> 0) by lia. pose proof (w_new _ _ _ _ _ _ _ W NDIRECT ltac:(done) E0 Hn). congruence.
    + rewrite (w_slot _ _ _ _ _ _ _ W) in E by done. by apply (Hown NDIRECT ltac:(done)).
  - intros o Ho. destruct (w_in _ _ _ _ _ _ _ W o Ho) as [Hn Hb].
    pose proof (block_range o ltac:(lia)) as Hbr. rewrite (x_slot _ _ _ _ _ X) by (done || by apply file_slot_range).
    split; [done|]. by rewrite (fbyte_ext sb ld i ld1 i1 o Hok Hio X) by (done || lia).
  - intros o Ho Hno Hn. pose proof (file_slot_range _ (block_range o Ho)) as Hk.
    rewrite (fbyte_ext sb ld i ld1 i1 o Hok Hio X); [by apply (w_out _ _ _ _ _ _ _ W)|done|]. by rewrite (w_slot _ _ _ _ _ _ _ W).
Qed.

(** A segment written to the block it lies in. *)
Lemma written_seg sb ld0 i0 off w ld i seg :
  let p := off + Z.of_nat (length w) in
  let r := slot ld i (file_slot (p / BSIZE)) in
  let ld' := bupd ld r (splice (ld r) (p mod BSIZE) seg) in
  fs_ok sb ld -> inode_ok sb ld i -> 0 <= off -> p < MAXFILE * BSIZE -> r <> 0 ->
  p mod BSIZE + Z.of_nat (length seg) <= BSIZE ->
  written sb ld0 i0 off w ld i ->
  fs_ok sb ld' /\ inode_ok sb ld' i /\ (forall k, slot ld' i k = slot ld i k) /\ written sb ld0 i0 off (w ++ seg) ld' i.
Proof.
  intros p r ld' Hok Hio Hoff Hp Hr Hseg W. pose proof (block_range p ltac:(lia)) as Hbn.
  assert (Hlen : length (splice (ld r) (p mod BSIZE) seg) = Z.to_nat BSIZE) by (rewrite length_splice; apply Hok).
  pose proof (write_block_ok sb ld i (p / BSIZE) _ Hok Hio Hbn Hlen Hr) as [Hok' Hio']. fold r ld' in Hok', Hio'.
  assert (Hsl : forall k, slot ld' i k = slot ld i k) by (by apply (write_block_slot sb)).
  pose proof (write_block_data sb ld i (p / BSIZE) Hio Hbn Hr) as (Hrd & Hrm & Hru). fold r in Hrd, Hrm, Hru.
  split_and!; [done|done|done|]. pose proof (Z.mod_pos_bound p BSIZE ltac:(done)) as Hpm. pose proof (Z.div_mod p BSIZE ltac:(done)) as Hpd.
  assert (Hfb : forall o, 0 <= o < MAXFILE * BSIZE -> slot ld i (file_slot (o / BSIZE)) <> 0 ->
    fbyte ld' i o = if decide (p <= o < p + Z.of_nat (length seg)) then nthZ 0 seg (o - p) else fbyte ld i o).
  { intros o Ho Hn. unfold ld', r. rewrite (fbyte_write_block sb ld i (p / BSIZE)) by done. fold r. pose proof (Z.div_mod o BSIZE ltac:(done)).
    pose proof (Z.mod_pos_bound o BSIZE ltac:(done)). destruct (decide (o / BSIZE = p / BSIZE)) as [E|E].
    - rewrite nthZ_splice by (try (rewrite (fo_len _ _ Hok)); lia). rewrite E in *.
      destruct (decide _), (decide _); try lia; [f_equal; lia|]. unfold fbyte. by rewrite E.
    - rewrite decide_False; [done|]. intros Ho'. apply E. destruct (same_block p (o - p)) as [E1 _]; [lia|].
      by replace (p + (o - p)) with o in E1 by lia. }
  split.
  - apply W.
  - intros k Hk Hn. rewrite Hsl. by apply (w_slot _ _ _ _ _ _ _ W).
  - intros k Hk Hn. rewrite Hsl. by apply (w_new _ _ _ _ _ _ _ W).
  - intros b Hb Hu. unfold ld', r. rewrite (write_block_used sb) by done. by apply (w_used _ _ _ _ _ _ _ W).
  - intros b Hb Hu Hm Hown. rewrite <- (w_frame _ _ _ _ _ _ _ W b) by done. unfold ld', bupd. rewrite decide_False; [done|].
    intros E. pose proof (file_slot_range _ Hbn) as Hk. destruct (decide (slot ld0 i0 (file_slot (p / BSIZE)) = 0)) as [E0|E0].
    + pose proof (w_new _ _ _ _ _ _ _ W _ Hk E0 Hr). fold r in H. congruence.
    + apply (Hown _ Hk). rewrite <- E. unfold r. by rewrite (w_slot _ _ _ _ _ _ _ W).
  - intros o. rewrite length_app, Nat2Z.inj_add. intros Ho. rewrite Hsl. destruct (decide (o < p)) as [Hlt|Hge].
    + destruct (w_in _ _ _ _ _ _ _ W o ltac:(lia)) as [Hn Hb]. split; [done|]. rewrite Hfb by (done || lia).
      rewrite decide_False by lia. rewrite Hb, nthZ_app by lia. by rewrite decide_True by lia.
    + assert (E : o / BSIZE = p / BSIZE).
      { destruct (same_block p (o - p)) as [E1 _]; [lia|]. by replace (p + (o - p)) with o in E1 by lia. }
      assert (Hn : slot ld i (file_slot (o / BSIZE)) <> 0) by (by rewrite E). split; [done|].
      assert (o < MAXFILE * BSIZE).
      { pose proof (Z.div_mod o BSIZE ltac:(done)). pose proof (Z.mod_pos_bound o BSIZE ltac:(done)). rewrite E in *. unfold BSIZE in *. lia. }
      rewrite Hfb by (done || lia). rewrite decide_True by lia. rewrite nthZ_app by lia. rewrite decide_False by lia. f_equal. lia.
  - intros o Ho. rewrite length_app, Nat2Z.inj_add. intros Hno Hn. pose proof (file_slot_range _ (block_range o Ho)) as Hk.
    rewrite Hfb; [|done|by rewrite (w_slot _ _ _ _ _ _ _ W)]. destruct (decide _) as [Hin|_].
    + exfalso. apply Hno. fold p. lia.
    + apply (w_out _ _ _ _ _ _ _ W); [done|lia|done].
Qed.

(** ** The blocks a write logs *)

(** [T] is [T0], blocks of the bitmap, the indirect block and the file's blocks [lo] .. [hi]. *)
Definition charged (sb : superblock) (T0 : gset Z) (ld : Z -> block) (i : inode) (lo hi : Z) (T : gset Z) : Prop :=
  forall x, x ∈ T -> x ∈ T0 \/ is_bitmap sb x \/
    x <> 0 /\ (x = slot ld i NDIRECT \/ exists k, lo <= k < hi /\ x = slot ld i (file_slot k)).

Lemma charged_size sb T0 ld i lo hi T :
  0 <= nbitmap sb -> lo <= hi -> charged sb T0 ld i lo hi T ->
  Z.of_nat (size (bitmaps sb ∪ T)) <= Z.of_nat (size T0) + nbitmap sb + 1 + (hi - lo).
Proof.
  intros Hnb Hlo Hch. set (l := (fun k => slot ld i (file_slot (lo + k))) <$> upto (hi - lo)).
  assert (Hsub : bitmaps sb ∪ T ⊆ T0 ∪ (bitmaps sb ∪ ({[slot ld i NDIRECT]} ∪ list_to_set l))).
  { intros x. rewrite !elem_of_union, elem_of_list_to_set. intros [Hx|Hx]; [tauto|]. rewrite elem_bitmaps, elem_of_singleton.
    destruct (Hch x Hx) as [?|[?|(_ & [?|(k & Hk & ->)])]]; [tauto..|]. right; right; right.
    apply list_elem_of_fmap. exists (k - lo). split; [do 2 f_equal; lia|]. apply elem_of_upto. lia. }
  apply subseteq_size in Hsub. pose proof (size_bitmaps sb Hnb). pose proof (size_list_bound l) as Hl.
  unfold l in Hl at 2. rewrite length_fmap, length_upto in Hl.
  pose proof (size_union_alt T0 (bitmaps sb ∪ ({[slot ld i NDIRECT]} ∪ list_to_set l))) as E1.
  pose proof (size_union_alt (bitmaps sb) ({[slot ld i NDIRECT]} ∪ list_to_set l)) as E2.
  pose proof (size_union_alt {[slot ld i NDIRECT]} (list_to_set l : gset Z)) as E3. rewrite size_singleton in E3.
  pose proof (subseteq_size ((bitmaps sb ∪ ({[slot ld i NDIRECT]} ∪ list_to_set l)) ∖ T0) _ (subseteq_difference_l _ _ _ (reflexivity _))).
  pose proof (subseteq_size (({[slot ld i NDIRECT]} ∪ list_to_set l) ∖ bitmaps sb) _ (subseteq_difference_l _ _ _ (reflexivity _))).
  pose proof (subseteq_size (list_to_set l ∖ {[slot ld i NDIRECT]} : gset Z) _ (subseteq_difference_l _ _ _ (reflexivity _))).
  lia.
Qed.

Lemma size_add (b : Z) (T : gset Z) : (size ({[b]} ∪ T) <= S (size T))%nat.
Proof.
  destruct (decide (b ∈ T)) as [Hin|Hin].
  - replace ({[b]} ∪ T) with T by set_solver. lia.
  - rewrite size_union, size_singleton by set_solver. lia.
Qed.

Lemma charged_keep sb T0 ld i ld' i' lo hi hi' T :
  0 <= lo -> hi <= hi' -> hi <= MAXFILE ->
  (forall k, 0 <= k < NSLOTS -> slot ld i k <> 0 -> slot ld' i' k = slot ld i k) ->
  charged sb T0 ld i lo hi T -> charged sb T0 ld' i' lo hi' T.
Proof.
  intros Hlo Hhi Hmax Hsl Hch x Hx. destruct (Hch x Hx) as [?|[?|(Hn & [->|(k & Hk & ->)])]]; [tauto|tauto|..]; right; right; (split; [done|]).
  - left. by rewrite Hsl.
  - right. exists k. split; [lia|]. rewrite Hsl; [done| |done]. apply file_slot_range. lia.
Qed.

(** The number of blocks up to an offset. *)
Definition cb (o : Z) : Z := (o + BSIZE - 1) / BSIZE.

Lemma cb_within o m : 0 < m <= BSIZE - o mod BSIZE -> cb (o + m) = o / BSIZE + 1.
Proof.
  intros Hm. unfold cb. pose proof (Z.div_mod o BSIZE ltac:(done)). pose proof (Z.mod_pos_bound o BSIZE ltac:(done)).
  symmetry. apply (Z.div_unique_pos _ _ _ (o mod BSIZE + m - 1)); lia.
Qed.

Lemma cb_le o : cb o <= o / BSIZE + 1.
Proof.
  unfold cb. pose proof (Z.div_mod o BSIZE ltac:(done)). pose proof (Z.mod_pos_bound o BSIZE ltac:(done)).
  pose proof (Z.div_mod (o + BSIZE - 1) BSIZE ltac:(done)). pose proof (Z.mod_pos_bound (o + BSIZE - 1) BSIZE ltac:(done)).
  unfold BSIZE in *. lia.
Qed.

Lemma cb_ge o : o / BSIZE <= cb o.
Proof. unfold cb. apply Z.div_le_mono; [done|]. unfold BSIZE. lia. Qed.

Lemma cb_mono o o' : o <= o' -> cb o <= cb o'.
Proof. intros Ho. apply Z.div_le_mono; [done|]. lia. Qed.

Lemma cb_max o : o <= MAXFILE * BSIZE -> cb o <= MAXFILE.
Proof. intros Ho. apply Z.lt_succ_r, Z.div_lt_upper_bound; [done|]. unfold BSIZE in *. lia. Qed.

Lemma take_slice (l : list Z) t m : 0 <= t -> 0 <= m -> take (Z.to_nat (t + m)) l = take (Z.to_nat t) l ++ slice l t m.
Proof.
  intros Ht Hm. unfold slice. rewrite <- (take_drop (Z.to_nat t) l) at 1. rewrite Z2Nat.inj_add by lia.
  destruct (decide (Z.to_nat t <= length l)%nat).
  - rewrite take_app_ge by (rewrite length_take; lia). f_equal. f_equal. rewrite length_take. lia.
  - rewrite (drop_ge l) by lia. by rewrite take_nil, !app_nil_r, take_take, Nat.min_r by lia.
Qed.

(** ** The loop of writei *)

Section writei.
Context {L U : Type} {HB : BlockLayer L} {HL : BlockLaws L} {HU : UserMem U} {HUL : UserMemLaws U}.
Context (ip : Z) (sb : superblock).
Implicit Types (s : fs L U) (a : bstate).

(** The bytes to write are in a kernel buffer, or in user memory. *)
Definition source (u : U) (src : usrc) (l : list Z) : Prop :=
  match src with
  | KSrc d => d = l
  | USrc va => um_inv u /\ 0 <= va /\ forall k, 0 <= k < Z.of_nat (length l) -> um_byte u (va + k) = Some (nthZ 0 l k)
  end.

Lemma either_copyin_ok c s src l tot m :
  source (fs_usr s) src l -> 0 <= tot -> 0 <= m -> tot + m <= Z.of_nat (length l) ->
  either_copyin src tot m c s = Ok (0, slice l tot m) c s.
Proof.
  intros Hs Ht Hm Hl. destruct src as [d|va]; cbn in *; [by subst|]. destruct Hs as (Hi & Hva & Hb).
  destruct (um_copyin_all c (fs_usr s) (va + tot) m Hi ltac:(lia) Hm) as (d & E & Hd & Hk).
  { intros k Hk. rewrite <- Z.add_assoc, Hb by lia. done. }
  unfold usrop, zoom. rewrite E. destruct s; cbn. do 2 f_equal. apply list_eq_nthZ; [rewrite length_slice; lia|].
  intros k Hk'. specialize (Hk k ltac:(lia)). rewrite <- Z.add_assoc, Hb in Hk by lia. injection Hk as <-. by rewrite nthZ_slice by lia.
Qed.

Context (src : usrc) (l : list Z) (off : Z) (T0 : gset Z) (ld0 : Z -> block) (i0 : inode).
Let n := Z.of_nat (length l).

(** [tot] bytes have been written. *)
Record progress (s : fs L U) (a : bstate) (tot : Z) : Prop := {
  pr_written : written sb ld0 i0 off (take (Z.to_nat tot) l) (b_ld a) (inodeat s ip);
  pr_charged : charged sb T0 (b_ld a) (inodeat s ip) (off / BSIZE) (cb (off + tot)) (b_txn a)
}.

Definition full (ld : Z -> block) : Prop := forall b, 0 <= b < sb_size sb -> used sb ld b = true.

Context (Hoff : 0 <= off) (Hmax : off + n <= MAXFILE * BSIZE).

(** One turn of the loop. *)
Lemma writei_turn c s a tot (K : Z -> M (fs L U) (Z * Z)) (Q : Z * Z -> fs L U -> Prop) :
  file_state ip sb c s a -> source (fs_usr s) src l -> progress s a tot -> 0 <= tot < n ->
  fits s a (bitmaps sb ∪ b_txn a) 2 ->
  (forall s' a', (forall c', ceq c c' -> file_state ip sb c' s' a') -> fkept ip s s' -> progress s' a' tot ->
     full (b_ld a') -> Q (tot, off + tot) s') ->
  (forall c' s' a', ceq c c' -> file_state ip sb c' s' a' -> fkept ip s s' -> progress s' a' (tot + seg_len n tot (off + tot)) ->
     runs (K (seg_len n tot (off + tot))) c' s' Q) ->
  runs (addr <- bmap ip ((off + tot) / BSIZE) ;;
        if addr =? 0 then ret (tot, off + tot)
        else
          dev <- iget_f ip i_dev ;;
          bp <- blkop (bl_bread dev addr) ;;
          let m := seg_len n tot (off + tot) in
          r <- either_copyin src tot m ;;
          d <- blkop (bl_get bp) ;;
          blkop (bl_put bp (splice d ((off + tot) mod BSIZE) (snd r))) ;;
          if fst r =? -1 then
            blkop (bl_brelse bp) ;;
            ret (tot, off + tot)
          else
            blkop (bl_log_write bp) ;;
            blkop (bl_brelse bp) ;;
            K m) c s Q.
Proof.
  intros F Hsrc [W Hch] Htot Hfit Hstop Hgo. pose proof (Z.mod_pos_bound (off + tot) BSIZE ltac:(done)) as Hmod.
  set (p := off + tot) in *. pose proof (block_range p ltac:(lia)) as Hbn.
  assert (Htk : Z.of_nat (length (take (Z.to_nat tot) l)) = tot) by (rewrite length_take; lia).
  apply runs_bind. eapply (bmap_runs ip sb c s a); try apply F; [done|done|].
  intros r s1 a1 HT1 Hf1 [Hok1 Hio1 X1 Hh1 Er Hfull1 _ Htx1 _] c1 Hc1.
  rewrite (fl_held _ _ _ _ _ F) in Hh1. assert (Ei1 : inode_ok sb (b_ld a1) (inodeat s1 ip)) by done.
  assert (F1 : forall c', ceq c c' -> file_state ip sb c' s1 a1).
  { intros c' Hc'. split; [by apply HT1|done|by rewrite (fk_sb _ _ _ Hf1); apply F|by rewrite (fk_len _ _ _ Hf1); apply F|done|done]. }
  assert (W1 : written sb ld0 i0 off (take (Z.to_nat tot) l) (b_ld a1) (inodeat s1 ip)).
  { eapply written_ext; [apply F|apply F|done|done|rewrite Htk; lia|exact W|exact X1]. }
  assert (Hch1 : charged sb T0 (b_ld a1) (inodeat s1 ip) (off / BSIZE) (cb p) (b_txn a)).
  { eapply charged_keep; [by apply Z.div_pos|reflexivity|apply cb_max; lia|apply X1|exact Hch]. }
  destruct (Z.eqb_spec r 0) as [->|Hr].
  { apply runs_ret, (Hstop s1 a1); [done|done| |exact (Hfull1 eq_refl)]. split; [done|]. intros x Hx.
    destruct (Htx1 x Hx) as [Hx1|[?|(? & [?|?])]]; [exact (Hch1 x Hx1)|tauto|tauto|congruence]. }
  assert (Hch2 : charged sb T0 (b_ld a1) (inodeat s1 ip) (off / BSIZE) (p / BSIZE + 1) ({[r]} ∪ b_txn a1)).
  { assert (Hr' : r <> 0 /\ exists k, off / BSIZE <= k < p / BSIZE + 1 /\ r = slot (b_ld a1) (inodeat s1 ip) (file_slot k)).
    { split; [done|]. exists (p / BSIZE). split; [|done]. pose proof (Z.div_le_mono off p BSIZE ltac:(done) ltac:(lia)). lia. }
    intros x. rewrite elem_of_union, elem_of_singleton. intros [->|Hx]; [tauto|].
    destruct (Htx1 x Hx) as [Hx1|[?|(? & [?| ->])]]; [|tauto..]. destruct (Hch1 x Hx1) as [?|[?|(? & [?|(k & ? & ?)])]]; [tauto..|].
    right; right. split; [done|]. right. exists k. pose proof (cb_le p). split; [lia|done]. }
  eapply runs_same; [reflexivity|]. rewrite (io_dev _ _ _ Ei1). destruct Hfit as [Hfit1 Hfit2].
  assert (Hsz1 : Z.of_nat (size (b_txn a1)) <= Z.of_nat (size (bitmaps sb ∪ b_txn a)) + 2).
  { assert (Hsub : b_txn a1 ⊆ {[slot (b_ld a1) (inodeat s1 ip) NDIRECT]} ∪ ({[r]} ∪ (bitmaps sb ∪ b_txn a))).
    { intros x Hx. rewrite !elem_of_union, !elem_of_singleton, elem_bitmaps. destruct (Htx1 x Hx); tauto. }
    apply subseteq_size in Hsub. pose proof (size_add r (bitmaps sb ∪ b_txn a)).
    pose proof (size_add (slot (b_ld a1) (inodeat s1 ip) NDIRECT) ({[r]} ∪ (bitmaps sb ∪ b_txn a))). lia. }
  rewrite (fl_held _ _ _ _ _ F), map_size_empty in Hfit2.
  eapply (bread_step ∅ _ _ _ r); [by apply (F1 c1)|set_solver|by rewrite Hh1|rewrite Hh1, map_size_empty; lia|].
  intros bp c2 s2 Hc2 HT2 Hb2 Hk2. rewrite Hh1 in HT2. cbv zeta. set (m := seg_len n tot p).
  assert (Hm : 0 < m <= BSIZE - p mod BSIZE /\ m <= n - tot) by (unfold m, seg_len; lia).
  eapply runs_same.
  { apply (either_copyin_ok c2 s2 src l); [|lia|lia|lia]. by rewrite (kept_usr _ _ _ Hk2), (fk_usr _ _ _ Hf1). }
  eapply (get_step _ _ _ _ r); [exact HT2|apply lookup_insert_eq|done|]. cbn [fst snd b_ld].
  assert (Hseg : length (slice l tot m) = Z.to_nat m) by (apply length_slice; lia).
  pose proof (written_seg sb ld0 i0 off (take (Z.to_nat tot) l) (b_ld a1) (inodeat s1 ip) (slice l tot m)) as Wseg.
  cbv zeta in Wseg. rewrite Htk in Wseg. fold p in Wseg. rewrite <- Er in Wseg.
  destruct Wseg as (Hok3 & Hio3 & Hsl3 & W3); [done|done|done|lia|done|rewrite Hseg; lia|done|].
  rewrite <- take_slice in W3 by lia. set (d3 := splice (b_ld a1 r) (p mod BSIZE) (slice l tot m)) in *.
  eapply (put_step ∅ _ _ _ _ r); [exact HT2|set_solver|apply lookup_insert_eq|done|unfold d3; rewrite length_splice; apply Hok1|].
  cbn [b_ld b_held b_txn Z.eqb]. intros c3 s3 Hc3 HT3 Hb3 Hk3. rewrite insert_insert_eq in HT3.
  eapply (log_write_step ∅ _ _ _ _ r); [exact HT3|set_solver|apply lookup_insert_eq|done| |].
  { cbn [b_txn]. rewrite (kept_cap _ _ _ Hk3), (kept_cap _ _ _ Hk2), (fk_cap _ _ _ Hf1). lia. }
  cbn [b_ld b_held b_txn]. intros c4 s4 Hc4 HT4 Hb4 Hk4.
  eapply (brelse_step ∅ _ _ _ _ r); [exact HT4|set_solver| |done|].
  { cbn [b_ld b_held]. rewrite lookup_insert_eq. unfold bupd. by rewrite decide_True. }
  cbn [b_ld b_held b_txn]. intros c5 s5 Hc5 HT5 Hk5. rewrite delete_insert_id in HT5 by done.
  pose proof (kept_trans _ _ _ _ Hk2 (kept_trans _ _ _ _ Hk3 (kept_trans _ _ _ _ Hk4 Hk5))) as Hk.
  assert (Hf5 : fkept ip s s5) by (eapply fkept_trans; [exact Hf1|by eapply kept_fkept]).
  apply (Hgo c5 s5 (BS (bupd (b_ld a1) r d3) ∅ ({[r]} ∪ b_txn a1))); [ceqs| |done|].
  - split; [done|done|by rewrite (fk_sb _ _ _ Hf5); apply F|by rewrite (fk_len _ _ _ Hf5); apply F|done|]. by rewrite (kept_inodeat _ _ _ _ Hk).
  - split; cbn [b_ld b_txn]; rewrite (kept_inodeat _ _ _ _ Hk); [done|]. rewrite Z.add_assoc. fold p. rewrite cb_within by lia.
    eapply charged_keep; [by apply Z.div_pos|reflexivity|lia| |exact Hch2]. intros k _ _. apply Hsl3.
Qed.

(** The log has room for the blocks of the write, the bitmap, the indirect block and the
    inode, and for one more. *)
Definition write_fits (s : fs L U) : Prop :=
  Z.of_nat (size T0) + nbitmap sb + (cb (off + n) - off / BSIZE) + 3 < Z.min (bl_cap (fs_blk s)) NBUF.

Lemma progress_size c s a tot :
  file_state ip sb c s a -> progress s a tot -> 0 <= tot <= n ->
  Z.of_nat (size (bitmaps sb ∪ b_txn a)) <= Z.of_nat (size T0) + nbitmap sb + 1 + (cb (off + n) - off / BSIZE).
Proof.
  intros F [_ Hch] Htot. pose proof (fo_start _ _ (fl_fs _ _ _ _ _ F)) as H1. pose proof (fo_size _ _ (fl_fs _ _ _ _ _ F)) as H2.
  pose proof (Z.div_le_mono off (off + tot) BSIZE ltac:(done) ltac:(lia)). pose proof (cb_ge (off + tot)).
  pose proof (cb_mono (off + tot) (off + n) ltac:(lia)). apply charged_size in Hch; [lia|apply nbitmap_nonneg; lia|lia].
Qed.

Lemma writei_loop_runs : forall fuel c s a tot (Q : Z * Z -> fs L U -> Prop),
  file_state ip sb c s a -> source (fs_usr s) src l -> progress s a tot -> 0 <= tot <= n -> write_fits s ->
  (tot < n -> (n - tot) + (off + tot) mod BSIZE <= Z.of_nat fuel * BSIZE) ->
  (forall tot' s' a', (forall c', ceq c c' -> file_state ip sb c' s' a') -> fkept ip s s' -> progress s' a' tot' ->
     tot <= tot' <= n -> (tot' < n -> full (b_ld a')) -> Q (tot', off + tot') s') ->
  runs (writei_loop fuel ip src (off + tot) n tot) c s Q.
Proof.
  induction fuel as [|fuel IH]; intros c s a tot Q F Hsrc P Htot Hw Hfuel HK; cbn [writei_loop]; destruct (Z.leb_spec n tot) as [Hle|Hlt].
  1,3: apply runs_ret, (HK tot s a); [intros c' Hc'; by eapply file_state_ceq|apply fkept_refl|done|lia|lia].
  { specialize (Hfuel Hlt). pose proof (Z.mod_pos_bound (off + tot) BSIZE ltac:(done)). unfold BSIZE in *. lia. }
  apply (writei_turn c s a tot (fun m => writei_loop fuel ip src (off + tot + m) n (tot + m))); [done|done|done|lia| | |].
  - pose proof (progress_size c s a tot F P ltac:(lia)). unfold write_fits in Hw. unfold fits.
    rewrite (fl_held _ _ _ _ _ F), map_size_empty. lia.
  - intros s' a' F' Hf' P' Hfull. by apply (HK tot s' a'); [| | |lia|].
  - intros c1 s1 a1 Hc1 F1 Hf1 P1. set (m := seg_len n tot (off + tot)) in *.
    pose proof (Z.mod_pos_bound (off + tot) BSIZE ltac:(done)).
    assert (Hm : 0 < m <= BSIZE - (off + tot) mod BSIZE /\ m <= n - tot) by (unfold m, seg_len; lia).
    rewrite <- Z.add_assoc. apply (IH c1 s1 a1); [done|by rewrite (fk_usr _ _ _ Hf1)|done|lia| | |].
    + unfold write_fits. by rewrite (fk_cap _ _ _ Hf1).
    + intros Hmore. assert (E : m = BSIZE - (off + tot) mod BSIZE) by (unfold m, seg_len in *; lia).
      rewrite Z.add_assoc, E, (proj2 (block_end (off + tot))). specialize (Hfuel Hlt). unfold BSIZE in *. lia.
    + intros tot' s' a' F' Hf' P' Ht' Hfull'. apply (HK tot' s' a'); [intros c' Hc'; apply F'; ceqs|by eapply fkept_trans|done|lia|done].
Qed.
End writei.

(** ** writei *)

(** [l] with [w] written over it at offset [off]. *)
Definition overwrite (l : list Z) (off : Z) (w : list Z) : list Z :=
  take (Z.to_nat off) l ++ w ++ drop (Z.to_nat off + length w) l.

Lemma length_overwrite l off w :
  0 <= off <= Z.of_nat (length l) ->
  Z.of_nat (length (overwrite l off w)) = Z.max (Z.of_nat (length l)) (off + Z.of_nat (length w)).
Proof. intros Ho. unfold overwrite. rewrite !length_app, length_take, length_drop. lia. Qed.

Lemma nthZ_overwrite l off w k :
  0 <= off <= Z.of_nat (length l) -> 0 <= k ->
  nthZ 0 (overwrite l off w) k = if decide (off <= k < off + Z.of_nat (length w)) then nthZ 0 w (k - off) else nthZ 0 l k.
Proof.
  intros Ho Hk. unfold overwrite. assert (Ht : length (take (Z.to_nat off) l) = Z.to_nat off) by (rewrite length_take; lia).
  rewrite nthZ_app by lia. rewrite Ht, Z2Nat.id by lia. destruct (decide (k < off)).
  - rewrite decide_False by lia. apply nthZ_take. lia.
  - rewrite nthZ_app by lia. destruct (decide (k - off < Z.of_nat (length w))).
    + by rewrite decide_True by lia.
    + rewrite decide_False by lia. rewrite nthZ_drop by lia. f_equal. lia.
Qed.

Section contents.
Context (sb : superblock) (ld : Z -> block) (i : inode) (off : Z) (w : list Z) (ld1 : Z -> block) (i1 : inode).
Context (Hok1 : fs_ok sb ld1) (Hio : inode_ok sb ld i) (Hio1 : inode_ok sb ld1 i1).
Context (Hoff : 0 <= off <= i_size i) (Hmax : off + Z.of_nat (length w) <= MAXFILE * BSIZE) (W : written sb ld i off w ld1 i1).

(** The inode with the size [writei] gives it. *)
Let i2 := set_size (Z.max (i_size i) (off + Z.of_nat (length w))) i1.

Lemma written_size : i_size i1 = i_size i.
Proof. by rewrite (w_fields _ _ _ _ _ _ _ W). Qed.

Lemma written_inode_ok : inode_ok sb ld1 i2.
Proof.
  pose proof (io_size _ _ _ Hio) as Hs. pose proof written_size as Es. destruct Hio1. split; try done.
  - cbn. lia.
  - cbn. intros bn Hbn Hlt. destruct (decide (bn * BSIZE < i_size i)) as [Hb|Hb].
    + refine (io_mapped bn Hbn _). by rewrite Es.
    + destruct (w_in _ _ _ _ _ _ _ W (bn * BSIZE)) as [Hn _]; [lia|]. by rewrite Z.div_mul in Hn.
Qed.

Lemma written_content : content ld1 i2 = overwrite (content ld i) off w.
Proof.
  assert (Hlc : Z.of_nat (length (content ld i)) = i_size i) by (unfold content; rewrite length_fbytes; lia).
  pose proof (io_size _ _ _ Hio) as Hs. assert (El : Z.of_nat (length (content ld1 i2)) = Z.max (i_size i) (off + Z.of_nat (length w))).
  { unfold content. rewrite length_fbytes. cbn. lia. }
  apply list_eq_nthZ; [apply Nat2Z.inj; rewrite length_overwrite; lia|]. intros k Hk.
  rewrite nthZ_overwrite by lia. unfold content. rewrite nthZ_fbytes, Z.add_0_l by (cbn; lia).
  change (fbyte ld1 i2 k) with (fbyte ld1 i1 k). destruct (decide (off <= k < off + Z.of_nat (length w))) as [Hin|Hout].
  - apply (w_in _ _ _ _ _ _ _ W k Hin).
  - rewrite nthZ_fbytes, Z.add_0_l by lia. assert (Hki : k < i_size i) by lia. apply (w_out _ _ _ _ _ _ _ W); [lia|done|].
    pose proof (Z.div_mod k BSIZE ltac:(done)). pose proof (Z.mod_pos_bound k BSIZE ltac:(done)).
    apply (io_mapped _ _ _ Hio); [apply Z.div_pos; [lia|done]|unfold BSIZE in *; lia].
Qed.
End contents.

Lemma content_meta sb ld i b x :
  fs_ok sb ld -> inode_ok sb ld i -> 0 < b < sb_bmapstart sb -> content (bupd ld b x) i = content ld i.
Proof.
  intros Hok Hio Hb. apply list_eq_nthZ; unfold content; rewrite !length_fbytes; [done|]. intros k Hk.
  pose proof (io_size _ _ _ Hio). rewrite !nthZ_fbytes, Z.add_0_l by lia.
  assert (Hr : 0 <= k / BSIZE < MAXFILE) by (apply block_range; lia).
  apply (meta_fbyte sb); [done|done|done|lia|lia|]. apply (io_mapped _ _ _ Hio); [lia|].
  pose proof (Z.div_mod k BSIZE ltac:(done)). pose proof (Z.mod_pos_bound k BSIZE ltac:(done)). unfold BSIZE in *. lia.
Qed.

Section theorem.
Context {L U : Type} {HB : BlockLayer L} {HL : BlockLaws L} {HU : UserMem U} {HUL : UserMemLaws U}.
Context (ip : Z) (sb : superblock).
Implicit Types (s : fs L U) (a : bstate).

Record wrote_file (l : list Z) (off : Z) (s : fs L U) (a : bstate) (s' : fs L U) (a' : bstate) (tot : Z) : Prop := {
  wf_kept : fkept ip s s';
  wf_tot : 0 <= tot <= Z.of_nat (length l);
  wf_full : tot < Z.of_nat (length l) -> full sb (b_ld a');
  (** the file holds what was written; its inode is as it was, but for the size and the
      blocks, and is stored on disk *)
  wf_content : content (b_ld a') (inodeat s' ip) = overwrite (content (b_ld a) (inodeat s ip)) off (take (Z.to_nat tot) l);
  wf_fields : inodeat s' ip = set_size (Z.max (i_size (inodeat s ip)) (off + tot)) (with_addrs (i_addrs (inodeat s' ip)) (inodeat s ip));
  wf_disk : b_ld a' (IBLOCK (i_inum (inodeat s ip)) sb) = inode_block sb (b_ld a) (inodeat s' ip);
  (** no other block in use is touched *)
  wf_used b : 0 <= b < sb_size sb -> used sb (b_ld a) b = true -> used sb (b_ld a') b = true;
  wf_frame b : 0 < b < sb_size sb -> used sb (b_ld a) b = true -> ~ is_bitmap sb b -> b <> IBLOCK (i_inum (inodeat s ip)) sb ->
    (forall k, 0 <= k < NSLOTS -> slot (b_ld a) (inodeat s ip) k <> b) -> b_ld a' b = b_ld a b;
  wf_txn : Z.of_nat (size (b_txn a')) <=
    Z.of_nat (size (b_txn a)) + nbitmap sb + (cb (off + Z.of_nat (length l)) - off / BSIZE) + 2
}.

(** The end of [writei]: the size and the inode on disk. *)
Lemma writei_end l off c s a c1 s1 a1 tot (Q : Z -> fs L U -> Prop) :
  let i := inodeat s ip in
  file_state ip sb c s a -> ceq c c1 -> 0 <= off <= i_size i -> off + Z.of_nat (length l) <= MAXFILE * BSIZE ->
  write_fits sb l off (b_txn a) s -> 0 <= tot <= Z.of_nat (length l) ->
  file_state ip sb c1 s1 a1 -> fkept ip s s1 -> progress ip sb l off (b_txn a) (b_ld a) i s1 a1 tot ->
  (tot < Z.of_nat (length l) -> full sb (b_ld a1)) ->
  (forall s' a', (forall c', ceq c c' -> file_state ip sb c' s' a') -> wrote_file l off s a s' a' tot -> Q tot s') ->
  runs (size <- iget_f ip i_size ;;
        (when size <? off + tot do iset ip (set_size (off + tot))) ;;
        iupdate ip ;;
        ret tot) c1 s1 Q.
Proof.
  intros i F Hc1 Hoff Hmax Hw Htot F1 Hf1 P1 Hfull HK. destruct P1 as [W Hch]. set (i1 := inodeat s1 ip) in *.
  assert (Hlt : Z.of_nat (length (take (Z.to_nat tot) l)) = tot) by (rewrite length_take; lia).
  pose proof (written_size sb _ _ _ _ _ _ W) as Es.
  set (i2 := set_size (Z.max (i_size i) (off + tot)) i1).
  assert (Hio2 : inode_ok sb (b_ld a1) i2).
  { pose proof (written_inode_ok sb (b_ld a) i off (take (Z.to_nat tot) l) (b_ld a1) i1) as H. rewrite Hlt in H.
    apply H; [apply F|apply F1|done|lia|done]. }
  assert (Hcont : content (b_ld a1) i2 = overwrite (content (b_ld a) i) off (take (Z.to_nat tot) l)).
  { pose proof (written_content sb (b_ld a) i off (take (Z.to_nat tot) l) (b_ld a1) i1) as H. rewrite Hlt in H. apply H; [apply F|done|lia|done]. }
  eapply runs_same; [reflexivity|]. fold i1. rewrite Es. apply runs_bind.
  assert (Hset : runs (when i_size i <? off + tot do iset ip (set_size (off + tot))) c1 s1 (fun _ s2 =>
    inodeat s2 ip = i2 /\ fkept ip s s2 /\ fs_blk s2 = fs_blk s1)).
  { destruct (Z.ltb_spec (i_size i) (off + tot)).
    - apply runs_modify. split_and!; [|eapply fkept_trans; [exact Hf1|]; apply upd_fkept; apply F|done].
      rewrite inodeat_upd by apply F1. unfold i2. by rewrite Z.max_r by lia.
    - apply runs_ret. split_and!; [|done|done]. unfold i2. rewrite Z.max_l by lia. fold i1. rewrite <- Es. by destruct i1. }
  eapply runs_mono; [exact Hset|]. cbn beta. intros _ s2 (Ei2 & Hf2 & Eb2) c2 Hc2.
  assert (Ff : file_state ip sb c2 s2 a1).
  { split; [|apply F1|by rewrite (fk_sb _ _ _ Hf2); apply F|by rewrite (fk_len _ _ _ Hf2); apply F|apply F1|by rewrite Ei2].
    eapply in_tx_ceq; [exact Hc2|]. unfold in_tx. rewrite Eb2. apply F1. }
  pose proof (progress_size ip sb l off (b_txn a) (b_ld a) i c1 s1 a1 tot F1 (Build_progress _ _ _ _ _ _ _ _ _ _ W Hch) Htot) as Hsz.
  pose proof (subseteq_size (b_txn a1) (bitmaps sb ∪ b_txn a1) ltac:(set_solver)) as Hsub. unfold write_fits in Hw.
  assert (Einum : i_inum i2 = i_inum i) by (change (i_inum i2) with (i_inum i1); by rewrite (w_fields _ _ _ _ _ _ _ W)).
  assert (Hb : 0 < IBLOCK (i_inum i) sb < sb_bmapstart sb) by apply F.
  apply runs_bind. eapply (iupdate_runs ip sb c2 s2 a1); [done| |].
  { unfold fits. rewrite (fl_held _ _ _ _ _ Ff), map_size_empty, (fk_cap _ _ _ Hf2). lia. }
  rewrite Ei2, Einum. intros s3 F3 Hk3 c3 Hc3. apply runs_ret. eapply (HK s3); [intros c' Hc'; apply F3; ceqs|].
  assert (Ei3 : inodeat s3 ip = i2) by (by rewrite (kept_inodeat _ _ _ _ Hk3)). pose proof (data_start_pos sb _ (fl_fs _ _ _ _ _ F)) as Hds.
  assert (HbN : ~ is_bitmap sb (IBLOCK (i_inum i) sb)) by (unfold is_bitmap; lia).
  pose proof (nbitmap_nonneg sb ltac:(lia) ltac:(lia)) as Hnb.
  split; cbn [b_ld b_txn]; rewrite ?Ei3; fold i.
  - eapply fkept_trans; [exact Hf2|by eapply kept_fkept].
  - done.
  - intros Hlt'. intros b Hb'. rewrite used_bupd_data by done. by apply Hfull.
  - rewrite (content_meta sb); [done|apply F1|done|done].
  - unfold i2. cbn [i_addrs set_size]. by rewrite (w_fields _ _ _ _ _ _ _ W) at 1.
  - unfold bupd. rewrite decide_True by done. unfold inode_block. rewrite Einum. f_equal.
    apply (w_frame _ _ _ _ _ _ _ W); [unfold data_start in *; lia|apply (fo_meta _ _ (fl_fs _ _ _ _ _ F)); unfold data_start; lia|done|].
    intros k Hk. destruct (decide (slot (b_ld a) i k = 0)) as [->|Hn]; [lia|]. by apply (meta_slot_ne sb _ _ _ (fl_fs _ _ _ _ _ F) (fl_inode _ _ _ _ _ F) Hb).
  - intros b Hb' Hu. rewrite used_bupd_data by done. by apply (w_used _ _ _ _ _ _ _ W).
  - intros b Hb' Hu Hm Hne Hown. unfold bupd. rewrite decide_False by congruence. by apply (w_frame _ _ _ _ _ _ _ W).
  - pose proof (size_add (IBLOCK (i_inum i) sb) (b_txn a1)). lia.
Qed.

Lemma writei_runs src l off c s a (Q : Z -> fs L U -> Prop) :
  file_state ip sb c s a -> source (fs_usr s) src l ->
  0 <= off <= i_size (inodeat s ip) -> off + Z.of_nat (length l) <= MAXFILE * BSIZE ->
  write_fits sb l off (b_txn a) s ->
  (forall tot s' a', (forall c', ceq c c' -> file_state ip sb c' s' a') -> wrote_file l off s a s' a' tot -> Q tot s') ->
  runs (writei ip src off (Z.of_nat (length l))) c s Q.
Proof.
  intros F Hsrc Hoff Hmax Hw HK. set (n := Z.of_nat (length l)) in *. set (i := inodeat s ip) in *.
  assert (H32 : MAXFILE * BSIZE < 2 ^ 32) by done. unfold writei. eapply runs_same; [reflexivity|]. fold i.
  rewrite u32_small by lia. rewrite (proj2 (Z.ltb_ge (i_size i) off)), (proj2 (Z.ltb_ge (off + n) off)) by lia. cbn [orb].
  rewrite (proj2 (Z.ltb_ge (MAXFILE * BSIZE) (off + n))) by lia.
  assert (P0 : progress ip sb l off (b_txn a) (b_ld a) i s a 0).
  { split; [rewrite take_0; apply written_nil|]. intros x Hx. by left. }
  apply runs_bind. rewrite <- (Z.add_0_r off) at 1.
  eapply (writei_loop_runs ip sb src l off (b_txn a) (b_ld a) i ltac:(lia) Hmax _ c s a 0); [done|done|done|lia|done| |].
  { intros _. fold n. unfold rw_fuel. pose proof (Z.mod_pos_bound (off + 0) BSIZE ltac:(done)). pose proof (Z.div_mod n BSIZE ltac:(done)).
    pose proof (Z.mod_pos_bound n BSIZE ltac:(done)). assert (0 <= n / BSIZE) by (apply Z.div_pos; [lia|done]). unfold BSIZE in *. lia. }
  intros tot s1 a1 F1 Hf1 P1 Htot Hfull c1 Hc1. fold n in Htot, Hfull.
  apply (writei_end l off c s a c1 s1 a1 tot); try done; [by apply F1|]. intros s' a' F' Hwf. by apply (HK tot s' a').
Qed.
End theorem.
