(* ===== verification/FsName.v ===== *)
(** * Names and directories (kernel/fs.c, [namecmp], [dirlookup], [dirlink])

    A directory file is a sequence of entries; [dir_map] is the finite map from names to
    inode numbers that it stands for.  [dirlookup] looks a name up in the map, and
    [dirlink] inserts a name that is not in it. *)

From S2P Require Import Prelude KMonad Riscv Mem Bytes Sleeplock Bio BlockLayer UserMem Fs FsDir FsBlk FsFile FsData FsInode FsWrite.

(** ** Names *)

(** The characters of a name, up to a NUL or [n] of them. *)
Fixpoint cname (n : nat) (f : Z -> Z) (i : Z) : list Z :=
  match n with
  | O => []
  | S n' => if f i =? 0 then [] else f i :: cname n' f (i + 1)
  end.

Definition name_of (l : list Z) : list Z := cname (Z.to_nat DIRSIZ) (chr l) 0.

Definition bytes_ok (l : list Z) : Prop := Forall (fun b => 0 <= b < 256) l.

Lemma chr_byte l i : bytes_ok l -> 0 <= chr l i < 256.
Proof.
  intros Hl. unfold chr, nthZ. destruct (nth_in_or_default (Z.to_nat i) l 0) as [Hin| ->]; [|lia].
  apply list_elem_of_In in Hin. by eapply (proj1 (Forall_forall _ _)) in Hl.
Qed.

Lemma strncmp_cname (p q : Z -> Z) : (forall i, 0 <= p i < 256) -> (forall i, 0 <= q i < 256) ->
  forall n i, strncmp_loop n p q i = 0 <-> cname n p i = cname n q i.
Proof.
  intros Hp Hq. induction n as [|n IH]; intros i; cbn [strncmp_loop cname]; [done|].
  specialize (Hp i). specialize (Hq i). rewrite !u8_small by lia.
  destruct (Z.eqb_spec (p i) 0) as [E|E]; cbn [negb andb].
  - rewrite E. destruct (Z.eqb_spec (q i) 0); split; intros; try done; lia.
  - destruct (Z.eqb_spec (p i) (q i)) as [E'|E'].
    + rewrite <- E', (proj2 (Z.eqb_neq _ _)) by done. rewrite IH. split; [by intros ->|by intros [= ?]].
    + split; [lia|]. destruct (q i =? 0); [done|]. congruence.
Qed.

Lemma namecmp_name s t : bytes_ok s -> bytes_ok t -> namecmp s t = 0 <-> name_of s = name_of t.
Proof. intros Hs Ht. apply strncmp_cname; intros i; by apply chr_byte. Qed.

(** [strncpy] copies the name. *)
Lemma strncpy_pad_spec : forall n s i k,
  0 <= i -> i + Z.of_nat n <= Z.of_nat (length s) -> 0 <= k ->
  nthZ 0 (strncpy_pad n s i) k = if decide (i <= k < i + Z.of_nat n) then 0 else nthZ 0 s k.
Proof.
  induction n as [|n IH]; intros s i k Hi Hl Hk; cbn [strncpy_pad]; [by rewrite decide_False by lia|].
  rewrite IH by (rewrite ?length_setZ; lia). destruct (decide (k = i)) as [->|].
  - rewrite decide_False, decide_True by lia. apply nthZ_setZ_eq. lia.
  - rewrite nthZ_setZ_ne by lia. destruct (decide _), (decide _); done || lia.
Qed.

Lemma length_strncpy_pad : forall n s i, length (strncpy_pad n s i) = length s.
Proof. induction n as [|n IH]; intros; cbn [strncpy_pad]; [done|]. by rewrite IH, length_setZ. Qed.

Lemma length_strncpy_loop t : forall n s i, length (strncpy_loop n s t i) = length s.
Proof.
  induction n as [|n IH]; intros; cbn [strncpy_loop]; [done|]. cbv zeta. destruct (t i =? 0); rewrite ?length_strncpy_pad, ?IH; apply length_setZ.
Qed.

Lemma strncpy_loop_before t : forall n s i k,
  0 <= k < i -> i + Z.of_nat n <= Z.of_nat (length s) -> nthZ 0 (strncpy_loop n s t i) k = nthZ 0 s k.
Proof.
  induction n as [|n IH]; intros s i k Hk Hl; cbn [strncpy_loop]; [done|]. cbv zeta. destruct (t i =? 0).
  - rewrite strncpy_pad_spec by (rewrite ?length_setZ; lia). rewrite decide_False by lia. apply nthZ_setZ_ne; lia.
  - rewrite IH by (rewrite ?length_setZ; lia). apply nthZ_setZ_ne; lia.
Qed.

Lemma strncpy_cname t : forall n s i,
  0 <= i -> i + Z.of_nat n <= Z.of_nat (length s) -> cname n (chr (strncpy_loop n s t i)) i = cname n t i.
Proof.
  induction n as [|n IH]; intros s i Hi Hl; [done|]. cbn [strncpy_loop cname]. cbv zeta.
  assert (Ht : chr (if t i =? 0 then strncpy_pad n (setZ s i (t i)) (i + 1) else strncpy_loop n (setZ s i (t i)) t (i + 1)) i = t i).
  { unfold chr. destruct (t i =? 0).
    - rewrite strncpy_pad_spec by (rewrite ?length_setZ; lia). rewrite decide_False by lia. apply nthZ_setZ_eq. lia.
    - rewrite strncpy_loop_before by (rewrite ?length_setZ; lia). apply nthZ_setZ_eq. lia. }
  rewrite Ht. destruct (t i =? 0) eqn:E; [done|]. f_equal. apply IH; rewrite ?length_setZ; lia.
Qed.

Lemma bytes_setZ l i x : bytes_ok l -> 0 <= x < 256 -> bytes_ok (setZ l i x).
Proof. intros Hl Hx. by apply Forall_insert. Qed.

Lemma bytes_strncpy_loop t : (forall i, 0 <= t i < 256) -> forall n s i, bytes_ok s -> bytes_ok (strncpy_loop n s t i).
Proof.
  intros Ht. assert (Hpad : forall n s i, bytes_ok s -> bytes_ok (strncpy_pad n s i)).
  { induction n as [|n IH]; intros s i Hs; cbn [strncpy_pad]; [done|]. apply IH, bytes_setZ; [done|lia]. }
  induction n as [|n IH]; intros s i Hs; cbn [strncpy_loop]; [done|]. cbv zeta.
  destruct (t i =? 0); [apply Hpad|apply IH]; by apply bytes_setZ.
Qed.

(** ** Entries *)

Definition entries (C : list Z) : list (list Z) :=
  (fun k => slice C (sizeof_dirent * k) sizeof_dirent) <$> upto (Z.of_nat (length C) / sizeof_dirent).

(** The entry is in use and its name is [name]. *)
Definition matches (name de : list Z) : Prop := de_inum de <> 0 /\ name_of (de_name de) = name_of name.

#[export] Instance matches_dec name de : Decision (matches name de).
Proof. apply _. Defined.

Definition dir_find (name : list Z) (es : list (list Z)) : option (nat * list Z) := list_find (matches name) es.

(** The directory as a map from names to inode numbers. *)
Definition dir_map (C : list Z) (name : list Z) : option Z := (fun r => de_inum (snd r)) <$> dir_find name (entries C).

(** A new entry. *)
Record entry_for (name : list Z) (inum : Z) (e : list Z) : Prop := {
  ef_len : length e = 16%nat;
  ef_bytes : bytes_ok e;
  ef_inum : de_inum e = inum;
  ef_name : name_of (de_name e) = name_of name
}.

Lemma bytes_splice src : forall d off, bytes_ok d -> bytes_ok src -> bytes_ok (splice d off src).
Proof.
  induction src as [|x src IH]; intros d off Hd Hs; cbn [splice]; [done|]. apply Forall_cons in Hs as [? ?].
  apply IH; [|done]. by apply bytes_setZ.
Qed.

Lemma bytes_slice d off n : bytes_ok d -> bytes_ok (slice d off n).
Proof. intros Hd. unfold slice. by apply Forall_take, Forall_drop. Qed.

Lemma make_dirent_entry de name inum :
  length de = 16%nat -> bytes_ok de -> bytes_ok name -> 0 <= inum < 2 ^ 16 -> entry_for name inum (make_dirent de name inum).
Proof.
  intros Hl Hb Hn Hi. unfold make_dirent. set (nm := strncpy (de_name de) (FsDir.chr name) DIRSIZ).
  assert (Hln : length (de_name de) = 14%nat) by (unfold de_name; rewrite length_slice; unfold DIRSIZ; lia).
  assert (Hlm : length nm = 14%nat) by (unfold nm, strncpy; by rewrite length_strncpy_loop).
  assert (Hle : length (splice de 2 nm) = 16%nat) by (by rewrite length_splice).
  assert (Ename : de_name (put16 (splice de 2 nm) 0 inum) = nm).
  { unfold de_name. apply list_eq_nthZ; [rewrite length_slice; rewrite ?length_put16; unfold DIRSIZ; lia|].
    intros k. rewrite length_slice by (rewrite ?length_put16; unfold DIRSIZ; lia). intros Hk. change (Z.to_nat DIRSIZ) with 14%nat in Hk.
    rewrite nthZ_slice by (unfold DIRSIZ; lia). rewrite nthZ_put16_out, nthZ_splice by lia. rewrite decide_True by lia. f_equal. lia. }
  split.
  - by rewrite length_put16.
  - apply bytes_put16, bytes_splice; [done|]. apply bytes_strncpy_loop; [intros i; by apply chr_byte|by apply bytes_slice].
  - unfold de_inum. rewrite get16_put16_same by lia. apply u16_small. lia.
  - rewrite Ename. apply strncpy_cname; [lia|]. rewrite Hln. unfold DIRSIZ. lia.
Qed.

Lemma length_entries C : length (entries C) = Z.to_nat (Z.of_nat (length C) / sizeof_dirent).
Proof. unfold entries. by rewrite length_fmap, length_upto. Qed.

Lemma lookup_entries C (k : nat) :
  Z.of_nat k < Z.of_nat (length C) / sizeof_dirent -> entries C !! k = Some (slice C (sizeof_dirent * Z.of_nat k) sizeof_dirent).
Proof. intros Hk. unfold entries. rewrite list_lookup_fmap, lookup_upto by lia. done. Qed.

Lemma lookup_entries_Some C k e :
  entries C !! k = Some e -> Z.of_nat k < Z.of_nat (length C) / sizeof_dirent /\ e = slice C (sizeof_dirent * Z.of_nat k) sizeof_dirent.
Proof.
  intros He. assert (Hk : Z.of_nat k < Z.of_nat (length C) / sizeof_dirent).
  { apply lookup_lt_Some in He. rewrite length_entries in He. lia. }
  rewrite lookup_entries in He by done. by injection He as <-.
Qed.

(** Writing an entry at offset [16 k], inside the directory or at its end. *)
Lemma entries_overwrite C (k : nat) e :
  length e = 16%nat -> Z.of_nat (length C) mod sizeof_dirent = 0 -> Z.of_nat k <= Z.of_nat (length C) / sizeof_dirent ->
  forall j, entries (overwrite C (sizeof_dirent * Z.of_nat k) e) !! j = if decide (j = k) then Some e else entries C !! j.
Proof.
  intros He Hm Hk j. unfold sizeof_dirent in *. pose proof (Z.div_mod (Z.of_nat (length C)) 16 ltac:(lia)) as Hd.
  set (C' := overwrite C (16 * Z.of_nat k) e).
  assert (Hl : Z.of_nat (length C') = Z.max (Z.of_nat (length C)) (16 * Z.of_nat k + 16)) by (unfold C'; rewrite length_overwrite, He; lia).
  assert (Hd' : Z.of_nat (length C') / 16 = Z.max (Z.of_nat (length C) / 16) (Z.of_nat k + 1)).
  { rewrite Hl. destruct (decide (Z.of_nat k < Z.of_nat (length C) / 16)).
    - rewrite !Z.max_l by lia. done.
    - rewrite !Z.max_r by lia. replace (16 * Z.of_nat k + 16) with ((Z.of_nat k + 1) * 16) by lia. by apply Z.div_mul. }
  assert (Hsl : forall m : nat, Z.of_nat m < Z.of_nat (length C') / 16 ->
    slice C' (16 * Z.of_nat m) 16 = if decide (m = k) then e else slice C (16 * Z.of_nat m) 16).
  { intros m Hm'. apply list_eq_nthZ.
    - rewrite length_slice by lia. destruct (decide (m = k)); [by rewrite He|]. rewrite length_slice; lia.
    - rewrite length_slice by lia. intros x Hx. rewrite nthZ_slice by lia. unfold C'. rewrite nthZ_overwrite by lia. rewrite He.
      destruct (decide (m = k)) as [->|].
      + rewrite decide_True by lia. f_equal. lia.
      + rewrite decide_False by lia. by rewrite nthZ_slice by lia. }
  destruct (decide (Z.of_nat j < Z.of_nat (length C') / 16)) as [Hj|Hj].
  - rewrite (lookup_entries C') by done. rewrite Hsl by done. destruct (decide (j = k)); [done|].
    rewrite lookup_entries by (unfold sizeof_dirent; lia). done.
  - rewrite (lookup_ge_None_2 (entries C')) by (rewrite length_entries; unfold sizeof_dirent; lia).
    rewrite decide_False by lia. symmetry. apply lookup_ge_None_2. rewrite length_entries. unfold sizeof_dirent. lia.
Qed.

(** A name that was not there, in an entry that was not in use. *)
Lemma dir_map_insert C (k : nat) name inum e :
  entry_for name inum e -> inum <> 0 -> Z.of_nat (length C) mod sizeof_dirent = 0 -> Z.of_nat k <= Z.of_nat (length C) / sizeof_dirent ->
  (forall x, entries C !! k = Some x -> de_inum x = 0) -> dir_map C name = None ->
  forall name', dir_map (overwrite C (sizeof_dirent * Z.of_nat k) e) name' =
    if decide (name_of name' = name_of name) then Some inum else dir_map C name'.
Proof.
  intros [Hl Hb Hi Hn] Hinum Hm Hk Hfree Hno name'. set (C' := overwrite _ _ _).
  pose proof (entries_overwrite C k e Hl Hm Hk) as He. fold C' in He. unfold dir_map, dir_find in *.
  destruct (decide (name_of name' = name_of name)) as [E|E].
  - assert (Hf : list_find (matches name') (entries C') = Some (k, e)).
    { apply list_find_Some. split_and!; [rewrite He; by rewrite decide_True|split; congruence|].
      intros j y Hj Hlt [Hy1 Hy2]. rewrite He, decide_False in Hj by lia. apply fmap_None, list_find_None in Hno.
      eapply (proj1 (Forall_lookup _ _)) in Hno; [|exact Hj]. apply Hno. split; congruence. }
    rewrite Hf. cbn. by rewrite Hi.
  - assert (Hne : ~ matches name' e) by (intros [_ ?]; congruence). f_equal.
    destruct (list_find (matches name') (entries C)) as [[j x]|] eqn:Ef.
    + apply list_find_Some in Ef as (Hj & Hx & Hbefore). assert (j <> k) by (intros ->; destruct Hx as [Hx _]; by apply Hx, Hfree).
      apply list_find_Some. split_and!; [rewrite He; by rewrite decide_False|done|]. intros j' y Hj' Hlt.
      rewrite He in Hj'. destruct (decide (j' = k)); [by injection Hj' as <-|by eapply Hbefore].
    + apply list_find_None. apply list_find_None in Ef. apply Forall_lookup. intros j y Hj. rewrite He in Hj.
      destruct (decide (j = k)); [by injection Hj as <-|]. by eapply (proj1 (Forall_lookup _ _)) in Ef.
Qed.

(** ** dirlookup and dirlink *)

Section dirs.
Context {L U : Type} {HB : BlockLayer L} {HL : BlockLaws L} {HU : UserMem U} {HUL : UserMemLaws U}.
Context (dp : Z) (sb : superblock).
Implicit Types (s : fs L U) (a : bstate).

Notation dcontent s a := (content (b_ld a) (inodeat s dp)).

Record dir_state (c : ctx) (s : fs L U) (a : bstate) : Prop := {
  ds_file : file_state dp sb c s a;
  ds_type : i_type (inodeat s dp) = T_DIR;
  ds_size : i_size (inodeat s dp) mod sizeof_dirent = 0;
  ds_bytes : bytes_ok (dcontent s a);
  (** room for the operation in the log and the cache *)
  ds_fits : Z.of_nat (size (b_txn a)) + nbitmap sb + 4 < Z.min (bl_cap (fs_blk s)) NBUF
}.

Lemma length_dcontent c s a : file_state dp sb c s a -> Z.of_nat (length (dcontent s a)) = i_size (inodeat s dp).
Proof. intros F. unfold content. rewrite length_fbytes. pose proof (io_size _ _ _ (fl_inode _ _ _ _ _ F)). lia. Qed.

Lemma dir_fits c s a : dir_state c s a -> fits s a (bitmaps sb ∪ b_txn a) 2.
Proof.
  intros D. pose proof (ds_fits _ _ _ D). pose proof (ds_file _ _ _ D) as F. unfold fits. rewrite (fl_held _ _ _ _ _ F), map_size_empty.
  pose proof (size_union_alt (bitmaps sb) (b_txn a)) as E. pose proof (subseteq_size (b_txn a ∖ bitmaps sb) _ (subseteq_difference_l _ _ _ (reflexivity _))).
  pose proof (fo_start _ _ (fl_fs _ _ _ _ _ F)). pose proof (fo_size _ _ (fl_fs _ _ _ _ _ F)). pose proof (size_bitmaps sb (nbitmap_nonneg sb ltac:(lia) ltac:(lia))). lia.
Qed.

(** Nothing but the block layer's own state differs. *)
Definition unchanged (s s' : fs L U) : Prop := fkept dp s s' /\ inodeat s' dp = inodeat s dp.

Lemma dir_state_keep c c' s s' a : ceq c c' -> dir_state c s a -> file_state dp sb c' s' a -> unchanged s s' -> dir_state c' s' a.
Proof. intros Hc [] F [Hf E]. split; rewrite ?E, ?(fk_cap _ _ _ Hf); done. Qed.

(** Reading entry [k]. *)
Lemma read_entry c s a (k : nat) (Q : Z * list Z -> fs L U -> Prop) :
  dir_state c s a -> Z.of_nat k < i_size (inodeat s dp) / sizeof_dirent ->
  (forall e s', (forall c', ceq c c' -> dir_state c' s' a) -> unchanged s s' -> entries (dcontent s a) !! k = Some e -> length e = 16%nat -> bytes_ok e ->
     Q (sizeof_dirent, e) s') ->
  runs (readi dp KDst (sizeof_dirent * Z.of_nat k) sizeof_dirent) c s Q.
Proof.
  intros D Hk HK. pose proof (ds_file _ _ _ D) as F. pose proof (io_size _ _ _ (fl_inode _ _ _ _ _ F)) as Hs.
  pose proof (ds_size _ _ _ D) as Hm. pose proof (length_dcontent c s a F) as Hl. unfold sizeof_dirent in *.
  pose proof (Z.div_mod (i_size (inodeat s dp)) 16 ltac:(lia)) as Hd. assert (H32 : MAXFILE * BSIZE < 2 ^ 31) by done.
  assert (Hlen : length (slice (dcontent s a) (16 * Z.of_nat k) 16) = 16%nat) by (rewrite length_slice; lia).
  eapply (readi_runs dp sb c s a); [done|by apply dir_fits with c|lia|lia|lia|]. rewrite Hlen. intros s' F' Hf Ei.
  apply HK; [intros c' Hc'; eapply dir_state_keep; [exact Hc'|exact D|by apply F'|done]|done| |done|by apply bytes_slice, D].
  apply lookup_entries. unfold sizeof_dirent. rewrite Hl. done.
Qed.

Lemma dirlookup_loop_runs name a (i : inode) : bytes_ok name -> forall fuel k c s (Q : Z * Z -> fs L U -> Prop),
  inodeat s dp = i -> dir_state c s a -> i_size i / sizeof_dirent <= Z.of_nat (k + fuel) -> Z.of_nat k <= i_size i / sizeof_dirent ->
  (forall j y, entries (content (b_ld a) i) !! j = Some y -> (j < k)%nat -> ~ matches name y) ->
  (dir_find name (entries (content (b_ld a) i)) = None -> forall s', (forall c', ceq c c' -> dir_state c' s' a) -> unchanged s s' -> Q (NULL, 0) s') ->
  (forall j e, dir_find name (entries (content (b_ld a) i)) = Some (j, e) -> forall c' s', ceq c c' -> dir_state c' s' a -> unchanged s s' ->
     runs (iget ROOTDEV (de_inum e)) c' s' (fun ip s'' => Q (ip, sizeof_dirent * Z.of_nat j) s'')) ->
  runs (dirlookup_loop fuel dp name (sizeof_dirent * Z.of_nat k)) c s Q.
Proof.
  intros Hname. induction fuel as [|fuel IH]; intros k c s Q Ei D Hfuel Hk Hbefore Hnone Hsome; cbn [dirlookup_loop];
    (eapply runs_same; [reflexivity|]); rewrite Ei; pose proof (ds_file _ _ _ D) as F; pose proof (ds_size _ _ _ D) as Hm; rewrite Ei in Hm;
    pose proof (length_dcontent c s a F) as Hlen; rewrite Ei in Hlen; pose proof (Z.div_mod (i_size i) sizeof_dirent ltac:(done)) as Hd;
    destruct (Z.leb_spec (i_size i) (sizeof_dirent * Z.of_nat k)) as [Hle|Hlt]; try (unfold sizeof_dirent in *; lia).
  1,2: apply runs_ret, Hnone; [|intros c' Hc'; by eapply dir_state_keep; [..|eapply file_state_ceq|split; [apply fkept_refl|]]|by split; [apply fkept_refl|]];
    apply list_find_None, Forall_lookup; intros j y Hj; apply (Hbefore j); [done|];
    apply lookup_entries_Some in Hj as [Hj _]; rewrite Hlen in Hj; unfold sizeof_dirent in *; lia.
  apply runs_bind. eapply (read_entry c s a k); [done|rewrite Ei; unfold sizeof_dirent in *; lia|].
  intros e s1 D1 [Hf1 Ei1] He Hle' Hbe c1 Hc1. rewrite Ei in He, Ei1. cbn [fst snd]. rewrite Z.eqb_refl. cbn [negb].
  assert (Hstep : ~ matches name e -> runs (dirlookup_loop fuel dp name (sizeof_dirent * Z.of_nat k + sizeof_dirent)) c1 s1 Q).
  { intros Hno. replace (sizeof_dirent * Z.of_nat k + sizeof_dirent) with (sizeof_dirent * Z.of_nat (S k)) by (unfold sizeof_dirent; lia).
    apply IH; [done|by apply D1|lia|unfold sizeof_dirent in *; lia| | |].
    - intros j y Hj Hjk. destruct (decide (j = k)) as [->|]; [congruence|]. apply (Hbefore j); [done|lia].
    - intros Hn s' D' [Hf' Ei']. apply Hnone; [done|intros c' Hc'; apply D'; ceqs|split; [by eapply fkept_trans|congruence]].
    - intros j x Hj c' s' Hc' D' [Hf' Ei']. apply Hsome; [done|ceqs|done|split; [by eapply fkept_trans|congruence]]. }
  destruct (Z.eqb_spec (de_inum e) 0) as [E0|E0]; [apply Hstep; by intros [? _]|].
  destruct (Z.eqb_spec (namecmp name (de_name e)) 0) as [En|En].
  - apply namecmp_name in En; [|done|by apply bytes_slice]. eapply runs_same; [reflexivity|]. rewrite Ei1, <- Ei, (io_dev _ _ _ (fl_inode _ _ _ _ _ F)).
    apply runs_bind. eapply runs_mono; [apply (Hsome k e); [|done|by apply D1|split; [done|congruence]]|].
    + apply list_find_Some. split_and!; [done|by split|done].
    + intros ip s' HQ c' Hc'. by apply runs_ret.
  - apply Hstep. intros [_ Hn]. apply En, namecmp_name; [done|by apply bytes_slice|done].
Qed.

(** [dirlink] looks for an entry that is not in use. *)
Lemma dirlink_scan_runs a (i : inode) : forall fuel k de c s (Q : Z * list Z -> fs L U -> Prop),
  inodeat s dp = i -> dir_state c s a -> i_size i / sizeof_dirent <= Z.of_nat (k + fuel) -> Z.of_nat k <= i_size i / sizeof_dirent ->
  length de = 16%nat -> bytes_ok de ->
  (forall (j : nat) e s', (forall c', ceq c c' -> dir_state c' s' a) -> unchanged s s' -> Z.of_nat j <= i_size i / sizeof_dirent ->
     (forall x, entries (content (b_ld a) i) !! j = Some x -> de_inum x = 0) -> length e = 16%nat -> bytes_ok e ->
     Q (sizeof_dirent * Z.of_nat j, e) s') ->
  runs (dirlink_scan fuel dp (sizeof_dirent * Z.of_nat k) de) c s Q.
Proof.
  induction fuel as [|fuel IH]; intros k de c s Q Ei D Hfuel Hk Hl Hb HK; cbn [dirlink_scan];
    (eapply runs_same; [reflexivity|]); rewrite Ei; pose proof (ds_file _ _ _ D) as F; pose proof (ds_size _ _ _ D) as Hm; rewrite Ei in Hm;
    pose proof (length_dcontent c s a F) as Hlen; rewrite Ei in Hlen; pose proof (Z.div_mod (i_size i) sizeof_dirent ltac:(done)) as Hd;
    destruct (Z.leb_spec (i_size i) (sizeof_dirent * Z.of_nat k)) as [Hle|Hlt]; try (unfold sizeof_dirent in *; lia).
  1,2: apply runs_ret, HK; [intros c' Hc'; by eapply dir_state_keep; [..|eapply file_state_ceq|split; [apply fkept_refl|]]|by split; [apply fkept_refl|]|done| |done|done];
    intros x Hx; apply lookup_entries_Some in Hx as [Hx _]; rewrite Hlen in Hx; unfold sizeof_dirent in *; lia.
  apply runs_bind. eapply (read_entry c s a k); [done|rewrite Ei; unfold sizeof_dirent in *; lia|].
  intros e s1 D1 [Hf1 Ei1] He Hle' Hbe c1 Hc1. rewrite Ei in He, Ei1. cbn [fst snd]. rewrite Z.eqb_refl. cbn [negb].
  destruct (Z.eqb_spec (de_inum e) 0) as [E0|E0].
  - apply runs_ret, HK; [intros c' Hc'; apply D1; ceqs|split; [done|congruence]|done| |done|done]. intros x Hx. congruence.
  - replace (sizeof_dirent * Z.of_nat k + sizeof_dirent) with (sizeof_dirent * Z.of_nat (S k)) by (unfold sizeof_dirent; lia).
    apply IH; [done|by apply D1|lia|unfold sizeof_dirent in *; lia|done|done|].
    intros j x s' D' [Hf' Ei']. apply HK; [intros c' Hc'; apply D'; ceqs|split; [by eapply fkept_trans|congruence]].
Qed.

Lemma dirlookup_runs name c s a (Q : Z * Z -> fs L U -> Prop) :
  let es := entries (dcontent s a) in
  dir_state c s a -> bytes_ok name ->
  (dir_find name es = None -> forall s', (forall c', ceq c c' -> dir_state c' s' a) -> unchanged s s' -> Q (NULL, 0) s') ->
  (forall j e, dir_find name es = Some (j, e) -> forall c' s', ceq c c' -> dir_state c' s' a -> unchanged s s' ->
     runs (iget ROOTDEV (de_inum e)) c' s' (fun ip s'' => Q (ip, sizeof_dirent * Z.of_nat j) s'')) ->
  runs (dirlookup dp name) c s Q.
Proof.
  intros es D Hname Hnone Hsome. unfold dirlookup. eapply runs_same; [reflexivity|]. rewrite (ds_type _ _ _ D). cbn [Z.eqb negb].
  eapply runs_same; [reflexivity|]. pose proof (io_size _ _ _ (fl_inode _ _ _ _ _ (ds_file _ _ _ D))) as Hs.
  assert (Hq : 0 <= i_size (inodeat s dp) / sizeof_dirent) by (apply Z.div_pos; [lia|done]).
  eapply (dirlookup_loop_runs name a (inodeat s dp) Hname _ 0 c s); try done; [|intros; lia].
  unfold dir_fuel. rewrite Nat.add_0_l, Z2Nat.id; [apply Z.div_le_mono; [done|unfold sizeof_dirent; lia]|].
  apply Z.div_pos; [unfold sizeof_dirent; lia|done].
Qed.

(** The entry lies in one block. *)
Lemma entry_fits c s a (k : nat) (e : list Z) : length e = 16%nat -> dir_state c s a -> write_fits sb e (sizeof_dirent * Z.of_nat k) (b_txn a) s.
Proof.
  intros He D. pose proof (ds_fits _ _ _ D). unfold write_fits. rewrite He. rewrite cb_within; [lia|]. split; [lia|].
  change BSIZE with (sizeof_dirent * 64). rewrite Z.mul_mod_distr_l by done. pose proof (Z.mod_pos_bound (Z.of_nat k) 64 ltac:(lia)).
  unfold sizeof_dirent. lia.
Qed.

Lemma bytes_overwrite C off w : bytes_ok C -> bytes_ok w -> bytes_ok (overwrite C off w).
Proof. intros HC Hw. unfold overwrite. apply Forall_app. split; [by apply Forall_take|]. apply Forall_app. split; [done|by apply Forall_drop]. Qed.

(** [dirlink] of a name that is not in the directory. *)
Lemma dirlink_runs name inum c s a (Q : Z -> fs L U -> Prop) :
  dir_state c s a -> bytes_ok name -> 0 < inum < 2 ^ 16 -> dir_map (dcontent s a) name = None ->
  i_size (inodeat s dp) + sizeof_dirent <= MAXFILE * BSIZE ->
  (forall r s' a', (forall c', ceq c c' -> file_state dp sb c' s' a') -> fkept dp s s' ->
     (r = -1 /\ full sb (b_ld a') \/
      r = 0 /\ i_type (inodeat s' dp) = T_DIR /\ i_size (inodeat s' dp) mod sizeof_dirent = 0 /\ bytes_ok (dcontent s' a') /\
      Z.of_nat (size (b_txn a')) <= Z.of_nat (size (b_txn a)) + nbitmap sb + 3 /\
      forall name', dir_map (dcontent s' a') name' = if decide (name_of name' = name_of name) then Some inum else dir_map (dcontent s a) name') ->
     Q r s') ->
  runs (dirlink dp name inum) c s Q.
Proof.
  intros D Hname Hinum Hno Hmax HK. unfold dirlink. apply runs_bind. eapply (dirlookup_runs name c s a); [done|done| |].
  2: { intros j e He. unfold dir_map in Hno. rewrite He in Hno. done. }
  intros _ s1 D1 [Hf1 Ei1] c1 Hc1. cbn [fst]. rewrite Z.eqb_refl. cbn [negb]. eapply runs_same; [reflexivity|]. rewrite Ei1.
  pose proof (io_size _ _ _ (fl_inode _ _ _ _ _ (ds_file _ _ _ D))) as Hs. set (i := inodeat s dp) in *.
  assert (Hq : 0 <= i_size i / sizeof_dirent) by (apply Z.div_pos; [lia|done]).
  apply runs_bind. eapply (dirlink_scan_runs a i _ 0 (zeros sizeof_dirent) c1 s1); [done|by apply D1| |done|done|by apply Forall_replicate|].
  { unfold dir_fuel. rewrite Nat.add_0_l, Z2Nat.id; [apply Z.div_le_mono; [done|unfold sizeof_dirent; lia]|].
    apply Z.div_pos; [unfold sizeof_dirent; lia|done]. }
  intros k de s2 D2 [Hf2 Ei2] Hk Hfree Hde Hbde c2 Hc2. rewrite Ei1 in Ei2. pose proof (D2 c2 Hc2) as D2'. pose proof (ds_file _ _ _ D2') as F2.
  pose proof (make_dirent_entry de name inum Hde Hbde Hname ltac:(lia)) as He. set (e := make_dirent de name inum) in *.
  pose proof (ef_len _ _ _ He) as Hel. replace sizeof_dirent with (Z.of_nat (length e)) at 2 by (by rewrite Hel).
  pose proof (length_dcontent c s a (ds_file _ _ _ D)) as Hlc. fold i in Hlc. pose proof (ds_size _ _ _ D) as Hm. fold i in Hm.
  assert (Hoff : 0 <= sizeof_dirent * Z.of_nat k <= i_size i).
  { pose proof (Z.div_mod (i_size i) sizeof_dirent ltac:(done)). unfold sizeof_dirent in *. lia. }
  apply runs_bind. eapply (writei_runs dp sb (KSrc e) e (sizeof_dirent * Z.of_nat k) c2 s2 a);
    [done|done|by rewrite Ei2|rewrite Hel; unfold sizeof_dirent in *; lia|by eapply entry_fits|].
  intros tot s3 a3 F3 Hw c3 Hc3. assert (Hf : fkept dp s s3) by (eapply fkept_trans; [|apply Hw]; by eapply fkept_trans).
  assert (HT : forall c', ceq c c' -> file_state dp sb c' s3 a3) by (intros c' Hc'; apply F3; ceqs).
  pose proof (wf_tot _ _ _ _ _ _ _ _ _ Hw) as Htot. rewrite Hel in Htot. destruct (Z.eqb_spec tot sizeof_dirent) as [->|Hne]; cbn [negb].
  2: { apply runs_ret, (HK _ s3 a3); [done|done|]. left. split; [done|]. apply (wf_full _ _ _ _ _ _ _ _ _ Hw). rewrite Hel. unfold sizeof_dirent in *. lia. }
  pose proof (wf_content _ _ _ _ _ _ _ _ _ Hw) as EC. rewrite Ei2 in EC. change (Z.to_nat sizeof_dirent) with 16%nat in EC. rewrite take_ge in EC by lia.
  apply runs_ret, (HK _ s3 a3); [done|done|]. right. pose proof (wf_fields _ _ _ _ _ _ _ _ _ Hw) as Ef. rewrite Ei2 in Ef. fold i in EC.
  split_and!; [done|rewrite Ef; exact (ds_type _ _ _ D)| |rewrite EC; apply bytes_overwrite; [exact (ds_bytes _ _ _ D)|apply He]| |].
  - assert (i_size (inodeat s3 dp) = Z.max (i_size i) (sizeof_dirent * Z.of_nat k + sizeof_dirent)) as -> by (by rewrite Ef).
    destruct (Z.max_spec (i_size i) (sizeof_dirent * Z.of_nat k + sizeof_dirent)) as [[_ ->]|[_ ->]]; [|done].
    replace (sizeof_dirent * Z.of_nat k + sizeof_dirent) with ((Z.of_nat k + 1) * sizeof_dirent) by lia. by apply Z.mod_mul.
  - pose proof (wf_txn _ _ _ _ _ _ _ _ _ Hw) as Ht. pose proof (entry_fits c2 s2 a k e Hel D2') as Hw2.
    rewrite Hel, cb_within in Ht; [lia|]. split; [lia|]. change BSIZE with (sizeof_dirent * 64). rewrite Z.mul_mod_distr_l by done.
    pose proof (Z.mod_pos_bound (Z.of_nat k) 64 ltac:(lia)). unfold sizeof_dirent. lia.
  - rewrite EC. apply dir_map_insert; [done|lia|by rewrite Hlc|by rewrite Hlc|done|done].
Qed.
End dirs.
