(* ===== verification/FsSpec.v ===== *)
(** * What the file system promises

    The theorems on blocks, files and directories, with a small file system on the
    buffer cache and the log of bio.c and log.c that satisfies their hypotheses. *)

From S2P Require Import Prelude KMonad Riscv Mem Bytes Sleeplock Bio Log LogTx BlockLayer UserMem Pipe Fs FsDir FsBlk FsFile FsData FsInode FsWrite FsName.

Section theorems.
Context {L U : Type} {HB : BlockLayer L} {HL : BlockLaws L} {HU : UserMem U} {HUL : UserMemLaws U}.
Implicit Types (s : fs L U) (a : bstate).

(** C6: A file is a sequence of bytes.  [writei] within the size of the file and the
    room of the log replaces the bytes from [off] on by a prefix of the given ones,
    which the kernel or the process can read, all of them unless the disk is full; it extends the file
    where needed, stores the inode, and changes no other block in use.  It logs no more
    than the bitmap, the inode, the indirect block and the blocks it writes. *)
Theorem writei_overwrites ip sb src l off c s a :
  file_state ip sb c s a -> source (fs_usr s) src l ->
  0 <= off <= i_size (inodeat s ip) -> off + Z.of_nat (length l) <= MAXFILE * BSIZE ->
  write_fits sb l off (b_txn a) s ->
  runs (writei ip src off (Z.of_nat (length l))) c s (fun tot s' => exists a',
    file_state ip sb c s' a' /\ wrote_file ip sb l off s a s' a' tot).
Proof.
  intros F Hs Ho Hm Hw. eapply writei_runs; try done. intros tot s' a' F' W. exists a'. split; [by apply F'|done].
Qed.

(** C7: Reading back: [readi] after [writei] at the same offset returns the bytes
    written. *)
Theorem writei_readi_roundtrip ip sb src l off c s a :
  file_state ip sb c s a -> source (fs_usr s) src l ->
  0 <= off <= i_size (inodeat s ip) -> off + Z.of_nat (length l) <= MAXFILE * BSIZE ->
  Z.of_nat (size (b_txn a)) + 2 * nbitmap sb + (cb (off + Z.of_nat (length l)) - off / BSIZE) + 4 < Z.min (bl_cap (fs_blk s)) NBUF ->
  runs (tot <- writei ip src off (Z.of_nat (length l)) ;; readi ip KDst off tot) c s (fun r s' => exists a',
    file_state ip sb c s' a' /\ r = (fst r, take (Z.to_nat (fst r)) l) /\
    0 <= fst r <= Z.of_nat (length l) /\ (fst r < Z.of_nat (length l) -> full sb (b_ld a'))).
Proof.
  intros F Hs Ho Hm Hw. pose proof (fo_start _ _ (fl_fs _ _ _ _ _ F)). pose proof (fo_size _ _ (fl_fs _ _ _ _ _ F)).
  pose proof (nbitmap_nonneg sb ltac:(lia) ltac:(lia)) as Hnb.
  apply runs_bind. eapply (writei_runs ip sb src l off c s a); try done; [unfold write_fits; lia|].
  intros tot s1 a1 F1 W c1 Hc1. pose proof (wf_tot _ _ _ _ _ _ _ _ _ W) as Ht. pose proof (wf_txn _ _ _ _ _ _ _ _ _ W) as Hx.
  assert (H32 : MAXFILE * BSIZE < 2 ^ 31) by done. pose proof (F1 c1 Hc1) as F1'.
  assert (Hl : Z.of_nat (length (content (b_ld a) (inodeat s ip))) = i_size (inodeat s ip)).
  { unfold content. rewrite length_fbytes. lia. }
  assert (Htk : Z.of_nat (length (take (Z.to_nat tot) l)) = tot) by (rewrite length_take; lia).
  assert (Esl : slice (content (b_ld a1) (inodeat s1 ip)) off tot = take (Z.to_nat tot) l).
  { rewrite (wf_content _ _ _ _ _ _ _ _ _ W). apply list_eq_nthZ.
    - rewrite length_slice by (rewrite ?length_overwrite; lia). lia.
    - rewrite length_slice by (rewrite ?length_overwrite; lia). intros k Hk.
      rewrite nthZ_slice, nthZ_overwrite by lia. rewrite decide_True by lia. f_equal. lia. }
  eapply (readi_runs ip sb c1 s1 a1 off tot); [done| |lia|lia|lia|].
  - unfold fits. rewrite (fl_held _ _ _ _ _ F1'), map_size_empty, (fk_cap _ _ _ (wf_kept _ _ _ _ _ _ _ _ _ W)).
    pose proof (size_union_alt (bitmaps sb) (b_txn a1)). pose proof (subseteq_size (b_txn a1 ∖ bitmaps sb) _ (subseteq_difference_l _ _ _ (reflexivity _))).
    pose proof (size_bitmaps sb Hnb). lia.
  - rewrite Esl, Htk. intros s2 F2 _ _. exists a1. cbn [fst]. split_and!; [apply F2; by symmetry|done|lia|lia|]. intros Hlt. by apply (wf_full _ _ _ _ _ _ _ _ _ W).
Qed.

(** C8: A directory is a finite map from names to inode numbers, names being compared up
    to their first [DIRSIZ] characters.  [dirlink] of a name that is not in the map
    inserts it and keeps every other name, or fails on a full disk. *)
Theorem dirlink_inserts dp sb name inum c s a :
  dir_state dp sb c s a -> bytes_ok name -> 0 < inum < 2 ^ 16 ->
  dir_map (content (b_ld a) (inodeat s dp)) name = None ->
  i_size (inodeat s dp) + sizeof_dirent <= MAXFILE * BSIZE ->
  runs (dirlink dp name inum) c s (fun r s' => exists a', file_state dp sb c s' a' /\
    (r = -1 /\ full sb (b_ld a') \/
     r = 0 /\ forall name', dir_map (content (b_ld a') (inodeat s' dp)) name' =
       if decide (name_of name' = name_of name) then Some inum
       else dir_map (content (b_ld a) (inodeat s dp)) name')).
Proof.
  intros D Hn Hi Hno Hm. eapply (dirlink_runs dp sb name inum c s a); try done. intros r s' a' F' _ Hr.
  exists a'. split; [by apply F'|]. destruct Hr as [?|(-> & _ & _ & _ & _ & Hmap)]; [by left|by right].
Qed.

(** [balloc] returns the first block that is not in use, zeroed, and 0 exactly if
    there is no such block.  [bfree] of the block finds it marked and takes the mark away
    again, which restores the bitmap; no other block changes. *)
Theorem balloc_takes_first_free c s a :
  let sb := fs_sb s in
  in_tx c s a -> b_held a = ∅ -> fs_ok sb (b_ld a) -> fits s a (bitmaps sb ∪ b_txn a) 1 ->
  runs (b <- balloc ROOTDEV ;; (when negb (b =? 0) do bfree ROOTDEV b) ;; ret b) c s (fun b s' => exists a',
    in_tx c s' a' /\ b_held a' = ∅ /\
    (b = 0 /\ (forall x, 0 <= x < sb_size sb -> used sb (b_ld a) x = true) \/
     first_free sb (b_ld a) b /\ b_ld a' b = zeros BSIZE) /\
    (forall x, 0 <= x < sb_size sb -> used sb (b_ld a') x = used sb (b_ld a) x) /\
    (forall x, x <> b -> ~ is_bitmap sb x -> b_ld a' x = b_ld a x)).
Proof.
  intros sb HT Hh Hok [Hf1 Hf2]. assert (Es : fs_sb s = sb) by done. clearbody sb. assert (Ho : outer sb ∅ a).
  { intros b [?|Hb]; [set_solver|]. rewrite Hh, lookup_empty in Hb. by destruct Hb. }
  apply runs_bind. eapply (balloc_runs ∅ c s a); rewrite ?Es; [done|done|done|split; lia|].
  intros b s1 a1 HT1 Hk1 [(-> & -> & Hall)|(Hff & ->)] c1 Hc1.
  { cbn [Z.eqb negb]. eapply runs_same; [reflexivity|]. apply runs_ret. exists a. split_and!; [apply HT1; done|done|by left|done|done]. }
  pose proof (first_free_data sb _ Hok _ Hff). pose proof (data_start_pos sb _ Hok). rewrite (proj2 (Z.eqb_neq b 0)) by lia. cbn [negb].
  pose proof Hff as (Hb & Hu & _). pose proof (fs_ok_alloc sb _ Hok b Hff) as Hok1. assert (Esb : fs_sb s1 = sb) by (by rewrite (kept_sb _ _ _ Hk1)).
  apply runs_bind. eapply (bfree_runs ∅ c1 s1); [by apply HT1| |by rewrite Esb| |by rewrite Esb| |].
  - rewrite Esb. intros x [?|Hx]; [set_solver|]. cbn in Hx. rewrite Hh, lookup_empty in Hx. by destruct Hx.
  - pose proof (alloc_size sb b (b_txn a) Hb). pose proof (subseteq_size ({[b]} ∪ ({[BBLOCK b sb]} ∪ b_txn a)) (bitmaps sb ∪ ({[b]} ∪ ({[BBLOCK b sb]} ∪ b_txn a))) ltac:(set_solver)).
    unfold fits. cbn [b_held b_txn]. rewrite (kept_cap _ _ _ Hk1). lia.
  - rewrite Esb. cbn [b_ld]. rewrite used_alloc by done. by rewrite Z.eqb_refl.
  - rewrite Esb. cbn [b_ld b_held b_txn]. intros s2 HT2 Hk2 c2 Hc2. apply runs_ret. eexists. split_and!.
    + apply HT2. ceqs.
    + done.
    + right. split; [done|]. cbn [b_ld]. unfold free_ld, bupd. rewrite decide_False; [apply alloc_self|].
      intros E. pose proof (BBLOCK_bitmap sb b Hb) as Hbm. rewrite E in Hbm. unfold is_bitmap in Hbm. lia.
    + intros x Hx. cbn [b_ld]. rewrite used_free, used_alloc by done. destruct (Z.eqb_spec x b) as [->|]; [by rewrite Hu|done].
    + intros x Hne Hx. cbn [b_ld]. unfold free_ld, bupd. rewrite decide_False by (intros <-; by apply Hx, BBLOCK_bitmap). by apply alloc_other.
Qed.
End theorems.

(** ** A small file system

    Sixty blocks: the log from block 2, inodes in block 32, the bitmap in block 45 and
    data from block 46 on, none of it in use; inode 1 is an empty directory. *)

#[local] Existing Instance map_mem.
#[local] Existing Instance map_laws.

Definition ex_sb : superblock := SB FSMAGIC 60 14 16 30 2 32 45.
Definition ex_bitmap : block := [255; 255; 255; 255; 255; 63] ++ replicate 1018 0.
Definition ex_disk : gmap Z block := {[45 := ex_bitmap]}.
Definition ex_log : lstate :=
  LState (Log 2 LOGSIZE 1 false ROOTDEV (LH 0 (replicate (Z.to_nat LOGSIZE) 0))) (binit (static_bcache ex_disk)).
Definition ex_dir : inode := Inode ROOTDEV 1 1 initsleeplock true T_DIR 0 0 1 0 (replicate 13 0).
Definition ex_fs : fs lstate (gmap Z Z) := Fs ex_sb [ex_dir] ex_log ∅.
Definition ex_a : bstate := BS (dblk ex_disk) ∅ ∅.

Lemma length_dblk b : length (dblk ex_disk b) = Z.to_nat BSIZE.
Proof.
  unfold dblk, ex_disk. destruct (decide (b = 45)) as [->|].
  - rewrite lookup_singleton_eq. by vm_compute.
  - rewrite lookup_singleton_ne by done. by vm_compute.
Qed.

Lemma ex_in_tx : in_tx ex_ctx ex_fs ex_a.
Proof.
  split; [|apply ex_nolk]. exists []. pose proof (binit_spec ex_disk) as [HbR Hpl]. split.
  - split; [|apply NoDup_nil_2|reflexivity..|cbn; lia]. rewrite tlive_pinned. exact HbR.
  - intros b. unfold ld. cbn [apply_writes fold_left]. change (bc (fs_blk ex_fs)) with (binit (static_bcache ex_disk)). by rewrite Hpl.
  - intros b. cbn. split; [by intros ?%not_elem_of_empty|by intros ?%not_elem_of_nil].
  - intros b. split; [apply length_dblk|]. intros d Hd. cbn in Hd. by rewrite lookup_empty in Hd.
Qed.

Lemma ex_fs_ok : fs_ok ex_sb (dblk ex_disk).
Proof.
  split; [done|split; [by vm_compute|done]|apply length_dblk|].
  assert (Hall : forallb (used ex_sb (dblk ex_disk)) (upto 46) = true) by (vm_compute; reflexivity).
  rewrite forallb_forall in Hall. intros b Hb. apply Hall, list_elem_of_In, elem_of_upto. change (data_start ex_sb) with 46 in Hb. lia.
Qed.

Lemma ex_slot k : slot (dblk ex_disk) ex_dir k = 0.
Proof.
  assert (Hz : forall j, nthZ 0 (i_addrs ex_dir) j = 0) by (intros j; apply (nthZ_replicate 13)).
  unfold slot. rewrite !Hz. by destruct (k <=? NDIRECT).
Qed.

Lemma ex_inode_ok : inode_ok ex_sb (dblk ex_disk) ex_dir.
Proof.
  split; [done|done|by vm_compute|intros k _ Hn; by rewrite ex_slot in Hn|intros k k' _ _ Hn; by rewrite ex_slot in Hn|by vm_compute|].
  intros bn Hbn Hlt. cbn in Hlt. unfold BSIZE in Hlt. lia.
Qed.

Lemma ex_file_state : file_state 0 ex_sb ex_ctx ex_fs ex_a.
Proof. split; [exact ex_in_tx|reflexivity|reflexivity|by vm_compute|exact ex_fs_ok|exact ex_inode_ok]. Qed.

Lemma ex_dir_state : dir_state 0 ex_sb ex_ctx ex_fs ex_a.
Proof. split; [exact ex_file_state|reflexivity|reflexivity|apply Forall_nil_2|by vm_compute]. Qed.

(** Two hundred bytes. *)
Definition ex_data : list Z := replicate 200 7.

Lemma writei_overwrites_witness :
  file_state 0 ex_sb ex_ctx ex_fs ex_a /\
  runs (writei 0 (KSrc ex_data) 0 200) ex_ctx ex_fs (fun tot s' => exists a',
    file_state 0 ex_sb ex_ctx s' a' /\ wrote_file 0 ex_sb ex_data 0 ex_fs ex_a s' a' tot).
Proof.
  split; [exact ex_file_state|].
  apply (writei_overwrites 0 ex_sb (KSrc ex_data) ex_data 0 ex_ctx ex_fs ex_a ex_file_state eq_refl); by vm_compute.
Defined.

Lemma writei_readi_roundtrip_witness :
  file_state 0 ex_sb ex_ctx ex_fs ex_a /\
  runs (tot <- writei 0 (KSrc ex_data) 0 200 ;; readi 0 KDst 0 tot) ex_ctx ex_fs (fun r s' => exists a',
    file_state 0 ex_sb ex_ctx s' a' /\ r = (fst r, take (Z.to_nat (fst r)) ex_data) /\
    0 <= fst r <= 200 /\ (fst r < 200 -> full ex_sb (b_ld a'))).
Proof.
  split; [exact ex_file_state|].
  apply (writei_readi_roundtrip 0 ex_sb (KSrc ex_data) ex_data 0 ex_ctx ex_fs ex_a ex_file_state eq_refl); by vm_compute.
Defined.

(** The name "sh" for inode 5. *)
Lemma dirlink_inserts_witness :
  dir_state 0 ex_sb ex_ctx ex_fs ex_a /\
  runs (dirlink 0 [115; 104; 0] 5) ex_ctx ex_fs (fun r s' => exists a', file_state 0 ex_sb ex_ctx s' a' /\
    (r = -1 /\ full ex_sb (b_ld a') \/
     r = 0 /\ forall name', dir_map (content (b_ld a') (inodeat s' 0)) name' =
       if decide (name_of name' = name_of [115; 104; 0]) then Some 5
       else dir_map (content (dblk ex_disk) ex_dir) name')).
Proof.
  split; [exact ex_dir_state|].
  apply (dirlink_inserts 0 ex_sb [115; 104; 0] 5 ex_ctx ex_fs ex_a ex_dir_state); [|lia|reflexivity|by vm_compute].
  by repeat (apply Forall_cons; split; [lia|]).
Defined.

Lemma balloc_takes_first_free_witness :
  in_tx ex_ctx ex_fs ex_a /\
  runs (b <- balloc ROOTDEV ;; (when negb (b =? 0) do bfree ROOTDEV b) ;; ret b) ex_ctx ex_fs (fun b s' => exists a',
    in_tx ex_ctx s' a' /\ b_held a' = ∅ /\
    (b = 0 /\ (forall x, 0 <= x < sb_size ex_sb -> used ex_sb (dblk ex_disk) x = true) \/
     first_free ex_sb (dblk ex_disk) b /\ b_ld a' b = zeros BSIZE) /\
    (forall x, 0 <= x < sb_size ex_sb -> used ex_sb (b_ld a') x = used ex_sb (dblk ex_disk) x) /\
    (forall x, x <> b -> ~ is_bitmap ex_sb x -> b_ld a' x = dblk ex_disk x)).
Proof.
  split; [exact ex_in_tx|].
  apply (balloc_takes_first_free ex_ctx ex_fs ex_a ex_in_tx eq_refl ex_fs_ok). split; by vm_compute.
Defined.
