(* ===== verification/File.v ===== *)
(** * Open files (kernel/file.c) and [pipealloc]

    The file table and the operations on one open file, over the file system and
    the pipes.  [struct file *] is an index into the table, [NULL = -1].  Reading or
    writing may put the caller to sleep in a pipe or a device; the result is then
    [Asleep] as in Pipe. *)

From S2P Require Import Prelude KMonad Riscv Mem Bytes Sleeplock Bio UserMem Pipe BlockLayer Fs.

Inductive ftype := FD_NONE | FD_PIPE | FD_INODE | FD_DEVICE.

#[export] Instance ftype_eq_dec : EqDecision ftype.
Proof. solve_decision. Defined.

Record file := File {
  f_type : ftype; f_ref : Z; f_readable : bool; f_writable : bool;
  f_pipe : Z; f_ip : Z; f_off : Z; f_major : Z
}.

Definition file0 : file := File FD_NONE 0 false false 0 0 0 0.

Definition set_fref r f := File (f_type f) r (f_readable f) (f_writable f) (f_pipe f) (f_ip f) (f_off f) (f_major f).
Definition set_ftype t f := File t (f_ref f) (f_readable f) (f_writable f) (f_pipe f) (f_ip f) (f_off f) (f_major f).
Definition set_foff o f := File (f_type f) (f_ref f) (f_readable f) (f_writable f) (f_pipe f) (f_ip f) o (f_major f).
Definition set_fip ip f := File (f_type f) (f_ref f) (f_readable f) (f_writable f) (f_pipe f) ip (f_off f) (f_major f).
Definition set_fmajor m f := File (f_type f) (f_ref f) (f_readable f) (f_writable f) (f_pipe f) (f_ip f) (f_off f) m.
Definition set_frw r w f := File (f_type f) (f_ref f) r w (f_pipe f) (f_ip f) (f_off f) (f_major f).
Definition set_fpipe pi f := File (f_type f) (f_ref f) (f_readable f) (f_writable f) pi (f_ip f) (f_off f) (f_major f).

(** [struct devsw devsw[NDEV]]: the read and write functions of a major device
    number, if set. *)
Class DevSw (U : Type) := {
  dv_read : Z -> option (Z -> Z -> M U outcome);
  dv_write : Z -> option (Z -> Z -> M U outcome)
}.

Record files (L U : Type) := Files {
  ft_file : list file;
  ft_pipes : gmap Z pipe;
  ft_fs : fs L U
}.
Arguments Files {L U}.
Arguments ft_file {L U}.
Arguments ft_pipes {L U}.
Arguments ft_fs {L U}.

Section ops.
Context {L U : Type} `{BlockLayer L} `{UserMem U} `{DevSw U}.

Definition fsop {A} (m : M (fs L U) A) : M (files L U) A :=
  zoom ft_fs (fun x s => Files (ft_file s) (ft_pipes s) x) m.

Definition pipeop {A} (m : M (pst U) A) : M (files L U) A :=
  zoom (fun s => Pst (ft_pipes s) (fs_usr (ft_fs s)))
    (fun x s => Files (ft_file s) (ps_pipes x) (set_usr (ps_usr x) (ft_fs s))) m.

Definition uop {A} (m : M U A) : M (files L U) A := fsop (usrop m).
Definition begin_op' : M (files L U) unit := fsop (blkop bl_begin_op).
Definition end_op' : M (files L U) unit := fsop (blkop bl_end_op).

Definition fileat (s : files L U) (f : Z) : file := nthZ file0 (ft_file s) f.
Definition fget {A} (f : Z) (g : file -> A) : M (files L U) A := gets (fun s => g (fileat s f)).
Definition fset (f : Z) (g : file -> file) : M (files L U) unit :=
  modify (fun s => Files (setZ (ft_file s) f (g (fileat s f))) (ft_pipes s) (ft_fs s)).

(** The first entry with no references. *)
Fixpoint ffree (l : list file) (i : Z) : Z :=
  match l with
  | [] => NULL
  | f :: l' => if f_ref f =? 0 then i else ffree l' (i + 1)
  end.

Definition filealloc : M (files L U) Z :=
  acquire LK_ftable ;;
  f <- gets (fun s => ffree (ft_file s) 0) ;;
  (when negb (f =? NULL) do fset f (set_fref 1)) ;;
  release LK_ftable ;;
  ret f.

Definition filedup (f : Z) : M (files L U) Z :=
  acquire LK_ftable ;;
  r <- fget f f_ref ;;
  if r <? 1 then panic "filedup"
  else
    fset f (set_fref (r + 1)) ;;
    release LK_ftable ;;
    ret f.

Definition fileclose (f : Z) : M (files L U) unit :=
  acquire LK_ftable ;;
  r <- fget f f_ref ;;
  if r <? 1 then panic "fileclose"
  else
    fset f (set_fref (r - 1)) ;;
    if 0 <? r - 1 then release LK_ftable
    else
      ff <- fget f id ;;
      fset f (set_fref 0) ;;
      fset f (set_ftype FD_NONE) ;;
      release LK_ftable ;;
      match f_type ff with
      | FD_PIPE => pipeop (pipeclose (f_pipe ff) (f_writable ff))
      | FD_INODE | FD_DEVICE =>
          begin_op' ;;
          fsop (iput (f_ip ff)) ;;
          end_op'
      | FD_NONE => ret tt
      end.

(** The bytes of a [struct stat]: dev at 0, ino at 4, type at 8, nlink at 10, size
    (8 bytes) at 16. *)
Definition encode_stat (st : stat) : list Z :=
  let d := put32 (zeros 24) 0 (st_dev st) in
  let d := put32 d 4 (st_ino st) in
  let d := put16 d 8 (st_type st) in
  let d := put16 d 10 (st_nlink st) in
  putn 8 d 16 (st_size st).

Definition filestat (f addr : Z) : M (files L U) Z :=
  ff <- fget f id ;;
  match f_type ff with
  | FD_INODE | FD_DEVICE =>
      fsop (ilock (f_ip ff)) ;;
      st <- fsop (stati (f_ip ff)) ;;
      fsop (iunlock (f_ip ff)) ;;
      r <- uop (um_copyout addr (encode_stat st)) ;;
      if r <? 0 then ret (-1) else ret 0
  | _ => ret (-1)
  end.

Definition fileread (f addr n : Z) : M (files L U) outcome :=
  ff <- fget f id ;;
  if negb (f_readable ff) then ret (Done (-1))
  else
    match f_type ff with
    | FD_PIPE => pipeop (piperead (f_pipe ff) addr n)
    | FD_DEVICE =>
        match (if (f_major ff <? 0) || (NDEV <=? f_major ff) then None else dv_read (f_major ff)) with
        | None => ret (Done (-1))
        | Some rd => uop (rd addr n)
        end
    | FD_INODE =>
        fsop (ilock (f_ip ff)) ;;
        off <- fget f f_off ;;
        r <- fsop (readi (f_ip ff) (UDst addr) off (u32 n)) ;;
        (when 0 <? fst r do fset f (fun g => set_foff (u32 (f_off g + fst r)) g)) ;;
        fsop (iunlock (f_ip ff)) ;;
        ret (Done (fst r))
    | FD_NONE => panic "fileread"
    end.

(** [int max = ((MAXOPBLOCKS-1-1-2) / 2) * BSIZE;] *)
Definition filewrite_max : Z := ((MAXOPBLOCKS - 1 - 1 - 2) / 2) * BSIZE.

(** [while(i < n)]; the result is the final [i]. *)
Fixpoint filewrite_loop (fuel : nat) (f ip addr n i : Z) : M (files L U) Z :=
  if n <=? i then ret i
  else
    match fuel with
    | O => panic "filewrite: out of fuel"
    | S k =>
        let n1 := Z.min (n - i) filewrite_max in
        begin_op' ;;
        fsop (ilock ip) ;;
        off <- fget f f_off ;;
        r <- fsop (writei ip (USrc (addr + i)) off n1) ;;
        (when 0 <? r do fset f (fun g => set_foff (u32 (f_off g + r)) g)) ;;
        fsop (iunlock ip) ;;
        end_op' ;;
        if negb (r =? n1) then ret i (* error from writei *)
        else filewrite_loop k f ip addr n (i + r)
    end.

Definition filewrite (f addr n : Z) : M (files L U) outcome :=
  ff <- fget f id ;;
  if negb (f_writable ff) then ret (Done (-1))
  else
    match f_type ff with
    | FD_PIPE => pipeop (pipewrite (f_pipe ff) addr n)
    | FD_DEVICE =>
        match (if (f_major ff <? 0) || (NDEV <=? f_major ff) then None else dv_write (f_major ff)) with
        | None => ret (Done (-1))
        | Some wr => uop (wr addr n)
        end
    | FD_INODE =>
        i <- filewrite_loop (Z.to_nat (n / filewrite_max + 1)) f (f_ip ff) addr n 0 ;;
        ret (Done (if i =? n then n else -1))
    | FD_NONE => panic "filewrite"
    end.

(** kernel/pipe.c *)
Definition pipealloc : M (files L U) (option (Z * Z)) :=
  f0 <- filealloc ;;
  if f0 =? NULL then ret None
  else
    f1 <- filealloc ;;
    if f1 =? NULL then
      fileclose f0 ;;
      ret None
    else
      pi <- pipeop pipe_create ;;
      if pi =? 0 then
        fileclose f0 ;;
        fileclose f1 ;;
        ret None
      else
        fset f0 (fun f => set_fpipe pi (set_frw true false (set_ftype FD_PIPE f))) ;;
        fset f1 (fun f => set_fpipe pi (set_frw false true (set_ftype FD_PIPE f))) ;;
        ret (Some (f0, f1)).
End ops.
