(* ===== verification/Devsw.v ===== *)
(** * The device switch

    [consoleinit] stores the console's functions in [devsw[CONSOLE]]; no other entry
    is set.  [console_devsw] is the table file.c then dispatches on. *)

From S2P Require Import Prelude KMonad Riscv Mem Kalloc Vm UserMem Pipe Uart Console UserVm Bytes Sleeplock Bio BlockLayer Fs File.

Definition CONSOLE := 1.

(** A console operation, on the machine's console and the running process. *)
Definition consop {A} (m : M (cst umach) A) : M umach A :=
  zoom (fun u => Cst (u_tty u) u) (fun x _ => set_tty (ct_tty x) (ct_usr x)) m.

Section instance.
Context `{KernelImage}.

#[export] Instance console_devsw : DevSw umach := {|
  dv_read major := if major =? CONSOLE then Some (fun dst n => consop (consoleread dst n)) else None;
  dv_write major := if major =? CONSOLE then Some (fun src n => consop (consolewrite src n)) else None
|}.
End instance.
