(* ===== verification/Syscall.v ===== *)
(** * System call arguments (kernel/syscall.c, first part)

    The running process as its system calls see it: the saved user registers, the
    size of its memory, its open files and its current directory. *)

From S2P Require Import Prelude KMonad Riscv Mem Bytes UserMem Pipe BlockLayer Fs File.

(** [a0] to [a7] of the trapframe, [sz], [ofile] and [cwd] of [myproc()]. *)
Record cur := Cur { c_regs : list Z; c_sz : Z; c_ofile : list Z; c_cwd : Z }.

Record sysst (L U : Type) := Sys { ss_files : files L U; ss_cur : cur }.
Arguments Sys {L U}.
Arguments ss_files {L U}.
Arguments ss_cur {L U}.

Definition set_ofile (fd f : Z) (c : cur) : cur :=
  Cur (c_regs c) (c_sz c) (setZ (c_ofile c) fd f) (c_cwd c).
Definition set_cwd (ip : Z) (c : cur) : cur := Cur (c_regs c) (c_sz c) (c_ofile c) ip.

Section args.
Context {L U : Type} `{BlockLayer L} `{UserMem U}.

Definition fop {A} (m : M (files L U) A) : M (sysst L U) A :=
  zoom ss_files (fun f s => Sys f (ss_cur s)) m.
Definition fsop' {A} (m : M (fs L U) A) : M (sysst L U) A := fop (fsop m).
Definition userop {A} (m : M U A) : M (sysst L U) A := fop (uop m).
Definition cget {A} (f : cur -> A) : M (sysst L U) A := gets (fun s => f (ss_cur s)).
Definition cset (f : cur -> cur) : M (sysst L U) unit :=
  modify (fun s => Sys (ss_files s) (f (ss_cur s))).

(** The uint64 at [addr], or [None] for the [return -1]. *)
Definition fetchaddr (addr : Z) : M (sysst L U) (option Z) :=
  sz <- cget c_sz ;;
  if (sz <=? addr) || (sz <? u64 (addr + 8)) then ret None (* both tests needed, in case of overflow *)
  else
    r <- userop (um_copyin addr 8) ;;
    if negb (fst r =? 0) then ret None else ret (Some (getn 8 (snd r) 0)).

(** The string at [addr] without its NUL (its length is the return value), or [None]. *)
Definition fetchstr (addr max : Z) : M (sysst L U) (option (list Z)) :=
  r <- userop (um_copyinstr addr max) ;;
  if fst r <? 0 then ret None
  else
    match strlen (length (snd r)) (fun i => nthZ 0 (snd r) i) with
    | Some n => ret (Some (take (Z.to_nat n) (snd r)))
    | None => panic "fetchstr: no NUL"
    end.

Definition argraw (n : Z) : M (sysst L U) Z :=
  if (0 <=? n) && (n <=? 5) then cget (fun c => u64 (nthZ 0 (c_regs c) n)) else panic "argraw".

Definition argint (n : Z) : M (sysst L U) Z :=
  v <- argraw n ;; ret (s32 v).

Definition argaddr (n : Z) : M (sysst L U) Z := argraw n.

Definition argstr (n max : Z) : M (sysst L U) (option (list Z)) :=
  addr <- argaddr n ;;
  fetchstr addr max.
End args.
