(* ===== verification/Sysfile.v ===== *)
(** * File system calls (kernel/sysfile.c)

    Each system call of the running process, over the open files and the file
    system.  [sys_exec] is in Exec. *)

From S2P Require Import Prelude KMonad Riscv Mem Bytes Sleeplock Bio UserMem Pipe BlockLayer Fs FsDir File Syscall.

Definition O_RDONLY := 0.
Definition O_WRONLY := 1.
Definition O_RDWR := 2.
Definition O_CREATE := 512.
Definition O_TRUNC := 1024.

(** [mode & bit] *)
Definition has (mode bit : Z) : bool := negb (Z.land mode bit =? 0).

(** The first free descriptor. *)
Fixpoint fdfree (l : list Z) (fd : Z) : Z :=
  match l with
  | [] => -1
  | f :: l' => if f =? NULL then fd else fdfree l' (fd + 1)
  end.

Definition DOT : list Z := [46].
Definition DOTDOT : list Z := [46; 46].

Section calls.
Context {L U : Type} `{BlockLayer L} `{UserMem U} `{DevSw U}.

Definition begin_tx : M (sysst L U) unit := fop begin_op'.
Definition end_tx : M (sysst L U) unit := fop end_op'.

(** The descriptor and the file, or [None] for the [return -1]. *)
Definition argfd (n : Z) : M (sysst L U) (option (Z * Z)) :=
  fd <- argint n ;;
  if (fd <? 0) || (NOFILE <=? fd) then ret None
  else
    f <- cget (fun c => nthZ NULL (c_ofile c) fd) ;;
    if f =? NULL then ret None else ret (Some (fd, f)).

Definition fdalloc (f : Z) : M (sysst L U) Z :=
  fd <- cget (fun c => fdfree (c_ofile c) 0) ;;
  if fd <? 0 then ret (-1)
  else
    cset (set_ofile fd f) ;;
    ret fd.

Definition sys_dup : M (sysst L U) Z :=
  a <- argfd 0 ;;
  match a with
  | None => ret (-1)
  | Some (_, f) =>
      fd <- fdalloc f ;;
      if fd <? 0 then ret (-1)
      else
        fop (filedup f) ;;
        ret fd
  end.

Definition sys_read : M (sysst L U) outcome :=
  p <- argaddr 1 ;;
  n <- argint 2 ;;
  a <- argfd 0 ;;
  match a with
  | None => ret (Done (-1))
  | Some (_, f) => fop (fileread f p n)
  end.

Definition sys_write : M (sysst L U) outcome :=
  p <- argaddr 1 ;;
  n <- argint 2 ;;
  a <- argfd 0 ;;
  match a with
  | None => ret (Done (-1))
  | Some (_, f) => fop (filewrite f p n)
  end.

Definition sys_close : M (sysst L U) Z :=
  a <- argfd 0 ;;
  match a with
  | None => ret (-1)
  | Some (fd, f) =>
      cset (set_ofile fd NULL) ;;
      fop (fileclose f) ;;
      ret 0
  end.

Definition sys_fstat : M (sysst L U) Z :=
  st <- argaddr 1 ;;
  a <- argfd 0 ;;
  match a with
  | None => ret (-1)
  | Some (_, f) => fop (filestat f st)
  end.

Definition inode_field {A} (ip : Z) (f : inode -> A) : M (sysst L U) A := fsop' (iget_f ip f).

(** The label [bad] of [sys_link]. *)
Definition link_bad (ip : Z) : M (sysst L U) Z :=
  fsop' (ilock ip) ;;
  fsop' (iset ip (fun i => set_nlink (s16 (i_nlink i - 1)) i)) ;;
  fsop' (iupdate ip) ;;
  fsop' (iunlockput ip) ;;
  end_tx ;;
  ret (-1).

(** Create the path new as a link to the same inode as old. *)
Definition sys_link : M (sysst L U) Z :=
  old <- argstr 0 MAXPATH ;;
  match old with
  | None => ret (-1)
  | Some old =>
  new <- argstr 1 MAXPATH ;;
  match new with
  | None => ret (-1)
  | Some new =>
  begin_tx ;;
  cwd <- cget c_cwd ;;
  ip <- fsop' (namei cwd old) ;;
  if ip =? NULL then
    end_tx ;;
    ret (-1)
  else
    fsop' (ilock ip) ;;
    type <- inode_field ip i_type ;;
    if type =? T_DIR then
      fsop' (iunlockput ip) ;;
      end_tx ;;
      ret (-1)
    else
      fsop' (iset ip (fun i => set_nlink (s16 (i_nlink i + 1)) i)) ;;
      fsop' (iupdate ip) ;;
      fsop' (iunlock ip) ;;
      r <- fsop' (nameiparent cwd new (zeros DIRSIZ)) ;;
      let '(dp, name) := r in
      if dp =? NULL then link_bad ip
      else
        fsop' (ilock dp) ;;
        ddev <- inode_field dp i_dev ;;
        idev <- inode_field ip i_dev ;;
        inum <- inode_field ip i_inum ;;
        n <- (if negb (ddev =? idev) then ret (-1) else fsop' (dirlink dp name inum)) ;;
        if n <? 0 then
          fsop' (iunlockput dp) ;;
          link_bad ip
        else
          fsop' (iunlockput dp) ;;
          fsop' (iput ip) ;;
          end_tx ;;
          ret 0
  end end.

(** Is the directory dp empty except for . and .. ? *)
Fixpoint isdirempty_loop (fuel : nat) (dp off : Z) : M (fs L U) bool :=
  size <- iget_f dp i_size ;;
  if size <=? off then ret true
  else
    match fuel with
    | O => panic "isdirempty: out of fuel"
    | S f =>
        r <- readi dp KDst off sizeof_dirent ;;
        if negb (fst r =? sizeof_dirent) then panic "isdirempty: readi"
        else if negb (de_inum (snd r) =? 0) then ret false
        else isdirempty_loop f dp (off + sizeof_dirent)
    end.

Definition isdirempty (dp : Z) : M (fs L U) bool :=
  size <- iget_f dp i_size ;;
  isdirempty_loop (dir_fuel size) dp (2 * sizeof_dirent).

(** The label [bad] of [sys_unlink]. *)
Definition unlink_bad (dp : Z) : M (sysst L U) Z :=
  fsop' (iunlockput dp) ;;
  end_tx ;;
  ret (-1).

Definition sys_unlink : M (sysst L U) Z :=
  path <- argstr 0 MAXPATH ;;
  match path with
  | None => ret (-1)
  | Some path =>
  begin_tx ;;
  cwd <- cget c_cwd ;;
  r <- fsop' (nameiparent cwd path (zeros DIRSIZ)) ;;
  let '(dp, name) := r in
  if dp =? NULL then
    end_tx ;;
    ret (-1)
  else
    fsop' (ilock dp) ;;
    (* Cannot unlink . or .. *)
    if (namecmp name DOT =? 0) || (namecmp name DOTDOT =? 0) then unlink_bad dp
    else
      r <- fsop' (dirlookup dp name) ;;
      let '(ip, off) := r in
      if ip =? NULL then unlink_bad dp
      else
        fsop' (ilock ip) ;;
        nlink <- inode_field ip i_nlink ;;
        if nlink <? 1 then panic "unlink: nlink < 1"
        else
          type <- inode_field ip i_type ;;
          empty <- (if type =? T_DIR then fsop' (isdirempty ip) else ret true) ;;
          if negb empty then
            fsop' (iunlockput ip) ;;
            unlink_bad dp
          else
            n <- fsop' (writei dp (KSrc (zeros sizeof_dirent)) off sizeof_dirent) ;;
            if negb (n =? sizeof_dirent) then panic "unlink: writei"
            else
              (when type =? T_DIR do (
                fsop' (iset dp (fun i => set_nlink (s16 (i_nlink i - 1)) i)) ;;
                fsop' (iupdate dp))) ;;
              fsop' (iunlockput dp) ;;
              fsop' (iset ip (fun i => set_nlink (s16 (i_nlink i - 1)) i)) ;;
              fsop' (iupdate ip) ;;
              fsop' (iunlockput ip) ;;
              end_tx ;;
              ret 0
  end.

(** The label [fail] of [create]. *)
Definition create_fail (ip dp : Z) : M (fs L U) Z :=
  (* something went wrong. de-allocate ip. *)
  iset ip (set_nlink 0) ;;
  iupdate ip ;;
  iunlockput ip ;;
  iunlockput dp ;;
  ret NULL.

Definition create (cwd : Z) (path : list Z) (type major minor : Z) : M (fs L U) Z :=
  r <- nameiparent cwd path (zeros DIRSIZ) ;;
  let '(dp, name) := r in
  if dp =? NULL then ret NULL
  else
    ilock dp ;;
    r <- dirlookup dp name ;;
    let ip := fst r in
    if negb (ip =? NULL) then
      iunlockput dp ;;
      ilock ip ;;
      t <- iget_f ip i_type ;;
      if (type =? T_FILE) && ((t =? T_FILE) || (t =? T_DEVICE)) then ret ip
      else
        iunlockput ip ;;
        ret NULL
    else
      dev <- iget_f dp i_dev ;;
      ip <- ialloc dev type ;;
      if ip =? NULL then
        iunlockput dp ;;
        ret NULL
      else
        ilock ip ;;
        iset ip (set_dev_nrs major minor) ;;
        iset ip (set_nlink 1) ;;
        iupdate ip ;;
        inum <- iget_f ip i_inum ;;
        dnum <- iget_f dp i_inum ;;
        n <- (if type =? T_DIR then (* Create . and .. entries. *)
                n <- dirlink ip DOT inum ;;
                if n <? 0 then ret n else dirlink ip DOTDOT dnum
              else ret 0) ;;
        if n <? 0 then create_fail ip dp
        else
          n <- dirlink dp name inum ;;
          if n <? 0 then create_fail ip dp
          else
            (when type =? T_DIR do (
              (* now that success is guaranteed: *)
              iset dp (fun i => set_nlink (s16 (i_nlink i + 1)) i) ;; (* for .. *)
              iupdate dp)) ;;
            iunlockput dp ;;
            ret ip.

(** The error exits of [sys_open] after the inode is locked. *)
Definition open_fail (ip : Z) : M (sysst L U) Z :=
  fsop' (iunlockput ip) ;;
  end_tx ;;
  ret (-1).

(** [sys_open] up to the locked inode, [NULL] for the early [return -1]. *)
Definition open_inode (path : list Z) (omode : Z) : M (sysst L U) Z :=
  cwd <- cget c_cwd ;;
  if has omode O_CREATE then
    ip <- fsop' (create cwd path T_FILE 0 0) ;;
    if ip =? NULL then
      end_tx ;;
      ret NULL
    else ret ip
  else
    ip <- fsop' (namei cwd path) ;;
    if ip =? NULL then
      end_tx ;;
      ret NULL
    else
      fsop' (ilock ip) ;;
      type <- inode_field ip i_type ;;
      if (type =? T_DIR) && negb (omode =? O_RDONLY) then
        _ <- open_fail ip ;;
        ret NULL
      else ret ip.

Definition sys_open : M (sysst L U) Z :=
  omode <- argint 1 ;;
  path <- argstr 0 MAXPATH ;;
  match path with
  | None => ret (-1)
  | Some path =>
  begin_tx ;;
  ip <- open_inode path omode ;;
  if ip =? NULL then ret (-1)
  else
    type <- inode_field ip i_type ;;
    major <- inode_field ip i_major ;;
    if (type =? T_DEVICE) && ((major <? 0) || (NDEV <=? major)) then open_fail ip
    else
      f <- fop filealloc ;;
      if f =? NULL then open_fail ip
      else
        fd <- fdalloc f ;;
        if fd <? 0 then
          fop (fileclose f) ;;
          open_fail ip
        else
          (if type =? T_DEVICE then
             fop (fset f (fun g => set_fmajor major (set_ftype FD_DEVICE g)))
           else fop (fset f (fun g => set_foff 0 (set_ftype FD_INODE g)))) ;;
          fop (fset f (set_fip ip)) ;;
          fop (fset f (set_frw (negb (has omode O_WRONLY)) (has omode O_WRONLY || has omode O_RDWR))) ;;
          (when has omode O_TRUNC && (type =? T_FILE) do fsop' (itrunc ip)) ;;
          fsop' (iunlock ip) ;;
          end_tx ;;
          ret fd
  end.

(** The common shape of [sys_mkdir] and [sys_mknod] after [begin_op]. *)
Definition make_node (type major minor : Z) : M (sysst L U) Z :=
  path <- argstr 0 MAXPATH ;;
  cwd <- cget c_cwd ;;
  ip <- match path with
        | None => ret NULL
        | Some path => fsop' (create cwd path type major minor)
        end ;;
  if ip =? NULL then
    end_tx ;;
    ret (-1)
  else
    fsop' (iunlockput ip) ;;
    end_tx ;;
    ret 0.

Definition sys_mkdir : M (sysst L U) Z :=
  begin_tx ;;
  make_node T_DIR 0 0.

Definition sys_mknod : M (sysst L U) Z :=
  begin_tx ;;
  major <- argint 1 ;;
  minor <- argint 2 ;;
  make_node T_DEVICE (s16 major) (s16 minor).

Definition sys_chdir : M (sysst L U) Z :=
  begin_tx ;;
  path <- argstr 0 MAXPATH ;;
  cwd <- cget c_cwd ;;
  ip <- match path with
        | None => ret NULL
        | Some path => fsop' (namei cwd path)
        end ;;
  if ip =? NULL then
    end_tx ;;
    ret (-1)
  else
    fsop' (ilock ip) ;;
    type <- inode_field ip i_type ;;
    if negb (type =? T_DIR) then
      fsop' (iunlockput ip) ;;
      end_tx ;;
      ret (-1)
    else
      fsop' (iunlock ip) ;;
      fsop' (iput cwd) ;;
      end_tx ;;
      cset (set_cwd ip) ;;
      ret 0.

(** The bytes of an [int]. *)
Definition encode_int (v : Z) : list Z := put32 (zeros 4) 0 v.

Definition sys_pipe : M (sysst L U) Z :=
  fdarray <- argaddr 0 ;;
  p <- fop pipealloc ;;
  match p with
  | None => ret (-1)
  | Some (rf, wf) =>
      fd0 <- fdalloc rf ;;
      fd1 <- (if fd0 <? 0 then ret (-1) else fdalloc wf) ;;
      if (fd0 <? 0) || (fd1 <? 0) then
        (when 0 <=? fd0 do cset (set_ofile fd0 NULL)) ;;
        fop (fileclose rf) ;;
        fop (fileclose wf) ;;
        ret (-1)
      else
        r0 <- userop (um_copyout fdarray (encode_int fd0)) ;;
        r1 <- (if r0 <? 0 then ret (-1) else userop (um_copyout (u64 (fdarray + 4)) (encode_int fd1))) ;;
        if r1 <? 0 then
          cset (set_ofile fd0 NULL) ;;
          cset (set_ofile fd1 NULL) ;;
          fop (fileclose rf) ;;
          fop (fileclose wf) ;;
          ret (-1)
        else ret 0
  end.
End calls.
