(* ===== verification/Proc.v ===== *)
(** * Processes (kernel/proc.c)

    The process table over the rest of the kernel.  A [struct proc *] is an index
    into the table, [NULL = -1]; [me] is [myproc()].  A call that gives up the
    processor is modelled up to [swtch]: [sched] is its last action, and what the
    code does when the process runs again is a definition of its own ([sleep_resume],
    [yield_resume], [forkret]).  The processors and the scheduler's choices are the
    transition system of Sched. *)

From S2P Require Import Prelude KMonad Riscv Mem Kalloc Vm UserMem UserVm Pipe Bytes Sleeplock Bio BlockLayer Fs FsDir File Syscall.

Inductive procstate := UNUSED | USED | SLEEPING | RUNNABLE | RUNNING | ZOMBIE.

#[export] Instance procstate_eq_dec : EqDecision procstate.
Proof. solve_decision. Defined.

(** [p_context] is the pair of [context.ra] and [context.sp]; the other registers
    are only saved and restored by [swtch]. *)
Record proc := Proc {
  p_state : procstate; p_chan : option chan; p_killed : bool; p_xstate : Z; p_pid : Z;
  p_parent : Z;
  p_kstack : Z; p_sz : Z; p_pagetable : Z; p_trapframe : Z; p_context : Z * Z;
  p_ofile : list Z; p_cwd : Z; p_name : list Z
}.

Definition proc0 : proc :=
  Proc UNUSED None false 0 0 NULL 0 0 0 0 (0, 0) (replicate (Z.to_nat NOFILE) NULL) NULL (zeros 16).

Definition set_state v p := Proc v (p_chan p) (p_killed p) (p_xstate p) (p_pid p) (p_parent p) (p_kstack p) (p_sz p) (p_pagetable p) (p_trapframe p) (p_context p) (p_ofile p) (p_cwd p) (p_name p).
Definition set_chan v p := Proc (p_state p) v (p_killed p) (p_xstate p) (p_pid p) (p_parent p) (p_kstack p) (p_sz p) (p_pagetable p) (p_trapframe p) (p_context p) (p_ofile p) (p_cwd p) (p_name p).
Definition set_killed v p := Proc (p_state p) (p_chan p) v (p_xstate p) (p_pid p) (p_parent p) (p_kstack p) (p_sz p) (p_pagetable p) (p_trapframe p) (p_context p) (p_ofile p) (p_cwd p) (p_name p).
Definition set_xstate v p := Proc (p_state p) (p_chan p) (p_killed p) v (p_pid p) (p_parent p) (p_kstack p) (p_sz p) (p_pagetable p) (p_trapframe p) (p_context p) (p_ofile p) (p_cwd p) (p_name p).
Definition set_pid v p := Proc (p_state p) (p_chan p) (p_killed p) (p_xstate p) v (p_parent p) (p_kstack p) (p_sz p) (p_pagetable p) (p_trapframe p) (p_context p) (p_ofile p) (p_cwd p) (p_name p).
Definition set_parent v p := Proc (p_state p) (p_chan p) (p_killed p) (p_xstate p) (p_pid p) v (p_kstack p) (p_sz p) (p_pagetable p) (p_trapframe p) (p_context p) (p_ofile p) (p_cwd p) (p_name p).
Definition set_kstack v p := Proc (p_state p) (p_chan p) (p_killed p) (p_xstate p) (p_pid p) (p_parent p) v (p_sz p) (p_pagetable p) (p_trapframe p) (p_context p) (p_ofile p) (p_cwd p) (p_name p).
Definition set_sz v p := Proc (p_state p) (p_chan p) (p_killed p) (p_xstate p) (p_pid p) (p_parent p) (p_kstack p) v (p_pagetable p) (p_trapframe p) (p_context p) (p_ofile p) (p_cwd p) (p_name p).
Definition set_pagetable v p := Proc (p_state p) (p_chan p) (p_killed p) (p_xstate p) (p_pid p) (p_parent p) (p_kstack p) (p_sz p) v (p_trapframe p) (p_context p) (p_ofile p) (p_cwd p) (p_name p).
Definition set_trapframe v p := Proc (p_state p) (p_chan p) (p_killed p) (p_xstate p) (p_pid p) (p_parent p) (p_kstack p) (p_sz p) (p_pagetable p) v (p_context p) (p_ofile p) (p_cwd p) (p_name p).
Definition set_context v p := Proc (p_state p) (p_chan p) (p_killed p) (p_xstate p) (p_pid p) (p_parent p) (p_kstack p) (p_sz p) (p_pagetable p) (p_trapframe p) v (p_ofile p) (p_cwd p) (p_name p).
Definition set_pofile v p := Proc (p_state p) (p_chan p) (p_killed p) (p_xstate p) (p_pid p) (p_parent p) (p_kstack p) (p_sz p) (p_pagetable p) (p_trapframe p) (p_context p) v (p_cwd p) (p_name p).
Definition set_pcwd v p := Proc (p_state p) (p_chan p) (p_killed p) (p_xstate p) (p_pid p) (p_parent p) (p_kstack p) (p_sz p) (p_pagetable p) (p_trapframe p) (p_context p) (p_ofile p) v (p_name p).
Definition set_name v p := Proc (p_state p) (p_chan p) (p_killed p) (p_xstate p) (p_pid p) (p_parent p) (p_kstack p) (p_sz p) (p_pagetable p) (p_trapframe p) (p_context p) (p_ofile p) (p_cwd p) v.

(** The globals of proc.c and trap.c, and the rest of the kernel. *)
Record kernel (L : Type) := Kernel {
  k_proc : list proc;
  k_nextpid : Z;
  k_initproc : Z;
  k_first : bool; (* the static variable of forkret *)
  k_ticks : Z;
  k_files : files L umach
}.
Arguments Kernel {L}.
Arguments k_proc {L}.
Arguments k_nextpid {L}.
Arguments k_initproc {L}.
Arguments k_first {L}.
Arguments k_ticks {L}.
Arguments k_files {L}.

(** Offsets in [struct trapframe]. *)
Definition TF_kernel_satp := 0.
Definition TF_kernel_sp := 8.
Definition TF_kernel_trap := 16.
Definition TF_epc := 24.
Definition TF_kernel_hartid := 32.
Definition TF_sp := 48.
Definition TF_a0 := 112.
Definition TF_a1 := 120.
Definition TF_a7 := 168.
Definition sizeof_trapframe := 288.

(** The address of [forkret], and the code of the first process. *)
Class KernelText := { forkret_addr : Z }.

Definition initcode : list Z := [
  0x17; 0x05; 0x00; 0x00; 0x13; 0x05; 0x45; 0x02;
  0x97; 0x05; 0x00; 0x00; 0x93; 0x85; 0x35; 0x02;
  0x93; 0x08; 0x70; 0x00; 0x73; 0x00; 0x00; 0x00;
  0x93; 0x08; 0x20; 0x00; 0x73; 0x00; 0x00; 0x00;
  0xef; 0xf0; 0x9f; 0xff; 0x2f; 0x69; 0x6e; 0x69;
  0x74; 0x00; 0x00; 0x24; 0x00; 0x00; 0x00; 0x00;
  0x00; 0x00; 0x00; 0x00 ].

Section state.
Context {L : Type}.

Definition procat (s : kernel L) (p : Z) : proc := nthZ proc0 (k_proc s) p.
Definition set_procs (l : list proc) (s : kernel L) : kernel L :=
  Kernel l (k_nextpid s) (k_initproc s) (k_first s) (k_ticks s) (k_files s).
Definition set_files (f : files L umach) (s : kernel L) : kernel L :=
  Kernel (k_proc s) (k_nextpid s) (k_initproc s) (k_first s) (k_ticks s) f.
Definition upd_proc (p : Z) (f : proc -> proc) (s : kernel L) : kernel L :=
  set_procs (setZ (k_proc s) p (f (procat s p))) s.

(** [p->xxx] and assignments to it. *)
Definition pget {A} (p : Z) (f : proc -> A) : M (kernel L) A := gets (fun s => f (procat s p)).
Definition pset (p : Z) (f : proc -> proc) : M (kernel L) unit := modify (upd_proc p f).

Definition k_usr (s : kernel L) : umach := fs_usr (ft_fs (k_files s)).
Definition set_kusr (u : umach) (s : kernel L) : kernel L :=
  set_files (Files (ft_file (k_files s)) (ft_pipes (k_files s)) (set_usr u (ft_fs (k_files s)))) s.

(** An operation of vm.c or kalloc.c. *)
Definition memop {A} (m : M mach A) : M (kernel L) A :=
  zoom (fun s => u_mach (k_usr s)) (fun x s => set_kusr (set_mach x (k_usr s)) s) m.

(** 64-bit fields of the trapframe. *)
Definition tf_get (p off : Z) : M (kernel L) Z :=
  tf <- pget p p_trapframe ;;
  memop (pte_at (tf + off)).
Definition tf_set (p off v : Z) : M (kernel L) unit :=
  tf <- pget p p_trapframe ;;
  memop (set_pte (tf + off) v).
End state.

(** ** Page tables of processes *)

Section pagetables.
Context `{KernelImage}.

(** [proc_pagetable(p)], with [p->trapframe] as the argument. *)
Definition proc_pagetable (trapframe : Z) : M mach Z :=
  (* An empty page table. *)
  pagetable <- uvmcreate ;;
  if pagetable =? 0 then ret 0
  else
    r <- mappages pagetable TRAMPOLINE PGSIZE trampoline (Z.lor PTE_R PTE_X) ;;
    if r <? 0 then
      uvmfree pagetable 0 ;;
      ret 0
    else
      r <- mappages pagetable TRAPFRAME PGSIZE trapframe (Z.lor PTE_R PTE_W) ;;
      if r <? 0 then
        uvmunmap pagetable TRAMPOLINE 1 false ;;
        uvmfree pagetable 0 ;;
        ret 0
      else ret pagetable.

Definition proc_freepagetable (pagetable sz : Z) : M mach unit :=
  uvmunmap pagetable TRAMPOLINE 1 false ;;
  uvmunmap pagetable TRAPFRAME 1 false ;;
  uvmfree pagetable sz.
End pagetables.

(** ** Sleeping and waking *)

Section sched.
Context {L : Type}.

(** [sched()] up to the [swtch] to the scheduler.  The nesting depth [noff] is the
    number of spin locks held, and interrupts are off while it is positive (Spinlock). *)
Definition sched (me : Z) : M (kernel L) unit :=
  h <- holding (LK_proc me) ;;
  if negb h then panic "sched p->lock"
  else
    noff <- (fun c s => Ok (length (held c)) c s) ;;
    if negb (Nat.eqb noff 1) then panic "sched locks"
    else
      st <- pget me p_state ;;
      if bool_decide (st = RUNNING) then panic "sched running" else ret tt.

(** Give up the CPU for one scheduling round. *)
Definition yield (me : Z) : M (kernel L) unit :=
  acquire (LK_proc me) ;;
  pset me (set_state RUNNABLE) ;;
  sched me.
Definition yield_resume (me : Z) : M (kernel L) unit := release (LK_proc me).

(** Atomically release lock and sleep on chan; reacquires lock when awakened. *)
Definition sleep (me : Z) (ch : chan) (lk : lock) : M (kernel L) unit :=
  acquire (LK_proc me) ;;
  release lk ;;
  pset me (set_chan (Some ch)) ;;
  pset me (set_state SLEEPING) ;;
  sched me.
Definition sleep_resume (me : Z) (lk : lock) : M (kernel L) unit :=
  pset me (set_chan None) ;; (* Tidy up. *)
  release (LK_proc me) ;;
  acquire lk.

(** Wake up all processes sleeping on chan. *)
Definition wakeup_one (me : Z) (ch : chan) (p : Z) : M (kernel L) unit :=
  when negb (p =? me) do (
    acquire (LK_proc p) ;;
    pp <- pget p id ;;
    (when bool_decide (p_state pp = SLEEPING) && bool_decide (p_chan pp = Some ch) do
       pset p (set_state RUNNABLE)) ;;
    release (LK_proc p)).
Definition wakeup (me : Z) (ch : chan) : M (kernel L) unit := mfor (upto NPROC) (wakeup_one me ch).

(** The process [me] as its system calls see it, and the state after they changed it. *)
Definition cur_of (me : Z) (s : kernel L) : cur :=
  let p := procat s me in
  Cur ((fun i => load64 (ram (u_mach (k_usr s))) (p_trapframe p + TF_a0 + 8 * i)) <$> upto 8)
    (p_sz p) (p_ofile p) (p_cwd p).
Definition cur_view (me : Z) (s : kernel L) : sysst L umach :=
  let p := procat s me in
  Sys (k_files (set_kusr (Umach (u_mach (k_usr s)) (p_pagetable p) (p_killed p) (u_tty (k_usr s))) s)) (cur_of me s).
Definition cur_put (me : Z) (x : sysst L umach) (s : kernel L) : kernel L :=
  upd_proc me (fun p => set_pcwd (c_cwd (ss_cur x)) (set_pofile (c_ofile (ss_cur x)) p))
    (set_files (ss_files x) s).

(** An operation run by process [me]: it uses the page table, the kill flag and the
    pid of [me], and its wakeups reach the process table.  When it blocks, [me] has
    gone to sleep. *)
Definition curop {A} (me : Z) (m : M (sysst L umach) A) : M (kernel L) A := fun c s =>
  match m (Ctx (held c) [] (p_pid (procat s me))) (cur_view me s) with
  | Ok a c' x =>
      bind (mfor (reverse (wakes c')) (wakeup me)) (fun _ => ret a)
        (Ctx (held c') (wakes c) (mypid c)) (cur_put me x s)
  | Panic msg => Panic msg
  | Block ch c' x =>
      bind (mfor (reverse (wakes c')) (wakeup me)) (fun _ =>
          pset me (set_chan (Some ch)) ;; pset me (set_state SLEEPING) ;;
          (fun c s => Block ch c s))
        (Ctx (held c') (wakes c) (mypid c)) (cur_put me x s)
  end.
Definition fileop {A} (me : Z) (m : M (files L umach) A) : M (kernel L) A := curop me (fop m).

Definition setkilled (p : Z) : M (kernel L) unit :=
  acquire (LK_proc p) ;;
  pset p (set_killed true) ;;
  release (LK_proc p).

Definition killed (p : Z) : M (kernel L) bool :=
  acquire (LK_proc p) ;;
  k <- pget p p_killed ;;
  release (LK_proc p) ;;
  ret k.

(** Kill the process with the given pid: one slot of the table, and whether it was it. *)
Definition kill_one (pid p : Z) : M (kernel L) bool :=
  acquire (LK_proc p) ;;
  pp <- pget p id ;;
  if p_pid pp =? pid then
    pset p (set_killed true) ;;
    (when bool_decide (p_state pp = SLEEPING) do
       pset p (set_state RUNNABLE)) ;; (* Wake process from sleep(). *)
    release (LK_proc p) ;;
    ret true
  else
    release (LK_proc p) ;;
    ret false.
Fixpoint kill_loop (ps : list Z) (pid : Z) : M (kernel L) Z :=
  match ps with
  | [] => ret (-1)
  | p :: ps' =>
      found <- kill_one pid p ;;
      if found then ret 0 else kill_loop ps' pid
  end.
Definition kill (pid : Z) : M (kernel L) Z := kill_loop (upto NPROC) pid.
End sched.

(** ** Creating and destroying processes *)

Section ops.
Context {L : Type} `{KernelImage} `{KernelText} `{BlockLayer L} `{DevSw umach}.

Definition procinit : M (kernel L) unit :=
  mfor (upto NPROC) (fun p =>
    pset p (set_state UNUSED) ;;
    pset p (set_kstack (KSTACK p))).

Definition allocpid : M (kernel L) Z :=
  acquire LK_pid ;;
  pid <- gets k_nextpid ;;
  modify (fun s => Kernel (k_proc s) (s32 (pid + 1)) (k_initproc s) (k_first s) (k_ticks s) (k_files s)) ;;
  release LK_pid ;;
  ret pid.

(** free a proc structure and the data hanging from it, including user pages. *)
Definition freeproc (p : Z) : M (kernel L) unit :=
  tf <- pget p p_trapframe ;;
  (when negb (tf =? 0) do memop (kfree tf)) ;;
  pset p (set_trapframe 0) ;;
  pt <- pget p p_pagetable ;;
  sz <- pget p p_sz ;;
  (when negb (pt =? 0) do memop (proc_freepagetable pt sz)) ;;
  pset p (set_pagetable 0) ;;
  pset p (set_sz 0) ;;
  pset p (set_pid 0) ;;
  pset p (set_parent NULL) ;;
  pset p (fun q => set_name (setZ (p_name q) 0 0) q) ;;
  pset p (set_chan None) ;;
  pset p (set_killed false) ;;
  pset p (set_xstate 0) ;;
  pset p (set_state UNUSED).

(** The first UNUSED slot, its lock held, or [NULL]. *)
Fixpoint find_unused (ps : list Z) : M (kernel L) Z :=
  match ps with
  | [] => ret NULL
  | p :: ps' =>
      acquire (LK_proc p) ;;
      st <- pget p p_state ;;
      if bool_decide (st = UNUSED) then ret p
      else
        release (LK_proc p) ;;
        find_unused ps'
  end.

(** [allocproc] with the slots [ps] still to look at. *)
Definition allocproc_from (ps : list Z) : M (kernel L) Z :=
  p <- find_unused ps ;;
  if p =? NULL then ret NULL
  else
    pid <- allocpid ;;
    pset p (set_pid pid) ;;
    pset p (set_state USED) ;;
    (* Allocate a trapframe page. *)
    tf <- memop kalloc ;;
    pset p (set_trapframe tf) ;;
    if tf =? 0 then
      freeproc p ;;
      release (LK_proc p) ;;
      ret NULL
    else
      (* An empty user page table. *)
      pt <- memop (proc_pagetable tf) ;;
      pset p (set_pagetable pt) ;;
      if pt =? 0 then
        freeproc p ;;
        release (LK_proc p) ;;
        ret NULL
      else
        ks <- pget p p_kstack ;;
        pset p (set_context (forkret_addr, u64 (ks + PGSIZE))) ;;
        ret p.
Definition allocproc : M (kernel L) Z := allocproc_from (upto NPROC).

Definition INITCODE_NAME : list Z := [105; 110; 105; 116; 99; 111; 100; 101]. (* initcode *)

(** Set up first user process. *)
Definition userinit : M (kernel L) unit :=
  p <- allocproc ;;
  if p =? NULL then panic "userinit: null dereference"
  else
    modify (fun s => Kernel (k_proc s) (k_nextpid s) p (k_first s) (k_ticks s) (k_files s)) ;;
    pt <- pget p p_pagetable ;;
    memop (uvmfirst pt initcode) ;;
    pset p (set_sz PGSIZE) ;;
    tf_set p TF_epc 0 ;;
    tf_set p TF_sp PGSIZE ;;
    pset p (fun q => set_name (safestrcpy (p_name q) (chr INITCODE_NAME) 16) q) ;;
    cwd <- fileop NULL (fsop (namei NULL [SLASH])) ;;
    pset p (set_pcwd cwd) ;;
    pset p (set_state RUNNABLE) ;;
    release (LK_proc p).

(** Grow or shrink user memory by n bytes. *)
Definition growproc (me n : Z) : M (kernel L) Z :=
  sz <- pget me p_sz ;;
  pt <- pget me p_pagetable ;;
  if 0 <? n then
    sz <- memop (uvmalloc pt sz (u64 (sz + n)) PTE_W) ;;
    if sz =? 0 then ret (-1)
    else
      pset me (set_sz sz) ;;
      ret 0
  else if n <? 0 then
    sz <- memop (uvmdealloc pt sz (u64 (sz + n))) ;;
    pset me (set_sz sz) ;;
    ret 0
  else ret 0.

(** Create a new process, copying the parent.  [fork] has three critical sections: the
    first allocates the child, from the slots [ps], and copies the parent under the
    child's lock; the second sets its parent under [wait_lock]; the third makes it
    runnable under its lock. *)
Definition fork_copy (ps : list Z) (me : Z) : M (kernel L) (option (Z * Z)) :=
  np <- allocproc_from ps ;;
  if np =? NULL then ret None
  else
    p <- pget me id ;;
    npt <- pget np p_pagetable ;;
    (* Copy user memory from parent to child. *)
    r <- memop (uvmcopy (p_pagetable p) npt (p_sz p)) ;;
    if r <? 0 then
      freeproc np ;;
      release (LK_proc np) ;;
      ret None
    else
      pset np (set_sz (p_sz p)) ;;
      (* copy saved user registers. *)
      ntf <- pget np p_trapframe ;;
      memop (modify (set_ram (fun m =>
        wr_bytes m ntf (rd_bytes m (p_trapframe p) (Z.to_nat sizeof_trapframe))))) ;;
      (* Cause fork to return 0 in the child. *)
      tf_set np TF_a0 0 ;;
      (* increment reference counts on open file descriptors. *)
      mfor (upto NOFILE) (fun i =>
        let f := nthZ NULL (p_ofile p) i in
        when negb (f =? NULL) do (
          f' <- fileop me (filedup f) ;;
          pset np (fun q => set_pofile (setZ (p_ofile q) i f') q))) ;;
      cwd <- fileop me (fsop (idup (p_cwd p))) ;;
      pset np (set_pcwd cwd) ;;
      pset np (fun q => set_name (safestrcpy (p_name q) (chr (p_name p)) 16) q) ;;
      pid <- pget np p_pid ;;
      release (LK_proc np) ;;
      ret (Some (np, pid)).
Definition fork_parent (me np : Z) : M (kernel L) unit :=
  acquire LK_wait ;;
  pset np (set_parent me) ;;
  release LK_wait.
Definition fork_run (np : Z) : M (kernel L) unit :=
  acquire (LK_proc np) ;;
  pset np (set_state RUNNABLE) ;;
  release (LK_proc np).
Definition fork (me : Z) : M (kernel L) Z :=
  child <- fork_copy (upto NPROC) me ;;
  match child with
  | None => ret (-1)
  | Some (np, pid) =>
      fork_parent me np ;;
      fork_run np ;;
      ret pid
  end.

(** Pass p's abandoned children to init. *)
Definition reparent_one (p pp : Z) : M (kernel L) unit :=
  par <- pget pp p_parent ;;
  when par =? p do (
    init <- gets k_initproc ;;
    pset pp (set_parent init) ;;
    wakeup p (CH_proc init)).
Definition reparent (p : Z) : M (kernel L) unit := mfor (upto NPROC) (reparent_one p).

(** The first part of [exit]: close all open files and release the directory. *)
Definition exit_files (me : Z) : M (kernel L) unit :=
  mfor (upto NOFILE) (fun fd =>
    f <- pget me (fun p => nthZ NULL (p_ofile p) fd) ;;
    when negb (f =? NULL) do (
      fileop me (fileclose f) ;;
      pset me (fun q => set_pofile (setZ (p_ofile q) fd NULL) q))) ;;
  fileop me begin_op' ;;
  cwd <- pget me p_cwd ;;
  fileop me (fsop (iput cwd)) ;;
  fileop me end_op' ;;
  pset me (set_pcwd NULL).

(** The second part of [exit], under [wait_lock], up to the last [sched]. *)
Definition exit_zombie (me status : Z) : M (kernel L) unit :=
  acquire LK_wait ;;
  (* Give any children to init. *)
  reparent me ;;
  (* Parent might be sleeping in wait(). *)
  parent <- pget me p_parent ;;
  wakeup me (CH_proc parent) ;;
  acquire (LK_proc me) ;;
  pset me (set_xstate status) ;;
  pset me (set_state ZOMBIE) ;;
  release LK_wait ;;
  sched me.

(** Exit the current process.  Does not return. *)
Definition exit (me status : Z) : M (kernel L) unit :=
  init <- gets k_initproc ;;
  if me =? init then panic "init exiting"
  else
    exit_files me ;;
    exit_zombie me status.

(** The scan of [wait] for an exited child: [inl r] is its [return r] (the locks are
    released), [inr havekids] the end of the scan. *)
Fixpoint wait_scan (ps : list Z) (me addr : Z) (havekids : bool) : M (kernel L) (Z + bool) :=
  match ps with
  | [] => ret (inr havekids)
  | pp :: ps' =>
      par <- pget pp p_parent ;;
      if negb (par =? me) then wait_scan ps' me addr havekids
      else
        (* make sure the child isn't still in exit() or swtch(). *)
        acquire (LK_proc pp) ;;
        st <- pget pp p_state ;;
        if bool_decide (st = ZOMBIE) then
          (* Found one. *)
          pid <- pget pp p_pid ;;
          xs <- pget pp p_xstate ;;
          pt <- pget me p_pagetable ;;
          r <- (if addr =? 0 then ret 0 else memop (copyout pt addr (put32 (zeros 4) 0 xs))) ;;
          if r <? 0 then
            release (LK_proc pp) ;;
            release LK_wait ;;
            ret (inl (-1))
          else
            freeproc pp ;;
            release (LK_proc pp) ;;
            release LK_wait ;;
            ret (inl pid)
        else
          release (LK_proc pp) ;;
          wait_scan ps' me addr true
  end.

(** One turn of the [for(;;)] of [wait]: its result, or [None] when it has gone to
    sleep; it goes on with [sleep_resume me LK_wait] and another turn. *)
Definition wait_turn (me addr : Z) : M (kernel L) (option Z) :=
  r <- wait_scan (upto NPROC) me addr false ;;
  match r with
  | inl v => ret (Some v)
  | inr havekids =>
      (* No point waiting if we don't have any children. *)
      k <- (if havekids then killed me else ret true) ;;
      if negb havekids || k then
        release LK_wait ;;
        ret (Some (-1))
      else
        (* Wait for a child to exit. *)
        sleep me (CH_proc me) LK_wait ;;
        ret None
  end.
Definition wait (me addr : Z) : M (kernel L) (option Z) :=
  acquire LK_wait ;;
  wait_turn me addr.
Definition wait_resume (me addr : Z) : M (kernel L) (option Z) :=
  sleep_resume me LK_wait ;;
  wait_turn me addr.

(** A fork child's very first scheduling by scheduler() will swtch to forkret; what
    follows is the return to user space. *)
Definition forkret (me : Z) : M (kernel L) unit :=
  release (LK_proc me) ;;
  first <- gets k_first ;;
  when first do (
    modify (fun s => Kernel (k_proc s) (k_nextpid s) (k_initproc s) false (k_ticks s) (k_files s)) ;;
    fileop me (fsop (fsinit ROOTDEV))).

(** One turn of the inner loop of [scheduler]: [true] when it has
    switched to process [p] (whose lock is then held). *)
Definition scheduler_try (p : Z) : M (kernel L) bool :=
  acquire (LK_proc p) ;;
  st <- pget p p_state ;;
  if bool_decide (st = RUNNABLE) then
    pset p (set_state RUNNING) ;;
    ret true
  else
    release (LK_proc p) ;;
    ret false.
(** The process has switched back. *)
Definition scheduler_back (p : Z) : M (kernel L) unit := release (LK_proc p).

(** The lines [procdump] prints, as (pid, state, name). *)
Definition procdump (s : kernel L) : list (Z * procstate * list Z) :=
  (fun p => (p_pid p, p_state p, p_name p)) <$> filter (fun p => p_state p <> UNUSED) (k_proc s).
End ops.
