(* ===== verification/Exec.v ===== *)
(** * exec (kernel/exec.c) and [sys_exec]

    Loading an ELF program into a fresh page table and committing to it.  The
    argument strings are byte lists without their NUL. *)

From S2P Require Import Prelude KMonad Riscv Mem Kalloc Vm UserMem UserVm Pipe Bytes Sleeplock Bio BlockLayer Fs FsDir File Syscall Proc.

(** ** kernel/elf.h *)

Definition ELF_MAGIC := 0x464C457F.
Definition sizeof_elfhdr := 64.
Definition sizeof_proghdr := 56.
Definition ELF_PROG_LOAD := 1.

Definition elf_magic (d : list Z) : Z := get32 d 0.
Definition elf_entry (d : list Z) : Z := getn 8 d 24.
Definition elf_phoff (d : list Z) : Z := getn 8 d 32.
Definition elf_phnum (d : list Z) : Z := get16 d 56.

Record proghdr := Proghdr { ph_type : Z; ph_flags : Z; ph_off : Z; ph_vaddr : Z; ph_filesz : Z; ph_memsz : Z }.
Definition decode_ph (d : list Z) : proghdr :=
  Proghdr (get32 d 0) (get32 d 4) (getn 8 d 8) (getn 8 d 16) (getn 8 d 32) (getn 8 d 40).

Definition flags2perm (flags : Z) : Z :=
  let perm := if negb (Z.land flags 1 =? 0) then PTE_X else 0 in
  if negb (Z.land flags 2 =? 0) then Z.lor perm PTE_W else perm.

(** The tests on a loadable segment. *)
Definition ph_bad (ph : proghdr) : bool :=
  (ph_memsz ph <? ph_filesz ph)
  || (u64 (ph_vaddr ph + ph_memsz ph) <? ph_vaddr ph)
  || negb (ph_vaddr ph mod PGSIZE =? 0).

(** The part of the path after the last slash: [last]. *)
Fixpoint basename (last s : list Z) : list Z :=
  match s with
  | [] => last
  | c :: s' => basename (if c =? SLASH then s' else last) s'
  end.

(** Where the arguments go: the stack pointer after pushing a string, and after
    pushing the array of [n] pointers. *)
Definition push_sp (sp n : Z) : Z :=
  let sp := u64 (sp - n) in
  sp - sp mod 16.

Section exec.
Context {L : Type} `{KernelImage} `{KernelText} `{BlockLayer L} `{DevSw umach}.

(** Load a program segment into pagetable at virtual address va. *)
Fixpoint loadseg_loop (fuel : nat) (me pagetable va ip offset sz i : Z) : M (kernel L) Z :=
  if sz <=? i then ret 0
  else
    match fuel with
    | O => panic "loadseg: out of fuel"
    | S f =>
        pa <- memop (walkaddr pagetable (u64 (va + i))) ;;
        if pa =? 0 then panic "loadseg: address should exist"
        else
          let n := if sz - i <? PGSIZE then sz - i else PGSIZE in
          r <- fileop me (fsop (readi ip KDst (u32 (offset + i)) n)) ;;
          memop (modify (set_ram (fun m => wr_bytes m pa (snd r)))) ;;
          if negb (fst r =? n) then ret (-1)
          else loadseg_loop f me pagetable va ip offset sz (u32 (i + PGSIZE))
    end.
Definition loadseg (me pagetable va ip offset sz : Z) : M (kernel L) Z :=
  loadseg_loop (Z.to_nat (sz / PGSIZE + 1)) me pagetable va ip offset sz 0.

(** The loop over the program headers, [i] still to go: [inl sz] is [goto bad] with
    that size, [inr sz] the end of the loop. *)
Fixpoint load_segments (n : nat) (me pagetable ip off sz : Z) : M (kernel L) (Z + Z) :=
  match n with
  | O => ret (inr sz)
  | S n' =>
      r <- fileop me (fsop (readi ip KDst (u32 off) sizeof_proghdr)) ;;
      if negb (fst r =? sizeof_proghdr) then ret (inl sz)
      else
        let ph := decode_ph (snd r) in
        if negb (ph_type ph =? ELF_PROG_LOAD) then
          load_segments n' me pagetable ip (s32 (off + sizeof_proghdr)) sz
        else if ph_bad ph then ret (inl sz)
        else
          sz1 <- memop (uvmalloc pagetable sz (u64 (ph_vaddr ph + ph_memsz ph)) (flags2perm (ph_flags ph))) ;;
          if sz1 =? 0 then ret (inl sz)
          else
            r <- loadseg me pagetable (ph_vaddr ph) ip (u32 (ph_off ph)) (u32 (ph_filesz ph)) ;;
            if r <? 0 then ret (inl sz1)
            else load_segments n' me pagetable ip (s32 (off + sizeof_proghdr)) sz1
  end.

(** Push argument strings: the new [sp] and [ustack], or [None] for [goto bad]. *)
Fixpoint push_args (argv : list (list Z)) (pagetable argc sp stackbase : Z) (ustack : list Z)
    : M (kernel L) (option (Z * list Z)) :=
  match argv with
  | [] => ret (Some (sp, ustack))
  | a :: argv' =>
      if MAXARG <=? argc then ret None
      else
        let sp := push_sp sp (Z.of_nat (length a) + 1) in
        if sp <? stackbase then ret None
        else
          r <- memop (copyout pagetable sp (a ++ [0])) ;;
          if r <? 0 then ret None
          else push_args argv' pagetable (argc + 1) sp stackbase (ustack ++ [sp])
  end.

(** The bytes of an array of uint64. *)
Definition encode64 (l : list Z) : list Z := mjoin ((fun v => putn 8 (zeros 8) 0 v) <$> l).

(** The two exits through [bad], after and before [ip] is released. *)
Definition exec_bad (pagetable sz : Z) : M (kernel L) Z :=
  (when negb (pagetable =? 0) do memop (proc_freepagetable pagetable sz)) ;;
  ret (-1).
Definition exec_bad_ip (me pagetable sz ip : Z) : M (kernel L) Z :=
  (when negb (pagetable =? 0) do memop (proc_freepagetable pagetable sz)) ;;
  fileop me (fsop (iunlockput ip)) ;;
  fileop me end_op' ;;
  ret (-1).

(** [exec] from the allocation of the stack on. *)
Definition exec_commit (me : Z) (path : list Z) (argv : list (list Z)) (pagetable sz entry : Z)
    : M (kernel L) Z :=
  oldsz <- pget me p_sz ;;
  (* Allocate two pages at the next page boundary. *)
  let sz := PGROUNDUP sz in
  sz1 <- memop (uvmalloc pagetable sz (u64 (sz + 2 * PGSIZE)) PTE_W) ;;
  if sz1 =? 0 then exec_bad pagetable sz
  else
    let sz := sz1 in
    memop (uvmclear pagetable (u64 (sz - 2 * PGSIZE))) ;;
    let stackbase := u64 (sz - PGSIZE) in
    (* Push argument strings, prepare rest of stack in ustack. *)
    r <- push_args argv pagetable 0 sz stackbase [] ;;
    match r with
    | None => exec_bad pagetable sz
    | Some (sp, ustack) =>
        let argc := Z.of_nat (length argv) in
        (* push the array of argv[] pointers. *)
        let sp := push_sp sp ((argc + 1) * 8) in
        if sp <? stackbase then exec_bad pagetable sz
        else
          r <- memop (copyout pagetable sp (encode64 (ustack ++ [0]))) ;;
          if r <? 0 then exec_bad pagetable sz
          else
            tf_set me TF_a1 sp ;;
            (* Save program name for debugging. *)
            pset me (fun p => set_name (safestrcpy (p_name p) (chr (basename path path)) 16) p) ;;
            (* Commit to the user image. *)
            oldpagetable <- pget me p_pagetable ;;
            pset me (set_pagetable pagetable) ;;
            pset me (set_sz sz) ;;
            tf_set me TF_epc entry ;;
            tf_set me TF_sp sp ;;
            memop (proc_freepagetable oldpagetable oldsz) ;;
            ret argc
    end.

Definition exec (me : Z) (path : list Z) (argv : list (list Z)) : M (kernel L) Z :=
  fileop me begin_op' ;;
  cwd <- pget me p_cwd ;;
  ip <- fileop me (fsop (namei cwd path)) ;;
  if ip =? NULL then
    fileop me end_op' ;;
    ret (-1)
  else
    fileop me (fsop (ilock ip)) ;;
    (* Check ELF header *)
    r <- fileop me (fsop (readi ip KDst 0 sizeof_elfhdr)) ;;
    if negb (fst r =? sizeof_elfhdr) then exec_bad_ip me 0 0 ip
    else
      let elf := snd r in
      if negb (elf_magic elf =? ELF_MAGIC) then exec_bad_ip me 0 0 ip
      else
        tf <- pget me p_trapframe ;;
        pagetable <- memop (proc_pagetable tf) ;;
        if pagetable =? 0 then exec_bad_ip me 0 0 ip
        else
          (* Load program into memory. *)
          r <- load_segments (Z.to_nat (elf_phnum elf)) me pagetable ip (s32 (elf_phoff elf)) 0 ;;
          match r with
          | inl sz => exec_bad_ip me pagetable sz ip
          | inr sz =>
              fileop me (fsop (iunlockput ip)) ;;
              fileop me end_op' ;;
              exec_commit me path argv pagetable sz (elf_entry elf)
          end.

(** ** kernel/sysfile.c *)

(** The loop of [sys_exec] that fetches the arguments: the pages it allocated for them
    and, unless it went to [bad], the strings it put there. *)
Fixpoint fetch_args (fuel : nat) (me uargv i : Z) (pgs : list Z) (argv : list (list Z))
    : M (kernel L) (list Z * option (list (list Z))) :=
  match fuel with
  | O => ret (pgs, None) (* i >= NELEM(argv) *)
  | S f =>
      a <- curop me (fetchaddr (u64 (uargv + 8 * i))) ;;
      match a with
      | None => ret (pgs, None)
      | Some uarg =>
          if uarg =? 0 then ret (pgs, Some argv)
          else
            pg <- memop kalloc ;;
            if pg =? 0 then ret (pgs, None)
            else
              r <- curop me (fetchstr uarg PGSIZE) ;;
              match r with
              | None => ret (pgs ++ [pg], None)
              | Some str => fetch_args f me uargv (i + 1) (pgs ++ [pg]) (argv ++ [str])
              end
      end
  end.

Definition sys_exec (me : Z) : M (kernel L) Z :=
  uargv <- curop me (argaddr 1) ;;
  path <- curop me (argstr 0 MAXPATH) ;;
  match path with
  | None => ret (-1)
  | Some path =>
      r <- fetch_args (Z.to_nat MAXARG) me uargv 0 [] [] ;;
      let '(pgs, argv) := r in
      v <- match argv with
           | None => ret (-1)
           | Some argv => exec me path argv
           end ;;
      mfor pgs (fun pg => memop (kfree pg)) ;;
      ret v
  end.
End exec.
