(* ===== verification/Kernel.v ===== *)
(** * The system call dispatcher and the process system calls

    kernel/syscall.c ([syscall]) and kernel/sysproc.c. *)

From S2P Require Import Prelude KMonad Riscv Mem Kalloc Vm UserMem Uart Pipe Console Printf UserVm Bytes Sleeplock Bio BlockLayer Fs FsDir File Syscall Sysfile Proc Exec.

(** ** kernel/syscall.h *)

Definition SYS_fork := 1.
Definition SYS_exit := 2.
Definition SYS_wait := 3.
Definition SYS_pipe := 4.
Definition SYS_read := 5.
Definition SYS_kill := 6.
Definition SYS_exec := 7.
Definition SYS_fstat := 8.
Definition SYS_chdir := 9.
Definition SYS_dup := 10.
Definition SYS_getpid := 11.
Definition SYS_sbrk := 12.
Definition SYS_sleep := 13.
Definition SYS_uptime := 14.
Definition SYS_open := 15.
Definition SYS_write := 16.
Definition SYS_mknod := 17.
Definition SYS_unlink := 18.
Definition SYS_link := 19.
Definition SYS_mkdir := 20.
Definition SYS_close := 21.

(** What a system call did: returned a value, did not return ([exit]), or went to
    sleep on a channel (a pipe or a device with a count of bytes done; the clock, with
    the starting tick; [wait]). *)
Inductive sysret :=
| Ret (v : Z)
| Gone
| Sleeping (ch : chan) (i : Z).

(** The value of an [int] returned as uint64. *)
Definition ret_int (v : Z) : sysret := Ret (u64 v).
Definition of_outcome (o : outcome) : sysret :=
  match o with
  | Done r => ret_int r
  | Asleep ch i => Sleeping ch i
  end.

(** ** The console as the kernel sees it *)

Section tty.
Context {L : Type}.

Definition k_tty (k : kernel L) : tty := u_tty (k_usr k).
Definition set_ktty (t : tty) (k : kernel L) : kernel L := set_kusr (set_tty t (k_usr k)) k.

Definition kprintf (fmt : list Z) (ap : list arg) : M (kernel L) unit :=
  zoom (fun k => Pr true (k_tty k)) (fun x k => set_ktty (pr_tty x) k) (printf (Some fmt) ap).
End tty.

Section syscalls.
Context {L : Type} `{KernelImage} `{KernelText} `{BlockLayer L} `{DevSw umach}.

Definition sys_exit (me : Z) : M (kernel L) sysret :=
  n <- curop me (argint 0) ;;
  exit me n ;;
  ret Gone.

Definition sys_getpid (me : Z) : M (kernel L) sysret :=
  pid <- pget me p_pid ;;
  ret (ret_int pid).

Definition sys_fork (me : Z) : M (kernel L) sysret :=
  pid <- fork me ;;
  ret (ret_int pid).

Definition sys_wait (me : Z) : M (kernel L) sysret :=
  p <- curop me (argaddr 0) ;;
  r <- wait me p ;;
  match r with
  | Some v => ret (ret_int v)
  | None => ret (Sleeping (CH_proc me) 0)
  end.

Definition sys_sbrk (me : Z) : M (kernel L) sysret :=
  n <- curop me (argint 0) ;;
  addr <- pget me p_sz ;;
  r <- growproc me n ;;
  if r <? 0 then ret (ret_int (-1)) else ret (Ret addr).

(** The test of the loop of [sys_sleep]: [ticks - ticks0 < n], in unsigned arithmetic. *)
Definition sleep_more (ticks ticks0 n : Z) : bool := u32 (ticks - ticks0) <? u32 n.

(** One turn of the loop of [sys_sleep], with [tickslock] held. *)
Definition sys_sleep_turn (me n ticks0 : Z) : M (kernel L) sysret :=
  t <- gets k_ticks ;;
  if sleep_more t ticks0 n then
    k <- killed me ;;
    if k then
      release LK_ticks ;;
      ret (ret_int (-1))
    else
      sleep me CH_ticks LK_ticks ;;
      ret (Sleeping CH_ticks ticks0)
  else
    release LK_ticks ;;
    ret (Ret 0).
Definition sys_sleep (me : Z) : M (kernel L) sysret :=
  n <- curop me (argint 0) ;;
  acquire LK_ticks ;;
  ticks0 <- gets k_ticks ;;
  sys_sleep_turn me n ticks0.
Definition sys_sleep_resume (me n ticks0 : Z) : M (kernel L) sysret :=
  sleep_resume me LK_ticks ;;
  sys_sleep_turn me n ticks0.

Definition sys_kill (me : Z) : M (kernel L) sysret :=
  pid <- curop me (argint 0) ;;
  r <- kill pid ;;
  ret (ret_int r).

Definition sys_uptime (me : Z) : M (kernel L) sysret :=
  acquire LK_ticks ;;
  xticks <- gets k_ticks ;;
  release LK_ticks ;;
  ret (Ret xticks).

Definition int_call (me : Z) (m : M (sysst L umach) Z) : M (kernel L) sysret :=
  v <- curop me m ;;
  ret (ret_int v).
Definition io_call (me : Z) (m : M (sysst L umach) outcome) : M (kernel L) sysret :=
  o <- curop me m ;;
  (match o with
   | Done _ => ret tt
   | Asleep ch _ => pset me (set_chan (Some ch)) ;; pset me (set_state SLEEPING)
   end) ;;
  ret (of_outcome o).

(** The array [syscalls], mapping syscall numbers to the functions that handle them. *)
Definition syscalls (me num : Z) : option (M (kernel L) sysret) :=
  if num =? SYS_fork then Some (sys_fork me)
  else if num =? SYS_exit then Some (sys_exit me)
  else if num =? SYS_wait then Some (sys_wait me)
  else if num =? SYS_pipe then Some (int_call me sys_pipe)
  else if num =? SYS_read then Some (io_call me sys_read)
  else if num =? SYS_kill then Some (sys_kill me)
  else if num =? SYS_exec then Some (v <- sys_exec me ;; ret (ret_int v))
  else if num =? SYS_fstat then Some (int_call me sys_fstat)
  else if num =? SYS_chdir then Some (int_call me sys_chdir)
  else if num =? SYS_dup then Some (int_call me sys_dup)
  else if num =? SYS_getpid then Some (sys_getpid me)
  else if num =? SYS_sbrk then Some (sys_sbrk me)
  else if num =? SYS_sleep then Some (sys_sleep me)
  else if num =? SYS_uptime then Some (sys_uptime me)
  else if num =? SYS_open then Some (int_call me sys_open)
  else if num =? SYS_write then Some (io_call me sys_write)
  else if num =? SYS_mknod then Some (int_call me sys_mknod)
  else if num =? SYS_unlink then Some (int_call me sys_unlink)
  else if num =? SYS_link then Some (int_call me sys_link)
  else if num =? SYS_mkdir then Some (int_call me sys_mkdir)
  else if num =? SYS_close then Some (int_call me sys_close)
  else None.

(** Use num to lookup the system call function for num, call it, and store its
    return value in p->trapframe->a0. *)
Definition syscall (me : Z) : M (kernel L) sysret :=
  a7 <- tf_get me TF_a7 ;;
  match syscalls me (s32 a7) with
  | Some call =>
      r <- call ;;
      (match r with Ret v => tf_set me TF_a0 v | _ => ret tt end) ;;
      ret r
  | None =>
      pid <- pget me p_pid ;;
      name <- pget me p_name ;;
      kprintf (str "%d %s: unknown sys call %d" ++ [10]) [AInt pid; AStr (Some (cstr name)); AInt (s32 a7)] ;;
      tf_set me TF_a0 (u64 (-1)) ;;
      ret (Ret (u64 (-1)))
  end.
End syscalls.
