(* ===== verification/Sched.v ===== *)
(** * Scheduling of processes on several processors

    The operations of Proc seen through the fields that scheduling depends on, the
    transition system of processors that run them, and its invariant: a process runs
    on one processor, pids identify processes, and a parent never sleeps in [wait]
    while it has a zombie child. *)

From S2P Require Import Prelude KMonad Riscv Mem Kalloc Vm UserMem UserVm Pipe Bytes Sleeplock Bio BlockLayer Fs FsDir File Syscall Proc Exec.

(** The fields of a process that [p->lock] and [wait_lock] protect. *)
Record slot := Slot {
  sl_state : procstate; sl_chan : option chan; sl_killed : bool; sl_xstate : Z;
  sl_pid : Z; sl_parent : Z
}.
Definition slot_of (p : proc) : slot :=
  Slot (p_state p) (p_chan p) (p_killed p) (p_xstate p) (p_pid p) (p_parent p).
Definition sl_set_state st (x : slot) : slot :=
  Slot st (sl_chan x) (sl_killed x) (sl_xstate x) (sl_pid x) (sl_parent x).
Definition sl_set_parent q (x : slot) : slot :=
  Slot (sl_state x) (sl_chan x) (sl_killed x) (sl_xstate x) (sl_pid x) q.

Section table.
Context {L : Type}.
Implicit Types (s : kernel L) (p q me : Z).

Definition sl s p : slot := slot_of (procat s p).

Definition wf_table s : Prop := length (k_proc s) = Z.to_nat NPROC.
Definition valid p : Prop := 0 <= p < NPROC.

Lemma wf_upd p f s : wf_table s -> wf_table (upd_proc p f s).
Proof. unfold wf_table, upd_proc. cbn. by rewrite length_setZ. Qed.

Lemma procat_upd p f s q :
  wf_table s -> valid p -> valid q ->
  procat (upd_proc p f s) q = if decide (p = q) then f (procat s p) else procat s q.
Proof.
  intros Hw Hp Hq. unfold procat, upd_proc, wf_table, valid in *. cbn.
  apply nthZ_setZ; [|lia]. rewrite Hw. plia.
Qed.

Lemma sl_upd p f s q :
  wf_table s -> valid p -> valid q ->
  sl (upd_proc p f s) q = if decide (p = q) then slot_of (f (procat s p)) else sl s q.
Proof. intros. unfold sl. rewrite procat_upd by done. by case_decide. Qed.

Lemma sl_procs s s' : k_proc s' = k_proc s -> forall p, sl s' p = sl s p.
Proof. intros E p. unfold sl, procat. by rewrite E. Qed.
End table.
#[global] Arguments sl : simpl never.

(** ** wakeup *)

Section wakeup.
Context {L : Type}.
Implicit Types (s : kernel L) (p q me : Z).

Definition wake_slot ch (x : slot) : slot :=
  if bool_decide (sl_state x = SLEEPING) && bool_decide (sl_chan x = Some ch)
  then sl_set_state RUNNABLE x else x.

(** The state after some of the processes other than [me] have been woken. *)
Record woken (me : Z) (ch : chan) (ps : list Z) s s' : Prop := {
  wo_wf : wf_table s';
  wo_next : k_nextpid s' = k_nextpid s;
  wo_init : k_initproc s' = k_initproc s;
  wo_files : k_files s' = k_files s;
  wo_ticks : k_ticks s' = k_ticks s;
  wo_sl q : valid q ->
    sl s' q = if decide (q ∈ ps /\ q <> me) then wake_slot ch (sl s q) else sl s q
}.

Lemma woken_refl me ch s : wf_table s -> woken me ch [] s s.
Proof. intros. by split. Qed.

(** Process locks other than that of [me] are free. *)
Definition free_procs (me : Z) (c : ctx) : Prop := forall p, valid p -> p <> me -> LK_proc p ∉ held c.

Lemma wakeup_one_spec me ch p c s :
  wf_table s -> valid p -> free_procs me c ->
  wp (wakeup_one me ch p) c s (fun _ c' s' => c' = c /\ woken me ch [p] s s').
Proof.
  intros Hw Hp Hf. unfold wakeup_one. destruct (p =? me) eqn:E; bool_spec; cbn [negb].
  { apply wp_ret. split; [done|]. split; try done. intros q _.
    rewrite decide_False; [done|]. intros [?%list_elem_of_singleton ?]. lia. }
  assert (Hl : LK_proc p ∉ held c) by (by apply Hf).
  apply wp_bind, wp_acquire; [done|].
  apply wp_bind, wp_gets. cbn [id]. apply wp_bind.
  set (b := bool_decide _ && bool_decide _).
  assert (Hw' : woken me ch [p] s (if b then upd_proc p (set_state RUNNABLE) s else s)).
  { destruct b eqn:Eb; subst b; split; try done.
    - by apply wf_upd.
    - intros q Hq. rewrite sl_upd by done. unfold wake_slot.
      destruct (decide (p = q)) as [<-|Hn].
      + rewrite decide_True by (split; [by left|done]). unfold sl. cbn.
        by rewrite Eb.
      + rewrite decide_False; [done|]. intros [?%list_elem_of_singleton _]. done.
    - intros q Hq. destruct (decide (q ∈ [p] /\ q <> me)) as [[->%list_elem_of_singleton _]|]; [|reflexivity].
      unfold wake_slot, sl. cbn. by rewrite Eb. }
  assert (Hend : forall s', woken me ch [p] s s' -> wp (release (LK_proc p)) (locked (LK_proc p) c) s'
     (fun _ c' s' => c' = c /\ woken me ch [p] s s')).
  { intros s' Hs'. eapply (wp_release _ _ c); [done|done|]. cbn. by rewrite ctx_eta. }
  destruct b; [apply wp_modify|apply wp_ret]; by apply Hend.
Qed.

Lemma wake_slot_idemp ch x : wake_slot ch (wake_slot ch x) = wake_slot ch x.
Proof.
  unfold wake_slot.
  destruct (bool_decide (sl_state x = SLEEPING) && bool_decide (sl_chan x = Some ch)) eqn:E;
    [done|by rewrite E].
Qed.

Lemma woken_trans me ch ps1 ps2 s1 s2 s3 :
  woken me ch ps1 s1 s2 -> woken me ch ps2 s2 s3 -> woken me ch (ps1 ++ ps2) s1 s3.
Proof.
  intros H1 H2. split.
  - apply H2.
  - by rewrite (wo_next _ _ _ _ _ H2), (wo_next _ _ _ _ _ H1).
  - by rewrite (wo_init _ _ _ _ _ H2), (wo_init _ _ _ _ _ H1).
  - by rewrite (wo_files _ _ _ _ _ H2), (wo_files _ _ _ _ _ H1).
  - by rewrite (wo_ticks _ _ _ _ _ H2), (wo_ticks _ _ _ _ _ H1).
  - intros q Hq. rewrite (wo_sl _ _ _ _ _ H2 q Hq), (wo_sl _ _ _ _ _ H1 q Hq).
    repeat case_decide; try done; try (by rewrite wake_slot_idemp); set_solver.
Qed.

Lemma wakeup_spec me ch c s :
  wf_table s -> free_procs me c ->
  wp (wakeup me ch) c s (fun _ c' s' => c' = c /\ woken me ch (upto NPROC) s s').
Proof.
  intros Hw Hf. unfold wakeup.
  assert (Hall : forall ps s, wf_table s -> (forall p, p ∈ ps -> valid p) ->
    wp (mfor ps (wakeup_one me ch)) c s (fun _ c' s' => c' = c /\ woken me ch ps s s')).
  { clear s Hw. induction ps as [|p ps IH]; intros s Hw Hps; cbn [mfor].
    - apply wp_ret. split; [done|]. by apply woken_refl.
    - apply wp_bind. eapply wp_mono; [apply wakeup_one_spec; [done|apply Hps; by left|done]|].
      cbn. intros _ c1 s1 [-> H1]. eapply wp_mono; [apply IH|].
      + apply H1.
      + intros q Hq. apply Hps. by right.
      + cbn. intros _ c2 s2 [-> H2]. split; [done|]. by apply (woken_trans _ _ [p] _ _ s1). }
  apply Hall; [done|]. intros p ?%elem_of_upto. done.
Qed.
End wakeup.

(** ** Operations that leave the scheduling of others alone

    Such an operation of process [me] may wake processes, but changes nothing else
    of what [p->lock] and [wait_lock] protect. *)

Section quiet.
Context {L : Type}.
Implicit Types (s : kernel L) (p q me : Z).

Record quiet (me : Z) s s' : Prop := {
  q_len : length (k_proc s') = length (k_proc s);
  q_next : k_nextpid s' = k_nextpid s;
  q_init : k_initproc s' = k_initproc s;
  q_sl : wf_table s -> forall q, valid q ->
    sl s' q = sl s q
    \/ q <> me /\ sl_state (sl s q) = SLEEPING /\ sl s' q = sl_set_state RUNNABLE (sl s q)
}.

#[export] Instance quiet_preorder me : PreOrder (quiet me).
Proof.
  split.
  - intros s. split; auto.
  - intros s1 s2 s3 H1 H2. split.
    + by rewrite (q_len _ _ _ H2), (q_len _ _ _ H1).
    + by rewrite (q_next _ _ _ H2), (q_next _ _ _ H1).
    + by rewrite (q_init _ _ _ H2), (q_init _ _ _ H1).
    + intros Hw q Hq.
      assert (Hw2 : wf_table s2) by (unfold wf_table; by rewrite (q_len _ _ _ H1)).
      destruct (q_sl _ _ _ H1 Hw q Hq) as [E1|(? & ? & E1)];
        destruct (q_sl _ _ _ H2 Hw2 q Hq) as [E2|(? & Es & E2)].
      * left. congruence.
      * right. rewrite <- E1. done.
      * right. rewrite E2. done.
      * rewrite E1 in Es. done.
Qed.

Lemma quiet_wf me s s' : quiet me s s' -> wf_table s -> wf_table s'.
Proof. intros H Hw. unfold wf_table. by rewrite (q_len _ _ _ H). Qed.

(** An assignment to fields that are private to the process. *)
Lemma quiet_upd me p f s :
  valid p -> (forall x, slot_of (f x) = slot_of x) -> quiet me s (upd_proc p f s).
Proof.
  intros Hp Hf. split; try done.
  - cbn. apply length_setZ.
  - intros Hw q Hq. left. rewrite sl_upd by done. case_decide; subst; [apply Hf|done].
Qed.

Lemma quiet_set_files me f s : quiet me s (set_files f s).
Proof. split; try done. by left. Qed.

Definition quietly {A} (me : Z) (m : M (kernel L) A) : Prop := forall s, post m s (fun _ s' => quiet me s s').

Lemma quietly_bind {A B} me (m : M (kernel L) A) (k : A -> M (kernel L) B) :
  quietly me m -> (forall a, quietly me (k a)) -> quietly me (bind m k).
Proof.
  intros Hm Hk s. apply post_bind. eapply post_mono; [apply Hm|]. cbn. intros a s1 H1.
  eapply post_mono; [apply Hk|]. cbn. intros b s2 H2. by etransitivity.
Qed.

Lemma quietly_ret {A} me (a : A) : quietly me (ret a).
Proof. intros s. by apply post_ret. Qed.
Lemma quietly_gets {A} me (f : kernel L -> A) : quietly me (gets f).
Proof. intros s. by apply post_gets. Qed.
Lemma quietly_pget {A} me p (f : proc -> A) : quietly me (pget p f).
Proof. intros s. by apply post_gets. Qed.
Lemma quietly_panic {A} me msg : quietly me (panic (A:=A) msg).
Proof. intros s. by apply post_panic. Qed.
Lemma quietly_acquire me l : quietly me (acquire l).
Proof. intros s. by apply post_acquire. Qed.
Lemma quietly_release me l : quietly me (release l).
Proof. intros s. by apply post_release. Qed.
Lemma quietly_mfor {B} me (l : list B) body :
  (forall x, x ∈ l -> quietly me (body x)) -> quietly me (mfor l body).
Proof.
  induction l as [|x l IH]; intros Hb; cbn; [apply quietly_ret|].
  apply quietly_bind; [apply Hb; by left|]. intros _. apply IH. intros y Hy. apply Hb. by right.
Qed.
Lemma quietly_pset me p f :
  valid p -> (forall x, slot_of (f x) = slot_of x) -> quietly me (pset p f).
Proof. intros Hp Hf s. apply post_modify. by apply quiet_upd. Qed.
Lemma quietly_memop {A} me (m : M mach A) : quietly me (memop m).
Proof.
  intros s c a c' s' H. unfold memop, zoom in H.
  destruct (m c _) as [a1 c1 m1| |]; simplify_eq. apply quiet_set_files.
Qed.

Lemma quietly_wakeup_one me ch p : valid p -> quietly me (wakeup_one me ch p).
Proof.
  intros Hp s c [] c' s' H.
  unfold wakeup_one, acquire, release, bind, pget, gets, pset, modify, ret in H.
  destruct (p =? me) eqn:E; bool_spec; cbn in H; [simplify_eq; reflexivity|].
  case_decide as Hl; [discriminate H|]. cbn in H. unfold id in H.
  destruct (bool_decide _ && bool_decide _) eqn:Eb; cbn in H.
  2: { case_decide; [|discriminate H]. simplify_eq. reflexivity. }
  case_decide as Hl2; [|discriminate H]. simplify_eq.
  split; try done; [cbn; apply length_setZ|]. intros Hw q Hq.
  rewrite sl_upd by done. destruct (decide (p = q)) as [<-|]; [|by left].
  right. apply andb_true_iff in Eb as [Es%bool_decide_eq_true _]. done.
Qed.

Lemma quietly_wakeup me ch : quietly me (wakeup me ch).
Proof. apply quietly_mfor. intros p Hp%elem_of_upto. by apply quietly_wakeup_one. Qed.

Lemma quietly_mfor_wakeup me chs : quietly me (mfor chs (wakeup me)).
Proof. apply quietly_mfor. intros ch _. apply quietly_wakeup. Qed.

(** Also before the first process runs, when [myproc()] is null. *)
Lemma quiet_cur_put me x s : me < NPROC -> quiet me s (cur_put me x s).
Proof.
  intros Hme. unfold cur_put. etransitivity; [apply (quiet_set_files _ (ss_files x))|].
  replace (upd_proc me _ _) with (upd_proc (Z.max 0 me)
    (fun y => set_pcwd (c_cwd (ss_cur x)) (set_pofile (c_ofile (ss_cur x)) y)) (set_files (ss_files x) s))
    by (unfold upd_proc, procat, setZ, nthZ; by replace (Z.to_nat (Z.max 0 me)) with (Z.to_nat me) by lia).
  apply quiet_upd; [|done]. unfold valid. plia.
Qed.

Lemma quietly_curop_lt {A} me (m : M (sysst L umach) A) : me < NPROC -> quietly me (curop me m).
Proof.
  intros Hme s c a c' s' H. unfold curop in H.
  destruct (m _ (cur_view me s)) as [a1 c1 x| |ch c1 x]; [|done|].
  - apply bind_Ok_inv in H as ([] & c2 & s2 & H & [= <- <- <-]).
    etransitivity; [by apply (quiet_cur_put me x)|]. eapply quietly_mfor_wakeup, H.
  - apply bind_Ok_inv in H as ([] & c2 & s2 & H & H'). discriminate H'.
Qed.

Lemma quietly_curop {A} me (m : M (sysst L umach) A) : valid me -> quietly me (curop me m).
Proof. intros [_ ?]. by apply quietly_curop_lt. Qed.

(** When an operation blocks, [me] has gone to sleep on the channel. *)
Lemma curop_Block {A} me (m : M (sysst L umach) A) c s ch c' s' :
  valid me -> curop me m c s = Block ch c' s' ->
  exists s1, quiet me s s1 /\ s' = upd_proc me (set_state SLEEPING) (upd_proc me (set_chan (Some ch)) s1).
Proof.
  intros Hme H. unfold curop in H.
  assert (Hnb : forall chs c1 s1 ch c' s', mfor chs (wakeup me) c1 s1 <> Block (S:=kernel L) ch c' s').
  { clear. intros chs. induction chs as [|x chs IH]; intros c1 s1 ch c' s' H; [done|].
    cbn [mfor] in H. unfold bind in H. destruct (wakeup me x c1 s1) as [[] c2 s2| |ch2 c2 s2] eqn:E; [by eapply IH|done|].
    revert E. clear. unfold wakeup. generalize (upto NPROC). intros ps. revert c1 s1.
    induction ps as [|p ps IH]; intros c1 s1 E; [done|]. cbn [mfor] in E. unfold bind in E at 1.
    destruct (wakeup_one me x p c1 s1) as [[] c3 s3| |ch3 c3 s3] eqn:E1; [by eapply IH|done|].
    unfold wakeup_one, acquire, release, bind, pget, gets, pset, modify, ret in E1.
    repeat case_match; discriminate. }
  destruct (m _ (cur_view me s)) as [a1 c1 x| |ch1 c1 x]; [|done|]; unfold bind at 1 in H;
    destruct (mfor _ _ _ _) as [[] c2 s2| |] eqn:E; try done; try by apply Hnb in E.
  exists s2. cbn in H. simplify_eq. split; [|done].
  etransitivity; [apply (quiet_cur_put me x), Hme|]. eapply quietly_mfor_wakeup, E.
Qed.
End quiet.

Create HintDb quiet.
#[export] Hint Resolve quietly_ret quietly_gets quietly_pget quietly_panic quietly_acquire
  quietly_release quietly_memop quietly_wakeup quietly_curop : quiet.

(** Decompose a computation and discharge its primitive steps. *)
Ltac quietly :=
  repeat first
    [ apply quietly_bind; [|intros ?]
    | apply quietly_mfor; intros ? ?
    | apply quietly_pset; [done|intros; reflexivity]
    | progress eauto with quiet
    | case_match
    | progress cbn beta iota ].

Section private_ops.
Context {L : Type} `{KernelImage} `{KernelText} `{BlockLayer L} `{DevSw umach}.
Implicit Types (s : kernel L) (p q me : Z).

Lemma quietly_fileop {A} me (m : M (files L umach) A) : valid me -> quietly me (fileop me m).
Proof. apply quietly_curop. Qed.

Lemma quietly_tf_set me p off v : quietly me (tf_set (L:=L) p off v).
Proof. unfold tf_set. quietly. Qed.
#[local] Hint Resolve quietly_fileop quietly_tf_set : quiet.

Lemma quietly_growproc me n : valid me -> quietly me (growproc (L:=L) me n).
Proof. intros Hme. unfold growproc. quietly. Qed.

Lemma quietly_loadseg me pt va ip off sz : valid me -> quietly me (loadseg (L:=L) me pt va ip off sz).
Proof.
  intros Hme. unfold loadseg. generalize 0. generalize (Z.to_nat (sz / PGSIZE + 1)).
  intros fuel. induction fuel as [|fuel IH]; intros i; cbn [loadseg_loop]; quietly.
Qed.
#[local] Hint Resolve quietly_loadseg : quiet.

Lemma quietly_load_segments n me pt ip off sz :
  valid me -> quietly me (load_segments (L:=L) n me pt ip off sz).
Proof.
  intros Hme. revert off sz. induction n as [|n IH]; intros off sz; cbn [load_segments]; quietly.
Qed.

Lemma quietly_push_args me argv pt argc sp base us :
  quietly me (push_args (L:=L) argv pt argc sp base us).
Proof.
  revert argc sp us. induction argv as [|a argv IH]; intros argc sp us; cbn [push_args]; quietly.
Qed.
#[local] Hint Resolve quietly_load_segments quietly_push_args : quiet.

Lemma quietly_exec me path argv : valid me -> quietly me (exec (L:=L) me path argv).
Proof.
  intros Hme. unfold exec, exec_commit, exec_bad, exec_bad_ip. quietly.
Qed.

Lemma quietly_exit_files me : valid me -> quietly me (exit_files (L:=L) me).
Proof. intros Hme. unfold exit_files. quietly. Qed.
End private_ops.

#[export] Hint Resolve quietly_fileop quietly_tf_set quietly_growproc quietly_exec
  quietly_exit_files : quiet.

(** ** Operations that change one process *)

Section updates.
Context {L : Type}.
Implicit Types (s : kernel L) (p q me : Z).

(** Process [p] is now [x], [nextpid] is [n], other processes at most woken. *)
Record updates (me p : Z) (x : slot) (n : Z) s s' : Prop := {
  u_len : length (k_proc s') = length (k_proc s);
  u_next : k_nextpid s' = n;
  u_init : k_initproc s' = k_initproc s;
  u_at : sl s' p = x;
  u_other q : valid q -> q <> p ->
    sl s' q = sl s q
    \/ q <> me /\ sl_state (sl s q) = SLEEPING /\ sl s' q = sl_set_state RUNNABLE (sl s q)
}.

Lemma updates_refl me p s : updates me p (sl s p) (k_nextpid s) s s.
Proof. split; auto. Qed.

Lemma updates_wf me p x n s s' : updates me p x n s s' -> wf_table s -> wf_table s'.
Proof. intros H Hw. unfold wf_table. by rewrite (u_len _ _ _ _ _ _ H). Qed.

Lemma updates_pset (g : slot -> slot) f me p x n s s1 :
  wf_table s -> valid p -> (forall y, slot_of (f y) = g (slot_of y)) ->
  updates me p x n s s1 -> updates me p (g x) n s (upd_proc p f s1).
Proof.
  intros Hw Hp Hg Hu. assert (Hw1 := updates_wf _ _ _ _ _ _ Hu Hw). split.
  - cbn. rewrite length_setZ. apply Hu.
  - apply Hu.
  - apply Hu.
  - rewrite sl_upd, decide_True by done. rewrite Hg. f_equal. apply Hu.
  - intros q Hq Hn. rewrite sl_upd, decide_False by done. by apply Hu.
Qed.

Lemma updates_quiet me p x n s s1 s2 :
  wf_table s -> valid p -> sl_state x <> SLEEPING ->
  quiet me s1 s2 -> updates me p x n s s1 -> updates me p x n s s2.
Proof.
  intros Hw Hp Hx Hq Hu. assert (Hw1 := updates_wf _ _ _ _ _ _ Hu Hw).
  assert (Hat := u_at _ _ _ _ _ _ Hu). split.
  - rewrite (q_len _ _ _ Hq). apply Hu.
  - rewrite (q_next _ _ _ Hq). apply Hu.
  - rewrite (q_init _ _ _ Hq). apply Hu.
  - destruct (q_sl _ _ _ Hq Hw1 p Hp) as [E|(? & Es & _)]; [congruence|].
    rewrite Hat in Es. done.
  - intros q Hv Hn.
    destruct (u_other _ _ _ _ _ _ Hu q Hv Hn) as [E1|(? & ? & E1)];
      destruct (q_sl _ _ _ Hq Hw1 q Hv) as [E2|(? & Es & E2)].
    + left. congruence.
    + right. rewrite <- E1. done.
    + right. rewrite E2. done.
    + rewrite E1 in Es. done.
Qed.

Lemma post_pset p f s (Q : unit -> kernel L -> Prop) : Q tt (upd_proc p f s) -> post (pset p f) s Q.
Proof. intros. by apply post_modify. Qed.

Lemma post_quietly {A} me (m : M (kernel L) A) s (Q : A -> kernel L -> Prop) :
  quietly me m -> (forall a s', quiet me s s' -> Q a s') -> post m s Q.
Proof. intros Hm HQ. eapply post_mono; [apply Hm|]. cbn. auto. Qed.

(** A memory operation leaves the table as it is. *)
Lemma post_memop {A} (m : M mach A) s (Q : A -> kernel L -> Prop) :
  (forall a f, Q a (set_files f s)) -> post (memop m) s Q.
Proof.
  intros HQ c a c' s' E. unfold memop, zoom in E.
  destruct (m c _) as [a1 c1 m1| |]; simplify_eq. apply HQ.
Qed.

Lemma updates_files me p x n s s1 f : updates me p x n s s1 -> updates me p x n s (set_files f s1).
Proof. intros []. by split. Qed.
End updates.

(** What an assignment to a process does to its slot. *)
Class SlotFn (f : proc -> proc) (g : slot -> slot) := slot_fn : forall y, slot_of (f y) = g (slot_of y).

#[export] Instance slotfn_state v : SlotFn (set_state v) (sl_set_state v).
Proof. done. Qed.
#[export] Instance slotfn_parent v : SlotFn (set_parent v) (sl_set_parent v).
Proof. done. Qed.
#[export] Instance slotfn_chan v : SlotFn (set_chan v)
  (fun x => Slot (sl_state x) v (sl_killed x) (sl_xstate x) (sl_pid x) (sl_parent x)).
Proof. done. Qed.
#[export] Instance slotfn_killed v : SlotFn (set_killed v)
  (fun x => Slot (sl_state x) (sl_chan x) v (sl_xstate x) (sl_pid x) (sl_parent x)).
Proof. done. Qed.
#[export] Instance slotfn_xstate v : SlotFn (set_xstate v)
  (fun x => Slot (sl_state x) (sl_chan x) (sl_killed x) v (sl_pid x) (sl_parent x)).
Proof. done. Qed.
#[export] Instance slotfn_pid v : SlotFn (set_pid v)
  (fun x => Slot (sl_state x) (sl_chan x) (sl_killed x) (sl_xstate x) v (sl_parent x)).
Proof. done. Qed.
(** Every other field is private. *)
#[export] Hint Extern 9 (SlotFn ?f _) =>
  exact ((fun y => eq_refl (slot_of y)) : SlotFn f (fun x => x)) : typeclass_instances.

Section steps.
Context {L : Type} (me p n : Z) (s0 : kernel L) (Hw : wf_table s0) (Hp : valid p).
Implicit Types (x : slot) (s : kernel L).

Lemma post_pset_u f g x s (Q : unit -> kernel L -> Prop) :
  SlotFn f g -> updates me p x n s0 s ->
  (forall s', updates me p (g x) n s0 s' -> Q tt s') -> post (pset p f) s Q.
Proof. intros Hg Hu HQ. apply post_pset, HQ. by eapply updates_pset. Qed.

Lemma post_memop_u {A} (m : M mach A) x s (Q : A -> kernel L -> Prop) :
  updates me p x n s0 s ->
  (forall a s', updates me p x n s0 s' -> Q a s') -> post (memop m) s Q.
Proof. intros Hu HQ. apply post_memop. intros a f. by apply HQ, updates_files. Qed.

Lemma post_memop_if_u (b : bool) (m : M mach unit) x s (Q : unit -> kernel L -> Prop) :
  updates me p x n s0 s ->
  (forall s', updates me p x n s0 s' -> Q tt s') -> post (when b do memop m) s Q.
Proof. intros Hu HQ. destruct b; [eapply post_memop_u; [done|]|apply post_ret; auto]. intros []. auto. Qed.

Lemma post_quietly_u {A} (m : M (kernel L) A) x s (Q : A -> kernel L -> Prop) :
  quietly me m -> updates me p x n s0 s -> sl_state x <> SLEEPING ->
  (forall a s', updates me p x n s0 s' -> Q a s') -> post m s Q.
Proof.
  intros Hm Hu Hx HQ. eapply post_quietly; [done|]. intros a s' Hq. apply HQ. by eapply updates_quiet.
Qed.
End steps.

(** Step over one statement, keeping [updates]. *)
Ltac ustep :=
  cbn beta;
  lazymatch goal with
  | |- post (bind _ _) _ _ => apply post_bind; ustep
  | |- post (pset _ _) _ _ =>
      eapply post_pset_u; [eassumption|eassumption|apply _|eassumption|];
      match goal with Hu : updates _ _ _ _ _ _ |- _ => clear Hu end; intros ? ?; cbn beta in *
  | |- post (memop _) _ _ =>
      eapply post_memop_u; [eassumption|];
      match goal with Hu : updates _ _ _ _ _ _ |- _ => clear Hu end; intros ? ? ?
  | |- post (when _ do memop _) _ _ =>
      eapply post_memop_if_u; [eassumption|];
      match goal with Hu : updates _ _ _ _ _ _ |- _ => clear Hu end; intros ? ?
  | |- post (pget _ _) _ _ => apply post_gets
  | |- post (gets _) _ _ => apply post_gets
  | |- post (acquire _) _ _ => apply post_acquire
  | |- post (release _) _ _ => apply post_release
  | |- post (ret _) _ _ => apply post_ret
  | |- post (panic _) _ _ => apply post_panic
  end.

(** Step over an operation that does not concern the process. *)
Ltac uquiet :=
  cbn beta; apply post_bind; eapply post_quietly_u; [eassumption|eassumption| |eassumption|done|
    match goal with Hu : updates _ _ _ _ _ _ |- _ => clear Hu end; intros ? ? ?].

Section forking.
Context {L : Type} `{KernelImage} `{KernelText} `{BlockLayer L} `{DevSw umach}.
Implicit Types (s : kernel L) (p q me : Z).

Definition freed : slot := Slot UNUSED None false 0 0 NULL.

Lemma freeproc_post me p s0 s x n :
  wf_table s0 -> valid p -> updates me p x n s0 s ->
  post (freeproc (L:=L) p) s (fun _ s' => updates me p freed n s0 s').
Proof. intros Hw Hp Hu. unfold freeproc. repeat ustep. done. Qed.

(** [p] is the first process that satisfies [P]. *)
Definition first (P : slot -> Prop) s p : Prop :=
  valid p /\ P (sl s p) /\ forall q, 0 <= q < p -> ~ P (sl s q).

Lemma first_unique P s p q : first P s p -> first P s q -> p = q.
Proof.
  intros (Hp & HP & Hlt) (Hq & HQ & Hlt'). unfold valid in *.
  destruct (Z.lt_trichotomy p q) as [?|[?|?]]; [|done|]; exfalso; [apply (Hlt' p)|apply (Hlt q)]; (done || lia).
Qed.

Lemma first_split P s p l1 l2 :
  upto NPROC = l1 ++ p :: l2 -> P (sl s p) -> (forall q, q ∈ l1 -> ~ P (sl s q)) -> first P s p.
Proof.
  intros E HP Hl. assert (Ep : Z.of_nat (length l1) = p).
  { assert (Hlk : upto NPROC !! length l1 = Some p) by (by rewrite E, list_lookup_middle).
    assert (length l1 < length (upto NPROC))%nat by (by eapply lookup_lt_Some).
    rewrite length_upto in *. rewrite lookup_upto in Hlk by plia. congruence. }
  split_and!; [|done|].
  - apply elem_of_upto. rewrite E. set_solver.
  - intros q Hq. apply Hl. assert (Hlk : upto NPROC !! Z.to_nat q = Some q).
    { rewrite lookup_upto; [f_equal; lia|]. assert (p ∈ upto NPROC) as ?%elem_of_upto by (rewrite E; set_solver). lia. }
    rewrite E, lookup_app_l in Hlk by lia. by eapply list_elem_of_lookup_2.
Qed.

Definition unused (x : slot) : Prop := sl_state x = UNUSED.

Lemma find_unused_split ps s :
  post (find_unused (L:=L) ps) s (fun p s' => s' = s /\ (p = NULL \/ exists l1 l2,
    ps = l1 ++ p :: l2 /\ unused (sl s p) /\ forall q, q ∈ l1 -> ~ unused (sl s q))).
Proof.
  induction ps as [|p ps IH]; cbn [find_unused].
  - apply post_ret. auto.
  - do 2 ustep. case_bool_decide as Hu.
    + apply post_ret. split; [done|]. right. exists [], ps. split_and!; [done|done|]. by intros q ?%elem_of_nil.
    + ustep. eapply post_mono; [apply IH|]. cbn. intros q s' [-> [->|(l1 & l2 & -> & Hq & Hl)]]; [by auto|].
      split; [done|]. right. exists (p :: l1), l2. split_and!; [done|done|].
      intros r [->|?]%elem_of_cons; [done|by apply Hl].
Qed.

(** [q] is the first of [ps] that is unused. *)
Definition finds (ps : list Z) s q : Prop := exists l1 l2,
  ps = l1 ++ q :: l2 /\ unused (sl s q) /\ forall r, r ∈ l1 -> ~ unused (sl s r).

Lemma finds_first s q : finds (upto NPROC) s q -> first unused s q.
Proof. intros (l1 & l2 & E & Hu & Hl). by eapply first_split. Qed.

Lemma finds_unused ps s q : (forall p, p ∈ ps -> valid p) -> finds ps s q -> valid q /\ unused (sl s q).
Proof. intros Hps (l1 & l2 & -> & Hu & _). split; [|done]. apply Hps. set_solver. Qed.

(** The slot of a process that [allocproc] has prepared. *)
Definition allocated (pid : Z) (x : slot) : slot :=
  Slot USED (sl_chan x) (sl_killed x) (sl_xstate x) pid (sl_parent x).

Lemma allocproc_from_post ps me s :
  wf_table s -> (forall p, p ∈ ps -> valid p) ->
  post (allocproc_from (L:=L) ps) s (fun p s' =>
    p = NULL /\ s' = s
    \/ exists q, finds ps s q /\ (p = NULL /\ updates me q freed (s32 (k_nextpid s + 1)) s s'
          \/ p = q /\ updates me q (allocated (k_nextpid s) (sl s q)) (s32 (k_nextpid s + 1)) s s')).
Proof.
  intros Hw Hps. unfold allocproc_from. apply post_bind.
  eapply post_mono; [apply find_unused_split|].
  cbn. intros p _s [-> Hp]. destruct (p =? NULL) eqn:E; bool_spec; [apply post_ret; auto|].
  destruct Hp as [?|Hfirst]; [done|]. assert (Hp : valid p) by exact (proj1 (finds_unused _ _ _ Hps Hfirst)).
  assert (Hfail : forall x s', updates me p x (s32 (k_nextpid s + 1)) s s' ->
    post (freeproc p ;; release (LK_proc p) ;; ret NULL) s' (fun p0 s' =>
      p0 = NULL /\ s' = s \/ exists q, finds ps s q /\ (p0 = NULL /\ updates me q freed (s32 (k_nextpid s + 1)) s s'
          \/ p0 = q /\ updates me q (allocated (k_nextpid s) (sl s q)) (s32 (k_nextpid s + 1)) s s'))).
  { intros x s' Hu. apply post_bind. eapply post_mono; [by eapply freeproc_post|].
    cbn. intros _ s2 Hu2. do 2 ustep. eauto 10. }
  unfold allocpid. apply post_bind, post_bind, post_acquire, post_bind, post_gets, post_bind, post_modify.
  apply post_bind, post_release, post_ret.
  set (s1 := Kernel _ _ _ _ _ _).
  assert (Hu : updates me p (sl s p) (s32 (k_nextpid s + 1)) s s1) by (split; auto).
  clearbody s1. do 4 ustep. destruct (_ =? 0); [by eapply Hfail|].
  do 2 ustep. destruct (_ =? 0); [by eapply Hfail|].
  do 3 ustep. eauto 10.
Qed.

Lemma allocproc_post me s :
  wf_table s ->
  post (allocproc (L:=L)) s (fun p s' =>
    p = NULL /\ s' = s
    \/ exists q, first unused s q /\ (p = NULL /\ updates me q freed (s32 (k_nextpid s + 1)) s s'
          \/ p = q /\ updates me q (allocated (k_nextpid s) (sl s q)) (s32 (k_nextpid s + 1)) s s')).
Proof.
  intros Hw. eapply post_mono; [apply (allocproc_from_post _ me); [done|by intros p ?%elem_of_upto]|].
  cbn. intros p s' [?|(q & ?%finds_first & ?)]; eauto.
Qed.
End forking.

Section forking2.
Context {L : Type} `{KernelImage} `{KernelText} `{BlockLayer L} `{DevSw umach}.
Implicit Types (s : kernel L) (p q me : Z).

Lemma fork_copy_post ps me s :
  wf_table s -> (forall p, p ∈ ps -> valid p) -> valid me -> sl_state (sl s me) <> UNUSED ->
  post (fork_copy (L:=L) ps me) s (fun r s' =>
    r = None /\ s' = s
    \/ exists q, finds ps s q /\ (
         r = None /\ updates me q freed (s32 (k_nextpid s + 1)) s s'
         \/ r = Some (q, k_nextpid s) /\ updates me q (allocated (k_nextpid s) (sl s q)) (s32 (k_nextpid s + 1)) s s')).
Proof.
  intros Hw Hps Hme Hrun. unfold fork_copy. apply post_bind.
  eapply post_mono; [by apply (allocproc_from_post ps me)|]. cbn.
  intros np s1 Hal. destruct (np =? NULL) eqn:E; bool_spec.
  { apply post_ret. destruct Hal as [[_ ->]|(q & Hf & [[_ ?]|[Eq ?]])]; [by left|eauto 10|].
    apply finds_unused in Hf as [Hq _]; [|done]. unfold valid, NULL in *. lia. }
  destruct Hal as [[? _]|(q & Hf & [[? _]|[-> Hu]])]; [done|done|]. assert (Hq : valid q) by exact (proj1 (finds_unused _ _ _ Hps Hf)).
  do 3 ustep. destruct (_ <? 0).
  { apply post_bind. eapply post_mono; [by eapply freeproc_post|]. cbn. intros _ s2 Hu2.
    do 2 ustep. eauto 10. }
  do 3 ustep. uquiet; [apply quietly_tf_set|].
  uquiet; [quietly|].
  uquiet; [by apply quietly_fileop|].
  do 2 ustep. match goal with Hu : updates _ _ _ _ _ _ |- _ => pose proof (u_at _ _ _ _ _ _ Hu) as Eq end.
  repeat ustep.
  right. exists q. split; [done|]. right. split; [|done].
  do 2 f_equal. exact (f_equal sl_pid Eq).
Qed.

Lemma fork_parent_post me0 me q x n s0 s :
  wf_table s0 -> valid q -> updates me0 q x n s0 s ->
  post (fork_parent (L:=L) me q) s (fun _ s' => updates me0 q (sl_set_parent me x) n s0 s').
Proof. intros Hw Hq Hu. unfold fork_parent. by repeat ustep. Qed.

Lemma fork_run_post me0 q x n s0 s :
  wf_table s0 -> valid q -> updates me0 q x n s0 s ->
  post (fork_run (L:=L) q) s (fun _ s' => updates me0 q (sl_set_state RUNNABLE x) n s0 s').
Proof. intros Hw Hq Hu. unfold fork_run. by repeat ustep. Qed.

Lemma fork_post me s :
  wf_table s -> valid me -> sl_state (sl s me) <> UNUSED ->
  post (fork (L:=L) me) s (fun r s' =>
    r = -1 /\ s' = s
    \/ exists q, first unused s q /\ (
         r = -1 /\ updates me q freed (s32 (k_nextpid s + 1)) s s'
         \/ r = k_nextpid s /\
            updates me q (sl_set_state RUNNABLE (sl_set_parent me (allocated (k_nextpid s) (sl s q))))
              (s32 (k_nextpid s + 1)) s s')).
Proof.
  intros Hw Hme Hrun. unfold fork. apply post_bind.
  eapply post_mono; [apply fork_copy_post; [done|by intros p ?%elem_of_upto|done|done]|]. cbn.
  intros r s1 [[-> ->]|(q & Hf%finds_first & [[-> Hu]|[-> Hu]])]; [apply post_ret; auto|apply post_ret; eauto 10|].
  assert (Hq : valid q) by apply Hf.
  apply post_bind. eapply post_mono; [by apply (fork_parent_post _ me _ _ _ _ _ Hw Hq Hu)|]. cbn. intros _ s2 Hu2.
  apply post_bind. eapply post_mono; [by apply (fork_run_post _ _ _ _ _ _ Hw Hq Hu2)|]. cbn. intros _ s3 Hu3.
  apply post_ret. eauto 10.
Qed.

Definition has_pid (pid : Z) (x : slot) : Prop := sl_pid x = pid.

(** The slot of a process after [kill]. *)
Definition killed_slot (x : slot) : slot :=
  Slot (if bool_decide (sl_state x = SLEEPING) then RUNNABLE else sl_state x)
    (sl_chan x) true (sl_xstate x) (sl_pid x) (sl_parent x).

Lemma kill_one_post pid p s :
  wf_table s -> valid p ->
  post (kill_one (L:=L) pid p) s (fun r s' =>
    r = false /\ s' = s /\ ~ has_pid pid (sl s p)
    \/ r = true /\ has_pid pid (sl s p) /\ updates NULL p (killed_slot (sl s p)) (k_nextpid s) s s').
Proof.
  intros Hw Hp. unfold kill_one. do 2 ustep. unfold id. change (p_pid (procat s p)) with (sl_pid (sl s p)).
  destruct (_ =? _) eqn:E; bool_spec; [|do 2 ustep; by left].
  assert (Hu := updates_refl NULL p s). ustep.
  apply post_bind. change (p_state (procat s p)) with (sl_state (sl s p)) in *.
  unfold killed_slot. case_bool_decide; repeat ustep; by right.
Qed.

Lemma kill_split pid ps s :
  wf_table s -> (forall p, p ∈ ps -> valid p) ->
  post (kill_loop (L:=L) ps pid) s (fun r s' =>
    r = -1 /\ s' = s /\ (forall p, p ∈ ps -> ~ has_pid pid (sl s p))
    \/ exists q l1 l2, r = 0 /\ ps = l1 ++ q :: l2 /\ has_pid pid (sl s q) /\
         (forall p, p ∈ l1 -> ~ has_pid pid (sl s p)) /\
         updates NULL q (killed_slot (sl s q)) (k_nextpid s) s s').
Proof.
  intros Hw. induction ps as [|p ps IH]; intros Hps; cbn [kill_loop].
  - apply post_ret. left. split_and!; [done|done|]. by intros q ?%elem_of_nil.
  - apply post_bind. eapply post_mono; [apply kill_one_post; [done|apply Hps; by left]|]. cbn.
    intros r s1 [(-> & -> & Hn)|(-> & Hk & Hu)].
    + eapply post_mono; [apply IH; intros q Hq; apply Hps; by right|]. cbn.
      intros r s' [(-> & -> & Hno)|(q & l1 & l2 & -> & -> & Hq & Hl & Hu)].
      * left. split_and!; [done|done|]. intros q [->|?]%elem_of_cons; [done|by apply Hno].
      * right. exists q, (p :: l1), l2. split_and!; try done.
        intros r [->|?]%elem_of_cons; [done|by apply Hl].
    + apply post_ret. right. exists p, [], ps. split_and!; try done. by intros q ?%elem_of_nil.
Qed.

Lemma kill_post pid s :
  wf_table s ->
  post (kill (L:=L) pid) s (fun r s' =>
    r = -1 /\ s' = s /\ (forall p, valid p -> ~ has_pid pid (sl s p))
    \/ exists q, r = 0 /\ first (has_pid pid) s q /\ updates NULL q (killed_slot (sl s q)) (k_nextpid s) s s').
Proof.
  intros Hw. unfold kill. eapply post_mono; [apply kill_split; [done|by intros p ?%elem_of_upto]|].
  cbn. intros r s' [(-> & -> & Hno)|(q & l1 & l2 & -> & E & Hq & Hl & Hu)].
  - left. split_and!; [done|done|]. intros p Hp. apply Hno. by apply elem_of_upto.
  - right. exists q. split_and!; [done|by eapply first_split|done].
Qed.
End forking2.

(** ** exit and wait *)

Section exiting.
Context {L : Type} `{KernelImage} `{KernelText} `{BlockLayer L} `{DevSw umach}.
Implicit Types (s : kernel L) (p q me : Z).

(** The slot [x] of a process other than [me], after [me] has passed on the children
    among [ps]; [st] is its new state. *)
Definition passed_on (me init : Z) (ps : list Z) (q : Z) (st : procstate) (x : slot) : slot :=
  Slot st (sl_chan x) (sl_killed x) (sl_xstate x) (sl_pid x)
    (if decide (q ∈ ps /\ sl_parent x = me) then init else sl_parent x).

Record reparented (me : Z) (ps : list Z) s s' : Prop := {
  rp_wf : wf_table s';
  rp_next : k_nextpid s' = k_nextpid s;
  rp_init : k_initproc s' = k_initproc s;
  rp_sl q : valid q -> exists st,
    sl s' q = passed_on me (k_initproc s) ps q st (sl s q) /\
    (st = sl_state (sl s q) \/ q <> me /\ sl_state (sl s q) = SLEEPING /\ st = RUNNABLE);
  rp_wake : (exists q, q ∈ ps /\ valid q /\ sl_parent (sl s q) = me) ->
    forall r, valid r -> r <> me -> sl_state (sl s' r) = SLEEPING ->
      sl_chan (sl s' r) <> Some (CH_proc (k_initproc s))
}.

Lemma woken_not_sleeping me ch s s' r :
  woken me ch (upto NPROC) s s' -> valid r -> r <> me ->
  sl_state (sl s' r) = SLEEPING -> sl_chan (sl s' r) <> Some ch.
Proof.
  intros Hwo Hr Hn. rewrite (wo_sl _ _ _ _ _ Hwo r Hr).
  rewrite decide_True by (split; [by apply elem_of_upto|done]). unfold wake_slot.
  destruct (bool_decide (sl_state (sl s r) = SLEEPING)) eqn:E1; cbn.
  - destruct (bool_decide (sl_chan (sl s r) = Some ch)) eqn:E2; cbn; [discriminate|].
    by apply bool_decide_eq_false in E2.
  - by apply bool_decide_eq_false in E1.
Qed.

(** A woken slot, field by field. *)
Lemma woken_slot me ch ps s s' q :
  woken me ch ps s s' -> valid q ->
  sl s' q = sl s q \/ q <> me /\ sl_state (sl s q) = SLEEPING /\ sl s' q = sl_set_state RUNNABLE (sl s q).
Proof.
  intros Hwo Hq. rewrite (wo_sl _ _ _ _ _ Hwo q Hq).
  destruct (decide _) as [[_ ?]|]; [|by left]. unfold wake_slot.
  destruct (bool_decide _) eqn:E1; cbn; [|by left]. apply bool_decide_eq_true in E1.
  destruct (bool_decide _); auto.
Qed.

Lemma reparent_one_spec me p c s ps s1 :
  k_initproc s <> me -> valid p -> free_procs me c -> reparented me ps s s1 ->
  wp (reparent_one me p) c s1 (fun _ c' s' => c' = c /\ reparented me (ps ++ [p]) s s').
Proof.
  intros Hi Hp Hf Hr. unfold reparent_one. apply wp_bind, wp_gets.
  change (p_parent (procat s1 p)) with (sl_parent (sl s1 p)).
  destruct (rp_sl _ _ _ _ Hr p Hp) as (st & Ep & _). rewrite Ep at 1. cbn [passed_on sl_parent].
  destruct (_ =? me) eqn:E; bool_spec.
  - (* a child *)
    destruct (decide (p ∈ ps /\ sl_parent (sl s p) = me)) as [|Hnp]; [done|].
    apply wp_bind, wp_gets. apply wp_bind, wp_modify. rewrite (rp_init _ _ _ _ Hr).
    eapply wp_mono; [apply wakeup_spec; [apply wf_upd, Hr|done]|].
    cbn. intros _ c' s' [-> Hwo]. split; [done|]. split.
    + apply Hwo.
    + rewrite (wo_next _ _ _ _ _ Hwo). cbn. apply Hr.
    + rewrite (wo_init _ _ _ _ _ Hwo). cbn. apply Hr.
    + intros q Hq. destruct (rp_sl _ _ _ _ Hr q Hq) as (st' & Eq & Hst').
      assert (Eu : sl (upd_proc p (set_parent (k_initproc s)) s1) q
                   = passed_on me (k_initproc s) (ps ++ [p]) q st' (sl s q)).
      { rewrite sl_upd by (done || apply Hr). destruct (decide (p = q)) as [<-|Hne].
        - change (slot_of (set_parent (k_initproc s) (procat s1 p))) with
            (sl_set_parent (k_initproc s) (sl s1 p)).
          rewrite Eq. unfold passed_on. cbn. rewrite (decide_True (P:=p ∈ ps ++ [p] /\ _)); [done|].
          split; [apply elem_of_app; right; by left|done].
        - rewrite Eq. unfold passed_on. f_equal. apply decide_ext. rewrite elem_of_app, list_elem_of_singleton.
          naive_solver. }
      destruct (woken_slot _ _ _ _ _ q Hwo Hq) as [E'|(? & Es & E')]; rewrite E', Eu.
      * by exists st'.
      * exists RUNNABLE. split; [done|]. right. rewrite Eu in Es. cbn in Es. naive_solver.
    + intros _ r Hr' Hn Hs. eapply woken_not_sleeping; done.
  - apply wp_ret. split; [done|]. split; try apply Hr.
    + intros q Hq. destruct (rp_sl _ _ _ _ Hr q Hq) as (st' & Eq & Hst').
      exists st'. split; [|done]. rewrite Eq. unfold passed_on. f_equal. apply decide_ext.
      rewrite elem_of_app, list_elem_of_singleton.
      destruct (decide (p ∈ ps /\ sl_parent (sl s p) = me)); naive_solver.
    + intros (q & [Hq| ->%list_elem_of_singleton]%elem_of_app & Hv & Hpar).
      * apply (rp_wake _ _ _ _ Hr). eauto.
      * apply (rp_wake _ _ _ _ Hr). exists p.
        destruct (decide (p ∈ ps /\ sl_parent (sl s p) = me)) as [[? ?]|]; [done|done].
Qed.

Lemma reparent_spec me c s :
  wf_table s -> k_initproc s <> me -> free_procs me c ->
  wp (reparent me) c s (fun _ c' s' => c' = c /\ reparented me (upto NPROC) s s').
Proof.
  intros Hw Hi Hf. unfold reparent. apply (wp_mfor (fun ps s' => reparented me ps s s')).
  - split; try done.
    + intros q Hq. exists (sl_state (sl s q)). split; [|by left]. unfold passed_on.
      rewrite decide_False; [by destruct (sl s q)|]. by intros [?%elem_of_nil _].
    + by intros (q & ?%elem_of_nil & _).
  - intros ps p s' Hp%elem_of_upto Hr. by apply reparent_one_spec.
  - done.
Qed.

(** The table after [exit]: [me] is a zombie, its children belong to init, and nobody
    is asleep who waits for either. *)
Record exited (me status : Z) s s' : Prop := {
  ex_wf : wf_table s';
  ex_next : k_nextpid s' = k_nextpid s;
  ex_init : k_initproc s' = k_initproc s;
  ex_me : sl_state (sl s' me) = ZOMBIE /\ sl_xstate (sl s' me) = status /\
    sl_pid (sl s' me) = sl_pid (sl s me) /\
    (sl_parent (sl s me) <> me -> sl_parent (sl s' me) = sl_parent (sl s me));
  ex_other q : valid q -> q <> me -> exists st,
    sl s' q = passed_on me (k_initproc s) (upto NPROC) q st (sl s q) /\
    (st = sl_state (sl s q) \/ sl_state (sl s q) = SLEEPING /\ st = RUNNABLE);
  ex_parent r : valid r -> r <> me -> sl_state (sl s' r) = SLEEPING ->
    sl_chan (sl s' r) <> Some (CH_proc (sl_parent (sl s' me)));
  ex_children : (exists q, valid q /\ sl_parent (sl s q) = me) ->
    forall r, valid r -> r <> me -> sl_state (sl s' r) = SLEEPING ->
      sl_chan (sl s' r) <> Some (CH_proc (k_initproc s))
}.

Lemma exit_zombie_spec me status c s :
  wf_table s -> valid me -> k_initproc s <> me -> held c = [] ->
  wp (exit_zombie me status) c s (fun _ c' s' => held c' = [LK_proc me] /\ exited me status s s').
Proof.
  intros Hw Hme Hi Hc. destruct c as [h ws mp]. cbn in Hc. subst h. unfold exit_zombie.
  apply wp_bind, wp_acquire; [by apply not_elem_of_nil|].
  assert (Hfree : free_procs me (locked LK_wait (Ctx [] ws mp))).
  { intros p _ _. cbn. intros [?|?%elem_of_nil]%elem_of_cons; [discriminate|done]. }
  apply wp_bind. eapply wp_mono; [by apply reparent_spec|]. cbn. intros _ c1 s1 [-> Hr].
  apply wp_bind, wp_gets. apply wp_bind.
  change (p_parent (procat s1 me)) with (sl_parent (sl s1 me)).
  eapply wp_mono; [apply wakeup_spec; [apply Hr|done]|]. cbn. intros _ c2 s2 [-> Hwo].
  assert (Eme : sl s2 me = sl s1 me) by (destruct (woken_slot _ _ _ _ _ me Hwo Hme) as [?|[? _]]; done).
  apply wp_bind, wp_acquire.
  { cbn. intros [?|?%elem_of_nil]%elem_of_cons; [discriminate|done]. }
  apply wp_bind, wp_modify, wp_bind, wp_modify.
  set (s3 := upd_proc me (set_state ZOMBIE) _).
  assert (Hw2 : wf_table s2) by apply Hwo.
  assert (E3 : forall q, valid q -> sl s3 q = if decide (me = q) then
      Slot ZOMBIE (sl_chan (sl s2 me)) (sl_killed (sl s2 me)) status (sl_pid (sl s2 me)) (sl_parent (sl s2 me))
    else sl s2 q).
  { intros q Hq. subst s3. rewrite sl_upd by (try apply wf_upd; done).
    rewrite procat_upd, sl_upd by done. rewrite (decide_True (P:=me = me)) by done. by case_decide. }
  destruct (rp_sl _ _ _ _ Hr me Hme) as (stm & Em & _).
  assert (Hex : exited me status s s3).
  { split.
    - subst s3. by apply wf_upd, wf_upd.
    - subst s3. cbn. rewrite (wo_next _ _ _ _ _ Hwo). apply Hr.
    - subst s3. cbn. rewrite (wo_init _ _ _ _ _ Hwo). apply Hr.
    - rewrite (E3 me Hme), decide_True by done. cbn. rewrite Eme, Em. cbn. split_and!; try done.
      intros ?. rewrite decide_False; [done|]. naive_solver.
    - intros q Hq Hn. rewrite (E3 q Hq), decide_False by done.
      destruct (rp_sl _ _ _ _ Hr q Hq) as (st & Eq & Hst).
      destruct (woken_slot _ _ _ _ _ q Hwo Hq) as [E|(? & Es & E)]; rewrite E, Eq.
      + exists st. naive_solver.
      + exists RUNNABLE. rewrite Eq in Es. cbn in Es. naive_solver.
    - intros r Hv Hn. rewrite (E3 r Hv), (E3 me Hme), decide_False, (decide_True (P:=me = me)) by done.
      cbn. rewrite Eme. by apply (woken_not_sleeping _ _ _ _ _ Hwo).
    - intros (q & Hq & Hpar) r Hv Hn. rewrite (E3 r Hv), decide_False by done. intros Hs.
      assert (Hs1 : sl s2 r = sl s1 r).
      { destruct (woken_slot _ _ _ _ _ r Hwo Hv) as [?|(? & _ & E)]; [done|]. by rewrite E in Hs. }
      rewrite Hs1 in *. eapply (rp_wake _ _ _ _ Hr); [|done|done|done].
      exists q. split; [by apply elem_of_upto|done]. }
  apply wp_bind.
  exists tt, (Ctx [LK_proc me] ws mp), s3. split; [by unfold release; cbn; rewrite decide_True by set_solver|].
  unfold sched. apply wp_bind. eexists _, _, _. split; [reflexivity|]. cbn [held].
  rewrite bool_decide_eq_true_2 by set_solver. cbn [negb].
  apply wp_bind. eexists _, _, _. split; [reflexivity|]. cbn [held length Nat.eqb negb].
  apply wp_bind, wp_gets. change (p_state (procat s3 me)) with (sl_state (sl s3 me)).
  rewrite bool_decide_eq_false_2 by (rewrite (proj1 (ex_me _ _ _ _ Hex)); done).
  by apply wp_ret.
Qed.

(** [wait] has reaped a zombie child and returns its pid. *)
Definition reaped (me v : Z) s s' : Prop :=
  exists q, valid q /\ sl_parent (sl s q) = me /\ sl_state (sl s q) = ZOMBIE /\
    v = sl_pid (sl s q) /\ updates me q freed (k_nextpid s) s s'.

Lemma wait_scan_post ps me addr hk s :
  wf_table s -> valid me -> (forall p, p ∈ ps -> valid p) ->
  post (wait_scan (L:=L) ps me addr hk) s (fun r s' =>
    match r with
    | inl v => v = -1 /\ quiet me s s' \/ reaped me v s s'
    | inr _ => s' = s /\ forall q, q ∈ ps -> sl_parent (sl s q) = me -> sl_state (sl s q) <> ZOMBIE
    end).
Proof.
  intros Hw Hme. revert hk. induction ps as [|p ps IH]; intros hk Hps; cbn [wait_scan].
  { apply post_ret. split; [done|]. by intros q ?%elem_of_nil. }
  assert (Hp : valid p) by (apply Hps; by left).
  assert (IH' : forall hk, (sl_parent (sl s p) = me -> sl_state (sl s p) <> ZOMBIE) ->
    post (wait_scan ps me addr hk) s (fun r s' =>
    match r with
    | inl v => v = -1 /\ quiet me s s' \/ reaped me v s s'
    | inr _ => s' = s /\ forall q, q ∈ p :: ps -> sl_parent (sl s q) = me -> sl_state (sl s q) <> ZOMBIE
    end)).
  { intros hk' Hz. eapply post_mono; [apply IH; intros q Hq; apply Hps; by right|].
    cbn. intros [v|b] s'; [done|]. intros [-> Hno]. split; [done|].
    intros q [->|Hq]%elem_of_cons; [done|by apply Hno]. }
  ustep. change (p_parent (procat s p)) with (sl_parent (sl s p)).
  destruct (_ =? me) eqn:E; bool_spec; cbn [negb]; [|by apply IH'].
  do 2 ustep. change (p_state (procat s p)) with (sl_state (sl s p)). case_bool_decide as Ez.
  2: { ustep. by apply IH'. }
  do 3 ustep. apply post_bind.
  assert (Hret : forall f r, post (
      if r <? 0 then release (LK_proc p) ;; release LK_wait ;; ret (inl (-1))
      else freeproc p ;; release (LK_proc p) ;; release LK_wait ;; ret (inl (p_pid (procat s p))))
    (set_files f s) (fun (r : Z + bool) s' =>
    match r with
    | inl v => v = -1 /\ quiet me s s' \/ reaped me v s s'
    | inr _ => s' = s /\ forall q, q ∈ p :: ps -> sl_parent (sl s q) = me -> sl_state (sl s q) <> ZOMBIE
    end)).
  { intros f r. destruct (r <? 0).
    - do 3 ustep. left. split; [done|]. apply quiet_set_files.
    - apply post_bind. eapply post_mono; [eapply (freeproc_post me p s); [done|done|]|].
      + apply updates_files, updates_refl.
      + cbn. intros _ s2 Hu. do 3 ustep. right. exists p. split_and!; done. }
  destruct (addr =? 0).
  - apply post_ret. specialize (Hret (k_files s) 0). by destruct s.
  - apply post_memop. intros r f. apply Hret.
Qed.

Lemma killed_post p s (Q : bool -> kernel L -> Prop) : (forall b, Q b s) -> post (killed p) s Q.
Proof. intros HQ. unfold killed. repeat ustep. apply HQ. Qed.

Lemma sched_post me s (Q : unit -> kernel L -> Prop) : Q tt s -> post (sched me) s Q.
Proof.
  intros HQ. unfold sched. apply post_bind, post_holding. intros h. destruct (negb h); [apply post_panic|].
  apply post_bind. intros c a c' s' [= <- <- <-]. destruct (negb _); [apply post_panic|].
  ustep. destruct (bool_decide _); [apply post_panic|by apply post_ret].
Qed.

Definition asleep_on (ch : chan) (x : slot) : slot :=
  Slot SLEEPING (Some ch) (sl_killed x) (sl_xstate x) (sl_pid x) (sl_parent x).

Lemma sleep_post me ch lk s :
  wf_table s -> valid me ->
  post (sleep me ch lk) s (fun _ s' => updates me me (asleep_on ch (sl s me)) (k_nextpid s) s s').
Proof.
  intros Hw Hme. unfold sleep. do 2 ustep. assert (Hu := updates_refl me me s).
  do 2 ustep. by apply sched_post.
Qed.

Lemma wait_turn_post me addr s :
  wf_table s -> valid me ->
  post (wait_turn (L:=L) me addr) s (fun r s' =>
    match r with
    | Some v => v = -1 /\ quiet me s s' \/ reaped me v s s'
    | None => (forall q, valid q -> sl_parent (sl s q) = me -> sl_state (sl s q) <> ZOMBIE) /\
        updates me me (asleep_on (CH_proc me) (sl s me)) (k_nextpid s) s s'
    end).
Proof.
  intros Hw Hme. unfold wait_turn. apply post_bind.
  eapply post_mono; [apply wait_scan_post; [done|done|by intros p ?%elem_of_upto]|].
  cbn. intros [v|hk] s1 Hs1; [by apply post_ret|]. destruct Hs1 as [-> Hno].
  assert (Hk : forall k, post (if negb hk || k then release LK_wait ;; ret (Some (-1))
     else sleep me (CH_proc me) LK_wait ;; ret None) s (fun r s' =>
    match r with
    | Some v => v = -1 /\ quiet me s s' \/ reaped me v s s'
    | None => (forall q, valid q -> sl_parent (sl s q) = me -> sl_state (sl s q) <> ZOMBIE) /\
        updates me me (asleep_on (CH_proc me) (sl s me)) (k_nextpid s) s s'
    end)).
  { intros k. destruct (negb hk || k).
    - do 2 ustep. left. split; [done|]. reflexivity.
    - apply post_bind. eapply post_mono; [by apply sleep_post|]. cbn. intros _ s2 Hu. ustep.
      split; [|done]. intros q Hq. apply Hno. by apply elem_of_upto. }
  apply post_bind. destruct hk; [apply killed_post; apply Hk|apply post_ret; apply Hk].
Qed.

Lemma scheduler_try_post p s :
  wf_table s -> valid p ->
  post (scheduler_try (L:=L) p) s (fun b s' => b = true -> sl_state (sl s p) = RUNNABLE /\
    updates NULL p (sl_set_state RUNNING (sl s p)) (k_nextpid s) s s').
Proof.
  intros Hw Hp. unfold scheduler_try. do 2 ustep.
  change (p_state (procat s p)) with (sl_state (sl s p)). case_bool_decide.
  - assert (Hu := updates_refl NULL p s). do 2 ustep. done.
  - do 2 ustep. discriminate.
Qed.

Lemma yield_post me s :
  wf_table s -> valid me ->
  post (yield me) s (fun _ s' => updates me me (sl_set_state RUNNABLE (sl s me)) (k_nextpid s) s s').
Proof.
  intros Hw Hme. unfold yield. ustep. assert (Hu := updates_refl me me s). ustep. by apply sched_post.
Qed.

Lemma sleep_resume_post me lk s :
  wf_table s -> valid me ->
  post (sleep_resume me lk) s (fun _ s' => updates me me (Slot (sl_state (sl s me)) None
    (sl_killed (sl s me)) (sl_xstate (sl s me)) (sl_pid (sl s me)) (sl_parent (sl s me))) (k_nextpid s) s s').
Proof. intros Hw Hme. unfold sleep_resume. assert (Hu := updates_refl me me s). by repeat ustep. Qed.

Lemma setkilled_post p s :
  wf_table s -> valid p ->
  post (setkilled p) s (fun _ s' => updates NULL p (Slot (sl_state (sl s p)) (sl_chan (sl s p))
    true (sl_xstate (sl s p)) (sl_pid (sl s p)) (sl_parent (sl s p))) (k_nextpid s) s s').
Proof. intros Hw Hp. unfold setkilled. assert (Hu := updates_refl NULL p s). by repeat ustep. Qed.

(** The first process becomes RUNNABLE; [initproc] is set on the way. *)
Lemma userinit_post s :
  wf_table s ->
  post (userinit (L:=L)) s (fun _ s' => exists q s1, first unused s q /\
    updates NULL q (sl_set_state RUNNABLE (allocated (k_nextpid s) (sl s q))) (s32 (k_nextpid s + 1)) s s1 /\
    k_proc s' = k_proc s1 /\ k_nextpid s' = k_nextpid s1).
Proof.
  intros Hw. unfold userinit. apply post_bind. eapply post_mono; [by apply (allocproc_post NULL)|].
  cbn. intros p s1 Hal. destruct (p =? NULL) eqn:E; bool_spec; [apply post_panic|].
  destruct Hal as [[? _]|(q & Hf & [[? _]|[-> Hu]])]; [done|done|]. assert (Hq : valid q) by apply Hf.
  apply post_bind, post_modify. set (x := allocated _ _) in *. set (n := s32 _) in *.
  assert (Hu2 : updates NULL q x n (Kernel (k_proc s) (k_nextpid s) q (k_first s) (k_ticks s) (k_files s))
    (Kernel (k_proc s1) (k_nextpid s1) q (k_first s1) (k_ticks s1) (k_files s1))).
  { destruct Hu. by split. }
  clear Hu. set (s0 := Kernel (k_proc s) _ _ _ _ _) in *. assert (Hw0 : wf_table s0) by done.
  do 3 ustep. do 2 (uquiet; [apply quietly_tf_set|]). ustep.
  uquiet; [by apply quietly_curop_lt|]. repeat ustep.
  match goal with Hu : updates _ _ _ _ _ ?s2 |- _ =>
    exists q, (Kernel (k_proc s2) (k_nextpid s2) (k_initproc s) (k_first s2) (k_ticks s2) (k_files s2));
    split_and!; [done|destruct Hu; by split|done|done]
  end.
Qed.
End exiting.
