(* ===== verification/Trap.v ===== *)
(** * Traps: kernel/trap.c and kernel/plic.c

    [usertrap] and [kerneltrap] on one hart.  They are cut where the process gives up
    the processor: a result says whether the hart goes back to user space, or the
    process has exited, yielded or gone to sleep, and [usertrap_rest] and
    [usertrap_yielded] are what runs when it goes on. *)

From S2P Require Import Prelude KMonad Riscv Mem Hart Asm Kalloc Vm UserMem Uart Pipe Console Printf UserVm Bytes Sleeplock Bio BlockLayer Fs FsDir File Syscall Sysfile Proc Exec Kernel Sched.

(** Addresses of the kernel image that trap.c takes. *)
Class TrapImage := {
  kernelvec_addr : Z;
  usertrap_addr : Z;
  uservec_off : Z; (* uservec - trampoline *)
  userret_off : Z
}.

(** The interrupt controller: the sources it will hand out to claims, and the writes to
    its registers. *)
Record plic := Plic { pl_pending : list Z; pl_writes : list (Z * Z) }.

Record tst (L : Type) := Tst { ts_k : kernel L; ts_hart : hart; ts_plic : plic }.
Arguments Tst {L}.
Arguments ts_k {L}.
Arguments ts_hart {L}.
Arguments ts_plic {L}.

(** How a trap from user space ends on this hart. *)
Inductive trapret :=
| ToUser (satp : Z)           (** jump to [userret] with [satp] in a0 *)
| Exited                      (** [exit] does not return *)
| Yielded                     (** the process is RUNNABLE again *)
| Asleep_in (r : sysret).     (** a system call sleeps *)

(** ** The console as the kernel sees it *)

Section tty.
Context {L : Type}.

Definition states (s : procstate) : list Z :=
  match s with
  | UNUSED => str "unused"
  | USED => str "used"
  | SLEEPING => str "sleep "
  | RUNNABLE => str "runble"
  | RUNNING => str "run   "
  | ZOMBIE => str "zombie"
  end.

(** The text that [procdump] prints. *)
Definition procdump_text (k : kernel L) : list Z :=
  10 :: mjoin ((fun '(pid, st, name) =>
    default [] (formatted (str "%d %s %s") [AInt pid; AStr (Some (states st)); AStr (Some (cstr name))]) ++ [10])
    <$> procdump k).

(** [uartintr], with process [me] (or none) on this hart: its wakeups reach the table. *)
Definition uart_interrupt (me : Z) : M (kernel L) unit := fun c k =>
  match uartintr (procdump_text k) (Ctx (held c) [] (mypid c)) (k_tty k) with
  | Ok _ c' t => mfor (reverse (wakes c')) (wakeup me) (Ctx (held c') (wakes c) (mypid c)) (set_ktty t k)
  | Panic msg => Panic msg
  | Block ch c' t => Block ch c' (set_ktty t k)
  end.
End tty.

Section trap.
Context {L : Type} `{KernelImage} `{KernelText} `{TrapImage} `{BlockLayer L} `{DevSw umach}.

Definition kop {A} (m : M (kernel L) A) : M (tst L) A := zoom ts_k (fun k s => Tst k (ts_hart s) (ts_plic s)) m.
Definition cpu {A} (m : M hart A) : M (tst L) A := zoom ts_hart (fun h s => Tst (ts_k s) h (ts_plic s)) m.

(** The disk interrupt, likewise. *)
Definition disk_interrupt (me : Z) : M (kernel L) unit := fun c k =>
  match fsop (blkop bl_intr) (Ctx (held c) [] (mypid c)) (k_files k) with
  | Ok _ c' f => mfor (reverse (wakes c')) (wakeup me) (Ctx (held c') (wakes c) (mypid c)) (set_files f k)
  | Panic msg => Panic msg
  | Block ch c' f => Block ch c' (set_files f k)
  end.

(** ** kernel/plic.c *)

Definition cpuid : M (tst L) Z := id <- cpu r_tp ;; ret (s32 id).

Definition plic_wr (a v : Z) : M (tst L) unit :=
  modify (fun s => Tst (ts_k s) (ts_hart s) (Plic (pl_pending (ts_plic s)) (pl_writes (ts_plic s) ++ [(a, u32 v)]))).

Definition plicinit : M (tst L) unit :=
  (* set desired IRQ priorities non-zero (otherwise disabled). *)
  plic_wr (PLIC + UART0_IRQ * 4) 1 ;;
  plic_wr (PLIC + VIRTIO0_IRQ * 4) 1.

Definition plicinithart : M (tst L) unit :=
  hart <- cpuid ;;
  (* set enable bits for this hart's S-mode for the uart and virtio disk. *)
  plic_wr (PLIC_SENABLE hart) (Z.lor (Z.shiftl 1 UART0_IRQ) (Z.shiftl 1 VIRTIO0_IRQ)) ;;
  (* set this hart's S-mode priority threshold to 0. *)
  plic_wr (PLIC_SPRIORITY hart) 0.

(** ask the PLIC what interrupt we should serve; a claim takes the source. *)
Definition plic_claim : M (tst L) Z :=
  p <- gets (fun s => pl_pending (ts_plic s)) ;;
  match p with
  | [] => ret 0
  | irq :: p' =>
      modify (fun s => Tst (ts_k s) (ts_hart s) (Plic p' (pl_writes (ts_plic s)))) ;;
      ret (s32 irq)
  end.

(** tell the PLIC we've served this IRQ. *)
Definition plic_complete (irq : Z) : M (tst L) unit :=
  hart <- cpuid ;;
  plic_wr (PLIC_SCLAIM hart) irq.

(** ** kernel/trap.c *)

Definition trapinithart : M (tst L) unit := cpu (w_stvec kernelvec_addr).

(** [me] is the process running on this hart, or [NULL]. *)
Definition clockintr (me : Z) : M (kernel L) unit :=
  acquire LK_ticks ;;
  modify (fun k => Kernel (k_proc k) (k_nextpid k) (k_initproc k) (k_first k) (u32 (k_ticks k + 1)) (k_files k)) ;;
  wakeup me CH_ticks ;;
  release LK_ticks.

(** returns 2 if timer interrupt, 1 if other device, 0 if not recognized. *)
Definition devintr (me : Z) : M (tst L) Z :=
  scause <- cpu r_scause ;;
  if negb (Z.land scause 0x8000000000000000 =? 0) && (Z.land scause 0xff =? 9) then
    (* this is a supervisor external interrupt, via PLIC. *)
    irq <- plic_claim ;;
    (if irq =? UART0_IRQ then kop (uart_interrupt me)
     else if irq =? VIRTIO0_IRQ then kop (disk_interrupt me)
     else when negb (irq =? 0) do kop (kprintf (str "unexpected interrupt irq=%d" ++ [10]) [AInt irq])) ;;
    (when negb (irq =? 0) do plic_complete irq) ;;
    ret 1
  else if scause =? 0x8000000000000001 then
    (* software interrupt from a machine-mode timer interrupt *)
    id <- cpuid ;;
    (when id =? 0 do kop (clockintr me)) ;;
    (* acknowledge the software interrupt by clearing the SSIP bit in sip. *)
    sip <- cpu r_sip ;;
    cpu (w_sip (Z.land sip (Z.lnot 2))) ;;
    ret 2
  else ret 0.

(** return to user space: the value is what [userret] is called with *)
Definition usertrapret (me : Z) : M (tst L) Z :=
  (* turn off interrupts until we're back in user space *)
  cpu intr_off ;;
  (* send syscalls, interrupts, and exceptions to uservec in trampoline.S *)
  cpu (w_stvec (TRAMPOLINE + uservec_off)) ;;
  (* set up trapframe values that uservec will need *)
  satp <- cpu r_satp ;;
  kop (tf_set me TF_kernel_satp satp) ;;
  kstack <- kop (pget me p_kstack) ;;
  kop (tf_set me TF_kernel_sp (u64 (kstack + PGSIZE))) ;;
  kop (tf_set me TF_kernel_trap usertrap_addr) ;;
  tp <- cpu r_tp ;;
  kop (tf_set me TF_kernel_hartid tp) ;;
  (* set S Previous Privilege mode to User. *)
  x <- cpu r_sstatus ;;
  let x := Z.land x (Z.lnot SSTATUS_SPP) in
  let x := Z.lor x SSTATUS_SPIE in
  cpu (w_sstatus x) ;;
  (* set S Exception Program Counter to the saved user pc. *)
  epc <- kop (tf_get me TF_epc) ;;
  cpu (w_sepc epc) ;;
  (* tell trampoline.S the user page table to switch to. *)
  pt <- kop (pget me p_pagetable) ;;
  ret (MAKE_SATP pt).

(** [usertrap] after the system call, interrupt or exception has been dealt with. *)
Definition usertrap_rest (me which_dev : Z) : M (tst L) trapret :=
  k <- kop (killed me) ;;
  if k then kop (exit me (-1)) ;; ret Exited
  else if which_dev =? 2 then
    (* give up the CPU if this is a timer interrupt. *)
    kop (yield me) ;;
    ret Yielded
  else
    satp <- usertrapret me ;;
    ret (ToUser satp).
(** The process runs again after [yield]. *)
Definition usertrap_yielded (me : Z) : M (tst L) trapret :=
  kop (yield_resume me) ;;
  satp <- usertrapret me ;;
  ret (ToUser satp).

(** handle an interrupt, exception, or system call from user space. *)
Definition usertrap (me : Z) : M (tst L) trapret :=
  st <- cpu r_sstatus ;;
  if negb (Z.land st SSTATUS_SPP =? 0) then panic "usertrap: not from user mode"
  else
    (* send interrupts and exceptions to kerneltrap(), since we're now in the kernel. *)
    cpu (w_stvec kernelvec_addr) ;;
    (* save user program counter. *)
    sepc <- cpu r_sepc ;;
    kop (tf_set me TF_epc sepc) ;;
    scause <- cpu r_scause ;;
    if scause =? 8 then
      (* system call *)
      k <- kop (killed me) ;;
      if k then kop (exit me (-1)) ;; ret Exited
      else
        (* return to the instruction after ecall. *)
        epc <- kop (tf_get me TF_epc) ;;
        kop (tf_set me TF_epc (u64 (epc + 4))) ;;
        cpu intr_on ;;
        r <- kop (syscall me) ;;
        match r with
        | Ret _ => usertrap_rest me 0
        | Gone => ret Exited
        | Sleeping _ _ => ret (Asleep_in r)
        end
    else
      which_dev <- devintr me ;;
      (when which_dev =? 0 do (
        pid <- kop (pget me p_pid) ;;
        stval <- cpu r_stval ;;
        sepc <- cpu r_sepc ;;
        kop (kprintf (str "usertrap(): unexpected scause %p pid=%d" ++ [10]) [AInt scause; AInt pid]) ;;
        kop (kprintf (str "            sepc=%p stval=%p" ++ [10]) [AInt sepc; AInt stval]) ;;
        kop (setkilled me))) ;;
      usertrap_rest me which_dev.

(** interrupts and exceptions from kernel code go here via kernelvec; [true] when the
    interrupted process gives up the processor, and [kerneltrap_end] follows. *)
Definition kerneltrap (me : Z) : M (tst L) bool :=
  sstatus <- cpu r_sstatus ;;
  if Z.land sstatus SSTATUS_SPP =? 0 then panic "kerneltrap: not from supervisor mode"
  else
    ie <- cpu intr_get ;;
    if ie then panic "kerneltrap: interrupts enabled"
    else
      which_dev <- devintr me ;;
      if which_dev =? 0 then
        scause <- cpu r_scause ;;
        sepc <- cpu r_sepc ;;
        stval <- cpu r_stval ;;
        kop (kprintf (str "scause %p" ++ [10]) [AInt scause]) ;;
        kop (kprintf (str "sepc=%p stval=%p" ++ [10]) [AInt sepc; AInt stval]) ;;
        panic "kerneltrap"
      else if (which_dev =? 2) && negb (me =? NULL) then
        st <- kop (pget me p_state) ;;
        if bool_decide (st = RUNNING) then kop (yield me) ;; ret true else ret false
      else ret false.
(** restore trap registers for use by kernelvec.S's sepc instruction. *)
Definition kerneltrap_end (sepc sstatus : Z) : M (tst L) unit :=
  cpu (w_sepc sepc) ;;
  cpu (w_sstatus sstatus).
End trap.

(** ** Going back to user space *)

Section returning.
Context {L : Type} `{TrapImage}.

Definition kram (k : kernel L) : mem := ram (u_mach (k_usr k)).

Lemma wp_kop {A} (m : M (kernel L) A) c s (Q : A -> ctx -> tst L -> Prop) :
  wp m c (ts_k s) (fun a c' k => Q a c' (Tst k (ts_hart s) (ts_plic s))) -> wp (kop m) c s Q.
Proof. intros (a & c' & k & Hrun & HQ). exists a, c', (Tst k (ts_hart s) (ts_plic s)). split; [|done]. unfold kop, zoom. by rewrite Hrun. Qed.

Lemma wp_csrr x c s (Q : Z -> ctx -> tst L -> Prop) : Q (h_csr (ts_hart s) x) c s -> wp (cpu (csrr x)) c s Q.
Proof. intros HQ. eexists _, c, s. split; [|exact HQ]. by destruct s. Qed.
Lemma wp_csrw x v c s (Q : unit -> ctx -> tst L -> Prop) :
  Q tt c (Tst (ts_k s) (set_csr x (u64 v) (ts_hart s)) (ts_plic s)) -> wp (cpu (csrw x v)) c s Q.
Proof. intros HQ. by eexists _, c, _. Qed.
Lemma wp_mv r c s (Q : Z -> ctx -> tst L -> Prop) : Q (h_reg (ts_hart s) r) c s -> wp (cpu (mv_from r)) c s Q.
Proof. intros HQ. eexists _, c, s. split; [|exact HQ]. by destruct s. Qed.

(** The trapframe of the running process. *)
Definition tframe (me : Z) (k : kernel L) : Z := p_trapframe (procat k me).

(** A kernel state that differs from another in memory only. *)
Definition same_but_ram (k k' : kernel L) (m : mem) : Prop :=
  kram k' = m /\ k_proc k' = k_proc k /\ k_ticks k' = k_ticks k /\ k_tty k' = k_tty k.

Lemma wp_tf_set me off v c k (Q : unit -> ctx -> kernel L -> Prop) :
  (forall k', same_but_ram k k' (store64 (kram k) (tframe me k + off) v) -> Q tt c k') -> wp (tf_set me off v) c k Q.
Proof.
  intros HQ. unfold tf_set. apply wp_bind, wp_gets. eexists tt, c, _. split; [reflexivity|]. apply HQ.
  destruct k as [? ? ? ? ? [? ? []]]. done.
Qed.

Lemma wp_tf_get me off c k (Q : Z -> ctx -> kernel L -> Prop) :
  Q (load64 (kram k) (tframe me k + off)) c k -> wp (tf_get me off) c k Q.
Proof.
  intros HQ. unfold tf_get. apply wp_bind, wp_gets. eexists _, c, k. split; [|exact HQ].
  destruct k as [? ? ? ? ? [? ? [? ? ? []]]]. done.
Qed.

(** What [usertrapret] leaves in the trapframe and the control registers. *)
Record user_ready (me : Z) (s s' : tst L) : Prop := {
  ur_satp : load64 (kram (ts_k s')) (tframe me (ts_k s) + TF_kernel_satp) = u64 (h_csr (ts_hart s) SATP);
  ur_sp : load64 (kram (ts_k s')) (tframe me (ts_k s) + TF_kernel_sp) = u64 (p_kstack (procat (ts_k s) me) + PGSIZE);
  ur_trap : load64 (kram (ts_k s')) (tframe me (ts_k s) + TF_kernel_trap) = u64 usertrap_addr;
  ur_hart : load64 (kram (ts_k s')) (tframe me (ts_k s) + TF_kernel_hartid) = u64 (h_reg (ts_hart s) TP);
  (** nothing else in memory changes, the saved registers and epc included *)
  ur_frame a : a + 8 <= tframe me (ts_k s) \/ tframe me (ts_k s) + 40 <= a \/ a = tframe me (ts_k s) + TF_epc ->
    load64 (kram (ts_k s')) a = load64 (kram (ts_k s)) a;
  ur_proc : k_proc (ts_k s') = k_proc (ts_k s);
  ur_stvec : h_csr (ts_hart s') STVEC = u64 (TRAMPOLINE + uservec_off);
  ur_sepc : h_csr (ts_hart s') SEPC = load64 (kram (ts_k s)) (tframe me (ts_k s) + TF_epc);
  (** sret will go to user mode and enable interrupts there; they are off until then *)
  ur_spp : Z.testbit (h_csr (ts_hart s') SSTATUS) 8 = false;
  ur_spie : Z.testbit (h_csr (ts_hart s') SSTATUS) 5 = true;
  ur_sie : Z.testbit (h_csr (ts_hart s') SSTATUS) 1 = false
}.

(** The status register that [sret] finds. *)
Lemma sstatus_bits x :
  let y := u64 (Z.lor (Z.land (u64 (Z.land x (Z.lnot SSTATUS_SIE))) (Z.lnot SSTATUS_SPP)) SSTATUS_SPIE) in
  Z.testbit y 8 = false /\ Z.testbit y 5 = true /\ Z.testbit y 1 = false.
Proof.
  unfold u64. split_and!; rewrite Z.mod_pow2_bits_low, Z.lor_spec, Z.land_spec, Z.mod_pow2_bits_low, Z.land_spec, !Z.lnot_spec by lia.
  - by rewrite andb_false_r.
  - by rewrite orb_true_r.
  - by rewrite andb_false_r.
Qed.

Lemma usertrapret_spec me c s :
  wp (usertrapret me) c s (fun satp c' s' =>
    c' = c /\ satp = MAKE_SATP (p_pagetable (procat (ts_k s) me)) /\ user_ready me s s').
Proof.
  unfold usertrapret, intr_off. set (tf := tframe me (ts_k s)).
  apply wp_bind. eexists tt, c, _. split; [reflexivity|].
  match goal with |- wp _ _ ?x _ => set (s1 := x) end.
  apply wp_bind, wp_csrw, wp_bind, wp_csrr, wp_bind, wp_kop, wp_tf_set. intros k1 (E1 & P1 & _).
  apply wp_bind, wp_kop, wp_gets, wp_bind, wp_kop, wp_tf_set. intros k2 (E2 & P2 & _).
  apply wp_bind, wp_kop, wp_tf_set. intros k3 (E3 & P3 & _).
  apply wp_bind, wp_mv, wp_bind, wp_kop, wp_tf_set. intros k4 (E4 & P4 & _).
  apply wp_bind, wp_csrr. cbv zeta. apply wp_bind, wp_csrw, wp_bind, wp_kop, wp_tf_get, wp_bind, wp_csrw.
  apply wp_bind, wp_kop, wp_gets, wp_ret. cbn [ts_k ts_hart ts_plic] in *.
  change (ts_k s1) with (ts_k s) in *.
  assert (T : tframe me k1 = tf /\ tframe me k2 = tf /\ tframe me k3 = tf /\ tframe me k4 = tf)
    by (unfold tf, tframe, procat; by rewrite P4, P3, P2, P1).
  destruct T as (T1 & T2 & T3 & T4). fold tf in E1. rewrite T1 in E2. rewrite T2 in E3. rewrite T3 in E4. rewrite T4.
  assert (Ks : p_kstack (procat k1 me) = p_kstack (procat (ts_k s) me)) by (unfold procat; by rewrite P1).
  rewrite Ks in E2. rewrite E1 in E2. rewrite E2 in E3. rewrite E3 in E4. unfold TF_kernel_satp, TF_kernel_sp, TF_kernel_trap, TF_kernel_hartid in *.
  assert (Hf : forall a, a + 8 <= tf \/ tf + 40 <= a \/ a = tf + TF_epc -> load64 (kram k4) a = load64 (kram (ts_k s)) a).
  { intros a Ha. unfold TF_epc in *. rewrite E4. rewrite !load64_store64_out by lia. done. }
  split_and!; [done|unfold procat; by rewrite P4, P3, P2, P1|].
  split; cbn [ts_k ts_hart]; fold tf; unfold TF_kernel_satp, TF_kernel_sp, TF_kernel_trap, TF_kernel_hartid.
  - rewrite E4, !load64_store64_out by lia. rewrite load64_store64_same. done.
  - rewrite E4, !load64_store64_out by lia. rewrite load64_store64_same. unfold u64. by rewrite Z.mod_mod.
  - rewrite E4, load64_store64_out by lia. by rewrite load64_store64_same.
  - rewrite E4. by rewrite load64_store64_same.
  - exact Hf.
  - congruence.
  - done.
  - cbn. rewrite Hf by auto. apply u64_small, load64_range.
  - apply sstatus_bits.
  - apply sstatus_bits.
  - apply sstatus_bits.
Qed.
End returning.

(** ** Going back to user space and returning *)

Section reentry.
Context {L : Type} `{TrapImage}.

(** C24: [usertrapret] prepares the next trap: whatever the user program does with its
    registers, when it next enters [uservec] with the words that [usertrapret] wrote in
    its trapframe intact (the page is not accessible to it), [uservec] switches to the
    kernel page table, to the process's own kernel stack, to the number of the hart that
    runs it, and jumps to [usertrap].  The return goes to user mode at the saved
    program counter, with interrupts enabled there and disabled until then. *)
Theorem usertrapret_prepares_trap me c (s : tst L) :
  exists satp s', usertrapret me c s = Ok satp c s' /\
    satp = MAKE_SATP (p_pagetable (procat (ts_k s) me)) /\
    h_csr (ts_hart s') STVEC = u64 (TRAMPOLINE + uservec_off) /\
    h_csr (ts_hart s') SEPC = load64 (kram (ts_k s)) (tframe me (ts_k s) + TF_epc) /\
    Z.testbit (h_csr (ts_hart s') SSTATUS) 8 = false /\ Z.testbit (h_csr (ts_hart s') SSTATUS) 5 = true /\
    Z.testbit (h_csr (ts_hart s') SSTATUS) 1 = false /\
    forall xlate u, let tf := tframe me (ts_k s) in
      maps xlate (acsr u SATP) TRAPFRAME tf tf_size -> word64 u ->
      (forall o, 0 <= o <= TF_kernel_hartid -> load64 (am_mem u) (tf + o) = load64 (kram (ts_k s')) (tf + o)) ->
      let u' := Hart.exec xlate uservec u in
      acsr u' SATP = u64 (h_csr (ts_hart s) SATP) /\ areg u' SP = u64 (p_kstack (procat (ts_k s) me) + PGSIZE) /\
      areg u' TP = u64 (h_reg (ts_hart s) TP) /\ areg u' T0 = u64 usertrap_addr /\
      forall r, load64 (am_mem u') (tf + tf_off r) = areg u r.
Proof.
  destruct (usertrapret_spec me c s) as (satp & c' & s' & Hrun & -> & -> & Hr).
  eexists _, s'. split; [exact Hrun|]. split; [done|]. split_and!; [apply Hr..|].
  intros xlate u tf Hm Hw Hsame u'. destruct (uservec_spec xlate tf u Hm Hw) as (Hsv & Hsp & Htp & Ht0 & Hst & _).
  unfold TF_kernel_hartid in Hsame. subst u'.
  rewrite Hst, Hsp, Htp, Ht0, !Hsame by lia. split_and!; [apply Hr..|exact Hsv].
Qed.
End reentry.

(** ** The clock *)

Section clock.
Context {L : Type} `{KernelImage} `{KernelText} `{BlockLayer L}.

(** The kernel after a tick: the counter has advanced and the sleepers on it run. *)
Definition ticked (me : Z) (k k' : kernel L) : Prop :=
  k_ticks k' = u32 (k_ticks k + 1) /\ k_files k' = k_files k /\
  forall q, valid q -> sl k' q =
    if decide (q <> me /\ sl_state (sl k q) = SLEEPING /\ sl_chan (sl k q) = Some CH_ticks)
    then wake_slot CH_ticks (sl k q) else sl k q.

Lemma clockintr_spec me c k :
  wf_table k -> held c = [] ->
  wp (clockintr me) c k (fun _ c' k' => held c' = [] /\ mypid c' = mypid c /\ ticked me k k').
Proof.
  intros Hw Hh. apply wp_bind, wp_acquire; [rewrite Hh; apply not_elem_of_nil|].
  apply wp_bind, wp_modify, wp_bind. eapply wp_mono.
  { apply wakeup_spec; [exact Hw|]. intros p _ _. cbn. rewrite Hh. intros [?|?%elem_of_nil]%elem_of_cons; done. }
  cbn. intros _ c' k' [-> Hwo]. apply (wp_release _ _ c); [done|by rewrite Hh; apply not_elem_of_nil|].
  split_and!; [done|done|]. split_and!; [apply Hwo|apply Hwo|]. intros q Hq. rewrite (wo_sl _ _ _ _ _ Hwo q Hq).
  change (sl (Kernel _ _ _ _ _ _) q) with (sl k q).
  assert (q ∈ upto NPROC) by (by apply elem_of_upto).
  repeat case_decide; try tauto. unfold wake_slot. do 2 case_bool_decide; cbn; try done. tauto.
Qed.
End clock.

(** ** Sleeping for a number of ticks *)

Section sleeping.
Context {L : Type}.

(** [killed], [sleep] by a thread that holds nothing but [LK_ticks]. *)
Lemma killed_ticks me c (k : kernel L) :
  held c = [LK_ticks] ->
  killed me c k = Ok (p_killed (procat k me)) c k.
Proof.
  destruct c as [h w pid]. cbn. intros ->. unfold killed, acquire, release, bind, pget, gets, ret. cbn [held wakes mypid].
  rewrite decide_False by (intros [[=]|?%elem_of_nil]%elem_of_cons; done). cbn [held wakes mypid].
  rewrite decide_True by apply list_elem_of_here. do 3 f_equal. unfold remove_lock.
  rewrite filter_cons_False by naive_solver. rewrite filter_cons_True by done. by rewrite filter_nil.
Qed.

Lemma sleep_ticks me c (k : kernel L) :
  wf_table k -> valid me -> held c = [LK_ticks] ->
  exists c' k', sleep me CH_ticks LK_ticks c k = Ok tt c' k' /\ held c' = [LK_proc me] /\
    sl k' me = asleep_on CH_ticks (sl k me) /\ forall q, valid q -> q <> me -> sl k' q = sl k q.
Proof.
  intros Hw Hme Hh. destruct c as [h w pid]. cbn in Hh. subst h.
  set (f1 := set_chan (Some CH_ticks)). set (f2 := set_state SLEEPING).
  set (k' := upd_proc me f2 (upd_proc me f1 k)).
  assert (Hp : procat k' me = f2 (f1 (procat k me))).
  { unfold k'. rewrite procat_upd, decide_True, procat_upd, decide_True; by try apply wf_upd. }
  exists (Ctx [LK_proc me] w pid), k'. split_and!; [|done| |].
  - unfold sleep, acquire, release, bind at 1. cbn [held wakes mypid].
    rewrite decide_False by (intros [[=]|?%elem_of_nil]%elem_of_cons; done).
    unfold bind at 1. cbn [held wakes mypid]. rewrite decide_True by (right; left). unfold remove_lock.
    rewrite filter_cons_True, filter_cons_False, filter_nil by (done || naive_solver).
    unfold pset, modify, bind. fold f1 f2. fold k'. unfold sched, bind, holding, ret, pget, gets. cbn [held length].
    rewrite bool_decide_true by left. cbn [negb held length Nat.eqb]. rewrite Hp. done.
  - unfold sl. by rewrite Hp.
  - intros q Hq Hne. unfold k'. rewrite sl_upd, decide_False, sl_upd, decide_False; by try apply wf_upd.
Qed.

(** The number of ticks a caller of [sleep(n)] asks for: the comparison is unsigned. *)
Definition sleep_span (n : Z) : Z := if n <? 0 then n + 2 ^ 32 else n.

Lemma sleep_more_span t0 d n :
  0 <= d < 2 ^ 32 -> - 2 ^ 31 <= n < 2 ^ 31 -> sleep_more (u32 (t0 + d)) t0 n = (d <? sleep_span n).
Proof.
  intros Hd Hn. unfold sleep_more, sleep_span.
  assert (u32 (u32 (t0 + d) - t0) = d) as ->.
  { unfold u32. rewrite Zminus_mod_idemp_l. replace (t0 + d - t0) with d by lia. apply Z.mod_small. lia. }
  f_equal. unfold u32. destruct (n <? 0) eqn:E; bool_spec.
  - rewrite <- (Z.mod_add n 1) by lia. apply Z.mod_small. lia.
  - apply Z.mod_small. lia.
Qed.

(** C25: A process that called [sleep(n)] at tick [t0] and looks at the clock [d] ticks
    later: it returns 0 exactly when [n] ticks have passed, also when the 32-bit
    counter has wrapped in between; before that it returns -1 if it has been killed and
    otherwise sleeps on [ticks] again, releasing [tickslock].  A negative [n] stands for
    [n + 2^32] ticks, because the source compares unsigned numbers. *)
Theorem sys_sleep_duration me n t0 d c (k : kernel L) :
  wf_table k -> valid me -> held c = [LK_ticks] ->
  0 <= d < 2 ^ 32 -> - 2 ^ 31 <= n < 2 ^ 31 -> k_ticks k = u32 (t0 + d) ->
  exists r c' k', sys_sleep_turn me n t0 c k = Ok r c' k' /\
    if decide (sleep_span n <= d) then r = Ret 0 /\ held c' = [] /\ k' = k
    else if p_killed (procat k me) then r = ret_int (-1) /\ held c' = [] /\ k' = k
    else r = Sleeping CH_ticks t0 /\ held c' = [LK_proc me] /\ sl k' me = asleep_on CH_ticks (sl k me) /\
      forall q, valid q -> q <> me -> sl k' q = sl k q.
Proof.
  intros Hw Hme Hh Hd Hn Ht.
  assert (Hr : release LK_ticks c k = Ok tt (Ctx [] (wakes c) (mypid c)) k).
  { unfold release. rewrite Hh, decide_True by left. unfold remove_lock. by rewrite filter_cons_False, filter_nil by naive_solver. }
  unfold sys_sleep_turn. unfold bind at 1. unfold gets at 1. rewrite Ht, sleep_more_span by done.
  destruct (decide (sleep_span n <= d)); destruct (d <? sleep_span n) eqn:E; bool_spec; [lia| | |lia].
  2: { unfold bind at 1. rewrite killed_ticks by done. cbv beta iota.
    destruct (p_killed (procat k me)).
    + unfold bind. rewrite Hr. eexists _, _, _. split; [reflexivity|done].
    + destruct (sleep_ticks me c k Hw Hme Hh) as (c' & k' & E' & Hc' & Hs & Hq). unfold bind. rewrite E'.
      eexists _, _, _. split; [reflexivity|done]. }
  unfold bind. rewrite Hr. eexists _, _, _. split; [reflexivity|done].
Qed.
End sleeping.
