(* ===== verification/SchedInv.v ===== *)
(** * Invariants of scheduling

    The transition system of [NCPU] processors that run the operations of Proc, and
    the invariant of the process table in it.  What runs under [wait_lock] or, outside of
    it, under one [p->lock] is one step: [fork] makes three, [kill] and [wakeup] one for
    each slot they look at; [allocproc] has released all slots but the one it takes, so
    that it may have looked at the others, which [fork_copy] is not given, long before.
    [exit] has a step for the files and one for the part that begins with [wait_lock]; a
    turn of [wait] is one step, with the [pp->lock]s it takes.  A system call on files
    or memory, [growproc] and [exec] are each one step; they reach the process table only
    through the wakeups they make and the sleep they end in. *)

From S2P Require Import Prelude KMonad Riscv Mem Kalloc Vm UserMem UserVm Pipe Bytes Sleeplock Bio BlockLayer Fs FsDir File Syscall Proc Exec Sched.

Section steps.
Context {L : Type} `{KernelImage} `{KernelText} `{BlockLayer L} `{DevSw umach}.

Implicit Types (k : kernel L) (cpu : list (option Z)).

Definition own_lock (p : Z) : ctx := Ctx [LK_proc p] [] 0.

(** Channels that [wait] does not use. *)
Definition not_wait (ch : chan) : Prop := forall q, ch <> CH_proc q.

(** [cpu] holds [c->proc] of each processor. *)
Inductive mstep (k : kernel L) (cpu : list (option Z)) : kernel L -> list (option Z) -> Prop :=
(** the scheduler of an idle processor picks a process *)
| ms_dispatch c p c' k' :
    cpu !! c = Some None -> valid p ->
    scheduler_try p no_locks k = Ok true c' k' -> mstep k cpu k' (<[c := Some p]> cpu)
(** the running process gives the processor up *)
| ms_yield c p c' k' :
    cpu !! c = Some (Some p) ->
    yield p no_locks k = Ok tt c' k' -> mstep k cpu k' (<[c := None]> cpu)
| ms_sleep c p ch lk c' k' :
    cpu !! c = Some (Some p) -> not_wait ch ->
    sleep p ch lk (Ctx [lk] [] 0) k = Ok tt c' k' -> mstep k cpu k' (<[c := None]> cpu)
(** it goes on after [sched] *)
| ms_sleep_resume c p lk c' k' :
    cpu !! c = Some (Some p) ->
    sleep_resume p lk (own_lock p) k = Ok tt c' k' -> mstep k cpu k' cpu
(** wakeup by a process or, with [me = NULL], by an interrupt *)
| ms_wakeup me ch p c' k' :
    valid p -> wakeup_one me ch p no_locks k = Ok tt c' k' -> mstep k cpu k' cpu
| ms_kill pid p r c' k' :
    valid p -> kill_one pid p no_locks k = Ok r c' k' -> mstep k cpu k' cpu
| ms_setkilled p c' k' :
    valid p -> setkilled p no_locks k = Ok tt c' k' -> mstep k cpu k' cpu
(** the first process, and new ones; pids do not overflow *)
| ms_userinit c' k' :
    k_nextpid k < 2 ^ 31 - 1 ->
    userinit no_locks k = Ok tt c' k' -> mstep k cpu k' cpu
| ms_fork_copy c p ps r c' k' :
    cpu !! c = Some (Some p) -> (forall q, q ∈ ps -> valid q) -> k_nextpid k < 2 ^ 31 - 1 ->
    fork_copy ps p no_locks k = Ok r c' k' -> mstep k cpu k' cpu
| ms_fork_parent c p np c' k' :
    cpu !! c = Some (Some p) -> valid np -> sl_state (sl k np) = USED ->
    fork_parent p np no_locks k = Ok tt c' k' -> mstep k cpu k' cpu
| ms_fork_run c p np c' k' :
    cpu !! c = Some (Some p) -> valid np -> sl_state (sl k np) = USED ->
    fork_run np no_locks k = Ok tt c' k' -> mstep k cpu k' cpu
(** system calls on files and memory; one that blocks has put the process to sleep *)
| ms_call {A} c p (m : M (sysst L umach) A) r c' k' :
    cpu !! c = Some (Some p) ->
    curop p m no_locks k = Ok r c' k' -> mstep k cpu k' cpu
| ms_block {A} c p (m : M (sysst L umach) A) ch c' k' :
    cpu !! c = Some (Some p) -> not_wait ch ->
    curop p m no_locks k = Block ch c' k' -> mstep k cpu k' (<[c := None]> cpu)
| ms_growproc c p n r c' k' :
    cpu !! c = Some (Some p) ->
    growproc p n no_locks k = Ok r c' k' -> mstep k cpu k' cpu
| ms_exec c p path argv r c' k' :
    cpu !! c = Some (Some p) ->
    exec p path argv no_locks k = Ok r c' k' -> mstep k cpu k' cpu
(** the two parts of [exit] *)
| ms_exit_files c p c' k' :
    cpu !! c = Some (Some p) ->
    exit_files p no_locks k = Ok tt c' k' -> mstep k cpu k' cpu
| ms_exit c p status c' k' :
    cpu !! c = Some (Some p) -> p <> k_initproc k ->
    exit_zombie p status no_locks k = Ok tt c' k' -> mstep k cpu k' (<[c := None]> cpu)
(** a turn of [wait], which returns or goes to sleep *)
| ms_wait c p addr v c' k' :
    cpu !! c = Some (Some p) ->
    wait p addr no_locks k = Ok (Some v) c' k' -> mstep k cpu k' cpu
| ms_wait_sleep c p addr c' k' :
    cpu !! c = Some (Some p) ->
    wait p addr no_locks k = Ok None c' k' -> mstep k cpu k' (<[c := None]> cpu)
| ms_wait_again c p addr v c' k' :
    cpu !! c = Some (Some p) ->
    wait_resume p addr (own_lock p) k = Ok (Some v) c' k' -> mstep k cpu k' cpu
| ms_wait_again_sleep c p addr c' k' :
    cpu !! c = Some (Some p) ->
    wait_resume p addr (own_lock p) k = Ok None c' k' -> mstep k cpu k' (<[c := None]> cpu).

(** After [procinit], before [userinit]. *)
Definition mstart (k : kernel L) (cpu : list (option Z)) : Prop :=
  wf_table k /\ (forall p, valid p -> sl k p = freed) /\ k_nextpid k = 1 /\
  cpu = replicate (Z.to_nat NCPU) None.

Inductive reachable : kernel L -> list (option Z) -> Prop :=
| reach_start k cpu : mstart k cpu -> reachable k cpu
| reach_step k cpu k' cpu' : reachable k cpu -> mstep k cpu k' cpu' -> reachable k' cpu'.

(** ** The invariant *)

Record cpu_inv (k : kernel L) (cpu : list (option Z)) : Prop := {
  ci_running c p : cpu !! c = Some (Some p) -> valid p /\ sl_state (sl k p) = RUNNING;
  ci_unique c1 c2 p : cpu !! c1 = Some (Some p) -> cpu !! c2 = Some (Some p) -> c1 = c2;
  ci_cpu p : valid p -> sl_state (sl k p) = RUNNING -> exists c, cpu !! c = Some (Some p)
}.

Record pid_inv (k : kernel L) : Prop := {
  pi_unused p : valid p -> sl_state (sl k p) = UNUSED -> sl_pid (sl k p) = 0;
  pi_range p : valid p -> sl_state (sl k p) <> UNUSED -> 0 < sl_pid (sl k p) < k_nextpid k;
  pi_inj p q : valid p -> valid q -> sl_state (sl k p) <> UNUSED -> sl_state (sl k q) <> UNUSED ->
    sl_pid (sl k p) = sl_pid (sl k q) -> p = q;
  pi_next : 0 < k_nextpid k < 2 ^ 31
}.

(** No process sleeps in [wait] while one of its children is a zombie. *)
Definition wait_inv (k : kernel L) : Prop := forall p q,
  valid p -> valid q ->
  sl_state (sl k p) = SLEEPING -> sl_chan (sl k p) = Some (CH_proc p) ->
  sl_parent (sl k q) = p -> sl_state (sl k q) <> ZOMBIE.

Record minv (k : kernel L) (cpu : list (option Z)) : Prop := {
  mi_wf : wf_table k;
  mi_cpu : cpu_inv k cpu;
  mi_pid : pid_inv k;
  mi_wait : wait_inv k
}.

(** Slots of other processes change at most from SLEEPING to RUNNABLE. *)
Definition same_or_woken (x x' : slot) : Prop :=
  x' = x \/ sl_state x = SLEEPING /\ x' = sl_set_state RUNNABLE x.

Lemma sow_running x x' : same_or_woken x x' -> sl_state x' = RUNNING <-> sl_state x = RUNNING.
Proof. intros [->|[E ->]]; [done|]. rewrite E. cbn. split; discriminate. Qed.
Lemma sow_unused x x' : same_or_woken x x' -> sl_state x' = UNUSED <-> sl_state x = UNUSED.
Proof. intros [->|[E ->]]; [done|]. rewrite E. cbn. split; discriminate. Qed.
Lemma sow_zombie x x' : same_or_woken x x' -> sl_state x' = ZOMBIE <-> sl_state x = ZOMBIE.
Proof. intros [->|[E ->]]; [done|]. rewrite E. cbn. split; discriminate. Qed.
Lemma sow_sleeping x x' : same_or_woken x x' -> sl_state x' = SLEEPING -> x' = x.
Proof. intros [->|[E ->]]; [done|]. discriminate. Qed.
Lemma sow_pid x x' : same_or_woken x x' -> sl_pid x' = sl_pid x.
Proof. by intros [->|[E ->]]. Qed.
Lemma sow_parent x x' : same_or_woken x x' -> sl_parent x' = sl_parent x.
Proof. by intros [->|[E ->]]. Qed.

Lemma minv_quiet me k k' cpu : quiet me k k' -> minv k cpu -> minv k' cpu.
Proof.
  intros Hq [Hw Hc Hp Hz].
  assert (Hs : forall q, valid q -> same_or_woken (sl k q) (sl k' q)).
  { intros q Hv. destruct (q_sl _ _ _ Hq Hw q Hv) as [?|(_ & ? & ?)]; [by left|by right]. }
  split.
  - by eapply quiet_wf.
  - split.
    + intros c p Hcp. destruct (ci_running _ _ Hc c p Hcp) as [Hv Hr]. split; [done|].
      by apply (sow_running _ _ (Hs p Hv)).
    + apply Hc.
    + intros p Hv Hr. apply (ci_cpu _ _ Hc p Hv). by apply (sow_running _ _ (Hs p Hv)).
  - split.
    + intros p Hv Hu. rewrite (sow_pid _ _ (Hs p Hv)). apply Hp; [done|]. by apply (sow_unused _ _ (Hs p Hv)).
    + intros p Hv Hu. rewrite (sow_pid _ _ (Hs p Hv)), (q_next _ _ _ Hq). apply Hp; [done|].
      by rewrite <- (sow_unused _ _ (Hs p Hv)).
    + intros p q Hv Hv'. rewrite (sow_pid _ _ (Hs p Hv)), (sow_pid _ _ (Hs q Hv')).
      rewrite (sow_unused _ _ (Hs p Hv)), (sow_unused _ _ (Hs q Hv')). by apply Hp.
    + rewrite (q_next _ _ _ Hq). apply Hp.
  - intros p q Hv Hv' Hsl Hch Hpar. apply (sow_sleeping _ _ (Hs p Hv)) in Hsl as E. rewrite E in Hsl, Hch.
    rewrite (sow_parent _ _ (Hs q Hv')) in Hpar. rewrite (sow_zombie _ _ (Hs q Hv')).
    exact (Hz p q Hv Hv' Hsl Hch Hpar).
Qed.

Lemma minv_quietly {A} me (m : M (kernel L) A) c k r c' k' cpu :
  quietly me m -> m c k = Ok r c' k' -> minv k cpu -> minv k' cpu.
Proof. intros Hq E. eapply minv_quiet. exact (Hq k c r c' k' E). Qed.

(** A process has changed, and its processor accordingly. *)
Lemma cpu_inv_updates me p x n k k' cpu cpu' :
  updates me p x n k k' -> valid p -> cpu_inv k cpu ->
  (cpu' = cpu /\ (sl_state x = RUNNING <-> sl_state (sl k p) = RUNNING)
   \/ (exists c, cpu !! c = Some (Some p) /\ cpu' = <[c := None]> cpu /\ sl_state x <> RUNNING)
   \/ (exists c, cpu !! c = Some None /\ cpu' = <[c := Some p]> cpu /\
         sl_state x = RUNNING /\ sl_state (sl k p) <> RUNNING)) ->
  cpu_inv k' cpu'.
Proof.
  intros Hu Hp Hc Hcase.
  assert (Hs : forall q, valid q -> q <> p -> sl_state (sl k' q) = RUNNING <-> sl_state (sl k q) = RUNNING).
  { intros q Hv Hn. apply sow_running. destruct (u_other _ _ _ _ _ _ Hu q Hv Hn) as [?|(_ & ? & ?)]; [by left|by right]. }
  assert (Ex := u_at _ _ _ _ _ _ Hu).
  destruct Hcase as [[-> Hx]|[(c & Hcp & -> & Hx)|(c & Hcp & -> & Hx & Hold)]].
  - split.
    + intros c q Hq. destruct (ci_running _ _ Hc c q Hq) as [Hv Hr]. split; [done|].
      destruct (decide (q = p)) as [->|Hn]; [by rewrite Ex, Hx|by apply Hs].
    + apply Hc.
    + intros q Hv Hr. apply (ci_cpu _ _ Hc q Hv).
      destruct (decide (q = p)) as [->|Hn]; [by rewrite Ex, Hx in Hr|by apply Hs].
  - split.
    + intros c1 q [(-> & [=] & _)|[Hn Hq]]%list_lookup_insert_Some.
      destruct (ci_running _ _ Hc c1 q Hq) as [Hv Hr]. split; [done|]. apply Hs; [done| |done].
      intros ->. apply Hn. by eapply Hc.
    + intros c1 c2 q [(-> & [=] & _)|[_ H1']]%list_lookup_insert_Some
        [(-> & [=] & _)|[_ H2']]%list_lookup_insert_Some. by eapply Hc.
    + intros q Hv Hr. destruct (decide (q = p)) as [->|Hn]; [by rewrite Ex in Hr|].
      apply Hs in Hr; [|done|done]. destruct (ci_cpu _ _ Hc q Hv Hr) as [c1 Hc1]. exists c1.
      rewrite list_lookup_insert_ne; [done|]. intros ->. simplify_eq.
  - assert (Hlen : (c < length cpu)%nat) by (by eapply lookup_lt_Some).
    split.
    + intros c1 q [(-> & [= <-] & _)|[_ Hq]]%list_lookup_insert_Some; [by rewrite Ex|].
      destruct (ci_running _ _ Hc c1 q Hq) as [Hv Hr]. split; [done|]. apply Hs; [done| |done].
      by intros ->.
    + intros c1 c2 q [(-> & [= <-] & _)|[_ H1']]%list_lookup_insert_Some
        [(-> & E & _)|[_ H2']]%list_lookup_insert_Some.
      * done.
      * by destruct (ci_running _ _ Hc c2 _ H2').
      * simplify_eq. by destruct (ci_running _ _ Hc c1 _ H1').
      * by eapply Hc.
    + intros q Hv Hr. destruct (decide (q = p)) as [->|Hn].
      * exists c. by apply list_lookup_insert_eq.
      * apply Hs in Hr; [|done|done]. destruct (ci_cpu _ _ Hc q Hv Hr) as [c1 Hc1]. exists c1.
        rewrite list_lookup_insert_ne; [done|]. intros ->. simplify_eq.
Qed.

Lemma updates_sow me p x n k k' q :
  updates me p x n k k' -> valid q -> q <> p -> same_or_woken (sl k q) (sl k' q).
Proof. intros Hu Hv Hn. destruct (u_other _ _ _ _ _ _ Hu q Hv Hn) as [?|(_ & ? & ?)]; [by left|by right]. Qed.

(** The pid of the changed process is kept, cleared or fresh. *)
Lemma pid_inv_updates me p x n k k' :
  updates me p x n k k' -> valid p -> pid_inv k -> k_nextpid k <= n < 2 ^ 31 ->
  (sl_state x = UNUSED /\ sl_pid x = 0
   \/ sl_state x <> UNUSED /\ sl_state (sl k p) <> UNUSED /\ sl_pid x = sl_pid (sl k p)
   \/ sl_state x <> UNUSED /\ sl_pid x = k_nextpid k /\ k_nextpid k < n) ->
  pid_inv k'.
Proof.
  intros Hu Hp [Hun Hrg Hinj Hnx] Hn Hx.
  assert (Ex := u_at _ _ _ _ _ _ Hu). assert (En := u_next _ _ _ _ _ _ Hu).
  assert (Hs := fun q => updates_sow _ _ _ _ _ _ q Hu).
  assert (Hx' : sl_state x <> UNUSED -> 0 < sl_pid x < n /\
    forall q, valid q -> q <> p -> sl_state (sl k q) <> UNUSED -> sl_pid x <> sl_pid (sl k q)).
  { intros Hne. destruct Hx as [[? _]|[(_ & Ho & ->)|(_ & -> & Hlt)]]; [done|..]; split.
    - specialize (Hrg p Hp Ho). lia.
    - intros q Hq Hqp Hqu E. apply Hqp. by apply Hinj.
    - lia.
    - intros q Hq _ Hqu. specialize (Hrg q Hq Hqu). lia. }
  split.
  - intros q Hq. destruct (decide (q = p)) as [->|Hqp].
    + rewrite Ex. intros E. destruct Hx as [[_ ?]|[(? & _)|(? & _)]]; done.
    + rewrite (sow_pid _ _ (Hs q Hq Hqp)), (sow_unused _ _ (Hs q Hq Hqp)). by apply Hun.
  - intros q Hq. rewrite En. destruct (decide (q = p)) as [->|Hqp].
    + rewrite Ex. apply Hx'.
    + rewrite (sow_pid _ _ (Hs q Hq Hqp)), (sow_unused _ _ (Hs q Hq Hqp)). intros Hqu.
      specialize (Hrg q Hq Hqu). lia.
  - intros q r Hq Hr. destruct (decide (q = p)) as [->|Hqp]; destruct (decide (r = p)) as [->|Hrp]; try done;
      rewrite ?Ex; rewrite ?(sow_pid _ _ (Hs q Hq Hqp)), ?(sow_unused _ _ (Hs q Hq Hqp)),
        ?(sow_pid _ _ (Hs r Hr Hrp)), ?(sow_unused _ _ (Hs r Hr Hrp)); intros H3 H4 E.
    + exfalso. by eapply (proj2 (Hx' H3) r).
    + exfalso. by eapply (proj2 (Hx' H4) q).
    + by apply Hinj.
  - rewrite En. lia.
Qed.

(** The changed process does not become a zombie, nor sleep in wait with a zombie child. *)
Lemma wait_inv_updates me p x n k k' :
  updates me p x n k k' -> valid p -> wait_inv k ->
  (sl_state x = ZOMBIE -> sl_state (sl k p) = ZOMBIE /\ sl_parent x = sl_parent (sl k p)) ->
  (sl_state x = SLEEPING -> sl_chan x = Some (CH_proc p) ->
     forall q, valid q -> sl_parent (sl k q) = p -> sl_state (sl k q) <> ZOMBIE) ->
  wait_inv k'.
Proof.
  intros Hu Hp Hwi Hxz Hxs q r Hq Hr.
  assert (Ex := u_at _ _ _ _ _ _ Hu). assert (Hs := fun q => updates_sow _ _ _ _ _ _ q Hu).
  assert (Hz : sl_state (sl k' r) = ZOMBIE -> sl_state (sl k r) = ZOMBIE /\ sl_parent (sl k' r) = sl_parent (sl k r)).
  { destruct (decide (r = p)) as [->|Hn]; [by rewrite Ex|].
    rewrite (sow_zombie _ _ (Hs r Hr Hn)), (sow_parent _ _ (Hs r Hr Hn)). done. }
  intros Hsl Hch Hpar Hzr. destruct (Hz Hzr) as [Hzr' Epar]. rewrite Epar in Hpar.
  destruct (decide (q = p)) as [->|Hn].
  - rewrite Ex in Hsl, Hch. by apply (Hxs Hsl Hch r).
  - assert (E := sow_sleeping _ _ (Hs q Hq Hn) Hsl). rewrite E in Hsl, Hch. by apply (Hwi q r).
Qed.

Lemma minv_updates me p x n k k' cpu cpu' :
  updates me p x n k k' -> valid p -> minv k cpu -> k_nextpid k <= n < 2 ^ 31 ->
  (cpu' = cpu /\ (sl_state x = RUNNING <-> sl_state (sl k p) = RUNNING)
   \/ (exists c, cpu !! c = Some (Some p) /\ cpu' = <[c := None]> cpu /\ sl_state x <> RUNNING)
   \/ (exists c, cpu !! c = Some None /\ cpu' = <[c := Some p]> cpu /\
         sl_state x = RUNNING /\ sl_state (sl k p) <> RUNNING)) ->
  (sl_state x = UNUSED /\ sl_pid x = 0
   \/ sl_state x <> UNUSED /\ sl_state (sl k p) <> UNUSED /\ sl_pid x = sl_pid (sl k p)
   \/ sl_state x <> UNUSED /\ sl_pid x = k_nextpid k /\ k_nextpid k < n) ->
  (sl_state x = ZOMBIE -> sl_state (sl k p) = ZOMBIE /\ sl_parent x = sl_parent (sl k p)) ->
  (sl_state x = SLEEPING -> sl_chan x = Some (CH_proc p) ->
     forall q, valid q -> sl_parent (sl k q) = p -> sl_state (sl k q) <> ZOMBIE) ->
  minv k' cpu'.
Proof.
  intros Hu Hp Hm Hn Hcpu Hpid Hz Hsl. split.
  - eapply updates_wf; [done|apply Hm].
  - eapply cpu_inv_updates; [done|done|apply Hm|done].
  - eapply pid_inv_updates; [done|done|apply Hm|done|done].
  - eapply wait_inv_updates; [done|done|apply Hm|done|done].
Qed.

(** [exit]: the zombie's parent, and init if it got children, are awake. *)
Lemma minv_exited p status k k' cpu c :
  exited p status k k' -> cpu !! c = Some (Some p) -> k_initproc k <> p -> minv k cpu ->
  minv k' (<[c := None]> cpu).
Proof.
  intros He Hcp Hi [Hw Hc Hpi Hwi].
  destruct (ci_running _ _ Hc c p Hcp) as [Hp Hrun].
  destruct (ex_me _ _ _ _ He) as (Ezom & _ & Epid & _).
  assert (Hoth : forall q, valid q -> q <> p -> sl_pid (sl k' q) = sl_pid (sl k q) /\
     (sl_state (sl k' q) = sl_state (sl k q) \/ sl_state (sl k q) = SLEEPING /\ sl_state (sl k' q) = RUNNABLE) /\
     sl_chan (sl k' q) = sl_chan (sl k q) /\
     sl_parent (sl k' q) = if decide (sl_parent (sl k q) = p) then k_initproc k else sl_parent (sl k q)).
  { intros q Hq Hn. destruct (ex_other _ _ _ _ He q Hq Hn) as (st & E & Hst). rewrite E. cbn.
    split_and!; [done|naive_solver|done|]. apply decide_ext. rewrite elem_of_upto. naive_solver. }
  split.
  - apply He.
  - split.
    + intros c1 q [(-> & [=] & _)|[Hn Hq]]%list_lookup_insert_Some.
      destruct (ci_running _ _ Hc c1 q Hq) as [Hv Hr]. split; [done|].
      assert (Hqp : q <> p) by (intros ->; apply Hn; by eapply Hc).
      destruct (Hoth q Hv Hqp) as (_ & [->|[E _]] & _); congruence.
    + intros c1 c2 q [(-> & [=] & _)|[_ H1']]%list_lookup_insert_Some
        [(-> & [=] & _)|[_ H2']]%list_lookup_insert_Some. by eapply Hc.
    + intros q Hv Hr. assert (Hqp : q <> p) by (intros ->; congruence).
      assert (Hr' : sl_state (sl k q) = RUNNING)
        by (destruct (Hoth q Hv Hqp) as (_ & [<-|[_ E]] & _); [done|congruence]).
      destruct (ci_cpu _ _ Hc q Hv Hr') as [c1 Hc1]. exists c1.
      rewrite list_lookup_insert_ne; [done|]. intros ->. simplify_eq.
  - assert (Hst : forall q, valid q -> sl_pid (sl k' q) = sl_pid (sl k q) /\
        (sl_state (sl k' q) = UNUSED <-> sl_state (sl k q) = UNUSED)).
    { intros q Hq. destruct (decide (q = p)) as [->|Hn]; [split; [done|]; by rewrite Ezom, Hrun|].
      destruct (Hoth q Hq Hn) as (? & Hst & _). split; [done|]. destruct Hst as [->|[-> ->]]; done. }
    destruct Hpi as [Hun Hrg Hinj Hnx]. split.
    + intros q Hq. destruct (Hst q Hq) as [-> ->]. by apply Hun.
    + intros q Hq. rewrite (ex_next _ _ _ _ He). destruct (Hst q Hq) as [-> ->]. by apply Hrg.
    + intros q r Hq Hr. destruct (Hst q Hq) as [-> ->], (Hst r Hr) as [-> ->]. by apply Hinj.
    + by rewrite (ex_next _ _ _ _ He).
  - intros q r Hq Hr Hsl Hch Hpar Hz.
    assert (Hqp : q <> p) by (intros ->; congruence).
    destruct (decide (r = p)) as [->|Hrp].
    + eapply (ex_parent _ _ _ _ He q); [done|done|done|]. by rewrite Hpar.
    + destruct (Hoth r Hr Hrp) as (_ & Hst & _ & Epar). rewrite Epar in Hpar.
      destruct (decide (sl_parent (sl k r) = p)) as [Ep|Ep].
      * eapply (ex_children _ _ _ _ He); [exists r; split; [exact Hr|exact Ep]|exact Hq|done|done|].
        by rewrite Hch, Hpar.
      * destruct (Hoth q Hq Hqp) as (_ & Hstq & Echq & _). rewrite Echq in Hch.
        apply (Hwi q r Hq Hr); [|done|done|]; [destruct Hstq as [<-|[_ ?]]|destruct Hst as [<-|[_ ?]]]; congruence.
Qed.

Lemma minv_start k cpu : mstart k cpu -> minv k cpu.
Proof.
  intros (Hw & Hs & Hn & ->). split; [done| | |].
  - split.
    + by intros c p [? _]%lookup_replicate.
    + by intros c1 c2 p [? _]%lookup_replicate.
    + intros p Hp. by rewrite Hs.
  - split; [| | |rewrite Hn; lia]; intros p; try intros q; intros; rewrite Hs in *; done.
  - intros p q Hp Hq. by rewrite Hs.
Qed.

(** The slot of the process a processor runs. *)
Lemma minv_running k cpu c p :
  minv k cpu -> cpu !! c = Some (Some p) -> valid p /\ sl_state (sl k p) = RUNNING.
Proof. intros Hm. apply Hm. Qed.

(** A running process that stays alive keeps its pid. *)
Lemma minv_updates_run me p x k k' cpu cpu' c :
  updates me p x (k_nextpid k) k k' -> cpu !! c = Some (Some p) -> minv k cpu ->
  sl_state x <> UNUSED -> sl_state x <> ZOMBIE -> sl_pid x = sl_pid (sl k p) ->
  (cpu' = cpu /\ sl_state x = RUNNING \/ cpu' = <[c := None]> cpu /\ sl_state x <> RUNNING) ->
  (sl_state x = SLEEPING -> sl_chan x = Some (CH_proc p) ->
     forall q, valid q -> sl_parent (sl k q) = p -> sl_state (sl k q) <> ZOMBIE) ->
  minv k' cpu'.
Proof.
  intros Hu Hc Hm Hx Hz Epid Hcpu Hsl. destruct (minv_running _ _ _ _ Hm Hc) as [Hp Hrun].
  assert (Hnx := pi_next _ (mi_pid _ _ Hm)).
  eapply minv_updates; [done|done|done|lia| | |done|done].
  - destruct Hcpu as [[-> ?]|[-> ?]]; [left; by rewrite Hrun|right; left; eauto].
  - right. left. by rewrite Hrun.
Qed.

Lemma minv_reaped p v k k' cpu : reaped p v k k' -> minv k cpu -> minv k' cpu.
Proof.
  intros (q & Hq & Hpar & Hz & _ & Hu) Hm. assert (Hnx := pi_next _ (mi_pid _ _ Hm)).
  eapply minv_updates; [done|done|done|lia|left; split; [done|]; by rewrite Hz|by left|done|done].
Qed.

Lemma minv_killed q k k' cpu :
  updates NULL q (killed_slot (sl k q)) (k_nextpid k) k k' -> valid q -> minv k cpu -> minv k' cpu.
Proof.
  intros Hu Hq Hm. assert (Hnx := pi_next _ (mi_pid _ _ Hm)).
  assert (Hun := pi_unused _ (mi_pid _ _ Hm) q Hq).
  eapply minv_updates; [done|done|done|lia| | | |]; cbn; case_bool_decide as Es; rewrite ?Es; try done.
  - by left.
  - by left.
  - by right; left.
  - destruct (decide (sl_state (sl k q) = UNUSED)); [by left; auto|by right; left].
Qed.

Lemma minv_wait_turn p addr k cpu c k0 cpu0 r c1 c2 k' :
  minv k cpu -> cpu !! c = Some (Some p) -> wait_turn p addr c1 k = Ok r c2 k' ->
  k0 = k' -> cpu0 = (match r with Some _ => cpu | None => <[c := None]> cpu end) -> minv k0 cpu0.
Proof.
  intros Hm Hc Hw -> ->. destruct (minv_running _ _ _ _ Hm Hc) as [Hp Hrun].
  apply (wait_turn_post p addr k (mi_wf _ _ Hm) Hp) in Hw. destruct r as [v|].
  - destruct Hw as [[_ Hq]|Hr]; [by eapply minv_quiet|by eapply minv_reaped].
  - destruct Hw as [Hno Hu]. eapply minv_updates_run; [done|done|done|done|done|done|by right|done].
Qed.

Lemma minv_alloc me q x k k' cpu :
  updates me q x (s32 (k_nextpid k + 1)) k k' -> valid q -> sl_state (sl k q) = UNUSED ->
  k_nextpid k < 2 ^ 31 - 1 -> minv k cpu ->
  (x = freed \/ sl_state x ∈ [USED; RUNNABLE] /\ sl_pid x = k_nextpid k) -> minv k' cpu.
Proof.
  intros Hu Hq Hun Hb Hm Hx. assert (Hnx := pi_next _ (mi_pid _ _ Hm)).
  assert (En : s32 (k_nextpid k + 1) = k_nextpid k + 1) by (apply s32_small; lia).
  rewrite En in Hu.
  eapply minv_updates; [done|done|done|lia| | | |];
    destruct Hx as [->|[[Ex|Ex%list_elem_of_singleton]%elem_of_cons Epid]]; rewrite ?Ex; try done.
  - left. by rewrite Hun.
  - left. by rewrite Hun.
  - left. by rewrite Hun.
  - by left.
  - right. right. split_and!; [done|done|lia].
  - right. right. split_and!; [done|done|lia].
Qed.

(** A process that is being created changes. *)
Lemma minv_used me q x k k' cpu :
  updates me q x (k_nextpid k) k k' -> valid q -> sl_state (sl k q) = USED -> minv k cpu ->
  sl_state x ∈ [USED; RUNNABLE] -> sl_pid x = sl_pid (sl k q) -> minv k' cpu.
Proof.
  intros Hu Hq Hus Hm Hx Epid. assert (Hnx := pi_next _ (mi_pid _ _ Hm)).
  assert (E : sl_state x <> RUNNING /\ sl_state x <> UNUSED /\ sl_state x <> ZOMBIE /\ sl_state x <> SLEEPING) by (split_and!; intros E; rewrite E in Hx; set_solver).
  destruct E as (? & ? & ? & ?). eapply minv_updates; [done|done|done|lia| | |done|done]; rewrite Hus; [left|right; left]; done.
Qed.

(** The invariant does not depend on the rest of the kernel. *)
Lemma minv_ext k k' cpu :
  k_proc k' = k_proc k -> k_nextpid k' = k_nextpid k -> minv k cpu -> minv k' cpu.
Proof.
  intros Ep En [Hw [] [] Hz]. assert (E : forall p, sl k' p = sl k p) by (by apply sl_procs).
  split.
  - unfold wf_table. by rewrite Ep.
  - split; intros *; rewrite ?E; eauto.
  - split; intros *; rewrite ?E, ?En; eauto.
  - intros p q. rewrite !E. apply Hz.
Qed.

Lemma wait_unfold p addr : wait (L:=L) p addr = bind (acquire LK_wait) (fun _ => wait_turn p addr).
Proof. reflexivity. Qed.
Lemma wait_resume_unfold p addr :
  wait_resume (L:=L) p addr = bind (sleep_resume p LK_wait) (fun _ => wait_turn p addr).
Proof. reflexivity. Qed.

Lemma minv_wait p addr k cpu c r c' k' :
  minv k cpu -> cpu !! c = Some (Some p) -> wait p addr no_locks k = Ok r c' k' ->
  minv k' (match r with Some _ => cpu | None => <[c := None]> cpu end).
Proof.
  intros Hm Hc. rewrite wait_unfold. intros (? & c1 & k1 & E1 & E)%bind_Ok_inv.
  assert (k1 = k) as -> by (by apply (post_acquire LK_wait k (fun _ s' => s' = k) eq_refl) in E1).
  eapply minv_wait_turn; [exact Hm|exact Hc|exact E|reflexivity|reflexivity].
Qed.

Lemma minv_wait_resume p addr k cpu c r c1 c' k' :
  minv k cpu -> cpu !! c = Some (Some p) -> wait_resume p addr c1 k = Ok r c' k' ->
  minv k' (match r with Some _ => cpu | None => <[c := None]> cpu end).
Proof.
  intros Hm Hc. rewrite wait_resume_unfold. intros (? & c2 & k1 & E1 & E)%bind_Ok_inv.
  destruct (minv_running _ _ _ _ Hm Hc) as [Hp Hrun].
  apply (sleep_resume_post p LK_wait k (mi_wf _ _ Hm) Hp) in E1.
  eapply (minv_wait_turn p addr k1 cpu); [clear E|exact Hc|exact E|reflexivity|reflexivity].
  eapply minv_updates_run; [exact E1|exact Hc|exact Hm|..]; cbn; rewrite ?Hrun; auto; done.
Qed.

Lemma mstep_minv k cpu k' cpu' : mstep k cpu k' cpu' -> minv k cpu -> minv k' cpu'.
Proof.
  intros Hst Hm. assert (Hw := mi_wf _ _ Hm). assert (Hnx := pi_next _ (mi_pid _ _ Hm)).
  destruct Hst as [c p c' k' Hc Hp E|c p c' k' Hc E|c p ch lk c' k' Hc Hch E|c p lk c' k' Hc E
    |me ch p c' k' Hp E|pid p r c' k' Hp E|p c' k' Hp E|c' k' Hb E|c p ps r c' k' Hc Hps Hb E
    |c p np c' k' Hc Hnp Hus E|c p np c' k' Hc Hnp Hus E
    |A c p m r c' k' Hc E|A c p m ch c' k' Hc Hch E|c p n r c' k' Hc E|c p path argv r c' k' Hc E
    |c p c' k' Hc E|c p st c' k' Hc Hi E|c p addr v c' k' Hc E|c p addr c' k' Hc E
    |c p addr v c' k' Hc E|c p addr c' k' Hc E];
    try (destruct (minv_running _ _ _ _ Hm Hc) as [Hp Hrun]).
  - destruct (scheduler_try_post p k Hw Hp _ _ _ _ E eq_refl) as [Hst Hu].
    eapply minv_updates; [done|done|done|lia| | |done|done].
    + right. right. exists c. rewrite Hst. done.
    + right. left. rewrite Hst. done.
  - apply (yield_post p k Hw Hp) in E.
    eapply minv_updates_run; [done|done|done|done|done|done|by right|done].
  - apply (sleep_post p ch lk k Hw Hp) in E.
    eapply minv_updates_run; [done|done|done|done|done|done|by right|].
    cbn. intros _ Ech. exfalso. apply (Hch p). congruence.
  - apply (sleep_resume_post p lk k Hw Hp) in E.
    eapply minv_updates_run; [done|done|done|..]; cbn; rewrite ?Hrun; auto; done.
  - eapply minv_quietly; [by apply quietly_wakeup_one|exact E|exact Hm].
  - apply (kill_one_post pid p k Hw Hp) in E as [(_ & -> & _)|(_ & _ & Hu)]; [done|].
    by eapply minv_killed.
  - apply (setkilled_post p k Hw Hp) in E.
    eapply minv_updates; [done|done|done|lia|by left| |done|]; cbn.
    + destruct (decide (sl_state (sl k p) = UNUSED)) as [Eu|]; [left|by right; left].
      split; [done|]. by apply (pi_unused _ (mi_pid _ _ Hm)).
    + intros Es Ech q Hq Hpar. by apply (mi_wait _ _ Hm p q).
  - apply (userinit_post k Hw) in E as (q & k1 & (Hq & Hun & _) & Hu & Ep & En).
    assert (Hm1 : minv k1 cpu) by (eapply minv_alloc; try done; right; split; [set_solver|done]).
    by eapply minv_ext.
  - apply (fork_copy_post ps p k Hw Hps Hp) in E as [[_ ->]|(q & [Hq Hun]%finds_unused & [[_ Hu]|[_ Hu]])]; [done|..|done|by rewrite Hrun].
    + eapply minv_alloc; try done. by left.
    + eapply minv_alloc; try done. right. split; [set_solver|done].
  - apply (fork_parent_post p p np _ _ k k Hw Hnp (updates_refl _ _ _)) in E.
    eapply minv_used; try done. cbn. rewrite Hus. set_solver.
  - apply (fork_run_post p np _ _ k k Hw Hnp (updates_refl _ _ _)) in E.
    eapply minv_used; try done. set_solver.
  - eapply minv_quietly; [by apply quietly_curop|exact E|exact Hm].
  - apply curop_Block in E as (k1 & Hq & ->); [|done].
    assert (Hm1 : minv k1 cpu) by (by eapply minv_quiet).
    destruct (minv_running _ _ _ _ Hm1 Hc) as [_ Hrun1].
    assert (Hw1 := mi_wf _ _ Hm1).
    assert (Hu : updates p p (asleep_on ch (sl k1 p)) (k_nextpid k1) k1
      (upd_proc p (set_state SLEEPING) (upd_proc p (set_chan (Some ch)) k1))).
    { exact (updates_pset _ _ _ _ _ _ _ _ Hw1 Hp (slotfn_state SLEEPING)
        (updates_pset _ _ _ _ _ _ _ _ Hw1 Hp (slotfn_chan (Some ch)) (updates_refl p p k1))). }
    eapply minv_updates_run; [exact Hu|done|done|done|done|done|by right|].
    cbn. intros _ Ech. exfalso. apply (Hch p). congruence.
  - eapply minv_quietly; [by apply quietly_growproc|exact E|exact Hm].
  - eapply minv_quietly; [by apply quietly_exec|exact E|exact Hm].
  - eapply minv_quietly; [by apply quietly_exit_files|exact E|exact Hm].
  - destruct (exit_zombie_spec p st no_locks k Hw Hp) as (a & c1 & k1 & E1 & _ & Hex); [done|done|].
    rewrite E in E1. simplify_eq. by eapply minv_exited.
  - exact (minv_wait _ _ _ _ _ _ _ _ Hm Hc E).
  - exact (minv_wait _ _ _ _ _ _ _ _ Hm Hc E).
  - exact (minv_wait_resume _ _ _ _ _ _ _ _ _ Hm Hc E).
  - exact (minv_wait_resume _ _ _ _ _ _ _ _ _ Hm Hc E).
Qed.

Lemma reachable_minv k cpu : reachable k cpu -> minv k cpu.
Proof. induction 1 as [|???? _ IH Hs]; [by apply minv_start|by eapply mstep_minv]. Qed.

(** [kill(0)] marks the slot that the next [fork] uses. *)
Lemma first_pid0_unused k cpu q :
  minv k cpu -> first (has_pid 0) k q <-> first unused k q.
Proof.
  intros Hm. assert (E : forall p, valid p -> has_pid 0 (sl k p) <-> unused (sl k p)).
  { intros p Hp. split; [|by apply (pi_unused _ (mi_pid _ _ Hm))].
    intros Hz. destruct (decide (unused (sl k p))) as [|Hn]; [done|].
    apply (pi_range _ (mi_pid _ _ Hm) p Hp) in Hn. unfold has_pid in Hz. lia. }
  unfold first. split; intros (Hv & Hq & Hl); (split_and!; [done|by apply E|]); intros p Hp Hp';
    apply (Hl p Hp); apply E; (done || (unfold valid in *; lia)).
Qed.

Lemma first_unused_killed k k1 q :
  first unused k q -> updates NULL q (killed_slot (sl k q)) (k_nextpid k) k k1 -> first unused k1 q.
Proof.
  intros (Hv & Hq & Hl) Hu. split_and!; [done| |].
  - unfold unused in *. rewrite (u_at _ _ _ _ _ _ Hu). cbn. by rewrite Hq.
  - intros p Hp. unfold unused.
    rewrite (sow_unused _ _ (updates_sow _ _ _ _ _ _ p Hu ltac:(unfold valid in *; lia) ltac:(lia))).
    by apply Hl.
Qed.

(** * Properties *)

(** C16: In every reachable state of the processors and the process table, a process
    is RUNNING exactly when some processor runs it, no process runs on two
    processors, and the pids of the processes in use are positive, below [nextpid]
    and distinct. *)
Theorem sched_table_invariant k cpu :
  reachable k cpu ->
  (forall p, valid p -> sl_state (sl k p) = RUNNING <-> exists c, cpu !! c = Some (Some p)) /\
  (forall c1 c2 p, cpu !! c1 = Some (Some p) -> cpu !! c2 = Some (Some p) -> c1 = c2) /\
  (forall p, valid p -> sl_state (sl k p) <> UNUSED -> 0 < sl_pid (sl k p) < k_nextpid k) /\
  (forall p q, valid p -> valid q -> sl_state (sl k p) <> UNUSED -> sl_state (sl k q) <> UNUSED ->
     sl_pid (sl k p) = sl_pid (sl k q) -> p = q).
Proof.
  intros [_ Hc Hp _]%reachable_minv. split_and!; [|apply Hc|apply Hp|apply Hp].
  intros p Hv. split; [by apply Hc|]. intros [c Hcp]. by apply Hc in Hcp as [_ ?].
Qed.

(** C17: A process never sleeps in [wait] while one of its children is a zombie, so
    the wakeup that [exit] sends before it becomes a zombie is never lost. *)
Theorem wait_exit_no_lost_wakeup k cpu p q :
  reachable k cpu -> valid p -> valid q ->
  sl_state (sl k p) = SLEEPING -> sl_chan (sl k p) = Some (CH_proc p) ->
  sl_parent (sl k q) = p -> sl_state (sl k q) <> ZOMBIE.
Proof. intros [_ _ _ Hw]%reachable_minv. by apply Hw. Qed.

(** C18: The last part of [exit], started with no lock held by a process other than
    init, always reaches the scheduler: the process is a zombie with its exit status
    and holds only its own lock, its children belong to init, other processes are
    changed at most from SLEEPING to RUNNABLE, and neither its parent nor, if it had
    children, init is left asleep in [wait]. *)
Theorem exit_reparents_and_wakes me status c k :
  wf_table k -> valid me -> k_initproc k <> me -> held c = [] ->
  exists c' k', exit_zombie me status c k = Ok tt c' k' /\ held c' = [LK_proc me] /\ exited me status k k'.
Proof.
  intros Hw Hme Hi Hc. destruct (exit_zombie_spec me status c k Hw Hme Hi Hc) as ([] & c' & k' & E & Hh & He).
  eauto.
Qed.

(** C19: [kill(0)] succeeds whenever a slot of the table is free, and the process that
    the next successful [fork] creates is born killed. *)
Theorem kill_zero_kills_next_child k cpu p c1 c2 c3 r pid k1 k2 :
  reachable k cpu -> valid p -> sl_state (sl k p) = RUNNING ->
  kill 0 no_locks k = Ok r c1 k1 -> fork p c2 k1 = Ok pid c3 k2 -> 0 < pid ->
  r = 0 /\ exists q, valid q /\ sl_state (sl k2 q) = RUNNABLE /\ sl_pid (sl k2 q) = pid /\
    sl_killed (sl k2 q) = true.
Proof.
  intros Hm%reachable_minv Hp Hrun Hk Hf Hpid. assert (Hw := mi_wf _ _ Hm).
  apply (kill_post 0 k Hw) in Hk as [(_ & -> & Hno)|(q & -> & Hq & Hu)].
  { apply fork_post in Hf as [[-> _]|(q & Hq & _)]; [lia| |done|done|by rewrite Hrun].
    apply (first_pid0_unused k cpu) in Hq; [|done]. destruct Hq as (Hv & Hq & _). by destruct (Hno q Hv). }
  apply (first_pid0_unused k cpu) in Hq; [|done]. assert (Hqk1 := first_unused_killed _ _ _ Hq Hu).
  assert (Hpq : p <> q) by (intros ->; destruct Hq as (_ & Hq & _); unfold unused in Hq; congruence).
  apply fork_post in Hf as [[-> _]|(q' & Hq' & [[-> _]|[-> Hu']])]; [lia|lia| | |done|].
  - split; [done|]. rewrite (first_unique _ _ _ _ Hq' Hqk1) in *. exists q.
    rewrite (u_at _ _ _ _ _ _ Hu'). cbn. rewrite (u_at _ _ _ _ _ _ Hu). split_and!; try done. apply Hq.
  - by eapply updates_wf.
  - rewrite (sow_unused _ _ (updates_sow _ _ _ _ _ _ p Hu Hp Hpq)). by rewrite Hrun.
Qed.
End steps.
