(* ===== verification/Boot.v ===== *)
(** * A machine that boots

    A concrete kernel on which the definitions run: [kinit] frees sixteen pages,
    [userinit] creates the first process, which is scheduled, forks, and waits for
    its child; the child exits.  The states on the way witness the theorems of
    SchedInv. *)

From S2P Require Import Prelude KMonad Riscv Mem Hart Asm Kalloc Vm UserMem UserVm Pipe Uart Console Bytes Sleeplock Bio BlockLayer Fs FsDir File Devsw Syscall Proc Exec Kernel Sched Trap SchedInv.

#[local] Instance boot_image : KernelImage.
Proof.
  refine {| kend := PHYSTOP - 16 * PGSIZE; etext := KERNBASE + 2 * PGSIZE;
            trampoline := KERNBASE + PGSIZE |}; vm_compute; intuition congruence.
Defined.
#[local] Instance boot_text : KernelText := {| forkret_addr := KERNBASE |}.

(** The steps below do no disk input or output. *)
#[local] Instance boot_blocks : BlockLayer unit := {|
  bl_bread _ _ := panic "no disk"; bl_get _ := panic "no disk"; bl_put _ _ := panic "no disk";
  bl_log_write _ := panic "no disk"; bl_brelse _ := panic "no disk";
  bl_begin_op := panic "no disk"; bl_end_op := panic "no disk"; bl_initlog _ _ _ := panic "no disk"; bl_intr := ret tt
|}.

Definition boot_mach : mach := match kinit no_locks (Mach ∅ 0) with Ok _ _ m => m | _ => Mach ∅ 0 end.

Definition boot_tty : tty := Tty (Cons (replicate 128 0) 0 0 0) (Uart (replicate 32 0) 0 0 false [] 1 [] []).

Definition boot0 : kernel unit :=
  Kernel (replicate (Z.to_nat NPROC) proc0) 1 NULL true 0
    (Files (replicate (Z.to_nat NFILE) file0) ∅
      (Fs (SB 0 0 0 0 0 0 0 0) (replicate (Z.to_nat NINODE) inode0) tt (Umach boot_mach 0 false boot_tty))).

(** Run an operation and check its result and state. *)
Definition after {A} (m : M (kernel unit) A) (good : A -> kernel unit -> bool) (k : kernel unit)
    : option (kernel unit) :=
  match m no_locks k with
  | Ok a _ k' => if good a k' then Some k' else None
  | _ => None
  end.

Lemma after_Some {A} (m : M (kernel unit) A) good k k' :
  after m good k = Some k' -> exists a c', m no_locks k = Ok a c' k' /\ good a k' = true.
Proof.
  unfold after. destruct (m no_locks k) as [a c1 k1| |]; [|done|done].
  destruct (good a k1) eqn:E; [|done]. intros [= <-]. eauto.
Qed.

(** userinit; a processor picks the process; it forks; it waits; the child is picked. *)
Definition boot1 : option (kernel unit) := after userinit (fun _ _ => true) boot0.
Definition boot2 : option (kernel unit) := boot1 ≫= after (scheduler_try 0) (fun b k =>
  b && bool_decide (sl_state (sl k 0) = RUNNING) && (k_nextpid k =? 2)).
Definition boot3a : option (kernel unit) := boot2 ≫= after (fork_copy (upto NPROC) 0) (fun r k =>
  bool_decide (r = Some (1, 2)) && bool_decide (sl_state (sl k 1) = USED)).
Definition boot3b : option (kernel unit) := boot3a ≫= after (fork_parent 0 1) (fun _ k => bool_decide (sl_state (sl k 1) = USED)).
Definition boot3 : option (kernel unit) := boot3b ≫= after (fork_run 1) (fun _ _ => true).
Definition boot4 : option (kernel unit) := boot3 ≫= after (wait 0 0) (fun r _ => bool_decide (r = None)).
Definition boot5 : option (kernel unit) := boot4 ≫= after (scheduler_try 1) (fun b k =>
  b && bool_decide (sl_state (sl k 0) = SLEEPING) && bool_decide (sl_chan (sl k 0) = Some (CH_proc 0))
  && bool_decide (sl_parent (sl k 1) = 0) && (k_initproc k =? 0)).

(** Or the process first calls [kill(0)]. *)
Definition boot3k : option (kernel unit) := boot2 ≫= after (kill 0) (fun r _ => r =? 0).
Definition boot4k : option (kernel unit) := boot3k ≫= after (fork 0) (fun pid _ => pid =? 2).

(** Unfold the states one step at a time. *)
Strategy expand [boot1 boot2 boot3a boot3b boot3 boot4 boot5 boot3k boot4k].

Lemma bootk_ok : bool_decide (is_Some boot4k) = true.
Proof. vm_compute. reflexivity. Qed.

Lemma boot_ok : bool_decide (is_Some boot5) = true.
Proof. vm_compute. reflexivity. Qed.

Definition cpus0 : list (option Z) := replicate (Z.to_nat NCPU) None.

Lemma boot_start : mstart boot0 cpus0.
Proof.
  unfold mstart. split_and!; [done| |done|done]. intros p Hp. unfold sl, procat, boot0.
  cbn [k_proc]. unfold nthZ. rewrite nth_lookup, lookup_replicate_2 by (unfold valid in Hp; plia). done.
Qed.

(** The states of the run are reachable. *)
Lemma boot2_reachable k2 :
  boot2 = Some k2 ->
  reachable k2 (<[0%nat := Some 0]> cpus0) /\ sl_state (sl k2 0) = RUNNING /\ k_nextpid k2 = 2.
Proof.
  intros (k1 & E1 & E2)%bind_Some.
  apply after_Some in E1 as ([] & c1 & E1 & _), E2 as (b & c2 & E2 & Hb).
  apply andb_true_iff in Hb as [[-> Hrun%bool_decide_eq_true]%andb_true_iff Hn%Z.eqb_eq].
  split; [|by split]. eapply reach_step; [eapply reach_step; [apply reach_start, boot_start|]|].
  - eapply ms_userinit; [done|exact E1].
  - eapply ms_dispatch; [done|by split|exact E2].
Qed.

Lemma boot3_reachable k3 : boot3 = Some k3 -> reachable k3 (<[0%nat := Some 0]> cpus0).
Proof.
  intros (kb & (ka & (k2 & E2 & Ea)%bind_Some & Eb)%bind_Some & E3)%bind_Some. apply boot2_reachable in E2 as (R2 & _ & Hn).
  apply after_Some in Ea as (r & ca & Ea & Ha), Eb as ([] & cb & Eb & Hb%bool_decide_eq_true), E3 as ([] & c3 & E3 & _).
  apply andb_true_iff in Ha as [_ Ha%bool_decide_eq_true].
  eapply reach_step; [eapply reach_step; [eapply reach_step; [exact R2|]|]|].
  - eapply (ms_fork_copy _ _ 0%nat 0); [done|by intros q ?%elem_of_upto|rewrite Hn; lia|exact Ea].
  - eapply (ms_fork_parent _ _ 0%nat 0 1); [done|by split|exact Ha|exact Eb].
  - eapply (ms_fork_run _ _ 0%nat 0 1); [done|by split|exact Hb|exact E3].
Qed.

Lemma boot5_reachable : exists k5,
  reachable k5 (<[0%nat := Some 1]> (<[0%nat := None]> (<[0%nat := Some 0]> cpus0))) /\
  sl_state (sl k5 0) = SLEEPING /\ sl_chan (sl k5 0) = Some (CH_proc 0) /\ sl_parent (sl k5 1) = 0 /\
  k_initproc k5 = 0.
Proof.
  destruct (proj1 (bool_decide_eq_true _) boot_ok) as [k5 (k4 & E4 & E5)%bind_Some].
  apply bind_Some in E4 as (k3 & E3%boot3_reachable & E4).
  apply after_Some in E4 as (r & c4 & E4 & Hr), E5 as (b' & c5 & E5 & Hb').
  apply bool_decide_eq_true in Hr as ->. rename E3 into R3.
  rewrite !andb_true_iff, !bool_decide_eq_true, Z.eqb_eq in Hb'. destruct Hb' as ((((-> & Hs) & Hch) & Hpar) & Hi).
  assert (R4 : reachable k4 (<[0%nat := None]> (<[0%nat := Some 0]> cpus0))).
  { eapply reach_step; [exact R3|]. eapply (ms_wait_sleep _ _ 0%nat 0); [done|exact E4]. }
  exists k5. split; [|by split_and!].
  eapply reach_step; [exact R4|]. eapply ms_dispatch; [done|by split|exact E5].
Qed.

Lemma sched_table_invariant_witness : exists k cpu,
  reachable k cpu /\ (forall p, valid p -> sl_state (sl k p) = RUNNING <-> exists c, cpu !! c = Some (Some p)) /\
  sl_state (sl k 0) = RUNNING.
Proof.
  destruct (proj1 (bool_decide_eq_true _) bootk_ok) as [k4 (k3 & (k2 & E2 & _)%bind_Some & _)%bind_Some].
  apply boot2_reachable in E2 as (R2 & Hrun & _).
  exists k2, (<[0%nat := Some 0]> cpus0). split; [exact R2|]. split; [|exact Hrun].
  exact (proj1 (sched_table_invariant _ _ R2)).
Defined.

Lemma wait_exit_no_lost_wakeup_witness : exists k cpu,
  reachable k cpu /\ sl_state (sl k 0) = SLEEPING /\ sl_parent (sl k 1) = 0 /\ sl_state (sl k 1) <> ZOMBIE.
Proof.
  destruct boot5_reachable as (k5 & R5 & Hs & Hch & Hpar & _).
  eexists k5, _. split; [exact R5|]. split; [exact Hs|]. split; [exact Hpar|].
  exact (wait_exit_no_lost_wakeup k5 _ 0 1 R5 ltac:(by split) ltac:(by split) Hs Hch Hpar).
Defined.

Lemma exit_reparents_and_wakes_witness : exists (k : kernel unit) c' (k' : kernel unit),
  sl_state (sl k 0) = SLEEPING /\ sl_parent (sl k 1) = 0 /\
  exit_zombie 1 7 no_locks k = Ok tt c' k' /\ exited 1 7 k k'.
Proof.
  destruct boot5_reachable as (k5 & R5 & Hs & Hch & Hpar & Hi).
  assert (Hw : wf_table k5) by (exact (mi_wf _ _ (reachable_minv _ _ R5))).
  assert (H1 : k_initproc k5 <> 1) by (rewrite Hi; lia).
  destruct (exit_reparents_and_wakes 1 7 no_locks k5 Hw ltac:(by split) H1 eq_refl) as (c' & k' & E & _ & He).
  exists k5, c', k'. split; [exact Hs|]. split; [exact Hpar|]. split; [exact E|exact He].
Defined.

Lemma kill_zero_kills_next_child_witness : exists (k k1 k2 : kernel unit) c1 c2 q,
  sl_state (sl k 0) = RUNNING /\ kill 0 no_locks k = Ok 0 c1 k1 /\ fork 0 no_locks k1 = Ok 2 c2 k2 /\
  sl_pid (sl k2 q) = 2 /\ sl_killed (sl k2 q) = true.
Proof.
  destruct (proj1 (bool_decide_eq_true _) bootk_ok) as [k4 (k3 & (k2 & E2 & E3)%bind_Some & E4)%bind_Some].
  apply boot2_reachable in E2 as (R2 & Hrun & _).
  apply after_Some in E3 as (r & c3 & E3 & Hr), E4 as (pid & c4 & E4 & Hpid).
  apply Z.eqb_eq in Hr as ->. apply Z.eqb_eq in Hpid as ->.
  assert (Hpos : 0 < 2) by reflexivity.
  destruct (kill_zero_kills_next_child k2 _ 0 _ _ _ _ _ k3 k4 R2 ltac:(by split) Hrun E3 E4 Hpos)
    as (_ & q & _ & _ & Hq & Hk).
  exists k2, k3, k4, c3, c4, q. split_and!; [exact Hrun|exact E3|exact E4|exact Hq|exact Hk].
Defined.

(** ** The clock and the trapframe *)

Lemma sys_sleep_duration_witness : exists r c' k',
  sys_sleep_turn 0 3 (2 ^ 32 - 2) (Ctx [LK_ticks] [] 1) (Kernel (k_proc boot0) 1 NULL true 1 (k_files boot0)) = Ok r c' k' /\
  r = Ret 0 /\ held c' = [].
Proof.
  set (k := Kernel _ _ _ _ _ _).
  destruct (sys_sleep_duration 0 3 (2 ^ 32 - 2) 3 (Ctx [LK_ticks] [] 1) k) as (r & c' & k' & E & Hr);
    [reflexivity|by_eval|reflexivity|lia|lia|reflexivity|].
  rewrite decide_True in Hr by by_eval. destruct Hr as (-> & Hh & _). by exists (Ret 0), c', k'.
Defined.

#[local] Instance boot_trap : TrapImage :=
  {| kernelvec_addr := KERNBASE + 16; usertrap_addr := KERNBASE + 64; uservec_off := 0; userret_off := 0x9c |}.

Definition boot_tst : tst unit := Tst boot0 (Hart (fun _ => 1) (fun _ => 7)) (Plic [] []).

(** The first process's trapframe at address 0, entered from user space with every
    address mapped as the trapframe is. *)
Lemma usertrapret_prepares_trap_witness : exists satp s',
  usertrapret 0 no_locks boot_tst = Ok satp no_locks s' /\
  forall hart, (forall r, 0 <= h_reg hart r < 2 ^ 64) ->
    areg (Hart.exec (fun _ va => va - TRAPFRAME) uservec (Am hart (kram (ts_k s')))) SP = PGSIZE.
Proof.
  destruct (usertrapret_prepares_trap 0 no_locks boot_tst) as (satp & s' & E & _ & _ & _ & _ & _ & _ & Hu).
  exists satp, s'. split; [exact E|]. intros hart Hh.
  refine (proj1 (proj2 (Hu (fun _ va => va - TRAPFRAME) (Am hart (kram (ts_k s'))) _ _ _))); [|done|done].
  split; [by_eval|]. split; [by_eval|]. intros o Ho. change (tframe 0 (ts_k boot_tst)) with 0. lia.
Defined.
