(* ===== verification/Main.v ===== *)
(** * kernel/main.c

    [main] on one hart: hart 0 initialises the kernel and creates the first process, the
    others wait for it.  [main] is cut where a hart spins on [started] and where it
    enters the scheduler; the result says which. *)

From S2P Require Import Prelude KMonad Riscv Mem Hart Kalloc Vm UserMem Uart Pipe Console Printf UserVm Bytes Sleeplock Bio Virtio Log BlockLayer Fs FsDir File Devsw Syscall Sysfile Proc Exec Kernel Trap.

(** The kernel with the hart and the interrupt controller, [struct disk] and the registers
    of the device, [pr.locking], [kernel_pagetable] and [started]. *)
Record boot := Bst {
  bt_t : tst lstate;
  bt_disk : disk;
  bt_regs : list (Z * Z);
  bt_locking : bool;
  kernel_pagetable : Z;
  started : bool
}.

Definition set_t (t : tst lstate) (b : boot) : boot := Bst t (bt_disk b) (bt_regs b) (bt_locking b) (kernel_pagetable b) (started b).

Definition bt_k (b : boot) : kernel lstate := ts_k (bt_t b).
Definition set_k (k : kernel lstate) (b : boot) : boot := set_t (Tst k (ts_hart (bt_t b)) (ts_plic (bt_t b))) b.

Definition bt_fs (k : kernel lstate) : fs lstate umach := ft_fs (k_files k).
Definition set_fs (f : fs lstate umach) (k : kernel lstate) : kernel lstate :=
  set_files (Files (ft_file (k_files k)) (ft_pipes (k_files k)) f) k.

Section main.
Context `{KernelImage} `{KernelText} `{TrapImage}.

Definition top {A} (m : M (tst lstate) A) : M boot A := zoom bt_t set_t m.
Definition bkop {A} (m : M (kernel lstate) A) : M boot A := zoom bt_k set_k m.

(** printf.c, console.c and bio.c on their parts of the kernel. *)
Definition prop {A} (m : M prst A) : M boot A :=
  zoom (fun b => Pr (bt_locking b) (k_tty (bt_k b)))
    (fun x b => let b := set_k (set_ktty (pr_tty x) (bt_k b)) b in
       Bst (bt_t b) (bt_disk b) (bt_regs b) (pr_locking x) (kernel_pagetable b) (started b)) m.
Definition conop {A} (m : M tty A) : M boot A :=
  zoom (fun b => k_tty (bt_k b)) (fun t b => set_k (set_ktty t (bt_k b)) b) m.
Definition on_fs (f : fs lstate umach -> fs lstate umach) : M boot unit :=
  modify (fun b => set_k (set_fs (f (bt_fs (bt_k b))) (bt_k b)) b).

(** virtio_disk.c shares the memory and the buffers. *)
Definition virtop {A} (m : M (mach * vst) A) : M boot A :=
  zoom (fun b => (u_mach (k_usr (bt_k b)), Vst (bt_disk b) (bc (fs_blk (bt_fs (bt_k b)))) (bt_regs b)))
    (fun x b =>
       let k := set_kusr (set_mach (fst x) (k_usr (bt_k b))) (bt_k b) in
       let k := set_fs (set_blk (set_bc (v_bc (snd x)) (fs_blk (bt_fs k))) (bt_fs k)) k in
       let b := set_k k b in
       Bst (bt_t b) (v_disk (snd x)) (v_regs (snd x)) (bt_locking b) (kernel_pagetable b) (started b)) m.

(** kernel/vm.c *)
Definition kvminit : M boot unit :=
  pt <- bkop (memop kvmmake) ;;
  modify (fun b => Bst (bt_t b) (bt_disk b) (bt_regs b) (bt_locking b) pt (started b)).

(** Switch h/w page table register to the kernel's page table, and enable paging. *)
Definition kvminithart : M boot unit :=
  (* wait for any previous writes to the page table memory to finish. *)
  top (cpu sfence_vma) ;;
  pt <- gets kernel_pagetable ;;
  top (cpu (w_satp (MAKE_SATP pt))) ;;
  (* flush stale entries from the TLB. *)
  top (cpu sfence_vma).

Definition bprintf (fmt : list Z) (ap : list arg) : M boot unit := prop (printf (Some fmt) ap).

(** [trapinit] and [fileinit] only initialise a spin lock.  [rd] is what the registers
    of the disk return. *)
Definition main_first (rd : list (Z * Z) -> Z -> Z) : M boot unit :=
  conop consoleinit ;;
  prop printfinit ;;
  bprintf [NL] [] ;;
  bprintf (str "xv6 kernel is booting" ++ [NL]) [] ;;
  bprintf [NL] [] ;;
  bkop (memop kinit) ;; (* physical page allocator *)
  kvminit ;; (* create kernel page table *)
  kvminithart ;; (* turn on paging *)
  bkop procinit ;; (* process table *)
  top trapinithart ;; (* install kernel trap vector *)
  top plicinit ;; (* set up interrupt controller *)
  top plicinithart ;; (* ask PLIC for device interrupts *)
  on_fs (fun f => set_blk (set_bc (binit (bc (fs_blk f))) (fs_blk f)) f) ;; (* buffer cache *)
  on_fs iinit ;; (* inode table *)
  virtop (virtio_disk_init rd) ;; (* emulated hard disk *)
  bkop userinit ;; (* first user process *)
  modify (fun b => Bst (bt_t b) (bt_disk b) (bt_regs b) (bt_locking b) (kernel_pagetable b) true).

(** [false]: the hart still spins on [started]. *)
Definition main (rd : list (Z * Z) -> Z -> Z) : M boot bool :=
  id <- top cpuid ;;
  if id =? 0 then main_first rd ;; ret true
  else
    st <- gets started ;;
    if negb (st : bool) then ret false
    else
      id <- top cpuid ;;
      bprintf (str "hart %d starting" ++ [NL]) [AInt id] ;;
      kvminithart ;; (* turn on paging *)
      top trapinithart ;; (* install kernel trap vector *)
      top plicinithart ;; (* ask PLIC for device interrupts *)
      ret true.
End main.
