(* ===== verification/MainBoot.v ===== *)
(** * The first process and the disk

    The steps of [main] that take pages from the allocator: [virtio_disk_init], with a
    disk that answers as the virtio specification says, and [userinit], up to the first
    process and its address space. *)

From S2P Require Import Prelude KMonad Riscv Mem Hart Kalloc Vm PageTable UserSpace UserAlloc UserFork KernelMap UserMem Uart Pipe Console Printf UserVm Bytes Sleeplock Bio Virtio Log BlockLayer Fs FsDir File Devsw Syscall Sysfile Proc Exec Kernel Trap Main.

(** ** Memory *)

Section memory.
Context `{KernelImage}.

(** Pages of the free list [l] have been taken; no other memory has changed. *)
Record took (s : mach) (l : list Z) (s' : mach) (l' : list Z) : Prop := {
  tk_inv : kinv s' l';
  tk_sub p : p ∈ l' -> p ∈ l;
  tk_frame a : pg a ∉ l -> rd (ram s') a = rd (ram s) a
}.

Lemma took_refl s l : kinv s l -> took s l s l.
Proof. by split. Qed.

Lemma took_trans s l s1 l1 s2 l2 : took s l s1 l1 -> took s1 l1 s2 l2 -> took s l s2 l2.
Proof.
  intros [K1 S1 F1] [K2 S2 F2]. split; [done|auto|]. intros a Ha. rewrite F2; [by apply F1|]. intros Hin. by apply Ha, S1.
Qed.

(** A page table that owns none of them is as it was. *)
Lemma owns_took s root node l s' l' : owns s root node l -> took s l s' l' -> owns s' root node l' /\ forall va, pte_of (ram s') node va = pte_of (ram s) node va.
Proof.
  intros (Hk & Hi & Hd) [K1 S1 F1]. destruct (pt_inv_frame (ram s) (ram s') root node Hi) as [Hi' Hp].
  { intros a Ha. apply F1. intros Hin. by apply (Hd (pg a)). }
  split; [|done]. split_and!; [done|done|]. intros p Hp' Hn. by apply (Hd p); [apply S1|].
Qed.

Lemma kalloc_took s l c : kinv s l -> LK_kmem ∉ held c -> l <> [] ->
  wp kalloc c s (fun p c' s' => c' = c /\ p <> 0 /\ page_ok p /\ exists l', l = p :: l' /\ p ∉ l' /\ took s l s' l').
Proof.
  intros Hk Hc Hne. destruct l as [|p l]; [done|]. destruct (kalloc_spec c s (p :: l) Hk Hc) as (s1 & Hrun & Hk1 & Hop & _). exists p, c, s1. split; [done|].
  destruct Hk as (_ & [Hn _]%NoDup_cons & [Hok _]%Forall_cons). pose proof (page_ok_pos _ Hok). split_and!; [done|lia|done|]. exists l. split_and!; [done|done|]. split; [done|intros q Hq; by right|].
  intros a Ha. apply Hop, pg_out; [by apply page_ok_aligned|]. intros E. apply Ha. rewrite E. by left.
Qed.

(** Writing to a page that is not free any more. *)
Lemma took_write s l s1 l1 p (f : mem -> mem) : took s l s1 l1 -> page_ok p -> p ∈ l -> p ∉ l1 -> (forall m x, pg x <> p -> rd (f m) x = rd m x) ->
  took s l (set_ram f s1) l1.
Proof.
  intros [K1 S1 F1] Hok Hp Hn Hf. split; [|done|].
  - apply (kinv_only_page p s1); [done| |done|by apply page_ok_aligned|done]. intros a Ha. cbn. apply Hf. intros E. apply page_ok_aligned in Hok. pose proof (pg_bounds a). rewrite E in *. lia.
  - intros a Ha. cbn. rewrite Hf; [by apply F1|]. intros E. apply Ha. by rewrite E.
Qed.

Lemma memset_other p m x : page_ok p -> pg x <> p -> rd (memset m p 0 PGSIZE) x = rd m x.
Proof. intros Hok Hx. by apply memset_page. Qed.

(** ** The table of the first process *)

Definition user_tables : list (list Z) := [[]; [255]; [255; 511]; [0]; [0; 0]].
Definition wrxu : Z := Z.lor (Z.lor (Z.lor PTE_W PTE_R) PTE_X) PTE_U.
Definition proc_regions (tf : Z) : list region := [Region TRAMPOLINE 1 trampoline rx; Region TRAPFRAME 1 tf rw].

Lemma kst_took T l0 stk m0 rs s0 s root node l : m0 = ram s0 -> kst T l0 stk m0 rs s root node l -> took s0 l0 s l.
Proof. intros -> K. split; [apply K|apply (kp_free _ _ _ _ _ (ks_pages _ _ _ _ _ _ _ _ _ K))|apply K]. Qed.

Lemma kst_rebase T l0 stk m0 rs s root node l : kst T l0 stk m0 rs s root node l -> kst T l0 stk (ram s) rs s root node l.
Proof. intros []. by split. Qed.

Lemma took_trans_sub s l s1 l1 l1' s2 l2 : took s l s1 l1 -> took s1 l1' s2 l2 -> (forall p, p ∈ l1' -> p ∈ l) -> took s l s2 l2.
Proof. intros [K1 S1 F1] [K2 S2 F2] Hs. split; [done|auto|]. intros a Ha. rewrite F2; [by apply F1|]. intros Hin. by apply Ha, Hs. Qed.

(** Writing to a page that is none of [l0]. *)
Lemma kst_outside T l0 stk m0 rs s root node l p (f : mem -> mem) : kst T l0 stk m0 rs s root node l -> page_ok p -> p ∉ l0 ->
  (forall m x, pg x <> p -> rd (f m) x = rd m x) -> kst T l0 stk (f (ram s)) rs (set_ram f s) root node l.
Proof.
  intros K Hok Hp Hf. destruct (ks_owns _ _ _ _ _ _ _ _ _ K) as (Hk & Hi & Hd). pose proof (ks_pages _ _ _ _ _ _ _ _ _ K) as KP.
  destruct (pt_inv_frame (ram s) (f (ram s)) root node Hi) as [Hi' Hpte]. { intros a Ha. apply Hf. intros E. rewrite E in Ha. by apply Hp, (kp_nodes _ _ _ _ _ KP). }
  split; cbn [set_ram ram].
  - split_and!; [|done|done]. apply (kinv_only_page p s); [done| |done|by apply page_ok_aligned|intros Hin; by apply Hp, (kp_free _ _ _ _ _ KP)]. intros a Ha. cbn. apply Hf. intros E. pose proof (pg_bounds a). rewrite E in *. lia.
  - intros r va Hr Hva Hcv. rewrite Hpte. by apply K.
  - intros va Hva Hno. rewrite Hpte. by apply K.
  - done.
  - done.
Qed.

Lemma store64_page p o v : page_ok p -> 0 <= o <= PGSIZE - 8 -> forall m x, pg x <> p -> rd (store64 m (p + o) v) x = rd m x.
Proof. intros Hok Ho m x Hx. apply rd_store64_out. apply pg_out in Hx; [lia|by apply page_ok_aligned]. Qed.

(** Writing to a page of [stk]. *)
Lemma kst_write T l0 stk m0 rs s root node l p (f : mem -> mem) : kst T l0 stk m0 rs s root node l -> p ∈ stk ->
  (forall m x, pg x <> p -> rd (f m) x = rd m x) -> kst T l0 stk m0 rs (set_ram f s) root node l.
Proof.
  intros K Hp Hf. destruct (kp_stk _ _ _ _ _ (ks_pages _ _ _ _ _ _ _ _ _ K) p Hp) as (Hok & Hnl & Hnn & Hl0). destruct (ks_owns _ _ _ _ _ _ _ _ _ K) as (Hk & Hi & Hd).
  destruct (pt_inv_frame (ram s) (f (ram s)) root node Hi) as [Hi' Hpte]. { intros a Ha. apply Hf. intros E. by rewrite E in Ha. }
  split; cbn [set_ram ram].
  - split_and!; [|done|done]. apply (kinv_only_page p s); [done| |done|by apply page_ok_aligned|done]. intros a Ha. cbn. apply Hf. intros E. pose proof (pg_bounds a). rewrite E in *. lia.
  - intros r va Hr Hva Hcv. rewrite Hpte. by apply K.
  - intros va Hva Hno. rewrite Hpte. by apply K.
  - apply K.
  - intros a Ha. rewrite Hf; [by apply K|]. intros E. apply Ha. by rewrite E.
Qed.

Lemma trampoline_region : region_ok user_tables [] (Region TRAMPOLINE 1 trampoline rx).
Proof.
  destruct image_facts as (_ & _ & ? & ? & ? & ?). split; cbn [rg_va rg_n rg_pa rg_perm]; [done|change MAXVA with (2 ^ 38) in *; unfold PHYSTOP, KERNBASE, PGSIZE in *; lia|done|intros r' va Hr'; by apply not_elem_of_nil in Hr'|].
  unfold covers. cbn [rg_va rg_n]. intros va Hva. destruct (PX_at va 255 511) as [-> ->]; [lia|lia|unfold TRAMPOLINE in *; change MAXVA with (2 ^ 38) in *; unfold PGSIZE in *; lia|]. split; in_tables.
Qed.

Lemma trapframe_region tf : page_ok tf -> region_ok user_tables [Region TRAMPOLINE 1 trampoline rx] (Region TRAPFRAME 1 tf rw).
Proof.
  intros Hok. pose proof (page_ok_pos tf Hok). unfold page_ok in Hok. split; cbn [rg_va rg_n rg_pa rg_perm]; [done|unfold PHYSTOP, KERNBASE, PGSIZE in *; lia|done| |].
  - intros r' va Hr' Hc1 Hc2. apply list_elem_of_singleton in Hr' as ->. unfold covers, TRAPFRAME in *. cbn [rg_va rg_n] in *. unfold PGSIZE in *. lia.
  - unfold covers. cbn [rg_va rg_n]. intros va Hva. destruct (PX_at va 255 511) as [-> ->]; [lia|lia|unfold TRAPFRAME, TRAMPOLINE in *; change MAXVA with (2 ^ 38) in *; unfold PGSIZE in *; lia|]. split; in_tables.
Qed.

Lemma first_region tf p : page_ok p -> region_ok user_tables (proc_regions tf) (Region 0 1 p wrxu).
Proof.
  intros Hok. pose proof (page_ok_pos p Hok). unfold page_ok in Hok. split; cbn [rg_va rg_n rg_pa rg_perm]; [done|unfold PHYSTOP, KERNBASE, PGSIZE in *; lia|done| |].
  - intros r' va Hr' Hc1 Hc2. unfold proc_regions in Hr'. repeat (apply elem_of_cons in Hr' as [->|Hr']); [..|by apply not_elem_of_nil in Hr'].
    all: unfold covers, TRAPFRAME, TRAMPOLINE in *; cbn [rg_va rg_n] in *; change MAXVA with (2 ^ 38) in *; unfold PGSIZE in *; lia.
  - unfold covers. cbn [rg_va rg_n]. intros va Hva. destruct (PX_at va 0 0) as [-> ->]; [lia|lia|unfold PGSIZE in *; lia|]. split; in_tables.
Qed.

Lemma proc_pagetable_ok s l tf c : kinv s l -> LK_kmem ∉ held c -> (7 < length l)%nat -> page_ok tf ->
  wp (proc_pagetable tf) c s (fun pt c' s' => c' = c /\ pt <> 0 /\ exists node l', kst user_tables l [] (ram s) (proc_regions tf) s' pt node l').
Proof.
  intros Hk Hc Hlen Hok. assert (Hnd : NoDup l) by apply Hk. unfold proc_pagetable, uvmcreate. apply wp_bind, wp_bind. destruct l as [|pt l]; [cbn in Hlen; lia|].
  destruct (kalloc_spec c s (pt :: l) Hk Hc) as (s1 & Hrun & Hk1 & Hop & _). exists pt, c, s1. split; [exact Hrun|].
  assert (Hpt : page_ok pt) by (destruct Hk as (_ & _ & [? _]%Forall_cons); done). pose proof (page_ok_pos _ Hpt). rewrite (proj2 (Z.eqb_neq pt 0)) by lia. apply wp_bind, wp_modify, wp_ret.
  rewrite (proj2 (Z.eqb_neq pt 0)) by lia. set (s2 := set_ram _ s1). assert (K : kst user_tables (pt :: l) [] (ram s) [] s2 pt (single pt) l).
  { apply (kst_start _ _ _ _ Hnd s1); [done|done|done| |done|in_tables]. intros a Ha. apply Hop, pg_out; [by apply page_ok_aligned|]. intros E. apply Ha. rewrite E. by left. }
  clearbody s2. assert (Hlen0 : (length user_tables + length (@nil Z) < length (pt :: l))%nat) by (cbn [length user_tables] in *; lia).
  apply wp_bind. eapply wp_mono; [apply (mappages_region user_tables _ _ pt c Hnd Hc [] [] (Region TRAMPOLINE 1 trampoline rx) s2 _ _ Hlen0 K trampoline_region)|].
  intros x c' s3 (-> & -> & n3 & l3 & K3 & _). apply wp_bind. eapply wp_mono; [apply (mappages_region user_tables _ _ pt c Hnd Hc [] _ (Region TRAPFRAME 1 tf rw) s3 _ _ Hlen0 K3 (trapframe_region tf Hok))|].
  intros x c' s4 (-> & -> & n4 & l4 & K4 & _). apply wp_ret. split; [done|]. split; [lia|]. by exists n4, l4.
Qed.

(** The first page holds the program. *)
Lemma uvmfirst_ok l0 m0 tf src s pt node l c : NoDup l0 -> LK_kmem ∉ held c -> (7 < length l0)%nat -> Z.of_nat (length src) < PGSIZE -> bytes src ->
  kst user_tables l0 [] m0 (proc_regions tf) s pt node l ->
  wp (uvmfirst pt src) c s (fun _ c' s' => c' = c /\ exists p node' l', kst user_tables l0 [p] m0 (proc_regions tf ++ [Region 0 1 p wrxu]) s' pt node' l' /\
    forall i, 0 <= i < PGSIZE -> rd (ram s') (p + i) = nthZ 0 src i).
Proof.
  intros Hnd Hc Hlen Hsrc Hb K. unfold uvmfirst. rewrite (proj2 (Z.leb_gt _ _)) by lia. apply wp_bind. eapply wp_mono; [apply (kalloc_page user_tables l0 m0 pt c Hnd Hc [] _ s node l K)|].
  { apply (kpages_free user_tables l0 [] node); [done|cbn; lia|apply K]. }
  intros p c' s1 (-> & Hp0 & Hok & _ & l1 & _ & K1). cbn [app] in K1. apply wp_bind, wp_modify. pose proof (kst_write _ _ _ _ _ _ _ _ _ p (fun m => memset m p 0 PGSIZE) K1 ltac:(by left) (fun m x => memset_other p m x Hok)) as K2.
  assert (Hz : forall x, pg x = p -> rd (ram (set_ram (fun m => memset m p 0 PGSIZE) s1)) x = 0).
  { intros x Hx. cbn. rewrite rd_memset_in; [done|]. pose proof (pg_bounds x). lia. }
  set (s2 := set_ram _ s1) in *. clearbody s2. apply wp_bind.
  eapply wp_mono; [apply (mappages_region user_tables l0 m0 pt c Hnd Hc [p] (proc_regions tf) (Region 0 1 p wrxu) s2 node l1); [cbn; lia|exact K2|by apply first_region]|].
  intros x c' s3 (-> & -> & n3 & l3 & K3 & He). apply wp_modify. split; [done|]. exists p, n3, l3. assert (Hpage : forall m x, pg x <> p -> rd (wr_bytes m p src) x = rd m x).
  { intros m x Hx. rewrite rd_wr_bytes, decide_False; [done|]. apply pg_out in Hx; [lia|by apply page_ok_aligned]. }
  split; [by apply (kst_write _ _ _ _ _ _ _ _ _ p); [|left|]|]. intros i Hi. cbn. rewrite rd_wr_bytes. assert (Hpg : pg (p + i) = p) by (apply pg_in; [by apply page_ok_aligned|lia]).
  destruct (kp_stk _ _ _ _ _ (ks_pages _ _ _ _ _ _ _ _ _ K2) p ltac:(by left)) as (_ & Hnl & Hnn & _). case_decide as Hin.
  - replace (p + i - p) with i by lia. apply u8_small. by apply nthZ_byte.
  - rewrite (ev_frame _ _ _ _ _ _ He) by (by rewrite Hpg). rewrite Hz by done. symmetry. apply nth_overflow. lia.
Qed.
End memory.

(** ** The disk *)

(** What the device returns: who it is, the status last written to it, that queue 0 is
    not in use before the driver says so, and a queue that is long enough. *)
Record disk_answers (rd : list (Z * Z) -> Z -> Z) : Prop := {
  da_magic w : rd w VIRTIO_MMIO_MAGIC_VALUE = 0x74726976;
  da_version w : rd w VIRTIO_MMIO_VERSION = 2;
  da_device w : rd w VIRTIO_MMIO_DEVICE_ID = 2;
  da_vendor w : rd w VIRTIO_MMIO_VENDOR_ID = 0x554d4551;
  da_status w v : rd (w ++ [(VIRTIO_MMIO_STATUS, v)]) VIRTIO_MMIO_STATUS = v;
  da_ready w : (forall v, (VIRTIO_MMIO_QUEUE_READY, v) ∉ w) -> rd w VIRTIO_MMIO_QUEUE_READY = 0;
  da_max w : NUM <= rd w VIRTIO_MMIO_QUEUE_NUM_MAX
}.

Section disk.
Context `{KernelImage}.

Lemma wp_vget {A} (f : vst -> A) c m v Q : Q (f v) c (m, v) -> wp (vdop (gets f)) c (m, v) Q.
Proof. intros HQ. apply wp_zoom, wp_gets, HQ. Qed.

Lemma wp_vmod (f : vst -> vst) c m v Q : Q tt c (m, f v) -> wp (vdop (modify f)) c (m, v) Q.
Proof. intros HQ. apply wp_zoom, wp_modify, HQ. Qed.

Lemma wp_zero_page p c m v Q : Q tt c (set_ram (fun x => memset x p 0 PGSIZE) m, v) -> wp (zero_page p) c (m, v) Q.
Proof. intros HQ. apply wp_zoom, wp_modify, HQ. Qed.

Ltac vstep := apply wp_bind; first [apply wp_vget|apply wp_vmod]; cbn [v_regs v_disk v_bc].

Lemma virtio_disk_init_ok rd m v l c : disk_answers rd -> v_regs v = [] -> kinv m l -> LK_kmem ∉ held c -> (3 <= length l)%nat ->
  wp (virtio_disk_init rd) c (m, v) (fun _ c' s' => c' = c /\ exists l', took m l (fst s') l' /\ (length l = 3 + length l')%nat /\ v_bc (snd s') = v_bc v).
Proof.
  intros [Hm Hv Hd Hn Hs Hr Hx] Hregs Hk Hc Hlen. destruct v as [d b w]. cbn in Hregs. subst w. unfold virtio_disk_init.
  do 4 vstep. rewrite Hm, Hv, Hd, Hn. cbn [Z.eqb Pos.eqb negb orb]. do 3 vstep. vstep. do 2 vstep. vstep. rewrite Hs. change (Z.land _ VIRTIO_CONFIG_S_FEATURES_OK =? 0) with false. cbn iota.
  vstep. vstep. rewrite Hr.
  2: { intros x Hin. repeat (apply elem_of_app in Hin as [Hin|Hin%list_elem_of_singleton]); try done. by apply not_elem_of_nil in Hin. }
  cbn [Z.eqb negb]. vstep. match goal with |- context [rd ?w VIRTIO_MMIO_QUEUE_NUM_MAX] => pose proof (Hx w) as Hmax; set (mx := rd w VIRTIO_MMIO_QUEUE_NUM_MAX) in * end.
  rewrite (proj2 (Z.eqb_neq mx 0)), (proj2 (Z.ltb_ge mx NUM)) by (unfold NUM in *; lia).
  destruct l as [|p1 [|p2 [|p3 l]]]; try (cbn in Hlen; lia).
  apply wp_bind, wp_zoom. eapply wp_mono; [by apply (kalloc_took m _ c Hk Hc)|]. intros q1 c' m1 (-> & Hq1 & Ok1 & l1 & [= <- <-] & N1 & T1).
  apply wp_bind, wp_zoom. eapply wp_mono; [by apply (kalloc_took m1 _ c (tk_inv _ _ _ _ T1) Hc)|]. intros q2 c' m2 (-> & Hq2 & Ok2 & l2 & [= <- <-] & N2 & T2).
  apply wp_bind, wp_zoom. eapply wp_mono; [by apply (kalloc_took m2 _ c (tk_inv _ _ _ _ T2) Hc)|]. intros q3 c' m3 (-> & Hq3 & Ok3 & l3 & [= <- <-] & N3 & T3).
  rewrite !(proj2 (Z.eqb_neq _ 0)) by done. cbn [orb snd fst].
  pose proof (took_trans _ _ _ _ _ _ (took_trans _ _ _ _ _ _ T1 T2) T3) as T. assert (I1 : p1 ∈ p1 :: p2 :: p3 :: l /\ p1 ∉ l) by (split; [by left|intros Hin; apply N1; by do 2 right]).
  assert (I2 : p2 ∈ p1 :: p2 :: p3 :: l /\ p2 ∉ l) by (split; [by right; left|intros Hin; apply N2; by right]). assert (I3 : p3 ∈ p1 :: p2 :: p3 :: l) by (by right; right; left).
  pose proof (took_write _ _ _ _ p1 (fun x => memset x p1 0 PGSIZE) T Ok1 (proj1 I1) (proj2 I1) (fun m x => memset_other p1 m x Ok1)) as Ta.
  pose proof (took_write _ _ _ _ p2 (fun x => memset x p2 0 PGSIZE) Ta Ok2 (proj1 I2) (proj2 I2) (fun m x => memset_other p2 m x Ok2)) as Tb.
  pose proof (took_write _ _ _ _ p3 (fun x => memset x p3 0 PGSIZE) Tb Ok3 I3 N3 (fun m x => memset_other p3 m x Ok3)) as Tc.
  do 3 apply wp_bind, wp_zero_page. match type of Tc with took _ _ ?x _ => set (mf := x) in * end. clearbody mf. do 9 vstep. apply wp_bind.
  apply (wp_upto (fun _ s => fst s = mf /\ v_bc (snd s) = b)); [done|done| |].
  - intros i [m' v'] _ [E1 E2]. cbn in E1, E2. apply wp_vmod. done.
  - intros [m' v'] [E1 E2]. cbn in E1, E2. apply wp_vmod. cbn [fst snd v_bc]. split; [done|]. exists l. rewrite E1. done.
Qed.
End disk.

(** ** The first process *)

Section first.
Context `{KernelImage} `{KernelText}.

Definition kmach (k : kernel lstate) : mach := u_mach (k_usr k).

Lemma procat0_upd f (k : kernel lstate) : (0 < length (k_proc k))%nat -> procat (upd_proc 0 f k) 0 = f (procat k 0).
Proof. intros Hl. unfold procat, upd_proc. cbn [set_procs k_proc]. by rewrite nthZ_setZ_eq by lia. Qed.

Lemma length_upd p f (k : kernel lstate) : length (k_proc (upd_proc p f k)) = length (k_proc k).
Proof. apply length_setZ. Qed.

Lemma wp_memop {A} (m : M mach A) c (k : kernel lstate) Q :
  wp m c (kmach k) (fun a c' x => Q a c' (set_kusr (set_mach x (k_usr k)) k)) -> wp (memop m) c k Q.
Proof. intros HQ. apply wp_zoom. exact HQ. Qed.

(** [allocproc] finds the first slot. *)
Record allocated (k : kernel lstate) (l : list Z) (k' : kernel lstate) (tf pt : Z) (node : list Z -> option Z) (l1 l' : list Z) : Prop := {
  ac_len : length (k_proc k') = length (k_proc k);
  ac_proc : procat k' 0 = set_context (forkret_addr, u64 (p_kstack (procat k 0) + PGSIZE)) (set_pagetable pt (set_trapframe tf (set_state USED (set_pid (k_nextpid k) (procat k 0)))));
  ac_fs : fs_inode (bt_fs k') = fs_inode (bt_fs k);
  ac_tf : page_ok tf /\ l = tf :: l1 /\ tf ∉ l1;
  ac_took : took (kmach k) l (kmach k') l';
  ac_kst : exists m1, kst user_tables l1 [] m1 (proc_regions tf) (kmach k') pt node l'
}.

Lemma allocproc_ok k l c : held c = [] -> (0 < length (k_proc k))%nat -> p_state (procat k 0) = UNUSED -> kinv (kmach k) l -> (9 < length l)%nat ->
  wp allocproc c k (fun p c' k' => p = 0 /\ held c' = [LK_proc 0] /\ exists tf pt node l1 l', allocated k l k' tf pt node l1 l').
Proof.
  intros Hc Hlen Hst Hk Hl. unfold allocproc, allocproc_from. assert (Eu : upto NPROC = 0 :: drop 1 (upto NPROC)) by (by vm_compute). rewrite Eu. cbn [find_unused].
  apply wp_bind, wp_bind, wp_acquire; [rewrite Hc; apply not_elem_of_nil|]. apply wp_bind, wp_gets. rewrite Hst. rewrite bool_decide_true by done. apply wp_ret. change (0 =? NULL) with false. cbn iota.
  unfold allocpid. apply wp_bind, wp_bind, wp_acquire; [cbn [held locked]; rewrite Hc; set_solver|]. apply wp_bind, wp_gets, wp_bind, wp_modify, wp_bind.
  apply (wp_release _ _ (locked (LK_proc 0) c)); [done|cbn [held locked]; rewrite Hc; set_solver|]. apply wp_ret. cbn [held locked wakes mypid].
  set (c1 := Ctx _ _ _). assert (Hc1 : held c1 = [LK_proc 0]) by (unfold c1; cbn [held]; by rewrite Hc). assert (Hm1 : LK_kmem ∉ held c1) by (rewrite Hc1; set_solver). clearbody c1.
  set (k1 := Kernel _ _ _ _ _ _). assert (Hp1 : procat k1 0 = procat k 0) by done. assert (Hl1 : length (k_proc k1) = length (k_proc k)) by done.
  apply wp_bind, wp_modify, wp_bind, wp_modify, wp_bind, wp_memop. change (kmach (upd_proc 0 _ (upd_proc 0 _ k1))) with (kmach k).
  eapply wp_mono; [apply (kalloc_took (kmach k) l c1 Hk Hm1); by destruct l; [cbn in Hl; lia|]|]. intros tf c' s1 (-> & Htf0 & Htf & l1 & El & Hnl & T1).
  apply wp_bind, wp_modify. rewrite (proj2 (Z.eqb_neq tf 0)) by done. set (k2 := upd_proc 0 (set_trapframe tf) _).
  assert (Hp2 : procat k2 0 = set_trapframe tf (set_state USED (set_pid (k_nextpid k) (procat k 0)))).
  { unfold k2. rewrite procat0_upd by (cbn [set_kusr set_files k_proc]; rewrite !length_upd, Hl1; done). f_equal. transitivity (procat (upd_proc 0 (set_state USED) (upd_proc 0 (set_pid (k_nextpid k)) k1)) 0); [done|].
    rewrite !procat0_upd by (rewrite ?length_upd; rewrite ?Hl1; done). by rewrite Hp1. }
  assert (Hl2 : length (k_proc k2) = length (k_proc k)) by (unfold k2; rewrite length_upd; cbn [set_kusr set_files k_proc]; by rewrite !length_upd).
  assert (Hm2 : kmach k2 = s1) by done. assert (Hf2 : fs_inode (bt_fs k2) = fs_inode (bt_fs k)) by done. clearbody k2.
  apply wp_bind, wp_memop. rewrite Hm2. eapply wp_mono; [apply (proc_pagetable_ok s1 l1 tf c1 (tk_inv _ _ _ _ T1) Hm1); [rewrite El in Hl; cbn in Hl; lia|done]|].
  intros pt c' s2 (-> & Hpt & node & l' & K). apply wp_bind, wp_modify. rewrite (proj2 (Z.eqb_neq pt 0)) by done. apply wp_bind, wp_gets, wp_bind, wp_modify, wp_ret.
  split; [done|]. split; [done|]. exists tf, pt, node, l1, l'. set (k3 := set_kusr _ k2). assert (Hp3 : procat k3 0 = procat k2 0) by done. assert (Hl3 : length (k_proc k3) = length (k_proc k)) by done.
  assert (Hp4 : procat (upd_proc 0 (set_pagetable pt) k3) 0 = set_pagetable pt (procat k2 0)) by (rewrite procat0_upd by (by rewrite Hl3); by rewrite Hp3). split.
  - by rewrite !length_upd.
  - rewrite procat0_upd by (by rewrite length_upd, Hl3). rewrite Hp4, Hp2. done.
  - exact Hf2.
  - done.
  - change (kmach (upd_proc 0 _ (upd_proc 0 _ k3))) with s2. apply (took_trans _ _ s1 l1); [done|]. by apply (kst_took user_tables l1 [] (ram s1) (proc_regions tf) s1 s2 pt node l').
  - exists (ram s1). exact K.
Qed.

(** The process that [userinit] makes: it is about to run [initcode], at address 0 of an
    address space of one page, with the trampoline and its trapframe. *)
Record first_process (pid kstack : Z) (k' : kernel lstate) : Prop := {
  fp_init : k_initproc k' = 0;
  fp_state : p_state (procat k' 0) = RUNNABLE /\ p_pid (procat k' 0) = pid /\ p_sz (procat k' 0) = PGSIZE;
  fp_context : p_context (procat k' 0) = (forkret_addr, u64 (kstack + PGSIZE));
  (** its registers *)
  fp_epc : load64 (ram (kmach k')) (p_trapframe (procat k' 0) + TF_epc) = 0;
  fp_sp : load64 (ram (kmach k')) (p_trapframe (procat k' 0) + TF_sp) = PGSIZE;
  (** its memory *)
  fp_space : exists p,
    (forall r va, r ∈ proc_regions (p_trapframe (procat k' 0)) ++ [Region 0 1 p wrxu] -> 0 <= va < MAXVA -> covers va r ->
       kpte (kmach k') (p_pagetable (procat k' 0)) va = mkpte (rg_pa r + (pg va - rg_va r)) (rg_perm r)) /\
    (forall va, 0 <= va < MAXVA -> (forall r, r ∈ proc_regions (p_trapframe (procat k' 0)) ++ [Region 0 1 p wrxu] -> ~ covers va r) ->
       kpte (kmach k') (p_pagetable (procat k' 0)) va = 0) /\
    (forall i, 0 <= i < PGSIZE -> rd (ram (kmach k')) (p + i) = nthZ 0 initcode i);
  (** its directory is the root *)
  fp_cwd : exists i, inodeat (bt_fs k') (p_cwd (procat k' 0)) = i /\ i_dev i = ROOTDEV /\ i_inum i = ROOTINO /\ i_ref i = 1
}.

(** [namei] of the root directory. *)
Lemma namei_root f c : LK_itable ∉ held c -> (0 < length (fs_inode f))%nat -> Forall (fun i => i_ref i = 0) (fs_inode f) ->
  wp (namei NULL [SLASH]) c f (fun ip c' f' => ip = 0 /\ held c' = held c /\ wakes c' = wakes c /\ f' = upd_inode 0 (set_key ROOTDEV ROOTINO 1) f).
Proof.
  intros Hc Hl Href. unfold namei, namex. change (chr [SLASH] 0 =? SLASH) with true. cbn iota. apply wp_bind, wp_bind. unfold iget. apply wp_bind, wp_acquire; [done|]. apply wp_bind, wp_gets.
  assert (Hscan : forall l i e, Forall (fun i => i_ref i = 0) l -> 0 <= i -> e = NULL \/ 0 <= e -> iget_scan l i ROOTDEV ROOTINO e = inr (if (e =? NULL) && negb (bool_decide (l = [])) then i else e)).
  { induction l as [|x l IH]; intros i e Hall Hi He; cbn [iget_scan]; [by rewrite andb_false_r|]. apply Forall_cons in Hall as [Hx Hall]. rewrite Hx. cbn [Z.ltb Z.compare andb Z.eqb]. rewrite IH; [|done|lia|].
    - rewrite (bool_decide_false (x :: l = [])) by done. cbn [negb]. rewrite !andb_true_r. destruct (Z.eqb_spec e NULL) as [->|Hne]; [|by rewrite (proj2 (Z.eqb_neq _ _))]. rewrite (proj2 (Z.eqb_neq i NULL)) by (unfold NULL; lia). done.
    - destruct (e =? NULL); cbn [andb]; [by right|done]. }
  rewrite Hscan by (done || auto). rewrite (bool_decide_false (fs_inode f = [])) by (intros E; rewrite E in Hl; cbn in Hl; lia). cbn [Z.eqb andb negb NULL]. change (0 =? NULL) with false. cbn iota.
  apply wp_bind, wp_modify, wp_bind. apply (wp_release _ _ c); [done|done|]. apply wp_ret. cbn [length namex_loop]. change (skipelem [SLASH] (zeros DIRSIZ)) with (@None (list Z * list Z)). cbn iota. apply wp_ret, wp_ret. done.
Qed.

(** The memory of the first process, after the two writes to its trapframe. *)
Lemma first_space l tf l1 p s3 pt n3 l3 s0 m1 : l = tf :: l1 -> page_ok tf -> tf ∉ l1 ->
  kst user_tables l1 [p] m1 (proc_regions tf ++ [Region 0 1 p wrxu]) s3 pt n3 l3 -> took s0 l s3 l3 ->
  (forall i, 0 <= i < PGSIZE -> rd (ram s3) (p + i) = nthZ 0 initcode i) ->
  let s5 := set_ram (fun m => store64 m (tf + TF_sp) PGSIZE) (set_ram (fun m => store64 m (tf + TF_epc) 0) s3) in
  took s0 l s5 l3 /\
  (forall r va, r ∈ proc_regions tf ++ [Region 0 1 p wrxu] -> 0 <= va < MAXVA -> covers va r -> kpte s5 pt va = mkpte (rg_pa r + (pg va - rg_va r)) (rg_perm r)) /\
  (forall va, 0 <= va < MAXVA -> (forall r, r ∈ proc_regions tf ++ [Region 0 1 p wrxu] -> ~ covers va r) -> kpte s5 pt va = 0) /\
  (forall i, 0 <= i < PGSIZE -> rd (ram s5) (p + i) = nthZ 0 initcode i) /\
  load64 (ram s5) (tf + TF_epc) = 0 /\ load64 (ram s5) (tf + TF_sp) = PGSIZE.
Proof.
  intros El Htf Hn K T Hcode s5. pose proof (store64_page tf TF_epc 0 Htf ltac:(done)) as W1. pose proof (store64_page tf TF_sp PGSIZE Htf ltac:(done)) as W2.
  pose proof (kst_outside _ _ _ _ _ _ _ _ _ tf _ (kst_outside _ _ _ _ _ _ _ _ _ tf _ K Htf Hn W1) Htf Hn W2) as K5. fold s5 in K5.
  assert (Htl : tf ∈ l) by (rewrite El; by left). assert (Hn3 : tf ∉ l3) by (intros Hin; by apply Hn, (kp_free _ _ _ _ _ (ks_pages _ _ _ _ _ _ _ _ _ K))).
  destruct (kp_stk _ _ _ _ _ (ks_pages _ _ _ _ _ _ _ _ _ K) p ltac:(by left)) as (Hok & _ & _ & Hp1). assert (Hpt : p <> tf) by (by intros ->).
  split_and!.
  - apply (took_write _ _ _ _ tf (fun m => store64 m (tf + TF_sp) PGSIZE)); [|done..]. by apply (took_write _ _ _ _ tf (fun m => store64 m (tf + TF_epc) 0)).
  - intros r va Hr Hva Hcv. rewrite (kpte_spec s5 pt n3 l3) by (apply K5 || lia). by apply K5.
  - intros va Hva Hno. rewrite (kpte_spec s5 pt n3 l3) by (apply K5 || lia). by apply K5.
  - intros i Hi. unfold s5. cbn [set_ram ram]. assert (Hpg : pg (p + i) <> tf) by (rewrite (pg_in p); [done|by apply page_ok_aligned|lia]). rewrite W2, W1 by done. by apply Hcode.
  - unfold s5. cbn [set_ram ram]. rewrite load64_store64_out by (unfold TF_sp, TF_epc; lia). by rewrite load64_store64_same.
  - unfold s5. cbn [set_ram ram]. by rewrite load64_store64_same.
Qed.

(** [fileop], for an operation that wakes nobody. *)
Lemma wp_fileop {A} me (m : M (files lstate umach) A) c (k : kernel lstate) Q :
  wp m (Ctx (held c) [] (p_pid (procat k me))) (ss_files (cur_view me k)) (fun a c' f => wakes c' = [] /\
    Q a (Ctx (held c') (wakes c) (mypid c)) (cur_put me (Sys f (cur_of me k)) k)) ->
  wp (fileop me m) c k Q.
Proof.
  intros (a & c' & f & E & Hw & HQ). exists a, (Ctx (held c') (wakes c) (mypid c)), (cur_put me (Sys f (cur_of me k)) k). split; [|done].
  unfold fileop, curop, fop, zoom. cbn [cur_view ss_files ss_cur] in *. rewrite E, Hw. done.
Qed.

Lemma userinit_ok k l c : held c = [] -> (0 < length (k_proc k))%nat -> p_state (procat k 0) = UNUSED -> kinv (kmach k) l -> (9 < length l)%nat ->
  (0 < length (fs_inode (bt_fs k)))%nat -> Forall (fun i => i_ref i = 0) (fs_inode (bt_fs k)) ->
  wp userinit c k (fun _ c' k' => held c' = [] /\ first_process (k_nextpid k) (p_kstack (procat k 0)) k' /\ exists l', took (kmach k) l (kmach k') l').
Proof.
  intros Hc Hlen Hst Hk Hl Hil Href. unfold userinit. apply wp_bind. eapply wp_mono; [by apply (allocproc_ok k l c)|].
  intros p c1 k1 (-> & Hc1 & tf & pt & node & l1 & l2 & [Aln Apr Afs (Htf & El & Hntf) At (m1 & K1)]). change (0 =? NULL) with false. cbn iota. assert (Hm1 : LK_kmem ∉ held c1) by (rewrite Hc1; set_solver).
  apply wp_bind, wp_modify. set (k2 := Kernel _ _ _ _ _ _). assert (Hp2 : procat k2 0 = procat k1 0) by done. assert (Hl2 : length (k_proc k2) = length (k_proc k1)) by done.
  apply wp_bind, wp_gets. rewrite Hp2, Apr. cbn [p_pagetable set_context set_pagetable set_trapframe set_state set_pid]. apply wp_bind, wp_memop. change (kmach k2) with (kmach k1).
  assert (Hnd1 : NoDup l1) by (destruct Hk as (_ & Hnd & _); rewrite El in Hnd; by apply NoDup_cons in Hnd as [_ ?]).
  eapply wp_mono; [apply (uvmfirst_ok l1 (ram (kmach k1)) tf initcode (kmach k1) pt node l2 c1 Hnd1 Hm1); [rewrite El in Hl; cbn in Hl; lia|done|apply (bool_decide_unpack _); by vm_compute|exact (kst_rebase _ _ _ _ _ _ _ _ _ K1)]|].
  intros _ c' s3 (-> & p & n3 & l3 & K3 & Hcode). pose proof (kst_took _ _ _ _ _ (kmach k1) s3 pt n3 l3 eq_refl K3) as T3.
  assert (T : took (kmach k) l s3 l3) by (apply (took_trans_sub _ _ _ _ _ _ _ At T3); intros q Hq; rewrite El; by right).
  apply wp_bind, wp_modify. set (k3 := upd_proc 0 (set_sz PGSIZE) _). assert (Hl3 : length (k_proc k3) = length (k_proc k)) by (unfold k3; rewrite length_upd; exact Aln).
  assert (Hp3 : procat k3 0 = set_sz PGSIZE (procat k1 0)) by (unfold k3; rewrite procat0_upd by (rewrite <- Aln in Hlen; exact Hlen); done).
  assert (Hm3 : kmach k3 = s3) by done. assert (Hf3 : fs_inode (bt_fs k3) = fs_inode (bt_fs k)) by exact Afs. assert (Hi3 : k_initproc k3 = 0) by done. clearbody k3.
  set (s5 := set_ram (fun m => store64 m (tf + TF_sp) PGSIZE) (set_ram (fun m => store64 m (tf + TF_epc) 0) s3)).
  destruct (first_space l tf l1 p s3 pt n3 l3 (kmach k) (ram (kmach k1)) El Htf Hntf K3 T Hcode) as (T5 & Hin & Hout & Hcode5 & Hepc & Hsp). fold s5 in T5, Hin, Hout, Hcode5, Hepc, Hsp.
  unfold tf_set. apply wp_bind, wp_bind, wp_gets. rewrite Hp3, Apr. cbn [p_trapframe set_sz set_context set_pagetable set_trapframe set_state set_pid]. apply wp_memop, wp_modify.
  set (k4 := set_kusr _ k3). apply wp_bind, wp_bind, wp_gets. change (procat k4 0) with (procat k3 0). rewrite Hp3, Apr. cbn [p_trapframe set_sz set_context set_pagetable set_trapframe set_state set_pid]. apply wp_memop, wp_modify.
  apply wp_bind, wp_modify. set (k5 := upd_proc 0 _ _). assert (Hm5 : kmach k5 = s5) by (unfold s5; rewrite <- Hm3; done). assert (Hl5 : length (k_proc k5) = length (k_proc k)) by (unfold k5; rewrite length_upd; exact Hl3).
  assert (Hp5 : procat k5 0 = set_name (safestrcpy (p_name (procat k3 0)) (chr INITCODE_NAME) 16) (procat k3 0)) by (unfold k5; rewrite procat0_upd by (rewrite <- Hl3 in Hlen; exact Hlen); done).
  assert (Hf5 : fs_inode (bt_fs k5) = fs_inode (bt_fs k)) by exact Hf3. assert (Hi5 : k_initproc k5 = 0) by exact Hi3. clearbody k5. clear k4.
  apply wp_bind, wp_fileop, wp_zoom. eapply wp_mono; [apply namei_root; [cbn [held]; rewrite Hc1; set_solver|by rewrite <- Hf5 in Hil|by rewrite <- Hf5 in Href]|].
  intros ip c' f' (-> & Hh & Hw & ->). split; [exact Hw|]. cbn [held] in Hh. set (k6 := cur_put NULL _ k5). assert (Hl6 : length (k_proc k6) = length (k_proc k)) by (unfold k6, cur_put; rewrite length_upd; exact Hl5).
  assert (Hp6 : procat k6 0 = procat k5 0).
  { unfold k6, cur_put. change (upd_proc NULL) with (upd_proc (L := lstate) 0). rewrite procat0_upd by (rewrite <- Hl5 in Hlen; exact Hlen). unfold cur_of. cbn [ss_cur c_cwd c_ofile]. change (procat k5 NULL) with (procat k5 0). change (procat (set_files _ k5) 0) with (procat k5 0). by destruct (procat k5 0). }
  assert (Hi6 : inodeat (bt_fs k6) 0 = set_key ROOTDEV ROOTINO 1 (inodeat (bt_fs k5) 0)).
  { unfold inodeat. change (fs_inode (bt_fs k6)) with (setZ (fs_inode (bt_fs k5)) 0 (set_key ROOTDEV ROOTINO 1 (inodeat (bt_fs k5) 0))). rewrite nthZ_setZ_eq by (rewrite Hf5; lia). done. }
  assert (Hm6 : kmach k6 = s5) by exact Hm5. assert (Hini6 : k_initproc k6 = 0) by exact Hi5. clearbody k6.
  apply wp_bind, wp_modify, wp_bind, wp_modify. apply (wp_release _ _ c); [cbn [held]; by rewrite Hh, Hc1, Hc|rewrite Hc; set_solver|]. split; [by cbn [held]|].
  set (k8 := upd_proc 0 (set_state RUNNABLE) _). assert (Hp8 : procat k8 0 = set_state RUNNABLE (set_pcwd 0 (procat k6 0))) by (unfold k8; rewrite !procat0_upd by (rewrite ?length_upd, Hl6; exact Hlen); done).
  rewrite Hp6, Hp5, Hp3, Apr in Hp8. change (kmach k8) with (kmach k6) in *. split; [|exists l3; by rewrite Hm6].
  split; rewrite ?Hp8; cbn [p_state p_pid p_sz p_context p_trapframe p_pagetable p_cwd set_state set_pcwd set_name set_sz set_context set_pagetable set_trapframe set_pid]; change (kmach k8) with (kmach k6); rewrite ?Hm6; [done|done|done|done|done|by exists p|].
  eexists. split; [reflexivity|]. change (bt_fs k8) with (bt_fs k6). rewrite Hi6. done.
Qed.
End first.
