(* ===== verification/Booted.v ===== *)
(** * main

    Hart 0 runs [main] up to the scheduler ([main_boots]): each step keeps what the next
    ones need ([stage]), and the kernel's page table survives the pages that the disk and
    the first process take.  The other harts wait and then turn paging on with the same
    table ([main_waits], [main_joins]). *)

From S2P Require Import Prelude KMonad Riscv Mem Hart Kalloc Vm PageTable UserSpace UserAlloc UserFork KernelMap UserMem Uart Pipe Console Printf UserVm Bytes Sleeplock Bio Virtio Log BlockLayer Fs FsDir File Devsw Syscall Sysfile Proc Exec Kernel Trap Main MainBoot.

(** ** main on hart 0 *)

Section main.
Context `{KernelImage} `{KernelText} `{TrapImage}.

(** What the steps before [userinit] keep. *)
Record stage (b : boot) (m : mach) (npid : Z) (h : hart) (w : list (Z * Z)) : Prop := {
  sg_mach : kmach (bt_k b) = m;
  sg_len : length (k_proc (bt_k b)) = Z.to_nat NPROC;
  sg_pid : k_nextpid (bt_k b) = npid;
  sg_inodes : (0 < length (fs_inode (bt_fs (bt_k b))))%nat /\ Forall (fun i => i_ref i = 0) (fs_inode (bt_fs (bt_k b)));
  sg_regs : bt_regs b = [];
  sg_uart : ut_panicked (tt_uart (k_tty (bt_k b))) = false;
  sg_hart : ts_hart (bt_t b) = h;
  sg_plic : pl_writes (ts_plic (bt_t b)) = w
}.

Lemma printf_stage b m np h w fmt c (Q : unit -> ctx -> boot -> Prop) : stage b m np h w -> held c = [] -> chars fmt -> formatted fmt [] <> None ->
  (forall c' b', held c' = [] -> stage b' m np h w -> Q tt c' b') -> wp (bprintf fmt []) c b Q.
Proof.
  intros [S1 S2 S3 S4 S5 S6 S7 S8] Hc Hf Ho HQ. destruct (formatted fmt []) as [out|] eqn:E; [|done]. unfold bprintf, prop. apply wp_zoom.
  eapply wp_mono; [apply (printf_writes_formatted fmt [] out); [done|constructor|done|exact S6|rewrite Hc; apply not_elem_of_nil]|].
  intros [] c' x (Hh & _ & _ & _ & He). apply HQ; [by rewrite Hh|]. destruct He as (_ & _ & Hp & _). split; [exact S1|exact S2|exact S3|exact S4|exact S5| |exact S7|exact S8]. cbn. by rewrite Hp.
Qed.

Lemma procinit_stage (k : kernel lstate) c (Q : unit -> ctx -> kernel lstate -> Prop) : length (k_proc k) = Z.to_nat NPROC ->
  (forall k', kmach k' = kmach k -> bt_fs k' = bt_fs k -> k_nextpid k' = k_nextpid k -> length (k_proc k') = Z.to_nat NPROC ->
     (forall p, 0 <= p < NPROC -> p_state (procat k' p) = UNUSED /\ p_kstack (procat k' p) = KSTACK p) -> Q tt c k') ->
  wp procinit c k Q.
Proof.
  intros Hl HQ. unfold procinit. apply (wp_upto (fun i k' => kmach k' = kmach k /\ bt_fs k' = bt_fs k /\ k_nextpid k' = k_nextpid k /\ length (k_proc k') = Z.to_nat NPROC /\
    forall p, 0 <= p < i -> p_state (procat k' p) = UNUSED /\ p_kstack (procat k' p) = KSTACK p)); [done| | |].
  - split_and!; [done..|]. intros p Hp. lia.
  - intros i k1 Hi (E1 & E2 & E3 & E4 & E5). apply wp_bind, wp_modify, wp_modify. split; [done|]. rewrite !length_upd. split_and!; [exact E1|exact E2|exact E3|exact E4|].
    intros p Hp. unfold procat, upd_proc, procat. cbn [set_procs k_proc]. assert (0 <= i < Z.of_nat (length (k_proc k1))) by (rewrite E4; unfold NPROC in *; lia). destruct (decide (p = i)) as [->|Hne].
    + rewrite !nthZ_setZ_eq by (rewrite ?length_setZ; lia). done.
    + rewrite !nthZ_setZ_ne by lia. apply E5. lia.
  - intros k1 (E1 & E2 & E3 & E4 & E5). by apply HQ.
Qed.

Lemma iinit_inodes (f : fs lstate umach) : length (fs_inode (iinit f)) = length (fs_inode f) /\
  (Forall (fun i => i_ref i = 0) (fs_inode f) -> Forall (fun i => i_ref i = 0) (fs_inode (iinit f))) /\ fs_usr (iinit f) = fs_usr f.
Proof.
  unfold iinit. generalize (upto NINODE). intros l. revert f. induction l as [|i l IH]; intros f; cbn [fold_left]; [done|]. destruct (IH (upd_inode i (set_ilock initsleeplock) f)) as (L1 & L2 & L3).
  rewrite L1, L3. split; [apply length_setZ|]. split; [|done]. intros Hf. apply L2. unfold upd_inode, set_inodes. cbn [fs_inode]. apply Forall_insert; [done|]. cbn [set_ilock i_ref]. unfold inodeat, nthZ.
  destruct (nth_in_or_default (Z.to_nat i) (fs_inode f) inode0) as [Hin| ->]; [|done]. apply list_elem_of_In in Hin. by apply (proj1 (Forall_forall _ _) Hf).
Qed.

(** The kernel's address space, while pages are taken from the free list. *)
Lemma kernel_space_took s root stk node l s' l' : owns s root node l -> kernel_space s root stk l -> took s l s' l' -> kernel_space s' root stk l'.
Proof.
  intros Ho [V1 (V2 & V3 & V4) V5 V6 V7] T. destruct (owns_took _ _ _ _ _ _ Ho T) as [Ho' Hp].
  assert (E : forall va, va < MAXVA -> kpte s' root va = kpte s root va) by (intros va Hva; rewrite (kpte_spec s' root node l'), (kpte_spec s root node l) by done; apply Hp).
  split; [apply Ho'| | | |].
  - split_and!; [done|done|]. intros p Hin. destruct (V4 p Hin) as [? Hn]. split; [done|]. intros Hin'. by apply Hn, (tk_sub _ _ _ _ T).
  - intros r va Hr Hva Hc. rewrite E by lia. by apply V5.
  - intros va Hva Hno. rewrite E by lia. by apply V6.
  - intros p va Hin Hva. rewrite E; [by apply (V7 p)|]. unfold KSTACK, TRAMPOLINE, NPROC in *. change MAXVA with (2 ^ 38) in *. unfold PGSIZE in *. lia.
Qed.

(** The address space after [kvminithart]: at least 13 pages are free. *)
Definition space_on (b : boot) (m : mach) : Prop :=
  exists stk node l, owns m (kernel_pagetable b) node l /\ kernel_space m (kernel_pagetable b) stk l /\ (13 <= length l)%nat.

(** The messages, the free pages and the kernel's address space. *)
Lemma main_mem_ok b m np h w c (rest : M boot unit) Q : stage b (Mach m 0) np h w -> held c = [] -> kend + 150 * PGSIZE <= PHYSTOP ->
  (forall c' b' s, held c' = [] -> space_on b' s -> stage b' s np (set_csr SATP (u64 (MAKE_SATP (kernel_pagetable b'))) h) w -> wp rest c' b' Q) ->
  wp (conop consoleinit ;; prop printfinit ;; bprintf [NL] [] ;; bprintf (str "xv6 kernel is booting" ++ [NL]) [] ;; bprintf [NL] [] ;;
      bkop (memop kinit) ;; kvminit ;; kvminithart ;; rest) c b Q.
Proof.
  intros S0 Hc Hend HQ. apply wp_bind, wp_zoom, wp_zoom. do 6 (apply wp_bind, wp_modify). apply wp_modify.
  apply wp_bind, wp_zoom, wp_modify. set (b1 := Bst _ _ _ _ _ _). assert (S1 : stage b1 (Mach m 0) np h w) by (destruct S0; by split). clearbody b1.
  apply wp_bind. apply (printf_stage _ _ _ _ _ _ _ _ S1 Hc); [by repeat constructor|done|]. clear b1 S1. intros c1 b1 Hc1 S1.
  apply wp_bind. apply (printf_stage _ _ _ _ _ _ _ _ S1 Hc1); [apply Forall_app; split; [apply str_range|by repeat constructor]|done|]. clear b1 S1. intros c2 b1 Hc2 S1.
  apply wp_bind. apply (printf_stage _ _ _ _ _ _ _ _ S1 Hc2); [by repeat constructor|done|]. clear b1 S1. intros c3 b1 Hc3 S1.
  assert (Hkm : LK_kmem ∉ held c3) by (rewrite Hc3; apply not_elem_of_nil). destruct S1 as [T1 T2 T3 T4 T5 T6 T7 T8].
  apply wp_bind, wp_zoom, wp_memop. rewrite T1. destruct (kinit_frees_all_pages c3 m Hkm) as (s1 & l & Hrun & Hk & Hl). exists tt, c3, s1. split; [exact Hrun|]. pose proof (many_pages l 149 Hl ltac:(lia)) as Hn.
  apply wp_bind, wp_bind, wp_zoom, wp_memop. eapply wp_mono; [apply (kvmmake_spec s1 l c3 Hk Hkm); assert (length kernel_tables = 72%nat) by done; unfold NPROC; lia|].
  intros root c' s2 (-> & _ & Hst). destruct (stacked_space l (ram s1) s2 root) as (stk & node & l' & Ho & Hs & Hcost); [apply Hk|done|].
  apply wp_modify. apply wp_bind, wp_bind, wp_zoom, wp_zoom, wp_ret, wp_bind, wp_gets, wp_bind, wp_zoom, wp_zoom, wp_modify. apply wp_zoom, wp_zoom, wp_ret. apply (HQ _ _ s2); [done| |].
  - exists stk, node, l'. split_and!; [exact Ho|exact Hs|]. assert (length kernel_tables = 72%nat) by done. unfold NPROC in *. lia.
  - split; [done|exact T2|exact T3|exact T4|exact T5|exact T6| |exact T8]. cbn. by rewrite T7.
Qed.

(** What [main] leaves behind: paging is on with the kernel's table, traps go to
    [kernelvec], the interrupt controller hands the interrupts of the uart and the disk to
    this hart, and the first process is ready to run on its stack. *)
Record booted (pid : Z) (w : list (Z * Z)) (b : boot) : Prop := {
  bo_started : started b = true;
  bo_satp : h_csr (ts_hart (bt_t b)) SATP = u64 (MAKE_SATP (kernel_pagetable b));
  bo_stvec : h_csr (ts_hart (bt_t b)) STVEC = u64 kernelvec_addr;
  bo_plic : pl_writes (ts_plic (bt_t b)) =
    w ++ [(PLIC + UART0_IRQ * 4, 1); (PLIC + VIRTIO0_IRQ * 4, 1); (PLIC_SENABLE 0, 2 ^ UART0_IRQ + 2 ^ VIRTIO0_IRQ); (PLIC_SPRIORITY 0, 0)];
  bo_space : exists stk l, kernel_space (kmach (bt_k b)) (kernel_pagetable b) stk l;
  bo_first : first_process pid (KSTACK 0) (bt_k b)
}.

(** The process that [userinit] will take. *)
Definition slot0 (k : kernel lstate) : Prop := p_state (procat k 0) = UNUSED /\ p_kstack (procat k 0) = KSTACK 0.

Lemma set_fs_stage b f m np h w : stage b m np h w -> fs_usr f = fs_usr (bt_fs (bt_k b)) -> length (fs_inode f) = length (fs_inode (bt_fs (bt_k b))) ->
  Forall (fun i => i_ref i = 0) (fs_inode f) -> stage (set_k (set_fs f (bt_k b)) b) m np h w.
Proof.
  intros [T1 T2 T3 [T4 T4'] T5 T6 T7 T8] Hu Hl Hr. split; [|exact T2|exact T3| |exact T5| |exact T7|exact T8].
  - change (u_mach (fs_usr f) = m). by rewrite Hu.
  - split; [|exact Hr]. change (0 < length (fs_inode f))%nat. by rewrite Hl.
  - change (ut_panicked (tt_uart (u_tty (fs_usr f))) = false). by rewrite Hu.
Qed.

(** The tables of the kernel, and the interrupts. *)
Lemma main_tables_ok b s np h w c (rest : M boot unit) Q : stage b s np h w -> s32 (h_reg h TP) = 0 ->
  (forall b', slot0 (bt_k b') -> kernel_pagetable b' = kernel_pagetable b ->
     stage b' s np (set_csr STVEC (u64 kernelvec_addr) h) (w ++ [(PLIC + UART0_IRQ * 4, 1); (PLIC + VIRTIO0_IRQ * 4, 1); (PLIC_SENABLE 0, 2 ^ UART0_IRQ + 2 ^ VIRTIO0_IRQ); (PLIC_SPRIORITY 0, 0)]) ->
     wp rest c b' Q) ->
  wp (bkop procinit ;; top trapinithart ;; top plicinit ;; top plicinithart ;;
      on_fs (fun f => set_blk (set_bc (binit (bc (fs_blk f))) (fs_blk f)) f) ;; on_fs iinit ;; rest) c b Q.
Proof.
  intros [T1 T2 T3 T4 T5 T6 T7 T8] Htp HQ.
  apply wp_bind, wp_zoom, procinit_stage; [done|]. intros k1 E1 E2 E3 E4 E5. pose proof (E5 0 ltac:(done)) as E6. clear E5.
  apply wp_bind, wp_zoom, wp_zoom, wp_modify. apply wp_bind, wp_zoom, wp_bind, wp_modify, wp_modify.
  apply wp_bind, wp_zoom, wp_bind, wp_bind, wp_zoom, wp_gets, wp_ret. cbn [bt_t set_t set_k ts_hart set_csr h_reg]. rewrite T7, Htp. apply wp_bind, wp_modify, wp_modify.
  match goal with |- wp _ _ ?b1 _ => set (b2 := b1) end. assert (Hk : bt_k b2 = k1) by done. assert (Hpt : kernel_pagetable b2 = kernel_pagetable b) by done.
  assert (S2 : stage b2 s np (set_csr STVEC (u64 kernelvec_addr) h) (w ++ [(PLIC + UART0_IRQ * 4, 1); (PLIC + VIRTIO0_IRQ * 4, 1); (PLIC_SENABLE 0, 2 ^ UART0_IRQ + 2 ^ VIRTIO0_IRQ); (PLIC_SPRIORITY 0, 0)])).
  { split; rewrite ?Hk; [by rewrite E1|done|by rewrite E3|by rewrite E2|exact T5| |done|cbn; by rewrite T8, <- !app_assoc]. unfold k_tty. change (k_usr k1) with (fs_usr (bt_fs k1)). by rewrite E2. }
  clearbody b2. subst k1. apply wp_bind, wp_modify. set (f := set_blk _ _). pose proof (set_fs_stage b2 f _ _ _ _ S2 eq_refl eq_refl (proj2 (sg_inodes _ _ _ _ _ S2))) as S3.
  set (b3 := set_k _ b2) in *. assert (E7 : slot0 (bt_k b3)) by exact E6. assert (Hpt3 : kernel_pagetable b3 = kernel_pagetable b) by exact Hpt. clearbody b3. clear b2 S2 Hpt f E1 E2 E3 E4 E6.
  apply wp_bind, wp_modify. destruct (iinit_inodes (bt_fs (bt_k b3))) as (I1 & I2 & I3). destruct (sg_inodes _ _ _ _ _ S3) as [_ Hr]. apply HQ; [exact E7|exact Hpt3|]. apply set_fs_stage; auto.
Qed.

(** The disk and the first process. *)
Lemma main_rest_ok rd b s np h w c : disk_answers rd -> stage b s np h w -> space_on b s -> held c = [] -> slot0 (bt_k b) ->
  wp (virtop (virtio_disk_init rd) ;; bkop userinit ;;
      modify (fun b => Bst (bt_t b) (bt_disk b) (bt_regs b) (bt_locking b) (kernel_pagetable b) true)) c b
    (fun _ c' b' => held c' = [] /\ started b' = true /\ ts_hart (bt_t b') = h /\ pl_writes (ts_plic (bt_t b')) = w /\ kernel_pagetable b' = kernel_pagetable b /\
      (exists stk l, kernel_space (kmach (bt_k b')) (kernel_pagetable b') stk l) /\ first_process np (KSTACK 0) (bt_k b')).
Proof.
  intros Hd [T1 T2 T3 [T4 T4'] T5 T6 T7 T8] (stk & node & l & Ho & Hs & Hn) Hc [E6 E7].
  apply wp_bind, wp_zoom. eapply wp_mono; [apply (virtio_disk_init_ok rd _ _ l c Hd); [exact T5|change (kinv (kmach (bt_k b)) l); rewrite T1; apply Ho|rewrite Hc; apply not_elem_of_nil|lia]|].
  intros [] c' [m2 v2] (-> & l1 & T & Hl1 & _). cbn [fst snd] in *. change (took (kmach (bt_k b)) l m2 l1) in T. rewrite T1 in T.
  apply wp_bind, wp_zoom. match goal with |- wp _ _ ?k _ => set (k2 := k) end. assert (Hk2 : kmach k2 = m2) by done.
  eapply wp_mono; [apply (userinit_ok k2 l1 c Hc); [rewrite (eq_refl : k_proc k2 = k_proc (bt_k b)), T2; unfold NPROC; lia|exact E6|rewrite Hk2; apply T|lia|exact T4|exact T4']|].
  change (k_nextpid k2) with (k_nextpid (bt_k b)). change (procat k2 0) with (procat (bt_k b) 0). rewrite E7, T3, Hk2. intros [] c2 k3 (Hc2 & Hfp & l2 & T2'). apply wp_modify.
  split_and!; [done|done|exact T7|exact T8|done| |exact Hfp]. exists stk, l2. apply (kernel_space_took s _ stk node l); [done|done|]. by apply (took_trans _ _ m2 l1).
Qed.

(** C11: [main] on hart 0 brings the kernel up.  Started with nothing in its tables, at
    least 150 pages of RAM above the kernel and a disk that answers as the virtio
    specification says, it does not panic, deadlock or spin: it reaches the scheduler with
    [started] set, paging on in [kernel_pagetable] (every region mapped to the page it
    is meant for, nothing else, a guard page under each stack), [kernelvec] as trap
    vector, the controller's interrupts enabled, and process 0 RUNNABLE at [forkret] on
    its own kernel stack, with [initcode] at address 0, its registers and / as its
    directory. *)
Theorem main_boots rd b m np h w c : disk_answers rd -> stage b (Mach m 0) np h w -> held c = [] -> s32 (h_reg h TP) = 0 -> kend + 150 * PGSIZE <= PHYSTOP ->
  exists c' b', main rd c b = Ok true c' b' /\ held c' = [] /\ booted np w b'.
Proof.
  intros Hd Hst Hc Htp Hend. enough (W : wp (main rd) c b (fun r c' b' => r = true /\ held c' = [] /\ booted np w b')) by (destruct W as (r & c' & b' & E & -> & H3 & H4); by exists c', b').
  unfold main. apply wp_bind, wp_zoom, wp_bind, wp_zoom, wp_gets, wp_ret. rewrite (sg_hart _ _ _ _ _ Hst), Htp. cbn [Z.eqb]. apply wp_bind. unfold main_first. apply (main_mem_ok _ m np h w); [by destruct b as [[]]; destruct Hst|done|done|].
  intros c1 b1 s Hc1 Hsp S1. apply (main_tables_ok _ _ _ _ _ _ _ _ S1 Htp). intros b2 Hs0 Hpt S2. unfold space_on in Hsp. rewrite <- Hpt in Hsp.
  eapply wp_mono; [by apply (main_rest_ok rd b2 s np _ _ c1 Hd S2 Hsp Hc1)|]. intros [] c2 b3 (Hc2 & Hs2 & Hh & Hw & Hp3 & Hk & Hf). apply wp_ret. split_and!; [done|done|]. split; [done|..|done|done|done].
  - rewrite Hh, Hp3, Hpt. done.
  - by rewrite Hh.
Qed.

Lemma hart_message id : formatted (str "hart %d starting" ++ [NL]) [AInt id] <> None.
Proof. enough (H3 : is_Some (formatted (str "hart %d starting" ++ [NL]) [AInt id])) by (destruct H3 as [? ->]; done). eexists. reflexivity. Qed.

(** The other harts wait for hart 0, and then use the same table. *)
Lemma main_waits rd b c : s32 (h_reg (ts_hart (bt_t b)) TP) <> 0 -> started b = false -> main rd c b = Ok false c b.
Proof.
  intros Htp Hs. unfold main, bind, top, cpuid, cpu, zoom, r_tp, mv_from, gets, bind, ret. cbn. rewrite (proj2 (Z.eqb_neq _ 0) Htp). cbn. rewrite Hs. by destruct b as [[] ? ? ? ? ?].
Qed.

Lemma main_joins rd b c : s32 (h_reg (ts_hart (bt_t b)) TP) <> 0 -> started b = true -> ut_panicked (tt_uart (k_tty (bt_k b))) = false -> held c = [] ->
  wp (main rd) c b (fun r c' b' => r = true /\ held c' = [] /\ kmach (bt_k b') = kmach (bt_k b) /\ kernel_pagetable b' = kernel_pagetable b /\
    h_csr (ts_hart (bt_t b')) SATP = u64 (MAKE_SATP (kernel_pagetable b)) /\ h_csr (ts_hart (bt_t b')) STVEC = u64 kernelvec_addr).
Proof.
  intros Htp Hs Hp Hc. unfold main. apply wp_bind, wp_zoom, wp_bind, wp_zoom, wp_gets, wp_ret. rewrite (proj2 (Z.eqb_neq _ 0) Htp). apply wp_bind, wp_gets. cbn [set_t started]. rewrite Hs. cbn [negb].
  apply wp_bind, wp_zoom, wp_bind, wp_zoom, wp_gets, wp_ret. apply wp_bind, wp_zoom. match goal with |- context [AInt ?i] => destruct (formatted (str "hart %d starting" ++ [NL]) [AInt i]) as [out|] eqn:E; [|by apply hart_message in E] end.
  eapply wp_mono; [apply (printf_writes_formatted _ _ out); [apply Forall_app; split; [apply str_range|by repeat constructor]|by repeat constructor|exact E|exact Hp|rewrite Hc; apply not_elem_of_nil]|].
  intros [] c' x (Hh & _). match goal with |- wp _ _ ?b' _ => set (b1 := b') end. assert (K1 : kmach (bt_k b1) = kmach (bt_k b)) by done. assert (K2 : kernel_pagetable b1 = kernel_pagetable b) by done.
  clearbody b1. clear E. apply wp_bind, wp_bind, wp_zoom, wp_zoom, wp_ret, wp_bind, wp_gets, wp_bind, wp_zoom, wp_zoom, wp_modify. apply wp_zoom, wp_zoom, wp_ret.
  match goal with |- wp _ _ ?b' _ => set (b2 := b') end. assert (K3 : kmach (bt_k b2) = kmach (bt_k b)) by exact K1. assert (K4 : kernel_pagetable b2 = kernel_pagetable b) by exact K2.
  assert (K5 : h_csr (ts_hart (bt_t b2)) SATP = u64 (MAKE_SATP (kernel_pagetable b))) by (by rewrite <- K2). clearbody b2. clear b1 K1 K2.
  apply wp_bind, wp_zoom, wp_zoom, wp_modify. apply wp_bind, wp_zoom, wp_bind, wp_bind, wp_zoom, wp_gets, wp_ret, wp_bind, wp_modify, wp_modify. apply wp_ret. rewrite Hh. split_and!; [done|done|exact K3|exact K4|exact K5|done].
Qed.
End main.

(** ** A machine *)

#[local] Program Instance boot_image : KernelImage := {|
  kend := KERNBASE + 34 * PGSIZE;
  etext := KERNBASE + 8 * PGSIZE;
  trampoline := KERNBASE + 7 * PGSIZE
|}.
Solve Obligations with (vm_compute; intuition discriminate).
#[local] Instance boot_text : KernelText := {| forkret_addr := KERNBASE + 0x1a2c |}.
#[local] Instance boot_traps : TrapImage := {| kernelvec_addr := KERNBASE + 0x5d50; usertrap_addr := KERNBASE + 0x2c1e; uservec_off := 0; userret_off := 0x9a |}.

(** A register keeps the last value written. *)
Definition last_write (w : list (Z * Z)) (r : Z) : Z := fold_left (fun v x => if fst x =? r then snd x else v) w 0.

Definition qemu_disk (w : list (Z * Z)) (r : Z) : Z :=
  if r =? VIRTIO_MMIO_MAGIC_VALUE then 0x74726976
  else if (r =? VIRTIO_MMIO_VERSION) || (r =? VIRTIO_MMIO_DEVICE_ID) then 2
  else if r =? VIRTIO_MMIO_VENDOR_ID then 0x554d4551
  else if r =? VIRTIO_MMIO_QUEUE_NUM_MAX then 1024
  else last_write w r.

Lemma qemu_disk_answers : disk_answers qemu_disk.
Proof.
  split; try done.
  - intros w v. change (last_write (w ++ [(VIRTIO_MMIO_STATUS, v)]) VIRTIO_MMIO_STATUS = v). unfold last_write. by rewrite fold_left_app.
  - intros w Hw. change (last_write w VIRTIO_MMIO_QUEUE_READY = 0). unfold last_write. generalize 0. induction w as [|[r v] w IH]; intros v0; [done|]. cbn [fold_left fst snd].
    rewrite (proj2 (Z.eqb_neq r _)) by (intros ->; apply (Hw v); by left). apply IH. intros v' Hin. apply (Hw v'). by right.
Qed.

(** The static data of the kernel, zero but for the initialised variables. *)
Definition power_on : boot :=
  Bst (Tst (Kernel (replicate (Z.to_nat NPROC) proc0) 1 NULL true 0
        (Files (replicate (Z.to_nat NFILE) file0) ∅
          (Fs (SB 0 0 0 0 0 0 0 0) (replicate (Z.to_nat NINODE) inode0)
            (LState (Log 0 0 0 false 0 (LH 0 (replicate (Z.to_nat LOGSIZE) 0))) (Bcache (replicate (Z.to_nat (NBUF + 1)) buf0) ∅ []))
            (Umach (Mach ∅ 0) 0 false (Tty (Cons (replicate 128 0) 0 0 0) (Uart (replicate 32 0) 0 0 false [] 1 [] []))))))
      (Hart (fun _ => 0) (fun _ => 0)) (Plic [] []))
    (Disk [] 0 [] 0 [] (replicate 8 false) 0 (replicate 8 0) (replicate 8 0) (replicate 8 req0)) [] false 0 false.

Lemma power_on_stage : stage power_on (Mach ∅ 0) 1 (Hart (fun _ => 0) (fun _ => 0)) [].
Proof. split; try done. split; [by vm_compute; lia|]. by apply Forall_replicate. Qed.

Lemma main_boots_witness : kend + 150 * PGSIZE <= PHYSTOP /\
  exists c' b', main qemu_disk no_locks power_on = Ok true c' b' /\ held c' = [] /\ booted 1 [] b'.
Proof. split; [done|]. apply (main_boots qemu_disk power_on ∅ 1 (Hart (fun _ => 0) (fun _ => 0)) [] no_locks); [apply qemu_disk_answers|apply power_on_stage|done..]. Defined.
