(* ===== verification/Initcode.v ===== *)
(** * user/initcode.S

    The first user program, in the source's instructions, and the bytes that
    kernel/proc.c holds of it.  A processor that decodes those bytes from the memory that
    [userinit] sets up calls exec with the path and the arguments of the source, and calls
    exit for ever if exec fails. *)

From S2P Require Import Prelude KMonad Riscv Mem Hart Syscall Proc Exec Kernel.

(** The instructions of the user program, with their numeric registers. *)
Inductive uinstr :=
| UAUIPC (rd imm : Z)
| UADDI (rd rs imm : Z)
| UECALL
| UJAL (rd off : Z).
#[export] Instance uinstr_eq_dec : EqDecision uinstr.
Proof. solve_decision. Defined.

Definition x_ra := 1.
Definition x_a0 := 10.
Definition x_a1 := 11.
Definition x_a7 := 17.

(** ** The program *)

(** [la r, target] at address [pc], and [li r, v]. *)
Definition u_la (r target pc : Z) : list uinstr := [UAUIPC r 0; UADDI r r (target - pc)].
Definition u_li (r v : Z) : list uinstr := [UADDI r 0 v].

(** [start] and [exit], for the addresses of [init] and [argv]. *)
Definition start_text (init argv : Z) : list uinstr :=
  u_la x_a0 init 0 ++
  u_la x_a1 argv 8 ++
  u_li x_a7 SYS_exec ++ [UECALL] ++
  (* for(;;) exit(); *)
  u_li x_a7 SYS_exit ++ [UECALL] ++
  [UJAL x_ra (-8)].

Definition long (v : Z) : list Z := [v mod 256; v / 2 ^ 8 mod 256; v / 2 ^ 16 mod 256; v / 2 ^ 24 mod 256].

(** .string writes a null character of its own. *)
Definition init_string : list Z := str "/init" ++ [0; 0].

(** [align n] is the number of bytes that .p2align puts before [argv]. *)
Definition start_data (align : Z) (init : Z) : list Z := init_string ++ replicate (Z.to_nat align) 0 ++ long init ++ long 0.

(** ** Instruction formats *)

Definition encode (i : uinstr) : Z :=
  match i with
  | UAUIPC rd imm => imm mod 2 ^ 20 * 2 ^ 12 + rd * 2 ^ 7 + 0x17
  | UADDI rd rs imm => imm mod 2 ^ 12 * 2 ^ 20 + rs * 2 ^ 15 + rd * 2 ^ 7 + 0x13
  | UECALL => 0x73
  | UJAL rd off =>
      let b n k := off / 2 ^ n mod 2 ^ k in
      b 20 1 * 2 ^ 31 + b 1 10 * 2 ^ 21 + b 11 1 * 2 ^ 20 + b 12 8 * 2 ^ 12 + rd * 2 ^ 7 + 0x6f
  end.

Definition sext (n v : Z) : Z := if v <? 2 ^ (n - 1) then v else v - 2 ^ n.

Definition decode (w : Z) : option uinstr :=
  let f n k := w / 2 ^ n mod 2 ^ k in
  let rd := f 7 5 in
  if f 0 7 =? 0x17 then Some (UAUIPC rd (sext 20 (f 12 20)))
  else if (f 0 7 =? 0x13) && (f 12 3 =? 0) then Some (UADDI rd (f 15 5) (sext 12 (f 20 12)))
  else if w =? 0x73 then Some UECALL
  else if f 0 7 =? 0x6f then Some (UJAL rd (sext 21 (f 31 1 * 2 ^ 20 + f 12 8 * 2 ^ 12 + f 20 1 * 2 ^ 11 + f 21 10 * 2)))
  else None.

(** ** Execution in user space *)

Record ucpu := Ucpu { u_pc : Z; u_x : Z -> Z }.

Definition ureg (s : ucpu) (r : Z) : Z := if r =? 0 then 0 else u_x s r.
Definition set_ureg (r v : Z) (x : Z -> Z) : Z -> Z := fun r' => if r' =? r then v else x r'.

(** [fetch] is the memory of the process, byte by byte. *)
Definition bytes_at (fetch : Z -> Z) (a n : Z) : Z :=
  fold_right (fun i acc => fetch (a + i) + 256 * acc) 0 (upto n).

(** The next instruction; [None] at an ecall or an illegal instruction. *)
Definition ustep (fetch : Z -> Z) (s : ucpu) : option ucpu :=
  match decode (bytes_at fetch (u_pc s) 4) with
  | Some (UAUIPC rd imm) => Some (Ucpu (u_pc s + 4) (set_ureg rd (u64 (u_pc s + imm * 2 ^ 12)) (u_x s)))
  | Some (UADDI rd rs imm) => Some (Ucpu (u_pc s + 4) (set_ureg rd (u64 (ureg s rs + imm)) (u_x s)))
  | Some (UJAL rd off) => Some (Ucpu (u64 (u_pc s + off)) (set_ureg rd (u_pc s + 4) (u_x s)))
  | _ => None
  end.

Fixpoint urun (fuel : nat) (fetch : Z -> Z) (s : ucpu) : ucpu :=
  match fuel with
  | O => s
  | S f => match ustep fetch s with Some s' => urun f fetch s' | None => s end
  end.

Definition at_ecall (fetch : Z -> Z) (s : ucpu) : Prop := decode (bytes_at fetch (u_pc s) 4) = Some UECALL.

(** ** The image *)

(** The bytes of proc.c are the source's instructions, then its data, without the
    alignment of [argv] that the source asks for. *)
Lemma initcode_assembled :
  initcode = (start_text 0x24 0x2b ≫= fun i => long (encode i)) ++ start_data 0 0x24 ++ [0] /\
  Forall (fun i => decode (encode i) = Some i) (start_text 0x24 0x2b) /\
  initcode <> (start_text 0x24 0x2c ≫= fun i => long (encode i)) ++ start_data 1 0x24.
Proof. split; [by vm_compute|]. split; [by repeat constructor|by vm_compute]. Qed.

Section run.
Variable fetch : Z -> Z.
Hypothesis page : forall i, 0 <= i < PGSIZE -> fetch i = nthZ 0 initcode i.

Lemma bytes_page a n : 0 <= a -> 0 <= n -> a + n <= PGSIZE -> bytes_at fetch a n = bytes_at (nthZ 0 initcode) a n.
Proof using page.
  intros Ha Hn Hl. unfold bytes_at. assert (Hr : Forall (fun i => 0 <= i < n) (upto n)) by (apply Forall_forall; intros i Hi; by apply elem_of_upto in Hi).
  induction (upto n) as [|i l IH]; [done|]. apply Forall_cons in Hr as [Hi Hr]. cbn [fold_right]. by rewrite page, IH by (done || lia).
Qed.

Lemma ustep_page s : 0 <= u_pc s -> u_pc s + 4 <= PGSIZE -> ustep fetch s = ustep (nthZ 0 initcode) s.
Proof using page. intros H1 H2. unfold ustep. by rewrite bytes_page. Qed.

Lemma urun_S f s s' : 0 <= u_pc s -> u_pc s + 4 <= PGSIZE -> ustep (nthZ 0 initcode) s = Some s' -> urun (S f) fetch s = urun f fetch s'.
Proof using page. intros H1 H2 E. cbn [urun]. by rewrite ustep_page, E. Qed.

Lemma urun_stop f s : 0 <= u_pc s -> u_pc s + 4 <= PGSIZE -> ustep (nthZ 0 initcode) s = None -> urun f fetch s = s.
Proof using page. intros H1 H2 E. destruct f; cbn [urun]; [done|]. by rewrite ustep_page, E. Qed.

(** The registers at the call of exec hold its number, the path and the arguments. *)
Lemma initcode_calls_exec x : let s := urun 8 fetch (Ucpu 0 x) in
  at_ecall fetch s /\ ureg s x_a7 = SYS_exec /\
  (forall i, 0 <= i < 6 -> fetch (ureg s x_a0 + i) = nthZ 0 (str "/init" ++ [0]) i) /\
  bytes_at fetch (ureg s x_a1) 8 = ureg s x_a0 /\ bytes_at fetch (ureg s x_a1 + 8) 8 = 0.
Proof using page.
  intros s. assert (E : u_pc s = 0x14 /\ ureg s x_a7 = SYS_exec /\ ureg s x_a0 = 0x24 /\ ureg s x_a1 = 0x2b).
  { unfold s. do 5 (erewrite urun_S; [|done|done|reflexivity]). rewrite urun_stop by done. done. }
  destruct E as (E1 & E2 & E3 & E4). unfold at_ecall. rewrite E1, E3, E4, !bytes_page by done. split_and!; [done|done| |done|done].
  intros i Hi. rewrite page by (unfold PGSIZE; lia). assert (Hc : i = 0 \/ i = 1 \/ i = 2 \/ i = 3 \/ i = 4 \/ i = 5) by lia. destruct Hc as [->|[->|[->|[->|[->| ->]]]]]; done.
Qed.

(** After a call that returns, of exec or of exit, the program calls exit. *)
Lemma initcode_exits x pc : pc = 0x18 \/ pc = 0x20 -> let s := urun 4 fetch (Ucpu pc x) in
  at_ecall fetch s /\ ureg s x_a7 = SYS_exit /\ u_pc s + 4 = 0x20.
Proof using page.
  intros Hpc s. assert (E : u_pc s = 0x1c /\ ureg s x_a7 = SYS_exit).
  { unfold s. destruct Hpc as [-> | ->].
    - erewrite urun_S; [|done|done|reflexivity]. by rewrite urun_stop by done.
    - do 2 (erewrite urun_S; [|done|done|reflexivity]). by rewrite urun_stop by done. }
  destruct E as (E1 & E2). unfold at_ecall. rewrite E1, !bytes_page by done. done.
Qed.
End run.
