(* ===== verification/User.v ===== *)
(** * User programs: user/user.h, user/ulib.c and user/printf.c

    A user program is a function of the answers that the kernel gives to its system
    calls.  [Sys W] lists the calls (user/user.h); [W] is whatever answers them.  A
    program's result says that it returned a value, that it called [exit], that [exec]
    replaced it, or that it ran for longer than its fuel.  A C string is the list of its
    characters before the terminating zero, and a [char*] that moves along a string is
    the suffix that starts there. *)

From S2P Require Import Prelude Fs Sysfile Mem Printf.

Inductive uout (A : Type) :=
| Val (a : A)
| Exit (status : Z)
| Execed (path : list Z) (argv : list (list Z))
| Hung.
Arguments Val {A}.
Arguments Exit {A}.
Arguments Execed {A}.
Arguments Hung {A}.

Definition U (W A : Type) : Type := W -> uout A * W.

Definition uret {W A} (a : A) : U W A := fun w => (Val a, w).
Definition ubind {W A B} (m : U W A) (k : A -> U W B) : U W B := fun w =>
  match m w with
  | (Val a, w') => k a w'
  | (Exit n, w') => (Exit n, w')
  | (Execed p a, w') => (Execed p a, w')
  | (Hung, w') => (Hung, w')
  end.

Declare Scope user_scope.
Delimit Scope user_scope with user.
Notation "x <- m ;; k" := (ubind m (fun x => k))
  (at level 100, m at next level, right associativity) : user_scope.
Notation "m ;; k" := (ubind m (fun _ => k))
  (at level 100, right associativity) : user_scope.
Open Scope user_scope.

(** ** System calls *)

Class Sys (W : Type) := {
  os_fork : W -> Z * W;
  os_wait : W -> Z * W;                              (* wait(0) *)
  os_pipe : W -> option (Z * Z) * W;
  os_write : Z -> list Z -> W -> Z * W;              (* fd, the bytes *)
  os_read : Z -> Z -> W -> option (list Z) * W;      (* fd, n; None for -1 *)
  os_close : Z -> W -> Z * W;
  os_kill : Z -> W -> Z * W;
  os_exec : list Z -> list (list Z) -> W -> bool * W; (* true: the program is replaced *)
  os_open : list Z -> Z -> W -> Z * W;
  os_mknod : list Z -> Z -> Z -> W -> Z * W;
  os_unlink : list Z -> W -> Z * W;
  os_fstat : Z -> W -> option stat * W;
  os_link : list Z -> list Z -> W -> Z * W;
  os_mkdir : list Z -> W -> Z * W;
  os_chdir : list Z -> W -> Z * W;
  os_dup : Z -> W -> Z * W;
  os_sleep : Z -> W -> Z * W
}.

Section calls.
Context {W : Type} `{Sys W}.

Definition call {A} (f : W -> A * W) : U W A := fun w => let '(a, w') := f w in (Val a, w').

Definition fork : U W Z := call os_fork.
Definition wait : U W Z := call os_wait.
Definition pipe : U W (option (Z * Z)) := call os_pipe.
Definition write (fd : Z) (l : list Z) : U W Z := call (os_write fd l).
Definition read (fd n : Z) : U W (option (list Z)) := call (os_read fd n).
Definition close (fd : Z) : U W Z := call (os_close fd).
Definition kill (pid : Z) : U W Z := call (os_kill pid).
Definition open (path : list Z) (mode : Z) : U W Z := call (os_open path mode).
Definition mknod (path : list Z) (major minor : Z) : U W Z := call (os_mknod path major minor).
Definition unlink (path : list Z) : U W Z := call (os_unlink path).
Definition fstat (fd : Z) : U W (option stat) := call (os_fstat fd).
Definition link (old new : list Z) : U W Z := call (os_link old new).
Definition mkdir (path : list Z) : U W Z := call (os_mkdir path).
Definition chdir (path : list Z) : U W Z := call (os_chdir path).
Definition dup (fd : Z) : U W Z := call (os_dup fd).
Definition sleep (n : Z) : U W Z := call (os_sleep n).

(** [exit] and a successful [exec] do not return. *)
Definition exit {A} (status : Z) : U W A := fun w => (Exit status, w).
Definition exec (path : list Z) (argv : list (list Z)) : U W unit := fun w =>
  match os_exec path argv w with
  | (true, w') => (Execed path argv, w')
  | (false, w') => (Val tt, w')
  end.

(** A loop whose body goes on with a new state ([inl]) or leaves the loop ([inr]). *)
Fixpoint uloop {S R} (fuel : nat) (body : S -> U W (S + R)) (s : S) : U W R :=
  match fuel with
  | O => fun w => (Hung, w)
  | S f =>
      r <- body s ;;
      match r with
      | inl s' => uloop f body s'
      | inr x => uret x
      end
  end.

(** [for] over the elements of an array. *)
Fixpoint ufor {B} (l : list B) (body : B -> U W unit) : U W unit :=
  match l with
  | [] => uret tt
  | x :: l' => body x ;; ufor l' body
  end.
End calls.

(** ** user/ulib.c *)

Fixpoint strcmp (p q : list Z) : Z :=
  match p, q with
  | c :: p', d :: q' => if c =? d then strcmp p' q' else c - d
  | c :: _, [] => c
  | [], d :: _ => - d
  | [], [] => 0
  end.

Definition strlen (s : list Z) : Z := Z.of_nat (length s).

(** The offset of the first [c]; the scan stops at a zero, also in a buffer. *)
Fixpoint strchr (s : list Z) (c : Z) : option Z :=
  match s with
  | [] => None
  | x :: s' => if x =? 0 then None else if x =? c then Some 0 else Z.succ <$> strchr s' c
  end.

(** [int] arithmetic, with its wrap-around. *)
Fixpoint atoi_loop (s : list Z) (n : Z) : Z :=
  match s with
  | [] => n
  | c :: s' => if (chr "0" <=? c) && (c <=? chr "9") then atoi_loop s' (s32 (n * 10 + c - chr "0")) else n
  end.
Definition atoi (s : list Z) : Z := atoi_loop s 0.

(** [memset], [memmove] and [memcpy] on the program's memory. *)
Definition umemset (m : mem) (dst c n : Z) : mem := memset_loop (Z.to_nat n) m dst c.

Definition umemmove (m : mem) (vdst vsrc n : Z) : mem :=
  if vdst <? vsrc then copy_fwd (Z.to_nat n) m vdst vsrc
  else copy_bwd (Z.to_nat n) m (vdst + n) (vsrc + n).
Definition umemcpy (m : mem) (dst src n : Z) : mem := umemmove m dst src n.

(** [strcpy]: the fuel bounds the length of the string. *)
Fixpoint strcpy (fuel : nat) (m : mem) (s t : Z) : option mem :=
  match fuel with
  | O => None
  | S f =>
      let m' := wr m s (rd m t) in
      if rd m t =? 0 then Some m' else strcpy f m' (s + 1) (t + 1)
  end.

Fixpoint umemcmp_loop (n : nat) (m : mem) (p1 p2 : Z) : Z :=
  match n with
  | O => 0
  | S n' => if rd m p1 =? rd m p2 then umemcmp_loop n' m (p1 + 1) (p2 + 1) else rd m p1 - rd m p2
  end.
Definition umemcmp (m : mem) (s1 s2 n : Z) : Z := umemcmp_loop (Z.to_nat n) m s1 s2.

Section ulib.
Context {W : Type} `{Sys W}.

(** [gets]: the buffer, from a buffer of the caller's. *)
Fixpoint gets_loop (room : nat) (buf : list Z) (i : Z) : U W (list Z) :=
  match room with
  | O => uret (setZ buf i 0)
  | S r =>
      cc <- read 0 1 ;;
      match cc with
      | Some (c :: _) =>
          let buf' := setZ buf i c in
          if (c =? 10) || (c =? 13) then uret (setZ buf' (i + 1) 0) else gets_loop r buf' (i + 1)
      | _ => uret (setZ buf i 0)
      end
  end.
Definition gets (buf : list Z) (max : Z) : U W (list Z) := gets_loop (Z.to_nat (max - 1)) buf 0.

Definition ustat (n : list Z) : U W (option stat) :=
  fd <- open n O_RDONLY ;;
  if fd <? 0 then uret None
  else
    r <- fstat fd ;;
    close fd ;;
    uret r.

(** [_main]: a program whose [main] returns exits with 0. *)
Definition start_main {A} (main : U W A) : U W unit := main ;; exit 0.

(** ** user/printf.c *)

Definition putc (fd c : Z) : U W unit := write fd [u8 c] ;; uret tt.

(** The characters of [l], each written by a [putc]. *)
Definition puts (fd : Z) (l : list Z) : U W unit := ufor l (putc fd).

Definition uprintint (fd xx base : Z) (sgn : bool) : U W unit :=
  puts fd (reverse (printint_buf DIGITS xx base sgn)).

Definition uprintptr (fd x : Z) : U W unit :=
  putc fd (chr "0") ;;
  putc fd (chr "x") ;;
  puts fd (ptr_loop 16 DIGITS x).

(** Reading an argument that is not there is undefined in C. *)
Definition uno_arg {A} : U W A := fun w => (Hung, w).

(** The loop of [vprintf]; [pct] is [state == '%']. *)
Fixpoint vprintf (fd : Z) (fmt : list Z) (ap : list arg) (pct : bool) : U W unit :=
  match fmt with
  | [] => uret tt
  | c :: fmt' =>
      if negb pct then
        if c =? chr "%" then vprintf fd fmt' ap true
        else putc fd c ;; vprintf fd fmt' ap false
      else if c =? chr "d" then
        match ap with
        | AInt x :: ap' => uprintint fd (s32 x) 10 true ;; vprintf fd fmt' ap' false
        | _ => uno_arg
        end
      else if c =? chr "l" then
        match ap with
        | AInt x :: ap' => uprintint fd (s32 x) 10 false ;; vprintf fd fmt' ap' false
        | _ => uno_arg
        end
      else if c =? chr "x" then
        match ap with
        | AInt x :: ap' => uprintint fd (s32 x) 16 false ;; vprintf fd fmt' ap' false
        | _ => uno_arg
        end
      else if c =? chr "p" then
        match ap with
        | AInt x :: ap' => uprintptr fd (u64 x) ;; vprintf fd fmt' ap' false
        | _ => uno_arg
        end
      else if c =? chr "s" then
        match ap with
        | AStr s :: ap' => puts fd (default (str "(null)") s) ;; vprintf fd fmt' ap' false
        | _ => uno_arg
        end
      else if c =? chr "c" then
        match ap with
        | AInt x :: ap' => putc fd x ;; vprintf fd fmt' ap' false
        | _ => uno_arg
        end
      else if c =? chr "%" then putc fd c ;; vprintf fd fmt' ap false
      else (* Unknown % sequence.  Print it to draw attention. *)
        putc fd (chr "%") ;; putc fd c ;; vprintf fd fmt' ap false
  end.

Definition fprintf (fd : Z) (fmt : list Z) (ap : list arg) : U W unit := vprintf fd fmt ap false.
Definition uprintf (fmt : list Z) (ap : list arg) : U W unit := vprintf 1 fmt ap false.
End ulib.

(** ** Reasoning about programs *)

(** How [m] ends when it starts in [w]. *)
Definition uwp {W A} (m : U W A) (w : W) (Q : uout A -> W -> Prop) : Prop := Q (fst (m w)) (snd (m w)).

(** It returns a value. *)
Definition returns {A W} (Q : A -> W -> Prop) (o : uout A) (w : W) : Prop :=
  match o with Val a => Q a w | _ => False end.

Section uwp.
Context {W : Type} {A B : Type}.
Implicit Types (w : W) (m : U W A).

Lemma uwp_ret (a : A) w (Q : uout A -> W -> Prop) : Q (Val a) w -> uwp (uret a) w Q.
Proof. done. Qed.

Lemma uwp_bind m (k : A -> U W B) w Q :
  uwp m w (fun o w' => match o with
    | Val a => uwp (k a) w' Q
    | Exit n => Q (Exit n) w'
    | Execed p l => Q (Execed p l) w'
    | Hung => Q Hung w'
    end) -> uwp (ubind m k) w Q.
Proof. unfold uwp, ubind. destruct (m w) as [[] w']; done. Qed.

Lemma uwp_mono m w (Q Q' : uout A -> W -> Prop) :
  uwp m w Q -> (forall o w', Q o w' -> Q' o w') -> uwp m w Q'.
Proof. unfold uwp. auto. Qed.

(** The first part returns. *)
Lemma uwp_seq m (k : A -> U W B) w Q R :
  uwp m w (returns R) -> (forall a w', R a w' -> uwp (k a) w' Q) -> uwp (ubind m k) w Q.
Proof.
  intros Hm Hk. apply uwp_bind. eapply uwp_mono; [exact Hm|]. intros [] w' Hr; cbn in Hr; try done. by apply Hk.
Qed.

Lemma ubind_ret_l (a : A) (k : A -> U W B) : ubind (uret a) k = k a.
Proof. done. Qed.
End uwp.

(** A loop that has ended ends in the same way with more fuel. *)
Lemma uloop_more {W S R} `{Sys W} f f' (body : S -> U W (S + R)) s w :
  (f <= f')%nat -> fst (uloop f body s w) <> Hung -> uloop f' body s w = uloop f body s w.
Proof.
  revert f' s w. induction f as [|f IH]; intros f' s w Hf Hh; [done|].
  destruct f' as [|f']; [lia|]. cbn [uloop] in *. unfold ubind in *.
  destruct (body s w) as [[[s'|x]| | |] w']; try done. apply IH; [lia|done].
Qed.

(** *** What the kernel promises to a program that reads and writes

    [source w fd] is what is still to be read from [fd]; [sink w fd] is what has been
    written to it.  A read returns what it can, at least a byte when there is one and
    one was asked for; a write writes everything. *)
Class SysLaws (W : Type) `{Sys W} := {
  readable : W -> Z -> Prop;
  writable : W -> Z -> Prop;
  source : W -> Z -> list Z;
  sink : W -> Z -> list Z;
  law_read fd n w : 0 <= n -> readable w fd -> exists k w',
    os_read fd n w = (Some (take k (source w fd)), w') /\
    (Z.of_nat k <= n) /\ (0 < n -> source w fd <> [] -> (0 < k)%nat) /\
    source w' fd = drop k (source w fd) /\ (forall fd', fd' <> fd -> source w' fd' = source w fd') /\
    sink w' = sink w /\ readable w' = readable w /\ writable w' = writable w;
  law_write fd l w : writable w fd -> exists w',
    os_write fd l w = (Z.of_nat (length l), w') /\
    sink w' fd = sink w fd ++ l /\ (forall fd', fd' <> fd -> sink w' fd' = sink w fd') /\
    source w' = source w /\ readable w' = readable w /\ writable w' = writable w
}.

(** [w'] is [w] after writing [l] to [fd] (and nothing to the other descriptors). *)
Definition appended `{SysLaws W} (fd : Z) (l : list Z) (w w' : W) : Prop :=
  sink w' fd = sink w fd ++ l /\ (forall fd', fd' <> fd -> sink w' fd' = sink w fd') /\
  source w' = source w /\ readable w' = readable w /\ writable w' = writable w.

Section laws.
Context {W : Type} `{SysLaws W}.

Lemma appended_nil fd w : appended fd [] w w.
Proof. unfold appended. rewrite app_nil_r. done. Qed.

Lemma appended_app fd l1 l2 w1 w2 w3 :
  appended fd l1 w1 w2 -> appended fd l2 w2 w3 -> appended fd (l1 ++ l2) w1 w3.
Proof.
  intros (E1 & O1 & S1 & R1 & X1) (E2 & O2 & S2 & R2 & X2). split_and!; try congruence.
  - by rewrite E2, E1, app_assoc.
  - intros fd' Hne. rewrite O2, O1; done.
Qed.

Lemma appended_writable fd l w w' : appended fd l w w' -> writable w fd -> writable w' fd.
Proof. intros (_ & _ & _ & _ & E). by rewrite E. Qed.

(** A program part that writes [l] to [fd] and returns. *)
Definition emits {A} (m : U W A) (fd : Z) (l : list Z) : Prop :=
  forall w, writable w fd -> uwp m w (returns (fun _ w' => appended fd l w w')).

Lemma emits_ret {A} (a : A) fd : emits (uret a) fd [].
Proof. intros w Hw. apply appended_nil. Qed.

Lemma emits_bind {A B} (m : U W A) (k : A -> U W B) fd l1 l2 :
  emits m fd l1 -> (forall a, emits (k a) fd l2) -> emits (ubind m k) fd (l1 ++ l2).
Proof.
  intros Hm Hk w Hw. eapply uwp_seq; [by apply Hm|]. intros a w' Ha.
  eapply uwp_mono; [apply Hk, (appended_writable _ _ _ _ Ha Hw)|].
  intros [] w'' Hr; cbn in *; try done. by eapply appended_app.
Qed.

Lemma emits_write fd l : emits (write fd l) fd l.
Proof. intros w Hw. destruct (law_write fd l w Hw) as (w' & E & Hl). unfold uwp, write, call. by rewrite E. Qed.

Lemma emits_putc fd c : 0 <= c < 256 -> emits (putc fd c) fd [c].
Proof.
  intros Hc. unfold putc. rewrite u8_small by done. rewrite <- (app_nil_r [c]).
  apply emits_bind; [apply emits_write|]. intros _. apply emits_ret.
Qed.

Lemma emits_puts fd l : chars l -> emits (puts fd l) fd l.
Proof.
  induction 1 as [|c l Hc Hl IH]; [apply emits_ret|].
  apply (emits_bind _ _ fd [c]); [by apply emits_putc|]. intros _. apply IH.
Qed.
End laws.

(** *** Printing *)

(** The text that [vprintf] writes; [None] when an argument is missing. *)
Fixpoint uformatted (fmt : list Z) (ap : list arg) (pct : bool) : option (list Z) :=
  match fmt with
  | [] => Some []
  | c :: fmt' =>
      let int_arg (f : Z -> list Z) :=
        if ap is AInt x :: ap' then app (f x) <$> uformatted fmt' ap' false else None in
      if negb pct then if c =? chr "%" then uformatted fmt' ap true else app [c] <$> uformatted fmt' ap false
      else if c =? chr "d" then int_arg (fun x => reverse (printint_buf DIGITS (s32 x) 10 true))
      else if c =? chr "l" then int_arg (fun x => reverse (printint_buf DIGITS (s32 x) 10 false))
      else if c =? chr "x" then int_arg (fun x => reverse (printint_buf DIGITS (s32 x) 16 false))
      else if c =? chr "p" then int_arg (fun x => str "0x" ++ ptr_loop 16 DIGITS (u64 x))
      else if c =? chr "s" then
        if ap is AStr s :: ap' then app (default (str "(null)") s) <$> uformatted fmt' ap' false else None
      else if c =? chr "c" then int_arg (fun x => [u8 x])
      else if c =? chr "%" then app [c] <$> uformatted fmt' ap false
      else app [chr "%"; c] <$> uformatted fmt' ap false
  end.

Lemma chars_DIGITS : chars DIGITS.
Proof. apply str_range. Qed.

Section printing.
Context {W : Type} `{SysLaws W}.

Lemma emits_step {A} (m : U W A) (k : U W unit) fd l1 o out :
  emits m fd l1 -> (forall out, o = Some out -> emits k fd out) ->
  app l1 <$> o = Some out -> emits (m ;; k) fd out.
Proof. intros Hm Hk (l2 & -> & ->)%fmap_Some. apply emits_bind; [done|]. intros _. by apply Hk. Qed.

Lemma emits_uprintint fd xx base sgn : emits (uprintint fd xx base sgn) fd (reverse (printint_buf DIGITS xx base sgn)).
Proof. apply emits_puts, chars_printint_buf, chars_DIGITS. Qed.

Lemma emits_uprintptr fd x : emits (uprintptr fd x) fd (str "0x" ++ ptr_loop 16 DIGITS x).
Proof.
  unfold uprintptr. do 2 (apply (emits_bind _ _ fd [_]); [apply emits_putc, chr_range|intros _]).
  apply emits_puts, chars_ptr_loop, chars_DIGITS.
Qed.

Lemma emits_char_arg fd x : emits (putc fd x) fd [u8 x].
Proof.
  assert (putc fd x = putc (W:=W) fd (u8 x)) as ->.
  { unfold putc. f_equal. do 2 f_equal. symmetry. apply u8_small, u8_range. }
  apply emits_putc, u8_range.
Qed.

Lemma vprintf_emits fd fmt ap pct out :
  chars fmt -> Forall arg_ok ap -> uformatted fmt ap pct = Some out -> emits (vprintf fd fmt ap pct) fd out.
Proof.
  intros Hf. revert ap pct out. induction Hf as [|c fmt Hc Hf IH]; intros ap pct out Ha; cbn [uformatted vprintf].
  { intros [= <-]. apply emits_ret. }
  destruct pct; cbn [negb].
  2: { destruct (c =? chr "%"); [by apply IH|]. apply emits_step; [by apply emits_putc|auto]. }
  repeat match goal with |- context [c =? ?x] => destruct (c =? x) eqn:? end.
  all: try (destruct ap as [|[x|s] ap]; try discriminate; apply Forall_cons in Ha as [Hs Ha]).
  all: try (apply emits_step; [apply emits_uprintint || apply emits_uprintptr || apply emits_char_arg || by apply emits_putc|by auto]).
  - apply emits_step; [|by auto]. apply emits_puts. destruct s; [exact Hs|apply str_range].
  - intros (o & Ho & ->)%fmap_Some.
    apply (emits_bind _ _ fd [_] (c :: o)); [apply emits_putc, chr_range|intros _].
    apply (emits_bind _ _ fd [_]); [by apply emits_putc|intros _]. by apply IH.
Qed.
End printing.

(** *** A kernel for examples

    Input arrives in given pieces; a read returns at most one of them.  Output is
    collected. *)
Record script := Script { sc_in : Z -> list (list Z); sc_out : Z -> list Z }.

Fixpoint next_piece (n : nat) (ps : list (list Z)) : list Z * list (list Z) :=
  match ps with
  | [] => ([], [])
  | [] :: ps' => next_piece n ps'
  | p :: ps' => (take n p, drop n p :: ps')
  end.

#[export] Instance script_sys : Sys script := {|
  os_fork w := (-1, w);
  os_wait w := (-1, w);
  os_pipe w := (None, w);
  os_write fd l w := (Z.of_nat (length l), Script (sc_in w) (fun x => if decide (x = fd) then sc_out w x ++ l else sc_out w x));
  os_read fd n w :=
    let r := next_piece (Z.to_nat n) (sc_in w fd) in
    (Some (fst r), Script (fun x => if decide (x = fd) then snd r else sc_in w x) (sc_out w));
  os_close _ w := (0, w);
  os_kill _ w := (0, w);
  os_exec _ _ w := (false, w);
  os_open _ _ w := (-1, w);
  os_mknod _ _ _ w := (-1, w);
  os_unlink _ w := (-1, w);
  os_fstat _ w := (None, w);
  os_link _ _ w := (-1, w);
  os_mkdir _ w := (-1, w);
  os_chdir _ w := (-1, w);
  os_dup _ w := (-1, w);
  os_sleep _ w := (0, w)
|}.

Lemma next_piece_spec n ps : exists k,
  fst (next_piece n ps) = take k (mjoin ps) /\ mjoin (snd (next_piece n ps)) = drop k (mjoin ps) /\ (k <= n)%nat /\
  ((0 < n)%nat -> mjoin ps <> [] -> (0 < k)%nat).
Proof.
  induction ps as [|p ps IH]; [exists 0%nat; split_and!; [done|done|lia|done]|].
  destruct p as [|c p]; [exact IH|]. exists (n `min` length (c :: p))%nat. cbn [next_piece fst snd mjoin list_join].
  rewrite take_app_le, drop_app_le by lia. split_and!; [|f_equal|lia|cbn; lia].
  - destruct (decide (n <= length (c :: p))%nat); [by rewrite Nat.min_l|].
    rewrite Nat.min_r, !take_ge by lia. done.
  - destruct (decide (n <= length (c :: p))%nat); [by rewrite Nat.min_l|].
    rewrite Nat.min_r, !drop_ge by lia. done.
Qed.

#[export] Instance script_laws : SysLaws script.
Proof.
  refine {| readable _ _ := True; writable _ _ := True; source w fd := mjoin (sc_in w fd); sink := sc_out |}.
  - intros fd n w Hn _. destruct (next_piece_spec (Z.to_nat n) (sc_in w fd)) as (k & E1 & E2 & Hk & Hp).
    eexists k, _. split; [cbn; by rewrite E1|]. split_and!; [lia|intros; apply Hp; [lia|done]| |intros fd' Hne; cbn; by rewrite decide_False|done..].
    cbn. by rewrite decide_True.
  - intros fd l w _. eexists. split; [reflexivity|]. split_and!; [cbn; by rewrite decide_True|intros fd' Hne; cbn; by rewrite decide_False|done..].
Defined.
