(* ===== verification/Grep.v ===== *)
(** * grep: user/grep.c

    The matcher of Kernighan and Pike, proved equal to the language of the pattern, and
    the loop that reads a file through a buffer of 1024 characters and writes the lines
    that match, until it meets a line that the buffer cannot hold or that has a zero. *)

From S2P Require Import Prelude Bytes Printf User.

(** ** The matcher *)

Definition is_nil {A} (l : list A) : bool := match l with [] => true | _ => false end.

(** [matchstar(c, re, text)], with [here] for [matchhere(re, .)]. *)
Fixpoint matchstar (here : list Z -> bool) (c : Z) (text : list Z) : bool :=
  here text ||
  match text with
  | [] => false
  | t :: text' => ((t =? c) || (c =? chr ".")) && matchstar here c text'
  end.

Fixpoint matchhere (re text : list Z) : bool :=
  match re with
  | [] => true
  | c :: re1 =>
      match re1 with
      | d :: re2 => if d =? chr "*" then matchstar (matchhere re2) c text else
          match text with
          | [] => false
          | t :: text' => ((c =? chr ".") || (c =? t)) && matchhere re1 text'
          end
      | [] => if c =? chr "$" then is_nil text else
          match text with
          | [] => false
          | t :: text' => ((c =? chr ".") || (c =? t)) && matchhere re1 text'
          end
      end
  end.

(** The loop of [match]: at every suffix, the empty one included. *)
Fixpoint match_anywhere (re text : list Z) : bool :=
  matchhere re text ||
  match text with
  | [] => false
  | _ :: text' => match_anywhere re text'
  end.

Definition match_ (re text : list Z) : bool :=
  match re with
  | c :: re' => if c =? chr "^" then matchhere re' text else match_anywhere re text
  | [] => match_anywhere re text
  end.

(** ** The language of a pattern *)

Inductive item := One (c : Z) | Star (c : Z) | End.

Fixpoint items (re : list Z) : list item :=
  match re with
  | [] => []
  | c :: re1 =>
      match re1 with
      | d :: re2 => if d =? chr "*" then Star c :: items re2 else One c :: items re1
      | [] => if c =? chr "$" then [End] else [One c]
      end
  end.

(** A pattern character accepts itself; a dot accepts every character. *)
Definition accepts (c x : Z) : Prop := c = chr "." \/ c = x.

(** [denotes its l rest]: the items describe the text [l] when [rest] follows it. *)
Inductive denotes : list item -> list Z -> list Z -> Prop :=
| d_nil rest : denotes [] [] rest
| d_one c x its l rest : accepts c x -> denotes its l rest -> denotes (One c :: its) (x :: l) rest
| d_star c xs its l rest : Forall (accepts c) xs -> denotes its l rest -> denotes (Star c :: its) (xs ++ l) rest
| d_end : denotes [End] [] [].

Definition found_at (its : list item) (text : list Z) : Prop := exists l rest, text = l ++ rest /\ denotes its l rest.

Lemma accepts_spec c x : (c =? chr ".") || (c =? x) = true <-> accepts c x.
Proof. rewrite orb_true_iff, !Z.eqb_eq. done. Qed.

Lemma found_nil text : found_at [] text.
Proof. exists [], text. split; [done|constructor]. Qed.

Lemma found_one c its t text : found_at (One c :: its) (t :: text) <-> accepts c t /\ found_at its text.
Proof.
  split.
  - intros (l & rest & E & Hd). inversion Hd; subst. cbn in E. injection E as -> ->. split; [done|]. by eexists _, _.
  - intros (Hc & l & rest & -> & Hd). exists (t :: l), rest. split; [done|]. by constructor.
Qed.

Lemma found_one_nil c its : ~ found_at (One c :: its) [].
Proof. intros (l & rest & E & Hd). inversion Hd; subst. done. Qed.

Lemma found_end text : found_at [End] text <-> text = [].
Proof.
  split; [|intros ->; exists [], []; split; [done|constructor]].
  intros (l & rest & -> & Hd). by inversion Hd.
Qed.

(** A star is nothing, or one more character that it accepts. *)
Lemma found_star c its text :
  found_at (Star c :: its) text <->
  found_at its text \/ exists t text', text = t :: text' /\ accepts c t /\ found_at (Star c :: its) text'.
Proof.
  split.
  - intros (l & rest & -> & Hd). inversion Hd as [| |c' xs its' l' rest' Hxs Hd'|]; subst.
    destruct Hxs as [|x xs Hx Hxs]; [left; by eexists _, _|]. right. eexists _, _. split; [done|]. split; [done|].
    exists (xs ++ l'), rest. split; [done|]. by constructor.
  - intros [(l & rest & -> & Hd)|(t & text' & -> & Ht & l & rest & -> & Hd)].
    + exists l, rest. split; [done|]. by apply (d_star c []).
    + inversion Hd as [| |c' xs its' l' rest' Hxs Hd'|]; subst. exists (t :: xs ++ l'), rest. split; [done|].
      apply (d_star c (t :: xs)); [by constructor|done].
Qed.

Lemma matchstar_spec here its c text :
  (forall t, here t = true <-> found_at its t) ->
  matchstar here c text = true <-> found_at (Star c :: its) text.
Proof.
  intros Hh. induction text as [|t text IH]; cbn [matchstar]; rewrite orb_true_iff, Hh, found_star.
  - split; [intros [?|?]; [by left|done]|]. intros [?|(t & text' & [=] & _)]. by left.
  - rewrite andb_true_iff, IH, orb_comm, (Z.eqb_sym t c), accepts_spec. split.
    + intros [?|[? ?]]; [by left|right]. by eexists _, _.
    + intros [?|(t' & text' & [= <- <-] & ? & ?)]; [by left|by right].
Qed.

Lemma matchhere_spec re text : matchhere re text = true <-> found_at (items re) text.
Proof.
  remember (length re) as n eqn:Hn. assert (Hle : (length re <= n)%nat) by lia. clear Hn.
  revert re text Hle. induction n as [|n IH]; intros [|c [|d re]] text Hle; cbn [length] in Hle; try lia.
  - cbn. pose proof (found_nil text). tauto.
  - cbn. pose proof (found_nil text). tauto.
  - cbn [matchhere items]. destruct (c =? chr "$").
    { rewrite found_end. by destruct text. }
    destruct text as [|t text]; [pose proof (found_one_nil c []); naive_solver|].
    rewrite found_one, andb_true_iff, accepts_spec. cbn. pose proof (found_nil text). tauto.
  - cbn [matchhere items]. destruct (d =? chr "*").
    { apply matchstar_spec. intros t. apply IH. lia. }
    destruct text as [|t text]; [pose proof (found_one_nil c (items (d :: re))); naive_solver|].
    rewrite found_one, andb_true_iff, accepts_spec. apply and_iff_compat_l. apply (IH (d :: re)). cbn. lia.
Qed.

Lemma match_anywhere_spec re text :
  match_anywhere re text = true <-> exists pre text', text = pre ++ text' /\ found_at (items re) text'.
Proof.
  induction text as [|t text IH]; cbn [match_anywhere]; rewrite orb_true_iff, matchhere_spec.
  - split.
    + intros [?|?]; [|done]. by exists [], [].
    + intros (pre & text' & E & Hf). left. symmetry in E. by apply app_eq_nil in E as [-> ->].
  - rewrite IH. split.
    + intros [?|(pre & text' & -> & ?)]; [by exists [], (t :: text)|by exists (t :: pre), text'].
    + intros ([|p pre] & text' & E & Hf); cbn in E; [subst; by left|]. injection E as -> ->. right. by eexists _, _.
Qed.

(** ** The file loop *)

Definition BUFSZ := 1024.

Section grep.
Context {W : Type} `{Sys W}.

(** One turn of the inner loop: [p] is the start of a line in [buf]. *)
Definition grep_line (pattern : list Z) (s : list Z * Z) : U W ((list Z * Z) + (list Z * Z)) :=
  let '(buf, p) := s in
  match strchr (drop (Z.to_nat p) buf) 10 with
  | None => uret (inr (buf, p))
  | Some off =>
      let q := p + off in
      let buf0 := setZ buf q 0 in
      if match_ pattern (cstr (drop (Z.to_nat p) buf0)) then
        let buf1 := setZ buf0 q 10 in
        write 1 (slice buf1 p (q + 1 - p)) ;;
        uret (inl (buf1, q + 1))
      else uret (inl (buf0, q + 1))
  end.

(** One turn of the outer loop: [m] characters of [buf] are in use.  A turn of the
    inner loop moves past a character, so it has at most [BUFSZ] of them. *)
Definition grep_turn (pattern : list Z) (fd : Z) (s : list Z * Z) : U W ((list Z * Z) + list Z) :=
  let '(buf, m) := s in
  n <- read fd (BUFSZ - m - 1) ;;
  match n with
  | None => uret (inr buf)
  | Some l =>
      if is_nil l then uret (inr buf)
      else
        let m := m + Z.of_nat (length l) in
        let buf := setZ (splice buf (m - Z.of_nat (length l)) l) m 0 in
        r <- uloop (Z.to_nat BUFSZ) (grep_line pattern) (buf, 0) ;;
        let '(buf, p) := r in
        if 0 <? m then
          let m := m - p in
          uret (inl (splice buf 0 (slice buf p m), m))
        else uret (inl (buf, m))
  end.

Definition grep (fuel : nat) (pattern : list Z) (fd : Z) (buf : list Z) : U W (list Z) :=
  uloop fuel (grep_turn pattern fd) (buf, 0).

(** [main], with the arguments after the program's name. *)
Definition grep_file (fuel : nat) (pattern arg : list Z) (buf : list Z) : U W (list Z) :=
  fd <- open arg 0 ;;
  if fd <? 0 then
    uprintf (str "grep: cannot open %s" ++ [10]) [AStr (Some arg)] ;;
    exit 1
  else
    buf <- grep fuel pattern fd buf ;;
    close fd ;;
    uret buf.
Fixpoint grep_files (fuel : nat) (pattern : list Z) (args : list (list Z)) (buf : list Z) : U W (list Z) :=
  match args with
  | [] => uret buf
  | a :: args' => buf <- grep_file fuel pattern a buf ;; grep_files fuel pattern args' buf
  end.
Definition grep_main (fuel : nat) (args : list (list Z)) : U W unit :=
  let buf := replicate (Z.to_nat BUFSZ) 0 in
  match args with
  | [] => fprintf 2 (str "usage: grep pattern [file ...]" ++ [10]) [] ;; exit 1
  | [pattern] => grep fuel pattern 0 buf ;; exit 0
  | pattern :: files => grep_files fuel pattern files buf ;; exit 0
  end.
End grep.

(** ** Lines *)

(** The complete lines of a text, without their newlines, and what follows the last. *)
Fixpoint lines (l : list Z) : list (list Z) * list Z :=
  match l with
  | [] => ([], [])
  | c :: l' =>
      let '(ls, t) := lines l' in
      if c =? 10 then ([] :: ls, t)
      else match ls with
           | [] => ([], c :: t)
           | x :: ls' => ((c :: x) :: ls', t)
           end
  end.

Lemma lines_line x l : 10 ∉ x -> lines (x ++ 10 :: l) = (x :: fst (lines l), snd (lines l)).
Proof.
  induction x as [|c x IH]; cbn [app lines]; intros Hx; [by destruct (lines l)|].
  apply not_elem_of_cons in Hx as [Hc Hx]. rewrite IH by done. cbn. by rewrite (proj2 (Z.eqb_neq c 10)) by congruence.
Qed.

Lemma lines_tail x : 10 ∉ x -> lines x = ([], x).
Proof.
  induction x as [|c x IH]; cbn [lines]; intros Hx; [done|]. apply not_elem_of_cons in Hx as [Hc Hx].
  rewrite IH by done. by rewrite (proj2 (Z.eqb_neq c 10)) by congruence.
Qed.

(** A text has no newline, or starts with a line. *)
Lemma first_line l : 10 ∉ l \/ exists x l', l = x ++ 10 :: l' /\ 10 ∉ x.
Proof.
  destruct (decide (10 ∈ l)) as [Hin|]; [right|by left].
  apply list_elem_of_split_l in Hin as (x & l' & -> & Hx). by eexists _, _.
Qed.

(** Induction on the lines of a text. *)
Lemma lines_ind (P : list Z -> Prop) :
  (forall t, 10 ∉ t -> P t) -> (forall x l, 10 ∉ x -> P l -> P (x ++ 10 :: l)) -> forall l, P l.
Proof.
  intros Ht Hl l. induction l as [l IH] using (induction_ltof1 _ (@length Z)).
  destruct (first_line l) as [|(x & l' & -> & Hx)]; [by apply Ht|]. apply Hl; [done|]. apply IH.
  unfold ltof. rewrite length_app. cbn. lia.
Qed.

(** A text that consists of lines. *)
Definition unlines (ls : list (list Z)) : list Z := mjoin ((fun x => x ++ [10]) <$> ls).

Lemma unlines_cons x ls l : unlines (x :: ls) ++ l = x ++ 10 :: unlines ls ++ l.
Proof. unfold unlines. cbn. by rewrite <- !app_assoc. Qed.

Lemma line_unique (x y l l' : list Z) : 10 ∉ x -> 10 ∉ y -> x ++ 10 :: l = y ++ 10 :: l' -> x = y /\ l = l'.
Proof.
  intros Hx Hy E. apply (f_equal lines) in E as E'. rewrite !lines_line in E' by done. injection E' as -> _ _. split; [done|].
  apply app_inv_head in E. by injection E.
Qed.

(** ** What grep writes *)

(** The lines among [ls] that match, each with its newline. *)
Definition selected (pattern : list Z) (ls : list (list Z)) : list Z :=
  mjoin ((fun x => if match_ pattern x then x ++ [10] else []) <$> ls).

Lemma selected_app pattern ls1 ls2 : selected pattern (ls1 ++ ls2) = selected pattern ls1 ++ selected pattern ls2.
Proof. unfold selected. by rewrite fmap_app, join_app. Qed.

(** A line that grep can handle: no zero in it, and room for it in the buffer. *)
Definition fits (x : list Z) : Prop := 0 ∉ x /\ Z.of_nat (length x) < BUFSZ - 1.
#[export] Instance fits_dec x : Decision (fits x).
Proof. unfold fits. apply _. Defined.

(** The lines up to the first that grep cannot handle. *)
Fixpoint take_fits (ls : list (list Z)) : list (list Z) :=
  match ls with
  | x :: ls' => if decide (fits x) then x :: take_fits ls' else []
  | [] => []
  end.
Definition usable (l : list Z) : list (list Z) := take_fits (fst (lines l)).

(** The text goes on with no complete line, or with one that grep cannot handle. *)
Definition blocked (l : list Z) : Prop := forall x l', l = x ++ 10 :: l' -> 10 ∉ x -> ~ fits x.

Lemma usable_split l : exists rest, l = unlines (usable l) ++ rest /\ Forall (fun x => 10 ∉ x /\ fits x) (usable l) /\ blocked rest.
Proof.
  unfold usable. induction l as [l Hl|x l Hx IH] using lines_ind.
  - exists l. rewrite lines_tail by done. split_and!; [done|constructor|]. intros y l' -> _. set_solver.
  - rewrite lines_line by done. cbn [fst take_fits]. destruct (decide (fits x)) as [Hf|Hf].
    + destruct IH as (rest & E & HF & Hb). exists rest. rewrite unlines_cons, <- E. split_and!; [done|by constructor|done].
    + exists (x ++ 10 :: l). split_and!; [done|constructor|]. intros y l' E Hy. by destruct (line_unique x y l l' Hx Hy E) as [-> _].
Qed.

(** The lines that have been found are the first of those to be found. *)
Lemma unlines_prefix ls1 : forall ls r1 rest, Forall (fun x => 10 ∉ x /\ fits x) ls1 -> Forall (fun x => 10 ∉ x /\ fits x) ls -> blocked rest ->
  unlines ls1 ++ r1 = unlines ls ++ rest -> exists ls2, ls = ls1 ++ ls2 /\ r1 = unlines ls2 ++ rest.
Proof.
  induction ls1 as [|x ls1 IH]; intros ls r1 rest H1 H2 Hb E; [by exists ls|]. apply Forall_cons in H1 as [[Hx Hf] H1]. rewrite unlines_cons in E.
  destruct ls as [|y ls]; [by destruct (Hb x (unlines ls1 ++ r1))|]. apply Forall_cons in H2 as [[Hy _] H2]. rewrite unlines_cons in E.
  destruct (line_unique _ _ _ _ Hx Hy E) as [<- E']. destruct (IH ls r1 rest H1 H2 Hb E') as (ls2 & -> & Er). by exists ls2.
Qed.

Lemma strchr_line x l : 0 ∉ x -> 10 ∉ x -> strchr (x ++ 10 :: l) 10 = Some (Z.of_nat (length x)).
Proof.
  induction x as [|c x IH]; cbn [app strchr length]; intros H0 Hx; [done|].
  apply not_elem_of_cons in H0 as [Hc0 H0], Hx as [Hc Hx].
  rewrite (proj2 (Z.eqb_neq c 0)), (proj2 (Z.eqb_neq c 10)), IH by congruence. cbn. f_equal. lia.
Qed.

Lemma strchr_none x : 10 ∉ x -> strchr x 10 = None.
Proof.
  induction x as [|c x IH]; cbn [app strchr]; intros Hx; [done|]. apply not_elem_of_cons in Hx as [Hc Hx].
  destruct (c =? 0); [done|]. by rewrite (proj2 (Z.eqb_neq c 10)), IH by congruence.
Qed.

(** [strchr] does not look past a zero. *)
Lemma strchr_zero x l : strchr (x ++ 0 :: l) 10 = strchr x 10.
Proof. induction x as [|c x IH]; cbn [app strchr]; [done|]. by rewrite IH. Qed.

Lemma strchr_nul x l : 0 ∈ x -> 10 ∉ x -> strchr (x ++ l) 10 = None.
Proof.
  induction x as [|c x IH]; cbn [app strchr]; intros H0 Hx; [by apply not_elem_of_nil in H0|]. apply not_elem_of_cons in Hx as [Hc Hx].
  destruct (Z.eqb_spec c 0); [done|]. rewrite (proj2 (Z.eqb_neq c 10)), IH by (congruence || set_solver). done.
Qed.

(** What the inner loop makes of the buffer: the lines before the first zero, and a rest
    in which [strchr] finds no newline. *)
Lemma buffer_lines l : exists ls rest, l = unlines ls ++ rest /\ Forall (fun x => 10 ∉ x /\ 0 ∉ x) ls /\ strchr rest 10 = None.
Proof.
  induction l as [l Hl|x l Hx IH] using lines_ind; [exists [], l; split_and!; [done|constructor|by apply strchr_none]|].
  destruct (decide (0 ∈ x)) as [H0|H0]; [exists [], (x ++ 10 :: l); split_and!; [done|constructor|by apply strchr_nul]|].
  destruct IH as (ls & rest & -> & HF & Hs). exists (x :: ls), rest. rewrite unlines_cons. split_and!; [done|by constructor|done].
Qed.

Lemma length_unlines x ls : x ∈ ls -> (length x < length (unlines ls))%nat.
Proof.
  unfold unlines. induction ls as [|y ls IH]; [by intros ?%not_elem_of_nil|]. cbn [fmap list_fmap mjoin list_join]. rewrite !length_app. cbn [length].
  intros [->|Hx]%elem_of_cons; [lia|].
  eapply Nat.lt_le_trans; [exact (IH Hx)|apply Nat.le_add_l].
Qed.

Lemma cstr_line x l : 0 ∉ x -> cstr (x ++ 0 :: l) = x.
Proof.
  induction x as [|c x IH]; cbn [app cstr]; intros H0; [done|]. apply not_elem_of_cons in H0 as [Hc H0].
  by rewrite (proj2 (Z.eqb_neq c 0)), IH by congruence.
Qed.

Lemma setZ_middle (a : list Z) x c v : setZ (a ++ x :: c) (Z.of_nat (length a)) v = a ++ v :: c.
Proof. unfold setZ. rewrite Nat2Z.id, insert_app_r_alt, Nat.sub_diag by lia. done. Qed.

Lemma splice_middle (a b c l : list Z) :
  length b = length l -> splice (a ++ b ++ c) (Z.of_nat (length a)) l = a ++ l ++ c.
Proof.
  revert a b. induction l as [|x l IH]; intros a [|y b] Hl; try done. cbn [splice app].
  rewrite setZ_middle. injection Hl as Hl.
  specialize (IH (a ++ [x]) b Hl). rewrite length_app, Nat2Z.inj_add, <- !app_assoc in IH. exact IH.
Qed.

Lemma drop_exact (a b : list Z) : drop (length a) (a ++ b) = b.
Proof. by rewrite drop_app_length. Qed.

Section grep_proof.
Context {W : Type} {HS : Sys W} {HL : SysLaws W} (pattern : list Z).

(** The inner loop writes those of the lines [ls] that match. *)
Lemma grep_lines_spec rest ls : forall pre junk w fuel,
  Forall (fun x => 10 ∉ x /\ 0 ∉ x) ls -> strchr rest 10 = None -> (length (unlines ls ++ rest) < fuel)%nat -> writable w 1 ->
  uwp (uloop fuel (grep_line pattern) (pre ++ (unlines ls ++ rest) ++ 0 :: junk, Z.of_nat (length pre))) w
    (returns (fun r w' => appended 1 (selected pattern ls) w w' /\
      exists pre', r = (pre' ++ rest ++ 0 :: junk, Z.of_nat (length pre')) /\
        (length pre' + length rest = length pre + length (unlines ls ++ rest))%nat)).
Proof.
  induction ls as [|x ls IH]; intros pre junk w fuel Hn Hs Hf Hw.
  all: destruct fuel as [|fuel]; [lia|]; cbn [uloop]; unfold grep_line at 1; rewrite Nat2Z.id, drop_exact.
  { cbn [unlines fmap list_fmap mjoin list_join app]. rewrite strchr_zero, Hs.
    rewrite ubind_ret_l. apply uwp_ret. split; [apply appended_nil|]. by exists pre. }
  apply Forall_cons in Hn as [[Hx H0] Hn]. rewrite unlines_cons in Hf |- *. set (l := unlines ls ++ rest) in *.
  rewrite <- app_assoc. cbn [app]. rewrite strchr_line by done.
  assert (Hset : forall v v', setZ (pre ++ x ++ v :: l ++ 0 :: junk) (Z.of_nat (length pre) + Z.of_nat (length x)) v' =
    pre ++ x ++ v' :: l ++ 0 :: junk).
  { intros v v'. rewrite <- Nat2Z.inj_add, <- length_app, !(app_assoc pre x). apply setZ_middle. }
  cbv zeta. rewrite !Hset, drop_exact, cstr_line by done.
  assert (Hnext : forall v (w' : W), writable w' 1 -> uwp (uloop fuel (grep_line pattern)
      (pre ++ x ++ v :: l ++ 0 :: junk, Z.of_nat (length pre) + Z.of_nat (length x) + 1)) w'
    (returns (fun r w'' => appended 1 (selected pattern ls) w' w'' /\
      exists pre', r = (pre' ++ rest ++ 0 :: junk, Z.of_nat (length pre')) /\
        (length pre' + length rest = length pre + length (x ++ 10%Z :: l))%nat))).
  { intros v w1 Hw'. specialize (IH (pre ++ x ++ [v]) junk w1 fuel Hn Hs). fold l in IH.
    rewrite <- !app_assoc, !length_app in IH. rewrite !length_app in Hf. cbn [app length] in IH, Hf.
    replace (Z.of_nat (length pre + (length x + 1))) with (Z.of_nat (length pre) + Z.of_nat (length x) + 1) in IH by lia.
    eapply uwp_mono; [apply IH; [lia|done]|]. intros [] w''; cbn; try done.
    intros (Ha & pre' & -> & El). split; [done|]. exists pre'. split; [done|]. rewrite length_app. cbn. lia. }
  destruct (match_ pattern x) eqn:Em; unfold selected; cbn [fmap list_fmap mjoin list_join]; rewrite Em.
  - unfold slice. rewrite Nat2Z.id, drop_exact.
    assert (take (Z.to_nat (Z.of_nat (length pre) + Z.of_nat (length x) + 1 - Z.of_nat (length pre))) (x ++ 10 :: l ++ 0 :: junk)
      = x ++ [10]) as ->.
    { replace (Z.to_nat _) with (length (x ++ [10])) by (rewrite length_app; cbn; lia).
      change (x ++ 10 :: l ++ 0 :: junk) with (x ++ [10] ++ l ++ 0 :: junk). rewrite app_assoc. apply take_app_length. }
    apply uwp_bind. eapply uwp_seq; [by apply emits_write|]. intros k w' Ha. cbn in Ha. apply uwp_ret.
    eapply uwp_mono; [apply Hnext, (appended_writable _ _ _ _ Ha Hw)|].
    intros [] w''; cbn; try done. intros (Hb & Hp). split; [by eapply appended_app|done].
  - rewrite ubind_ret_l. eapply uwp_mono; [by apply Hnext|]. done.
Qed.

(** A buffer in which there is no line, and which is full or the end of the text. *)
Lemma no_lines_left part src ls rest :
  strchr part 10 = None -> src = [] \/ Z.of_nat (length part) = BUFSZ - 1 ->
  Forall (fun x => 10 ∉ x /\ fits x) ls -> part ++ src = unlines ls ++ rest -> ls = [].
Proof.
  intros Hp Hr Hf E. destruct ls as [|x ls]; [done|exfalso]. apply Forall_cons in Hf as [[Hx [H0 Hlen]] _]. rewrite unlines_cons in E.
  assert (Hpre : exists l, part = x ++ 10 :: l).
  { destruct Hr as [->|Hr]; [rewrite app_nil_r in E; by eexists|]. exists (take (length part - length x - 1) (unlines ls ++ rest)).
    apply (f_equal (take (length part))) in E. rewrite take_app_length in E. etrans; [exact E|]. rewrite take_app_ge by lia. f_equal.
    destruct (length part - length x)%nat as [|n] eqn:En; [lia|]. cbn [take Nat.sub]. by rewrite Nat.sub_0_r. }
  destruct Hpre as [l ->]. by rewrite strchr_line in Hp.
Qed.

(** The lines in the buffer are the next ones of the text. *)
Lemma lines_found part k src ls rest :
  Z.of_nat (length (part ++ take k src)) <= BUFSZ - 1 -> part ++ src = unlines ls ++ rest ->
  Forall (fun x => 10 ∉ x /\ fits x) ls -> blocked rest ->
  exists ls1 t ls2, part ++ take k src = unlines ls1 ++ t /\ Forall (fun x => 10 ∉ x /\ 0 ∉ x) ls1 /\ strchr t 10 = None /\
    ls = ls1 ++ ls2 /\ Forall (fun x => 10 ∉ x /\ fits x) ls2 /\ t ++ drop k src = unlines ls2 ++ rest.
Proof.
  intros Hlen Etext Hfit Hblk. destruct (buffer_lines (part ++ take k src)) as (ls1 & t & Ec & Hls1 & Ht).
  assert (Hg1 : Forall (fun x => 10 ∉ x /\ fits x) ls1).
  { apply Forall_forall. intros x Hx. destruct (proj1 (Forall_forall _ _) Hls1 x Hx) as [? ?]. split; [done|]. split; [done|].
    apply length_unlines in Hx. rewrite Ec, length_app in Hlen. lia. }
  destruct (unlines_prefix ls1 ls (t ++ drop k src) rest Hg1 Hfit Hblk) as (ls2 & -> & Et).
  { by rewrite app_assoc, <- Ec, <- Etext, <- app_assoc, take_drop. }
  apply Forall_app in Hfit as [_ Hfit]. exists ls1, t, ls2. by split_and!.
Qed.

(** The buffer after a read of [l] behind [part]. *)
Lemma buffer_read part junk (l : list Z) :
  (length l < length junk)%nat -> exists junk',
    setZ (splice (part ++ junk) (Z.of_nat (length part)) l) (Z.of_nat (length part) + Z.of_nat (length l)) 0 =
      (part ++ l) ++ 0 :: junk' /\ length junk = (length l + S (length junk'))%nat.
Proof.
  intros Hl. rewrite <- (take_drop (length l) junk). destruct (drop (length l) junk) as [|v junk'] eqn:E.
  { apply (f_equal length) in E. rewrite length_drop in E. cbn in E. lia. }
  exists junk'. rewrite splice_middle by (rewrite length_take; lia).
  rewrite app_assoc, <- Nat2Z.inj_add, <- length_app, setZ_middle. split; [done|].
  rewrite length_app, length_take. cbn. lia.
Qed.

(** Moving the rest of the buffer, which starts at [pre], to the front. *)
Lemma buffer_shift pre (t junk : list Z) : exists junk',
  splice (pre ++ t ++ junk) 0 (slice (pre ++ t ++ junk) (Z.of_nat (length pre)) (Z.of_nat (length t))) = t ++ junk' /\
  (length (t ++ junk') = length (pre ++ t ++ junk))%nat.
Proof.
  unfold slice. rewrite !Nat2Z.id, drop_exact, take_app_length.
  set (buf := pre ++ t ++ junk). exists (drop (length t) buf).
  rewrite <- (take_drop (length t) buf) at 1.
  assert (Hl : (length t <= length buf)%nat) by (subst buf; rewrite !length_app; lia).
  split; [|rewrite length_app, length_drop; lia].
  apply (splice_middle []). rewrite length_take. lia.
Qed.

Lemma grep_loop_spec fd fuel : forall part junk w ls rest,
  (length (part ++ junk) = Z.to_nat BUFSZ)%nat -> (length part < Z.to_nat BUFSZ)%nat -> strchr part 10 = None ->
  readable w fd -> writable w 1 -> (length (source w fd) < fuel)%nat ->
  part ++ source w fd = unlines ls ++ rest -> Forall (fun x => 10 ∉ x /\ fits x) ls -> blocked rest ->
  uwp (uloop fuel (grep_turn pattern fd) (part ++ junk, Z.of_nat (length part))) w
    (returns (fun buf w' => length buf = Z.to_nat BUFSZ /\ sink w' 1 = sink w 1 ++ selected pattern ls /\
      forall fd', fd' <> 1 -> sink w' fd' = sink w fd')).
Proof.
  induction fuel as [|fuel IH]; intros part junk w ls rest Hlen Hpart Hn Hr Hw Hf Etext Hfit Hblk; [lia|].
  destruct (law_read fd (BUFSZ - Z.of_nat (length part) - 1) w) as (k & w1 & Er & Hk & Hpos & Es & _ & Esk & Erd & Ewr);
    [unfold BUFSZ in *; lia|done|].
  cbn [uloop]. unfold grep_turn at 1. apply uwp_bind, uwp_bind. unfold uwp at 1, read, call. rewrite Er. cbn [fst snd].
  set (l := take k (source w fd)) in *.
  assert (Hl : Z.of_nat (length l) <= BUFSZ - Z.of_nat (length part) - 1) by (subst l; rewrite length_take; lia).
  destruct (is_nil l) eqn:En.
  { assert (E0 : l = []) by (by destruct l). apply uwp_ret, uwp_ret. cbn. split; [done|].
    rewrite Esk, (no_lines_left part (source w fd) ls rest Hn); [|clear Etext|done|done].
    - split; [|done]. by rewrite app_nil_r.
    - destruct (source w fd) as [|x src]; [by left|right]. destruct k; [|done].
      unfold BUFSZ in *. destruct (decide (Z.of_nat (length part) = 1023)); [done|].
      exfalso. apply Nat.lt_irrefl with (x := 0%nat). apply Hpos; [lia|done]. }
  rewrite Z.add_simpl_r. rewrite length_app in Hlen.
  destruct (buffer_read part junk l) as (junk1 & Eb & Ej); [unfold BUFSZ in *; lia|]. rewrite Eb.
  destruct (lines_found part k (source w fd) ls rest) as (ls1 & t & ls2 & Ec & Hls1 & Ht & -> & Hfit2 & Et); [rewrite length_app; unfold BUFSZ in *; fold l; lia|done..|].
  fold l in Ec. rewrite Ec. apply uwp_bind. eapply uwp_mono.
  { apply (grep_lines_spec t ls1 [] junk1 w1); [done|done| |by rewrite Ewr]. rewrite <- Ec, !length_app. unfold BUFSZ in *. cbn [length]. lia. }
  intros [r| | |] w2; cbn [returns]; try done. intros (Ha & pre' & -> & El). rewrite <- Ec in El. cbn [length] in El.
  rewrite length_app in El. assert (l <> []) by (by destruct l).
  assert (0 < length l)%nat by (destruct l; [done|cbn; lia]).
  rewrite (proj2 (Z.ltb_lt _ _)) by lia. apply uwp_ret. cbn [returns].
  replace (Z.of_nat (length part) + Z.of_nat (length l) - Z.of_nat (length pre')) with (Z.of_nat (length t)) by lia.
  destruct (buffer_shift pre' t (0 :: junk1)) as (junk2 & -> & E2).
  destruct Ha as (Es1 & Eso & Esrc & Erd2 & Ewr2).
  assert (Esrc2 : source w2 fd = drop k (source w fd)) by (by rewrite Esrc).
  eapply uwp_mono; [apply (IH t junk2 w2 ls2 rest)|].
  - rewrite E2, !length_app. cbn [length]. lia.
  - unfold BUFSZ in *. lia.
  - exact Ht.
  - by rewrite Erd2, Erd.
  - by rewrite Ewr2, Ewr.
  - rewrite Esrc2, length_drop. subst l. rewrite length_take in *. lia.
  - by rewrite Esrc2.
  - done.
  - done.
  - intros [buf| | |] w3; cbn [returns]; try done. intros (Hb & E3 & E3o). split; [done|]. split.
    + rewrite E3, Es1, Esk, selected_app, app_assoc. done.
    + intros fd' Hne. rewrite E3o, Eso, Esk by done. done.
Qed.
End grep_proof.

(** ** Properties *)

(** C36: The matcher decides the language of its pattern: [match] answers 1 exactly when
    some part of the text is described by the pattern, at the start of the text when the
    pattern begins with a caret; a dollar sign that ends the pattern stands for the end
    of the text, [c*] for any number of characters that [c] accepts, a dot for any
    character and every other character for itself. *)
Theorem match_decides_language re text :
  match_ re text = true <->
  match re with
  | c :: re' =>
      if decide (c = chr "^") then exists l rest, text = l ++ rest /\ denotes (items re') l rest
      else exists pre l rest, text = pre ++ l ++ rest /\ denotes (items re) l rest
  | [] => True
  end.
Proof.
  assert (Hany : forall r, match_anywhere r text = true <-> exists pre l rest, text = pre ++ l ++ rest /\ denotes (items r) l rest).
  { intros r. rewrite match_anywhere_spec. split.
    - intros (pre & text' & -> & l & rest & -> & Hd). by exists pre, l, rest.
    - intros (pre & l & rest & -> & Hd). exists pre, (l ++ rest). split; [done|]. by exists l, rest. }
  unfold match_. destruct re as [|c re].
  - split; [done|]. intros _. apply match_anywhere_spec. exists [], text. split; [done|]. apply found_nil.
  - destruct (Z.eqb_spec c (chr "^")); [rewrite decide_True by done; apply matchhere_spec|].
    rewrite decide_False by done. apply Hany.
Qed.

(** C37: [grep] writes exactly the matching ones of the complete lines of its input that
    come before the first line it cannot handle, in their order, whatever the sizes of
    the pieces in which the kernel delivers the input.  A line cannot be handled if it
    contains a zero or does not fit in the buffer with its newline (more than 1022
    characters); it and all that follows is ignored, as is a last line without a newline.
    [grep] returns after at most one turn more than there are characters. *)
Theorem grep_writes_matching_lines {W} `{SysLaws W} pattern fd buf w fuel :
  readable w fd -> writable w 1 -> length buf = Z.to_nat BUFSZ -> (length (source w fd) < fuel)%nat ->
  exists buf' w', grep fuel pattern fd buf w = (Val buf', w') /\
    sink w' 1 = sink w 1 ++ selected pattern (usable (source w fd)) /\
    forall fd', fd' <> 1 -> sink w' fd' = sink w fd'.
Proof.
  intros Hr Hw Hb Hfuel. destruct (usable_split (source w fd)) as (rest & Es & Hf & Hblk).
  pose proof (grep_loop_spec pattern fd fuel [] buf w _ rest Hb ltac:(by_eval) eq_refl Hr Hw Hfuel Es Hf Hblk) as Hg.
  unfold uwp, returns in Hg. unfold grep.
  change (uloop fuel (grep_turn pattern fd) ([] ++ buf, Z.of_nat (length []))) with (uloop fuel (grep_turn pattern fd) (buf, 0)) in Hg.
  destruct (uloop fuel _ _ w) as [[buf'| | |] w']; cbn in Hg; try done.
  exists buf', w'. split; [done|]. apply Hg.
Qed.

(** ** Witnesses *)

(** "usage\nmain\nu\0e\nuse\nus" in three pieces: the third line contains a zero. *)
Definition ex_input : script :=
  Script (fun _ => [str "usa"; str "ge" ++ [10] ++ str "ma"; str "in" ++ [10] ++ str "u" ++ [0] ++ str "e" ++ [10] ++ str "use" ++ [10] ++ str "us"]) (fun _ => []).

Lemma grep_writes_matching_lines_witness : exists buf' w',
  grep 30 (str "^u.*e$") 3 (replicate (Z.to_nat BUFSZ) 0) ex_input = (Val buf', w') /\ sink w' 1 = str "usage" ++ [10].
Proof.
  destruct (grep_writes_matching_lines (str "^u.*e$") 3 (replicate (Z.to_nat BUFSZ) 0) ex_input 30)
    as (buf' & w' & E & Es & _); [exact I|exact I|by_eval|by_eval|].
  exists buf', w'. split; [exact E|]. rewrite Es. reflexivity.
Defined.
