(* ===== verification/Utils.v ===== *)
(** * The small user programs

    user/cat.c, wc.c, echo.c, ls.c, kill.c, ln.c, mkdir.c, rm.c, init.c, zombie.c,
    stressfs.c and forktest.c.  A [main] takes the arguments after the program's name;
    loops that end only when the kernel says so run on fuel. *)

From S2P Require Import Prelude Bytes Fs Sysfile Printf User.

Definition nl : list Z := [10].

Section utils.
Context {W : Type} `{Sys W}.

(** ** cat *)

Definition cat_turn (fd : Z) (_ : unit) : U W (unit + bool) :=
  n <- read fd 512 ;;
  match n with
  | None => uret (inr false)
  | Some l =>
      if Nat.eqb (length l) 0 then uret (inr true)
      else
        k <- write 1 l ;;
        if negb (k =? Z.of_nat (length l)) then
          fprintf 2 (str "cat: write error" ++ nl) [] ;;
          exit 1
        else uret (inl tt)
  end.
Definition cat (fuel : nat) (fd : Z) : U W unit :=
  ok <- uloop fuel (cat_turn fd) tt ;;
  if (ok : bool) then uret tt
  else
    fprintf 2 (str "cat: read error" ++ nl) [] ;;
    exit 1.
Definition cat_main (fuel : nat) (args : list (list Z)) : U W unit :=
  match args with
  | [] => cat fuel 0 ;; exit 0
  | _ =>
      ufor args (fun a =>
        fd <- open a 0 ;;
        if fd <? 0 then
          fprintf 2 (str "cat: cannot open %s" ++ nl) [AStr (Some a)] ;;
          exit 1
        else
          cat fuel fd ;;
          close fd ;;
          uret tt) ;;
      exit 0
  end.

(** ** wc *)

Record counts := Counts { wc_l : Z; wc_w : Z; wc_c : Z; wc_inword : bool }.

(** The body of the [for] loop; the counters are [int]s. *)
Definition wc_char (s : counts) (ch : Z) : counts :=
  let c := s32 (wc_c s + 1) in
  let l := if ch =? 10 then s32 (wc_l s + 1) else wc_l s in
  if bool_decide (is_Some (strchr [32; 13; 9; 10; 11] ch)) then Counts l (wc_w s) c false
  else if negb (wc_inword s) then Counts l (s32 (wc_w s + 1)) c true
  else Counts l (wc_w s) c true.

Definition wc_turn (fd : Z) (s : counts) : U W (counts + option counts) :=
  n <- read fd 512 ;;
  match n with
  | None => uret (inr None)
  | Some l => if Nat.eqb (length l) 0 then uret (inr (Some s)) else uret (inl (fold_left wc_char l s))
  end.
Definition wc (fuel : nat) (fd : Z) (name : list Z) : U W unit :=
  r <- uloop fuel (wc_turn fd) (Counts 0 0 0 false) ;;
  match r with
  | None => uprintf (str "wc: read error" ++ nl) [] ;; exit 1
  | Some s => uprintf (str "%d %d %d %s" ++ nl) [AInt (wc_l s); AInt (wc_w s); AInt (wc_c s); AStr (Some name)]
  end.
Definition wc_main (fuel : nat) (args : list (list Z)) : U W unit :=
  match args with
  | [] => wc fuel 0 [] ;; exit 0
  | _ =>
      ufor args (fun a =>
        fd <- open a 0 ;;
        if fd <? 0 then
          uprintf (str "wc: cannot open %s" ++ nl) [AStr (Some a)] ;;
          exit 1
        else
          wc fuel fd a ;;
          close fd ;;
          uret tt) ;;
      exit 0
  end.

(** ** echo *)

Fixpoint echo_loop (args : list (list Z)) : U W unit :=
  match args with
  | [] => uret tt
  | [a] => write 1 a ;; write 1 nl ;; uret tt
  | a :: args' => write 1 a ;; write 1 (str " ") ;; echo_loop args'
  end.
Definition echo_main (args : list (list Z)) : U W unit := echo_loop args ;; exit 0.

(** ** ls *)

(** The characters after the last slash. *)
Fixpoint basename (path : list Z) : list Z :=
  match path with
  | [] => []
  | c :: path' => if bool_decide (chr "/" ∈ path) then basename path' else path
  end.

(** Return blank-padded name. *)
Definition fmtname (path : list Z) : list Z :=
  let p := basename path in
  if DIRSIZ <=? strlen p then p else p ++ replicate (Z.to_nat (DIRSIZ - strlen p)) (chr " ").

(** One directory entry: [de] is the sixteen bytes read. *)
Definition ls_entry (path de : list Z) : U W unit :=
  if get16 de 0 =? 0 then uret tt
  else
    let buf := path ++ [chr "/"] ++ cstr (slice de 2 DIRSIZ) in
    st <- ustat buf ;;
    match st with
    | None => uprintf (str "ls: cannot stat %s" ++ nl) [AStr (Some buf)]
    | Some st => uprintf (str "%s %d %d %d" ++ nl) [AStr (Some (fmtname buf)); AInt (st_type st); AInt (st_ino st); AInt (st_size st)]
    end.
Definition ls_turn (path : list Z) (fd : Z) (_ : unit) : U W (unit + unit) :=
  r <- read fd sizeof_dirent ;;
  match r with
  | Some de => if Z.of_nat (length de) =? sizeof_dirent then ls_entry path de ;; uret (inl tt) else uret (inr tt)
  | None => uret (inr tt)
  end.
Definition ls (fuel : nat) (path : list Z) : U W unit :=
  fd <- open path 0 ;;
  if fd <? 0 then fprintf 2 (str "ls: cannot open %s" ++ nl) [AStr (Some path)]
  else
    st <- fstat fd ;;
    match st with
    | None =>
        fprintf 2 (str "ls: cannot stat %s" ++ nl) [AStr (Some path)] ;;
        close fd ;;
        uret tt
    | Some st =>
        (if (st_type st =? T_DEVICE) || (st_type st =? T_FILE) then
           uprintf (str "%s %d %d %l" ++ nl) [AStr (Some (fmtname path)); AInt (st_type st); AInt (st_ino st); AInt (st_size st)]
         else if st_type st =? T_DIR then
           if 512 <? strlen path + 1 + DIRSIZ + 1 then uprintf (str "ls: path too long" ++ nl) []
           else uloop fuel (ls_turn path fd) tt
         else uret tt) ;;
        close fd ;;
        uret tt
    end.
Definition ls_main (fuel : nat) (args : list (list Z)) : U W unit :=
  match args with
  | [] => ls fuel (str ".") ;; exit 0
  | _ => ufor args (ls fuel) ;; exit 0
  end.

(** ** kill, ln, mkdir, rm *)

Definition kill_main (args : list (list Z)) : U W unit :=
  match args with
  | [] => fprintf 2 (str "usage: kill pid..." ++ nl) [] ;; exit 1
  | _ => ufor args (fun a => kill (atoi a) ;; uret tt) ;; exit 0
  end.

Definition ln_main (args : list (list Z)) : U W unit :=
  match args with
  | [old; new] =>
      r <- link old new ;;
      (if r <? 0 then fprintf 2 (str "link %s %s: failed" ++ nl) [AStr (Some old); AStr (Some new)] else uret tt) ;;
      exit 0
  | _ => fprintf 2 (str "Usage: ln old new" ++ nl) [] ;; exit 1
  end.

(** The loop that [mkdir] and [rm] share: it stops at the first failure. *)
Fixpoint until_fails (f : list Z -> U W Z) (msg : list Z) (args : list (list Z)) : U W unit :=
  match args with
  | [] => uret tt
  | a :: args' =>
      r <- f a ;;
      if r <? 0 then fprintf 2 msg [AStr (Some a)] else until_fails f msg args'
  end.
Definition mkdir_main (args : list (list Z)) : U W unit :=
  match args with
  | [] => fprintf 2 (str "Usage: mkdir files..." ++ nl) [] ;; exit 1
  | _ => until_fails mkdir (str "mkdir: %s failed to create" ++ nl) args ;; exit 0
  end.
Definition rm_main (args : list (list Z)) : U W unit :=
  match args with
  | [] => fprintf 2 (str "Usage: rm files..." ++ nl) [] ;; exit 1
  | _ => until_fails unlink (str "rm: %s failed to delete" ++ nl) args ;; exit 0
  end.

(** ** init *)

Definition CONSOLE := 1.

(** One [wait] of the inner loop: the shell has exited ([inr]) or an orphan has. *)
Definition init_wait (pid : Z) (_ : unit) : U W (unit + unit) :=
  wpid <- wait ;;
  if wpid =? pid then uret (inr tt)
  else if wpid <? 0 then
    uprintf (str "init: wait returned an error" ++ nl) [] ;;
    exit 1
  else uret (inl tt).

(** Start a shell and wait for it. *)
Definition init_turn (fuel : nat) (_ : unit) : U W (unit + Empty_set) :=
  uprintf (str "init: starting sh" ++ nl) [] ;;
  pid <- fork ;;
  if pid <? 0 then
    uprintf (str "init: fork failed" ++ nl) [] ;;
    exit 1
  else if pid =? 0 then
    exec (str "sh") [str "sh"] ;;
    uprintf (str "init: exec sh failed" ++ nl) [] ;;
    exit 1
  else
    uloop fuel (init_wait pid) tt ;;
    uret (inl tt).

Definition init_main (fuel : nat) : U W Empty_set :=
  fd <- open (str "console") O_RDWR ;;
  (if fd <? 0 then
     mknod (str "console") CONSOLE 0 ;;
     open (str "console") O_RDWR ;;
     uret tt
   else uret tt) ;;
  dup 0 ;; (* stdout *)
  dup 0 ;; (* stderr *)
  uloop fuel (init_turn fuel) tt.

(** ** zombie, stressfs, forktest *)

Definition zombie_main : U W unit :=
  pid <- fork ;;
  (if 0 <? pid then sleep 5 ;; uret tt else uret tt) ;;
  exit 0.

(** The forks of [stressfs]: the value of [i] at the end of the loop. *)
Fixpoint stressfs_forks (n : nat) (i : Z) : U W Z :=
  match n with
  | O => uret i
  | S n' =>
      pid <- fork ;;
      if 0 <? pid then uret i else stressfs_forks n' (i + 1)
  end.
Definition stressfs_main : U W unit :=
  uprintf (str "stressfs starting" ++ nl) [] ;;
  i <- stressfs_forks 4 0 ;;
  uprintf (str "write %d" ++ nl) [AInt i] ;;
  let path := str "stressfs" ++ [chr "0" + i] in
  let data := replicate 512 (chr "a") in
  fd <- open path (Z.lor O_CREATE O_RDWR) ;;
  ufor (upto 20) (fun _ => write fd data ;; uret tt) ;;
  close fd ;;
  uprintf (str "read" ++ nl) [] ;;
  fd <- open path O_RDONLY ;;
  ufor (upto 20) (fun _ => read fd 512 ;; uret tt) ;;
  close fd ;;
  wait ;;
  exit 0.

Definition print (s : list Z) : U W unit := write 1 s ;; uret tt.

(** The loop that forks: how many children there are. *)
Fixpoint forktest_forks (room : nat) (n : Z) : U W Z :=
  match room with
  | O => uret n
  | S r =>
      pid <- fork ;;
      if pid <? 0 then uret n
      else if pid =? 0 then exit 0
      else forktest_forks r (n + 1)
  end.
Definition forktest : U W unit :=
  print (str "fork test" ++ nl) ;;
  n <- forktest_forks 1000 0 ;;
  if n =? 1000 then
    print (str "fork claimed to work N times!" ++ nl) ;;
    exit 1
  else
    ufor (upto n) (fun _ =>
      r <- wait ;;
      if r <? 0 then
        print (str "wait stopped early" ++ nl) ;;
        exit 1
      else uret tt) ;;
    r <- wait ;;
    if negb (r =? -1) then
      print (str "wait got too many" ++ nl) ;;
      exit 1
    else print (str "fork test OK" ++ nl).
Definition forktest_main : U W unit := forktest ;; exit 0.
End utils.
