(* ===== verification/Umalloc.v ===== *)
(** * The user-level allocator: user/umalloc.c

    The free blocks form a circular list in the order of their addresses, threaded
    through their headers; [base] is its first block, of size 0.  The heap is the map of
    the headers; sizes are in units of a header.  [sbrk] is a parameter: whether the
    kernel grows the heap by [n] bytes from the break [brk]. *)

From S2P Require Import Prelude.

Record header := Header { s_ptr : Z; s_size : Z }.

Definition sizeof_Header := 16.

Record heap := Heap { h_cell : gmap Z header; freep : Z; h_brk : Z }.

Definition cell (h : heap) (p : Z) : header := default (Header 0 0) (h_cell h !! p).
Definition ptr (h : heap) (p : Z) : Z := s_ptr (cell h p).
Definition usize (h : heap) (p : Z) : Z := s_size (cell h p).
Definition set_ptr (p x : Z) (h : heap) : heap := Heap (<[p := Header x (usize h p)]> (h_cell h)) (freep h) (h_brk h).
Definition set_usize (p n : Z) (h : heap) : heap := Heap (<[p := Header (ptr h p) (u32 n)]> (h_cell h)) (freep h) (h_brk h).
Definition set_freep (p : Z) (h : heap) : heap := Heap (h_cell h) p (h_brk h).
Definition set_brk (b : Z) (h : heap) : heap := Heap (h_cell h) (freep h) b.

(** [p + n] on [Header *] pointers. *)
Definition plus (p n : Z) : Z := p + sizeof_Header * n.

(** The search for the place of [bp]; [None]: out of fuel. *)
Fixpoint free_search (fuel : nat) (h : heap) (bp p : Z) : option Z :=
  if (p <? bp) && (bp <? ptr h p) then Some p
  else if (ptr h p <=? p) && ((p <? bp) || (bp <? ptr h p)) then Some p
  else match fuel with O => None | S f => free_search f h bp (ptr h p) end.

(** [bp] takes over the block that follows it, or points to it. *)
Definition join_next (bp p : Z) (h : heap) : heap :=
  if plus bp (usize h bp) =? ptr h p then
    let nxt := ptr h p in
    let h := set_usize bp (usize h bp + usize h nxt) h in
    set_ptr bp (ptr h nxt) h
  else set_ptr bp (ptr h p) h.

(** [p] takes over [bp] when it ends there, or points to it. *)
Definition join_prev (bp p : Z) (h : heap) : heap :=
  if plus p (usize h p) =? bp then
    let h := set_usize p (usize h p + usize h bp) h in
    set_ptr p (ptr h bp) h
  else set_ptr p bp h.

Definition free (ap : Z) (h : heap) : option heap :=
  let bp := plus ap (-1) in
  p ← free_search (size (h_cell h)) h bp (freep h);
  Some (set_freep p (join_prev bp p (join_next bp p h))).

Section malloc.
(** The kernel grants [sbrk(n)] at break [brk]. *)
Context (grants : Z -> Z -> bool) (base : Z).

(** The result is [freep], or 0. *)
Definition morecore (nu : Z) (h : heap) : option (Z * heap) :=
  let nu := if nu <? 4096 then 4096 else nu in
  let n := s32 (nu * sizeof_Header) in
  if grants (h_brk h) n then
    let hp := h_brk h in
    let h := set_usize hp nu (set_brk (h_brk h + n) h) in
    h ← free (plus hp 1) h;
    Some (freep h, h)
  else Some (0, h).

(** [nunits] units from the block [p], which follows [prevp]: all of it, or its end. *)
Definition take (nunits prevp p : Z) (h : heap) : Z * heap :=
  let '(p, h) :=
    if usize h p =? nunits then (p, set_ptr prevp (ptr h p) h)
    else
      let h := set_usize p (usize h p - nunits) h in
      let p := plus p (usize h p) in
      (p, set_usize p nunits h) in
  (plus p 1, set_freep prevp h).

(** [for(p = prevp->s.ptr; ; prevp = p, p = p->s.ptr)] *)
Fixpoint malloc_loop (fuel : nat) (nunits prevp p : Z) (h : heap) : option (Z * heap) :=
  match fuel with
  | O => None
  | S f =>
      if nunits <=? usize h p then Some (take nunits prevp p h)
      else if p =? freep h then
        r ← morecore nunits h;
        let '(p, h) := r in
        if p =? 0 then Some (0, h) else malloc_loop f nunits p (ptr h p) h
      else malloc_loop f nunits p (ptr h p) h
  end.

Definition nunits_of (nbytes : Z) : Z := u32 ((nbytes + sizeof_Header - 1) / sizeof_Header + 1).

Definition malloc (nbytes : Z) (h : heap) : option (Z * heap) :=
  let nunits := nunits_of nbytes in
  let h := if freep h =? 0 then set_usize base 0 (set_ptr base base (set_freep base h)) else h in
  malloc_loop (2 * size (h_cell h) + 4) nunits (freep h) (ptr h (freep h)) h.
End malloc.

(** ** The free list *)

Lemma ptr_set_ptr p x h q : ptr (set_ptr p x h) q = if decide (p = q) then x else ptr h q.
Proof. unfold ptr, cell, set_ptr. cbn. case_decide as E; [subst; by rewrite lookup_insert_eq|by rewrite lookup_insert_ne]. Qed.

Lemma usize_set_ptr p x h q : usize (set_ptr p x h) q = usize h q.
Proof. unfold usize, cell, set_ptr. cbn. destruct (decide (p = q)) as [->|E]; [by rewrite lookup_insert_eq|by rewrite lookup_insert_ne]. Qed.

Lemma ptr_set_usize p n h q : ptr (set_usize p n h) q = ptr h q.
Proof. unfold ptr, cell, set_usize. cbn. destruct (decide (p = q)) as [->|E]; [by rewrite lookup_insert_eq|by rewrite lookup_insert_ne]. Qed.

Lemma usize_set_usize p n h q : usize (set_usize p n h) q = if decide (p = q) then u32 n else usize h q.
Proof. unfold usize, cell, set_usize. cbn. case_decide as E; [subst; by rewrite lookup_insert_eq|by rewrite lookup_insert_ne]. Qed.

Lemma ptr_set_freep p h q : ptr (set_freep p h) q = ptr h q.
Proof. done. Qed.

Lemma usize_set_freep p h q : usize (set_freep p h) q = usize h q.
Proof. done. Qed.

Create HintDb heap.
#[local] Hint Rewrite ptr_set_ptr usize_set_ptr ptr_set_usize usize_set_usize ptr_set_freep usize_set_freep : heap.

(** [h'] has the headers of [h], except at the addresses of [X]. *)
Definition same_off (X : list Z) (h h' : heap) : Prop :=
  forall x, x ∉ X -> ptr h' x = ptr h x /\ usize h' x = usize h x.

(** The headers of [h] are headers of [h']. *)
Definition grown (h h' : heap) : Prop := forall x, is_Some (h_cell h !! x) -> is_Some (h_cell h' !! x).

Lemma grown_set_ptr p x h : grown h (set_ptr p x h).
Proof. intros y Hy. cbn. destruct (decide (p = y)) as [->|E]; [rewrite lookup_insert_eq; eauto|by rewrite lookup_insert_ne]. Qed.

Lemma grown_set_usize p n h : grown h (set_usize p n h).
Proof. intros y Hy. cbn. destruct (decide (p = y)) as [->|E]; [rewrite lookup_insert_eq; eauto|by rewrite lookup_insert_ne]. Qed.

Lemma grown_trans h h' h'' : grown h h' -> grown h' h'' -> grown h h''.
Proof. unfold grown. eauto. Qed.

Lemma same_off_app X Y h h' h'' : same_off X h h' -> same_off Y h' h'' -> same_off (X ++ Y) h h''.
Proof. intros H1 H2 x [Hx Hy]%not_elem_of_app. destruct (H1 x Hx) as [<- <-]. by apply H2. Qed.

(** Case analysis on the comparisons of a condition. *)
Ltac zcases :=
  repeat match goal with
  | |- context [?x <? ?y] => destruct (Z.ltb_spec x y); cbn [andb orb]; try lia
  | |- context [?x <=? ?y] => destruct (Z.leb_spec x y); cbn [andb orb]; try lia
  | |- context [?x =? ?y] => destruct (Z.eqb_spec x y); cbn [andb orb]; try lia
  end.

Section inv.
Context (base : Z).

(** [A] are consecutive blocks of the list, followed by [q]. *)
Fixpoint linked (h : heap) (A : list Z) (q : Z) : Prop :=
  match A with
  | [] => True
  | p :: A' => ptr h p = hd q A' /\ linked h A' q
  end.

(** Each block of [A] ends before the next one begins, the last before [top]. *)
Fixpoint spaced (h : heap) (A : list Z) (top : Z) : Prop :=
  match A with
  | [] => True
  | p :: A' => p < hd top A' /\ plus p (usize h p) <= hd top A' /\ spaced h A' top
  end.

Record hinv (h : heap) (A : list Z) : Prop := {
  hi_head : head A = Some base;
  hi_linked : linked h A base;
  hi_spaced : spaced h A (h_brk h);
  hi_base : 0 < base /\ usize h base = 0;
  hi_sizes p : p ∈ A -> p <> base -> 1 <= usize h p;
  hi_freep : freep h ∈ A;
  hi_brk : h_brk h < 2 ^ 36;
  hi_dom p : p ∈ A -> is_Some (h_cell h !! p)
}.

Definition disj (p s q t : Z) : Prop := plus p s <= q \/ plus q t <= p.

(** The block of [t] units at [l] is in none of the free blocks. *)
Definition fdisj (h : heap) (A : list Z) (l t : Z) : Prop :=
  forall q, q ∈ A -> q <> base -> disj q (usize h q) l t.

Lemma linked_app h P p N q : linked h (P ++ p :: N) q <-> linked h P p /\ linked h (p :: N) q.
Proof. induction P as [|x P IH]; cbn [app linked]; [tauto|]. rewrite IH. destruct P; cbn; tauto. Qed.

Lemma spaced_app h P p N top : spaced h (P ++ p :: N) top <-> spaced h P p /\ spaced h (p :: N) top.
Proof. induction P as [|x P IH]; cbn [app spaced]; [tauto|]. rewrite IH. destruct P; cbn; tauto. Qed.

Lemma linked_ext h h' A q : (forall p, p ∈ A -> ptr h' p = ptr h p) -> linked h A q -> linked h' A q.
Proof.
  induction A as [|p A IH]; intros E; cbn; [done|]. intros [H1 H2]. split; [by rewrite E by left|]. apply IH; [|done].
  intros x Hx. apply E. by right.
Qed.

Lemma spaced_ext h h' A top : (forall p, p ∈ A -> usize h' p = usize h p) -> spaced h A top -> spaced h' A top.
Proof.
  induction A as [|p A IH]; intros E; cbn; [done|]. intros (H1 & H2 & H3). split_and!; [done|by rewrite E by left|]. apply IH; [|done].
  intros x Hx. apply E. by right.
Qed.

(** Addresses ascend. *)
Lemma spaced_lt h p N top : spaced h (p :: N) top -> p < top /\ forall x, x ∈ N -> p < x < top.
Proof.
  revert p. induction N as [|q N IH]; intros p; cbn [spaced hd]; [intros (? & _); split; [done|]; by intros x ?%not_elem_of_nil|].
  intros (Hlt & _ & H2). destruct (IH q H2) as [Hq HN]. split; [lia|]. intros x [->|Hx]%elem_of_cons; [lia|]. specialize (HN x Hx). lia.
Qed.

Lemma spaced_before h P p N top x : spaced h (P ++ p :: N) top -> x ∈ P -> x < p /\ plus x (usize h x) <= p.
Proof.
  intros [HP _]%spaced_app Hx. revert HP. induction P as [|y P IH]; [by apply not_elem_of_nil in Hx|]. intros HP.
  pose proof (spaced_lt h y P p HP) as [Hy HyP]. cbn in HP. destruct HP as (_ & Hgap & HP). apply elem_of_cons in Hx as [->|Hx]; [|by apply IH].
  split; [done|]. destruct P as [|z P]; [done|]. cbn in Hgap. specialize (HyP z ltac:(by left)). lia.
Qed.

Lemma spaced_after h P p N top x : spaced h (P ++ p :: N) top -> x ∈ N -> p < x /\ plus p (usize h p) <= x.
Proof.
  intros [_ HN]%spaced_app Hx. pose proof (spaced_lt h p N top HN) as [_ Hlt]. split; [apply Hlt, Hx|]. cbn in HN. destruct HN as (_ & Hgap & HN).
  destruct N as [|z N]; [by apply not_elem_of_nil in Hx|]. cbn in Hgap. apply elem_of_cons in Hx as [->|Hx]; [done|].
  pose proof (spaced_lt h z N top HN) as [_ Hz]. specialize (Hz x Hx). lia.
Qed.

Lemma spaced_NoDup h A top : spaced h A top -> NoDup A.
Proof.
  induction A as [|p A IH]; [constructor|]. intros HA. pose proof (spaced_lt h p A top HA) as [_ Hlt]. apply NoDup_cons. split.
  - intros Hin. specialize (Hlt p Hin). lia.
  - apply IH. by destruct HA as (_ & _ & ?).
Qed.

Lemma hinv_base_least h A p : hinv h A -> p ∈ A -> p = base \/ base < p.
Proof.
  intros I Hp. pose proof (hi_head _ _ I) as Hh. destruct A as [|b A]; [done|]. cbn in Hh. injection Hh as ->.
  apply elem_of_cons in Hp as [->|Hp]; [by left|]. right. by apply (spaced_lt h base A _ (hi_spaced _ _ I)).
Qed.

Lemma hinv_size h A : hinv h A -> (length A <= size (h_cell h))%nat.
Proof.
  intros I. pose proof (spaced_NoDup _ _ _ (hi_spaced _ _ I)) as Hnd. rewrite <- (size_list_to_set (C := gset Z) A Hnd), <- size_dom.
  apply subseteq_size. intros p Hp%elem_of_list_to_set. apply elem_of_dom. by apply (hi_dom _ _ I).
Qed.

(** The place of a block that is not in the list. *)
Lemma locate h A top bp : spaced h A top -> head A = Some base -> base < bp -> bp ∉ A ->
  exists P p N, A = P ++ p :: N /\ p < bp /\ (forall x, x ∈ N -> bp < x).
Proof.
  intros Hs Hh Hb Hni. destruct A as [|b A]; [done|]. cbn in Hh. injection Hh as ->. apply not_elem_of_cons in Hni as [_ Hni].
  generalize dependent base. clear base. induction A as [|q A IH]; intros b Hs Hb.
  - exists [], b, []. split_and!; [done..|]. by intros x ?%not_elem_of_nil.
  - apply not_elem_of_cons in Hni as [Hne Hni]. destruct (Z.lt_ge_cases bp q) as [Hlt|Hge].
    + exists [], b, (q :: A). split_and!; [done..|]. intros x [->|Hx]%elem_of_cons; [done|].
      destruct Hs as (_ & _ & Hs). apply (spaced_lt h q A top Hs) in Hx. lia.
    + destruct (IH Hni q) as (P & p & N & -> & ? & ?); [by destruct Hs as (_ & _ & ?)|lia|]. by exists (b :: P), p, N.
Qed.

Section search.
Context (h : heap) (P N : list Z) (p bp top : Z).
Context (Hl : linked h (P ++ p :: N) base) (Hs : spaced h (P ++ p :: N) top) (Hhd : head (P ++ p :: N) = Some base).
Context (Hp : p < bp) (HN : forall x, x ∈ N -> bp < x) (Hb : base < bp).

Lemma search_here f : free_search f h bp p = Some p.
Proof.
  apply linked_app in Hl as [_ [Hptr _]]. assert (Hpb : base <= p).
  { destruct P as [|b P']; cbn in Hhd; injection Hhd as ->; [lia|]. pose proof (spaced_before h (base :: P') p N top base Hs ltac:(by left)). lia. }
  destruct f; cbn [free_search]; rewrite Hptr; destruct N as [|x N']; cbn [hd]; try specialize (HN x ltac:(by left)); by zcases.
Qed.

(** Blocks up to the place are passed. *)
Lemma search_before Q : forall q P1 f, P ++ [p] = P1 ++ q :: Q -> (length Q <= f)%nat -> free_search f h bp q = Some p.
Proof.
  induction Q as [|q' Q IH]; intros q P1 f E Hf.
  - apply app_inj_tail in E as [_ <-]. apply search_here.
  - destruct f as [|f]; cbn [length] in Hf; [lia|]. cbn [free_search].
    assert (Hq : ptr h q = q' /\ q < q' < bp).
    { assert (EA : P ++ p :: N = P1 ++ q :: (q' :: Q) ++ N) by (by rewrite cons_middle, app_assoc, E, <- app_assoc).
      rewrite EA in Hl, Hs. pose proof Hl as [_ [Hq _]]%linked_app. cbn [app hd] in Hq. split; [done|].
      pose proof Hs as [_ Hs']%spaced_app. pose proof (spaced_lt _ _ _ _ Hs') as [_ Hlt]. specialize (Hlt q' ltac:(by left)). split; [lia|].
      destruct (decide (q' = p)) as [->|Hne]; [done|]. assert (Hin : q' ∈ P ++ [p]) by (rewrite E; set_solver).
      assert (Hin' : q' ∈ P) by set_solver. rewrite <- EA in Hs. pose proof (spaced_before h P p N top q' Hs Hin'). lia. }
    destruct Hq as [-> Hq]. assert (IH' := IH q' (P1 ++ [q]) f ltac:(by rewrite <- app_assoc) ltac:(lia)). by zcases.
Qed.

Lemma search_after N2 : forall q N1 f, N = N1 ++ q :: N2 -> (length N2 + S (length P) <= f)%nat -> free_search f h bp q = Some p.
Proof.
  induction N2 as [|q' N2 IH]; intros q N1 f E Hf; (destruct f as [|f]; cbn [length] in Hf; [lia|]); cbn [free_search].
  all: assert (Hq : bp < q) by (apply HN; rewrite E; set_solver); pose proof Hl as Hl'; pose proof Hs as Hs'; rewrite E, cons_middle, app_assoc, app_assoc in Hl', Hs'.
  - apply linked_app in Hl' as [_ [-> _]]. cbn [hd].
    assert (HB : exists Q, P ++ [p] = [] ++ base :: Q /\ length Q = length P).
    { destruct P as [|b P']; cbn in Hhd; injection Hhd as ->; [by exists []|]. exists (P' ++ [p]). by rewrite length_app, Nat.add_comm. }
    destruct HB as (Q & EQ & LQ). assert (IH' := search_before Q base [] f EQ ltac:(lia)). by zcases.
  - apply linked_app in Hl' as [_ [-> _]]. cbn [hd].
    assert (q < q') by (apply spaced_app in Hs' as [_ Hs']; apply (spaced_lt _ _ _ _ Hs'); by left).
    assert (IH' := IH q' (N1 ++ [q]) f ltac:(by rewrite <- app_assoc) ltac:(lia)). by zcases.
Qed.

Lemma search_finds q f : q ∈ P ++ p :: N -> (length (P ++ p :: N) <= f)%nat -> free_search f h bp q = Some p.
Proof.
  rewrite length_app, cons_middle, app_assoc. cbn [length]. intros [Hq|Hq]%elem_of_app Hf; apply list_elem_of_split in Hq as (Q1 & Q2 & E).
  - apply (search_before Q2 q Q1); [done|]. apply (f_equal length) in E. rewrite !length_app in E. cbn in E. lia.
  - apply (search_after Q2 q Q1); [done|]. rewrite E, length_app in Hf. cbn in Hf. lia.
Qed.
End search.

(** ** Freeing a block *)

Section free.
Context (h : heap) (A P N : list Z) (p bp : Z).
Context (I : hinv h A) (EA : A = P ++ p :: N) (Hp : p < bp) (HN : forall x, x ∈ N -> bp < x) (Hb : base < bp).
Context (Hz : 1 <= usize h bp) (Hd : fdisj h A bp (usize h bp)) (Htop : plus bp (usize h bp) <= h_brk h).

(** After [join_next], [N1] follows [bp]. *)
Record joined (h1 : heap) (N1 : list Z) : Prop := {
  jn_linked : linked h1 (bp :: N1) base;
  jn_spaced : spaced h1 (bp :: N1) (h_brk h);
  jn_sub x : x ∈ N1 -> x ∈ N;
  jn_len : (length N1 <= length N)%nat;
  jn_size : usize h bp <= usize h1 bp;
  jn_same : same_off [bp] h h1;
  jn_disj l t : 1 <= t -> fdisj h A l t -> disj bp (usize h bp) l t -> disj bp (usize h1 bp) l t;
  jn_brk : h_brk h1 = h_brk h;
  jn_grown : grown h h1;
  jn_in : is_Some (h_cell h1 !! bp)
}.

Lemma free_next_after x : x ∈ N -> plus bp (usize h bp) <= x.
Proof.
  intros Hx. specialize (HN x Hx). assert (HA : x ∈ A) by (rewrite EA; set_solver). destruct (Hd x HA ltac:(lia)) as [H|H]; [|done].
  pose proof (hi_sizes _ _ I x HA ltac:(lia)). unfold plus, sizeof_Header in *. lia.
Qed.

Lemma joined_taken nxt N' : N = nxt :: N' -> plus bp (usize h bp) = nxt ->
  joined (set_ptr bp (ptr h nxt) (set_usize bp (usize h bp + usize h nxt) h)) N'.
Proof.
  intros EN Heq. pose proof (hi_brk _ _ I) as Hbrk. pose proof (hi_base _ _ I) as [Hbase _]. assert (Hlt : bp < nxt) by (apply HN; rewrite EN; by left).
  assert (Hin : nxt ∈ A) by (rewrite EA, EN; set_solver). pose proof (hi_sizes _ _ I nxt Hin ltac:(lia)) as Hns.
  pose proof (hi_linked _ _ I) as Hl. pose proof (hi_spaced _ _ I) as Hs. rewrite EA, EN in Hl, Hs.
  apply linked_app in Hl as [_ (_ & Hnp & HlN)]. apply spaced_app in Hs as [_ (_ & _ & Hn1 & Hn2 & HsN)].
  assert (Hnb : bp ∉ N') by (intros Hx; specialize (HN bp); rewrite EN in HN; specialize (HN ltac:(by right)); lia).
  assert (Hhd : hd (h_brk h) N' <= h_brk h).
  { destruct N' as [|y N'']; [done|]. pose proof (spaced_lt _ _ _ _ HsN) as [? _]. cbn. lia. }
  assert (Hsum : u32 (usize h bp + usize h nxt) = usize h bp + usize h nxt).
  { unfold u32. rewrite Z.mod_small; [done|]. unfold plus, sizeof_Header in *. lia. }
  assert (Hoff : same_off [bp] h (set_ptr bp (ptr h nxt) (set_usize bp (usize h bp + usize h nxt) h))).
  { intros x Hx%not_elem_of_cons. autorewrite with heap. destruct Hx as [Hx _]. by rewrite !decide_False. }
  split; autorewrite with heap; rewrite ?decide_True by done; rewrite ?Hsum; try done; try lia.
  - cbn [linked]. autorewrite with heap. rewrite decide_True by done. split; [done|]. eapply linked_ext; [|done]. intros x Hx. apply Hoff. set_solver.
  - cbn [spaced]. autorewrite with heap. rewrite decide_True, Hsum by done. split; [lia|]. split; [unfold plus in *; lia|].
    eapply spaced_ext; [|done]. intros x Hx. apply Hoff. set_solver.
  - rewrite EN. set_solver.
  - rewrite EN. cbn. lia.
  - intros l t Ht HA Hdj. specialize (HA nxt Hin ltac:(lia)). unfold disj, plus, sizeof_Header in *. lia.
  - eapply grown_trans; [apply grown_set_usize|apply grown_set_ptr].
  - cbn. rewrite lookup_insert_eq. eauto.
Qed.

Lemma joined_linked : joined (set_ptr bp (hd base N) h) N.
Proof.
  pose proof (hi_linked _ _ I) as Hl. pose proof (hi_spaced _ _ I) as Hs. rewrite EA in Hl, Hs.
  apply linked_app in Hl as [_ [_ HlN]]. apply spaced_app in Hs as [_ (_ & _ & HsN)].
  assert (Hoff : same_off [bp] h (set_ptr bp (hd base N) h)).
  { intros x Hx%not_elem_of_cons. autorewrite with heap. destruct Hx as [Hx _]. by rewrite !decide_False. }
  assert (Hnb : bp ∉ N) by (intros Hx; specialize (HN bp Hx); lia).
  split; autorewrite with heap; try done; try lia.
  - cbn [linked]. autorewrite with heap. rewrite decide_True by done. split; [done|]. eapply linked_ext; [|done]. intros x Hx. apply Hoff. set_solver.
  - assert (Hend : plus bp (usize h bp) <= hd (h_brk h) N).
    { pose proof free_next_after as Hna. destruct N as [|x N']; [done|]. apply Hna. by left. }
    cbn [spaced]. autorewrite with heap. split; [unfold plus, sizeof_Header in *; lia|]. split; [done|].
    eapply spaced_ext; [|done]. intros x Hx. apply Hoff. set_solver.
  - apply grown_set_ptr.
  - cbn. rewrite lookup_insert_eq. eauto.
Qed.

Lemma join_next_joined : exists N1, joined (join_next bp p h) N1.
Proof.
  pose proof (hi_linked _ _ I) as Hl. rewrite EA in Hl. apply linked_app in Hl as [_ [Hptr _]]. pose proof (hi_base _ _ I) as Hbase.
  unfold join_next. rewrite Hptr. destruct (Z.eqb_spec (plus bp (usize h bp)) (hd base N)) as [Heq|Hne]; [|exists N; apply joined_linked].
  pose proof joined_taken as JT. destruct N as [|nxt N']; cbn [hd] in Heq |- *; [unfold plus, sizeof_Header in *; lia|].
  exists N'. rewrite ptr_set_usize. by apply JT.
Qed.

Definition wide_enough (h' : heap) (A' : list Z) (n : Z) : Prop := exists b, b ∈ A' /\ n <= usize h' b.

(** What freeing [bp] does to the list. *)
Record freed (h' : heap) (A' : list Z) : Prop := {
  fr_inv : hinv h' A';
  fr_disj l t : 1 <= t -> fdisj h A l t -> disj bp (usize h bp) l t -> fdisj h' A' l t;
  fr_wide : wide_enough h' A' (usize h bp);
  fr_same : same_off (bp :: A) h h';
  fr_brk : h_brk h' = h_brk h;
  fr_grown : grown h h';
  fr_len : (length A' <= S (length A))%nat
}.

Lemma free_prev_before : plus p (usize h p) <= bp /\ base <= p.
Proof.
  assert (Hin : p ∈ A) by (rewrite EA; set_solver). destruct (hinv_base_least _ _ p I Hin) as [->|Hlt].
  - destruct (hi_base _ _ I) as [_ ->]. unfold plus. lia.
  - destruct (Hd p Hin ltac:(lia)) as [H|H]; [by split; [|lia]|]. unfold plus, sizeof_Header in *. lia.
Qed.

Lemma head_middle (x : Z) (X Y Z1 : list Z) : head (X ++ x :: Y) = head (X ++ x :: Z1).
Proof. by destruct X. Qed.

(** The list after [free]: [T] follows [p]. *)
Lemma freed_intro h1 N1 h2 T : joined h1 N1 -> same_off [p] h1 h2 -> h_brk h2 = h_brk h1 -> grown h1 h2 ->
  linked h2 (p :: T) base -> spaced h2 (p :: T) (h_brk h) -> (T = N1 \/ T = bp :: N1) ->
  (p = base -> usize h2 p = 0) -> (p <> base -> 1 <= usize h2 p) -> wide_enough h2 (p :: T) (usize h bp) ->
  (forall l t, 1 <= t -> fdisj h A l t -> disj bp (usize h1 bp) l t -> p <> base -> disj p (usize h2 p) l t) ->
  freed (set_freep p h2) (P ++ p :: T).
Proof.
  intros J So Hbrk Hg Hl2 Hs2 HT Hp0 Hp1 [b [Hb1 Hb2]] Hdj. pose proof (hi_linked _ _ I) as Hl. pose proof (hi_spaced _ _ I) as Hs. rewrite EA in Hl, Hs.
  assert (HT' : forall x, x ∈ T -> x = bp \/ x ∈ N1) by (intros x; destruct HT as [->| ->]; set_solver).
  assert (HTn : forall x, x ∈ T -> p < x) by (apply (spaced_lt _ _ _ _ Hs2)).
  assert (HP : forall x, x ∈ P -> x < p) by (intros x Hx; apply (spaced_before _ _ _ _ _ _ Hs Hx)).
  assert (S1 : forall x, x <> p -> ptr h2 x = ptr h1 x /\ usize h2 x = usize h1 x) by (intros x Hx; apply So; set_solver).
  assert (S2 : forall x, x <> p -> x <> bp -> ptr h2 x = ptr h x /\ usize h2 x = usize h x).
  { intros x Hx Hx'. destruct (S1 x Hx) as [-> ->]. apply (jn_same _ _ J). set_solver. }
  assert (HA : forall x, x ∈ A <-> x ∈ P \/ x = p \/ x ∈ N) by (intros x; rewrite EA; set_solver).
  assert (Hold : forall x, x ∈ P ++ p :: T -> x = p \/ x = bp \/ x <> p /\ x <> bp /\ x ∈ A).
  { intros x [Hx|[->|Hx]%elem_of_cons]%elem_of_app; [|by left|].
    - right. right. pose proof (HP x Hx). rewrite HA. split_and!; [lia|lia|by left].
    - destruct (HT' x Hx) as [->|Hx1]; [by right; left|]. right. right. apply (jn_sub _ _ J) in Hx1. rewrite HA. split_and!; [specialize (HTn x Hx); lia| |auto].
      specialize (HN x Hx1). lia. }
  assert (Hbs : usize h2 bp = usize h1 bp) by (apply S1; lia). pose proof (jn_size _ _ J) as Hjs.
  split.
  - split; cbn [set_freep h_brk freep h_cell].
    + rewrite (head_middle _ _ _ N), <- EA. apply (hi_head _ _ I).
    + apply linked_app. apply linked_app in Hl as [Hl _]. split; [|by eapply linked_ext; [|exact Hl2]].
      eapply linked_ext; [|done]. intros x Hx. apply S2; specialize (HP x Hx); lia.
    + apply spaced_app. apply spaced_app in Hs as [Hs _]. rewrite Hbrk, (jn_brk _ _ J). split; [|by eapply spaced_ext; [|exact Hs2]]. eapply spaced_ext; [|done].
      intros x Hx. apply S2; specialize (HP x Hx); lia.
    + destruct (hi_base _ _ I) as [? Hb0]. split; [done|]. rewrite usize_set_freep. destruct (decide (p = base)) as [Ep|Ep]; [rewrite <- Ep; auto|].
      rewrite (proj2 (S2 base ltac:(done) ltac:(lia))). done.
    + intros x Hx Hxb. rewrite usize_set_freep. destruct (Hold x Hx) as [->|[->|(Hx1 & Hx2 & HxA)]]; [auto|lia|]. rewrite (proj2 (S2 x Hx1 Hx2)).
      by apply (hi_sizes _ _ I).
    + set_solver.
    + rewrite Hbrk, (jn_brk _ _ J). apply (hi_brk _ _ I).
    + intros x Hx. apply Hg. destruct (decide (x = bp)) as [->|Hne]; [apply (jn_in _ _ J)|]. apply (jn_grown _ _ J), (hi_dom _ _ I).
      destruct (Hold x Hx) as [->|[->|(_ & _ & ?)]]; [|done..]. rewrite HA. auto.
  - intros l t Ht HlA Hlb x Hx Hxb. rewrite usize_set_freep. apply (jn_disj _ _ J) in Hlb; [|done..].
    destruct (Hold x Hx) as [->|[->|(Hx1 & Hx2 & HxA)]]; [by apply Hdj|by rewrite Hbs|]. rewrite (proj2 (S2 x Hx1 Hx2)). by apply HlA.
  - exists b. split; [set_solver|done].
  - intros x Hx. apply S2; rewrite not_elem_of_cons, HA in Hx; tauto.
  - cbn. rewrite Hbrk. apply (jn_brk _ _ J).
  - eapply grown_trans; [apply (jn_grown _ _ J)|done].
  - rewrite EA, !length_app. pose proof (jn_len _ _ J). destruct HT as [->| ->]; cbn; lia.
Qed.

Lemma join_prev_freed N1 h1 : joined h1 N1 -> exists A', freed (set_freep p (join_prev bp p h1)) A'.
Proof.
  intros J. pose proof free_prev_before as [Hpb Hbp]. pose proof (hi_base _ _ I) as [Hb0 Hbs]. pose proof (hi_brk _ _ I) as Hbrk.
  destruct (jn_same _ _ J p ltac:(set_solver by lia)) as [Hp1 Hp2]. pose proof (jn_linked _ _ J) as [Hl1 Hl2]. pose proof (jn_spaced _ _ J) as (Hs1 & Hs2 & Hs3).
  pose proof (jn_size _ _ J) as Hsz. assert (Hin : p ∈ A) by (rewrite EA; set_solver).
  unfold join_prev. rewrite Hp2. destruct (Z.eqb_spec (plus p (usize h p)) bp) as [Heq|Hne].
  - assert (Hpn : p <> base) by (intros ->; rewrite Hbs in Heq; unfold plus in Heq; lia). pose proof (hi_sizes _ _ I p Hin Hpn) as Hps.
    assert (Hhd : hd (h_brk h) N1 <= h_brk h).
    { destruct N1 as [|y N']; [done|]. pose proof (spaced_lt _ _ _ _ Hs3) as [? _]. cbn. lia. }
    assert (Hsum : u32 (usize h p + usize h1 bp) = usize h p + usize h1 bp).
    { unfold u32. rewrite Z.mod_small; [done|]. unfold plus, sizeof_Header in *. lia. }
    set (h2 := set_ptr p _ _). assert (So : same_off [p] h1 h2).
    { intros x Hx%not_elem_of_cons. unfold h2. autorewrite with heap. destruct Hx as [Hx _]. by rewrite !decide_False. }
    assert (Hu : usize h2 p = usize h p + usize h1 bp) by (unfold h2; autorewrite with heap; by rewrite decide_True).
    assert (Hpt : ptr h2 p = ptr h1 bp) by (unfold h2; autorewrite with heap; by rewrite decide_True).
    assert (Hlt : forall x, x ∈ N1 -> x ∉ [p]).
    { intros x Hx. pose proof (HN x (jn_sub _ _ J x Hx)). intros ->%list_elem_of_singleton. lia. }
    exists (P ++ p :: N1). apply (freed_intro h1 N1); try done.
    + eapply grown_trans; [apply grown_set_usize|apply grown_set_ptr].
    + split; [by rewrite Hpt|]. eapply linked_ext; [|done]. intros x Hx. by apply So, Hlt.
    + cbn [spaced]. rewrite Hu. split; [lia|]. split; [unfold plus in *; lia|]. eapply spaced_ext; [|done]. intros x Hx. by apply So, Hlt.
    + by left.
    + lia.
    + exists p. split; [by left|lia].
    + intros l t Ht HA Hdb _. specialize (HA p Hin Hpn). rewrite Hu. unfold disj, plus, sizeof_Header in *. lia.
  - set (h2 := set_ptr p bp h1). assert (So : same_off [p] h1 h2).
    { intros x Hx%not_elem_of_cons. unfold h2. autorewrite with heap. destruct Hx as [Hx _]. by rewrite !decide_False. }
    assert (Hu : forall x, usize h2 x = usize h1 x) by (intros x; unfold h2; by autorewrite with heap).
    assert (Hpt : ptr h2 p = bp) by (unfold h2; autorewrite with heap; by rewrite decide_True).
    exists (P ++ p :: bp :: N1). apply (freed_intro h1 N1); rewrite ?Hu, ?Hp2; try done.
    + apply grown_set_ptr.
    + split; [done|]. eapply linked_ext; [|exact (conj Hl1 Hl2)]. intros x Hx. apply So. intros ->%list_elem_of_singleton.
      apply elem_of_cons in Hx as [->|Hx]; [lia|]. pose proof (HN p (jn_sub _ _ J p Hx)). lia.
    + cbn [spaced hd]. rewrite !Hu, Hp2. split_and!; [done..|]. by eapply spaced_ext; [|done].
    + by right.
    + by intros ->.
    + intros Hpn. by apply (hi_sizes _ _ I).
    + exists bp. rewrite Hu. split; [set_solver|done].
    + intros l t Ht HA Hdb Hpn. by apply HA.
Qed.
End free.

(** [free] returns; the block joins the free list. *)
Lemma free_freed h A ap : let bp := plus ap (-1) in
  hinv h A -> base < bp -> 1 <= usize h bp -> fdisj h A bp (usize h bp) -> plus bp (usize h bp) <= h_brk h ->
  exists h' A', free ap h = Some h' /\ freed h A bp h' A'.
Proof.
  intros bp I Hb Hz Hd Htop. assert (Hni : bp ∉ A).
  { intros Hin. pose proof (Hd bp Hin ltac:(lia)). unfold disj, plus, sizeof_Header in *. lia. }
  destruct (locate h A _ bp (hi_spaced _ _ I) (hi_head _ _ I) Hb Hni) as (P & p & N & EA & Hp & HN).
  destruct (join_next_joined h A P N p bp I EA Hp HN Hb Hz Hd Htop) as [N1 J].
  destruct (join_prev_freed h A P N p bp I EA Hp HN Hb Hz Hd Htop N1 _ J) as [A' F].
  eexists _, A'. split; [|exact F]. unfold free. fold bp.
  pose proof (hi_freep _ _ I) as Hf. pose proof (hinv_size _ _ I) as Hlen. pose proof (hi_linked _ _ I) as Hl. pose proof (hi_spaced _ _ I) as Hs.
  pose proof (hi_head _ _ I) as Hh. rewrite EA in *. by rewrite (search_finds h P N p bp (h_brk h) Hl Hs Hh Hp HN Hb).
Qed.

(** ** Allocating a block *)

(** [b], a block of [n] units, has left the free list. *)
Record taken (h : heap) (A : list Z) (n : Z) (h' : heap) (b : Z) (A' : list Z) : Prop := {
  tk_inv : hinv h' A';
  tk_size : usize h' b = n;
  tk_in : base < b /\ plus b n <= h_brk h';
  tk_free : fdisj h' A' b n;
  tk_disj l t : 1 <= t -> fdisj h A l t -> disj b n l t /\ fdisj h' A' l t;
  tk_same : same_off (b :: A) h h';
  tk_grown : grown h h';
  tk_some : is_Some (h_cell h' !! b)
}.

Lemma hinv_block h A p : hinv h A -> p ∈ A -> p < h_brk h /\ plus p (usize h p) <= h_brk h.
Proof.
  intros I Hp. pose proof (hi_spaced _ _ I) as Hs. apply list_elem_of_split in Hp as (P & N & ->). apply spaced_app in Hs as [_ Hs].
  pose proof (spaced_lt _ _ _ _ Hs) as [Hlt _]. split; [done|]. destruct Hs as (_ & He & Hs). destruct N as [|x N]; [done|].
  pose proof (spaced_lt _ _ _ _ Hs) as [? _]. cbn in He. lia.
Qed.

Lemma hinv_disj h A p q : hinv h A -> p ∈ A -> q ∈ A -> p <> q -> disj p (usize h p) q (usize h q).
Proof.
  intros I Hp Hq Hne. pose proof (hi_spaced _ _ I) as Hs. apply list_elem_of_split in Hp as (P & N & ->).
  apply elem_of_app in Hq as [Hq|[->|Hq]%elem_of_cons]; [right|done|left].
  - apply (spaced_before _ _ _ _ _ _ Hs Hq).
  - apply (spaced_after _ _ _ _ _ _ Hs Hq).
Qed.

(** The block before [p] in the list. *)
Lemma prev_split h A prevp p : hinv h A -> prevp ∈ A -> ptr h prevp = p -> p <> base -> exists P N, A = P ++ prevp :: p :: N.
Proof.
  intros I (P & N & E)%list_elem_of_split Hptr Hne. pose proof (hi_linked _ _ I) as Hl. rewrite E in Hl. apply linked_app in Hl as [_ [Hh _]].
  rewrite Hptr in Hh. destruct N as [|x N]; [done|]. cbn in Hh. subst. eauto.
Qed.

Section take.
Context (h : heap) (A P N : list Z) (prevp p n : Z).
Context (I : hinv h A) (EA : A = P ++ prevp :: p :: N) (Hn : 1 <= n <= usize h p).

Lemma take_not_base : base < p.
Proof.
  assert (Hin : p ∈ A) by (rewrite EA; set_solver). destruct (hinv_base_least _ _ p I Hin) as [->|]; [|done].
  destruct (hi_base _ _ I) as [_ E]. lia.
Qed.

Lemma take_all : usize h p = n -> exists A', taken h A n (set_freep prevp (set_ptr prevp (ptr h p) h)) p A'.
Proof.
  intros En. pose proof take_not_base as Hpb. pose proof (hi_linked _ _ I) as Hl. pose proof (hi_spaced _ _ I) as Hs. rewrite EA in Hl, Hs.
  assert (HA : forall x, x ∈ P ++ prevp :: N -> x ∈ A) by (intros x; rewrite EA; set_solver).
  assert (Hnd : NoDup A) by (rewrite EA; exact (spaced_NoDup _ _ _ Hs)).
  assert (Hpn : p ∉ P ++ prevp :: N).
  { rewrite EA in Hnd. apply NoDup_app in Hnd as (_ & Hd & [Hx [Hy _]%NoDup_cons]%NoDup_cons). intros [Hin|[->|Hin]%elem_of_cons]%elem_of_app; [|set_solver..].
    apply (Hd p Hin). set_solver. }
  set (h' := set_freep _ _). assert (Hu : forall x, usize h' x = usize h x) by (intros x; unfold h'; by autorewrite with heap).
  assert (So : same_off [prevp] h h').
  { intros x Hx%not_elem_of_cons. unfold h'. autorewrite with heap. by rewrite decide_False by (destruct Hx; congruence). }
  assert (HP : prevp ∉ P /\ prevp ∉ N) by (rewrite EA in Hnd; apply NoDup_app in Hnd as (_ & Hd & [Hx _]%NoDup_cons); set_solver).
  assert (Hin : p ∈ A) by (rewrite EA; set_solver).
  assert (Hdj : forall q, q ∈ P ++ prevp :: N -> disj q (usize h q) p n).
  { intros q Hq. rewrite <- En. apply (hinv_disj h A); [done|auto|done|]. by intros ->. }
  exists (P ++ prevp :: N). split; [split| | | | | | |]; rewrite ?Hu; try done.
  - rewrite (head_middle _ _ _ (p :: N)), <- EA. apply (hi_head _ _ I).
  - apply linked_app in Hl as [Hl1 (_ & Hl2 & Hl3)]. apply linked_app. split; [eapply linked_ext; [|done]; intros x Hx; apply So; set_solver|].
    split; [unfold h'; autorewrite with heap; by rewrite decide_True|]. eapply linked_ext; [|done]; intros x Hx; apply So; set_solver.
  - apply spaced_app in Hs as [Hs1 (Hs2 & Hs3 & Hs4 & Hs5 & Hs6)]. cbn [hd] in *. apply spaced_app. split; [by eapply spaced_ext; [|done]|].
    cbn [spaced]. rewrite Hu. change (h_brk h') with (h_brk h). split_and!; [lia|lia|]. by eapply spaced_ext; [|done].
  - apply (hi_base _ _ I).
  - intros x Hx. rewrite Hu. apply (hi_sizes _ _ I); auto.
  - cbn. set_solver.
  - apply (hi_brk _ _ I).
  - intros x Hx. apply grown_set_ptr, (hi_dom _ _ I). auto.
  - split; [done|]. rewrite <- En. apply (hinv_block _ _ _ I Hin).
  - intros q Hq Hqb. rewrite Hu. auto.
  - intros l t Ht HlA. split; [rewrite <- En; apply HlA; [done|lia]|]. intros q Hq Hqb. rewrite Hu. auto.
  - intros x Hx. apply So. rewrite EA in Hx. set_solver.
  - apply grown_set_ptr.
  - apply grown_set_ptr, (hi_dom _ _ I), Hin.
Qed.

Lemma take_end : n < usize h p -> let b := plus p (usize h p - n) in
  exists A', taken h A n (set_freep prevp (set_usize b n (set_usize p (usize h p - n) h))) b A'.
Proof.
  intros Hlt b. pose proof take_not_base as Hpb. pose proof (hi_linked _ _ I) as Hl. pose proof (hi_spaced _ _ I) as Hs.
  assert (Hin : p ∈ A) by (rewrite EA; set_solver). pose proof (hinv_block _ _ _ I Hin) as [_ Htop]. pose proof (hi_brk _ _ I) as Hbrk.
  pose proof (hi_base _ _ I) as [Hb0 Hb1].
  assert (Hbd : p < b < plus p (usize h p) /\ plus b n = plus p (usize h p)) by (unfold b, plus, sizeof_Header in *; lia).
  assert (Hu : u32 n = n /\ u32 (usize h p - n) = usize h p - n).
  { unfold u32. rewrite !Z.mod_small; [done|..]; unfold plus, sizeof_Header in *; lia. }
  set (h' := set_freep _ _). assert (Hp : forall x, ptr h' x = ptr h x) by (intros x; unfold h'; by autorewrite with heap).
  assert (Hub : usize h' b = n) by (unfold h'; autorewrite with heap; rewrite decide_True by done; apply Hu).
  assert (Hup : usize h' p = usize h p - n).
  { unfold h'. autorewrite with heap. rewrite decide_False by lia. rewrite decide_True by done. apply Hu. }
  assert (Hux : forall x, x <> p -> x <> b -> usize h' x = usize h x) by (intros x ??; unfold h'; autorewrite with heap; by rewrite !decide_False).
  assert (Hnb : b ∉ A).
  { intros Hb. destruct (hinv_disj h A p b I Hin Hb ltac:(lia)) as [Hd|Hd]; [lia|].
    pose proof (hi_sizes _ _ I b Hb ltac:(lia)). unfold plus, sizeof_Header in *. lia. }
  assert (HuA : forall x, x ∈ A -> x <> p -> usize h' x = usize h x) by (intros x Hx Hne; apply Hux; [done|]; by intros ->).
  assert (Hgr : grown h h') by (eapply grown_trans; apply grown_set_usize).
  exists A. split; [split| | | | | | |]; try done.
  - apply (hi_head _ _ I).
  - by eapply linked_ext; [|done].
  - change (h_brk h') with (h_brk h). pose proof Hs as Hs'. rewrite EA, cons_middle, app_assoc in Hs |- *. apply spaced_app in Hs as [Hs1 (Hs2 & Hs3 & Hs4)].
    assert (HpP : p ∉ P ++ [prevp] /\ p ∉ N).
    { apply spaced_NoDup in Hs'. rewrite EA, cons_middle, app_assoc in Hs'. apply NoDup_app in Hs' as (_ & Hd & [Hx _]%NoDup_cons). set_solver. }
    apply spaced_app. split; [eapply spaced_ext; [|done]; intros x Hx; apply HuA; [rewrite EA; set_solver|set_solver]|].
    cbn [spaced]. rewrite Hup. split_and!; [done|unfold plus, sizeof_Header in *; lia|].
    eapply spaced_ext; [|done]; intros x Hx; apply HuA; [rewrite EA; set_solver|set_solver].
  - split; [done|]. rewrite HuA; [done| |lia]. pose proof (hi_head _ _ I). destruct A; [done|]. cbn in *. set_solver.
  - intros x Hx Hxb. destruct (decide (x = p)) as [->|Hne]; [lia|]. rewrite HuA by done. by apply (hi_sizes _ _ I).
  - cbn. rewrite EA. set_solver.
  - intros x Hx. apply Hgr, (hi_dom _ _ I), Hx.
  - split; [lia|]. change (h_brk h') with (h_brk h). lia.
  - intros q Hq Hqb. destruct (decide (q = p)) as [->|Hne]; [left; rewrite Hup; unfold b; lia|]. rewrite HuA by done.
    pose proof (hinv_disj h A q p I Hq Hin Hne) as Hd. unfold disj, plus, sizeof_Header in *. lia.
  - intros l t Ht HlA. pose proof (HlA p Hin ltac:(lia)) as Hlp. split; [unfold disj, plus, sizeof_Header in *; lia|].
    intros q Hq Hqb. destruct (decide (q = p)) as [->|Hne]; [rewrite Hup; unfold disj, plus, sizeof_Header in *; lia|]. rewrite HuA by done. auto.
  - intros x Hx. split; [apply Hp|]. apply Hux; set_solver.
  - cbn. rewrite lookup_insert_eq. eauto.
Qed.
End take.

Lemma take_taken h A n prevp p : hinv h A -> prevp ∈ A -> p ∈ A -> ptr h prevp = p -> 1 <= n <= usize h p ->
  exists b A', (take n prevp p h).1 = plus b 1 /\ taken h A n (take n prevp p h).2 b A'.
Proof.
  intros I Hpv Hp Hptr Hn. assert (Hne : p <> base) by (intros ->; destruct (hi_base _ _ I) as [_ E]; lia).
  destruct (prev_split h A prevp p I Hpv Hptr Hne) as (P & N & EA). unfold take. destruct (Z.eqb_spec (usize h p) n) as [En|En].
  - destruct (take_all h A P N prevp p n I EA Hn En) as [A' T]. by exists p, A'.
  - destruct (take_end h A P N prevp p n I EA Hn ltac:(lia)) as [A' T]. exists (plus p (usize h p - n)), A'.
    assert (E : usize (set_usize p (usize h p - n) h) p = usize h p - n); [|by rewrite E].
    rewrite usize_set_usize, decide_True by done. unfold u32. pose proof (hinv_block _ _ _ I Hp) as [_ Ht]. pose proof (hi_brk _ _ I). pose proof (hi_base _ _ I).
    destruct (hinv_base_least _ _ p I Hp); [done|]. rewrite Z.mod_small; [done|]. unfold plus, sizeof_Header in *. lia.
Qed.

Lemma fdisj_notin h A l t : hinv h A -> base < l -> 1 <= t -> fdisj h A l t -> l ∉ A.
Proof.
  intros I Hl Ht Hd Hin. pose proof (hi_sizes _ _ I l Hin ltac:(lia)). destruct (Hd l Hin ltac:(lia)); unfold plus, sizeof_Header in *; lia.
Qed.

Lemma spaced_top h A top top' : spaced h A top -> top <= top' -> spaced h A top'.
Proof.
  intros Hs Hle. induction A as [|p A IH]; [done|]. destruct Hs as (H1 & H2 & H3). split_and!; [..|by apply IH]; destruct A; cbn in *; lia.
Qed.

(** The break has moved and the new block has its header. *)
Lemma hinv_grow h A nu top : hinv h A -> h_brk h <= top < 2 ^ 36 -> hinv (set_usize (h_brk h) nu (set_brk top h)) A.
Proof.
  intros I Ht. set (h0 := set_usize _ _ _). assert (Hb : forall x, x ∈ A -> usize h0 x = usize h x).
  { intros x Hx. unfold h0. rewrite usize_set_usize, decide_False; [done|]. pose proof (hinv_block _ _ _ I Hx). lia. }
  assert (HB : base ∈ A) by (pose proof (hi_head _ _ I); destruct A; cbn in *; set_solver).
  assert (Hp : forall x, ptr h0 x = ptr h x) by (intros x; unfold h0; by rewrite ptr_set_usize).
  split; try apply I.
  - eapply linked_ext; [|apply (hi_linked _ _ I)]. done.
  - eapply spaced_top; [eapply spaced_ext; [exact Hb|]; exact (hi_spaced _ _ I)|]. cbn. lia.
  - rewrite Hb by done. apply (hi_base _ _ I).
  - intros x Hx. rewrite Hb by done. by apply (hi_sizes _ _ I).
  - cbn. lia.
  - intros x Hx. apply (grown_set_usize _ _ (set_brk top h)), (hi_dom _ _ I), Hx.
Qed.

Section malloc_proof.
Context (grants : Z -> Z -> bool).
Context (Hgrants : forall b k, grants b k = true -> b + k < 2 ^ 36).

Notation morecore := (morecore grants).
Notation malloc_loop := (malloc_loop grants).

(** [h'], [A']: the heap after [morecore(n)]. *)
Record more (h : heap) (A : list Z) (n : Z) (h' : heap) (A' : list Z) : Prop := {
  mo_inv : hinv h' A';
  mo_wide : wide_enough h' A' n;
  mo_keep l t : 1 <= t -> base < l -> plus l t <= h_brk h -> fdisj h A l t -> fdisj h' A' l t /\ usize h' l = usize h l;
  mo_brk : h_brk h <= h_brk h';
  mo_grown : grown h h';
  mo_len : (length A' <= S (length A))%nat
}.

Lemma morecore_more h A n : hinv h A -> 1 <= n -> n * 16 < 2 ^ 31 ->
  morecore n h = Some (0, h) \/ exists h' A', morecore n h = Some (freep h', h') /\ more h A n h' A'.
Proof.
  intros I Hn Hn2. unfold Umalloc.morecore. set (nu := if n <? 4096 then 4096 else n).
  assert (Hnu : n <= nu /\ 1 <= nu /\ nu * 16 < 2 ^ 31) by (unfold nu; destruct (Z.ltb_spec n 4096); lia).
  assert (Es : s32 (nu * sizeof_Header) = nu * 16) by (unfold sizeof_Header; apply s32_small; lia). rewrite Es.
  destruct (grants (h_brk h) (nu * 16)) eqn:Hg; [right|by left]. apply Hgrants in Hg.
  set (hp := h_brk h). set (h0 := set_usize hp nu (set_brk (hp + nu * 16) h)).
  assert (I0 : hinv h0 A) by (apply hinv_grow; [done|]; fold hp; lia).
  assert (Hb : base < hp) by (assert (base ∈ A) by (pose proof (hi_head _ _ I); destruct A; cbn in *; set_solver); by apply (hinv_block _ _ _ I)).
  assert (Hu : usize h0 hp = nu).
  { unfold h0. rewrite usize_set_usize, decide_True by done. unfold u32. apply Z.mod_small. lia. }
  assert (Hux : forall x, x <> hp -> usize h0 x = usize h x) by (intros x Hx; unfold h0; by rewrite usize_set_usize, decide_False).
  assert (HuA : forall x, x ∈ A -> usize h0 x = usize h x) by (intros x Hx; apply Hux; pose proof (hinv_block _ _ _ I Hx); unfold hp; lia).
  assert (Eb : plus (plus hp 1) (-1) = hp) by (unfold plus; lia).
  destruct (free_freed h0 A (plus hp 1)) as (h' & A' & Hf & F); rewrite ?Eb; [done|done|lia| |unfold plus, sizeof_Header; rewrite Hu; cbn; lia|].
  { intros q Hq Hqb. left. rewrite HuA by done. by apply (hinv_block _ _ _ I). }
  rewrite Eb in F. exists h', A'. rewrite Hf. split; [done|]. destruct (fr_wide _ _ _ _ _ F) as (b & Hb1 & Hb2). rewrite Hu in Hb2.
  split; [apply F|exists b; split; [done|lia]| | | |apply F].
  - intros l t Ht Hl Htop Hd. fold hp in Htop. assert (Hd0 : fdisj h0 A l t) by (intros q Hq Hqb; rewrite HuA by done; auto). split.
    + apply (fr_disj _ _ _ _ _ F); [done..|]. right. done.
    + rewrite <- (Hux l) by (unfold plus, sizeof_Header in *; lia). apply (fr_same _ _ _ _ _ F). apply not_elem_of_cons.
      split; [unfold plus, sizeof_Header in *; lia|]. by apply (fdisj_notin h A l t).
  - rewrite (fr_brk _ _ _ _ _ F). cbn. fold hp. lia.
  - eapply grown_trans; [exact (grown_set_usize hp nu (set_brk (hp + nu * 16) h))|apply F].
Qed.

Section loop.
Context (h : heap) (A : list Z) (n : Z) (I : hinv h A).

(** From [p] on, the search meets the blocks [W] and then [freep]. *)
Lemma loop_search q W : forall p prevp fuel, hd (freep h) W = p -> linked h (W ++ [freep h]) q -> freep h ∉ W -> (forall x, x ∈ W -> x ∈ A) ->
  prevp ∈ A -> ptr h prevp = p -> (length W < fuel)%nat ->
  (exists pv p', pv ∈ A /\ p' ∈ A /\ ptr h pv = p' /\ n <= usize h p' /\ malloc_loop fuel n prevp p h = Some (take n pv p' h)) \/
  ((forall v, v ∈ W ++ [freep h] -> usize h v < n) /\ exists k, fuel = (length W + S k)%nat /\
   malloc_loop fuel n prevp p h =
     (r ← morecore n h; let '(p, h) := r in if p =? 0 then Some (0, h) else malloc_loop k n p (ptr h p) h)).
Proof.
  induction W as [|w W IH]; intros p prevp fuel Hp Hl Hf HW Hpv Hptr Hlen; cbn [hd] in Hp; (destruct fuel as [|fuel]; cbn [length] in Hlen; [lia|]);
    cbn [Umalloc.malloc_loop]; destruct (Z.leb_spec n (usize h p)) as [Hle|Hgt].
  1,3: left; exists prevp, p; split_and!; try done; subst p; [apply (hi_freep _ _ I) || (apply HW; by left)].
  - right. subst p. rewrite Z.eqb_refl. split; [|by exists fuel]. by intros v ->%list_elem_of_singleton.
  - subst w. replace (p =? freep h) with false by (apply not_elem_of_cons in Hf as [Hf _]; symmetry; apply Z.eqb_neq; congruence).
    destruct Hl as [Hw Hl]. destruct (IH (ptr h p) p fuel) as [H|[Hall (k & -> & ->)]]; try done.
    + rewrite Hw. by destruct W.
    + set_solver.
    + intros x Hx. apply HW. by right.
    + apply HW. by left.
    + lia.
    + by left.
    + right. split; [|by exists k]. intros v [->|Hv]%elem_of_cons; [done|auto].
Qed.

(** One round of the search, from the block after [freep]. *)
Lemma loop_round fuel : (length A <= fuel)%nat ->
  (exists pv p', pv ∈ A /\ p' ∈ A /\ ptr h pv = p' /\ n <= usize h p' /\ malloc_loop fuel n (freep h) (ptr h (freep h)) h = Some (take n pv p' h)) \/
  ((forall v, v ∈ A -> usize h v < n) /\ exists k, fuel = (length A + k)%nat /\
   malloc_loop fuel n (freep h) (ptr h (freep h)) h =
     (r ← morecore n h; let '(p, h) := r in if p =? 0 then Some (0, h) else malloc_loop k n p (ptr h p) h)).
Proof.
  intros Hlen. pose proof (hi_freep _ _ I) as (X & Y & E)%list_elem_of_split. pose proof (hi_linked _ _ I) as Hl. pose proof (hi_head _ _ I) as Hh.
  pose proof (spaced_NoDup _ _ _ (hi_spaced _ _ I)) as Hnd. pose proof (hi_freep _ _ I) as Hfr. set (f := freep h) in *. rewrite E in Hl, Hh, Hnd.
  apply linked_app in Hl as [HlX [Hf HlY]]. assert (EX : exists W, X ++ [f] = base :: W).
  { destruct X as [|x X]; cbn in Hh; injection Hh as ->; [by exists []|by exists (X ++ [f])]. }
  destruct EX as [W0 EX].
  destruct (loop_search (hd base Y) (Y ++ X) (ptr h f) f fuel) as [H|[Hall (k & -> & ->)]]; try done; fold f.
  - rewrite Hf. destruct Y as [|y Y]; [|done]. cbn [app hd]. destruct X; cbn in EX; injection EX; done.
  - rewrite <- app_assoc, EX. apply linked_app. split; [done|]. rewrite <- EX. apply linked_app. split; [done|]. done.
  - apply NoDup_app in Hnd as (_ & Hd & [Hy _]%NoDup_cons). intros [?|HX]%elem_of_app; [done|]. apply (Hd f HX). by left.
  - intros x Hx. rewrite E. set_solver.
  - rewrite E, length_app in Hlen. rewrite length_app. cbn in Hlen. lia.
  - by left.
  - right. split; [intros v Hv; apply Hall; rewrite E in Hv; set_solver|]. exists k. split; [|done]. rewrite E, !length_app. cbn. lia.
Qed.
End loop.

(** [b], a block of [n] units, is allocated; the blocks that were not free are as before. *)
Record malloced (h : heap) (A : list Z) (n : Z) (h' : heap) (b : Z) (A' : list Z) : Prop := {
  ml_inv : hinv h' A';
  ml_size : usize h' b = n;
  ml_in : base < b /\ plus b n <= h_brk h';
  ml_free : fdisj h' A' b n;
  ml_keep l t : 1 <= t -> base < l -> plus l t <= h_brk h -> fdisj h A l t -> disj b n l t /\ fdisj h' A' l t /\ usize h' l = usize h l;
  ml_brk : h_brk h <= h_brk h'
}.

Lemma taken_malloced h A n b A' prevp p : 1 <= n -> taken h A n (take n prevp p h).2 b A' -> hinv h A -> malloced h A n (take n prevp p h).2 b A'.
Proof.
  intros Hn T I. assert (Hbrk : h_brk (take n prevp p h).2 = h_brk h) by (unfold take; by destruct (usize h p =? n)).
  split; try apply T; [|by rewrite Hbrk]. intros l t Ht Hl Htop Hd. destruct (tk_disj _ _ _ _ _ _ T l t Ht Hd) as [H1 H2]. split_and!; [done..|].
  apply (tk_same _ _ _ _ _ _ T). apply not_elem_of_cons. split; [|by apply (fdisj_notin h A l t)].
  intros ->. unfold disj, plus, sizeof_Header in *. lia.
Qed.

Lemma malloc_loop_ok h A n fuel : hinv h A -> 1 <= n -> n * 16 < 2 ^ 31 -> (2 * length A < fuel)%nat ->
  malloc_loop fuel n (freep h) (ptr h (freep h)) h = Some (0, h) \/
  exists b h' A', malloc_loop fuel n (freep h) (ptr h (freep h)) h = Some (plus b 1, h') /\ malloced h A n h' b A'.
Proof.
  intros I Hn Hn2 Hf. destruct (loop_round h A n I fuel ltac:(lia)) as [(pv & p & H1 & H2 & H3 & H4 & ->)|[Hall (k & -> & ->)]].
  - right. destruct (take_taken h A n pv p I H1 H2 H3 ltac:(lia)) as (b & A' & E & T). exists b, (take n pv p h).2, A'.
    rewrite <- E. split; [by destruct (take n pv p h)|]. by apply taken_malloced.
  - destruct (morecore_more h A n I Hn Hn2) as [->|(h1 & A1 & -> & M)]; [by left|right]. cbn [mbind option_bind]. destruct M as [I1 Hw Hk Hb Hgr Hl].
    destruct (Z.eqb_spec (freep h1) 0) as [E0|_].
    { pose proof (hinv_base_least _ _ _ I1 (hi_freep _ _ I1)). pose proof (hi_base _ _ I1). lia. }
    destruct (loop_round h1 A1 n I1 k ltac:(lia)) as [(pv & p & H1 & H2 & H3 & H4 & ->)|[Hall1 _]].
    + destruct (take_taken h1 A1 n pv p I1 H1 H2 H3 ltac:(lia)) as (b & A' & E & T). exists b, (take n pv p h1).2, A'.
      rewrite <- E. split; [by destruct (take n pv p h1)|]. pose proof (taken_malloced _ _ _ _ _ _ _ Hn T I1) as T'. split; try apply T'.
      * intros l t Ht Hlb Htop Hd. destruct (Hk l t Ht Hlb Htop Hd) as [Hd1 <-]. apply (ml_keep _ _ _ _ _ _ T'); [done..|lia|done].
      * pose proof (ml_brk _ _ _ _ _ _ T'). lia.
    + destruct Hw as (w & Hw1 & Hw2). specialize (Hall1 w Hw1). lia.
Qed.

(** ** Runs of a program *)

(** The blocks a program holds: what [malloc] returned, and the size it asked for. *)
Definition block_ok (h : heap) (A : list Z) (x : Z * Z) : Prop :=
  let b := plus x.1 (-1) in let n := nunits_of x.2 in
  1 <= n /\ x.2 <= sizeof_Header * (n - 1) /\ usize h b = n /\ base < b /\ plus b n <= h_brk h /\ fdisj h A b n.

Definition bdisj (x y : Z * Z) : Prop := disj (plus x.1 (-1)) (nunits_of x.2) (plus y.1 (-1)) (nunits_of y.2).

Fixpoint apart (live : list (Z * Z)) : Prop :=
  match live with [] => True | x :: l => Forall (bdisj x) l /\ apart l end.

Lemma apart_middle L1 x L2 : apart (L1 ++ x :: L2) -> apart (L1 ++ L2) /\ Forall (bdisj x) (L1 ++ L2).
Proof.
  induction L1 as [|y L1 IH]; cbn [app apart]; [tauto|]. intros [Hy (H1 & H2)%IH]. apply Forall_app in Hy as [Hy1 Hy2]. apply Forall_cons in Hy2 as [Hyx Hy2].
  split_and!; [by apply Forall_app|done|]. apply Forall_cons. split; [|done]. unfold bdisj, disj in *. tauto.
Qed.

Definition held (h : heap) (A : list Z) (live : list (Z * Z)) : Prop := hinv h A /\ Forall (block_ok h A) live /\ apart live.

Notation malloc := (malloc grants base).

(** [malloc] and [free] of a program that frees only what it holds. *)
Inductive ureach : heap -> list (Z * Z) -> Prop :=
  | ur_start brk : 0 < base < brk -> brk < 2 ^ 36 -> ureach (Heap ∅ 0 brk) []
  | ur_malloc h live nbytes ap h' : ureach h live -> 0 <= nbytes <= 2 ^ 31 - 32 -> malloc nbytes h = Some (ap, h') ->
      ureach h' (if ap =? 0 then live else (ap, nbytes) :: live)
  | ur_free h L1 ap nbytes L2 h' : ureach h (L1 ++ (ap, nbytes) :: L2) -> free ap h = Some h' -> ureach h' (L1 ++ L2).

Lemma nunits_ok nbytes : 0 <= nbytes <= 2 ^ 31 - 32 ->
  1 <= nunits_of nbytes /\ nunits_of nbytes * 16 < 2 ^ 31 /\ nbytes <= sizeof_Header * (nunits_of nbytes - 1).
Proof.
  intros H. unfold nunits_of, sizeof_Header. pose proof (Z.div_mod (nbytes + 16 - 1) 16 ltac:(lia)). pose proof (Z.mod_pos_bound (nbytes + 16 - 1) 16 ltac:(lia)).
  unfold u32. rewrite Z.mod_small; lia.
Qed.

Lemma held_malloc h A live nbytes : held h A live -> freep h <> 0 -> 0 <= nbytes <= 2 ^ 31 - 32 ->
  exists ap h' A', malloc nbytes h = Some (ap, h') /\ held h' A' (if ap =? 0 then live else (ap, nbytes) :: live).
Proof.
  intros (I & Hlive & Hap) Hf Hn. destruct (nunits_ok _ Hn) as (Hn1 & Hn2 & Hn3). unfold Umalloc.malloc. replace (freep h =? 0) with false by lia.
  pose proof (hinv_size _ _ I). destruct (malloc_loop_ok h A (nunits_of nbytes) (2 * size (h_cell h) + 4) I Hn1 Hn2 ltac:(lia)) as [->|(b & h' & A' & -> & M)].
  { by exists 0, h, A. }
  exists (plus b 1), h', A'. split; [done|]. pose proof (ml_in _ _ _ _ _ _ M) as [Hb1 Hb2]. pose proof (hi_base _ _ I) as [Hb0 _].
  replace (plus b 1 =? 0) with false by (unfold plus, sizeof_Header; lia). assert (Eb : plus (plus b 1) (-1) = b) by (unfold plus; lia).
  assert (Hk : forall x, x ∈ live -> bdisj (plus b 1, nbytes) x /\ block_ok h' A' x).
  { intros x Hx. rewrite Forall_forall in Hlive. destruct (Hlive x Hx) as (Hx1 & Hx2 & Hx3 & Hx4 & Hx5 & Hx6).
    destruct (ml_keep _ _ _ _ _ _ M _ _ Hx1 Hx4 Hx5 Hx6) as (Hd & Hd' & Hu). unfold bdisj, block_ok. cbn [fst snd]. rewrite Eb. split; [done|].
    pose proof (ml_brk _ _ _ _ _ _ M). split_and!; [done|done|congruence|done|lia|done]. }
  split; [apply M|]. split.
  - apply Forall_cons. split; [|apply Forall_forall; intros x Hx; by apply Hk]. unfold block_ok. cbn [fst snd]. rewrite Eb.
    split_and!; try done; apply M.
  - split; [|done]. apply Forall_forall. intros x Hx. by apply Hk.
Qed.

Lemma held_free h A L1 ap nbytes L2 : held h A (L1 ++ (ap, nbytes) :: L2) -> exists h' A', free ap h = Some h' /\ held h' A' (L1 ++ L2).
Proof.
  intros (I & Hlive & [Hap Hd]%apart_middle). apply Forall_app in Hlive as [H1 [(Hx1 & Hx2 & Hx3 & Hx4 & Hx5 & Hx6) H2]%Forall_cons]. cbn [fst snd] in *.
  destruct (free_freed h A ap I Hx4) as (h' & A' & Hf & F); rewrite ?Hx3; [done..|]. exists h', A'. split; [done|]. split; [apply F|]. split; [|done].
  assert (HL : Forall (block_ok h A) (L1 ++ L2)) by by apply Forall_app. rewrite Forall_forall in HL, Hd. apply Forall_forall. intros x Hx.
  destruct (HL x Hx) as (Hy1 & Hy2 & Hy3 & Hy4 & Hy5 & Hy6). specialize (Hd x Hx). unfold bdisj in Hd. cbn [fst snd] in Hd.
  unfold block_ok. rewrite (fr_brk _ _ _ _ _ F). split_and!; try done.
  - rewrite <- Hy3. apply (fr_same _ _ _ _ _ F). apply not_elem_of_cons. split; [|by eapply (fdisj_notin h A)].
    intros E. rewrite E in Hd. unfold disj, plus, sizeof_Header in *. lia.
  - apply (fr_disj _ _ _ _ _ F); [done..|]. by rewrite Hx3.
Qed.

(** The first call of [malloc] makes the list. *)
Lemma held_first brk nbytes : 0 < base < brk -> brk < 2 ^ 36 -> let h0 := set_usize base 0 (set_ptr base base (set_freep base (Heap ∅ 0 brk))) in
  held h0 [base] [] /\ freep h0 <> 0 /\ malloc nbytes (Heap ∅ 0 brk) = malloc nbytes h0.
Proof.
  intros Hb Hbrk h0. split; [|split; [cbn; lia|unfold Umalloc.malloc; cbn [freep]; by replace (freep h0 =? 0) with false by (cbn; lia)]].
  assert (Hu : usize h0 base = 0) by (unfold h0; autorewrite with heap; by rewrite decide_True).
  split; [|done]. split; try done.
  - cbn. unfold h0. autorewrite with heap. by rewrite decide_True.
  - cbn [spaced hd]. rewrite Hu. cbn. unfold plus. lia.
  - split; [lia|done].
  - by intros p ->%list_elem_of_singleton.
  - cbn. set_solver.
  - intros p ->%list_elem_of_singleton. cbn. rewrite lookup_insert_eq. eauto.
Qed.

Lemma ureach_inv h live : ureach h live ->
  (live = [] /\ exists brk, h = Heap ∅ 0 brk /\ 0 < base < brk /\ brk < 2 ^ 36) \/ exists A, held h A live /\ freep h <> 0.
Proof.
  assert (Hf : forall h A live, held h A live -> freep h <> 0).
  { intros h' A l (I & _). pose proof (hinv_base_least _ _ _ I (hi_freep _ _ I)). pose proof (hi_base _ _ I). lia. }
  induction 1 as [brk Hb Hbrk|h live nbytes ap h' _ IH Hn Hm|h L1 ap nbytes L2 h' _ IH Hfree]; [left; eauto|right..].
  - assert (HA : exists h0 A, held h0 A live /\ freep h0 <> 0 /\ malloc nbytes h = malloc nbytes h0).
    { destruct IH as [(-> & brk & -> & Hb & Hbrk)|(A & Hh & Hne)]; [|by exists h, A].
      destruct (held_first brk nbytes Hb Hbrk) as (H1 & H2 & H3). eexists _, _. split_and!; done. }
    destruct HA as (h0 & A & Hh & Hne & E). rewrite E in Hm. destruct (held_malloc h0 A live nbytes Hh Hne Hn) as (ap' & h1 & A' & Hm' & Hh').
    rewrite Hm in Hm'. injection Hm' as <- <-. eauto.
  - destruct IH as [(E & _)|(A & Hh & _)]; [by destruct L1|]. destruct (held_free _ _ _ _ _ _ Hh) as (h1 & A' & Hf1 & Hh'). rewrite Hfree in Hf1.
    injection Hf1 as <-. eauto.
Qed.

Lemma ureach_malloc h live nbytes : ureach h live -> 0 <= nbytes <= 2 ^ 31 - 32 -> is_Some (malloc nbytes h).
Proof.
  intros [(-> & brk & -> & Hb & Hbrk)|(A & Hh & Hne)]%ureach_inv Hn.
  - destruct (held_first brk nbytes Hb Hbrk) as (H1 & H2 & ->). destruct (held_malloc _ _ _ _ H1 H2 Hn) as (? & ? & ? & -> & _). eauto.
  - destruct (held_malloc _ _ _ _ Hh Hne Hn) as (? & ? & ? & -> & _). eauto.
Qed.
End malloc_proof.
End inv.

(** C38: a program that frees only blocks it holds, each once, and whose requests are of
    at most 2^31 - 32 bytes is served safely by user/umalloc.c, in a heap below 2^36:
    [malloc] and [free] return (their walks of the circular list end), any two blocks
    held, their headers included, are disjoint and within the heap, and the list, from
    [base] around to [base], has no free block that overlaps a block held.  The bound on
    the requests is the code's: one more byte makes 2^27 units, and the number of bytes
    that [morecore] passes to [sbrk] no longer fits its [int]. *)
Theorem umalloc_blocks_apart (base : Z) (grants : Z -> Z -> bool) (h : heap) (live : list (Z * Z)) :
  (forall b k, grants b k = true -> b + k < 2 ^ 36) ->
  ureach base grants h live ->
  (forall nbytes, 0 <= nbytes <= 2 ^ 31 - 32 -> is_Some (malloc grants base nbytes h)) /\
  (forall ap nbytes, (ap, nbytes) ∈ live -> is_Some (free ap h) /\ base < ap - sizeof_Header /\ ap + nbytes <= h_brk h) /\
  (forall L1 x L2 y L3, live = L1 ++ x :: L2 ++ y :: L3 -> x.1 + x.2 <= y.1 - sizeof_Header \/ y.1 + y.2 <= x.1 - sizeof_Header) /\
  exists A, (live <> [] -> head A = Some base /\ freep h ∈ A) /\ linked h A base /\
    forall q ap nbytes, q ∈ A -> q <> base -> (ap, nbytes) ∈ live -> plus q (usize h q) <= ap - sizeof_Header \/ ap + nbytes <= q.
Proof.
  intros Hg R. split; [intros nbytes; by eapply ureach_malloc|]. destruct (ureach_inv _ _ Hg _ _ R) as [(-> & _)|(A & (I & Hok & Hap) & _)].
  - split; [by intros ?? ?%not_elem_of_nil|]. split; [by intros []|]. exists []. split_and!; [done..|]. by intros ??? ?%not_elem_of_nil.
  - assert (Hb : forall x, x ∈ live -> block_ok base h A x) by (by apply Forall_forall). split_and!.
    + intros ap nbytes Hin. destruct (Hb _ Hin) as (H1 & H2 & H3 & H4 & H5 & H6). apply list_elem_of_split in Hin as (L1 & L2 & ->).
      destruct (held_free base h A L1 ap nbytes L2) as (h' & A' & -> & _); [by split_and!|]. cbn [fst snd] in *. unfold plus, sizeof_Header in *. split; [eauto|lia].
    + intros L1 x L2 y L3 ->. apply apart_middle in Hap as [_ Hd]. rewrite Forall_forall in Hd. specialize (Hd y ltac:(set_solver)).
      destruct (Hb x ltac:(set_solver)) as (_ & Hx & _). destruct (Hb y ltac:(set_solver)) as (_ & Hy & _).
      unfold bdisj, disj, plus, sizeof_Header in *. lia.
    + exists A. split; [split; apply I|]. split; [apply I|]. intros q ap nbytes Hq Hqb Hin. destruct (Hb _ Hin) as (_ & Hx & _ & _ & _ & Hd).
      specialize (Hd q Hq Hqb). cbn [fst snd] in *. unfold disj, plus, sizeof_Header in *. lia.
Qed.

(** Three requests, the second block freed, from the break 20000. *)
Definition ex_grants (b k : Z) : bool := b + k <? 2 ^ 36.
Definition ex_ops (h : heap) : option (list (Z * Z) * heap) :=
  '(a1, h) ← malloc ex_grants 16000 100 h;
  '(a2, h) ← malloc ex_grants 16000 70000 h;
  '(a3, h) ← malloc ex_grants 16000 40 h;
  h ← free a2 h;
  Some ([(a3, 40); (a1, 100)], h).

Lemma ex_ops_reach live h : ex_ops (Heap ∅ 0 20000) = Some (live, h) -> ureach 16000 ex_grants h live.
Proof.
  unfold ex_ops. destruct (malloc _ _ 100 _) as [[a1 h1]|] eqn:E1; [|done]. cbn [mbind option_bind].
  destruct (malloc _ _ 70000 h1) as [[a2 h2]|] eqn:E2; [|done]. cbn [mbind option_bind].
  destruct (malloc _ _ 40 h2) as [[a3 h3]|] eqn:E3; [|done]. cbn [mbind option_bind]. destruct (free a2 h3) as [h4|] eqn:E4; [|done]. cbn [mbind option_bind].
  intros [= <- <-]. pose proof (ur_start 16000 ex_grants 20000 ltac:(lia) ltac:(lia)) as R.
  pose proof (ur_malloc _ _ _ _ 100 _ _ R ltac:(lia) E1) as R1. pose proof (ur_malloc _ _ _ _ 70000 _ _ R1 ltac:(lia) E2) as R2.
  pose proof (ur_malloc _ _ _ _ 40 _ _ R2 ltac:(lia) E3) as R3. clear R R1 R2.
  vm_compute in E1. injection E1 as <- <-. vm_compute in E2. injection E2 as <- <-. vm_compute in E3. injection E3 as <- <-.
  apply (ur_free _ _ _ [_] _ 70000 [_] _ R3 E4).
Qed.

Lemma umalloc_blocks_apart_witness :
  ex_ops (Heap ∅ 0 20000) <> None /\
  match ex_ops (Heap ∅ 0 20000) with
  | Some (live, h) =>
      (forall nbytes, 0 <= nbytes <= 2 ^ 31 - 32 -> is_Some (malloc ex_grants 16000 nbytes h)) /\
      live = [(85360, 40); (85424, 100)] /\ freep h = 20000
  | None => False
  end.
Proof.
  split; [by vm_compute|]. destruct (ex_ops (Heap ∅ 0 20000)) as [[live h]|] eqn:E; [|by vm_compute in E]. split.
  - apply (umalloc_blocks_apart 16000 ex_grants h live); [intros b k; unfold ex_grants; lia|]. by apply ex_ops_reach.
  - vm_compute in E. by injection E as <- <-.
Defined.
