(* ===== verification/Sh.v ===== *)
(** * The shell: user/sh.c

    The parser works on the positions of a line: [s] is the C string in [buf] (the
    characters before its first zero), [es] its length, and a [char*] into it is an
    index.  [malloc]ed commands are the elements of a list, a [struct cmd*] is an index
    into it and the tag [type] is the constructor: [parseexec] goes on filling the
    [argv] of a command that other commands already point to.  The arrays [argv] and
    [eargv], which end with a null pointer, are lists.  Allocations are taken to succeed
    (umalloc.c keeps the blocks apart; the shell does not check for a null pointer).
    A run out of fuel is [Hung]; the theorems show that a line always ends in [Exit] or
    [Execed]. *)

From S2P Require Import Prelude Fs Sysfile Printf User.

Definition MAXARGS := 10.

Inductive cmd :=
| EXEC (argv eargv : list Z)
| REDIR (cmd : nat) (file efile mode fd : Z)
| PIPE (left right : nat)
| LIST (left right : nat)
| BACK (cmd : nat).

(** [*ps] and the commands allocated so far. *)
Record pst := PS { ps_pos : Z; ps_cmds : list cmd }.

Definition set_pos (p : Z) (st : pst) : pst := PS p (ps_cmds st).
Definition new_cmd (c : cmd) (st : pst) : nat * pst := (length (ps_cmds st), PS (ps_pos st) (ps_cmds st ++ [c])).
Definition set_cmd (i : nat) (c : cmd) (st : pst) : pst := PS (ps_pos st) (<[i := c]> (ps_cmds st)).

(** ** Constructors *)

Definition execcmd (st : pst) := new_cmd (EXEC [] []) st.
Definition redircmd (subcmd : nat) (file efile mode fd : Z) (st : pst) := new_cmd (REDIR subcmd file efile mode fd) st.
Definition pipecmd (left right : nat) (st : pst) := new_cmd (PIPE left right) st.
Definition listcmd (left right : nat) (st : pst) := new_cmd (LIST left right) st.
Definition backcmd (subcmd : nat) (st : pst) := new_cmd (BACK subcmd) st.

(** ** Tokens *)

Definition whitespace : list Z := [32; 9; 13; 10; 11].
Definition symbols : list Z := str "<|>&;()".

(** [strchr(l, c) != 0] *)
Definition among (l : list Z) (c : Z) : bool := bool_decide (is_Some (strchr l c)).

Section tokens.
Context (s : list Z).

Definition es : Z := strlen s.

(** [while(s < es && strchr(whitespace, *s)) s++] *)
Fixpoint skip_ws (n : nat) (p : Z) : Z :=
  match n with
  | O => p
  | S n' => if among whitespace (nthZ 0 s p) then skip_ws n' (p + 1) else p
  end.
Definition skip (p : Z) : Z := skip_ws (Z.to_nat (es - p)) p.

(** [while(s < es && !strchr(whitespace, *s) && !strchr(symbols, *s)) s++] *)
Fixpoint skip_word (n : nat) (p : Z) : Z :=
  match n with
  | O => p
  | S n' =>
      if negb (among whitespace (nthZ 0 s p)) && negb (among symbols (nthZ 0 s p)) then skip_word n' (p + 1) else p
  end.

(** The token's kind, [*q], [*eq] and the new [*ps]. *)
Definition gettoken (ps : Z) : Z * Z * Z * Z :=
  let p := skip ps in
  let q := p in
  let c := nthZ 0 s p in
  let '(ret, p) :=
    if c =? 0 then (c, p)
    else if (c =? chr "|") || (c =? chr "(") || (c =? chr ")") || (c =? chr ";") || (c =? chr "&") || (c =? chr "<")
    then (c, p + 1)
    else if c =? chr ">" then
      if nthZ 0 s (p + 1) =? chr ">" then (chr "+", p + 2) else (c, p + 1)
    else (chr "a", skip_word (Z.to_nat (es - p)) p) in
  let eq := p in
  (ret, q, eq, skip p).

(** The answer and the new [*ps]. *)
Definition peek (ps : Z) (toks : list Z) : bool * Z :=
  let p := skip ps in
  (negb (nthZ 0 s p =? 0) && among toks (nthZ 0 s p), p).
End tokens.

Section sh.
Context {W : Type} `{Sys W}.

Definition hung {A} : U W A := fun w => (Hung, w).

Definition panic {A} (msg : list Z) : U W A :=
  fprintf 2 (str "%s" ++ [10]) [AStr (Some msg)] ;;
  exit 1.

Definition fork1 : U W Z :=
  pid <- fork ;;
  if pid =? -1 then panic (str "fork") else uret pid.

(** ** The parser *)

Section parser.
Context (s : list Z).

Fixpoint parseredirs (fuel : nat) (cmd : nat) (st : pst) : U W (nat * pst) :=
  match fuel with
  | O => hung
  | S f =>
      let '(b, p) := peek s (ps_pos st) (str "<>") in
      if b then
        let '(tok, _, _, p) := gettoken s p in
        let '(tok2, q, eq, p) := gettoken s p in
        let st := set_pos p st in
        if negb (tok2 =? chr "a") then panic (str "missing file for redirection")
        else
          let '(cmd, st) :=
            if tok =? chr "<" then redircmd cmd q eq O_RDONLY 0 st
            else if tok =? chr ">" then redircmd cmd q eq (Z.lor (Z.lor O_WRONLY O_CREATE) O_TRUNC) 1 st
            else if tok =? chr "+" then redircmd cmd q eq (Z.lor O_WRONLY O_CREATE) 1 st (* >> *)
            else (cmd, st) in
          parseredirs f cmd st
      else uret (cmd, set_pos p st)
  end.

Definition redir_fuel (st : pst) : nat := S (Z.to_nat (es s - ps_pos st)).

(** [cmd->argv[argc] = q; cmd->eargv[argc] = eq] *)
Definition add_arg (i : nat) (q eq : Z) (st : pst) : pst :=
  match ps_cmds st !! i with
  | Some (EXEC a e) => set_cmd i (EXEC (a ++ [q]) (e ++ [eq])) st
  | _ => st
  end.

(** The loop of [parseexec] over the arguments of [cmd]. *)
Fixpoint parseargs (fuel : nat) (cmd ret : nat) (argc : Z) (st : pst) : U W (nat * pst) :=
  match fuel with
  | O => hung
  | S f =>
      let '(b, p) := peek s (ps_pos st) (str "|)&;") in
      if b then uret (ret, set_pos p st)
      else
        let '(tok, q, eq, p) := gettoken s p in
        let st := set_pos p st in
        if tok =? 0 then uret (ret, st)
        else if negb (tok =? chr "a") then panic (str "syntax")
        else
          let st := add_arg cmd q eq st in
          if MAXARGS <=? argc + 1 then panic (str "too many args")
          else
            r <- parseredirs (redir_fuel st) ret st ;;
            let '(ret, st) := r in
            parseargs f cmd ret (argc + 1) st
  end.

(** [while(peek(ps, es, "&"))] of [parseline]. *)
Fixpoint parseback (fuel : nat) (cmd : nat) (st : pst) : U W (nat * pst) :=
  match fuel with
  | O => hung
  | S f =>
      let '(b, p) := peek s (ps_pos st) (str "&") in
      if b then
        let '(_, _, _, p) := gettoken s p in
        let '(cmd, st) := backcmd cmd (set_pos p st) in
        parseback f cmd st
      else uret (cmd, set_pos p st)
  end.

Fixpoint parseline (fuel : nat) (st : pst) : U W (nat * pst) :=
  match fuel with
  | O => hung
  | S f =>
      r <- parsepipe f st ;;
      let '(cmd, st) := r in
      r <- parseback (redir_fuel st) cmd st ;;
      let '(cmd, st) := r in
      let '(b, p) := peek s (ps_pos st) (str ";") in
      if b then
        let '(_, _, _, p) := gettoken s p in
        r <- parseline f (set_pos p st) ;;
        let '(cmd2, st) := r in
        uret (listcmd cmd cmd2 st)
      else uret (cmd, set_pos p st)
  end
with parsepipe (fuel : nat) (st : pst) : U W (nat * pst) :=
  match fuel with
  | O => hung
  | S f =>
      r <- parseexec f st ;;
      let '(cmd, st) := r in
      let '(b, p) := peek s (ps_pos st) (str "|") in
      if b then
        let '(_, _, _, p) := gettoken s p in
        r <- parsepipe f (set_pos p st) ;;
        let '(cmd2, st) := r in
        uret (pipecmd cmd cmd2 st)
      else uret (cmd, set_pos p st)
  end
with parseblock (fuel : nat) (st : pst) : U W (nat * pst) :=
  match fuel with
  | O => hung
  | S f =>
      let '(b, p) := peek s (ps_pos st) (str "(") in
      if negb b then panic (str "parseblock")
      else
        let '(_, _, _, p) := gettoken s p in
        r <- parseline f (set_pos p st) ;;
        let '(cmd, st) := r in
        let '(b, p) := peek s (ps_pos st) (str ")") in
        if negb b then panic (str "syntax - missing )")
        else
          let '(_, _, _, p) := gettoken s p in
          let st := set_pos p st in
          parseredirs (redir_fuel st) cmd st
  end
with parseexec (fuel : nat) (st : pst) : U W (nat * pst) :=
  match fuel with
  | O => hung
  | S f =>
      let '(b, p) := peek s (ps_pos st) (str "(") in
      let st := set_pos p st in
      if b then parseblock f st
      else
        let '(cmd, st) := execcmd st in
        r <- parseredirs (redir_fuel st) cmd st ;;
        let '(ret, st) := r in
        parseargs (redir_fuel st) cmd ret 0 st
  end.
End parser.

(** NUL-terminate all the counted strings. *)
Fixpoint nulterminate (fuel : nat) (cmds : list cmd) (c : nat) (buf : list Z) : U W (list Z) :=
  match fuel with
  | O => hung
  | S f =>
      match cmds !! c with
      | Some (EXEC argv eargv) => uret (foldl (fun buf e => setZ buf e 0) buf (take (length argv) eargv))
      | Some (REDIR sub file efile mode fd) =>
          buf <- nulterminate f cmds sub buf ;;
          uret (setZ buf efile 0)
      | Some (PIPE l r) | Some (LIST l r) =>
          buf <- nulterminate f cmds l buf ;;
          nulterminate f cmds r buf
      | Some (BACK sub) => nulterminate f cmds sub buf
      | None => hung
      end
  end.

(** The command, the commands it is made of, and the buffer with the strings. *)
Definition parsecmd (buf : list Z) : U W (nat * list cmd * list Z) :=
  let s := cstr buf in
  r <- parseline s (4 * length s + 4) (PS 0 []) ;;
  let '(cmd, st) := r in
  let '(_, p) := peek s (ps_pos st) [] in
  if negb (p =? es s) then
    fprintf 2 (str "leftovers: %s" ++ [10]) [AStr (Some (drop (Z.to_nat p) s))] ;;
    panic (str "syntax")
  else
    buf <- nulterminate (length (ps_cmds st)) (ps_cmds st) cmd buf ;;
    uret (cmd, ps_cmds st, buf).

(** The string at [q]. *)
Definition string_at (buf : list Z) (q : Z) : list Z := cstr (drop (Z.to_nat q) buf).

(** ** Running a command *)

(** Execute cmd.  Never returns. *)
Fixpoint runcmd (fuel : nat) (cmds : list cmd) (buf : list Z) (c : nat) : U W unit :=
  match fuel with
  | O => hung
  | S f =>
      match cmds !! c with
      | None => exit 1
      | Some (EXEC argv _) =>
          match map (string_at buf) argv with
          | [] => exit 1
          | a0 :: args =>
              exec a0 (a0 :: args) ;;
              fprintf 2 (str "exec %s failed" ++ [10]) [AStr (Some a0)] ;;
              exit 0
          end
      | Some (REDIR sub file _ mode fd) =>
          close fd ;;
          r <- open (string_at buf file) mode ;;
          if r <? 0 then
            fprintf 2 (str "open %s failed" ++ [10]) [AStr (Some (string_at buf file))] ;;
            exit 1
          else runcmd f cmds buf sub
      | Some (LIST l r) =>
          pid <- fork1 ;;
          (if pid =? 0 then runcmd f cmds buf l else uret tt) ;;
          wait ;;
          runcmd f cmds buf r
      | Some (PIPE l r) =>
          p <- pipe ;;
          match p with
          | None => panic (str "pipe")
          | Some (p0, p1) =>
              pid <- fork1 ;;
              (if pid =? 0 then
                 close 1 ;; dup p1 ;; close p0 ;; close p1 ;; runcmd f cmds buf l
               else uret tt) ;;
              pid <- fork1 ;;
              (if pid =? 0 then
                 close 0 ;; dup p0 ;; close p0 ;; close p1 ;; runcmd f cmds buf r
               else uret tt) ;;
              close p0 ;;
              close p1 ;;
              wait ;;
              wait ;;
              exit 0
          end
      | Some (BACK sub) =>
          pid <- fork1 ;;
          (if pid =? 0 then runcmd f cmds buf sub else uret tt) ;;
          exit 0
      end
  end.

(** ** The command loop *)

Definition NBUF_SH := 100.

(** [None] at the end of the input. *)
Definition getcmd : U W (option (list Z)) :=
  write 2 (str "$ ") ;;
  buf <- gets (replicate (Z.to_nat NBUF_SH) 0) NBUF_SH ;;
  if nthZ 0 buf 0 =? 0 then uret None else uret (Some buf).

(** Ensure that three file descriptors are open. *)
Definition open_console (_ : unit) : U W (unit + unit) :=
  fd <- open (str "console") O_RDWR ;;
  if 0 <=? fd then
    if 3 <=? fd then close fd ;; uret (inr tt) else uret (inl tt)
  else uret (inr tt).

(** One command line. *)
Definition sh_turn (_ : unit) : U W (unit + unit) :=
  r <- getcmd ;;
  match r with
  | None => uret (inr tt)
  | Some buf =>
      if (nthZ 0 buf 0 =? chr "c") && (nthZ 0 buf 1 =? chr "d") && (nthZ 0 buf 2 =? chr " ") then
        (* Chdir must be called by the parent, not the child. *)
        let buf := setZ buf (strlen (cstr buf) - 1) 0 in (* chop \n *)
        r <- chdir (string_at buf 3) ;;
        (if r <? 0 then fprintf 2 (str "cannot cd %s" ++ [10]) [AStr (Some (string_at buf 3))] else uret tt) ;;
        uret (inl tt)
      else
        pid <- fork1 ;;
        (if pid =? 0 then
           r <- parsecmd buf ;;
           let '(cmd, cmds, buf) := r in
           runcmd (length cmds) cmds buf cmd
         else uret tt) ;;
        wait ;;
        uret (inl tt)
  end.

Definition sh_main (fuel : nat) : U W unit :=
  uloop fuel open_console tt ;;
  uloop fuel sh_turn tt ;;
  exit 0.
End sh.
