(* ===== verification/ShSpec.v ===== *)
(** * The shell's parser against its grammar

    [lex] cuts a line into tokens; [gline], [gpipe] and [gexec] are the grammar over
    tokens, with the tree of a command.  [parseline] and its companions find the tree
    of a line exactly if it has one. *)

From S2P Require Import Prelude Fs Sysfile Printf User Sh.

(** ** Tokens *)

Inductive tok :=
| TWord (q e : Z) (* the characters from [q] up to [e] *)
| TSym (c : Z)
| TAppend. (* >> *)

Definition is_ws (c : Z) : bool := bool_decide (c ∈ whitespace).
Definition is_sym (c : Z) : bool := bool_decide (c ∈ symbols).

(** The word that began at [cur], if any, ends at [p]. *)
Definition word_end (cur : option Z) (p : Z) : list tok :=
  match cur with Some q => [TWord q p] | None => [] end.

Fixpoint lex (l : list Z) (p : Z) (cur : option Z) : list tok :=
  match l with
  | [] => word_end cur p
  | c :: l' =>
      if is_ws c then word_end cur p ++ lex l' (p + 1) None
      else if is_sym c then
        word_end cur p ++
        match l' with
        | d :: l'' => if (c =? chr ">") && (d =? chr ">") then TAppend :: lex l'' (p + 2) None else TSym c :: lex l' (p + 1) None
        | [] => [TSym c]
        end
      else lex l' (p + 1) (Some (default p cur))
  end.

Definition tokens (s : list Z) : list tok := lex s 0 None.

(** ** Trees and the grammar *)

Inductive tree :=
| TExec (args : list (Z * Z))
| TRedir (t : tree) (q e mode fd : Z)
| TPipe (t1 t2 : tree)
| TList (t1 t2 : tree)
| TBack (t : tree).

Definition redir := (Z * Z * Z * Z)%type.

Definition wrap (rs : list redir) (t : tree) : tree :=
  foldl (fun t '(q, e, mode, fd) => TRedir t q e mode fd) t rs.

Definition redir_of (k : tok) : option (Z * Z) :=
  match k with
  | TSym c =>
      if c =? chr "<" then Some (O_RDONLY, 0)
      else if c =? chr ">" then Some (Z.lor (Z.lor O_WRONLY O_CREATE) O_TRUNC, 1)
      else None
  | TAppend => Some (Z.lor O_WRONLY O_CREATE, 1)
  | TWord _ _ => None
  end.

(** Words and redirections in any order. *)
Inductive gitems : list tok -> list (Z * Z) -> list redir -> Prop :=
| gi_nil : gitems [] [] []
| gi_word q e ts a rs : gitems ts a rs -> gitems (TWord q e :: ts) ((q, e) :: a) rs
| gi_redir k q e mode fd ts a rs : redir_of k = Some (mode, fd) -> gitems ts a rs ->
    gitems (k :: TWord q e :: ts) a ((q, e, mode, fd) :: rs).

Inductive gline : list tok -> tree -> Prop :=
| gl_pipe n ts t : gpipe ts t -> gline (ts ++ replicate n (TSym (chr "&"))) (Nat.iter n TBack t)
| gl_list n ts t ts2 t2 : gpipe ts t -> gline ts2 t2 ->
    gline (ts ++ replicate n (TSym (chr "&")) ++ TSym (chr ";") :: ts2) (TList (Nat.iter n TBack t) t2)
with gpipe : list tok -> tree -> Prop :=
| gp_exec ts t : gexec ts t -> gpipe ts t
| gp_pipe ts t ts2 t2 : gexec ts t -> gpipe ts2 t2 -> gpipe (ts ++ TSym (chr "|") :: ts2) (TPipe t t2)
with gexec : list tok -> tree -> Prop :=
| ge_simple ts a rs : gitems ts a rs -> Z.of_nat (length a) < MAXARGS -> gexec ts (wrap rs (TExec a))
| ge_block ts t ts2 rs : gline ts t -> gitems ts2 [] rs ->
    gexec (TSym (chr "(") :: ts ++ TSym (chr ")") :: ts2) (wrap rs t).

Scheme gline_ind2 := Induction for gline Sort Prop
  with gpipe_ind2 := Induction for gpipe Sort Prop
  with gexec_ind2 := Induction for gexec Sort Prop.
Combined Scheme grammar_ind from gline_ind2, gpipe_ind2, gexec_ind2.

(** The words of a tree, in the order in which [nulterminate] meets them. *)
Fixpoint words (t : tree) : list (Z * Z) :=
  match t with
  | TExec a => a
  | TRedir t q e _ _ => words t ++ [(q, e)]
  | TPipe t1 t2 | TList t1 t2 => words t1 ++ words t2
  | TBack t => words t
  end.

(** The command [p] is the tree [t]. *)
Fixpoint denotes (cmds : list cmd) (p : nat) (t : tree) : Prop :=
  match t with
  | TExec a => cmds !! p = Some (EXEC (map fst a) (map snd a))
  | TRedir t q e mode fd => exists p', (p' < p)%nat /\ cmds !! p = Some (REDIR p' q e mode fd) /\ denotes cmds p' t
  | TPipe t1 t2 => exists p1 p2, (p1 < p)%nat /\ (p2 < p)%nat /\ cmds !! p = Some (PIPE p1 p2) /\ denotes cmds p1 t1 /\ denotes cmds p2 t2
  | TList t1 t2 => exists p1 p2, (p1 < p)%nat /\ (p2 < p)%nat /\ cmds !! p = Some (LIST p1 p2) /\ denotes cmds p1 t1 /\ denotes cmds p2 t2
  | TBack t => exists p', (p' < p)%nat /\ cmds !! p = Some (BACK p') /\ denotes cmds p' t
  end.

(** ** The lexer *)

Lemma strchr_elem l c : 0 ∉ l -> among l c = bool_decide (c ∈ l).
Proof.
  intros H0. unfold among. apply bool_decide_ext. induction l as [|x l IH]; cbn [strchr].
  - split; [by intros []|by intros ?%not_elem_of_nil].
  - apply not_elem_of_cons in H0 as [Hx H0]. replace (x =? 0) with false by lia. destruct (Z.eqb_spec x c) as [->|Hne]; [split; [by left|by eauto]|].
    rewrite elem_of_cons, fmap_is_Some, IH by done. intuition congruence.
Qed.

Lemma among_ws c : among whitespace c = is_ws c.
Proof. apply strchr_elem. apply (bool_decide_unpack _). by vm_compute. Qed.

Lemma among_sym c : among symbols c = is_sym c.
Proof. apply strchr_elem. apply (bool_decide_unpack _). by vm_compute. Qed.

Section lexer.
Context (s : list Z) (Hs : 0 ∉ s).

Definition toks (p : Z) : list tok := lex (drop (Z.to_nat p) s) p None.

Notation inl_ p := (0 <= p <= es s).

Lemma drop_at p : 0 <= p < es s -> drop (Z.to_nat p) s = nthZ 0 s p :: drop (Z.to_nat (p + 1)) s.
Proof.
  unfold es, strlen. intros Hp. unfold nthZ. rewrite nth_lookup. destruct (s !! Z.to_nat p) as [c|] eqn:E.
  - erewrite drop_S by done. replace (Z.to_nat (p + 1)) with (S (Z.to_nat p)) by lia. done.
  - apply lookup_ge_None in E. lia.
Qed.

Lemma at_nonzero p : 0 <= p < es s -> nthZ 0 s p <> 0.
Proof.
  intros Hp E. apply Hs. assert (Hd : nthZ 0 s p ∈ drop (Z.to_nat p) s) by (rewrite drop_at by done; by left).
  rewrite E in Hd. rewrite <- (take_drop (Z.to_nat p) s). apply elem_of_app. by right.
Qed.

Lemma at_end p : es s <= p -> nthZ 0 s p = 0.
Proof. unfold es, strlen, nthZ. intros Hp. apply nth_overflow. lia. Qed.

Lemma skip_ws_spec n : forall p, 0 <= p -> Z.of_nat n = es s - p ->
  p <= skip_ws s n p <= es s /\ toks (skip_ws s n p) = toks p /\
  (skip_ws s n p < es s -> is_ws (nthZ 0 s (skip_ws s n p)) = false).
Proof.
  induction n as [|n IH]; intros p Hp Hn; cbn [skip_ws]; [split_and!; [lia|lia|done|lia]|]. rewrite among_ws.
  destruct (is_ws (nthZ 0 s p)) eqn:E; [|split_and!; [lia|lia|done|done]].
  destruct (IH (p + 1) ltac:(lia) ltac:(lia)) as (H1 & H2 & H3). split_and!; [lia|lia| |done]. rewrite H2. unfold toks.
  rewrite (drop_at p) by lia. cbn [lex]. by rewrite E.
Qed.

Lemma skip_spec p : inl_ p -> p <= skip s p <= es s /\ toks (skip s p) = toks p /\
  (skip s p < es s -> is_ws (nthZ 0 s (skip s p)) = false).
Proof. intros Hp. apply skip_ws_spec; lia. Qed.

(** The word from [q], read up to [p]. *)
Lemma skip_word_spec n : forall p q, 0 <= p -> Z.of_nat n = es s - p -> let e := skip_word s n p in
  p <= e <= es s /\ lex (drop (Z.to_nat p) s) p (Some q) = TWord q e :: toks e /\
  (forall x, p <= x < e -> is_ws (nthZ 0 s x) = false /\ is_sym (nthZ 0 s x) = false) /\
  (e < es s -> is_ws (nthZ 0 s e) = true \/ is_sym (nthZ 0 s e) = true).
Proof.
  induction n as [|n IH]; intros p q Hp Hn; cbn [skip_word].
  - split_and!; [lia|lia| |lia|lia]. unfold toks. replace (drop (Z.to_nat p) s) with (@nil Z); [done|]. symmetry. apply drop_ge. unfold es, strlen in *. lia.
  - rewrite among_ws, among_sym. assert (Hd := drop_at p ltac:(lia)).
    destruct (is_ws (nthZ 0 s p)) eqn:E1; [|destruct (is_sym (nthZ 0 s p)) eqn:E2]; cbn [negb andb].
    + split_and!; [lia|lia| |lia|by left]. unfold toks. rewrite Hd. cbn [lex]. by rewrite E1.
    + split_and!; [lia|lia| |lia|by right]. unfold toks. rewrite Hd. cbn [lex]. by rewrite E1, E2.
    + destruct (IH (p + 1) q ltac:(lia) ltac:(lia)) as (H1 & H2 & H3 & H4). split_and!; [lia|lia| | |done].
      * rewrite Hd. cbn [lex]. by rewrite E1, E2.
      * intros x Hx. destruct (decide (x = p)) as [->|]; [done|]. apply H3. lia.
Qed.

(** [t] is the token that [gettoken] says it is. *)
Definition tok_is (ret q e : Z) (t : tok) : Prop :=
  match t with
  | TWord q' e' => ret = chr "a" /\ q' = q /\ e' = e
  | TSym c => ret = c /\ is_sym c = true
  | TAppend => ret = chr "+"
  end.

Lemma toks_sym p c : 0 <= p < es s -> nthZ 0 s p = c -> is_ws c = false -> is_sym c = true ->
  c <> chr ">" \/ nthZ 0 s (p + 1) <> chr ">" -> toks p = TSym c :: toks (p + 1).
Proof.
  intros Hp Hc E1 E2 Hne. unfold toks. rewrite drop_at, Hc by done. cbn [lex]. rewrite E1, E2. cbn [word_end app].
  destruct (drop (Z.to_nat (p + 1)) s) as [|d l] eqn:Ed; [done|].
  assert (Hlt : p + 1 < es s) by (apply (f_equal length) in Ed; rewrite length_drop in Ed; cbn in Ed; unfold es, strlen; lia).
  rewrite drop_at in Ed by lia. injection Ed as Ed1 Ed2. rewrite Ed1 in Hne.
  replace ((c =? chr ">") && (d =? chr ">")) with false; [done|]. symmetry. apply andb_false_iff. rewrite !Z.eqb_neq. done.
Qed.

Lemma toks_append p : 0 <= p < es s -> nthZ 0 s p = chr ">" -> nthZ 0 s (p + 1) = chr ">" -> p + 1 < es s /\ toks p = TAppend :: toks (p + 2).
Proof.
  intros Hp Hc Hd. assert (Hlt : p + 1 < es s) by (destruct (Z.lt_ge_cases (p + 1) (es s)) as [|Hge]; [done|]; by rewrite at_end in Hd by lia).
  split; [done|]. unfold toks. rewrite (drop_at p), (drop_at (p + 1)), Hc, Hd by lia. cbn [lex].
  replace (p + 1 + 1) with (p + 2) by lia. done.
Qed.

Lemma sym_cases c : is_sym c = true ->
  (c =? chr "|") || (c =? chr "(") || (c =? chr ")") || (c =? chr ";") || (c =? chr "&") || (c =? chr "<") = negb (c =? chr ">") /\ is_ws c = false.
Proof. unfold is_sym, symbols. rewrite bool_decide_eq_true. cbn [str]. rewrite !elem_of_cons, elem_of_nil. intros Hc. repeat destruct Hc as [->|Hc]; done. Qed.

Lemma not_sym_cases c : is_sym c = false ->
  (c =? chr "|") || (c =? chr "(") || (c =? chr ")") || (c =? chr ";") || (c =? chr "&") || (c =? chr "<") = false /\ (c =? chr ">") = false.
Proof.
  unfold is_sym, symbols. rewrite bool_decide_eq_false. cbn [str]. rewrite !not_elem_of_cons. intros Hc.
  rewrite !orb_false_iff, !Z.eqb_neq. naive_solver.
Qed.

Lemma gettoken_spec p : inl_ p -> let '(ret, q, e, p') := gettoken s p in
  p <= p' <= es s /\
  (ret = 0 /\ toks p = [] /\ toks p' = [] \/ exists t, tok_is ret q e t /\ toks p = t :: toks p').
Proof.
  intros Hp. destruct (skip_spec p Hp) as (H1 & H2 & H3). unfold gettoken. set (k := skip s p) in *. clearbody k. rewrite <- H2.
  assert (Hsk : forall x, 0 <= x <= es s -> x <= skip s x <= es s /\ toks (skip s x) = toks x) by (intros x Hx; split; apply (skip_spec x Hx)).
  destruct (decide (k = es s)) as [Ek|Ek].
  { rewrite at_end by lia. cbn [Z.eqb]. destruct (Hsk k ltac:(lia)) as [Hs1 Hs2]. split; [lia|]. left. rewrite Hs2. unfold toks. rewrite drop_ge by (unfold es, strlen in *; lia). done. }
  specialize (H3 ltac:(lia)). rewrite (proj2 (Z.eqb_neq _ _) (at_nonzero k ltac:(lia))). destruct (is_sym (nthZ 0 s k)) eqn:E2.
  - destruct (sym_cases _ E2) as [-> _]. destruct (Z.eqb_spec (nthZ 0 s k) (chr ">")) as [Eg|Eg]; cbn [negb].
    + destruct (Z.eqb_spec (nthZ 0 s (k + 1)) (chr ">")) as [Ea|Ea].
      * destruct (toks_append k ltac:(lia) Eg Ea) as [Hlt Ht]. destruct (Hsk (k + 2) ltac:(lia)) as [Hs1 Hs2].
        split; [lia|]. right. exists TAppend. by rewrite Hs2.
      * destruct (Hsk (k + 1) ltac:(lia)) as [Hs1 Hs2]. split; [lia|]. right. exists (TSym (nthZ 0 s k)).
        split; [done|]. rewrite Hs2. apply toks_sym; [lia|done|done|done|by right].
    + destruct (Hsk (k + 1) ltac:(lia)) as [Hs1 Hs2]. split; [lia|]. right. exists (TSym (nthZ 0 s k)). split; [done|]. rewrite Hs2. apply toks_sym; [lia|done|done|done|by left].
  - destruct (not_sym_cases _ E2) as [-> ->]. destruct (skip_word_spec (Z.to_nat (es s - k)) k k ltac:(lia) ltac:(lia)) as (Hw1 & Hw2 & _).
    destruct (Hsk (skip_word s (Z.to_nat (es s - k)) k) ltac:(lia)) as [Hs1 Hs2]. split; [lia|]. right. eexists (TWord k _). split; [done|].
    rewrite Hs2, <- Hw2. unfold toks. rewrite (drop_at k) by lia. cbn [lex]. by rewrite H3, E2.
Qed.

(** Does the next token begin with a character of [l]? *)
Definition next_in (l : list Z) (ts : list tok) : bool :=
  match ts with
  | TSym c :: _ => bool_decide (c ∈ l)
  | TAppend :: _ => bool_decide (chr ">" ∈ l)
  | _ => false
  end.

Lemma peek_spec p l : inl_ p -> (forall c, c ∈ l -> is_sym c = true) ->
  (peek s p l).1 = next_in l (toks p) /\ p <= (peek s p l).2 <= es s /\ toks (peek s p l).2 = toks p.
Proof.
  intros Hp Hl. destruct (skip_spec p Hp) as (H1 & H2 & H3). unfold peek. cbn [fst snd]. split; [|done]. rewrite <- H2. set (k := skip s p) in *. clearbody k.
  assert (H0 : 0 ∉ l) by (intros Hin; by specialize (Hl 0 Hin)). rewrite strchr_elem by done.
  destruct (decide (k = es s)) as [Ek|Ek].
  { rewrite at_end by lia. unfold toks. by rewrite drop_ge by (unfold es, strlen in *; lia). }
  specialize (H3 ltac:(lia)). rewrite (proj2 (Z.eqb_neq _ _) (at_nonzero k ltac:(lia))). cbn [negb andb]. destruct (is_sym (nthZ 0 s k)) eqn:E2.
  - destruct (decide (nthZ 0 s k = chr ">")) as [Eg|Eg]; [destruct (decide (nthZ 0 s (k + 1) = chr ">")) as [Ea|Ea]|].
    + destruct (toks_append k ltac:(lia) Eg Ea) as [_ ->]. cbn [next_in]. by rewrite Eg.
    + by rewrite (toks_sym k _ ltac:(lia) eq_refl H3 E2 (or_intror Ea)).
    + by rewrite (toks_sym k _ ltac:(lia) eq_refl H3 E2 (or_introl Eg)).
  - destruct (skip_word_spec (Z.to_nat (es s - k)) k k ltac:(lia) ltac:(lia)) as (_ & Hw2 & _). unfold toks in *. rewrite (drop_at k) in * by lia. cbn [lex] in *.
    rewrite H3, E2 in *. change (default k None) with k. change (default k (Some k)) with k in Hw2. rewrite Hw2. cbn [next_in]. apply bool_decide_eq_false. intros Hin. apply Hl in Hin. congruence.
Qed.
End lexer.

Lemma length_lex l : forall p cur, (length (lex l p cur) <= length l + length (word_end cur p))%nat.
Proof.
  induction l as [l IH] using (induction_ltof1 _ (@length Z)). unfold ltof in IH. intros p cur.
  destruct l as [|c l]; cbn [lex length]; [lia|]. assert (Hw : forall q, (length (word_end cur q) <= 1)%nat) by (intros q; destruct cur; cbn; lia).
  destruct (is_ws c); [rewrite length_app; pose proof (IH l ltac:(cbn; lia) (p + 1) None); cbn in *; lia|]. destruct (is_sym c).
  - rewrite length_app. destruct l as [|d l]; [cbn; lia|]. destruct ((c =? chr ">") && (d =? chr ">")); cbn [length].
    + pose proof (IH l ltac:(cbn; lia) (p + 2) None). cbn in *. lia.
    + pose proof (IH (d :: l) ltac:(cbn; lia) (p + 1) None). cbn in *. lia.
  - pose proof (IH l ltac:(cbn; lia) (p + 1) (Some (default p cur))). cbn in *. lia.
Qed.

(** ** The parser *)

Section parser.
Context {W : Type} `{Sys W} (s : list Z) (Hs : 0 ∉ s).

(** [ts] is still to be read. *)
Definition okp (st : pst) (ts : list tok) : Prop := 0 <= ps_pos st <= es s /\ toks s (ps_pos st) = ts.

Definition fails {A} (m : U W A) : Prop := exists msg, forall w, m w = panic msg w.

Lemma fails_panic {A} msg : fails (panic msg : U W A).
Proof. by exists msg. Qed.

Lemma fails_bind {A B} (m : U W A) (k : A -> U W B) : fails m -> fails (ubind m k).
Proof.
  intros [msg Hm]. exists msg. intros w. unfold ubind at 1. rewrite Hm. unfold panic, ubind. by destruct (fprintf _ _ _ w) as [[]].
Qed.

Lemma okp_fuel st ts : okp st ts -> (length ts < redir_fuel s st)%nat.
Proof.
  intros [Hp <-]. unfold redir_fuel, toks. pose proof (length_lex (drop (Z.to_nat (ps_pos st)) s) (ps_pos st) None) as Hl.
  rewrite length_drop in Hl. cbn in Hl. unfold es, strlen in *. lia.
Qed.

Lemma peek_step st ts l : okp st ts -> (forall c, c ∈ l -> is_sym c = true) ->
  exists p, peek s (ps_pos st) l = (next_in l ts, p) /\ okp (set_pos p st) ts.
Proof.
  intros [Hp Ht] Hl. destruct (peek_spec s Hs (ps_pos st) l Hp Hl) as (H1 & H2 & H3). exists (peek s (ps_pos st) l).2.
  split; [rewrite <- Ht, <- H1; by destruct (peek _ _ _)|]. split; cbn [set_pos ps_pos]; [lia|congruence].
Qed.

Lemma gettoken_step st t ts : okp st (t :: ts) ->
  exists ret q e p, gettoken s (ps_pos st) = (ret, q, e, p) /\ tok_is ret q e t /\ okp (set_pos p st) ts.
Proof.
  intros [Hp Ht]. pose proof (gettoken_spec s Hs (ps_pos st) Hp) as Hg. destruct (gettoken s (ps_pos st)) as [[[ret q] e] p].
  destruct Hg as [Hb [(_ & Hn & _)|(t' & Hi & Hc)]]; [congruence|]. rewrite Ht in Hc. injection Hc as <- Hc. exists ret, q, e, p.
  split_and!; [done..|]. split; [cbn; lia|done].
Qed.

Lemma gettoken_end st : okp st [] -> exists q e p, gettoken s (ps_pos st) = (0, q, e, p) /\ okp (set_pos p st) [].
Proof.
  intros [Hp Ht]. pose proof (gettoken_spec s Hs (ps_pos st) Hp) as Hg. destruct (gettoken s (ps_pos st)) as [[[ret q] e] p].
  destruct Hg as [Hb [(-> & _ & Hn)|(t' & _ & Hc)]]; [|congruence]. exists q, e, p. split; [done|]. split; [cbn; lia|done].
Qed.

(** [p] is [c] with the redirections [rs] around it. *)
Inductive wraps (cmds : list cmd) (c : nat) : list redir -> nat -> Prop :=
| wr_nil : wraps cmds c [] c
| wr_snoc rs p' p q e mode fd : wraps cmds c rs p' -> (p' < p)%nat -> cmds !! p = Some (REDIR p' q e mode fd) ->
    wraps cmds c (rs ++ [(q, e, mode, fd)]) p.

Lemma wraps_cons cmds c p q e mode fd rs p' : cmds !! p = Some (REDIR c q e mode fd) -> (c < p)%nat -> wraps cmds p rs p' ->
  wraps cmds c ((q, e, mode, fd) :: rs) p'.
Proof.
  intros Hp Hlt Hw. induction Hw as [|rs p1 p2 ???? Hw IH Hlt2 Hp2].
  - apply (wr_snoc _ _ [] c); [constructor|done|done].
  - rewrite app_comm_cons. by econstructor.
Qed.

Lemma wraps_app cmds c rs p rs' p' : wraps cmds c rs p -> wraps cmds p rs' p' -> wraps cmds c (rs ++ rs') p'.
Proof. intros Hw Hw'. induction Hw'; [by rewrite app_nil_r|]. rewrite app_assoc. by econstructor. Qed.

Lemma wraps_le cmds c rs p : wraps cmds c rs p -> (c <= p)%nat.
Proof. induction 1; lia. Qed.

(** Redirections are left alone when other commands change. *)
Lemma wraps_ext cmds cmds' c rs p : wraps cmds c rs p ->
  (forall i p' q e mode fd, (i <= p)%nat -> cmds !! i = Some (REDIR p' q e mode fd) -> cmds' !! i = cmds !! i) -> wraps cmds' c rs p.
Proof.
  intros Hw Hc. induction Hw as [|rs p1 p ???? Hw IH Hlt Hp]; [constructor|]. econstructor; [apply IH; intros; eapply Hc; [|done]; lia|done|].
  rewrite <- Hp. eapply Hc; [|exact Hp]. done.
Qed.

Lemma denotes_ext cmds cmds' t : forall p, denotes cmds p t -> (forall i, (i <= p)%nat -> cmds' !! i = cmds !! i) -> denotes cmds' p t.
Proof.
  assert (Hle : forall p p', (p' < p)%nat -> (forall i, (i <= p)%nat -> cmds' !! i = cmds !! i) -> forall i, (i <= p')%nat -> cmds' !! i = cmds !! i).
  { intros p p' Hlt Hc i Hi. apply Hc. lia. }
  induction t as [a|t IH q e m fd|t1 IH1 t2 IH2|t1 IH1 t2 IH2|t IH]; intros p Hd Hc; cbn [denotes] in *.
  - by rewrite Hc.
  - destruct Hd as (p' & ? & ? & ?). exists p'. rewrite Hc by lia. eauto.
  - destruct Hd as (p1 & p2 & ? & ? & ? & ? & ?). exists p1, p2. rewrite Hc by lia. split_and!; eauto.
  - destruct Hd as (p1 & p2 & ? & ? & ? & ? & ?). exists p1, p2. rewrite Hc by lia. split_and!; eauto.
  - destruct Hd as (p' & ? & ? & ?). exists p'. rewrite Hc by lia. eauto.
Qed.

Lemma denotes_wraps cmds c t rs p : denotes cmds c t -> wraps cmds c rs p -> denotes cmds p (wrap rs t).
Proof.
  intros Hd Hw. induction Hw as [|rs p1 p ???? Hw IH Hlt Hp]; [done|]. unfold wrap in *. rewrite foldl_app. cbn. eauto.
Qed.

(** *** Redirections *)

Definition REDIRS : list Z := str "<>".
Definition STOPS : list Z := str "|)&;".

Lemma redir_next k ts : next_in REDIRS (k :: ts) = bool_decide (is_Some (redir_of k)).
Proof.
  apply eq_true_iff_eq. rewrite bool_decide_eq_true. destruct k as [|c|]; cbn [next_in redir_of]; [by split; [|intros []]| |split; [by eauto|done]].
  unfold REDIRS. rewrite bool_decide_eq_true. cbn [str]. rewrite !elem_of_cons, elem_of_nil.
  destruct (Z.eqb_spec c (chr "<")); [by split; [eauto|auto]|]. destruct (Z.eqb_spec c (chr ">")); [by split; [eauto|auto]|].
  split; [tauto|by intros []].
Qed.

Lemma syms_redirs c : c ∈ REDIRS -> is_sym c = true.
Proof. unfold REDIRS. cbn [str]. rewrite !elem_of_cons, elem_of_nil. intros [->|[->|[]]]; done. Qed.

Lemma syms_stops c : c ∈ STOPS -> is_sym c = true.
Proof. unfold STOPS. cbn [str]. rewrite !elem_of_cons, elem_of_nil. intros Hc. repeat destruct Hc as [->|Hc]; done. Qed.

Lemma syms_one c x : is_sym x = true -> c ∈ [x] -> is_sym c = true.
Proof. by intros ? ->%list_elem_of_singleton. Qed.

Lemma redir_stop f c st ts : okp st ts -> next_in REDIRS ts = false ->
  exists p, parseredirs s (S f) c st = uret (c, set_pos p st) /\ okp (set_pos p st) ts.
Proof.
  intros Ho Hn. destruct (peek_step st ts REDIRS Ho syms_redirs) as (p & Hp & Ho'). exists p. cbn [parseredirs]. fold REDIRS. by rewrite Hp, Hn.
Qed.

Lemma tok_is_word ret q e t : tok_is ret q e t -> ret = chr "a" -> t = TWord q e.
Proof. destruct t as [|c|]; cbn; [by intros (_ & -> & ->)|by intros [-> Hc] ->|by intros ->]. Qed.

Lemma redir_turn f c st k ts mode fd : okp st (k :: ts) -> redir_of k = Some (mode, fd) ->
  match ts with
  | TWord q e :: ts' => exists st', parseredirs s (S f) c st = parseredirs s f (length (ps_cmds st)) st' /\ okp st' ts' /\
      ps_cmds st' = ps_cmds st ++ [REDIR c q e mode fd]
  | _ => fails (parseredirs s (S f) c st)
  end.
Proof.
  intros Ho Hk. destruct (peek_step st _ REDIRS Ho syms_redirs) as (p & Hp & Ho'). rewrite redir_next, Hk in Hp.
  rewrite bool_decide_true in Hp by eauto. destruct (gettoken_step _ _ _ Ho') as (ret & q0 & e0 & p1 & Hg & Ht & Ho1). cbn [set_pos ps_pos] in Hg.
  assert (Hnw : forall ret q e p, gettoken s p1 = (ret, q, e, p) -> ret <> chr "a" -> fails (parseredirs s (S f) c st)).
  { intros ret2 q e p2 Hg2 Hne. cbn [parseredirs]. fold REDIRS. rewrite Hp, Hg, Hg2. replace (ret2 =? chr "a") with false by lia. apply fails_panic. }
  destruct ts as [|t2 ts].
  { destruct (gettoken_end _ Ho1) as (q & e & p2 & Hg2 & _). by eapply Hnw. }
  destruct (gettoken_step _ _ _ Ho1) as (ret2 & q & e & p2 & Hg2 & Ht2 & Ho2). cbn [set_pos ps_pos] in Hg2.
  destruct t2 as [q' e'|c2|]; [|eapply Hnw; [done|]; intros ->; by apply tok_is_word in Ht2..].
  destruct Ht2 as (-> & -> & ->). exists (PS p2 (ps_cmds st ++ [REDIR c q e mode fd])). split; [|by split].
  cbn [parseredirs]. fold REDIRS. rewrite Hp, Hg, Hg2. cbn [negb Z.eqb]. rewrite Z.eqb_refl. cbn [negb].
  destruct k as [|ck|]; [done| |injection Hk as <- <-; cbn [tok_is] in Ht; by subst ret]. destruct Ht as [-> _]. cbn [redir_of] in Hk.
  destruct (ck =? chr "<"); [by injection Hk as <- <-|]. destruct (ck =? chr ">"); [by injection Hk as <- <-|done].
Qed.

(** [parseredirs] has read [rs] from [st] and [r] is left. *)
Definition redirected (m : U W (nat * pst)) (c : nat) (st : pst) (rs : list redir) (r : list tok) : Prop :=
  exists p st', m = uret (p, st') /\ okp st' r /\ wraps (ps_cmds st') c rs p /\ ps_cmds st `prefix_of` ps_cmds st' /\ (p < length (ps_cmds st'))%nat.

Lemma redirected_turn m c st st1 q e mode fd rs r : ps_cmds st1 = ps_cmds st ++ [REDIR c q e mode fd] -> (c < length (ps_cmds st))%nat ->
  redirected m (length (ps_cmds st)) st1 rs r -> redirected m c st ((q, e, mode, fd) :: rs) r.
Proof.
  intros E Hc (p & st' & Hm & Ho & Hw & Hp & Hl). exists p, st'. rewrite E in Hp. split_and!; [done..| |by eapply prefix_app_l|done].
  eapply wraps_cons; [|done|done]. eapply prefix_lookup_Some; [|done]. by rewrite lookup_app_r, Nat.sub_diag by lia.
Qed.

Lemma redirs_complete ts a rs : gitems ts a rs -> a = [] -> forall fuel c st r, okp st (ts ++ r) -> next_in REDIRS r = false ->
  (length (ts ++ r) < fuel)%nat -> (c < length (ps_cmds st))%nat -> redirected (parseredirs s fuel c st) c st rs r.
Proof.
  induction 1 as [| |k q e mode fd ts a rs Hk _ IH]; intros Ha fuel c st r Ho Hn Hf Hc; [|done|]; (destruct fuel as [|fuel]; [lia|]).
  - destruct (redir_stop fuel c st r Ho Hn) as (p & -> & Ho'). exists c, (set_pos p st). split_and!; [done..|constructor|done|done].
  - destruct (redir_turn fuel c st k (TWord q e :: ts ++ r) mode fd Ho Hk) as (st1 & -> & Ho1 & E1). eapply redirected_turn; [done|done|].
    apply IH; [done|done|done|cbn in Hf; lia|]. rewrite E1, length_app. cbn. lia.
Qed.

Lemma redirs_sound fuel : forall c st ts, okp st ts -> (length ts < fuel)%nat -> (c < length (ps_cmds st))%nat ->
  fails (parseredirs s fuel c st) \/
  exists ts1 rs r, ts = ts1 ++ r /\ gitems ts1 [] rs /\ next_in REDIRS r = false /\ redirected (parseredirs s fuel c st) c st rs r.
Proof.
  induction fuel as [|fuel IH]; intros c st ts Ho Hf Hc; [lia|]. destruct (next_in REDIRS ts) eqn:Hn.
  - destruct ts as [|k ts]; [done|]. rewrite redir_next in Hn. apply bool_decide_eq_true in Hn as [[mode fd] Hk].
    pose proof (redir_turn fuel c st k ts mode fd Ho Hk) as Ht. destruct ts as [|[q e| |] ts]; [by left| |by left..].
    destruct Ht as (st1 & -> & Ho1 & E1). assert (Hc1 : (length (ps_cmds st) < length (ps_cmds st1))%nat) by (rewrite E1, length_app; cbn; lia).
    destruct (IH (length (ps_cmds st)) st1 ts Ho1 ltac:(cbn in Hf; lia) Hc1) as [?|(ts1 & rs & r & -> & Hg & Hr & Hres)]; [by left|right].
    exists (k :: TWord q e :: ts1), ((q, e, mode, fd) :: rs), r. split_and!; [done|by constructor|done|by eapply redirected_turn].
  - right. exists [], [], ts. split_and!; [done|constructor|done|]. destruct (redir_stop fuel c st ts Ho Hn) as (p & -> & Ho').
    exists c, (set_pos p st). split_and!; [done..|constructor|done|done].
Qed.

(** *** Simple commands *)

(** [i] is a simple command with the arguments [a], and [ret] is it with [rs] around. *)
Definition simple (st : pst) (i : nat) (a : list (Z * Z)) (rs : list redir) (ret : nat) : Prop :=
  ps_cmds st !! i = Some (EXEC (map fst a) (map snd a)) /\ wraps (ps_cmds st) i rs ret /\ (ret < length (ps_cmds st))%nat.

(** The commands before [i] are as they were. *)
Definition kept_below (i : nat) (st st' : pst) : Prop := forall j, (j < i)%nat -> ps_cmds st' !! j = ps_cmds st !! j.

Lemma kept_prefix i st st' : ps_cmds st `prefix_of` ps_cmds st' -> (i <= length (ps_cmds st))%nat -> kept_below i st st'.
Proof.
  intros Hp Hi j Hj. destruct (lookup_lt_is_Some_2 (ps_cmds st) j ltac:(lia)) as [x Hx]. rewrite Hx. by eapply prefix_lookup_Some.
Qed.

Lemma simple_redirected m st i a rs ret rs' r : simple st i a rs ret -> redirected m ret st rs' r ->
  exists ret' st', m = uret (ret', st') /\ okp st' r /\ simple st' i a (rs ++ rs') ret' /\ kept_below i st st'.
Proof.
  intros (Hi & Hw & Hl) (p & st' & -> & Ho & Hw' & Hp & Hl'). exists p, st'. split; [done|]. split; [done|]. pose proof (lookup_lt_Some _ _ _ Hi) as Hil.
  split; [|apply kept_prefix; [done|lia]]. split_and!; [by eapply prefix_lookup_Some| |done]. eapply wraps_app; [|done].
  eapply wraps_ext; [done|]. intros j ????? _ Hj. rewrite Hj. by eapply prefix_lookup_Some.
Qed.

Lemma add_arg_simple st i a rs ret q e : simple st i a rs ret ->
  simple (add_arg i q e st) i (a ++ [(q, e)]) rs ret /\ kept_below i st (add_arg i q e st) /\ ps_pos (add_arg i q e st) = ps_pos st.
Proof.
  intros (Hi & Hw & Hl). unfold add_arg. rewrite Hi. pose proof (lookup_lt_Some _ _ _ Hi) as Hil. split_and!; [|intros j Hj; apply list_lookup_insert_ne; lia|done].
  split_and!.
  - cbn [set_cmd ps_cmds]. rewrite list_lookup_insert_eq by done. by rewrite !map_app.
  - eapply wraps_ext; [done|]. intros j ????? _ Hj. cbn. apply list_lookup_insert_ne. congruence.
  - cbn. by rewrite length_insert.
Qed.

Lemma args_stop f i ret argc st ts : okp st ts -> ts = [] \/ next_in STOPS ts = true ->
  exists p, parseargs s (S f) i ret argc st = uret (ret, set_pos p st) /\ okp (set_pos p st) ts.
Proof.
  intros Ho Hs'. destruct (peek_step st ts STOPS Ho syms_stops) as (p & Hp & Ho'). cbn [parseargs]. fold STOPS. rewrite Hp. destruct Hs' as [->|Hn].
  - cbn [next_in]. destruct (gettoken_end _ Ho') as (q & e & p2 & Hg & Ho2). cbn [set_pos ps_pos] in Hg. rewrite Hg. by exists p2.
  - rewrite Hn. by exists p.
Qed.

Lemma args_bad f i ret argc st t ts : okp st (t :: ts) -> next_in STOPS (t :: ts) = false -> (forall q e, t <> TWord q e) ->
  fails (parseargs s (S f) i ret argc st).
Proof.
  intros Ho Hn Hw. destruct (peek_step st _ STOPS Ho syms_stops) as (p & Hp & Ho'). cbn [parseargs]. fold STOPS. rewrite Hp, Hn.
  destruct (gettoken_step _ _ _ Ho') as (tk & q & e & p2 & Hg & Ht & Ho2). cbn [set_pos ps_pos] in Hg. rewrite Hg.
  assert (Hne : tk <> chr "a") by (intros E; by eapply Hw, tok_is_word). replace (tk =? chr "a") with false by lia.
  destruct (Z.eqb_spec tk 0) as [->|_]; [|apply fails_panic]. exfalso. destruct t as [|c|]; [by eapply Hw|by destruct Ht as [<- ?]|done].
Qed.

Lemma args_word f i ret st q e ts a rs : okp st (TWord q e :: ts) -> simple st i a rs ret ->
  exists st1, okp st1 ts /\ simple st1 i (a ++ [(q, e)]) rs ret /\ kept_below i st st1 /\
  parseargs s (S f) i ret (Z.of_nat (length a)) st =
    (if MAXARGS <=? Z.of_nat (length a) + 1 then panic (str "too many args")
     else r <- parseredirs s (redir_fuel s st1) ret st1 ;; let '(ret, st) := r in parseargs s f i ret (Z.of_nat (length (a ++ [(q, e)]))) st).
Proof.
  intros Ho Hsm. destruct (peek_step st _ STOPS Ho syms_stops) as (p & Hp & Ho').
  destruct (gettoken_step _ _ _ Ho') as (tk & q' & e' & p2 & Hg & (-> & -> & ->) & Ho2). cbn [set_pos ps_pos] in Hg.
  assert (Hsm' : simple (set_pos p2 st) i a rs ret) by done. destruct (add_arg_simple _ _ _ _ _ q' e' Hsm') as (Hs1 & Hk & Hpos).
  exists (add_arg i q' e' (set_pos p2 st)). split; [by split; rewrite Hpos; apply Ho2|]. split; [done|]. split; [done|].
  cbn [parseargs]. fold STOPS. rewrite Hp. cbn [next_in]. rewrite Hg. rewrite length_app, Nat2Z.inj_add. done.
Qed.

Definition parsed_args (m : U W (nat * pst)) (i : nat) (st : pst) (a : list (Z * Z)) (rs : list redir) (r : list tok) : Prop :=
  exists ret st', m = uret (ret, st') /\ okp st' r /\ simple st' i a rs ret /\ kept_below i st st'.

Lemma below_trans i st1 st2 st3 : kept_below i st1 st2 -> kept_below i st2 st3 -> kept_below i st1 st3.
Proof. intros H1 H2 j Hj. by rewrite H2, H1. Qed.

Lemma parsed_args_kept m i st st1 a rs r : kept_below i st st1 -> parsed_args m i st1 a rs r -> parsed_args m i st a rs r.
Proof. intros Hk (ret & st' & Hm & Ho & Hsm & Hk'). exists ret, st'. split_and!; try done. by eapply below_trans. Qed.

Lemma gitems_split ts a rs : gitems ts a rs -> exists ts1 rs1 ts2 rs2, ts = ts1 ++ ts2 /\ rs = rs1 ++ rs2 /\ gitems ts1 [] rs1 /\ gitems ts2 a rs2 /\
  match ts2 with [] => True | TWord _ _ :: _ => True | _ => False end.
Proof.
  induction 1 as [|q e ts a rs Hg IH|k q e mode fd ts a rs Hk Hg IH].
  - exists [], [], [], []. split_and!; try done; constructor.
  - exists [], [], (TWord q e :: ts), rs. split_and!; try done; by constructor.
  - destruct IH as (ts1 & rs1 & ts2 & rs2 & -> & -> & H1 & H2 & H3). exists (k :: TWord q e :: ts1), ((q, e, mode, fd) :: rs1), ts2, rs2.
    split_and!; try done. by constructor.
Qed.

Lemma gitems_app ts1 a1 rs1 ts2 a2 rs2 : gitems ts1 a1 rs1 -> gitems ts2 a2 rs2 -> gitems (ts1 ++ ts2) (a1 ++ a2) (rs1 ++ rs2).
Proof. induction 1; intros H2; cbn [app]; [done|constructor; auto..]. Qed.

Lemma next_redirs_stop r : r = [] \/ next_in STOPS r = true -> next_in REDIRS r = false.
Proof.
  intros [->|Hn]; [done|]. destruct r as [|[q e|c|] r]; [done..| |by vm_compute in Hn]. cbn [next_in] in *. apply bool_decide_eq_true in Hn. apply bool_decide_eq_false.
  unfold STOPS, REDIRS in *. cbn [str] in *. rewrite !elem_of_cons, elem_of_nil in *. intros Hr. repeat destruct Hn as [->|Hn]; vm_compute in Hr; intuition discriminate.
Qed.

Lemma args_complete f : forall ts a' rs' i ret st a rs r, gitems ts a' rs' -> match ts with [] => True | TWord _ _ :: _ => True | _ => False end ->
  okp st (ts ++ r) -> r = [] \/ next_in STOPS r = true -> simple st i a rs ret -> Z.of_nat (length (a ++ a')) < MAXARGS -> (length (ts ++ r) < f)%nat ->
  parsed_args (parseargs s f i ret (Z.of_nat (length a)) st) i st (a ++ a') (rs ++ rs') r.
Proof.
  induction f as [|f IH]; intros ts a' rs' i ret st a rs r Hg Hts Ho Hr Hsm Hlen Hf; [lia|]. destruct Hg as [|q e ts a' rs' Hg|]; [| |by destruct k].
  - destruct (args_stop f i ret (Z.of_nat (length a)) st r Ho Hr) as (p & -> & Ho'). rewrite !app_nil_r. by exists ret, (set_pos p st).
  - destruct (args_word f i ret st q e (ts ++ r) a rs Ho Hsm) as (st1 & Ho1 & Hs1 & Hk1 & ->). rewrite length_app in Hlen. cbn [length] in Hlen.
    replace (MAXARGS <=? Z.of_nat (length a) + 1) with false by lia. eapply parsed_args_kept; [exact Hk1|].
    destruct (gitems_split _ _ _ Hg) as (ts1 & rs1 & ts2 & rs2 & -> & -> & Hg1 & Hg2 & Hw). rewrite <- app_assoc in Ho1.
    assert (Hn : next_in REDIRS (ts2 ++ r) = false) by (destruct ts2 as [|[] ts2]; [by apply next_redirs_stop|done..]).
    pose proof (redirs_complete ts1 [] rs1 Hg1 eq_refl _ ret st1 _ Ho1 Hn (okp_fuel _ _ Ho1) (proj2 (proj2 Hs1))) as Hred.
    destruct (simple_redirected _ _ _ _ _ _ _ _ Hs1 Hred) as (ret' & st2 & -> & Ho2 & Hs2 & Hk2). rewrite ubind_ret_l. eapply parsed_args_kept; [exact Hk2|].
    assert (Ea : a ++ (q, e) :: a' = (a ++ [(q, e)]) ++ a') by (by rewrite <- app_assoc). rewrite Ea, app_assoc. apply (IH ts2); try done.
    + rewrite <- Ea, length_app. cbn. lia.
    + cbn in Hf. rewrite !length_app in *. lia.
Qed.

Lemma args_sound f : forall ts i ret st a rs, okp st ts -> simple st i a rs ret -> Z.of_nat (length a) < MAXARGS -> (length ts < f)%nat ->
  fails (parseargs s f i ret (Z.of_nat (length a)) st) \/
  exists ts1 a' rs' r, ts = ts1 ++ r /\ gitems ts1 a' rs' /\ Z.of_nat (length (a ++ a')) < MAXARGS /\
    parsed_args (parseargs s f i ret (Z.of_nat (length a)) st) i st (a ++ a') (rs ++ rs') r.
Proof.
  induction f as [|f IH]; intros ts i ret st a rs Ho Hsm Hlen Hf; [lia|].
  assert (Hstop : ts = [] \/ next_in STOPS ts = true -> exists ts1 a' rs' r, ts = ts1 ++ r /\ gitems ts1 a' rs' /\ Z.of_nat (length (a ++ a')) < MAXARGS /\
    parsed_args (parseargs s (S f) i ret (Z.of_nat (length a)) st) i st (a ++ a') (rs ++ rs') r).
  { intros Hr. exists [], [], [], ts. rewrite !app_nil_r. split_and!; [done|constructor|done|].
    destruct (args_stop f i ret (Z.of_nat (length a)) st ts Ho Hr) as (p & -> & Ho'). by exists ret, (set_pos p st). }
  destruct ts as [|t ts]; [right; auto|]. destruct (next_in STOPS (t :: ts)) eqn:Hn; [right; auto|]. clear Hstop.
  assert (Ht : (exists q e, t = TWord q e) \/ forall q e, t <> TWord q e) by (destruct t; [left; eauto|right; done..]).
  destruct Ht as [(q & e & ->)|Ht]; [|left; by eapply args_bad].
  destruct (args_word f i ret st q e ts a rs Ho Hsm) as (st1 & Ho1 & Hs1 & Hk1 & ->).
  destruct (Z.leb_spec MAXARGS (Z.of_nat (length a) + 1)) as [|Hlt]; [left; apply fails_panic|].
  destruct (redirs_sound _ ret st1 ts Ho1 (okp_fuel _ _ Ho1) (proj2 (proj2 Hs1))) as [Hfl|(ts1 & rs1 & r & -> & Hg1 & Hr & Hred)].
  { left. by apply fails_bind. }
  destruct (simple_redirected _ _ _ _ _ _ _ _ Hs1 Hred) as (ret' & st2 & -> & Ho2 & Hs2 & Hk2). rewrite ubind_ret_l.
  destruct (IH r i ret' st2 (a ++ [(q, e)]) (rs ++ rs1) Ho2 Hs2) as [Hfl|(ts2 & a' & rs' & r' & -> & Hg & Hl & Hp)].
  - rewrite length_app. cbn. lia.
  - cbn in Hf. rewrite length_app in Hf. lia.
  - by left.
  - right. exists (TWord q e :: ts1 ++ ts2), ((q, e) :: a'), (rs1 ++ rs'), r'. rewrite <- !app_assoc in *. cbn [app] in *. split_and!; try done.
    + by rewrite <- app_assoc.
    + constructor. apply (gitems_app ts1 [] rs1 ts2 a' rs' Hg1 Hg).
    + eapply parsed_args_kept; [exact Hk1|]. eapply parsed_args_kept; [exact Hk2|]. done.
Qed.

(** *** Lines *)

(** [m] has read the tree [t] from [st] and [r] is left. *)
Definition parsed (m : U W (nat * pst)) (st : pst) (t : tree) (r : list tok) : Prop :=
  exists p st', m = uret (p, st') /\ okp st' r /\ denotes (ps_cmds st') p t /\ (p < length (ps_cmds st'))%nat /\ ps_cmds st `prefix_of` ps_cmds st'.

Lemma denotes_prefix cmds cmds' p t : denotes cmds p t -> (p < length cmds)%nat -> cmds `prefix_of` cmds' -> denotes cmds' p t.
Proof.
  intros Hd Hp Hpre. eapply denotes_ext; [done|]. intros i Hi. destruct (lookup_lt_is_Some_2 cmds i ltac:(lia)) as [x Hx].
  rewrite Hx. by eapply prefix_lookup_Some.
Qed.

Lemma parsed_prefix m st st1 t r : ps_cmds st `prefix_of` ps_cmds st1 -> parsed m st1 t r -> parsed m st t r.
Proof. intros Hp (p & st' & Hm & Ho & Hd & Hl & Hp'). exists p, st'. split_and!; try done. by etrans. Qed.

(** The command allocated last. *)
Lemma parsed_new st st0 c t r : okp st r -> ps_cmds st0 `prefix_of` ps_cmds st -> denotes (ps_cmds st ++ [c]) (length (ps_cmds st)) t ->
  parsed (uret (new_cmd c st)) st0 t r.
Proof.
  intros Ho Hp Hd. exists (length (ps_cmds st)), (PS (ps_pos st) (ps_cmds st ++ [c])). split_and!; [done..|cbn; rewrite length_app; cbn; lia|].
  cbn. by apply prefix_app_r.
Qed.

Lemma next_one x ts : next_in [x] ts = true -> x <> chr ">" -> exists ts', ts = TSym x :: ts'.
Proof.
  destruct ts as [|[q e|c|] ts]; cbn [next_in]; rewrite ?bool_decide_eq_true, ?list_elem_of_singleton; [done..|intros ->; eauto|congruence].
Qed.

Lemma next_one_eq x ts : next_in [x] (TSym x :: ts) = true.
Proof. cbn. rewrite bool_decide_eq_true. set_solver. Qed.

Lemma one_str a : str (String a EmptyString) = [chr a].
Proof. done. Qed.

Lemma back_parsed n : forall fuel c st t r, okp st (replicate n (TSym (chr "&")) ++ r) -> next_in [chr "&"] r = false -> denotes (ps_cmds st) c t ->
  (c < length (ps_cmds st))%nat -> (n + length r < fuel)%nat -> parsed (parseback s fuel c st) st (Nat.iter n TBack t) r.
Proof.
  induction n as [|n IH]; intros fuel c st t r Ho Hn Hd Hc Hf; (destruct fuel as [|fuel]; [lia|]); cbn [parseback]; rewrite one_str;
    destruct (peek_step st _ [chr "&"] Ho (fun c => syms_one c (chr "&") eq_refl)) as (p & Hp & Ho'); rewrite Hp.
  - cbn [replicate app]. rewrite Hn. by exists c, (set_pos p st).
  - cbn [replicate app] in *. rewrite next_one_eq. destruct (gettoken_step _ _ _ Ho') as (tk & q & e & p2 & Hg & _ & Ho2). cbn [set_pos ps_pos] in Hg. rewrite Hg.
    cbn [backcmd new_cmd]. rewrite Nat.iter_succ_r. eapply (parsed_prefix _ _ (PS p2 (ps_cmds st ++ [BACK c]))); [by apply prefix_app_r|].
    cbn [set_pos ps_cmds ps_pos]. apply IH; cbn [ps_cmds]; [done|done| |rewrite length_app; cbn; lia|lia].
    cbn [denotes]. exists c. split_and!; [done|by rewrite lookup_app_r, Nat.sub_diag by lia|]. eapply denotes_prefix; [done|done|by apply prefix_app_r].
Qed.

Lemma backs_split ts : exists n r, ts = replicate n (TSym (chr "&")) ++ r /\ next_in [chr "&"] r = false.
Proof.
  induction ts as [|t ts (n & r & -> & Hn)]; [by exists 0%nat, []|]. destruct (next_in [chr "&"] (t :: replicate n (TSym (chr "&")) ++ r)) eqn:E.
  - apply next_one in E as [ts' [= -> _]]; [|done]. by exists (S n), r.
  - by exists 0%nat, (t :: replicate n (TSym (chr "&")) ++ r).
Qed.

Definition PIPE_ENDS : list Z := str ")&;".

Definition ends (l : list Z) (r : list tok) : Prop := r = [] \/ next_in l r = true.

Lemma ends_sub l l' r : forallb (fun c => bool_decide (c ∈ l')) l = true -> ends l r -> ends l' r.
Proof.
  rewrite forallb_forall. intros Hl [->|Hr]; [by left|]. right. assert (Hl' : forall c, c ∈ l -> c ∈ l').
  { intros c Hc%list_elem_of_In%Hl. by apply bool_decide_eq_true in Hc. }
  destruct r as [|[q e|c|] r]; cbn [next_in] in *; rewrite ?bool_decide_eq_true in *; auto.
Qed.

Lemma ends_not l l' r : ends l r -> forallb (fun c => negb (bool_decide (c ∈ l'))) (chr ">" :: l) = true -> next_in l' r = false.
Proof.
  intros [->|Hr] Hl; [done|]. cbn [forallb] in Hl. apply andb_true_iff in Hl as [Hg Hl]. rewrite forallb_forall in Hl.
  destruct r as [|[q e|c|] r]; cbn [next_in] in *; [done..| |by apply negb_true_iff in Hg]. rewrite bool_decide_eq_true in Hr.
  apply list_elem_of_In in Hr. apply Hl in Hr. by apply negb_true_iff in Hr.
Qed.

(** A peek for one symbol, which is read if it is there. *)
Lemma peek_one st ts a : okp st ts -> is_sym (chr a) = true -> chr a <> chr ">" ->
  (exists p, peek s (ps_pos st) (str (String a EmptyString)) = (false, p) /\ next_in [chr a] ts = false /\ okp (set_pos p st) ts) \/
  (exists p p' tk q e ts', peek s (ps_pos st) (str (String a EmptyString)) = (true, p) /\ ts = TSym (chr a) :: ts' /\ okp (set_pos p st) ts /\
   gettoken s p = (tk, q, e, p') /\ okp (set_pos p' st) ts').
Proof.
  intros Ho Ha Hne. rewrite one_str. destruct (peek_step st ts [chr a] Ho (fun c => syms_one c (chr a) Ha)) as (p & Hp & Ho').
  destruct (next_in [chr a] ts) eqn:Hn; [right|left; by exists p]. apply next_one in Hn as [ts' ->]; [|done].
  destruct (gettoken_step _ _ _ Ho') as (tk & q & e & p2 & Hg & _ & Ho2). by exists p, p2, tk, q, e, ts'.
Qed.

(** The rest of [parseline] after [parsepipe]. *)
Definition line_rest (f : nat) (c : nat) (st : pst) : U W (nat * pst) :=
  r <- parseback s (redir_fuel s st) c st ;;
  let '(cmd, st) := r in
  let '(b, p) := peek s (ps_pos st) (str ";") in
  if b then
    let '(_, _, _, p) := gettoken s p in
    r <- parseline s f (set_pos p st) ;;
    let '(cmd2, st) := r in
    uret (listcmd cmd cmd2 st)
  else uret (cmd, set_pos p st).

Lemma line_rest_spec f c st t n r : okp st (replicate n (TSym (chr "&")) ++ r) -> next_in [chr "&"] r = false -> denotes (ps_cmds st) c t ->
  (c < length (ps_cmds st))%nat ->
  (next_in [chr ";"] r = false /\ parsed (line_rest f c st) st (Nat.iter n TBack t) r) \/
  (exists r' c' st1, r = TSym (chr ";") :: r' /\ okp st1 r' /\ denotes (ps_cmds st1) c' (Nat.iter n TBack t) /\ (c' < length (ps_cmds st1))%nat /\
   ps_cmds st `prefix_of` ps_cmds st1 /\
   line_rest f c st = (r <- parseline s f st1 ;; let '(cmd2, st) := r in uret (listcmd c' cmd2 st))).
Proof.
  intros Ho Hn Hd Hc. pose proof (okp_fuel _ _ Ho) as Hf. rewrite length_app, length_replicate in Hf.
  destruct (back_parsed n (redir_fuel s st) c st t r Ho Hn Hd Hc Hf) as (c' & st' & E & Ho' & Hd' & Hc' & Hp'). unfold line_rest. rewrite E, ubind_ret_l.
  destruct (peek_one st' r ";" Ho' eq_refl ltac:(done)) as [(p & -> & Hn' & Ho1)|(p & p' & tk & q & e & r' & -> & -> & _ & Hg & Ho1)].
  - left. split; [done|]. by exists c', (set_pos p st').
  - right. exists r', c', (set_pos p' st'). split_and!; try done. by rewrite Hg.
Qed.

(** The rest of [parsepipe] after [parseexec]. *)
Definition pipe_rest (f : nat) (c : nat) (st : pst) : U W (nat * pst) :=
  let '(b, p) := peek s (ps_pos st) (str "|") in
  if b then
    let '(_, _, _, p) := gettoken s p in
    r <- parsepipe s f (set_pos p st) ;;
    let '(cmd2, st) := r in
    uret (pipecmd c cmd2 st)
  else uret (c, set_pos p st).

Lemma list_parsed m c st st0 t t2 r : denotes (ps_cmds st) c t -> (c < length (ps_cmds st))%nat -> ps_cmds st0 `prefix_of` ps_cmds st ->
  parsed m st t2 r -> parsed (r <- m ;; let '(cmd2, st) := r in uret (listcmd c cmd2 st)) st0 (TList t t2) r.
Proof.
  intros Hd Hc Hp (c2 & st2 & -> & Ho2 & Hd2 & Hc2 & Hp2). rewrite ubind_ret_l. apply parsed_new; [done|by etrans|]. cbn [denotes].
  assert (Hpre : ps_cmds st2 `prefix_of` ps_cmds st2 ++ [LIST c c2]) by by apply prefix_app_r. pose proof (prefix_length _ _ Hp2). exists c, c2. split_and!; [lia|lia| | |].
  - by rewrite lookup_app_r, Nat.sub_diag by lia.
  - eapply denotes_prefix; [done|done|by etrans].
  - by eapply denotes_prefix.
Qed.

Lemma pipe_parsed m c st st0 t t2 r : denotes (ps_cmds st) c t -> (c < length (ps_cmds st))%nat -> ps_cmds st0 `prefix_of` ps_cmds st ->
  parsed m st t2 r -> parsed (r <- m ;; let '(cmd2, st) := r in uret (pipecmd c cmd2 st)) st0 (TPipe t t2) r.
Proof.
  intros Hd Hc Hp (c2 & st2 & -> & Ho2 & Hd2 & Hc2 & Hp2). rewrite ubind_ret_l. apply parsed_new; [done|by etrans|]. cbn [denotes].
  assert (Hpre : ps_cmds st2 `prefix_of` ps_cmds st2 ++ [PIPE c c2]) by by apply prefix_app_r. pose proof (prefix_length _ _ Hp2). exists c, c2. split_and!; [lia|lia| | |].
  - by rewrite lookup_app_r, Nat.sub_diag by lia.
  - eapply denotes_prefix; [done|done|by etrans].
  - by eapply denotes_prefix.
Qed.

(** A simple command, from its first token. *)
Definition exec_rest (st : pst) : U W (nat * pst) :=
  let '(cmd, st) := execcmd st in
  r <- parseredirs s (redir_fuel s st) cmd st ;;
  let '(ret, st) := r in
  parseargs s (redir_fuel s st) cmd ret 0 st.

Lemma simple_parsed m st0 st a rs r : parsed_args m (length (ps_cmds st0)) st a rs r -> kept_below (length (ps_cmds st0)) st0 st ->
  parsed m st0 (wrap rs (TExec a)) r.
Proof.
  intros (ret & st' & -> & Ho & (Hi & Hw & Hl) & Hk) Hk0. exists ret, st'. split_and!; [done|done|by eapply denotes_wraps|done|].
  pose proof (lookup_lt_Some _ _ _ Hi) as Hlt. exists (drop (length (ps_cmds st0)) (ps_cmds st')).
  rewrite <- (take_drop (length (ps_cmds st0)) (ps_cmds st')) at 1. f_equal. apply list_eq. intros j. destruct (decide (j < length (ps_cmds st0))%nat) as [Hj|Hj].
  - rewrite lookup_take_lt by done. rewrite Hk by done. by apply Hk0.
  - rewrite lookup_take_ge, lookup_ge_None_2 by lia. done.
Qed.

Lemma exec_simple st : let st1 := (execcmd st).2 in
  simple st1 (length (ps_cmds st)) [] [] (length (ps_cmds st)) /\ kept_below (length (ps_cmds st)) st st1 /\ (forall ts, okp st ts -> okp st1 ts).
Proof.
  cbn. split_and!; [|by intros j Hj; cbn; rewrite lookup_app_l|done]. split_and!; cbn; [by rewrite lookup_app_r, Nat.sub_diag by lia|constructor|rewrite length_app; cbn; lia].
Qed.

Lemma exec_rest_complete st ts a rs r : gitems ts a rs -> okp st (ts ++ r) -> ends STOPS r -> Z.of_nat (length a) < MAXARGS ->
  parsed (exec_rest st) st (wrap rs (TExec a)) r.
Proof.
  intros Hg Ho Hr Hl. destruct (exec_simple st) as (Hs1 & Hk1 & Ho1). specialize (Ho1 _ Ho). unfold exec_rest.
  change (execcmd st) with (length (ps_cmds st), (execcmd st).2). cbv beta iota. set (st1 := (execcmd st).2) in *. set (i := length (ps_cmds st)) in *.
  destruct (gitems_split _ _ _ Hg) as (ts1 & rs1 & ts2 & rs2 & -> & -> & Hg1 & Hg2 & Hw). rewrite <- app_assoc in Ho1.
  assert (Hn : next_in REDIRS (ts2 ++ r) = false) by (destruct ts2 as [|[] ts2]; [by apply next_redirs_stop|done..]).
  pose proof (redirs_complete ts1 [] rs1 Hg1 eq_refl _ i st1 _ Ho1 Hn (okp_fuel _ _ Ho1) (proj2 (proj2 Hs1))) as Hred.
  destruct (simple_redirected _ _ _ _ _ _ _ _ Hs1 Hred) as (ret' & st2 & -> & Ho2 & Hs2 & Hk2). rewrite ubind_ret_l.
  eapply simple_parsed; [|eapply below_trans; [exact Hk1|exact Hk2]]. apply (args_complete _ ts2 a rs2 i ret' st2 [] rs1 r); try done. by apply okp_fuel.
Qed.

Lemma exec_rest_sound st ts : okp st ts -> fails (exec_rest st) \/ exists ts1 t r, ts = ts1 ++ r /\ gexec ts1 t /\ parsed (exec_rest st) st t r.
Proof.
  intros Ho. destruct (exec_simple st) as (Hs1 & Hk1 & Ho1). specialize (Ho1 _ Ho). unfold exec_rest.
  change (execcmd st) with (length (ps_cmds st), (execcmd st).2). cbv beta iota. set (st1 := (execcmd st).2) in *. set (i := length (ps_cmds st)) in *.
  destruct (redirs_sound _ i st1 ts Ho1 (okp_fuel _ _ Ho1) (proj2 (proj2 Hs1))) as [Hfl|(ts1 & rs1 & r & -> & Hg1 & Hr & Hred)]; [left; by apply fails_bind|].
  destruct (simple_redirected _ _ _ _ _ _ _ _ Hs1 Hred) as (ret' & st2 & -> & Ho2 & Hs2 & Hk2). rewrite ubind_ret_l.
  destruct (args_sound (redir_fuel s st2) r i ret' st2 [] rs1 Ho2 Hs2 ltac:(done) (okp_fuel _ _ Ho2)) as [Hfl|(ts2 & a & rs2 & r' & -> & Hg2 & Hl & Hp)]; [by left|right].
  exists (ts1 ++ ts2), (wrap (rs1 ++ rs2) (TExec a)), r'. split_and!; [by rewrite app_assoc|constructor; [apply (gitems_app _ [] _ _ a _ Hg1 Hg2)|done]|].
  eapply simple_parsed; [exact Hp|]. eapply below_trans; [exact Hk1|exact Hk2].
Qed.

(** The rest of [parseblock] after [parseline]. *)
Definition block_rest (c : nat) (st : pst) : U W (nat * pst) :=
  let '(b, p) := peek s (ps_pos st) (str ")") in
  if negb b then panic (str "syntax - missing )")
  else
    let '(_, _, _, p) := gettoken s p in
    let st := set_pos p st in
    parseredirs s (redir_fuel s st) c st.

Lemma exec_block f st ts : okp st (TSym (chr "(") :: ts) -> exists p, okp (set_pos p st) ts /\
  parseexec s (S (S f)) st = (r <- parseline s f (set_pos p st) ;; let '(cmd, st) := r in block_rest cmd st).
Proof.
  intros Ho. destruct (peek_one st _ "(" Ho eq_refl ltac:(done)) as [(p & _ & Hn & _)|(p & p' & tk & q & e & ts' & Hp & _ & Ho' & Hg & _)].
  { by rewrite next_one_eq in Hn. }
  destruct (peek_one (set_pos p st) _ "(" Ho' eq_refl ltac:(done)) as [(p1 & _ & Hn & _)|(p1 & p2 & tk1 & q1 & e1 & ts1 & Hp1 & [= <-] & _ & Hg1 & Ho1)].
  { by rewrite next_one_eq in Hn. }
  exists p2. split; [done|]. cbn [parseexec]. rewrite Hp. cbn [parseblock]. rewrite Hp1. cbn [negb]. by rewrite Hg1.
Qed.

Lemma exec_nonblock f st ts : okp st ts -> next_in [chr "("] ts = false -> exists p, okp (set_pos p st) ts /\ parseexec s (S f) st = exec_rest (set_pos p st).
Proof.
  intros Ho Hn. destruct (peek_one st _ "(" Ho eq_refl ltac:(done)) as [(p & Hp & _ & Ho')|(p & p' & tk & q & e & ts' & _ & -> & _)]; [|by rewrite next_one_eq in Hn].
  exists p. split; [done|]. cbn [parseexec]. by rewrite Hp.
Qed.

Lemma block_parsed c st st0 t rs r : redirected (block_rest c st) c st rs r -> denotes (ps_cmds st) c t -> (c < length (ps_cmds st))%nat ->
  ps_cmds st0 `prefix_of` ps_cmds st -> parsed (block_rest c st) st0 (wrap rs t) r.
Proof.
  intros (p & st' & -> & Ho & Hw & Hp & Hl) Hd Hc Hp0. exists p, st'. split_and!; [done|done| |done|by etrans]. eapply denotes_wraps; [|done].
  by eapply denotes_prefix.
Qed.

Lemma gexec_head ts a rs : gitems ts a rs -> forall r, ends STOPS r -> next_in [chr "("] (ts ++ r) = false.
Proof.
  intros Hg r Hr. destruct Hg as [|q e ts a rs Hg|k q e mode fd ts a rs Hk Hg]; [|done|].
  - eapply ends_not; [exact Hr|]. by vm_compute.
  - destruct k as [|c|]; [done| |done]. cbn [redir_of] in Hk. cbn. apply bool_decide_eq_false. intros ->%list_elem_of_singleton. by vm_compute in Hk.
Qed.

Lemma parseline_S f st : parseline s (S f) st = (r <- parsepipe s f st ;; let '(c, st) := r in line_rest f c st).
Proof. done. Qed.

Lemma parsepipe_S f st : parsepipe s (S f) st = (r <- parseexec s f st ;; let '(c, st) := r in pipe_rest f c st).
Proof. done. Qed.

(** *** A line that the grammar derives is parsed *)

Lemma grammar_complete :
  (forall ts t, gline ts t -> forall fuel st r, okp st (ts ++ r) -> ends [chr ")"] r -> (4 * length (ts ++ r) + 4 <= fuel)%nat -> parsed (parseline s fuel st) st t r) /\
  (forall ts t, gpipe ts t -> forall fuel st r, okp st (ts ++ r) -> ends PIPE_ENDS r -> (4 * length (ts ++ r) + 3 <= fuel)%nat -> parsed (parsepipe s fuel st) st t r) /\
  (forall ts t, gexec ts t -> forall fuel st r, okp st (ts ++ r) -> ends STOPS r -> (4 * length (ts ++ r) + 2 <= fuel)%nat -> parsed (parseexec s fuel st) st t r).
Proof.
  apply grammar_ind.
  - intros n ts t _ IH fuel st r Ho Hr Hf. destruct fuel as [|f]; [lia|]. rewrite <- app_assoc in Ho, Hf. rewrite parseline_S.
    assert (Hr2 : ends PIPE_ENDS (replicate n (TSym (chr "&")) ++ r)) by (destruct n; [by eapply ends_sub; [|exact Hr]|by right]).
    destruct (IH f st _ Ho Hr2 ltac:(lia)) as (c & st1 & -> & Ho1 & Hd & Hc & Hp). rewrite ubind_ret_l.
    eapply parsed_prefix; [exact Hp|].
    destruct (line_rest_spec f c st1 t n r Ho1 (ends_not _ [chr "&"] _ Hr eq_refl) Hd Hc) as [[_ ?]|(r' & c' & st2 & -> & _)]; [done|].
    by destruct Hr.
  - intros n ts t ts2 t2 _ IH _ IH2 fuel st r Ho Hr Hf. destruct fuel as [|f]; [lia|]. rewrite <- !app_assoc in Ho, Hf. cbn [app] in *. rewrite parseline_S.
    assert (Hr2 : ends PIPE_ENDS (replicate n (TSym (chr "&")) ++ TSym (chr ";") :: ts2 ++ r)) by (right; by destruct n).
    destruct (IH f st _ Ho Hr2 ltac:(lia)) as (c & st1 & -> & Ho1 & Hd & Hc & Hp). rewrite ubind_ret_l.
    destruct (line_rest_spec f c st1 t n _ Ho1 eq_refl Hd Hc) as [[Hn _]|(r' & c' & st2 & [= <-] & Ho2 & Hd2 & Hc2 & Hp2 & ->)]; [by rewrite next_one_eq in Hn|].
    apply (list_parsed _ _ st2); [done|done|by etrans|]. apply IH2; [done|done|]. rewrite !length_app in *. cbn [length] in Hf. rewrite length_app in Hf. lia.
  - intros ts t _ IH fuel st r Ho Hr Hf. destruct fuel as [|f]; [lia|]. rewrite parsepipe_S.
    destruct (IH f st r Ho (ends_sub PIPE_ENDS STOPS _ eq_refl Hr) ltac:(lia)) as (c & st1 & -> & Ho1 & Hd & Hc & Hp). rewrite ubind_ret_l. unfold pipe_rest.
    destruct (peek_one st1 r "|" Ho1 eq_refl ltac:(done)) as [(p & -> & _ & Ho2)|(p & p' & tk & q & e & r' & _ & -> & _)]; [by exists c, (set_pos p st1)|].
    by destruct Hr.
  - intros ts t ts2 t2 _ IH _ IH2 fuel st r Ho Hr Hf. destruct fuel as [|f]; [lia|]. rewrite <- app_assoc in Ho, Hf. cbn [app] in *. rewrite parsepipe_S.
    destruct (IH f st _ Ho ltac:(by right) ltac:(lia)) as (c & st1 & -> & Ho1 & Hd & Hc & Hp). rewrite ubind_ret_l. unfold pipe_rest.
    destruct (peek_one st1 _ "|" Ho1 eq_refl ltac:(done)) as [(p & _ & Hn & _)|(p & p' & tk & q & e & r' & -> & [= <-] & _ & -> & Ho2)]; [by rewrite next_one_eq in Hn|].
    apply (pipe_parsed _ _ (set_pos p' st1)); [done|done|done|]. apply IH2; [done|done|]. rewrite !length_app in *. cbn [length] in Hf. rewrite length_app in Hf. lia.
  - intros ts a rs Hg Hl fuel st r Ho Hr Hf. destruct fuel as [|f]; [lia|]. destruct (exec_nonblock f st _ Ho (gexec_head _ _ _ Hg r Hr)) as (p & Ho' & ->).
    eapply (parsed_prefix _ _ (set_pos p st)); [done|]. by eapply exec_rest_complete.
  - intros ts t ts2 rs _ IH Hg fuel st r Ho Hr Hf. destruct fuel as [|[|f]]; [lia..|]. cbn [app] in *. rewrite <- app_assoc in Ho, Hf. cbn [app] in *.
    destruct (exec_block f st _ Ho) as (p & Ho1 & ->).
    destruct (IH f (set_pos p st) (TSym (chr ")") :: ts2 ++ r) Ho1 ltac:(by right)) as (c & st1 & -> & Ho2 & Hd & Hc & Hp); [cbn [length] in Hf; lia|]. rewrite ubind_ret_l.
    apply (block_parsed _ st1); [|done|done|done]. unfold block_rest.
    destruct (peek_one st1 _ ")" Ho2 eq_refl ltac:(done)) as [(p1 & _ & Hn & _)|(p1 & p' & tk & q & e & r' & -> & [= <-] & _ & -> & Ho3)]; [by rewrite next_one_eq in Hn|].
    cbn [negb]. apply (redirs_complete ts2 [] rs Hg eq_refl _ c (set_pos p' st1) r Ho3); [by apply next_redirs_stop|by apply okp_fuel|done].
Qed.

(** *** What is parsed is in the grammar; anything else ends in [panic] *)

Lemma grammar_sound fuel :
  (forall st ts, okp st ts -> (4 * length ts + 4 <= fuel)%nat -> fails (parseline s fuel st) \/
     exists ts1 t r, ts = ts1 ++ r /\ gline ts1 t /\ parsed (parseline s fuel st) st t r) /\
  (forall st ts, okp st ts -> (4 * length ts + 3 <= fuel)%nat -> fails (parsepipe s fuel st) \/
     exists ts1 t r, ts = ts1 ++ r /\ gpipe ts1 t /\ parsed (parsepipe s fuel st) st t r) /\
  (forall st ts, okp st ts -> (4 * length ts + 2 <= fuel)%nat -> fails (parseexec s fuel st) \/
     exists ts1 t r, ts = ts1 ++ r /\ gexec ts1 t /\ parsed (parseexec s fuel st) st t r).
Proof.
  induction fuel as [fuel IH] using lt_wf_ind. destruct fuel as [|f]; [split_and!; intros; lia|]. split_and!; intros st ts Ho Hf.
  - rewrite parseline_S. destruct (IH f ltac:(lia)) as (IHl & IHp & _). destruct (IHp st ts Ho ltac:(lia)) as [Hfl|(ts1 & t & r & -> & Hg & c & st1 & -> & Ho1 & Hd & Hc & Hp)].
    { left. by apply fails_bind. }
    rewrite ubind_ret_l. destruct (backs_split r) as (n & r1 & -> & Hn).
    destruct (line_rest_spec f c st1 t n r1 Ho1 Hn Hd Hc) as [[_ Hres]|(r' & c' & st2 & -> & Ho2 & Hd2 & Hc2 & Hp2 & ->)].
    + right. eexists (ts1 ++ _), _, r1. split_and!; [by rewrite <- app_assoc|by apply gl_pipe|]. by eapply parsed_prefix.
    + destruct (IHl st2 r' Ho2) as [Hfl|(ts2 & t2 & r & -> & Hg2 & Hres)]; [rewrite !length_app in Hf; cbn in Hf; lia|left; by apply fails_bind|right].
      eexists _, _, r. split_and!; [|by apply (gl_list n); [exact Hg|exact Hg2]|apply (list_parsed _ _ st2); [done|done|by etrans|done]].
      by rewrite <- !app_assoc.
  - rewrite parsepipe_S. destruct (IH f ltac:(lia)) as (_ & IHp & IHe). destruct (IHe st ts Ho ltac:(lia)) as [Hfl|(ts1 & t & r & -> & Hg & c & st1 & -> & Ho1 & Hd & Hc & Hp)].
    { left. by apply fails_bind. }
    rewrite ubind_ret_l. unfold pipe_rest. destruct (peek_one st1 r "|" Ho1 eq_refl ltac:(done)) as [(p & -> & _ & Ho2)|(p & p' & tk & q & e & r' & -> & -> & _ & -> & Ho2)].
    + right. exists ts1, t, r. split_and!; [done|by constructor|]. by exists c, (set_pos p st1).
    + destruct (IHp (set_pos p' st1) r' Ho2) as [Hfl|(ts2 & t2 & r & -> & Hg2 & Hres)]; [rewrite length_app in Hf; cbn in Hf; lia|left; by apply fails_bind|right].
      eexists _, _, r. split_and!; [|by apply gp_pipe; [exact Hg|exact Hg2]|by apply (pipe_parsed _ _ (set_pos p' st1))]. by rewrite <- app_assoc.
  - destruct (next_in [chr "("] ts) eqn:Hn.
    + apply next_one in Hn as [ts' ->]; [|done]. destruct f as [|f]; [cbn in Hf; lia|]. destruct (exec_block f st ts' Ho) as (p & Ho1 & ->). cbn [length] in Hf.
      destruct (IH f ltac:(lia)) as (IHl & _). destruct (IHl (set_pos p st) ts' Ho1 ltac:(lia)) as [Hfl|(ts1 & t & r & -> & Hg & c & st1 & -> & Ho2 & Hd & Hc & Hp)].
      { left. by apply fails_bind. }
      rewrite ubind_ret_l. pose proof (peek_one st1 r ")" Ho2 eq_refl ltac:(done)) as [(p1 & Hpk & _)|(p1 & p' & tk & q & e & r' & Hpk & -> & _ & Hgt & Ho3)].
      { left. unfold block_rest. rewrite Hpk. apply fails_panic. }
      assert (Eb : block_rest c st1 = parseredirs s (redir_fuel s (set_pos p' st1)) c (set_pos p' st1)) by (unfold block_rest; by rewrite Hpk, Hgt).
      destruct (redirs_sound _ c (set_pos p' st1) r' Ho3 (okp_fuel _ _ Ho3) Hc) as [Hfl|(ts2 & rs & r & -> & Hgi & _ & Hred)]; [left; by rewrite Eb|right].
      eexists _, _, r. split_and!; [|by apply ge_block; [exact Hg|exact Hgi]|]; [by cbn; rewrite <- app_assoc|]. apply (block_parsed _ st1); [|done|done|done]. by rewrite Eb.
    + destruct (exec_nonblock f st ts Ho Hn) as (p & Ho' & ->). destruct (exec_rest_sound _ _ Ho') as [?|(ts1 & t & r & -> & Hg & Hp)]; [by left|right]. by exists ts1, t, r.
Qed.
End parser.
