(* ===== verification/ShRun.v ===== *)
(** * From a command line to its end

    [nulterminate] turns the words of a parsed line into C strings in place; with the
    parser of ShSpec.v this gives what [parsecmd] returns for every line.  [runcmd] is
    shown never to return. *)

From S2P Require Import Prelude Bytes Fs Sysfile Printf User Sh ShSpec.

(** ** Words *)

(** The words a tree names are words of the line. *)
Lemma gitems_words ts a rs : gitems ts a rs -> (forall q e, (q, e) ∈ a -> TWord q e ∈ ts) /\ (forall q e m fd, (q, e, m, fd) ∈ rs -> TWord q e ∈ ts).
Proof.
  induction 1 as [|q e ts a rs _ [H1 H2]|k q e m fd ts a rs _ _ [H1 H2]]; (split; [intros q' e'|intros q' e' m' fd']); rewrite ?elem_of_cons, ?elem_of_nil.
  - done.
  - done.
  - intros [[= -> ->]|?]; [by left|right; auto].
  - intros ?. right. eauto.
  - intros ?. right. right. auto.
  - intros [[= -> -> -> ->]|?]; [right; by left|right; right; eauto].
Qed.

Lemma words_wrap rs : forall t, words (wrap rs t) = words t ++ map (fun '(q, e, _, _) => (q, e)) rs.
Proof.
  induction rs as [|[[[q e] m] fd] rs IH]; intros t; cbn; [by rewrite app_nil_r|]. unfold wrap in IH. rewrite IH. cbn. by rewrite <- app_assoc.
Qed.

Lemma words_back n t : words (Nat.iter n TBack t) = words t.
Proof. induction n as [|n IH]; [done|exact IH]. Qed.

Lemma grammar_words :
  (forall ts t, gline ts t -> forall q e, (q, e) ∈ words t -> TWord q e ∈ ts) /\
  (forall ts t, gpipe ts t -> forall q e, (q, e) ∈ words t -> TWord q e ∈ ts) /\
  (forall ts t, gexec ts t -> forall q e, (q, e) ∈ words t -> TWord q e ∈ ts).
Proof.
  apply grammar_ind; intros; cbn [words] in *; rewrite ?words_back, ?words_wrap in *; repeat rewrite ?elem_of_app, ?elem_of_cons in *.
  - auto.
  - naive_solver.
  - auto.
  - naive_solver.
  - destruct (gitems_words _ _ _ g) as [H1 H2]. destruct H as [?|H]; [by apply H1|]. apply list_elem_of_fmap in H as ([[[q' e'] m] fd] & [= -> ->] & Hin). eauto.
  - destruct (gitems_words _ _ _ g0) as [_ H2]. destruct H0 as [?|Hin]; [by auto|]. apply list_elem_of_fmap in Hin as ([[[q' e'] m] fd] & [= -> ->] & Hin).
    right. right. right. eauto.
Qed.

(** A word of the line: it begins and ends where it should. *)
Definition is_word (s : list Z) (q e : Z) : Prop :=
  0 <= q < e /\ e <= es s /\ (forall x, q <= x < e -> is_ws (nthZ 0 s x) = false /\ is_sym (nthZ 0 s x) = false) /\
  (e < es s -> is_ws (nthZ 0 s e) = true \/ is_sym (nthZ 0 s e) = true).

Lemma lex_words s n : forall p cur, (n = Z.to_nat (es s - p))%nat -> 0 <= p <= es s ->
  (forall q, cur = Some q -> 0 <= q < p /\ forall x, q <= x < p -> is_ws (nthZ 0 s x) = false /\ is_sym (nthZ 0 s x) = false) ->
  forall q e, TWord q e ∈ lex (drop (Z.to_nat p) s) p cur -> is_word s q e.
Proof.
  induction n as [n IH] using lt_wf_ind. intros p cur Hn Hp Hcur q e.
  assert (Hend : (p < es s -> is_ws (nthZ 0 s p) = true \/ is_sym (nthZ 0 s p) = true) -> TWord q e ∈ word_end cur p -> is_word s q e).
  { intros He. destruct cur as [q0|]; cbn [word_end]; [|by intros ?%not_elem_of_nil]. intros [= -> ->]%list_elem_of_singleton.
    destruct (Hcur q0 eq_refl). by split_and!; try lia. }
  destruct (decide (p = es s)) as [->|Hne].
  { rewrite drop_ge by (unfold es, strlen; lia). cbn [lex]. apply Hend. lia. }
  rewrite drop_at by lia. cbn [lex]. assert (Hrec : forall p', p < p' <= es s -> TWord q e ∈ lex (drop (Z.to_nat p') s) p' None -> is_word s q e).
  { intros p' Hp'. eapply (IH (Z.to_nat (es s - p'))); [lia|done|lia|done]. }
  destruct (is_ws (nthZ 0 s p)) eqn:E1; [rewrite elem_of_app; intros [?|?]; [by apply Hend; [left|]|by apply (Hrec (p + 1)); [lia|]]|].
  destruct (is_sym (nthZ 0 s p)) eqn:E2.
  - rewrite elem_of_app. intros [?|Hin]; [by apply Hend; [right|]|]. destruct (decide (p + 1 = es s)) as [He|He].
    { rewrite drop_ge in Hin by (unfold es, strlen in *; lia). by apply list_elem_of_singleton in Hin. }
    rewrite (drop_at s (p + 1)) in Hin by lia. destruct ((nthZ 0 s p =? chr ">") && (nthZ 0 s (p + 1) =? chr ">")).
    + apply elem_of_cons in Hin as [?|Hin]; [done|]. replace (p + 1 + 1) with (p + 2) in Hin by lia. apply (Hrec (p + 2)); [lia|done].
    + apply elem_of_cons in Hin as [?|Hin]; [done|]. rewrite <- drop_at in Hin by lia. apply (Hrec (p + 1)); [lia|done].
  - eapply (IH (Z.to_nat (es s - (p + 1)))); [lia|done|lia|]. intros q0 [= <-]. destruct cur as [q1|]; cbn [default].
    + destruct (Hcur q1 eq_refl) as [? Hx]. split; [cbn; lia|]. intros x Hx'. cbn in Hx'. destruct (decide (x = p)) as [->|]; [done|]. apply Hx. lia.
    + cbn. split; [lia|]. intros x Hx. by replace x with p by lia.
Qed.

Lemma tokens_words s q e : TWord q e ∈ tokens s -> is_word s q e.
Proof. intros Hin. eapply (lex_words s _ 0 None eq_refl); [unfold es, strlen; lia|done|done]. Qed.

(** ** nulterminate *)

Definition zero_ends (ws : list (Z * Z)) (buf : list Z) : list Z := foldl (fun buf x => setZ buf (snd x) 0) buf ws.

Lemma nulterminate_spec {W} `{Sys W} cmds t : forall p buf fuel, denotes cmds p t -> (p < fuel)%nat ->
  nulterminate (W := W) fuel cmds p buf = uret (zero_ends (words t) buf).
Proof.
  induction t as [a|t IH q e m fd|t1 IH1 t2 IH2|t1 IH1 t2 IH2|t IH]; intros p buf fuel Hd Hf; (destruct fuel as [|fuel]; [lia|]); cbn [denotes words nulterminate] in *.
  - rewrite Hd, length_map, take_ge by (rewrite length_map; lia). f_equal. unfold zero_ends. clear Hd. revert buf. induction a as [|x a IHa]; intros buf; [done|apply IHa].
  - destruct Hd as (p' & Hlt & -> & Hd). rewrite (IH p') by (done || lia). unfold zero_ends. rewrite foldl_app. done.
  - destruct Hd as (p1 & p2 & Hl1 & Hl2 & -> & Hd1 & Hd2). rewrite (IH1 p1) by (done || lia). rewrite ubind_ret_l, (IH2 p2) by (done || lia).
    unfold zero_ends. by rewrite foldl_app.
  - destruct Hd as (p1 & p2 & Hl1 & Hl2 & -> & Hd1 & Hd2). rewrite (IH1 p1) by (done || lia). rewrite ubind_ret_l, (IH2 p2) by (done || lia).
    unfold zero_ends. by rewrite foldl_app.
  - destruct Hd as (p' & Hlt & -> & Hd). by apply IH; [|lia].
Qed.

Lemma zero_ends_at ws : forall buf x, 0 <= x -> (forall q e, (q, e) ∈ ws -> 0 <= e < Z.of_nat (length buf)) ->
  nthZ 0 (zero_ends ws buf) x = if bool_decide (x ∈ map snd ws) then 0 else nthZ 0 buf x.
Proof.
  induction ws as [|[q e] ws IH]; intros buf x Hx Hb; cbn [zero_ends foldl map]; [done|]. unfold zero_ends in IH. cbn [snd].
  pose proof (Hb q e ltac:(by left)) as He. rewrite IH; [|done|intros q' e' Hin; rewrite length_setZ; apply (Hb q' e'); by right].
  destruct (decide (x ∈ map snd ws)) as [Hin|Hni]; [rewrite !bool_decide_true by set_solver; done|]. rewrite (bool_decide_false (x ∈ map snd ws)) by done.
  destruct (decide (x = e)) as [->|Hne]; [rewrite bool_decide_true by set_solver; by apply nthZ_setZ_eq|].
  rewrite bool_decide_false by set_solver. apply nthZ_setZ_ne; lia.
Qed.

Lemma cstr_at n s b : forall q, 0 <= q -> (forall x, q <= x < q + Z.of_nat n -> x < es s /\ nthZ 0 b x = nthZ 0 s x /\ nthZ 0 s x <> 0) ->
  nthZ 0 b (q + Z.of_nat n) = 0 -> string_at b q = take n (drop (Z.to_nat q) s).
Proof.
  unfold string_at. assert (Hdrop : forall q, 0 <= q -> drop (Z.to_nat q) b = [] \/ drop (Z.to_nat q) b = nthZ 0 b q :: drop (Z.to_nat (q + 1)) b).
  { intros q Hq. destruct (Z.lt_ge_cases q (es b)) as [Hlt|Hge]; [right; by apply drop_at|left; apply drop_ge; unfold es, strlen in *; lia]. }
  induction n as [|n IH]; intros q Hq Hx H0.
  - rewrite Z.add_0_r in H0. rewrite take_0. destruct (Hdrop q Hq) as [->| ->]; [done|]. cbn [cstr]. by rewrite H0.
  - destruct (Hx q ltac:(lia)) as (Hlt & Hb & Hne). rewrite (drop_at s q) by lia. cbn [take]. destruct (Hdrop q Hq) as [E|E].
    + exfalso. apply Hne. rewrite <- Hb. unfold nthZ. apply nth_overflow. apply (f_equal length) in E. rewrite length_drop in E. cbn in E. lia.
    + rewrite E. cbn [cstr]. rewrite Hb, (proj2 (Z.eqb_neq _ _) Hne). f_equal. apply IH; [lia| |].
      * intros x Hx'. apply Hx. lia.
      * by replace (q + 1 + Z.of_nat n) with (q + Z.of_nat (S n)) by lia.
Qed.

Lemma cstr_split buf : 0 ∈ buf -> exists rest, buf = cstr buf ++ 0 :: rest.
Proof.
  induction buf as [|c buf IH]; [by intros ?%not_elem_of_nil|]. cbn [cstr]. destruct (Z.eqb_spec c 0) as [->|Hne]; [by exists buf|].
  intros [?|Hin]%elem_of_cons; [done|]. destruct (IH Hin) as [rest E]. exists rest. cbn. by rewrite <- E.
Qed.

Lemma cstr_nonzero buf : 0 ∉ cstr buf.
Proof.
  induction buf as [|c buf IH]; cbn [cstr]; [apply not_elem_of_nil|]. destruct (Z.eqb_spec c 0); [apply not_elem_of_nil|]. by apply not_elem_of_cons.
Qed.

(** After [nulterminate] every word is a C string. *)
Lemma words_terminated buf ws q e : 0 ∈ buf -> (forall q e, (q, e) ∈ ws -> is_word (cstr buf) q e) -> (q, e) ∈ ws ->
  string_at (zero_ends ws buf) q = slice (cstr buf) q (e - q).
Proof.
  intros H0 Hw Hin. pose proof (cstr_nonzero buf) as Hs. destruct (cstr_split buf H0) as [rest Eb]. set (s := cstr buf) in *.
  destruct (Hw q e Hin) as (Hqe & Hes & Hin' & _). assert (Hlen : es s < Z.of_nat (length buf)) by (rewrite Eb, length_app; unfold es, strlen; cbn; lia).
  assert (Hb : forall q e, (q, e) ∈ ws -> 0 <= e < Z.of_nat (length buf)) by (intros q' e' Hi; destruct (Hw q' e' Hi) as (? & ? & _); lia).
  apply cstr_at; [lia| |].
  - intros x Hx. split; [lia|]. split; [|apply at_nonzero; [done|lia]]. rewrite zero_ends_at by (done || lia). rewrite bool_decide_false.
    + rewrite Eb. unfold nthZ. apply app_nth1. unfold es, strlen in *. lia.
    + intros ([q' e'] & -> & Hi)%list_elem_of_fmap. cbn [snd] in *. destruct (Hw q' e' Hi) as (_ & _ & _ & He). destruct (Hin' e' ltac:(lia)) as [Hn1 Hn2].
      destruct (He ltac:(lia)); congruence.
  - replace (q + Z.of_nat (Z.to_nat (e - q))) with e by lia. rewrite zero_ends_at by (done || lia). rewrite bool_decide_true; [done|].
    apply list_elem_of_fmap. by exists (q, e).
Qed.

(** ** How programs end *)

Section ending.
Context {W : Type} `{Sys W}.

(** It returns, whatever the kernel answers. *)
Definition always_val {A} (m : U W A) : Prop := forall w, exists a w', m w = (Val a, w').

(** It ends in [exit] or is replaced by [exec]. *)
Definition stops {A} (m : U W A) : Prop := forall w, exists w', (exists n, m w = (Exit n, w')) \/ (exists p a, m w = (Execed p a, w')).

Lemma val_ret {A} (a : A) : always_val (uret a).
Proof. intros w. by exists a, w. Qed.

Lemma val_call {A} (f : W -> A * W) : always_val (call f).
Proof. intros w. unfold call. destruct (f w) as [a w']. by exists a, w'. Qed.

Lemma val_bind {A B} (m : U W A) (k : A -> U W B) : always_val m -> (forall a, always_val (k a)) -> always_val (ubind m k).
Proof. intros Hm Hk w. unfold ubind. destruct (Hm w) as (a & w' & ->). apply Hk. Qed.

Lemma val_putc fd c : always_val (putc fd c).
Proof. apply val_bind; [apply val_call|]. intros a. apply val_ret. Qed.

Lemma val_puts fd l : always_val (puts fd l).
Proof. induction l as [|c l IH]; [apply val_ret|]. apply val_bind; [apply val_putc|]. intros _. exact IH. Qed.

Lemma val_vprintf fd fmt : forall ap pct, uformatted fmt ap pct <> None -> always_val (vprintf fd fmt ap pct).
Proof.
  assert (Hm : forall (l : list Z) o, app l <$> o <> None -> o <> None) by (by intros l []).
  induction fmt as [|c fmt IH]; intros ap pct; cbn [uformatted vprintf]; [intros _; apply val_ret|].
  destruct pct; cbn [negb].
  2: { destruct (c =? chr "%"); [by apply IH|]. intros Hf. apply val_bind; [apply val_putc|]. intros _. by apply IH, (Hm [c]). }
  assert (Hb : forall (m : U W unit) l ap, always_val m -> app l <$> uformatted fmt ap false <> None -> always_val (m ;; vprintf fd fmt ap false)).
  { intros m l ap' Hv Hf%Hm. apply val_bind; [done|]. intros _. by apply IH. }
  repeat match goal with |- context [c =? ?x] => destruct (c =? x) end.
  1-6: destruct ap as [|[x|s] ap]; try done; apply Hb; try apply val_puts; try apply val_putc.
  - unfold uprintptr. do 2 (apply val_bind; [apply val_putc|intros _]). apply val_puts.
  - apply Hb, val_putc.
  - intros Hf%Hm. do 2 (apply val_bind; [apply val_putc|intros _]). by apply IH.
Qed.

Lemma val_fprintf fd fmt ap : uformatted fmt ap false <> None -> always_val (fprintf fd fmt ap).
Proof. apply val_vprintf. Qed.

Lemma panic_exits {A} msg w : exists w', (panic msg : U W A) w = (Exit 1, w').
Proof.
  unfold panic, ubind. destruct (val_fprintf 2 (str "%s" ++ [10]) [AStr (Some msg)] ltac:(done) w) as (a & w' & ->). by exists w'.
Qed.

Lemma stops_exit {A} n : stops (exit n : U W A).
Proof. intros w. exists w. left. by exists n. Qed.

Lemma stops_panic {A} msg : stops (panic msg : U W A).
Proof. intros w. destruct (panic_exits (A := A) msg w) as [w' E]. exists w'. left. by exists 1. Qed.

Lemma stops_bind {A B} (m : U W A) (k : A -> U W B) : stops m -> stops (ubind m k).
Proof. intros Hm w. unfold ubind. destruct (Hm w) as (w' & [(n & ->)|(p & a & ->)]); exists w'; eauto. Qed.

Lemma stops_val {A B} (m : U W A) (k : A -> U W B) : always_val m -> (forall a, stops (k a)) -> stops (ubind m k).
Proof. intros Hm Hk w. unfold ubind. destruct (Hm w) as (a & w' & ->). apply Hk. Qed.

Lemma stops_fork1 {A} (k : Z -> U W A) : (forall pid, stops (k pid)) -> stops (ubind fork1 k).
Proof.
  intros Hk w. unfold fork1, ubind. destruct (val_call os_fork w) as (pid & w' & E). unfold fork. rewrite E. destruct (pid =? -1); [|apply Hk].
  destruct (panic_exits (A := Z) (str "fork") w') as [w2 ->]. exists w2. eauto.
Qed.

(** A child that does not return. *)
Lemma stops_child {A} (b : bool) (m : U W unit) (k : U W A) : stops m -> stops k -> stops ((if b then m else uret tt) ;; k).
Proof. intros Hm Hk. destruct b; [by apply stops_bind|]. apply stops_val; [apply val_ret|done]. Qed.

Lemma stops_exec {A} path argv (k : unit -> U W A) : stops (k tt) -> stops (ubind (exec path argv) k).
Proof. intros Hk w. unfold exec, ubind. destruct (os_exec path argv w) as [[] w']; [exists w'; eauto|apply Hk]. Qed.

Lemma runcmd_stops cmds buf t : forall p fuel, denotes cmds p t -> (p < fuel)%nat -> stops (runcmd fuel cmds buf p).
Proof.
  induction t as [a|t IH q e m fd|t1 IH1 t2 IH2|t1 IH1 t2 IH2|t IH]; intros p fuel Hd Hf; (destruct fuel as [|fuel]; [lia|]); cbn [denotes runcmd] in *.
  - rewrite Hd. destruct (map (string_at buf) (map fst a)) as [|a0 args]; [apply stops_exit|]. apply stops_exec.
    apply stops_val; [by apply val_fprintf|intros _; apply stops_exit].
  - destruct Hd as (p' & Hlt & -> & Hd). apply stops_val; [apply val_call|intros _]. apply stops_val; [apply val_call|intros r].
    destruct (r <? 0); [apply stops_val; [by apply val_fprintf|intros _; apply stops_exit]|]. by apply IH; [|lia].
  - destruct Hd as (p1 & p2 & Hl1 & Hl2 & -> & Hd1 & Hd2). apply stops_val; [apply val_call|intros [[p0 q0]|]]; [|apply stops_panic].
    apply stops_fork1. intros pid. apply stops_child; [do 4 (apply stops_val; [apply val_call|intros _]); by apply IH1; [|lia]|].
    apply stops_fork1. intros pid2. apply stops_child; [do 4 (apply stops_val; [apply val_call|intros _]); by apply IH2; [|lia]|].
    do 4 (apply stops_val; [apply val_call|intros _]). apply stops_exit.
  - destruct Hd as (p1 & p2 & Hl1 & Hl2 & -> & Hd1 & Hd2). apply stops_fork1. intros pid. apply stops_child; [by apply IH1; [|lia]|].
    apply stops_val; [apply val_call|intros _]. by apply IH2; [|lia].
  - destruct Hd as (p' & Hlt & -> & Hd). apply stops_fork1. intros pid. apply stops_child; [by apply IH; [|lia]|]. apply stops_exit.
Qed.

(** ** A command line *)

Lemma fails_exits {A} (m : U W A) : fails m -> forall w, exists w', m w = (Exit 1, w').
Proof. intros [msg Hm] w. rewrite Hm. apply panic_exits. Qed.

Lemma exits_bind {A B} (m : U W A) (k : A -> U W B) : (forall w, exists w', m w = (Exit 1, w')) -> forall w, exists w', ubind m k w = (Exit 1, w').
Proof. intros Hm w. unfold ubind. destruct (Hm w) as [w' ->]. eauto. Qed.

Lemma okp_start s : okp s (PS 0 []) (tokens s).
Proof. split; [cbn; unfold es, strlen; lia|done]. Qed.

Lemma peek_none s st : 0 ∉ s -> okp s st [] -> (peek s (ps_pos st) []).2 = es s.
Proof.
  intros Hs [Hp Ht]. destruct (peek_spec s Hs (ps_pos st) [] Hp) as (_ & Hb & Ht'); [by intros c ?%not_elem_of_nil|]. rewrite Ht in Ht'. unfold peek in *. cbn [snd] in *.
  destruct (skip_spec s (ps_pos st) Hp) as (_ & _ & Hws). set (p := skip s (ps_pos st)) in *. destruct (decide (p = es s)) as [|Hne]; [done|]. exfalso.
  specialize (Hws ltac:(lia)). unfold toks in Ht'. rewrite drop_at in Ht' by lia. cbn [lex] in Ht'. rewrite Hws in Ht'.
  destruct (is_sym (nthZ 0 s p)); [by destruct (drop _ s); [|destruct (_ && _)]|].
  pose proof (skip_word_spec s (Z.to_nat (es s - (p + 1))) (p + 1) p ltac:(lia) ltac:(lia)) as (_ & Hl & _).
  change (default p None) with p in Ht'. by rewrite Hl in Ht'.
Qed.

Lemma peek_some s st ts : 0 ∉ s -> okp s st ts -> ts <> [] -> (peek s (ps_pos st) []).2 <> es s.
Proof.
  intros Hs [Hp Ht] Hne E. destruct (peek_spec s Hs (ps_pos st) [] Hp) as (_ & Hb & Ht'); [by intros c ?%not_elem_of_nil|]. apply Hne.
  rewrite <- Ht, <- Ht', E. unfold toks. by rewrite drop_ge by (unfold es, strlen; lia).
Qed.

(** [parsecmd] after [parseline]. *)
Definition finish (buf : list Z) (c : nat) (st : pst) : U W (nat * list cmd * list Z) :=
  let s := cstr buf in
  let '(_, p) := peek s (ps_pos st) [] in
  if negb (p =? es s) then
    fprintf 2 (str "leftovers: %s" ++ [10]) [AStr (Some (drop (Z.to_nat p) s))] ;;
    panic (str "syntax")
  else
    buf <- nulterminate (length (ps_cmds st)) (ps_cmds st) c buf ;;
    uret (c, ps_cmds st, buf).

Lemma finish_leftovers buf c st ts : okp (cstr buf) st ts -> ts <> [] -> forall w, exists w', finish buf c st w = (Exit 1, w').
Proof.
  intros Ho Hne w. pose proof (peek_some _ _ _ (cstr_nonzero buf) Ho Hne) as Hp. unfold finish. destruct (peek _ _ _) as [b p]. cbn [snd] in Hp.
  rewrite (proj2 (Z.eqb_neq _ _) Hp). cbn [negb]. unfold ubind. destruct (val_fprintf 2 (str "leftovers: %s" ++ [10]) [AStr (Some (drop (Z.to_nat p) (cstr buf)))] ltac:(done) w) as (a & w' & ->).
  apply panic_exits.
Qed.

Lemma finish_parsed buf c st t : okp (cstr buf) st [] -> denotes (ps_cmds st) c t -> (c < length (ps_cmds st))%nat ->
  finish buf c st = uret (c, ps_cmds st, zero_ends (words t) buf).
Proof.
  intros Ho Hd Hc. pose proof (peek_none _ _ (cstr_nonzero buf) Ho) as Hp. unfold finish. destruct (peek _ _ _) as [b p]. cbn [snd] in Hp. subst p.
  rewrite Z.eqb_refl. cbn [negb]. by rewrite (nulterminate_spec _ t) by done.
Qed.

Lemma tokens_fuel s : (4 * length (tokens s) + 4 <= 4 * length s + 4)%nat.
Proof. pose proof (length_lex s 0 None) as Hl. cbn in Hl. unfold tokens. lia. Qed.

Lemma parsecmd_cases buf : (forall w, exists w', parsecmd buf w = (Exit 1, w')) \/
  exists t p cmds, gline (tokens (cstr buf)) t /\ parsecmd buf = uret (p, cmds, zero_ends (words t) buf) /\ denotes cmds p t /\ (p < length cmds)%nat.
Proof.
  destruct (grammar_sound (cstr buf) (cstr_nonzero buf) (4 * length (cstr buf) + 4)) as (Hl & _).
  destruct (Hl (PS 0 []) _ (okp_start _) (tokens_fuel _)) as [Hf|(ts1 & t & r & Et & Hg & p & st & Ep & Ho & Hd & Hp & _)].
  { left. intros w. apply exits_bind, fails_exits, Hf. }
  assert (E : parsecmd buf = finish buf p st) by (unfold parsecmd; by rewrite Ep). destruct r as [|k r].
  - right. rewrite app_nil_r in Et. exists t, p, (ps_cmds st). rewrite Et, E. split_and!; [done|by apply finish_parsed|done|done].
  - left. rewrite E. by eapply finish_leftovers.
Qed.
End ending.

(** C39: the shell's parser decides its grammar.  For a line that the grammar derives,
    [parsecmd] returns commands that form the tree of the derivation (whose redirections,
    pipes, lists and background commands they are), each word being a C string of the
    buffer, equal to the characters of the word.  For any other line it reports an
    error and exits with 1.  It always ends. *)
Theorem parsecmd_parses_grammar {W} `{Sys W} (buf : list Z) :
  0 ∈ buf ->
  let s := cstr buf in
  (forall t, gline (tokens s) t -> exists p cmds buf',
     parsecmd (W := W) buf = uret (p, cmds, buf') /\ denotes cmds p t /\
     forall q e, (q, e) ∈ words t -> string_at buf' q = slice s q (e - q)) /\
  ((forall t, ~ gline (tokens s) t) -> forall w : W, exists w', parsecmd buf w = (Exit 1, w')).
Proof.
  intros H0 s. split.
  - intros t Hg. destruct (grammar_complete (W := W) s (cstr_nonzero buf)) as (Hl & _).
    destruct (Hl _ t Hg (4 * length s + 4)%nat (PS 0 []) []) as (p & st & Ep & Ho & Hd & Hp & _).
    + rewrite app_nil_r. apply okp_start.
    + by left.
    + rewrite app_nil_r. apply tokens_fuel.
    + exists p, (ps_cmds st), (zero_ends (words t) buf). split_and!; [|done|].
      * transitivity (finish (W := W) buf p st); [unfold parsecmd; fold s; by rewrite Ep|by apply finish_parsed].
      * intros q e Hin. apply words_terminated; [done| |done]. intros q' e' Hin'. apply tokens_words. by eapply (proj1 grammar_words).
  - intros Hno w. destruct (parsecmd_cases buf) as [He|(t & _ & _ & Hg & _)]; [apply He|]. by apply Hno in Hg.
Qed.

(** C40: the child that the shell forks for a line never comes back: [runcmd(parsecmd(buf))]
    ends in [exit] or is replaced by [exec], whatever the line and whatever the kernel
    answers to its system calls. *)
Theorem command_line_ends {W} `{Sys W} (buf : list Z) (w : W) :
  exists w', (exists n, (r <- parsecmd buf ;; let '(cmd, cmds, buf) := r in runcmd (length cmds) cmds buf cmd) w = (Exit n, w')) \/
             (exists path argv, (r <- parsecmd buf ;; let '(cmd, cmds, buf) := r in runcmd (length cmds) cmds buf cmd) w = (Execed path argv, w')).
Proof.
  destruct (parsecmd_cases buf) as [He|(t & p & cmds & _ & -> & Hd & Hp)].
  - destruct (exits_bind _ (fun r => let '(cmd, cmds, buf) := r in runcmd (length cmds) cmds buf cmd) He w) as [w' E]. exists w'. eauto.
  - rewrite ubind_ret_l. by apply (runcmd_stops cmds _ t).
Qed.

(** [ls -l | grep x >> out &] *)
Definition ex_line : list Z := str "ls -l | grep x >> out &" ++ [10; 0; 0].

Definition ex_tree : tree :=
  TBack (TPipe (TExec [(0, 2); (3, 5)]) (TRedir (TExec [(8, 12); (13, 14)]) 18 21 (Z.lor O_WRONLY O_CREATE) 1)).

Lemma ex_derives : gline (tokens (cstr ex_line)) ex_tree.
Proof.
  assert (E : tokens (cstr ex_line) =
    (([TWord 0 2; TWord 3 5] ++ TSym (chr "|") :: [TWord 8 12; TWord 13 14; TAppend; TWord 18 21]) ++ replicate 1 (TSym (chr "&")))) by (by vm_compute).
  rewrite E. apply (gl_pipe 1 _ (TPipe _ _)). apply gp_pipe.
  - apply (ge_simple _ [(0, 2); (3, 5)] []); [repeat constructor|done].
  - apply gp_exec. apply (ge_simple _ [(8, 12); (13, 14)] [(18, 21, Z.lor O_WRONLY O_CREATE, 1)]); [repeat constructor|done].
Qed.

Lemma parsecmd_parses_grammar_witness :
  0 ∈ ex_line /\ exists p cmds buf', parsecmd (W := script) ex_line = uret (p, cmds, buf') /\ denotes cmds p ex_tree /\
    string_at buf' 8 = str "grep" /\ string_at buf' 18 = str "out".
Proof.
  assert (H0 : 0 ∈ ex_line) by (apply (bool_decide_unpack _); by vm_compute). split; [done|].
  destruct (proj1 (parsecmd_parses_grammar (W := script) ex_line H0) ex_tree ex_derives) as (p & cmds & buf' & E & Hd & Hw).
  exists p, cmds, buf'. split_and!; [done|done|rewrite (Hw 8 12)|rewrite (Hw 18 21)]; [by vm_compute|cbn; set_solver|by vm_compute|cbn; set_solver].
Defined.
