(* ===== verification/Mkfs.v ===== *)
(** * The program that makes the disk image: mkfs/mkfs.c

    The image is a file of [m_len] blocks.  Calls of the host's [lseek], [read] and
    [write] on the image succeed within the file; [read] past its end, a failed [open]
    and a failed [assert] end the program ([Died]).  [Spun] is a loop out of fuel, which
    the theorems exclude.  Structures are the bytes they occupy, with [xint] and [xshort]
    the little-endian encoding; the host is little-endian ([sb.inodestart],
    [sb.bmapstart] and [sb.magic] are used without conversion).  A file named on the
    command line is its name and the pieces in which [read] returns its contents, or
    [None] if it cannot be opened. *)

From S2P Require Import Prelude Riscv Mem Bytes Bio BlockLayer Fs FsDir.

Definition NINODES := 200.

Definition mk_nbitmap := FSSIZE / (BSIZE * 8) + 1.
Definition ninodeblocks := NINODES / IPB + 1.
Definition nlog := LOGSIZE.
Definition nmeta := 2 + nlog + ninodeblocks + mk_nbitmap.
Definition nblocks := FSSIZE - nmeta.

Record mk := Mk { m_img : Z -> block; m_len : Z; freeinode : Z; freeblock : Z }.

Inductive mres (A : Type) :=
| Made (a : A) (s : mk)
| Died
| Spun.
Arguments Made {A}.
Arguments Died {A}.
Arguments Spun {A}.

Definition K (A : Type) : Type := mk -> mres A.
Definition kret {A} (a : A) : K A := fun s => Made a s.
Definition kbind {A B} (m : K A) (k : A -> K B) : K B := fun s =>
  match m s with
  | Made a s' => k a s'
  | Died => Died
  | Spun => Spun
  end.
Definition die {A} : K A := fun _ => Died.

Declare Scope mk_scope.
Delimit Scope mk_scope with mk.
Notation "x <- m ;; k" := (kbind m (fun x => k))
  (at level 100, m at next level, right associativity) : mk_scope.
Notation "m ;; k" := (kbind m (fun _ => k))
  (at level 100, right associativity) : mk_scope.
Open Scope mk_scope.

Definition assert (b : bool) : K unit := if b then kret tt else die.

Definition mk_sb : superblock :=
  SB FSMAGIC FSSIZE nblocks NINODES nlog 2 (2 + nlog) (2 + nlog + ninodeblocks).

(** [freeblock++] *)
Definition next_block : K Z := fun s =>
  Made (freeblock s) (Mk (m_img s) (m_len s) (freeinode s) (u32 (freeblock s + 1))).
Definition next_inode : K Z := fun s =>
  Made (freeinode s) (Mk (m_img s) (m_len s) (u32 (freeinode s + 1)) (freeblock s)).
Definition set_freeblock (b : Z) : K unit := fun s => Made tt (Mk (m_img s) (m_len s) (freeinode s) b).
Definition get_freeblock : K Z := fun s => Made (freeblock s) s.

(** The block at [lseek(fsfd, sec * BSIZE, 0)]. *)
Definition sector (sec : Z) : Z := u32 (sec * BSIZE) / BSIZE.

Definition wsect (sec : Z) (buf : block) : K unit := fun s =>
  Made tt (Mk (bupd (m_img s) (sector sec) buf) (Z.max (m_len s) (sector sec + 1)) (freeinode s) (freeblock s)).

Definition rsect (sec : Z) : K block := fun s =>
  if sector sec <? m_len s then Made (m_img s (sector sec)) s else Died.

Definition winode (inum : Z) (ip : list Z) : K unit :=
  let bn := IBLOCK inum mk_sb in
  buf <- rsect bn ;;
  wsect bn (splice buf (dip_off inum) ip).

Definition rinode (inum : Z) : K (list Z) :=
  let bn := IBLOCK inum mk_sb in
  buf <- rsect bn ;;
  kret (slice buf (dip_off inum) sizeof_dinode).

Definition mk_ialloc (type : Z) : K Z :=
  inum <- next_inode ;;
  let din := zeros sizeof_dinode in
  let din := put16 din 0 type in
  let din := put16 din 6 1 in
  let din := put32 din 8 0 in
  winode inum din ;;
  kret inum.

(** [buf[i/8] = buf[i/8] | (0x1 << (i%8))] for the first [used] blocks. *)
Definition mk_bitmap (used : Z) : block :=
  fold_left (fun buf i => setZ buf (i / 8) (u8 (Z.lor (nthZ 0 buf (i / 8)) (Z.shiftl 1 (i mod 8))))) (upto used) (zeros BSIZE).

Definition mk_balloc (used : Z) : K unit :=
  assert (used <? BSIZE * 8) ;;
  wsect (sb_bmapstart mk_sb) (mk_bitmap used).

(** [din.addrs[k]] and [din.size] *)
Definition addr_off (k : Z) : Z := 12 + 4 * k.

(** The block of the file that holds [fbn], allocated if need be: the new [din] and [x]. *)
Definition file_block (din : list Z) (fbn : Z) : K (list Z * Z) :=
  if fbn <? NDIRECT then
    din <- (if get32 din (addr_off fbn) =? 0 then
              b <- next_block ;;
              kret (put32 din (addr_off fbn) b)
            else kret din) ;;
    kret (din, get32 din (addr_off fbn))
  else
    din <- (if get32 din (addr_off NDIRECT) =? 0 then
              b <- next_block ;;
              kret (put32 din (addr_off NDIRECT) b)
            else kret din) ;;
    indirect <- rsect (get32 din (addr_off NDIRECT)) ;;
    indirect <- (if get32 indirect (4 * (fbn - NDIRECT)) =? 0 then
                   b <- next_block ;;
                   let indirect := put32 indirect (4 * (fbn - NDIRECT)) b in
                   wsect (get32 din (addr_off NDIRECT)) indirect ;;
                   kret indirect
                 else kret indirect) ;;
    kret (din, get32 indirect (4 * (fbn - NDIRECT))).

(** [while(n > 0)]; [p] are the bytes still to be appended. *)
Fixpoint iappend_loop (fuel : nat) (din : list Z) (off : Z) (p : list Z) : K (list Z * Z) :=
  match p with
  | [] => kret (din, off)
  | _ =>
      match fuel with
      | O => fun _ => Spun
      | S f =>
          let fbn := off / BSIZE in
          assert (fbn <? MAXFILE) ;;
          r <- file_block din fbn ;;
          let '(din, x) := r in
          let n1 := Z.min (Z.of_nat (length p)) ((fbn + 1) * BSIZE - off) in
          buf <- rsect x ;;
          wsect x (splice buf (off - fbn * BSIZE) (take (Z.to_nat n1) p)) ;;
          iappend_loop f din (u32 (off + n1)) (drop (Z.to_nat n1) p)
      end
  end.

Definition iappend (inum : Z) (xp : list Z) : K unit :=
  din <- rinode inum ;;
  let off := get32 din 8 in
  r <- iappend_loop (length xp) din off xp ;;
  let '(din, off) := r in
  winode inum (put32 din 8 off).

(** [while((cc = read(fd, buf, sizeof(buf))) > 0) iappend(inum, buf, cc)] *)
Fixpoint append_all (inum : Z) (pieces : list (list Z)) : K unit :=
  match pieces with
  | [] => kret tt
  | p :: ps => iappend inum p ;; append_all inum ps
  end.

Definition UNDERSCORE : Z := 95.
Definition USER_DIR : list Z := str "user/".

(** get rid of "user/" *)
Definition strip_dir (arg : list Z) : list Z :=
  if strncmp (chr arg) (chr USER_DIR) 5 =? 0 then drop 5 arg else arg.

(** Skip leading _ in name when writing to file system. *)
Definition strip_underscore (name : list Z) : list Z :=
  if nthZ 0 name 0 =? UNDERSCORE then drop 1 name else name.

Definition shortname (arg : list Z) : list Z := strip_underscore (strip_dir arg).

Definition add_file (rootino : Z) (arg : list Z) (file : option (list (list Z))) : K unit :=
  assert (negb (bool_decide (SLASH ∈ strip_dir arg))) ;;
  match file with
  | None => die
  | Some pieces =>
      inum <- mk_ialloc T_FILE ;;
      iappend rootino (make_dirent (zeros sizeof_dirent) (shortname arg) inum) ;;
      append_all inum pieces
  end.

Fixpoint add_files (rootino : Z) (files : list (list Z * option (list (list Z)))) : K unit :=
  match files with
  | [] => kret tt
  | (arg, file) :: fs => add_file rootino arg file ;; add_files rootino fs
  end.

(** A directory entry whose name is stored by [strcpy]. *)
Definition dot_entry (inum : Z) (name : list Z) : list Z :=
  splice (put16 (zeros sizeof_dirent) 0 inum) 2 (name ++ [0]).

(** fix size of root inode dir *)
Definition fix_root (rootino : Z) : K unit :=
  din <- rinode rootino ;;
  let off := get32 din 8 in
  let off := u32 ((off / BSIZE + 1) * BSIZE) in
  winode rootino (put32 din 8 off).

Definition encode_sb (sb : superblock) : list Z :=
  fold_left (fun d '(k, v) => put32 d (4 * k) v)
    [(0, sb_magic sb); (1, sb_size sb); (2, sb_nblocks sb); (3, sb_ninodes sb);
     (4, sb_nlog sb); (5, sb_logstart sb); (6, sb_inodestart sb); (7, sb_bmapstart sb)] (zeros 32).

(** [for(i = 0; i < FSSIZE; i++) wsect(i, zeroes)] *)
Fixpoint wsect_zeroes (n : nat) (i : Z) : K unit :=
  match n with
  | O => kret tt
  | S n' => wsect i (zeros BSIZE) ;; wsect_zeroes n' (i + 1)
  end.

Definition mkfs_main (files : list (list Z * option (list (list Z)))) : K unit :=
  set_freeblock nmeta ;; (* the first free block that we can allocate *)
  wsect_zeroes (Z.to_nat FSSIZE) 0 ;;
  wsect 1 (splice (zeros BSIZE) 0 (encode_sb mk_sb)) ;;
  rootino <- mk_ialloc T_DIR ;;
  assert (rootino =? ROOTINO) ;;
  iappend rootino (dot_entry rootino (str ".")) ;;
  iappend rootino (dot_entry rootino (str "..")) ;;
  add_files rootino files ;;
  fix_root rootino ;;
  b <- get_freeblock ;;
  mk_balloc b.

(** The image file before [main]: created and truncated. *)
Definition mk_start : mk := Mk (fun _ => zeros BSIZE) 0 1 0.
