(* ===== verification/MkfsInv.v ===== *)
(** * What mkfs puts on the disk

    The view is the kernel's: [inode_on] is the inode that [ilock] loads from the image,
    and [slot] and [fbyte] (FsFile.v, FsData.v) are the blocks and bytes of a file.
    [iappend] appends to a file and leaves every other file alone. *)

From S2P Require Import Prelude KMonad Riscv Mem Bytes Sleeplock Bio BlockLayer UserMem Fs FsDir FsBlk FsFile FsData FsInode FsName Mkfs.

(** ** Inodes in the image *)

Definition mk_key (inum : Z) : inode := set_key ROOTDEV inum 1 inode0.

Definition dino (inum : Z) (din : list Z) : inode := load_dinode din 0 (mk_key inum).
Definition inode_on (img : Z -> block) (inum : Z) : inode :=
  load_dinode (img (IBLOCK inum mk_sb)) (dip_off inum) (mk_key inum).

Lemma load_shift d d' o o' j :
  (forall x, 0 <= x < sizeof_dinode -> nthZ 0 d (o + x) = nthZ 0 d' (o' + x)) -> load_dinode d o j = load_dinode d' o' j.
Proof.
  intros Hx. unfold sizeof_dinode in Hx.
  assert (H16 : forall x, 0 <= x <= 62 -> get16 d (o + x) = get16 d' (o' + x)) by (intros; apply get16_shift; intros; rewrite <- !Z.add_assoc; apply Hx; lia).
  assert (H32 : forall x, 0 <= x <= 60 -> get32 d (o + x) = get32 d' (o' + x)) by (intros; apply get32_shift; intros; rewrite <- !Z.add_assoc; apply Hx; lia).
  unfold load_dinode. rewrite !H16, H32 by lia. pose proof (H16 0 ltac:(lia)) as E0. rewrite !Z.add_0_r in E0. rewrite E0. f_equal.
  apply list_fmap_ext. intros k x Hk. apply list_elem_of_lookup_2, elem_of_upto in Hk. unfold NDIRECT in Hk. rewrite <- !Z.add_assoc. apply H32. lia.
Qed.

Lemma dino_slice img inum : dino inum (slice (img (IBLOCK inum mk_sb)) (dip_off inum) sizeof_dinode) = inode_on img inum.
Proof.
  apply load_shift. intros x Hx. pose proof (dip_off_range inum) as [? _]. rewrite Z.add_0_l. apply nthZ_slice; [lia|done].
Qed.

Lemma addrs_at inum din k : 0 <= k <= NDIRECT -> nthZ 0 (i_addrs (dino inum din)) k = get32 din (addr_off k).
Proof.
  intros Hk. unfold NDIRECT in Hk. unfold dino, load_dinode, addr_off. cbn [i_addrs]. unfold nthZ. rewrite nth_lookup, list_lookup_fmap, lookup_upto by (unfold NDIRECT; lia).
  cbn. f_equal. lia.
Qed.

Lemma length_addrs inum din : length (i_addrs (dino inum din)) = 13%nat.
Proof. done. Qed.

(** [din.addrs[k] = v] *)
Lemma dino_addr inum din k v : length din = 64%nat -> 0 <= k <= NDIRECT -> 0 <= v < 2 ^ 32 ->
  dino inum (put32 din (addr_off k) v) = set_addr k v (dino inum din).
Proof.
  unfold NDIRECT, addr_off. intros Hl Hk Hv.
  assert (H16 : forall x, 0 <= x <= 10 -> get16 (put32 din (12 + 4 * k) v) x = get16 din x) by (intros; apply get16_ext; intros; apply nthZ_put32_out; lia).
  assert (H8 : get32 (put32 din (12 + 4 * k) v) 8 = get32 din 8) by (apply get32_put32_out; lia).
  unfold dino, load_dinode, set_addr. cbn [i_dev i_inum i_ref i_lock i_valid i_type i_major i_minor i_nlink i_size i_addrs]. rewrite !Z.add_0_l, !H16, H8 by lia. f_equal.
  apply list_eq_nthZ; [by rewrite length_setZ, !length_fmap|]. intros j Hj. rewrite length_fmap, length_upto in Hj.
  rewrite (nthZ_setZ 0) by (rewrite ?length_fmap, ?length_upto; unfold NDIRECT in *; lia). unfold nthZ. rewrite !nth_lookup, !list_lookup_fmap, lookup_upto by lia. cbn.
  case_decide as E.
  - rewrite <- E. replace (Z.of_nat (Z.to_nat k)) with k by lia. rewrite get32_put32_same by lia. by apply u32_small.
  - apply get32_put32_out; lia.
Qed.

(** ** Files *)

(** The disk: as long as it should be, and zero from [freeblock] on. *)
Record dinv (s : mk) : Prop := {
  di_len : m_len s = FSSIZE;
  di_free : nmeta <= freeblock s <= FSSIZE;
  di_block x : length (m_img s x) = Z.to_nat BSIZE;
  di_fresh x : freeblock s <= x -> m_img s x = zeros BSIZE
}.

(** [i] has [m] blocks, which hold [C] and then zeros. *)
Record finv (img : Z -> block) (fb : Z) (i : inode) (m : Z) (C : list Z) : Prop := {
  fv_range k : 0 <= k < NSLOTS -> slot img i k <> 0 -> nmeta <= slot img i k < fb;
  fv_inj k k' : 0 <= k < NSLOTS -> 0 <= k' < NSLOTS -> slot img i k <> 0 -> slot img i k = slot img i k' -> k = k';
  fv_m : 0 <= m <= MAXFILE;
  fv_mapped bn : 0 <= bn < MAXFILE -> slot img i (file_slot bn) <> 0 <-> bn < m;
  fv_ind : slot img i NDIRECT <> 0 <-> NDIRECT < m;
  fv_size : Z.of_nat (length C) <= m * BSIZE;
  fv_bytes o : 0 <= o -> o / BSIZE < m -> fbyte img i o = nthZ 0 C o
}.

(** The blocks of a file with [m] blocks of data. *)
Definition nb (m : Z) : Z := m + (if NDIRECT <? m then 1 else 0).

(** From [s] to [s'] the file [i] has become [i'], and nothing else that was in use has
    changed. *)
Record grew (s s' : mk) (i i' : inode) : Prop := {
  gr_img x : 0 < x < freeblock s -> (forall k, 0 <= k < NSLOTS -> slot (m_img s) i k <> x) -> m_img s' x = m_img s x;
  gr_slot k : 0 <= k < NSLOTS -> slot (m_img s') i' k <> 0 -> slot (m_img s) i k = slot (m_img s') i' k \/ freeblock s <= slot (m_img s') i' k;
  gr_fb : freeblock s <= freeblock s';
  gr_inode : freeinode s' = freeinode s
}.

Lemma grew_refl s i : grew s s i i.
Proof. split; auto with lia. Qed.

Lemma grew_trans s s1 s2 i i1 i2 : grew s s1 i i1 -> grew s1 s2 i1 i2 -> grew s s2 i i2.
Proof.
  intros G H. pose proof (gr_fb _ _ _ _ G) as Hfb. split.
  - intros x Hx Hk. rewrite (gr_img _ _ _ _ H); [by apply G|lia|]. intros k Hkr E.
    destruct (gr_slot _ _ _ _ G k Hkr) as [Ek|Ek]; [lia|apply (Hk k Hkr); congruence|lia].
  - intros k Hk Hn. destruct (gr_slot _ _ _ _ H k Hk Hn) as [E|E]; [|right; lia]. rewrite <- E in *. by apply G.
  - pose proof (gr_fb _ _ _ _ H). lia.
  - by rewrite (gr_inode _ _ _ _ H), (gr_inode _ _ _ _ G).
Qed.

(** One more block [b] for the file, with the indirect block [b'] when it is the first
    that needs it. *)
Lemma finv_grow img fb i m C img' fb' i' b b' : finv img fb i m C -> m < MAXFILE -> nmeta <= fb <= fb' ->
  fb <= b < fb' -> (m = NDIRECT -> fb <= b' < fb' /\ b <> b') -> img b = zeros BSIZE ->
  (forall k, 0 <= k < NSLOTS -> slot img' i' k = if decide (k = file_slot m) then b else if decide (k = NDIRECT /\ m = NDIRECT) then b' else slot img i k) ->
  (forall x, 0 < x -> x <> slot img' i' NDIRECT -> img' x = img x) ->
  finv img' fb' i' (m + 1) C.
Proof.
  intros F Hm Hfb Hb Hb' Hz Hslot Himg. pose proof (fv_m _ _ _ _ _ F) as Hm0. assert (Hnm : 0 < nmeta) by done.
  assert (Hfs : 0 <= file_slot m < NSLOTS) by (apply file_slot_range; lia). assert (Hfi : file_slot m <> NDIRECT) by (apply file_slot_ind; lia).
  assert (Hr : forall k, 0 <= k < NSLOTS -> slot img i k <> 0 -> nmeta <= slot img i k < fb) by apply F.
  assert (Hind : slot img' i' NDIRECT = if decide (m = NDIRECT) then b' else slot img i NDIRECT).
  { rewrite Hslot by done. rewrite decide_False by done. destruct (decide (m = NDIRECT)); [by rewrite decide_True|by rewrite decide_False by tauto]. }
  split.
  - intros k Hk. rewrite Hslot by done. destruct (decide (k = file_slot m)); [lia|]. destruct (decide (k = NDIRECT /\ m = NDIRECT)); [lia|]. intros Hn. specialize (Hr k Hk Hn). lia.
  - intros k k' Hk Hk'. rewrite !Hslot by done. pose proof (fv_inj _ _ _ _ _ F k k' Hk Hk') as Hi. pose proof (Hr k Hk). pose proof (Hr k' Hk').
    destruct (decide (k = file_slot m)), (decide (k' = file_slot m)), (decide (k = NDIRECT /\ m = NDIRECT)), (decide (k' = NDIRECT /\ m = NDIRECT)); lia || auto.
  - lia.
  - intros bn Hbn. destruct (decide (bn = m)) as [->|Hne].
    + rewrite Hslot, decide_True by done. lia.
    + assert (Hk : 0 <= file_slot bn < NSLOTS) by (by apply file_slot_range). rewrite Hslot by done.
      rewrite decide_False by (intros E; apply file_slot_inj in E; lia). rewrite decide_False by (intros [E _]; revert E; apply file_slot_ind; lia).
      rewrite (fv_mapped _ _ _ _ _ F) by done. lia.
  - rewrite Hind. pose proof (fv_ind _ _ _ _ _ F) as Hfi'. case_decide; unfold NDIRECT in *; [lia|]. rewrite Hfi'. lia.
  - pose proof (fv_size _ _ _ _ _ F). unfold BSIZE in *. lia.
  - intros o Ho Hom. pose proof (Z.div_pos o BSIZE Ho ltac:(done)) as Hd. unfold fbyte. assert (Hk : 0 <= file_slot (o / BSIZE) < NSLOTS) by (apply file_slot_range; lia).
    rewrite Hslot by done. destruct (decide (file_slot (o / BSIZE) = file_slot m)) as [E|E].
    + apply file_slot_inj in E; [|lia..]. rewrite Himg; [|lia|rewrite Hind; case_decide; [by apply Hb'|]; pose proof (Hr NDIRECT ltac:(done)); lia]. rewrite Hz. unfold zeros. rewrite nthZ_replicate.
      symmetry. apply nth_overflow. pose proof (fv_size _ _ _ _ _ F). pose proof (Z.div_mod o BSIZE ltac:(done)). pose proof (Z.mod_pos_bound o BSIZE ltac:(done)). unfold BSIZE in *. lia.
    + rewrite decide_False by (intros [Ex _]; revert Ex; apply file_slot_ind; lia). assert (Hlt : o / BSIZE < m) by (destruct (decide (o / BSIZE = m)) as [Ex|]; [by rewrite Ex in E|lia]).
      assert (Hn : slot img i (file_slot (o / BSIZE)) <> 0) by (apply (fv_mapped _ _ _ _ _ F); lia). pose proof (Hr _ Hk Hn).
      rewrite Himg; [exact (fv_bytes _ _ _ _ _ F o Ho Hlt)|lia|]. rewrite Hind. case_decide; [lia|]. intros Ex. apply (fv_inj _ _ _ _ _ F) in Ex; [|done..]. revert Ex. apply file_slot_ind. lia.
Qed.

Lemma nthZ_ge (l : list Z) k : Z.of_nat (length l) <= k -> nthZ 0 l k = 0.
Proof. intros Hk. apply nth_overflow. lia. Qed.

(** Writing a block of data does not change where the blocks are. *)
Lemma slot_data img fb i m C bn b k : finv img fb i m C -> 0 <= bn < m -> 0 <= k < NSLOTS ->
  slot (bupd img (slot img i (file_slot bn)) b) i k = slot img i k.
Proof.
  intros F Hbn Hk. pose proof (fv_m _ _ _ _ _ F) as Hm. destruct (decide (k <= NDIRECT)); [by rewrite !slot_le|].
  rewrite !(slot_gt _ _ k) by lia. rewrite (slot_le (bupd _ _ _)), <- (slot_le img) by lia. destruct (decide (slot img i NDIRECT = 0)) as [|E]; [done|]. unfold bupd.
  rewrite decide_False; [done|]. intros Ex. symmetry in Ex. apply (fv_inj _ _ _ _ _ F) in Ex; [|done|apply file_slot_range; lia|done]. symmetry in Ex. revert Ex. apply file_slot_ind. lia.
Qed.

(** The bytes [p] are written after [C], within one block. *)
Lemma finv_write img fb i m C p off x : finv img fb i m C -> off = Z.of_nat (length C) -> x = slot img i (file_slot (off / BSIZE)) ->
  off / BSIZE < m -> off mod BSIZE + Z.of_nat (length p) <= BSIZE -> length (img x) = Z.to_nat BSIZE ->
  finv (bupd img x (splice (img x) (off - off / BSIZE * BSIZE) p)) fb i m (C ++ p).
Proof.
  intros F Eoff Ex Hm Hp Hl. pose proof (fv_m _ _ _ _ _ F) as Hm0. assert (Hd : 0 <= off / BSIZE) by (apply Z.div_pos; [lia|done]).
  pose proof (Z.div_mod off BSIZE ltac:(done)) as Hdm. assert (Hk : 0 <= file_slot (off / BSIZE) < NSLOTS) by (apply file_slot_range; lia).
  assert (Hn : x <> 0) by (rewrite Ex; apply (fv_mapped _ _ _ _ _ F); lia). replace (off - off / BSIZE * BSIZE) with (off mod BSIZE) by lia.
  set (b := splice _ _ _). assert (Hne : forall k, 0 <= k < NSLOTS -> k <> file_slot (off / BSIZE) -> slot img i k <> x).
  { intros k Hk' Hkn E. apply Hkn. apply (fv_inj _ _ _ _ _ F); [done|done|lia|congruence]. }
  assert (Hslot : forall k, 0 <= k < NSLOTS -> slot (bupd img x b) i k = slot img i k).
  { intros k Hk'. rewrite Ex. by apply (slot_data _ fb _ m C). }
  split.
  - intros k Hk'. rewrite Hslot by done. by apply F.
  - intros k k' H1 H2. rewrite !Hslot by done. by apply F.
  - done.
  - intros bn Hbn. rewrite Hslot by (by apply file_slot_range). by apply F.
  - rewrite Hslot by done. apply F.
  - rewrite length_app. unfold BSIZE in *. lia.
  - intros o Ho Hom. assert (Hd' : 0 <= o / BSIZE) by (by apply Z.div_pos). unfold fbyte. rewrite Hslot by (apply file_slot_range; lia).
    pose proof (Z.div_mod o BSIZE ltac:(done)). pose proof (Z.mod_pos_bound o BSIZE ltac:(done)). pose proof (Z.mod_pos_bound off BSIZE ltac:(done)).
    pose proof (fv_bytes _ _ _ _ _ F o Ho Hom) as Hb. unfold fbyte in Hb. rewrite nthZ_app by done. rewrite <- Eoff. destruct (decide (o / BSIZE = off / BSIZE)) as [E|E].
    + rewrite E in *. rewrite <- Ex in *. unfold bupd. rewrite decide_True by done. unfold b. rewrite nthZ_splice by (rewrite ?Hl; unfold BSIZE in *; lia).
      destruct (decide (o < off)), (decide (off mod BSIZE <= o mod BSIZE < off mod BSIZE + Z.of_nat (length p))); try (unfold BSIZE in *; lia).
      * f_equal. unfold BSIZE in *. lia.
      * rewrite Hb. rewrite !nthZ_ge; [done|..]; unfold BSIZE in *; lia.
    + unfold bupd. rewrite decide_False; [|apply not_eq_sym, Hne; [apply file_slot_range; lia|intros E'; apply file_slot_inj in E'; lia]]. rewrite Hb.
      destruct (decide (o < off)); [done|]. rewrite !nthZ_ge; [done|..]; unfold BSIZE in *; nia.
Qed.

(** ** file_block *)

Lemma sector_small x : 0 <= x < FSSIZE -> sector x = x.
Proof. unfold FSSIZE. intros Hx. unfold sector, BSIZE. rewrite u32_small by lia. by rewrite Z.div_mul. Qed.

Lemma rsect_ok x s : dinv s -> 0 <= x < FSSIZE -> rsect x s = Made (m_img s x) s.
Proof. intros D Hx. unfold rsect. rewrite sector_small by done. rewrite (di_len _ D). by replace (x <? FSSIZE) with true by lia. Qed.

Definition put_block (x : Z) (b : block) (s : mk) : mk := Mk (bupd (m_img s) x b) (m_len s) (freeinode s) (freeblock s).

Lemma wsect_ok x b s : dinv s -> 0 <= x < FSSIZE -> wsect x b s = Made tt (put_block x b s).
Proof. intros D Hx. unfold wsect, put_block. rewrite sector_small by done. rewrite (di_len _ D), Z.max_l by lia. by rewrite <- (di_len _ D). Qed.

Definition bump (s : mk) : mk := Mk (m_img s) (m_len s) (freeinode s) (freeblock s + 1).

Lemma next_block_ok s : dinv s -> next_block s = Made (freeblock s) (bump s).
Proof. intros D. unfold next_block, bump. pose proof (di_free _ D). unfold FSSIZE in *. rewrite u32_small; [done|]. assert (0 < nmeta) by done. lia. Qed.

Lemma dinv_bump s : dinv s -> freeblock s < FSSIZE -> dinv (bump s).
Proof. intros D Hf. pose proof (di_free _ D). split; cbn; [apply D|lia|apply D|]. intros x Hx. apply D. lia. Qed.

Lemma dinv_put x b s : dinv s -> x < freeblock s -> length b = Z.to_nat BSIZE -> dinv (put_block x b s).
Proof.
  intros D Hx Hb. split; cbn; [apply D|apply D| |].
  - intros y. unfold bupd. case_decide; [done|apply D].
  - intros y Hy. unfold bupd. rewrite decide_False by lia. by apply D.
Qed.

Lemma slot_addr img inum din k : 0 <= k <= NDIRECT -> slot img (dino inum din) k = get32 din (addr_off k).
Proof. intros Hk. rewrite slot_le by lia. by apply addrs_at. Qed.

Lemma slot_in_ind img inum din fbn : NDIRECT <= fbn < MAXFILE -> slot img (dino inum din) NDIRECT <> 0 ->
  slot img (dino inum din) (file_slot fbn) = get32 (img (get32 din (addr_off NDIRECT))) (4 * (fbn - NDIRECT)).
Proof.
  intros Hf Hn. unfold file_slot. rewrite (proj2 (Z.ltb_ge _ _)) by lia. rewrite slot_gt by lia. rewrite decide_False by done. rewrite slot_addr by (unfold NDIRECT; lia).
  unfold get_slot. f_equal. lia.
Qed.

(** An entry [m] of the indirect block [ind] is set to [b]. *)
Definition set_entry (ind m b : Z) (s : mk) : mk := put_block ind (put32 (m_img s ind) (4 * (m - NDIRECT)) b) s.

Lemma slot_set_entry inum din s m b k : dinv s -> NDIRECT <= m < MAXFILE -> 0 <= b < 2 ^ 32 -> 0 <= k < NSLOTS ->
  slot (m_img s) (dino inum din) NDIRECT <> 0 ->
  slot (m_img (set_entry (slot (m_img s) (dino inum din) NDIRECT) m b s)) (dino inum din) k = if decide (k = file_slot m) then b else slot (m_img s) (dino inum din) k.
Proof.
  intros D Hm Hb Hk Hi. set (ind := slot _ _ NDIRECT) in *. assert (Efs : file_slot m = m + 1) by (unfold file_slot; by rewrite (proj2 (Z.ltb_ge _ _)) by lia). rewrite Efs.
  assert (Hi' : forall img, slot img (dino inum din) NDIRECT = ind) by (intros; unfold ind; by rewrite !slot_le). assert (EN : NDIRECT = 12) by done. assert (EM : MAXFILE = 268) by done. change NSLOTS with 269 in Hk.
  destruct (decide (k <= NDIRECT)); [rewrite decide_False by lia; by rewrite !slot_le by lia|].
  rewrite !(slot_gt _ _ k), !Hi' by lia. rewrite !(decide_False (P := ind = 0)) by done. cbn [set_entry put_block m_img]. unfold bupd. rewrite decide_True by done. pose proof (di_block _ D ind) as Hl. unfold get_slot, BSIZE in *.
  destruct (decide (k = m + 1)) as [->|].
  - replace (m + 1 - NDIRECT - 1) with (m - NDIRECT) by lia. rewrite get32_put32_same by lia. apply u32_small. lia.
  - apply get32_put32_out; lia.
Qed.

(** The part of [file_block] after the indirect block is there. *)
Lemma file_block_entry inum din fbn s : dinv s -> NDIRECT <= fbn < MAXFILE -> freeblock s < FSSIZE ->
  0 < slot (m_img s) (dino inum din) NDIRECT < freeblock s -> slot (m_img s) (dino inum din) (file_slot fbn) = 0 ->
  file_block din fbn s = Made (din, freeblock s) (set_entry (slot (m_img s) (dino inum din) NDIRECT) fbn (freeblock s) (bump s)).
Proof.
  intros D Hf Hfb Hi Hz. rewrite slot_in_ind in Hz by lia. rewrite slot_addr in * by done. pose proof (di_free _ D). unfold file_block. rewrite (proj2 (Z.ltb_ge _ _)) by lia.
  rewrite (proj2 (Z.eqb_neq _ 0)) by lia. unfold kbind, kret. rewrite rsect_ok by (done || lia). rewrite Hz. cbn [Z.eqb]. rewrite next_block_ok by done. cbv zeta.
  rewrite wsect_ok by (by apply dinv_bump || lia). rewrite get32_put32_same; [|unfold NDIRECT in *; lia|rewrite (di_block _ D); assert (EM : MAXFILE = 268) by done; unfold NDIRECT, BSIZE in *; lia].
  assert (0 < nmeta) by done. rewrite u32_small by (unfold FSSIZE in *; lia). done.
Qed.

(** The file that was [din] on [s] is [din1] on [s1], with [m1] blocks and the contents
    [C1]; no other file has changed. *)
Record alloced (inum : Z) (din : list Z) (m : Z) (s : mk) (m1 : Z) (C1 : list Z) (din1 : list Z) (s1 : mk) : Prop := {
  al_dinv : dinv s1;
  al_finv : finv (m_img s1) (freeblock s1) (dino inum din1) m1 C1;
  al_fb : freeblock s1 = freeblock s + nb m1 - nb m;
  al_grew : grew s s1 (dino inum din) (dino inum din1);
  al_len : length din1 = 64%nat;
  al_head x : 0 <= x < 12 -> nthZ 0 din1 x = nthZ 0 din x
}.

Lemma alloced_refl inum din m s C : dinv s -> finv (m_img s) (freeblock s) (dino inum din) m C -> length din = 64%nat -> alloced inum din m s m C din s.
Proof. split; [done..|lia|apply grew_refl|done|done]. Qed.

Lemma alloced_trans inum din m s m1 C1 din1 s1 m2 C2 din2 s2 :
  alloced inum din m s m1 C1 din1 s1 -> alloced inum din1 m1 s1 m2 C2 din2 s2 -> alloced inum din m s m2 C2 din2 s2.
Proof.
  intros A B. split; [apply B|apply B| |exact (grew_trans _ _ _ _ _ _ (al_grew _ _ _ _ _ _ _ _ A) (al_grew _ _ _ _ _ _ _ _ B))|apply B|].
  - rewrite (al_fb _ _ _ _ _ _ _ _ B), (al_fb _ _ _ _ _ _ _ _ A). lia.
  - intros x Hx. rewrite (al_head _ _ _ _ _ _ _ _ B), (al_head _ _ _ _ _ _ _ _ A) by done. done.
Qed.

Section file_block.
Context (inum : Z) (din : list Z) (m : Z) (C : list Z) (s : mk).
Context (D : dinv s) (F : finv (m_img s) (freeblock s) (dino inum din) m C) (Hlen : length din = 64%nat).

(** The block is there. *)
Lemma file_block_mapped fbn : 0 <= fbn < m -> file_block din fbn s = Made (din, slot (m_img s) (dino inum din) (file_slot fbn)) s.
Proof.
  clear Hlen. intros Hf. pose proof (fv_m _ _ _ _ _ F). assert (Hn : slot (m_img s) (dino inum din) (file_slot fbn) <> 0) by (apply (fv_mapped _ _ _ _ _ F); lia).
  unfold file_block. destruct (Z.ltb_spec fbn NDIRECT) as [Hd|Hd].
  - unfold file_slot in *. rewrite (proj2 (Z.ltb_lt _ _)) in * by done. rewrite slot_addr in * by lia. by rewrite (proj2 (Z.eqb_neq _ _)) by done.
  - assert (Hi : slot (m_img s) (dino inum din) NDIRECT <> 0) by (apply (fv_ind _ _ _ _ _ F); lia).
    pose proof (fv_range _ _ _ _ _ F NDIRECT ltac:(done) Hi) as Hr. pose proof (di_free _ D). rewrite slot_in_ind in * by (done || lia). rewrite slot_addr in Hi, Hr by done.
    rewrite (proj2 (Z.eqb_neq _ _)) by done. unfold kbind, kret. assert (0 < nmeta) by done. rewrite rsect_ok by (done || lia). by rewrite (proj2 (Z.eqb_neq _ _)) by done.
Qed.

Lemma alloced_intro din1 s1 b b' : dinv s1 -> m < MAXFILE -> freeblock s1 = freeblock s + nb (m + 1) - nb m -> freeinode s1 = freeinode s ->
  length din1 = 64%nat -> (forall x, 0 <= x < 12 -> nthZ 0 din1 x = nthZ 0 din x) ->
  freeblock s <= b < freeblock s1 -> (m = NDIRECT -> freeblock s <= b' < freeblock s1 /\ b <> b') ->
  (forall k, 0 <= k < NSLOTS -> slot (m_img s1) (dino inum din1) k = if decide (k = file_slot m) then b else if decide (k = NDIRECT /\ m = NDIRECT) then b' else slot (m_img s) (dino inum din) k) ->
  (forall x, 0 < x -> x <> slot (m_img s1) (dino inum din1) NDIRECT -> m_img s1 x = m_img s x) ->
  alloced inum din m s (m + 1) C din1 s1.
Proof.
  intros D1 Hm Hfb Hfi Hl1 Hh Hb Hb' Hslot Himg. pose proof (di_free _ D). pose proof (fv_m _ _ _ _ _ F). split; [done| |done| |done|done].
  - apply (finv_grow (m_img s) (freeblock s) (dino inum din) m C _ _ _ b b'); [done..|lia|done|done| |done|done]. apply D. lia.
  - split; [| |lia|done].
    + intros x Hx Hk. apply Himg; [lia|]. rewrite Hslot by done. rewrite decide_False by (intros E; symmetry in E; revert E; apply file_slot_ind; lia).
      destruct (decide (NDIRECT = NDIRECT /\ m = NDIRECT)) as [[_ E]|]; [specialize (Hb' E); lia|by apply not_eq_sym, Hk].
    + intros k Hk. rewrite Hslot by done. destruct (decide (k = file_slot m)); [lia|]. destruct (decide (k = NDIRECT /\ m = NDIRECT)) as [[_ E]|]; [specialize (Hb' E); lia|auto].
Qed.

(** One of the first NDIRECT blocks. *)
Lemma file_block_direct : m < NDIRECT -> freeblock s < FSSIZE -> exists din1 s1,
  file_block din m s = Made (din1, slot (m_img s1) (dino inum din1) (file_slot m)) s1 /\ alloced inum din m s (m + 1) C din1 s1.
Proof.
  intros Hm Hfb. pose proof (fv_m _ _ _ _ _ F). pose proof (di_free _ D). assert (NDIRECT < MAXFILE) by done. unfold FSSIZE in *. assert (Hnm : 0 < nmeta) by done. assert (Efs : file_slot m = m) by (unfold file_slot; by rewrite (proj2 (Z.ltb_lt _ _))).
  assert (Hz : get32 din (addr_off m) = 0).
  { rewrite <- (slot_addr (m_img s) inum) by lia. rewrite <- Efs. destruct (decide (slot (m_img s) (dino inum din) (file_slot m) = 0)) as [|E]; [done|]. apply (fv_mapped _ _ _ _ _ F) in E; lia. }
  set (din1 := put32 din (addr_off m) (freeblock s)). assert (Hd1 : dino inum din1 = set_addr m (freeblock s) (dino inum din)) by (apply dino_addr; lia).
  assert (Hslot : forall k, 0 <= k <= NDIRECT -> slot (m_img s) (dino inum din1) k = if decide (k = m) then freeblock s else slot (m_img s) (dino inum din) k).
  { intros k Hk. rewrite Hd1, !slot_le by lia. unfold set_addr. cbn [i_addrs]. rewrite (nthZ_setZ 0) by (rewrite ?length_addrs; unfold NDIRECT in *; lia). repeat case_decide; lia || done. }
  exists din1, (bump s). split.
  - unfold file_block. rewrite (proj2 (Z.ltb_lt _ _)) by done. rewrite Hz. cbn [Z.eqb]. unfold kbind, kret. rewrite next_block_ok by done. fold din1. rewrite Efs. cbn [bump m_img]. rewrite slot_addr by lia. done.
  - apply (alloced_intro _ _ (freeblock s) 0); cbn [bump m_img freeblock freeinode].
    + apply dinv_bump; [done|]. unfold FSSIZE. lia.
    + lia.
    + unfold nb. rewrite !(proj2 (Z.ltb_ge _ _)) by lia. lia.
    + done.
    + unfold din1. by rewrite length_put32.
    + intros x Hx. apply nthZ_put32_out; unfold addr_off; lia.
    + lia.
    + lia.
    + intros k Hk. rewrite Efs. rewrite (decide_False (P := k = NDIRECT /\ m = NDIRECT)) by lia. destruct (decide (k <= NDIRECT)); [apply Hslot; lia|].
      rewrite !(slot_gt _ _ k), Hslot, !(decide_False (P := _ = m)) by lia. done.
    + done.
Qed.

Lemma unmapped fbn : m <= fbn < MAXFILE -> slot (m_img s) (dino inum din) (file_slot fbn) = 0.
Proof. clear Hlen D. intros Hf. pose proof (fv_m _ _ _ _ _ F). destruct (decide (slot (m_img s) (dino inum din) (file_slot fbn) = 0)) as [|E]; [done|]. apply (fv_mapped _ _ _ _ _ F) in E; lia. Qed.

(** A block beyond those, the indirect block there already. *)
Lemma file_block_indirect : NDIRECT < m < MAXFILE -> freeblock s < FSSIZE -> exists din1 s1,
  file_block din m s = Made (din1, slot (m_img s1) (dino inum din1) (file_slot m)) s1 /\ alloced inum din m s (m + 1) C din1 s1.
Proof.
  intros Hm Hfb. pose proof (di_free _ D). pose proof (fv_m _ _ _ _ _ F). assert (Hnm : 0 < nmeta) by done. assert (Hi : slot (m_img s) (dino inum din) NDIRECT <> 0) by (apply (fv_ind _ _ _ _ _ F); lia).
  pose proof (fv_range _ _ _ _ _ F NDIRECT ltac:(done) Hi) as Hr. pose proof (dinv_bump _ D Hfb) as D'. set (ind := slot (m_img s) (dino inum din) NDIRECT) in *.
  pose proof (fun k => slot_set_entry inum din (bump s) m (freeblock s) k D' ltac:(lia) ltac:(unfold FSSIZE in *; lia)) as Hslot. cbn [bump m_img] in Hslot. fold ind in Hslot.
  exists din, (set_entry ind m (freeblock s) (bump s)). split.
  - rewrite Hslot by (done || apply file_slot_range; lia). rewrite decide_True by done. apply file_block_entry; [done|lia..|apply unmapped; lia].
  - apply (alloced_intro _ _ (freeblock s) 0); cbn [set_entry put_block bump m_img freeblock freeinode].
    + apply dinv_put; [done|cbn [bump freeblock]; lia|]. rewrite length_put32. apply D.
    + lia.
    + unfold nb. rewrite !(proj2 (Z.ltb_lt _ _)) by lia. lia.
    + done.
    + done.
    + done.
    + lia.
    + lia.
    + intros k Hk. rewrite (decide_False (P := k = NDIRECT /\ m = NDIRECT)) by lia. by apply Hslot.
    + intros x Hx. rewrite slot_le, <- (slot_le (m_img s)) by done. fold ind. intros Hn. unfold bupd. by rewrite decide_False.
Qed.

(** The first of them: the indirect block and the block. *)
Lemma file_block_first : m = NDIRECT -> freeblock s + 1 < FSSIZE -> exists din1 s1,
  file_block din m s = Made (din1, slot (m_img s1) (dino inum din1) (file_slot m)) s1 /\ alloced inum din m s (m + 1) C din1 s1.
Proof.
  intros Hm Hfb. pose proof (di_free _ D). pose proof (fv_m _ _ _ _ _ F). assert (Hnm : 0 < nmeta) by done. assert (HNM : NDIRECT < MAXFILE) by done. assert (Hi : slot (m_img s) (dino inum din) NDIRECT = 0).
  { destruct (decide (slot (m_img s) (dino inum din) NDIRECT = 0)) as [|E]; [done|]. apply (fv_ind _ _ _ _ _ F) in E. lia. }
  set (din1 := put32 din (addr_off NDIRECT) (freeblock s)). assert (Hd1 : dino inum din1 = set_addr NDIRECT (freeblock s) (dino inum din)) by (apply dino_addr; done || unfold FSSIZE in *; lia).
  assert (Hs1 : forall k, 0 <= k < NSLOTS -> slot (m_img s) (dino inum din1) k = if decide (k = NDIRECT) then freeblock s else slot (m_img s) (dino inum din) k).
  { assert (Hle : forall k, 0 <= k <= NDIRECT -> slot (m_img s) (dino inum din1) k = if decide (k = NDIRECT) then freeblock s else slot (m_img s) (dino inum din) k).
    { intros k Hk. rewrite Hd1, !slot_le by lia. unfold set_addr. cbn [i_addrs]. rewrite (nthZ_setZ 0) by (rewrite ?length_addrs; unfold NDIRECT in *; lia). repeat case_decide; lia || done. }
    intros k Hk. destruct (decide (k <= NDIRECT)); [apply Hle; lia|]. rewrite !(slot_gt _ _ k), Hle by lia. rewrite (decide_False (P := k = NDIRECT)), (decide_True (P := NDIRECT = NDIRECT)), (decide_True (P := slot (m_img s) _ _ = 0)), decide_False by (done || lia).
    unfold get_slot. rewrite (di_fresh _ D) by lia. apply get32_zeros. }
  pose proof (dinv_bump _ D ltac:(lia)) as D'. assert (Ei : slot (m_img s) (dino inum din1) NDIRECT = freeblock s) by (by rewrite Hs1, decide_True).
  pose proof (fun k => slot_set_entry inum din1 (bump s) m (freeblock s + 1) k D' ltac:(lia) ltac:(unfold FSSIZE in *; lia)) as Hslot. cbn [bump m_img] in Hslot. rewrite Ei in Hslot.
  exists din1, (set_entry (freeblock s) m (freeblock s + 1) (bump (bump s))). split.
  - rewrite Hslot by (lia || apply file_slot_range; lia). rewrite decide_True by done. transitivity (file_block din1 m (bump s)).
    + unfold file_block. rewrite (proj2 (Z.ltb_ge _ _)) by lia. rewrite <- !(slot_addr (m_img s) inum) by done. rewrite Hi, Ei. cbn [Z.eqb]. rewrite (proj2 (Z.eqb_neq _ 0)) by lia.
      unfold kbind, kret. rewrite next_block_ok by done. done.
    + rewrite (file_block_entry inum); [cbn [bump m_img]; by rewrite Ei|done|lia|cbn; lia|cbn [bump m_img freeblock]; rewrite Ei; lia|cbn [bump m_img]].
      rewrite Hs1, decide_False by (apply file_slot_range || apply file_slot_ind; lia). apply unmapped. lia.
  - apply (alloced_intro _ _ (freeblock s + 1) (freeblock s)); cbn [set_entry put_block bump m_img freeblock freeinode].
    + apply dinv_put; [by apply dinv_bump|cbn [bump freeblock]; lia|]. rewrite length_put32. apply D.
    + lia.
    + rewrite Hm. change (nb (NDIRECT + 1)) with 14. change (nb NDIRECT) with 12. lia.
    + done.
    + unfold din1. by rewrite length_put32.
    + intros x Hx. apply nthZ_put32_out; unfold addr_off, NDIRECT; lia.
    + lia.
    + lia.
    + intros k Hk. rewrite Hslot, Hs1 by lia. destruct (decide (k = file_slot m)); [done|]. destruct (decide (k = NDIRECT)); [by rewrite decide_True|by rewrite decide_False by tauto].
    + intros x Hx. rewrite slot_le, <- (slot_le (m_img s)), Ei by done. intros Hn. unfold bupd. by rewrite decide_False.
Qed.
End file_block.

Lemma file_block_ok inum din m C s fbn : dinv s -> finv (m_img s) (freeblock s) (dino inum din) m C -> length din = 64%nat ->
  0 <= fbn <= m -> fbn < MAXFILE -> freeblock s + nb (Z.max m (fbn + 1)) - nb m <= FSSIZE ->
  exists din1 s1, file_block din fbn s = Made (din1, slot (m_img s1) (dino inum din1) (file_slot fbn)) s1 /\
    alloced inum din m s (Z.max m (fbn + 1)) C din1 s1.
Proof.
  intros D F Hl Hf Hmax Hfb. destruct (decide (fbn = m)) as [->|Hne].
  - rewrite Z.max_r in * by lia. destruct (Z.lt_trichotomy m NDIRECT) as [Hm|[Hm|Hm]].
    + apply file_block_direct; [done..|]. revert Hfb. unfold nb. rewrite !(proj2 (Z.ltb_ge _ _)) by lia. lia.
    + apply file_block_first; [done..|]. revert Hfb. rewrite Hm. change (nb (NDIRECT + 1)) with 14. change (nb NDIRECT) with 12. lia.
    + apply file_block_indirect; [done..|]. revert Hfb. unfold nb. rewrite !(proj2 (Z.ltb_lt _ _)) by lia. lia.
  - rewrite Z.max_l in * by lia. exists din, s. split; [apply (file_block_mapped inum din m C); done || lia|by apply alloced_refl].
Qed.
