(* ===== verification/MkfsAppend.v ===== *)
(** * iappend

    [iappend] appends to the file of an inode: the file's contents get the bytes at
    their end, the new blocks are taken from [freeblock] on, and no other block or inode
    of the image changes ([iappend_ok]). *)

From S2P Require Import Prelude KMonad Riscv Mem Bytes Sleeplock Bio BlockLayer UserMem Fs FsDir FsBlk FsFile FsData FsInode FsName Mkfs MkfsInv.

(** The number of blocks of [n] bytes. *)
Definition blocks (n : Z) : Z := (n + BSIZE - 1) / BSIZE.

Lemma blocks_mono a b : a <= b -> blocks a <= blocks b.
Proof. intros H. apply Z.div_le_mono; [done|lia]. Qed.

Lemma blocks_range n : 0 <= n <= MAXFILE * BSIZE -> 0 <= blocks n <= MAXFILE /\ n <= blocks n * BSIZE.
Proof.
  intros H. assert (EM : MAXFILE = 268) by done. unfold blocks, BSIZE in *.
  pose proof (Z.div_mod (n + 1024 - 1) 1024 ltac:(done)). pose proof (Z.mod_pos_bound (n + 1024 - 1) 1024 ltac:(done)). lia.
Qed.

Lemma blocks_step off n : 0 <= off -> 0 < n <= (off / BSIZE + 1) * BSIZE - off ->
  0 <= off / BSIZE <= blocks off /\ blocks (off + n) = off / BSIZE + 1 /\ Z.max (blocks off) (off / BSIZE + 1) = off / BSIZE + 1.
Proof.
  unfold blocks, BSIZE. intros Ho Hn. pose proof (Z.div_mod off 1024 ltac:(done)). pose proof (Z.mod_pos_bound off 1024 ltac:(done)).
  pose proof (Z.div_mod (off + 1024 - 1) 1024 ltac:(done)). pose proof (Z.mod_pos_bound (off + 1024 - 1) 1024 ltac:(done)).
  pose proof (Z.div_mod (off + n + 1024 - 1) 1024 ltac:(done)). pose proof (Z.mod_pos_bound (off + n + 1024 - 1) 1024 ltac:(done)). lia.
Qed.

Lemma nb_mono a b : a <= b -> nb a <= nb b.
Proof. intros H. unfold nb. destruct (Z.ltb_spec NDIRECT a), (Z.ltb_spec NDIRECT b); lia. Qed.

(** The block of [file_block] is written. *)
Lemma alloced_write inum din m s m1 C din1 s1 p off x : alloced inum din m s m1 C din1 s1 ->
  off = Z.of_nat (length C) -> off / BSIZE < m1 -> off mod BSIZE + Z.of_nat (length p) <= BSIZE ->
  x = slot (m_img s1) (dino inum din1) (file_slot (off / BSIZE)) ->
  alloced inum din m s m1 (C ++ p) din1 (put_block x (splice (m_img s1 x) (off - off / BSIZE * BSIZE) p) s1).
Proof.
  intros A Eo Hm Hp Ex. destruct A as [D F Hfb G Hl Hh]. pose proof (fv_m _ _ _ _ _ F). assert (Hd : 0 <= off / BSIZE) by (apply Z.div_pos; [lia|done]).
  assert (Hn : x <> 0) by (rewrite Ex; apply (fv_mapped _ _ _ _ _ F); lia). assert (Hk : 0 <= file_slot (off / BSIZE) < NSLOTS) by (apply file_slot_range; lia).
  assert (Hr : nmeta <= x < freeblock s1) by (rewrite Ex in *; by apply (fv_range _ _ _ _ _ F)). pose proof (Z.div_mod off BSIZE ltac:(done)). pose proof (Z.mod_pos_bound off BSIZE ltac:(done)).
  set (b := splice _ _ _). split; cbn [put_block m_img freeblock]; [| |done| |done|done].
  - apply dinv_put; [done|lia|]. unfold b. rewrite length_splice. apply D.
  - apply finv_write; [done|done|done|done|done|apply D].
  - refine (grew_trans _ _ _ _ _ _ G _). split; cbn [put_block m_img freeblock freeinode]; [| |lia|done].
    + intros y Hy Hks. unfold bupd. rewrite decide_False; [done|]. intros E. apply (Hks _ Hk). congruence.
    + intros k Hkk. rewrite Ex. rewrite (slot_data _ _ _ _ _ _ _ _ F) by (done || lia). auto.
Qed.

Lemma iappend_loop_ok inum fuel : forall p din C s off, (length p <= fuel)%nat -> dinv s -> off = Z.of_nat (length C) ->
  finv (m_img s) (freeblock s) (dino inum din) (blocks off) C -> length din = 64%nat ->
  off + Z.of_nat (length p) <= MAXFILE * BSIZE -> freeblock s + nb (blocks (off + Z.of_nat (length p))) - nb (blocks off) <= FSSIZE ->
  exists din1 s1, iappend_loop fuel din off p s = Made (din1, off + Z.of_nat (length p)) s1 /\
    alloced inum din (blocks off) s (blocks (off + Z.of_nat (length p))) (C ++ p) din1 s1.
Proof.
  induction fuel as [|fuel IH]; intros p din C s off Hp D Eo F Hl Hmax Hfb.
  all: destruct (decide (p = [])) as [->|Hne]; [exists din, s; rewrite Z.add_0_r, app_nil_r; split; [done|by apply alloced_refl]|].
  { destruct p; [done|cbn in Hp; lia]. }
  assert (Hlp : (0 < length p)%nat) by (destruct p; [done|cbn; lia]). set (fbn := off / BSIZE). set (n1 := Z.min (Z.of_nat (length p)) ((fbn + 1) * BSIZE - off)).
  pose proof (Z.div_mod off BSIZE ltac:(done)) as Hdm. pose proof (Z.mod_pos_bound off BSIZE ltac:(done)) as Hmb. assert (Hn1 : 0 < n1 <= (off / BSIZE + 1) * BSIZE - off) by (unfold n1, fbn, BSIZE in *; lia).
  assert (Hn1p : n1 <= Z.of_nat (length p)) by (unfold n1; lia).
  destruct (blocks_step off n1 ltac:(lia) Hn1) as (Hfbn & Eb & Em). fold fbn in Hfbn, Eb, Em, Hdm. assert (EM : MAXFILE = 268) by done. assert (Hfm : fbn < MAXFILE) by (unfold BSIZE in *; lia).
  assert (Hb1 : blocks (off + n1) <= blocks (off + Z.of_nat (length p))) by (apply blocks_mono; lia). pose proof (nb_mono _ _ Hb1) as Hnb.
  destruct (file_block_ok inum din (blocks off) C s fbn D F Hl Hfbn Hfm ltac:(rewrite Em, <- Eb; lia)) as (din1 & s1 & Efb & A). rewrite Em, <- Eb in A.
  set (x := slot (m_img s1) (dino inum din1) (file_slot fbn)) in *. pose proof (al_finv _ _ _ _ _ _ _ _ A) as F1. pose proof (al_dinv _ _ _ _ _ _ _ _ A) as D1.
  assert (Hx : 0 <= x < FSSIZE). { pose proof (di_free _ D1). assert (0 < nmeta) by done. pose proof (fv_range _ _ _ _ _ F1 (file_slot fbn) ltac:(apply file_slot_range; lia)) as Hrx. fold x in Hrx. unfold FSSIZE in *. lia. }
  assert (Ht : Z.of_nat (length (take (Z.to_nat n1) p)) = n1) by (rewrite length_take; lia).
  pose proof (alloced_write inum din (blocks off) s _ C din1 s1 (take (Z.to_nat n1) p) off x A Eo ltac:(rewrite Eb; unfold fbn; lia) ltac:(rewrite Ht; unfold fbn in *; lia) eq_refl) as A1.
  set (s2 := put_block x _ s1) in *. pose proof (al_dinv _ _ _ _ _ _ _ _ A1) as D2. pose proof (al_finv _ _ _ _ _ _ _ _ A1) as F2. pose proof (al_fb _ _ _ _ _ _ _ _ A1) as Hfb2.
  destruct (IH (drop (Z.to_nat n1) p) din1 (C ++ take (Z.to_nat n1) p) s2 (off + n1)) as (din2 & s3 & E2 & A2); [rewrite length_drop; lia|done|rewrite length_app; lia|done|apply A1|rewrite length_drop; lia|rewrite length_drop; replace (off + n1 + _) with (off + Z.of_nat (length p)) by lia; lia|].
  rewrite length_drop in *. replace (off + n1 + _) with (off + Z.of_nat (length p)) in * by lia. rewrite <- app_assoc, take_drop in A2. exists din2, s3. split; [|exact (alloced_trans _ _ _ _ _ _ _ _ _ _ _ _ A1 A2)].
  rewrite <- E2. destruct p as [|c p]; [done|]. cbn [iappend_loop]. fold fbn. unfold kbind, assert. rewrite (proj2 (Z.ltb_lt _ _)) by done. unfold kret. rewrite Efb. fold x. fold n1.
  rewrite rsect_ok, wsect_ok by done. by rewrite u32_small by (unfold BSIZE in *; lia).
Qed.

(** ** Inodes *)

Definition is_inum (n : Z) : Prop := 0 <= n < NINODES.

Lemma IBLOCK_range n : is_inum n -> 1 < IBLOCK n mk_sb < nmeta - 1.
Proof.
  unfold is_inum, NINODES. intros Hn. unfold IBLOCK. change IPB with 16. change (sb_inodestart mk_sb) with 32. change nmeta with 46.
  pose proof (Z.div_mod n 16 ltac:(done)). pose proof (Z.mod_pos_bound n 16 ltac:(done)). lia.
Qed.

Lemma IBLOCK_disk n s : dinv s -> is_inum n -> 0 <= IBLOCK n mk_sb < FSSIZE /\ IBLOCK n mk_sb < freeblock s.
Proof. intros D Hn. apply IBLOCK_range in Hn. pose proof (di_free _ D). change nmeta with 46 in *. unfold FSSIZE. lia. Qed.

Lemma rinode_ok n s : dinv s -> is_inum n -> exists din, rinode n s = Made din s /\ length din = 64%nat /\ dino n din = inode_on (m_img s) n.
Proof.
  intros D Hn. destruct (IBLOCK_disk n s D Hn). exists (slice (m_img s (IBLOCK n mk_sb)) (dip_off n) sizeof_dinode). split; [|split; [|apply dino_slice]].
  - unfold rinode, kbind. by rewrite rsect_ok.
  - pose proof (dip_off_range n). rewrite length_slice; rewrite ?(di_block _ D); unfold sizeof_dinode, BSIZE in *; lia.
Qed.

Definition put_inode (n : Z) (din : list Z) (s : mk) : mk :=
  put_block (IBLOCK n mk_sb) (splice (m_img s (IBLOCK n mk_sb)) (dip_off n) din) s.

Lemma winode_ok n din s : dinv s -> is_inum n -> winode n din s = Made tt (put_inode n din s).
Proof. intros D Hn. destruct (IBLOCK_disk n s D Hn). unfold winode, kbind. by rewrite rsect_ok, wsect_ok. Qed.

Lemma dinv_put_inode n din s : dinv s -> is_inum n -> dinv (put_inode n din s).
Proof. intros D Hn. destruct (IBLOCK_disk n s D Hn). apply dinv_put; [done|done|]. rewrite length_splice. apply D. Qed.

Lemma put_inode_same n din s : dinv s -> length din = 64%nat -> inode_on (m_img (put_inode n din s)) n = dino n din.
Proof.
  intros D Hl. apply load_shift. intros x Hx. unfold put_inode, put_block. cbn [m_img]. unfold bupd. rewrite decide_True by done. pose proof (dip_off_range n). rewrite Z.add_0_l.
  rewrite nthZ_splice by (rewrite ?(di_block _ D), ?Hl; unfold sizeof_dinode, BSIZE in *; lia). rewrite decide_True by (rewrite Hl; unfold sizeof_dinode in *; lia). f_equal. lia.
Qed.

Lemma inode_apart n n' : IBLOCK n mk_sb = IBLOCK n' mk_sb -> n <> n' -> dip_off n + sizeof_dinode <= dip_off n' \/ dip_off n' + sizeof_dinode <= dip_off n.
Proof.
  unfold IBLOCK, dip_off, sizeof_dinode. change IPB with 16. intros E Hn. pose proof (Z.div_mod n 16 ltac:(done)). pose proof (Z.div_mod n' 16 ltac:(done)). lia.
Qed.

Lemma put_inode_other n din s n' : dinv s -> length din = 64%nat -> n <> n' -> inode_on (m_img (put_inode n din s)) n' = inode_on (m_img s) n'.
Proof.
  intros D Hl Hn. unfold inode_on, put_inode, put_block. cbn [m_img]. unfold bupd. destruct (decide (IBLOCK n mk_sb = IBLOCK n' mk_sb)) as [E|E]; [|done].
  rewrite <- E. apply load_shift. intros x Hx. pose proof (dip_off_range n). pose proof (dip_off_range n'). destruct (inode_apart n n' E Hn).
  all: rewrite nthZ_splice by (rewrite ?(di_block _ D), ?Hl; unfold sizeof_dinode, BSIZE in *; lia); rewrite decide_False by (rewrite Hl; unfold sizeof_dinode in *; lia); done.
Qed.

Lemma put_inode_block n din s x : is_inum n -> x = 1 \/ nmeta - 1 <= x -> m_img (put_inode n din s) x = m_img s x.
Proof. intros Hn Hx. apply IBLOCK_range in Hn. unfold put_inode, put_block. cbn [m_img]. unfold bupd. rewrite decide_False; [done|lia]. Qed.

(** A file whose blocks are as they were. *)
Lemma slot_frame img img' i i' k : i_addrs i' = i_addrs i -> (slot img i NDIRECT <> 0 -> img' (slot img i NDIRECT) = img (slot img i NDIRECT)) -> slot img' i' k = slot img i k.
Proof.
  intros Ha Hi. destruct (decide (k <= NDIRECT)); [by rewrite !slot_le, Ha|]. rewrite !(slot_gt _ _ k) by lia. rewrite (slot_le img'), Ha, <- (slot_le img) by done.
  destruct (decide (slot img i NDIRECT = 0)); [done|]. by rewrite Hi.
Qed.

Lemma finv_frame img img' fb fb' i i' m C : i_addrs i' = i_addrs i -> fb <= fb' ->
  (forall k, 0 <= k < NSLOTS -> slot img i k <> 0 -> img' (slot img i k) = img (slot img i k)) ->
  finv img fb i m C -> finv img' fb' i' m C.
Proof.
  intros Ha Hfb Himg F. assert (Hs : forall k, slot img' i' k = slot img i k) by (intros k; apply slot_frame; [done|by apply Himg]). split.
  - intros k Hk. rewrite Hs. intros Hn. pose proof (fv_range _ _ _ _ _ F k Hk Hn). lia.
  - intros k k' Hk Hk'. rewrite !Hs. by apply F.
  - apply F.
  - intros bn Hbn. rewrite Hs. by apply F.
  - rewrite Hs. apply F.
  - apply F.
  - intros o Ho Hm. rewrite <- (fv_bytes _ _ _ _ _ F o Ho Hm). unfold fbyte. rewrite Hs. assert (0 <= o / BSIZE) by (by apply Z.div_pos). pose proof (fv_m _ _ _ _ _ F).
    rewrite Himg; [done|apply file_slot_range; lia|]. apply (fv_mapped _ _ _ _ _ F); lia.
Qed.

(** ** The image *)

(** The files made so far, in the order of their inodes: their types and contents. *)
Notation file_list := (list (Z * list Z)).
Definition len (C : list Z) : Z := Z.of_nat (length C).
Definition inum_of (k : nat) : Z := 1 + Z.of_nat k.

Definition total (fl : file_list) : Z := foldr (fun f n => nb (blocks (len (snd f))) + n) 0 fl.

Record file_on (s : mk) (k : nat) (t : Z) (C : list Z) : Prop := {
  fn_type : i_type (inode_on (m_img s) (inum_of k)) = t;
  fn_nlink : i_nlink (inode_on (m_img s) (inum_of k)) = 1;
  fn_size : i_size (inode_on (m_img s) (inum_of k)) = len C;
  fn_data : finv (m_img s) (freeblock s) (inode_on (m_img s) (inum_of k)) (blocks (len C)) C
}.

Definition apart (img : Z -> block) (i i' : inode) : Prop :=
  forall j j', 0 <= j < NSLOTS -> 0 <= j' < NSLOTS -> slot img i j <> 0 -> slot img i j <> slot img i' j'.

Record ginv (s : mk) (fl : file_list) : Prop := {
  gi_disk : dinv s;
  gi_inode : freeinode s = inum_of (length fl) /\ freeinode s <= NINODES;
  gi_file k t C : fl !! k = Some (t, C) -> file_on s k t C;
  (** no block belongs to two files *)
  gi_apart k k' : (k < length fl)%nat -> (k' < length fl)%nat -> k <> k' ->
    apart (m_img s) (inode_on (m_img s) (inum_of k)) (inode_on (m_img s) (inum_of k'));
  (** the other inodes are free *)
  gi_free n : inum_of (length fl) <= n < NINODES -> i_type (inode_on (m_img s) n) = 0;
  gi_blocks : freeblock s = nmeta + total fl;
  gi_sb : decode_sb (m_img s 1) = mk_sb
}.

Lemma total_insert fl k x y : fl !! k = Some x ->
  total (<[k := y]> fl) = total fl + nb (blocks (len (snd y))) - nb (blocks (len (snd x))).
Proof.
  revert k. induction fl as [|f fl IH]; intros [|k] Hk; cbn in Hk; [done|done|simplify_eq; cbn; lia|].
  change (nb (blocks (len (snd f))) + total (<[k := y]> fl) = nb (blocks (len (snd f))) + total fl + nb (blocks (len (snd y))) - nb (blocks (len (snd x)))). rewrite (IH k Hk). lia.
Qed.

Lemma total_app fl fl' : total (fl ++ fl') = total fl + total fl'.
Proof. induction fl as [|f fl IH]; [done|]. change (nb (blocks (len (snd f))) + total (fl ++ fl') = nb (blocks (len (snd f))) + total fl + total fl'). lia. Qed.

Lemma nb_nonneg m : 0 <= m -> 0 <= nb m.
Proof. intros H. unfold nb. case_match; lia. Qed.

Lemma blocks_nonneg n : 0 <= n -> 0 <= blocks n.
Proof. intros H. apply Z.div_pos; [|done]. unfold BSIZE. lia. Qed.

(** ** iappend *)

Section append.
Context (s : mk) (fl : file_list) (k : nat) (t : Z) (C p : list Z).
Context (G : ginv s fl) (Hk : fl !! k = Some (t, C)).
Context (Hfits : len C + len p <= MAXFILE * BSIZE) (Hroom : freeblock s + nb (blocks (len (C ++ p))) - nb (blocks (len C)) <= FSSIZE).

Lemma fl_inum k' : (k' < length fl)%nat -> is_inum (inum_of k').
Proof using G. destruct (gi_inode _ _ G) as [E H]. rewrite E in H. unfold is_inum, inum_of in *. lia. Qed.

Lemma k_lt : (k < length fl)%nat.
Proof using Hk. by apply lookup_lt_Some in Hk. Qed.

Lemma fl_file k' : (k' < length fl)%nat -> exists t' C', file_on s k' t' C'.
Proof using G. intros H. apply lookup_lt_is_Some in H as [[t' C'] H]. exists t', C'. by apply G. Qed.

(** The data has been written, and then the inode. *)
Context (din din1 : list Z) (s1 : mk) (Hdin : dino (inum_of k) din = inode_on (m_img s) (inum_of k)).
Context (A : alloced (inum_of k) din (blocks (len C)) s (blocks (len (C ++ p))) (C ++ p) din1 s1).

Let din2 := put32 din1 8 (len (C ++ p)).
Let s2 := put_inode (inum_of k) din2 s1.

Lemma A_grew : grew s s1 (inode_on (m_img s) (inum_of k)) (dino (inum_of k) din1).
Proof using A Hdin. rewrite <- Hdin. apply A. Qed.

Lemma append_keeps_meta x : 0 < x < nmeta -> m_img s1 x = m_img s x.
Proof using A Hdin Hk G.
  intros Hx. pose proof (di_free _ (gi_disk _ _ G)). apply (gr_img _ _ _ _ A_grew); [lia|]. intros j Hj E.
  pose proof (fv_range _ _ _ _ _ (fn_data _ _ _ _ (gi_file _ _ G k t C Hk)) j Hj). lia.
Qed.

Lemma append_inode n : is_inum n -> n <> inum_of k -> inode_on (m_img s2) n = inode_on (m_img s) n.
Proof using A Hdin Hk G.
  intros Hn Hne. unfold s2. rewrite put_inode_other; [|apply A|unfold din2; rewrite length_put32; apply A|done]. unfold inode_on. pose proof (IBLOCK_range n Hn). by rewrite append_keeps_meta by lia.
Qed.

Lemma append_self : inode_on (m_img s2) (inum_of k) = dino (inum_of k) din2.
Proof using A. apply put_inode_same; [apply A|]. unfold din2. rewrite length_put32. apply A. Qed.

Lemma append_addrs : i_addrs (dino (inum_of k) din2) = i_addrs (dino (inum_of k) din1).
Proof using A.
  unfold din2, dino, load_dinode. cbn [i_addrs]. apply list_fmap_ext. intros j x Hx. apply list_elem_of_lookup_2, elem_of_upto in Hx. apply get32_put32_out; lia.
Qed.

Lemma append_data x : nmeta <= x -> m_img s2 x = m_img s1 x.
Proof using G Hk. intros Hx. apply put_inode_block; [apply fl_inum, k_lt|lia]. Qed.

Lemma append_file_on : file_on s2 k t (C ++ p).
Proof using A Hdin Hk G Hfits.
  destruct (gi_file _ _ G k t C Hk) as [Ht Hn Hs F]. pose proof (al_len _ _ _ _ _ _ _ _ A) as Hl. pose proof (al_head _ _ _ _ _ _ _ _ A) as Hh.
  assert (H16 : forall x, 0 <= x <= 6 -> get16 din2 x = get16 din x).
  { intros x Hx. apply get16_ext. intros y Hy. unfold din2. rewrite nthZ_put32_out by lia. apply Hh. lia. }
  rewrite <- Hdin in Ht, Hn. unfold dino, load_dinode in Ht, Hn. cbn [i_type i_nlink] in Ht, Hn. split; rewrite append_self.
  - unfold dino, load_dinode. cbn [i_type]. by rewrite H16.
  - unfold dino, load_dinode. cbn [i_nlink]. by rewrite H16.
  - unfold dino, load_dinode. cbn [i_size]. unfold din2. rewrite get32_put32_same by lia. apply u32_small. unfold len in *. rewrite length_app. change (MAXFILE * BSIZE) with 274432 in *. lia.
  - refine (finv_frame (m_img s1) _ (freeblock s1) _ _ _ _ _ append_addrs _ _ (al_finv _ _ _ _ _ _ _ _ A)); [done|].
    intros j Hj Hn0. apply append_data. pose proof (fv_range _ _ _ _ _ (al_finv _ _ _ _ _ _ _ _ A) j Hj Hn0). lia.
Qed.

Lemma append_self_slot j : 0 <= j < NSLOTS -> slot (m_img s2) (inode_on (m_img s2) (inum_of k)) j = slot (m_img s1) (dino (inum_of k) din1) j.
Proof using A Hk G.
  intros Hj. rewrite append_self. apply slot_frame; [apply append_addrs|]. intros Hn. apply append_data.
  pose proof (fv_range _ _ _ _ _ (al_finv _ _ _ _ _ _ _ _ A) NDIRECT ltac:(done) Hn). lia.
Qed.

Lemma append_other_block k' j : (k' < length fl)%nat -> k' <> k -> 0 <= j < NSLOTS ->
  let x := slot (m_img s) (inode_on (m_img s) (inum_of k')) j in x <> 0 -> m_img s2 x = m_img s x.
Proof using A Hdin Hk G.
  intros Hk' Hne Hj x Hx. destruct (fl_file k' Hk') as (t' & C' & F'). pose proof (fv_range _ _ _ _ _ (fn_data _ _ _ _ F') j Hj Hx) as Hr. fold x in Hr.
  rewrite append_data by lia. assert (0 < nmeta) by done. apply (gr_img _ _ _ _ A_grew); [lia|]. intros j' Hj' E. apply (gi_apart _ _ G k' k Hk' k_lt Hne j j' Hj Hj' Hx). by rewrite E.
Qed.

Lemma append_inode_other k' : (k' < length fl)%nat -> k' <> k -> inode_on (m_img s2) (inum_of k') = inode_on (m_img s) (inum_of k').
Proof using A Hdin Hk G. intros Hk' Hne. apply append_inode; [by apply fl_inum|unfold inum_of; lia]. Qed.

Lemma append_other_slot k' j : (k' < length fl)%nat -> k' <> k -> slot (m_img s2) (inode_on (m_img s2) (inum_of k')) j = slot (m_img s) (inode_on (m_img s) (inum_of k')) j.
Proof using A Hdin Hk G. intros Hk' Hne. rewrite append_inode_other by done. apply slot_frame; [done|]. by apply append_other_block. Qed.

Lemma append_other k' t' C' : fl !! k' = Some (t', C') -> k' <> k -> file_on s2 k' t' C'.
Proof using A Hdin Hk G.
  intros Hk' Hne. assert (Hlt : (k' < length fl)%nat) by (by apply lookup_lt_Some in Hk'). destruct (gi_file _ _ G k' t' C' Hk') as [Ht Hn Hs F]. split; rewrite append_inode_other by done; [done..|].
  refine (finv_frame (m_img s) _ (freeblock s) _ _ _ _ _ eq_refl _ _ F); [exact (gr_fb _ _ _ _ A_grew)|]. intros j Hj. by apply append_other_block.
Qed.

Lemma append_apart k' : (k' < length fl)%nat -> k' <> k ->
  apart (m_img s2) (inode_on (m_img s2) (inum_of k)) (inode_on (m_img s2) (inum_of k')) /\
  apart (m_img s2) (inode_on (m_img s2) (inum_of k')) (inode_on (m_img s2) (inum_of k)).
Proof using A Hdin Hk G.
  intros Hk' Hne. destruct (fl_file k' Hk') as (t' & C' & F'). assert (Hx : forall j j', 0 <= j < NSLOTS -> 0 <= j' < NSLOTS ->
    slot (m_img s2) (inode_on (m_img s2) (inum_of k)) j <> 0 -> slot (m_img s2) (inode_on (m_img s2) (inum_of k)) j <> slot (m_img s2) (inode_on (m_img s2) (inum_of k')) j').
  { intros j j' Hj Hj'. rewrite append_self_slot, append_other_slot by done. intros Hn E. destruct (gr_slot _ _ _ _ A_grew j Hj Hn) as [E'|E'].
    - rewrite <- E' in *. exact (gi_apart _ _ G k k' k_lt Hk' (not_eq_sym Hne) j j' Hj Hj' Hn E).
    - rewrite E in *. pose proof (fv_range _ _ _ _ _ (fn_data _ _ _ _ F') j' Hj' Hn). lia. }
  split; [exact Hx|]. intros j j' Hj Hj' Hn E. apply (Hx j' j Hj' Hj); [congruence|done].
Qed.

Lemma append_ginv : ginv s2 (<[k := (t, C ++ p)]> fl).
Proof using A Hdin Hk G Hfits.
  pose proof k_lt as Hlt. split; rewrite ?length_insert.
  - apply dinv_put_inode; [apply A|by apply fl_inum].
  - change (freeinode s2) with (freeinode s1). rewrite (gr_inode _ _ _ _ A_grew). apply G.
  - intros k' t' C' H. destruct (decide (k' = k)) as [->|Hne].
    + rewrite list_lookup_insert_eq in H by done. injection H as <- <-. apply append_file_on.
    + rewrite list_lookup_insert_ne in H by done. by apply append_other.
  - intros k1 k2 H1 H2 Hne. destruct (decide (k1 = k)) as [->|H1k]; [by apply append_apart|]. destruct (decide (k2 = k)) as [->|H2k]; [by apply append_apart|].
    intros j j' Hj Hj'. rewrite !append_other_slot by done. by apply G.
  - intros n Hn. rewrite append_inode; [by apply G|unfold is_inum, inum_of in *; lia|unfold inum_of in *; lia].
  - change (freeblock s2) with (freeblock s1). rewrite (al_fb _ _ _ _ _ _ _ _ A), (gi_blocks _ _ G), (total_insert _ _ _ _ Hk). cbn [snd]. lia.
  - unfold s2. rewrite put_inode_block by (by apply fl_inum || auto). rewrite append_keeps_meta by done. apply G.
Qed.
End append.

(** [iappend] appends. *)
Lemma iappend_ok s fl k t C p : ginv s fl -> fl !! k = Some (t, C) ->
  len C + len p <= MAXFILE * BSIZE -> freeblock s + nb (blocks (len (C ++ p))) - nb (blocks (len C)) <= FSSIZE ->
  exists s', iappend (inum_of k) p s = Made tt s' /\ ginv s' (<[k := (t, C ++ p)]> fl).
Proof.
  intros G Hk Hfits Hroom. pose proof (gi_disk _ _ G) as D. pose proof (gi_file _ _ G k t C Hk) as Hf. assert (Hn : is_inum (inum_of k)) by (apply (fl_inum s fl G), (k_lt _ _ _ _ Hk)).
  destruct (rinode_ok (inum_of k) s D Hn) as (din & E & Hl & Hd). assert (Hsz : get32 din 8 = len C) by (rewrite <- (fn_size _ _ _ _ Hf), <- Hd; done).
  assert (Elen : len C + Z.of_nat (length p) = len (C ++ p)) by (unfold len; rewrite length_app; lia).
  destruct (iappend_loop_ok (inum_of k) (length p) p din C s (len C)) as (din1 & s1 & E1 & A); [done|done|done|rewrite Hd; apply Hf|done|done|by rewrite Elen|]. rewrite Elen in *.
  eexists. split; [|exact (append_ginv s fl k t C p G Hk Hfits din din1 s1 Hd A)].
  unfold iappend, kbind. rewrite E, Hsz, E1. apply winode_ok; [apply A|done].
Qed.
