(* ===== verification/MkfsFiles.v ===== *)
(** * The files of the command line

    [ialloc] makes an empty file, and the loop over the command line adds an inode, a
    directory entry and the contents for every file, keeping [ginv] ([add_files_ok]). *)

From S2P Require Import Prelude KMonad Riscv Mem Bytes Sleeplock Bio BlockLayer UserMem Fs FsDir FsBlk FsFile FsData FsInode FsName Mkfs MkfsInv MkfsAppend.

(** ** ialloc *)

Definition new_inode (t : Z) : list Z := put32 (put16 (put16 (zeros sizeof_dinode) 0 t) 6 1) 8 0.

Definition is_type (t : Z) : Prop := t = T_DIR \/ t = T_FILE.

Lemma new_inode_slot img n t k : is_type t -> slot img (dino n (new_inode t)) k = 0.
Proof.
  intros Ht. assert (Ha : i_addrs (dino n (new_inode t)) = replicate 13 0) by (by destruct Ht as [-> | ->]).
  assert (Hle : forall k, k <= NDIRECT -> slot img (dino n (new_inode t)) k = 0) by (intros j Hj; rewrite slot_le, Ha by done; apply nthZ_replicate).
  destruct (decide (k <= NDIRECT)); [by apply Hle|]. rewrite slot_gt by lia. by rewrite decide_True by (by apply Hle).
Qed.

Lemma new_inode_empty img fb n t : is_type t -> finv img fb (dino n (new_inode t)) (blocks 0) [].
Proof.
  intros Ht. pose proof (fun k => new_inode_slot img n t k Ht) as Hs.
  change (blocks 0) with 0. split.
  - intros k _. by rewrite Hs.
  - intros k k' _ _. by rewrite Hs.
  - done.
  - intros bn Hbn. rewrite Hs. lia.
  - by rewrite Hs.
  - done.
  - intros o Ho. pose proof (Z.div_pos o BSIZE Ho ltac:(done)). lia.
Qed.

Lemma ialloc_frame s s1 n din fl k t C : ginv s fl -> m_img s1 = m_img s -> freeblock s1 = freeblock s -> dinv s1 -> is_inum n -> n <> inum_of k -> length din = 64%nat ->
  file_on s k t C ->
  inode_on (m_img (put_inode n din s1)) (inum_of k) = inode_on (m_img s) (inum_of k) /\
  (forall j, slot (m_img (put_inode n din s1)) (inode_on (m_img s) (inum_of k)) j = slot (m_img s) (inode_on (m_img s) (inum_of k)) j) /\
  file_on (put_inode n din s1) k t C.
Proof.
  intros G Ei Ef D1 Hn Hne Hl [Ht Hnl Hs F]. assert (Eo : inode_on (m_img (put_inode n din s1)) (inum_of k) = inode_on (m_img s) (inum_of k)) by (rewrite put_inode_other by done; by rewrite Ei).
  assert (Hd : forall j, 0 <= j < NSLOTS -> slot (m_img s) (inode_on (m_img s) (inum_of k)) j <> 0 ->
    m_img (put_inode n din s1) (slot (m_img s) (inode_on (m_img s) (inum_of k)) j) = m_img s (slot (m_img s) (inode_on (m_img s) (inum_of k)) j)).
  { intros j Hj Hj0. pose proof (fv_range _ _ _ _ _ F j Hj Hj0). rewrite put_inode_block by (done || lia). by rewrite Ei. }
  split; [done|]. split; [intros j; apply slot_frame; [done|by apply Hd]|]. split; rewrite Eo; [done..|].
  refine (finv_frame _ _ _ _ _ _ _ _ eq_refl _ Hd F). change (freeblock (put_inode n din s1)) with (freeblock s1). lia.
Qed.

Lemma ialloc_ok s fl t : ginv s fl -> is_type t -> inum_of (length fl) < NINODES ->
  exists s', mk_ialloc t s = Made (inum_of (length fl)) s' /\ ginv s' (fl ++ [(t, [])]).
Proof.
  intros G Ht Hn. pose proof (gi_disk _ _ G) as D. destruct (gi_inode _ _ G) as [Ei Hi]. set (n := inum_of (length fl)) in *.
  set (s1 := Mk (m_img s) (m_len s) (n + 1) (freeblock s)). assert (D1 : dinv s1) by (destruct D; by split).
  assert (Hin : is_inum n) by (unfold is_inum, n, inum_of in *; lia). assert (Hl : length (new_inode t) = 64%nat) by (unfold new_inode; by rewrite length_put32, !length_put16).
  assert (Es : inode_on (m_img (put_inode n (new_inode t) s1)) n = dino n (new_inode t)) by (by apply put_inode_same).
  assert (Fr : forall k t' C', (k < length fl)%nat -> file_on s k t' C' -> _) by (intros k t' C' Hk; refine (ialloc_frame s s1 n (new_inode t) fl k t' C' G eq_refl eq_refl D1 Hin _ Hl); unfold n, inum_of; lia).
  exists (put_inode n (new_inode t) s1). split.
  { unfold mk_ialloc, kbind, next_inode. rewrite Ei. rewrite u32_small by (unfold is_inum, NINODES in *; lia). fold s1. fold (new_inode t). by rewrite winode_ok. }
  assert (Hnew : file_on (put_inode n (new_inode t) s1) (length fl) t []).
  { split; fold n; rewrite Es; [by destruct Ht as [-> | ->]..|]. by apply new_inode_empty. }
  split; rewrite ?length_app; cbn [length].
  - by apply dinv_put_inode.
  - change (freeinode (put_inode n (new_inode t) s1)) with (n + 1). unfold n, inum_of in *. lia.
  - intros k t' C' Hk. apply lookup_app_Some in Hk as [Hk|[Hk Hk']].
    + apply (Fr k); [by apply lookup_lt_Some in Hk|by apply G].
    + apply list_lookup_singleton_Some in Hk' as [Hk0 [= <- <-]]. by replace k with (length fl) by lia.
  - assert (Hz : forall j, slot (m_img (put_inode n (new_inode t) s1)) (inode_on (m_img (put_inode n (new_inode t) s1)) n) j = 0) by (intros j; rewrite Es; by apply new_inode_slot).
    intros k k' Hk Hk' Hne j j' Hj Hj'. destruct (decide (k = length fl)) as [->|Hk1]; [fold n; by rewrite Hz|]. destruct (fl_file s fl G k ltac:(lia)) as (t1 & C1 & F1).
    destruct (Fr k t1 C1 ltac:(lia) F1) as (E1 & Sl1 & _). destruct (decide (k' = length fl)) as [->|Hk2]; [fold n; by rewrite Hz|].
    destruct (fl_file s fl G k' ltac:(lia)) as (t2 & C2 & F2). destruct (Fr k' t2 C2 ltac:(lia) F2) as (E2 & Sl2 & _). rewrite E1, E2, Sl1, Sl2. apply (gi_apart _ _ G k k'); lia.
  - intros n' Hn'. rewrite put_inode_other by (done || unfold n, inum_of in *; lia). apply (gi_free _ _ G). unfold inum_of in *. lia.
  - change (freeblock (put_inode n (new_inode t) s1)) with (freeblock s). rewrite total_app, (gi_blocks _ _ G). change (total [(t, [])]) with 0. lia.
  - rewrite put_inode_block by auto. apply G.
Qed.

(** ** The files *)

Definition fits (fl : file_list) : Prop := nmeta + total fl <= FSSIZE.

Lemma iappend_fits s fl k t C p : ginv s fl -> fl !! k = Some (t, C) -> len (C ++ p) <= MAXFILE * BSIZE -> fits (<[k := (t, C ++ p)]> fl) ->
  exists s', iappend (inum_of k) p s = Made tt s' /\ ginv s' (<[k := (t, C ++ p)]> fl).
Proof.
  intros G Hk Hl Hf. apply (iappend_ok s fl k t C p); [done|done|unfold len in *; rewrite length_app in Hl; lia|].
  unfold fits in Hf. rewrite (total_insert _ _ _ _ Hk) in Hf. cbn [snd] in Hf. rewrite (gi_blocks _ _ G). lia.
Qed.

Lemma total_append fl k t C p : fl !! k = Some (t, C) -> total fl <= total (<[k := (t, C ++ p)]> fl).
Proof.
  intros Hk. rewrite (total_insert _ _ _ _ Hk). cbn [snd]. assert (nb (blocks (len C)) <= nb (blocks (len (C ++ p)))); [|lia].
  apply nb_mono, blocks_mono. unfold len. rewrite length_app. lia.
Qed.

Lemma append_all_ok k t ps : forall s fl C, ginv s fl -> fl !! k = Some (t, C) -> len (C ++ concat ps) <= MAXFILE * BSIZE -> fits (<[k := (t, C ++ concat ps)]> fl) ->
  exists s', append_all (inum_of k) ps s = Made tt s' /\ ginv s' (<[k := (t, C ++ concat ps)]> fl).
Proof.
  induction ps as [|p ps IH]; intros s fl C G Hk Hl Hf; cbn [concat append_all] in *.
  - rewrite app_nil_r in *. exists s. split; [done|]. by rewrite list_insert_id.
  - assert (Hlt : (k < length fl)%nat) by (by apply lookup_lt_Some in Hk). set (fl1 := <[k := (t, C ++ p)]> fl). assert (Hk1 : fl1 !! k = Some (t, C ++ p)) by (by apply list_lookup_insert_eq).
    assert (E1 : <[k := (t, (C ++ p) ++ concat ps)]> fl1 = <[k := (t, C ++ p ++ concat ps)]> fl) by (unfold fl1; by rewrite list_insert_insert_eq, app_assoc).
    pose proof (total_append fl1 k t (C ++ p) (concat ps) Hk1) as Hmono. rewrite E1 in Hmono.
    destruct (iappend_fits s fl k t C p G Hk) as (s1 & Es1 & G1); [unfold len in *; rewrite !length_app in *; lia|fold fl1; unfold fits in *; lia|]. fold fl1 in G1.
    destruct (IH s1 fl1 (C ++ p) G1 Hk1) as (s2 & Es2 & G2); [by rewrite <- app_assoc|by rewrite E1|]. exists s2. rewrite <- E1. split; [|done]. unfold kbind. by rewrite Es1.
Qed.

(** A file of the command line: its name there and the pieces in which it is read. *)
Notation arg := (list Z * list (list Z))%type.

Definition opened (fs : list arg) : list (list Z * option (list (list Z))) := (fun f => (fst f, Some (snd f))) <$> fs.
Definition data_files (fs : list arg) : file_list := (fun f => (T_FILE, concat (snd f))) <$> fs.

(** The entries of the root directory, for inodes from [n] on. *)
Fixpoint root_entries (n : Z) (fs : list arg) : list Z :=
  match fs with
  | [] => []
  | f :: fs' => make_dirent (zeros sizeof_dirent) (shortname (fst f)) n ++ root_entries (n + 1) fs'
  end.

Definition made (D : list Z) (rest : file_list) (fs : list arg) : file_list :=
  (T_DIR, D ++ root_entries (inum_of (S (length rest))) fs) :: rest ++ data_files fs.

Record good_file (f : arg) : Prop := {
  gf_name : bytes_ok (fst f);
  gf_slash : SLASH ∉ strip_dir (fst f);
  gf_size : len (concat (snd f)) <= MAXFILE * BSIZE
}.

Lemma made_cons D rest f fs :
  made D rest (f :: fs) = made (D ++ make_dirent (zeros sizeof_dirent) (shortname (fst f)) (inum_of (S (length rest)))) (rest ++ [(T_FILE, concat (snd f))]) fs.
Proof.
  unfold made. cbn [root_entries data_files fmap list_fmap]. rewrite <- !app_assoc, length_app. cbn [length app].
  replace (inum_of (S (length rest + 1))) with (inum_of (S (length rest)) + 1) by (unfold inum_of; lia). done.
Qed.

Lemma total_nonneg fl : 0 <= total fl.
Proof. induction fl as [|f fl IH]; [done|]. change (0 <= nb (blocks (len (snd f))) + total fl). pose proof (nb_nonneg _ (blocks_nonneg (len (snd f)) ltac:(unfold len; lia))). lia. Qed.

Lemma made_mono D rest fs : total ((T_DIR, D) :: rest) <= total (made D rest fs).
Proof.
  unfold made. change (total ((T_DIR, D ++ root_entries (inum_of (S (length rest))) fs) :: rest ++ data_files fs)) with
    (nb (blocks (len (D ++ root_entries (inum_of (S (length rest))) fs))) + total (rest ++ data_files fs)).
  change (total ((T_DIR, D) :: rest)) with (nb (blocks (len D)) + total rest). rewrite total_app. pose proof (total_nonneg (data_files fs)).
  assert (nb (blocks (len D)) <= nb (blocks (len (D ++ root_entries (inum_of (S (length rest))) fs)))); [|lia]. apply nb_mono, blocks_mono. unfold len. rewrite length_app. lia.
Qed.

Definition room (D : list Z) (rest : file_list) (fs : list arg) : Prop :=
  inum_of (S (length rest) + length fs) <= NINODES /\ len (D ++ root_entries (inum_of (S (length rest))) fs) <= MAXFILE * BSIZE /\ fits (made D rest fs).

Lemma room_cons D rest f fs : room D rest (f :: fs) ->
  room (D ++ make_dirent (zeros sizeof_dirent) (shortname (fst f)) (inum_of (S (length rest)))) (rest ++ [(T_FILE, concat (snd f))]) fs.
Proof.
  intros (H1 & H2 & H3). split; [|split; [|by rewrite <- made_cons]].
  - rewrite length_app. cbn [length] in *. unfold inum_of in *. lia.
  - rewrite length_app. cbn [length root_entries] in *. rewrite <- app_assoc.
    by replace (inum_of (S (length rest + 1))) with (inum_of (S (length rest)) + 1) by (unfold inum_of; lia).
Qed.

Lemma add_file_ok D rest f fs s : good_file f -> room D rest (f :: fs) -> ginv s ((T_DIR, D) :: rest) ->
  exists s', add_file ROOTINO (fst f) (Some (snd f)) s = Made tt s' /\
    ginv s' ((T_DIR, D ++ make_dirent (zeros sizeof_dirent) (shortname (fst f)) (inum_of (S (length rest)))) :: rest ++ [(T_FILE, concat (snd f))]).
Proof.
  intros [_ Hsl Hsz] R G. set (n := inum_of (S (length rest))). set (e := make_dirent (zeros sizeof_dirent) (shortname (fst f)) n). pose proof (room_cons _ _ _ _ R) as R'. fold n e in R'.
  set (D' := D ++ e) in *. destruct R as (HR & _ & _). destruct R' as (_ & HR2 & HR3). cbn [length] in HR.
  pose proof (made_mono D' (rest ++ [(T_FILE, concat (snd f))]) fs) as Hmono. unfold fits in HR3.
  destruct (ialloc_ok s _ T_FILE G ltac:(by right) ltac:(cbn [length]; unfold inum_of in *; lia)) as (s1 & E1 & G1). cbn [length] in E1. fold n in E1.
  assert (Ht : total ((T_DIR, D') :: rest ++ [(T_FILE, [])]) <= total ((T_DIR, D') :: rest ++ [(T_FILE, concat (snd f))])).
  { change (nb (blocks (len D')) + total (rest ++ [(T_FILE, [])]) <= nb (blocks (len D')) + total (rest ++ [(T_FILE, concat (snd f))])). rewrite !total_app. pose proof (total_nonneg [(T_FILE, concat (snd f))]). change (total [(T_FILE, [])]) with 0. lia. }
  destruct (iappend_fits s1 _ 0 T_DIR D e G1 eq_refl) as (s2 & E2 & G2); [fold D'; unfold len in *; rewrite length_app in HR2; lia|change (nmeta + total ((T_DIR, D') :: rest ++ [(T_FILE, [])]) <= FSSIZE); lia|].
  cbn [insert list_insert app] in G2. fold D' in G2. set (k := S (length rest)). assert (Hk : ((T_DIR, D') :: rest ++ [(T_FILE, [])]) !! k = Some (T_FILE, [])) by (exact (list_lookup_middle rest [] (T_FILE, []) (length rest) eq_refl)).
  assert (Ei : <[k := (T_FILE, [] ++ concat (snd f))]> ((T_DIR, D') :: rest ++ [(T_FILE, [])]) = (T_DIR, D') :: rest ++ [(T_FILE, concat (snd f))]).
  { change ((T_DIR, D') :: <[length rest := (T_FILE, concat (snd f))]> (rest ++ [(T_FILE, [])]) = (T_DIR, D') :: rest ++ [(T_FILE, concat (snd f))]). f_equal.
    rewrite <- (Nat.add_0_r (length rest)). by rewrite insert_app_r. }
  destruct (append_all_ok k T_FILE (snd f) s2 _ [] G2 Hk Hsz) as (s3 & E3 & G3); [rewrite Ei; unfold fits; lia|]. rewrite Ei in G3. exists s3. split; [|done].
  unfold add_file, assert. rewrite bool_decide_false by done. unfold kbind, kret. cbn [negb]. rewrite E1. fold e. change ROOTINO with (inum_of 0). rewrite E2. done.
Qed.

Lemma add_files_ok fs : forall D rest s, Forall good_file fs -> room D rest fs -> ginv s ((T_DIR, D) :: rest) ->
  exists s', add_files ROOTINO (opened fs) s = Made tt s' /\ ginv s' (made D rest fs).
Proof.
  induction fs as [|f fs IH]; intros D rest s Hg R G.
  - exists s. split; [done|]. unfold made. cbn. by rewrite !app_nil_r.
  - apply Forall_cons in Hg as [Hf Hg]. destruct (add_file_ok D rest f fs s Hf R G) as (s1 & E1 & G1). rewrite made_cons.
    destruct (IH _ _ s1 Hg (room_cons _ _ _ _ R) G1) as (s2 & E2 & G2). exists s2. split; [|done]. cbn [opened fmap list_fmap add_files fst snd]. unfold kbind. by rewrite E1.
Qed.
