(* ===== verification/MkfsImage.v ===== *)
(** * The image that mkfs makes

    When the files named on the command line fit, [mkfs_main] ends and the disk it leaves
    is a file system the kernel can use ([mkfs_makes_image]): the superblock is the one
    [readsb] decodes, the bitmap marks exactly the blocks that are used, every inode is
    well formed ([inode_ok]) and has blocks of its own, every file has the contents of
    the file it was made from, and the root directory names them.  The exception is the
    size of a root directory whose last block is full ([root_full]). *)

From S2P Require Import Prelude KMonad Riscv Mem Bytes Sleeplock Bio BlockLayer UserMem Fs FsDir FsBlk FsFile FsData FsInode FsName Mkfs MkfsInv MkfsAppend MkfsFiles.

(** ** The empty disk *)

Lemma wsect_zeroes_ok n : forall i s, 0 <= i -> i + Z.of_nat n <= FSSIZE -> m_len s = i -> (forall x, m_img s x = zeros BSIZE) ->
  exists s', wsect_zeroes n i s = Made tt s' /\ (forall x, m_img s' x = zeros BSIZE) /\ m_len s' = i + Z.of_nat n /\ freeinode s' = freeinode s /\ freeblock s' = freeblock s.
Proof.
  induction n as [|n IH]; intros i s Hi Hn Hl Hz; [exists s; split_and!; done || lia|].
  set (s1 := Mk (bupd (m_img s) i (zeros BSIZE)) (i + 1) (freeinode s) (freeblock s)).
  destruct (IH (i + 1) s1) as (s' & E & Hz' & Hl' & Hfi & Hfb); [lia|lia|done|intros x; cbn; unfold bupd; by case_decide|].
  exists s'. split_and!; [|done|lia|done|done]. cbn [wsect_zeroes]. unfold kbind, wsect. rewrite sector_small by lia. rewrite Z.max_r by lia. done.
Qed.

Lemma ginv_start img : (forall x, img x = zeros BSIZE) ->
  ginv (Mk (bupd img 1 (splice (zeros BSIZE) 0 (encode_sb mk_sb))) FSSIZE 1 nmeta) [].
Proof.
  intros Hz. assert (Ho : forall x, x <> 1 -> bupd img 1 (splice (zeros BSIZE) 0 (encode_sb mk_sb)) x = zeros BSIZE) by (intros x Hx; unfold bupd; rewrite decide_False by done; apply Hz).
  split; cbn [m_img m_len freeinode freeblock].
  - split; cbn [m_img m_len freeblock]; [done|done| |].
    + intros x. unfold bupd. case_decide; [by rewrite length_splice|by rewrite Hz].
    + intros x Hx. apply Ho. change nmeta with 46 in Hx. lia.
  - done.
  - done.
  - intros k k' Hk. cbn in Hk. lia.
  - intros n Hn. assert (Hi : is_inum n) by (unfold is_inum, inum_of in *; cbn in *; lia). apply IBLOCK_range in Hi. unfold inode_on. rewrite Ho by lia.
    unfold load_dinode. cbn [i_type]. unfold zeros. by rewrite get16_zeros.
  - done.
  - unfold bupd. rewrite decide_True by done. by vm_compute.
Qed.

(** ** The bitmap *)

Lemma mk_bitmap_ok used : 0 <= used <= BPB -> length (mk_bitmap used) = Z.to_nat BSIZE /\ forall b, 0 <= b -> bit_set (mk_bitmap used) b = (b <? used).
Proof.
  intros [Hu Hm]. revert Hm. pattern used. apply natlike_ind; [| |done]; clear used Hu.
  - intros _. split; [done|]. intros b Hb. rewrite bit_set_testbit. change (mk_bitmap 0) with (zeros BSIZE). unfold zeros. rewrite nthZ_replicate, Z.bits_0. lia.
  - intros n Hn IH Hm. destruct (IH ltac:(lia)) as [Hl Hb]. unfold mk_bitmap. rewrite <- Z.add_1_r, upto_S, fold_left_app by done. cbn [fold_left]. fold (mk_bitmap n).
    split; [by rewrite length_setZ|]. intros b Hb0. pose proof (Z.mod_pos_bound n 8 ltac:(lia)).
    assert (Hu8 : forall y j, 0 <= j < 8 -> Z.testbit (u8 y) j = Z.testbit y j) by (intros; unfold u8; by rewrite Z.mod_pow2_bits_low by lia).
    rewrite bit_set_byte; [|lia|done|done|].
    + rewrite Hu8 by lia. rewrite Z.lor_spec, Z.shiftl_1_l, Z.pow2_bits_true by lia. rewrite orb_true_r, Hb by done. case_decide; lia.
    + intros j Hj Hne. rewrite Hu8 by lia. rewrite Z.lor_spec, Z.shiftl_1_l, Z.pow2_bits_false by lia. apply orb_false_r.
Qed.

(** ** The root directory *)

Lemma entries_cons e C : length e = 16%nat -> entries (e ++ C) = e :: entries C.
Proof.
  intros He. assert (Hd : Z.of_nat (length (e ++ C)) / sizeof_dirent = 1 + Z.of_nat (length C) / sizeof_dirent).
  { rewrite length_app, He. unfold sizeof_dirent. replace (Z.of_nat (16 + length C)) with (1 * 16 + Z.of_nat (length C)) by lia. by rewrite Z.div_add_l by lia. }
  apply list_eq. intros [|j].
  - rewrite lookup_entries; [|rewrite Hd; pose proof (Z.div_pos (Z.of_nat (length C)) sizeof_dirent ltac:(lia) ltac:(done)); lia]. cbn. f_equal.
    unfold slice. rewrite <- He at 1. apply take_app_length.
  - cbn [lookup list_lookup]. destruct (decide (Z.of_nat j < Z.of_nat (length C) / sizeof_dirent)) as [Hj|Hj].
    + rewrite !lookup_entries by lia. f_equal. unfold slice, sizeof_dirent. f_equal. replace (Z.to_nat (16 * Z.of_nat (S j))) with (length e + Z.to_nat (16 * Z.of_nat j))%nat by lia. apply drop_app_add.
    + rewrite (lookup_ge_None_2 (entries C)) by (rewrite length_entries; lia). apply lookup_ge_None_2. rewrite length_entries, Hd. lia.
Qed.

Lemma dir_map_cons e C name : length e = 16%nat -> dir_map (e ++ C) name = if decide (matches name e) then Some (de_inum e) else dir_map C name.
Proof.
  intros He. unfold dir_map, dir_find. rewrite entries_cons by done. cbn [list_find]. destruct (decide (matches name e)); [done|]. by destruct (list_find (matches name) (entries C)) as [[]|].
Qed.

Lemma dir_map_zeros n name : dir_map (replicate n 0) name = None.
Proof.
  unfold dir_map, dir_find. apply fmap_None, list_find_None, Forall_lookup. intros k e He [Hn _]. apply lookup_entries_Some in He as [_ ->]. apply Hn.
  unfold de_inum, slice. rewrite drop_replicate, take_replicate. apply get16_zeros.
Qed.

Definition named (name name' : list Z) : Prop := name_of name = name_of name'.

#[export] Instance named_dec name name' : Decision (named name name').
Proof. unfold named. apply _. Defined.

(** The inode of the first file with the name. *)
Fixpoint find_file (n : Z) (fs : list arg) (name : list Z) : option Z :=
  match fs with
  | [] => None
  | f :: fs' => if decide (named (shortname (fst f)) name) then Some n else find_file (n + 1) fs' name
  end.

Definition root_names (fs : list arg) (name : list Z) : option Z :=
  if decide (named (str ".") name \/ named (str "..") name) then Some ROOTINO else find_file (ROOTINO + 1) fs name.

Lemma dir_map_entry e C name nm n : entry_for nm n e -> n <> 0 ->
  dir_map (e ++ C) name = if decide (named nm name) then Some n else dir_map C name.
Proof.
  intros [Hl _ Hi Hn] Hn0. rewrite dir_map_cons by done. destruct (decide (matches name e)) as [[_ H]|H], (decide (named nm name)) as [H'|H']; [by rewrite Hi|destruct H'; unfold named; congruence| |done].
  destruct H. split; unfold named in *; congruence.
Qed.

Lemma bytes_shortname l : bytes_ok l -> bytes_ok (shortname l).
Proof. intros H. unfold shortname, strip_underscore, strip_dir. repeat case_match; by repeat apply Forall_drop. Qed.

Lemma make_entry f n : good_file f -> 0 <= n < 2 ^ 16 -> entry_for (shortname (fst f)) n (make_dirent (zeros sizeof_dirent) (shortname (fst f)) n).
Proof. intros Hf Hn. apply make_dirent_entry; [done|by apply Forall_replicate|by apply bytes_shortname, Hf|done]. Qed.

Lemma length_root_entries fs : forall n, length (root_entries n fs) = (16 * length fs)%nat.
Proof. induction fs as [|f fs IH]; intros n; [done|]. cbn [root_entries length]. rewrite length_app, IH. unfold make_dirent. rewrite length_put16, length_splice. change (length (zeros sizeof_dirent)) with 16%nat. lia. Qed.

Lemma dir_map_root_entries z name fs : forall n, Forall good_file fs -> 0 < n -> n + Z.of_nat (length fs) < 2 ^ 16 ->
  dir_map (root_entries n fs ++ replicate z 0) name = find_file n fs name.
Proof.
  induction fs as [|f fs IH]; intros n Hg Hn Hb; cbn [root_entries find_file app length] in *; [apply dir_map_zeros|]. apply Forall_cons in Hg as [Hf Hg].
  rewrite <- app_assoc. rewrite (dir_map_entry _ _ _ _ _ (make_entry f n Hf ltac:(lia))) by lia. destruct (decide _); [done|]. apply IH; [done|lia|lia].
Qed.

(** The first two entries. *)
Definition dots : list Z := dot_entry ROOTINO (str ".") ++ dot_entry ROOTINO (str "..").

Lemma dot_entries : entry_for (str ".") ROOTINO (dot_entry ROOTINO (str ".")) /\ entry_for (str "..") ROOTINO (dot_entry ROOTINO (str "..")).
Proof. split; (split; [done|apply (bool_decide_unpack _); by vm_compute|done|by vm_compute]). Qed.

Lemma dir_map_root fs z name : Forall good_file fs -> Z.of_nat (length fs) < NINODES ->
  dir_map ((dots ++ root_entries (ROOTINO + 1) fs) ++ replicate z 0) name = root_names fs name.
Proof.
  intros Hg Hl. destruct dot_entries as [E1 E2]. unfold dots. rewrite <- !app_assoc. rewrite (dir_map_entry _ _ _ _ _ E1), (dir_map_entry _ _ _ _ _ E2) by done.
  unfold NINODES in Hl. rewrite dir_map_root_entries; [|done|done|unfold ROOTINO; lia]. unfold root_names. destruct (decide (named (str ".") name)), (decide (named (str "..") name)).
  all: try (rewrite decide_True by tauto; done). by rewrite decide_False by tauto.
Qed.

(** ** The end of main *)

(** The contents of a file, followed by zeros to the end of its last block. *)
Lemma finv_fbytes img fb i m C sz : finv img fb i m C -> len C <= sz <= m * BSIZE ->
  fbytes img i 0 sz = C ++ replicate (Z.to_nat (sz - len C)) 0.
Proof.
  intros F Hs. unfold len in *. apply list_eq_nthZ; [rewrite length_fbytes, length_app, length_replicate; lia|]. rewrite length_fbytes. intros o Ho.
  rewrite nthZ_fbytes by lia. rewrite Z.add_0_l. rewrite (fv_bytes _ _ _ _ _ F); [|lia|apply Z.div_lt_upper_bound; [done|lia]].
  rewrite nthZ_app by lia. destruct (decide _); [done|]. rewrite nthZ_replicate. apply nthZ_ge. lia.
Qed.

(** With a size within the blocks it has, a file is well formed. *)
Lemma finv_inode_ok img fb n m C sz : let i := inode_on img n in
  finv img fb i m C -> is_inum n -> fb <= FSSIZE -> (forall b, 0 <= b < FSSIZE -> used mk_sb img b = (b <? fb)) ->
  0 <= sz <= m * BSIZE -> inode_ok mk_sb img (set_size sz i).
Proof.
  intros i F Hn Hfb Hu Hs. pose proof (fv_m _ _ _ _ _ F) as Hm. apply IBLOCK_range in Hn. assert (0 < nmeta) by done. split.
  - done.
  - done.
  - change (i_inum _) with n. change (sb_bmapstart mk_sb) with (nmeta - 1). lia.
  - intros k Hk Hn0. pose proof (fv_range _ _ _ _ _ F k Hk Hn0) as Hr. change (slot img (set_size sz i) k) with (slot img i k). change (data_start mk_sb) with nmeta. change (sb_size mk_sb) with FSSIZE. split; [lia|]. rewrite Hu by lia. lia.
  - apply F.
  - cbn [set_size i_size]. unfold BSIZE in *. lia.
  - cbn [set_size i_size]. intros bn Hbn Hsz. apply (fv_mapped _ _ _ _ _ F); unfold BSIZE in *; lia.
Qed.

Lemma set_size_same i : set_size (i_size i) i = i.
Proof. by destruct i. Qed.

(** The files of the image: the root directory and those of the command line. *)
Definition all_files (fs : list arg) : file_list := made dots [] fs.
Definition root_bytes (fs : list arg) : list Z := dots ++ root_entries (ROOTINO + 1) fs.
(** The size that the root directory gets, and the size of the blocks that it has. *)
Definition root_size (fs : list arg) : Z := (len (root_bytes fs) / BSIZE + 1) * BSIZE.
Definition root_mapped (fs : list arg) : Z := blocks (len (root_bytes fs)) * BSIZE.
(** The entries of the root directory fill its last block. *)
Definition root_full (fs : list arg) : Prop := (2 + Z.of_nat (length fs)) mod (BSIZE / sizeof_dirent) = 0.
#[export] Instance root_full_dec fs : Decision (root_full fs).
Proof. unfold root_full. apply _. Defined.

Record image (img : Z -> block) (fb : Z) (fs : list arg) : Prop := {
  im_sb : decode_sb (img 1) = mk_sb;
  im_ok : fs_ok mk_sb img;
  (** the blocks in use *)
  im_blocks : fb = nmeta + total (all_files fs);
  im_used b : 0 <= b < FSSIZE -> used mk_sb img b = (b <? fb);
  (** the root directory *)
  im_root : let i := inode_on img ROOTINO in i_type i = T_DIR /\ i_nlink i = 1 /\ i_size i = root_size fs /\
    inode_ok mk_sb img (set_size (root_mapped fs) i);
  (** its size is that of its blocks, unless the last of them is full: then there is a
      block too few *)
  im_root_size : let i := inode_on img ROOTINO in
    if decide (root_full fs) then i_size i = root_mapped fs + BSIZE /\ slot img i (file_slot (root_mapped fs / BSIZE)) = 0
    else inode_ok mk_sb img i;
  im_names name : dir_map (fbytes img (inode_on img ROOTINO) 0 (root_mapped fs)) name = root_names fs name;
  (** the files *)
  im_file k f : fs !! k = Some f -> let i := inode_on img (ROOTINO + 1 + Z.of_nat k) in
    inode_ok mk_sb img i /\ i_type i = T_FILE /\ i_nlink i = 1 /\ content img i = concat (snd f);
  im_apart n n' : ROOTINO <= n <= ROOTINO + Z.of_nat (length fs) -> ROOTINO <= n' <= ROOTINO + Z.of_nat (length fs) -> n <> n' ->
    apart img (inode_on img n) (inode_on img n');
  (** the other inodes are free *)
  im_free n : ROOTINO + Z.of_nat (length fs) < n < NINODES -> i_type (inode_on img n) = 0
}.

(** The command line fits the disk: its files have names that mkfs accepts and are not too
    long, and there are inodes and blocks enough. *)
Record fits_disk (fs : list arg) : Prop := {
  fd_good : Forall good_file fs;
  fd_inodes : ROOTINO + 1 + Z.of_nat (length fs) <= NINODES;
  fd_blocks : nmeta + total (all_files fs) <= FSSIZE
}.

Lemma len_root fs : len (root_bytes fs) = 16 * (2 + Z.of_nat (length fs)).
Proof. unfold len, root_bytes. rewrite length_app, length_root_entries. change (length dots) with 32%nat. lia. Qed.

Lemma root_size_eq fs : len (root_bytes fs) <= root_mapped fs /\ root_size fs = if decide (root_full fs) then root_mapped fs + BSIZE else root_mapped fs.
Proof.
  unfold root_size, root_mapped, root_full. rewrite len_root. change (BSIZE / sizeof_dirent) with 64. unfold blocks, BSIZE. set (z := Z.of_nat (length fs)) in *.
  pose proof (Z.div_mod (2 + z) 64 ltac:(done)). pose proof (Z.mod_pos_bound (2 + z) 64 ltac:(done)). pose proof (Z.div_mod (16 * (2 + z)) 1024 ltac:(done)). pose proof (Z.mod_pos_bound (16 * (2 + z)) 1024 ltac:(done)).
  pose proof (Z.div_mod (16 * (2 + z) + 1024 - 1) 1024 ltac:(done)). pose proof (Z.mod_pos_bound (16 * (2 + z) + 1024 - 1) 1024 ltac:(done)). split; [lia|]. case_decide; lia.
Qed.

Lemma root_mapped_range fs : fits_disk fs -> 0 <= root_mapped fs <= 4 * BSIZE.
Proof.
  intros Hfd. pose proof (fd_inodes _ Hfd) as Hi. unfold NINODES, ROOTINO in *. unfold root_mapped.
  pose proof (blocks_mono (len (root_bytes fs)) 3232 ltac:(rewrite len_root; lia)) as Hb. change (blocks 3232) with 4 in Hb. pose proof (root_size_eq fs) as [Hl _]. unfold root_mapped, len in *. unfold BSIZE in *. lia.
Qed.

Lemma root_size_u32 fs : fits_disk fs -> 0 <= root_size fs < 2 ^ 32.
Proof. intros Hfd. pose proof (root_mapped_range fs Hfd). pose proof (root_size_eq fs) as [_ ->]. unfold BSIZE in *. case_decide; lia. Qed.

Lemma root_inum : is_inum ROOTINO.
Proof. done. Qed.

Section finish.
Context (fs : list arg) (s : mk) (din : list Z) (Hfd : fits_disk fs) (G : ginv s (all_files fs)).
Context (Hlen : length din = 64%nat) (Hdin : dino ROOTINO din = inode_on (m_img s) ROOTINO).

Let D := root_bytes fs.
Let din' := put32 din 8 (root_size fs).
Let s1 := put_inode ROOTINO din' s.
Let s2 := put_block (sb_bmapstart mk_sb) (mk_bitmap (freeblock s)) s1.

Lemma finish_block x : x = 1 \/ nmeta <= x -> m_img s2 x = m_img s x.
Proof.
  intros Hx. unfold s2, put_block. cbn [m_img]. unfold bupd. change (sb_bmapstart mk_sb) with 45. rewrite decide_False by (change nmeta with 46 in Hx; lia).
  apply put_inode_block; [done|lia].
Qed.

Lemma finish_inode n : is_inum n -> inode_on (m_img s2) n = inode_on (m_img s1) n.
Proof. intros Hn. apply IBLOCK_range in Hn. unfold inode_on, s2, put_block. cbn [m_img]. unfold bupd. rewrite decide_False; [done|]. change (sb_bmapstart mk_sb) with (nmeta - 1). lia. Qed.

Lemma finish_other n : is_inum n -> n <> ROOTINO -> inode_on (m_img s2) n = inode_on (m_img s) n.
Proof using Hfd G Hlen Hdin. intros Hn Hne. rewrite finish_inode by done. apply put_inode_other; [apply G|unfold din'; by rewrite length_put32|done]. Qed.

Lemma finish_root : inode_on (m_img s2) ROOTINO = dino ROOTINO din'.
Proof using Hfd G Hlen Hdin. rewrite finish_inode by done. apply put_inode_same; [apply G|]. unfold din'. by rewrite length_put32. Qed.

Lemma finish_addrs n : is_inum n -> i_addrs (inode_on (m_img s2) n) = i_addrs (inode_on (m_img s) n).
Proof using Hfd G Hlen Hdin.
  intros Hn. destruct (decide (n = ROOTINO)) as [->|]; [|by rewrite finish_other]. rewrite finish_root, <- Hdin. unfold din', dino, load_dinode. cbn [i_addrs].
  apply list_fmap_ext. intros j x Hx. apply list_elem_of_lookup_2, elem_of_upto in Hx. apply get32_put32_out; lia.
Qed.

Lemma finish_data k t C : all_files fs !! k = Some (t, C) -> is_inum (inum_of k) /\
  finv (m_img s2) (freeblock s) (inode_on (m_img s2) (inum_of k)) (blocks (len C)) C /\
  (forall j, slot (m_img s2) (inode_on (m_img s2) (inum_of k)) j = slot (m_img s) (inode_on (m_img s) (inum_of k)) j).
Proof using Hfd G Hlen Hdin.
  intros Hk. pose proof (fn_data _ _ _ _ (gi_file _ _ G k t C Hk)) as F. assert (Hn : is_inum (inum_of k)) by (apply (fl_inum s _ G); by apply lookup_lt_Some in Hk).
  assert (Hb : forall j, 0 <= j < NSLOTS -> slot (m_img s) (inode_on (m_img s) (inum_of k)) j <> 0 ->
    m_img s2 (slot (m_img s) (inode_on (m_img s) (inum_of k)) j) = m_img s (slot (m_img s) (inode_on (m_img s) (inum_of k)) j)).
  { intros j Hj Hn0. apply finish_block. pose proof (fv_range _ _ _ _ _ F j Hj Hn0). lia. }
  split; [done|]. split; [|intros j; apply slot_frame; [by apply finish_addrs|by apply Hb]]. by refine (finv_frame _ _ _ _ _ _ _ _ (finish_addrs _ Hn) _ Hb F).
Qed.

Lemma finish_dinv : dinv s2.
Proof using Hfd G Hlen Hdin.
  pose proof (gi_disk _ _ G) as D0. pose proof (di_free _ D0). apply dinv_put; [by apply dinv_put_inode| |].
  - change (sb_bmapstart mk_sb) with (nmeta - 1). change (freeblock s1) with (freeblock s). lia.
  - apply mk_bitmap_ok. change BPB with 8192. assert (0 < nmeta) by done. unfold FSSIZE in *. lia.
Qed.

Lemma finish_used b : 0 <= b < FSSIZE -> used mk_sb (m_img s2) b = (b <? freeblock s).
Proof using Hfd G Hlen Hdin.
  intros Hb. unfold FSSIZE in Hb. pose proof (di_free _ (gi_disk _ _ G)). assert (0 < nmeta) by done. unfold used, BBLOCK. change BPB with 8192. rewrite Z.div_small, Z.mod_small by lia. rewrite Z.add_0_l.
  unfold s2, put_block. cbn [m_img]. unfold bupd. rewrite decide_True by done. apply mk_bitmap_ok; [|lia]. change BPB with 8192. unfold FSSIZE in *. lia.
Qed.

Lemma finish_image : image (m_img s2) (freeblock s) fs.
Proof using Hfd G Hlen Hdin.
  pose proof (di_free _ (gi_disk _ _ G)) as Hfb. assert (Hnm : 0 < nmeta) by done. pose proof (fd_inodes _ Hfd) as Hin. pose proof (root_size_eq fs) as [Hrm Hrs]. fold D in Hrm. pose proof (root_mapped_range fs Hfd) as Hmr.
  assert (Hroot : all_files fs !! 0%nat = Some (T_DIR, D)) by done. destruct (finish_data 0 T_DIR D Hroot) as (_ & FR & _). change (inum_of 0) with ROOTINO in FR.
  assert (Hsz : i_size (inode_on (m_img s2) ROOTINO) = root_size fs).
  { rewrite finish_root. unfold din', dino, load_dinode. cbn [i_size]. rewrite get32_put32_same by lia. by apply u32_small, root_size_u32. }
  assert (HRok : inode_ok mk_sb (m_img s2) (set_size (root_mapped fs) (inode_on (m_img s2) ROOTINO))).
  { eapply finv_inode_ok; [exact FR|done|lia|exact finish_used|]. split; [lia|]. unfold root_mapped. fold D. lia. }
  assert (H16 : forall x, 0 <= x <= 6 -> get16 din' x = get16 din x) by (intros x Hx; apply get16_ext; intros y Hy; apply nthZ_put32_out; lia).
  assert (Hlf : length (all_files fs) = S (length fs)) by (unfold all_files, made, data_files; cbn [length app]; by rewrite length_fmap).
  assert (Hat : forall k, (k <= length fs)%nat -> exists t C, all_files fs !! k = Some (t, C)).
  { intros k Hk. destruct (lookup_lt_is_Some_2 (all_files fs) k ltac:(lia)) as [[t C] E]. by exists t, C. }
  split.
  - rewrite finish_block by auto. apply G.
  - split; [done|done|apply finish_dinv|]. intros b Hb. change (data_start mk_sb) with nmeta in Hb. rewrite finish_used by lia. lia.
  - apply G.
  - apply finish_used.
  - cbv zeta. destruct (gi_file _ _ G 0%nat T_DIR D Hroot) as [Ht Hn _ _]. change (inum_of 0) with ROOTINO in *. rewrite <- Hdin in Ht, Hn. split_and!; [| |done|exact HRok].
    + rewrite finish_root, <- Ht. unfold dino, load_dinode. cbn [i_type]. by rewrite H16.
    + rewrite finish_root, <- Hn. unfold dino, load_dinode. cbn [i_nlink]. by rewrite H16.
  - cbv zeta. rewrite Hsz, Hrs. case_decide.
    + split; [done|]. destruct (decide (slot (m_img s2) (inode_on (m_img s2) ROOTINO) (file_slot (root_mapped fs / BSIZE)) = 0)) as [|Hn]; [done|].
      exfalso. unfold root_mapped in *. rewrite Z.div_mul in Hn by done. apply (fv_mapped _ _ _ _ _ FR) in Hn; [unfold D in Hn; lia|]. assert (EM : MAXFILE = 268) by done. unfold BSIZE in *. lia.
    + rewrite <- Hrs, <- Hsz, set_size_same in HRok. exact HRok.
  - intros name. rewrite (finv_fbytes _ _ _ _ _ _ FR) by (split; [exact Hrm|unfold root_mapped; fold D; lia]). apply dir_map_root; [apply Hfd|unfold ROOTINO in *; lia].
  - intros k f Hk i. assert (Hk' : all_files fs !! S k = Some (T_FILE, concat (snd f))) by (change (data_files fs !! k = Some (T_FILE, concat (snd f))); unfold data_files; by rewrite list_lookup_fmap, Hk).
    destruct (gi_file _ _ G _ _ _ Hk') as [Ht Hn Hs _]. destruct (finish_data _ _ _ Hk') as (Hi & F & _). assert (En : inum_of (S k) = ROOTINO + 1 + Z.of_nat k) by (unfold inum_of, ROOTINO; lia).
    rewrite En in *. rewrite <- finish_other in Ht, Hn, Hs by (done || unfold ROOTINO; lia). fold i in Ht, Hn, Hs, F. split_and!; [|done|done|].
    + rewrite <- (set_size_same i). eapply finv_inode_ok; [exact F|done|lia|exact finish_used|]. rewrite Hs. pose proof (fv_size _ _ _ _ _ F). unfold len in *. lia.
    + unfold content. rewrite (finv_fbytes _ _ _ _ _ _ F) by (rewrite Hs; pose proof (fv_size _ _ _ _ _ F); unfold len in *; lia). rewrite Hs, Z.sub_diag. apply app_nil_r.
  - intros n n' Hn Hn' Hne. set (k := Z.to_nat (n - 1)). set (k' := Z.to_nat (n' - 1)). unfold ROOTINO in *. replace n with (inum_of k) by (unfold inum_of; lia). replace n' with (inum_of k') by (unfold inum_of; lia).
    destruct (Hat k ltac:(lia)) as (t & C & Hk). destruct (Hat k' ltac:(lia)) as (t' & C' & Hk'). destruct (finish_data _ _ _ Hk) as (_ & _ & S1). destruct (finish_data _ _ _ Hk') as (_ & _ & S2).
    intros j j' Hj Hj'. rewrite S1, S2. apply (gi_apart _ _ G k k'); lia.
  - intros n Hn. unfold ROOTINO in *. rewrite finish_other by (unfold is_inum, ROOTINO in *; lia). apply (gi_free _ _ G). rewrite Hlf. unfold inum_of. lia.
Qed.
End finish.

Lemma room_image fs : fits_disk fs -> room dots [] fs.
Proof.
  intros [_ Hi Hb]. split; [|split; [|done]].
  - unfold inum_of. cbn [length]. unfold ROOTINO in *. lia.
  - change (inum_of (S (length (@nil (Z * list Z))))) with (ROOTINO + 1). fold (root_bytes fs). rewrite len_root. unfold NINODES, ROOTINO in *. change (MAXFILE * BSIZE) with 274432. lia.
Qed.

Lemma fix_root_ok fs s : fits_disk fs -> ginv s (all_files fs) -> exists din,
  length din = 64%nat /\ dino ROOTINO din = inode_on (m_img s) ROOTINO /\
  fix_root ROOTINO s = Made tt (put_inode ROOTINO (put32 din 8 (root_size fs)) s).
Proof.
  intros Hfd G. destruct (rinode_ok ROOTINO s (gi_disk _ _ G) root_inum) as (din & E & Hl & Hd). exists din. split; [done|]. split; [done|].
  assert (Hsz : get32 din 8 = len (root_bytes fs)).
  { pose proof (fn_size _ _ _ _ (gi_file _ _ G 0%nat T_DIR _ eq_refl)) as Hs. change (inum_of 0) with ROOTINO in Hs. rewrite <- Hd in Hs. exact Hs. }
  unfold fix_root, kbind. rewrite E, Hsz. fold (root_size fs). rewrite u32_small by (by apply root_size_u32). apply winode_ok; [apply G|done].
Qed.

Lemma root_ok s0 : ginv s0 [] -> exists s1 s2 s3, mk_ialloc T_DIR s0 = Made ROOTINO s1 /\
  iappend ROOTINO (dot_entry ROOTINO (str ".")) s1 = Made tt s2 /\
  iappend ROOTINO (dot_entry ROOTINO (str "..")) s2 = Made tt s3 /\ ginv s3 [(T_DIR, dots)].
Proof.
  intros G0. destruct (ialloc_ok s0 [] T_DIR G0 ltac:(by left) ltac:(done)) as (s1 & E1 & G1).
  destruct (iappend_fits s1 _ 0 T_DIR [] (dot_entry ROOTINO (str ".")) G1 eq_refl) as (s2 & E2 & G2); [done|by vm_compute|].
  destruct (iappend_fits s2 _ 0 T_DIR (dot_entry ROOTINO (str ".")) (dot_entry ROOTINO (str "..")) G2 eq_refl) as (s3 & E3 & G3); [done|by vm_compute|].
  exists s1, s2, s3. done.
Qed.

(** C10: for files that fit the disk, [mkfs] makes a file system: the program ends without
    failing, and on the image it leaves the superblock, the bitmap, the inodes, the
    contents of the files and the names in the root directory are as the kernel expects
    them ([image]).  If the entries of the root directory fill its last block, which is so
    for 62, 126 or 190 files, the directory's size counts one block that it does not have;
    otherwise its inode too is as the kernel expects it. *)
Theorem mkfs_makes_image fs : fits_disk fs ->
  exists s, mkfs_main (opened fs) mk_start = Made tt s /\ image (m_img s) (freeblock s) fs.
Proof.
  intros Hfd. destruct (wsect_zeroes_ok (Z.to_nat FSSIZE) 0 (Mk (fun _ => zeros BSIZE) 0 1 nmeta)) as (s & E & Hz & Hl & Hi & Hb); [done..|]. cbn in Hi, Hb. change (m_len s = FSSIZE) in Hl.
  pose proof (ginv_start (m_img s) Hz) as G0. set (s0 := Mk _ FSSIZE 1 nmeta) in G0. destruct (root_ok s0 G0) as (s1 & s2 & s3 & E1 & E2 & E3 & G3).
  destruct (add_files_ok fs dots [] s3 (fd_good _ Hfd) (room_image fs Hfd) G3) as (s4 & E4 & G4). destruct (fix_root_ok fs s4 Hfd G4) as (din & Hl4 & Hd4 & E5).
  eexists. split; [|exact (finish_image fs s4 din Hfd G4 Hl4 Hd4)]. unfold mkfs_main, kbind, set_freeblock. cbn [m_img m_len freeinode freeblock mk_start]. rewrite E.
  assert (Ew : forall b, wsect 1 b s = Made tt (Mk (bupd (m_img s) 1 b) FSSIZE 1 nmeta)) by (intros b; unfold wsect; by rewrite Hl, Hi, Hb). rewrite Ew. fold s0. rewrite E1. change (assert (ROOTINO =? ROOTINO) s1) with (Made tt s1).
  cbv iota. rewrite E2, E3, E4, E5. cbn [get_freeblock put_inode put_block freeblock]. pose proof (di_free _ (gi_disk _ _ G4)) as Hf. unfold mk_balloc, assert, kbind.
  rewrite (proj2 (Z.ltb_lt _ _)) by (unfold FSSIZE, BSIZE in *; lia). unfold kret. apply wsect_ok; [by apply dinv_put_inode; [apply G4|]|done].
Qed.

Definition ex_files : list arg := [(str "user/_cat", [[1; 2; 3]; [4; 5]]); (str "README", [replicate 1024 65; [66]])].

Lemma ex_fits : fits_disk ex_files.
Proof.
  split; [|done|by vm_compute]. repeat apply Forall_cons_2; [..|done].
  all: split; [apply (bool_decide_unpack _); by vm_compute|apply (bool_decide_unpack _); by vm_compute|by vm_compute].
Qed.

Lemma mkfs_makes_image_witness : find_file 2 ex_files (str "cat") = Some 2 /\
  exists s, mkfs_main (opened ex_files) mk_start = Made tt s /\ image (m_img s) (freeblock s) ex_files.
Proof. split; [by vm_compute|]. apply (mkfs_makes_image ex_files), ex_fits. Defined.
